(* ===== verification/_CoqProject ===== *)
-Q . S2P
Prelude.v
GoStrings.v
GoNet.v
NetAddr.v
GoTime.v
Crypto.v
Wire.v
WireV2.v
WireV3.v
ReplayWindow.v
Tai64n.v
CipherStream.v
Datagram.v
Policy.v
NonceCache.v
Sessions.v
Handshake.v
Client.v
StreamOpen.v
Tunnel.v
RouteRules.v
GeoData.v
RouteEngine.v
Sniff.v
Socks5.v
Upstream.v
EchDns.v
Rotation.v
DnsCache.v
Connect.v
UdpAssoc.v
Config.v
Transports.v
TransportSession.v
Pool.v
HttpProxy.v
Engine.v
LogRing.v
Server.v
Dial.v
Download.v
Status.v
Control.v
Pacer.v
Globals.v
Listeners.v
