(* ===== verification/Prelude.v ===== *)
(** * x-tunnel: a verification development

    x-tunnel carries TCP and UDP streams of local proxies through WebSocket or
    QUIC channels to a server that dials the targets.  A client keeps several
    channels to the server; each channel starts with a handshake on its first
    stream (ChannelInit, ChannelAccept) that authenticates the client by a token,
    agrees on a cipher and derives session keys; every later stream is wrapped in
    an AEAD record layer, starts with an open header naming the target, and is
    answered by a status.  The server limits clients and streams, remembers
    handshake nonces and freshness labels against replays, and applies a target
    policy before it dials.

    ** Files and the code they model

    - [Prelude]: bytes, big-endian integers, errors, the result and state monads
      ([res], [io]) with their notations, slices, [io.ReadFull], and the lemmas
      and tactics shared by the rest.
    - [GoStrings], [GoNet], [GoTime]: the parts of the Go standard library the
      code calls (strings, strconv, net, net/netip, time).  Case folding and
      spaces beyond ASCII are parameters, the class [GoUnicode].
    - [NetAddr]: internal/netaddr/netaddr.go, validation of hosts and ports.
    - [Crypto]: the primitives outside the repository (SHA-256, HMAC, HKDF,
      X25519, AEAD, the random source) as classes [Crypto] and [Rand], with their
      documented behaviour as [CryptoOk] and [RandOk]; [toy_crypto] is an
      instance of the laws used by the witnesses.
    - [Wire]: internal/wire/protocol.go, the frames of data streams.  An
      [io.Writer] is the class [Writer] with its contract [WriterOk]; short
      writes and errors at any point are covered.
    - [WireV2], [WireV3]: internal/wire/protocol_v2.go and protocol_v3.go, TLV
      records, the control messages, transcripts, proofs and key derivation.
    - [ReplayWindow], [CipherStream]: internal/wire/cipher_stream.go, the
      sliding window of record counters and [V3CipherStream] (records, rekeying,
      padding, coalescing, [Read], [Write], [Close]).
    - [Tai64n]: internal/wire/protocol_tai64n.go, internal/app/tai64n_cache.go
      and the client's label clock of internal/app/client.go.
    - [Datagram]: internal/transport/datagram.go.
    - [Policy]: internal/app/policy.go.
    - [NonceCache]: [nonceReplayCache] of internal/app/server.go.
    - [Sessions]: the session table of internal/app/server.go, as a heap of
      sessions and channels named by address.  Each critical section is one
      operation; [step] is the relation of all their interleavings.
    - [Handshake]: [handlePreAuthTransportSession] of internal/app/server.go, as one
      function and as a machine that makes one access to the shared state at a time.
    - [Client]: [negotiateClientProtocol] of internal/app/client.go and the
      cipher preference of internal/app/config.go.
    - [StreamOpen]: dialling by address family, the stream handler of
      internal/app/server.go and [openTCPStream], [openUDPStream] and the channel
      choice of internal/app/client.go.
    - [RouteRules]: internal/route/rules.go, the rule parser, the rules file
      over a map of files, and the polling watcher.
    - [GeoData]: internal/route/geoindex.go, geodata.go and builtin_cn.go.  The
      protobuf decoder, regular expressions and [sort.Slice] are the classes
      [GeoProto], [GoRegexp] and [GoSort].
    - [RouteEngine]: internal/route/matcher.go and engine.go, and the decisions
      of internal/app/route.go.
    - [Sniff]: internal/app/snisniff.go and dnssniff.go.
    - [Socks5]: the SOCKS5 negotiation, request and UDP frames of
      internal/app/local_socks5.go.
    - [Upstream]: internal/app/upstream_socks5.go, the client side of SOCKS5
      towards an upstream proxy: handshake, CONNECT, UDP ASSOCIATE, the relay.
    - [EchDns]: internal/app/tls_ech_dns.go, DNS queries for HTTPS records, their
      answers, the loop that gets an ECH configuration list, TLS configurations.
    - [Rotation]: internal/transport/rotation.go and selector.go, the pool of
      endpoints and the choice between QUIC and WebSocket.
    - [DnsCache]: internal/app/dnscache.go, the resolver cache as a heap of
      shared entries, with a mailbox per waiting caller.
    - [Connect]: what follows an admitted CONNECT in internal/app/local_socks5.go
      and route.go: the exits, the sniffing of a server name behind a buffered
      reader, [bufferedConn] of front_proxy.go and the copy loop of the relay.
    - [UdpAssoc]: [UDPAssociation] of internal/app/local_socks5.go.  Each critical
      section is one operation; [udp_step] is the relation of all interleavings
      of the loop, the readers and [Close].
    - [Tunnel]: no code of its own; the handshake, the record layer and the
      opening of a stream together.
    - [Config]: internal/app/config.go and the checks it calls in policy.go,
      front_proxy.go and local_http.go.
    - [Globals]: the package variables of internal/app/config.go as a store, the
      flags bound to them, the copies to and from a configuration, and what
      starting an engine assigns.
    - [Transports]: internal/transport/tcp_transport.go and quic_transport.go and
      internal/app/transport_ws.go: addresses and TLS settings of a dial, the
      dials, stream calls, and the two byte streams over WebSocket messages.
    - [TransportSession]: the interface of the sessions as a class with the two
      sessions as instances, the numbers of streams and [wrapV3DataStream].
    - [Pool]: the channel pool [ECHPool] of internal/app/client.go.  Each slot has
      a worker that dials, negotiates and serves, and a prober; their critical
      sections are the actions of one step function.
    - [Dial]: [dialWebSocketWithECH] of internal/app/client.go with its ECH retries.
    - [HttpProxy]: internal/app/local_http.go and the CONNECT of front_proxy.go.
    - [Engine]: internal/app/engine.go and the listeners of status.go: [Start],
      [Close], [abortStart], [finishWhenDone] and their goroutines.
    - [Listeners]: the accept loops of the local proxies, the end of the HTTP
      servers, and the listeners of internal/transport.
    - [Server]: the requests, the source filter, the QUIC datagram relay and the
      copy loops of internal/app/server.go.
    - [Download]: internal/route/download.go, [UpdateGeo] and [initRouteEngine].
    - [LogRing]: internal/app/logring.go and the log stream of control.go.
    - [Status]: internal/app/status.go and the metrics of server.go.
    - [Control]: internal/app/control.go and run.go.
    - [Pacer]: internal/app/pacer.go and keepalive.go.

    ** How the code is modelled

    Bytes are [Byte.byte]; Go integers are [Z] with the wrap-around written out
    ([wrapU], [wrapS]) where it can happen, and the ranges of their types are
    hypotheses ([init_typed], [frame_typed]).  A call returns [res]: a value, an
    error value with its format string, or a run-time panic; indexing and slicing
    panic out of range.  A reader is a state of bytes still to come, a writer any
    instance of [Writer].  The clock and the random source are arguments of the
    calls that read them; what the network, the resolver or an HTTP server
    answers is an argument too; the host of a URL is the class [GoURL], and
    [url.Parse], [time.ParseDuration] and the JSON decoder are [ConfigLib].  The
    pieces in which bytes arrive on a connection, and its failures, are a list
    ([Connect.arrival]).  net/http is [GoHTTP], the parts of net/url that keep
    credentials [GoUserInfo], the text of errors, which may quote the target they are
    about, [ErrorText], and decoding to and printing from a map of fields
    [ConfigFields]; SHA-1 and [url.Parse] are
    arguments in [Download], and [Pacer] is stated for an arithmetic with exact
    rationals and binary64 as its two instances.  Files are maps, with permission
    bits where they matter ([Control.osFS]).  Goroutines that share state are
    actions of a step function over all interleavings, each critical section one
    action and what the code does after it has released the lock (closing what was
    replaced, answering who waits) actions of their own.  Maps are [gmap]; Go pointers that the server shares
    are addresses in a heap.  Log lines, metrics other than the counters of the
    handshake, and deadlines are left out.

    ** What the theorems show

    - The whole path: after the handshake of an honest client and a ready server a
      stream carries the open header, the data and the answer unchanged, and the
      client learns what the server decided ([Tunnel.tunnel_carries_stream]), by the
      status or, when the refusal quotes a target too long for one, by the end of
      the stream.
    - Handshake: an honest client and a ready server complete it with the same
      capabilities, cipher and keys ([Client.handshake_completes]); an
      unauthenticated peer gets no byte and changes no state
      ([Handshake.unauthenticated_leaves_no_trace]); a replay within the nonce's
      lifetime is dropped ([Handshake.replayed_handshake_dropped]); the handler, one
      access to the shared state at a time ([Handshake.handshake_step]) and with
      anything the others do in between, is a run of the session table's own steps
      ([Handshake.handshake_refines_steps]).
    - Session table: limits and registry are invariants of every interleaving, a
      replaced channel closed or about to be by the one that replaced it
      ([Sessions.session_limits_hold], [Sessions.channel_registry_exact]).
    - Record layer: what is written on one end is what the other reads, whatever
      the chunking, rekeying, padding and coalescing
      ([CipherStream.encrypted_stream_delivers]); exactly the
      authentic, fresh and well-sized records are delivered, each under the key of
      its own generation ([CipherStream.read_authenticates]); the bit ring
      refines a set of counters ([ReplayWindow.replay_window_refines_set]).
    - Control and data messages: round trips, exactness of the TLV parser,
      truncation and size errors ([WireV3], [WireV2], [Wire]); transcripts bind
      their inputs, proofs authenticate up to hash collisions, stream keys are
      separated.
    - Streams: the server reaches only targets it validated and the policy allows,
      at the address its strategy chooses for them
      ([StreamOpen.stream_reaches_only_allowed]), both ends agree on the outcome
      ([StreamOpen.open_outcome_reported]), and the policy decides as documented
      ([Policy.target_policy_table]).
    - Freshness, nonces, datagrams: the caches refine lists of recent entries,
      labels are ordered as times, reassembly inverts fragmentation.
    - Routing: a target gets the action of the first rule that covers it
      ([RouteEngine.match_first_rule], [RouteEngine.route_decision]); the index
      and the binary search find what a linear reading of the data finds
      ([GeoData.geosite_index_exact], [GeoData.geoip_search_exact]); the parser
      returns what the lines say and reads back what it prints
      ([RouteRules.rules_parser_exact]); an edit of
      the rules file is in force after one poll of a quiet file
      ([RouteEngine.hot_reload_converges]).
    - Sniffing: a server name is found exactly in the records that carry one
      ([Sniff.sni_sniffer_exact]); the DNS parsers return on every packet
      ([Sniff.dns_sniffers_total]) and read what well-formed messages carry
      ([Sniff.dns_messages_sniffed]).
    - Local SOCKS5: a request is admitted only after the configured
      authentication, and then with the target it names
      ([Socks5.socks5_admission]); UDP frames round-trip
      ([Socks5.udp_frames_roundtrip]).
    - SOCKS5 upstream: the answer to a CONNECT decides the result of the dial
      ([Upstream.upstream_dial_exact]), and the upstream's client and the local
      proxy understand each other ([Upstream.upstream_meets_local]).
    - ECH: the parser returns on every answer ([EchDns.ech_parser_total]), finds
      the list an answer carries ([EchDns.ech_query_answered]); a list once loaded is
      not lost, and a TLS configuration built without fallback has it or there is an
      error ([EchDns.tls_config_keeps_ech]), which the QUIC dial of the pool ignores
      ([Pool.tls_error_dials_unverified]).
    - Endpoints: the pool refines a count of recent failures
      ([Rotation.pool_counts_failures]), gives every endpoint its turn
      ([Rotation.round_robin_fair]), and QUIC is tried exactly when its memory
      of the host allows it ([Rotation.quic_fallback]).
    - CONNECT: the routing decision alone chooses between the tunnel, the direct
      exit and a refusal, there is one reply, and nothing stays open after a
      failure ([Connect.connect_outcome]); sniffing loses no byte and rewrites
      the target exactly for a first record that carries another name
      ([Connect.sni_rewrite_lossless]).
    - UDP association: one client, one tunnel target, payloads unchanged, closed once
      and each of its resources released by its own call ([UdpAssoc.udp_association_safe]); where datagrams go
      ([UdpAssoc.udp_datagram_routed]); what [Close] releases
      ([UdpAssoc.udp_close_releases]).
    - Configuration: flags win over the file ([Config.config_file_over_flags]),
      what passes the checks ([Config.startup_checked]), reconnection delays
      ([Config.reconnect_delay_bounds]), aliases ([Config.aliases_normalized]).
    - Settings: every setting is the flag's, else the file's, else the default
      ([Globals.cli_precedence]); the copies of the variables are inverse
      ([Globals.globals_roundtrip]) and a running engine has its own configuration
      in force ([Globals.globals_in_force]).
    - Channel pool: a slot that is offered has a live session and the keys of its
      handshake ([Pool.pool_channels_sound]), and cancelling ends every worker
      ([Pool.pool_stops]); probes are answered ([Pool.ping_answered]).
    - Life cycle: once stopping has begun the engine comes to rest in a bounded
      number of steps, whether or not its pool ends, which may never happen
      ([Engine.engine_stops], [Dial.refresh_holds_dial]), [done] is closed once and the first
      fatal error is kept ([Engine.engine_done_once]), exit codes
      ([Control.exit_codes]); accept loops hand over every connection and end with
      the context ([Listeners.accept_loop_serves]), as the engine assumes of them
      ([Listeners.accept_refines_engine]).
    - Server: only allowed sources reach the handshake over WebSocket
      ([Server.source_filter]), both ends authenticate the same name
      ([Server.endpoint_names_agree]), the UDP relay of a stream passes on exactly the
      packets up to the first failure ([Server.udp_relay_faithful]), and what
      happens to a QUIC datagram, which is not what is documented
      ([Server.quic_datagram_relayed]).
    - Sessions: from its first [Close] on a session of either transport refuses
      every call, and what it held was released once
      ([TransportSession.session_closed_for_good]).
    - HTTP proxy: one exit and one answer per request, with what the target and the
      client are sent ([HttpProxy.http_outcome]), and what is forwarded ([HttpProxy.http_headers_forwarded]).
    - Control: no endpoint beyond version and health acts without the token
      ([Control.control_auth]); the ready file appears whole
      ([Control.ready_file_atomic]).
    - Logs, status, metrics: the ring keeps the last entries
      ([LogRing.log_ring_refines]), a stream of them has no gap and no repetition
      ([LogRing.log_stream_exact]), status and metrics agree
      ([Status.channel_status_agrees], [Status.metrics_agree]).
    - Downloads replace files whole ([Download.geo_update_atomic]); the pacer
      keeps its rate ([Pacer.pacer_keeps_rate]).
    - Resolver cache: no waiting caller is left without an answer, in every
      interleaving, the sends after the lock one by one
      ([DnsCache.dns_waiters_answered]).
    - Weaknesses the model exposes: the last counter of the replay window never
      returns, labels beyond [2^63 + 2^62] decode to the past, fragments are
      cut or miscounted, [removeChannel] races with a handshake, a nonce is
      forgotten before its message is too old, a failed key exchange keeps its
      session, a failed look-up forgets an address verified meanwhile, a
      stream opened while its association closes is never closed
      ([UdpAssoc.udp_close_race]), a failing TLS configuration dials without
      verification ([Pool.tls_error_dials_unverified]), a body that came with its
      request is lost ([HttpProxy.http_body_lost]), a [Close] during a failing start
      leaves [Wait] hanging ([Engine.close_during_failed_start_hangs]), checking a
      configuration changes the ciphers in use ([Control.check_sets_ciphers]), QUIC
      ignores the source filter, the target policy and the datagram switch
      ([Server.quic_source_unfiltered], [Server.quic_datagram_unchecked],
      [Listeners.datagrams_always_on]) and cuts stream numbers to 32 bits, so that
      keys repeat ([TransportSession.quic_stream_numbers]), log messages are not redacted
      ([LogRing.bracketed_message_not_redacted]), a partial update is never loaded
      ([Download.partial_update_not_loaded]), a refusal that quotes a long target is
      never told ([StreamOpen.open_outcome_reported]).

    ** Fuel

    Loops that are not structural carry fuel equal to the length of their input
    or to a bound of the code: the TLV parser and [writeAllCount] consume at
    least one byte a round, the record writers at least one byte of the buffer,
    and the clearing loop of the replay window runs at most 2048 rounds when it
    ends at all ([checkAndAdd_fuel] with any fuel is used to show that it may
    not).  The DNS name loop of [EchDns] records an offset of the message each
    round and stops at one it has seen, so the length of the message and one
    more round are enough.  [Peek] adds a byte a round or stops at
    an error, within the 4096 bytes of its buffer, and [io_Copy] takes at least a
    byte a round.  No theorem holds by running out of fuel: the round trips and
    [encrypted_stream_delivers] state that the calls return.

    The engine and the pool carry no fuel: their runs are lists of actions, and
    [work] is the measure that every step of a shutdown decreases.

    ** Not modelled

    protocol_alias.go and the exported names of package wire repeat other names;
    main.go calls [RunCLI].  The getters of addresses, the deadlines and the
    configuration records of smux only forward to libraries outside the
    repository, as do the self-signed certificate (crypto/x509), the installation
    of the log writer, and the printing of a configuration for its hash (fmt).
    Cover traffic repeats the RTT probe of [Pool] on a timer.  The texts of the
    command line are taken as parsed values.  Log lines are left out except where
    the log itself is the subject ([LogRing]). *)

From Stdlib Require Import ZArith Lia Strings.Byte.
From stdpp Require Import base numbers list gmap strings.
Export String.StringSyntax.
Bind Scope string_scope with String.string.
Delimit Scope string_scope with string.

Local Open Scope Z_scope.

(** * Bytes *)

Abbreviation byte := Corelib.Init.Byte.byte.
Abbreviation bytes := (list Corelib.Init.Byte.byte).

#[export] Instance byte_eq_decision : EqDecision byte := Byte.byte_eq_dec.

#[export] Program Instance byte_countable : Countable byte :=
  inj_countable Byte.to_N Byte.of_N _.
Next Obligation. intros b. apply Byte.of_to_N. Qed.

(** The unsigned value of a byte, and the byte of an integer modulo 256. *)
Definition b2z (b : byte) : Z := Z.of_N (Byte.to_N b).

Definition z2b (z : Z) : byte :=
  match Byte.of_N (Z.to_N (z mod 256)) with
  | Some b => b
  | None => Byte.x00
  end.

(** The bytes of a literal: Go strings and byte slices are both [bytes]. *)
Definition bs (s : String.string) : bytes := String.list_byte_of_string s.

(** [len], as Go's [int]. *)
Definition len {A} (l : list A) : Z := Z.of_nat (length l).

(** [binary.BigEndian.PutUintN] into [n] bytes and [binary.BigEndian.UintN]. *)
Fixpoint be_put (n : nat) (z : Z) : bytes :=
  match n with
  | O => []
  | S k => z2b (z / 256 ^ Z.of_nat k) :: be_put k z
  end.

Fixpoint be_get_acc (acc : Z) (l : bytes) : Z :=
  match l with
  | [] => acc
  | b :: l' => be_get_acc (acc * 256 + b2z b) l'
  end.

Definition be_get (l : bytes) : Z := be_get_acc 0 l.

(** Conversions between widths: unsigned truncation and two's complement. *)
Definition wrapU (w : Z) (z : Z) : Z := z mod 2 ^ w.

Definition wrapS (w : Z) (z : Z) : Z := (z + 2 ^ (w - 1)) mod 2 ^ w - 2 ^ (w - 1).

(** * Errors, results and effects *)

(** An [error] value.  [Errorf] keeps the format string and the integer
    arguments; [Wrapf] is [fmt.Errorf] with a [%w] verb. *)
Inductive error : Type :=
  | EOF
  | ErrUnexpectedEOF
  | ErrShortWrite
  | ErrClosedPipe
  | Errorf (fmt : String.string) (args : list Z)
  | Wrapf (fmt : String.string) (e : error).

(** The outcome of a call: a value, an error value, or a run-time panic. *)
Inductive res (A : Type) : Type :=
  | Ok (a : A)
  | Err (e : error)
  | Panic.

Arguments Ok {A} _.
Arguments Err {A} _.
Arguments Panic {A}.

Definition res_bind {A B} (m : res A) (k : A -> res B) : res B :=
  match m with
  | Ok a => k a
  | Err e => Err e
  | Panic => Panic
  end.

(** A computation over a state [S] (an input stream, a writer). *)
Definition io (S A : Type) : Type := S -> S * res A.

Definition io_ret {S A} (a : A) : io S A := fun s => (s, Ok a).

Definition io_err {S A} (e : error) : io S A := fun s => (s, Err e).

Definition io_lift {S A} (m : res A) : io S A := fun s => (s, m).

Definition io_bind {S A B} (m : io S A) (k : A -> io S B) : io S B :=
  fun s =>
    match m s with
    | (s', Ok a) => k a s'
    | (s', Err e) => (s', Err e)
    | (s', Panic) => (s', Panic)
    end.

(** Replaces the error of a computation: [if err != nil { return fmt.Errorf(..) }]. *)
Definition res_map_err {A} (f : error -> error) (m : res A) : res A :=
  match m with
  | Ok a => Ok a
  | Err e => Err (f e)
  | Panic => Panic
  end.

Declare Scope go_scope.
Delimit Scope go_scope with go.

Notation "'let!' x ':=' m 'in' k" := (res_bind m (fun x => k))
  (at level 10, x pattern, m at level 100, k at level 200) : go_scope.

Notation "'do!' x '<-' m 'in' k" := (io_bind m (fun x => k))
  (at level 10, x pattern, m at level 100, k at level 200) : go_scope.

Notation "m1 ';!' m2" := (io_bind m1 (fun _ => m2))
  (at level 199, right associativity) : go_scope.

(** [b[i]] and [b[i:j]]: a panic out of range.  Slicing is bounded by the
    length, not by the capacity. *)
Definition index (b : bytes) (i : Z) : res byte :=
  if 0 <=? i then
    match b !! Z.to_nat i with
    | Some x => Ok x
    | None => Panic
    end
  else Panic.

Definition slice (b : bytes) (i j : Z) : res bytes :=
  if (0 <=? i) && (i <=? j) && (j <=? len b)
  then Ok (take (Z.to_nat (j - i)) (drop (Z.to_nat i) b))
  else Panic.

(** [io.ReadFull] on a finite input stream: the state is what is left. *)
Definition ReadFull (n : nat) : io bytes bytes :=
  fun s =>
    if (n =? 0)%nat then (s, Ok [])
    else if (length s <? n)%nat
         then ([], match s with [] => Err EOF | _ => Err ErrUnexpectedEOF end)
         else (drop n s, Ok (take n s)).

(** * Lemmas on bytes and fixed-width integers *)

Lemma b2z_range b : 0 <= b2z b < 256.
Proof. unfold b2z. pose proof (Byte.to_N_bounded b). lia. Qed.

Lemma b2z_inj b1 b2 : b2z b1 = b2z b2 -> b1 = b2.
Proof.
  unfold b2z. intros H%N2Z.inj.
  enough (Some b1 = Some b2) by congruence.
  by rewrite <- !Byte.of_to_N, H.
Qed.

Lemma z2b_b2z b : z2b (b2z b) = b.
Proof.
  unfold z2b. rewrite Z.mod_small by apply b2z_range.
  unfold b2z. by rewrite N2Z.id, Byte.of_to_N.
Qed.

Lemma b2z_z2b z : b2z (z2b z) = z mod 256.
Proof.
  unfold z2b. pose proof (Z.mod_pos_bound z 256 eq_refl) as Hb.
  destruct (Byte.of_N (Z.to_N (z mod 256))) eqn:E.
  - apply Byte.to_of_N in E. unfold b2z. rewrite E. lia.
  - apply Byte.of_N_None_iff in E. lia.
Qed.

Lemma b2z_z2b_small z : 0 <= z < 256 -> b2z (z2b z) = z.
Proof. intros H. rewrite b2z_z2b. by apply Z.mod_small. Qed.

Lemma z2b_mod z : z2b (z mod 256) = z2b z.
Proof. apply b2z_inj. rewrite !b2z_z2b. by apply Z.mod_mod. Qed.

Lemma length_be_put n z : length (be_put n z) = n.
Proof. induction n; simpl; congruence. Qed.

Lemma be_get_acc_spec l acc :
  be_get_acc acc l = acc * 256 ^ len l + be_get_acc 0 l.
Proof.
  revert acc. induction l as [|b l IH]; intros acc; simpl.
  - unfold len; simpl. lia.
  - rewrite IH. rewrite (IH (0 * 256 + b2z b)).
    unfold len; simpl length. rewrite Nat2Z.inj_succ, Z.pow_succ_r by lia. lia.
Qed.

Lemma be_get_cons b l : be_get (b :: l) = b2z b * 256 ^ len l + be_get l.
Proof. unfold be_get; simpl. apply be_get_acc_spec. Qed.

Lemma be_get_nil : be_get [] = 0.
Proof. reflexivity. Qed.

Lemma be_get_range l : 0 <= be_get l < 256 ^ len l.
Proof.
  induction l as [|b l IH]; [by unfold be_get, len; simpl; lia|].
  rewrite be_get_cons. unfold len in *; simpl length.
  rewrite Nat2Z.inj_succ, Z.pow_succ_r by lia.
  pose proof (b2z_range b). nia.
Qed.

Lemma be_get_put n z : be_get (be_put n z) = z mod 256 ^ Z.of_nat n.
Proof.
  induction n as [|n IH]; simpl.
  - by rewrite Z.mod_1_r.
  - rewrite be_get_cons, IH, b2z_z2b. unfold len. rewrite length_be_put.
    change (Z.pos (Pos.of_succ_nat n)) with (Z.of_nat (S n)).
    rewrite Nat2Z.inj_succ, Z.pow_succ_r by lia.
    rewrite (Z.mul_comm 256), Z.rem_mul_r by lia. lia.
Qed.

Lemma be_get_put_small n z :
  0 <= z < 256 ^ Z.of_nat n -> be_get (be_put n z) = z.
Proof. intros H. rewrite be_get_put. by apply Z.mod_small. Qed.

Lemma be_put_mod n z k :
  (n <= k)%nat -> be_put n (z mod 256 ^ Z.of_nat k) = be_put n z.
Proof.
  intros Hk. induction n as [|n IH]; simpl; [done|].
  rewrite IH by lia. f_equal. apply b2z_inj. rewrite !b2z_z2b.
  replace (Z.of_nat k) with (Z.of_nat n + (1 + (Z.of_nat k - Z.of_nat n - 1))) by lia.
  rewrite Z.pow_add_r, Z.rem_mul_r by lia.
  rewrite Z.mul_comm, Z.div_add by lia.
  rewrite (Z.div_small (z mod _)) by (apply Z.mod_pos_bound; lia).
  rewrite Z.add_0_l, Z.pow_add_r by lia.
  change (256 ^ 1) with 256. rewrite Z.rem_mul_r by lia.
  rewrite (Z.mul_comm 256), Z.mod_add by lia. by apply Z.mod_mod.
Qed.

Lemma be_put_get l : be_put (length l) (be_get l) = l.
Proof.
  induction l as [|b l IH]; [done|]. simpl. rewrite be_get_cons.
  fold (len l). pose proof (be_get_range l).
  f_equal.
  - rewrite Z.div_add_l by lia. rewrite Z.div_small by lia.
    rewrite Z.add_0_r. apply z2b_b2z.
  - rewrite <- (be_put_mod _ _ (length l)) by lia. fold (len l).
    rewrite (Z.add_comm (b2z b * _)), Z.mod_add by lia.
    unfold len. by rewrite be_put_mod by lia.
Qed.

Lemma be_put_get' n l : length l = n -> be_put n (be_get l) = l.
Proof. intros <-. apply be_put_get. Qed.

Lemma wrapU_range w z : 0 <= w -> 0 <= wrapU w z < 2 ^ w.
Proof. intros. apply Z.mod_pos_bound. lia. Qed.

Lemma wrapU_small w z : 0 <= z < 2 ^ w -> wrapU w z = z.
Proof. apply Z.mod_small. Qed.

Lemma wrapS_small w z :
  0 < w -> - 2 ^ (w - 1) <= z < 2 ^ (w - 1) -> wrapS w z = z.
Proof.
  intros Hw Hz. unfold wrapS.
  replace (2 ^ w) with (2 * 2 ^ (w - 1)).
  - rewrite Z.mod_small; lia.
  - rewrite <- Z.pow_succ_r by lia. f_equal. lia.
Qed.

Lemma wrapS_range w z : 0 < w -> - 2 ^ (w - 1) <= wrapS w z < 2 ^ (w - 1).
Proof.
  intros Hw. unfold wrapS.
  assert (2 ^ w = 2 * 2 ^ (w - 1)) as E by (rewrite <- Z.pow_succ_r by lia; f_equal; lia).
  pose proof (Z.mod_pos_bound (z + 2 ^ (w - 1)) (2 ^ w)). lia.
Qed.

(** Signed values survive the trip through an unsigned word of their width. *)
Lemma wrapS_wrapU w z :
  0 < w -> - 2 ^ (w - 1) <= z < 2 ^ (w - 1) -> wrapS w (wrapU w z) = z.
Proof.
  intros Hw Hz. unfold wrapU, wrapS.
  rewrite Z.add_mod_idemp_l by lia. by apply wrapS_small.
Qed.

(** * Streams, slices and automation *)

Create Rewrite HintDb lens.
#[export] Hint Rewrite @length_app @length_be_put @length_map @length_cons
  @length_take @length_drop @length_replicate @length_nil : lens.

Create HintDb gores.

(** Arithmetic on lengths: [len] as [Z.of_nat (length _)], then [lia]. *)
Ltac solve_len :=
  unfold len in *; autorewrite with lens in *; cbn [length] in *; lia.

(** Case analysis on the matches of the goal and of the hypotheses. *)
Ltac go_cases :=
  repeat (simplify_eq/=; try (case_match; simplify_eq/=; try done)).

Lemma len_nonneg {A} (l : list A) : 0 <= len l.
Proof. unfold len. lia. Qed.

Lemma len_app {A} (l1 l2 : list A) : len (l1 ++ l2) = len l1 + len l2.
Proof. solve_len. Qed.

Lemma len_cons {A} (x : A) (l : list A) : len (x :: l) = 1 + len l.
Proof. solve_len. Qed.

Lemma len_be_put n z : len (be_put n z) = Z.of_nat n.
Proof. solve_len. Qed.

Lemma ReadFull_app n a s : length a = n -> ReadFull n (a ++ s) = (s, Ok a).
Proof.
  intros <-. unfold ReadFull. destruct a as [|b a]; [done|].
  cbn [length Nat.eqb].
  destruct (Nat.ltb_spec (length ((b :: a) ++ s)) (S (length a))).
  - autorewrite with lens in *. cbn in *. lia.
  - rewrite drop_app_length' by done. by rewrite take_app_length' by done.
Qed.

(** A successful [ReadFull] splits the stream at [n]. *)
Lemma ReadFull_ok n s s' a :
  ReadFull n s = (s', Ok a) -> s = a ++ s' /\ length a = n.
Proof.
  unfold ReadFull. destruct (Nat.eqb_spec n 0) as [->|]; [by intros [= -> <-]|].
  destruct (Nat.ltb_spec (length s) n).
  - by destruct s.
  - intros [= <- <-]. rewrite take_drop. by rewrite length_take_le.
Qed.

Lemma ReadFull_short n s :
  (length s < n)%nat ->
  ReadFull n s = ([], match s with [] => Err EOF | _ => Err ErrUnexpectedEOF end).
Proof.
  intros H. unfold ReadFull.
  destruct (Nat.eqb_spec n 0); [lia|]. by destruct (Nat.ltb_spec (length s) n); [|lia].
Qed.

Lemma ReadFull_total n s : snd (ReadFull n s) <> Panic.
Proof. unfold ReadFull. repeat case_match; done. Qed.

Lemma slice_app_mid a b c :
  slice (a ++ b ++ c) (len a) (len a + len b) = Ok b.
Proof.
  unfold slice. rewrite !len_app.
  pose proof (len_nonneg a). pose proof (len_nonneg b). pose proof (len_nonneg c).
  destruct (Z.leb_spec 0 (len a)); [|lia].
  destruct (Z.leb_spec (len a) (len a + len b)); [|lia].
  destruct (Z.leb_spec (len a + len b) (len a + (len b + len c))); [|lia].
  cbn [andb]. replace (Z.to_nat (len a)) with (length a) by solve_len.
  replace (Z.to_nat (len a + len b - len a)) with (length b) by solve_len.
  by rewrite drop_app_length, take_app_length.
Qed.

Lemma slice_ok b i j :
  0 <= i -> i <= j -> j <= len b ->
  slice b i j = Ok (take (Z.to_nat (j - i)) (drop (Z.to_nat i) b)).
Proof.
  intros. unfold slice.
  destruct (Z.leb_spec 0 i); [|lia].
  destruct (Z.leb_spec i j); [|lia].
  by destruct (Z.leb_spec j (len b)); [|lia].
Qed.

Lemma len_slice b i j c : slice b i j = Ok c -> len c = j - i.
Proof.
  unfold slice. destruct (Z.leb_spec 0 i), (Z.leb_spec i j), (Z.leb_spec j (len b));
    simpl; intros [= <-]. solve_len.
Qed.

Lemma index_ok b i : 0 <= i < len b -> exists x, index b i = Ok x.
Proof.
  intros H. unfold index. destruct (Z.leb_spec 0 i); [|lia].
  destruct (b !! Z.to_nat i) eqn:E; [by eauto|].
  apply lookup_ge_None in E. solve_len.
Qed.

Lemma Ok_inj {A} (a b : A) : Ok a = Ok b -> a = b.
Proof. congruence. Qed.

(** Computations that never panic compose. *)
Lemma res_bind_no_panic {A B} (m : res A) (k : A -> res B) :
  m <> Panic -> (forall a, m = Ok a -> k a <> Panic) -> res_bind m k <> Panic.
Proof. destruct m; simpl; auto. Qed.

#[export] Hint Resolve ReadFull_total : gores.
