(* ===== verification/GoStrings.v ===== *)
(** The functions of Go's [strings] and [strconv] that the tunnel calls, over
    byte strings.  On ASCII input they are defined here; where Go falls back to
    its Unicode tables (a byte [>= 0x80] is met) the result is an operation of
    the class [GoUnicode], so that every client is generic in those tables. *)

From Stdlib Require Import ZArith Lia Strings.Byte.
From stdpp Require Import base numbers list sets.
From S2P Require Import Prelude.

Local Open Scope Z_scope.

(** The Unicode-aware fallbacks of [strings]. *)
Class GoUnicode := {
  unicode_to_lower : bytes -> bytes;
  unicode_to_upper : bytes -> bytes;
  unicode_trim_space : bytes -> bytes;
  unicode_trim_right_space : bytes -> bytes;
  unicode_fields : bytes -> list bytes;
  unicode_equal_fold : bytes -> bytes -> bool;
}.

(** An instance for concrete runs: bytes outside ASCII are left alone. *)
Definition ascii_only_unicode : GoUnicode := {|
  unicode_to_lower := fun s => s;
  unicode_to_upper := fun s => s;
  unicode_trim_space := fun s => s;
  unicode_trim_right_space := fun s => s;
  unicode_fields := fun s => [s];
  unicode_equal_fold := fun s t => bool_decide (s = t);
|}.

(** * Byte classes *)

Definition chr (c : byte) (x : byte) : bool := bool_decide (c = x).

Definition between (lo hi : Z) (c : byte) : bool := (lo <=? b2z c) && (b2z c <=? hi).

Definition is_digit (c : byte) : bool := between 48 57 c.
Definition is_lower (c : byte) : bool := between 97 122 c.
Definition is_upper (c : byte) : bool := between 65 90 c.
Definition is_ascii_byte (c : byte) : bool := b2z c <? 128.
Definition is_ascii (s : bytes) : bool := forallb is_ascii_byte s.

(** [asciiSpace]: tab, newline, vertical tab, form feed, carriage return, space. *)
Definition is_space (c : byte) : bool := between 9 13 c || (b2z c =? 32).

Definition lower_byte (c : byte) : byte := if is_upper c then z2b (b2z c + 32) else c.
Definition upper_byte (c : byte) : byte := if is_lower c then z2b (b2z c - 32) else c.

(** * package strings *)

Section Strings.
Context `{U : GoUnicode}.

Definition ToLower (s : bytes) : bytes :=
  if is_ascii s then map lower_byte s else unicode_to_lower s.

Definition ToUpper (s : bytes) : bytes :=
  if is_ascii s then map upper_byte s else unicode_to_upper s.

(** The scan from the end of [TrimSpace], on the reversed string. *)
Fixpoint trim_right_rev (r : bytes) : bytes :=
  match r with
  | [] => []
  | c :: r' =>
      if negb (is_ascii_byte c) then unicode_trim_right_space (rev r)
      else if is_space c then trim_right_rev r' else rev r
  end.

Fixpoint TrimSpace (s : bytes) : bytes :=
  match s with
  | [] => []
  | c :: s' =>
      if negb (is_ascii_byte c) then unicode_trim_space s
      else if is_space c then TrimSpace s' else trim_right_rev (rev s)
  end.

(** The words between spaces: [word] is the one being read. *)
Fixpoint ascii_fields (s word : bytes) : list bytes :=
  let close := match word with [] => [] | _ => [word] end in
  match s with
  | [] => close
  | c :: s => if is_space c then close ++ ascii_fields s [] else ascii_fields s (word ++ [c])
  end.

Definition Fields (s : bytes) : list bytes := if is_ascii s then ascii_fields s [] else unicode_fields s.

(** [strings.EqualFold] of any two strings. *)
Definition EqualFoldAny (s t : bytes) : bool :=
  if is_ascii s && is_ascii t then bool_decide (map lower_byte s = map lower_byte t) else unicode_equal_fold s t.

End Strings.

Fixpoint HasPrefix (s p : bytes) {struct p} : bool :=
  match p, s with
  | [], _ => true
  | x :: p', y :: s' => chr x y && HasPrefix s' p'
  | _ :: _, [] => false
  end.

Definition HasSuffix (s p : bytes) : bool :=
  (length p <=? length s)%nat && bool_decide (drop (length s - length p) s = p).

Definition TrimSuffix (s p : bytes) : bytes :=
  if HasSuffix s p then take (length s - length p) s else s.

Definition TrimPrefix (s p : bytes) : bytes :=
  if HasPrefix s p then drop (length p) s else s.

(** [strings.CutPrefix]. *)
Definition CutPrefix (s p : bytes) : bytes * bool :=
  if HasPrefix s p then (drop (length p) s, true) else (s, false).

Fixpoint Contains (s p : bytes) : bool :=
  HasPrefix s p || match s with [] => false | _ :: s' => Contains s' p end.

(** [strings.ContainsAny] with an ASCII character set. *)
Definition ContainsAny (s chars : bytes) : bool :=
  existsb (fun c => existsb (chr c) chars) s.

(** [strings.IndexByte] and [strings.LastIndexByte], [-1] for none. *)
Fixpoint IndexByte (s : bytes) (c : byte) : Z :=
  match s with
  | [] => -1
  | x :: s' => if chr c x then 0 else
      let i := IndexByte s' c in if i <? 0 then -1 else i + 1
  end.

Fixpoint LastIndexByte (s : bytes) (c : byte) : Z :=
  match s with
  | [] => -1
  | x :: s' =>
      let i := LastIndexByte s' c in
      if 0 <=? i then i + 1 else if chr c x then 0 else -1
  end.

(** [strings.Split] and [strings.Cut] with a one-byte separator. *)
Fixpoint Split (s : bytes) (sep : byte) : list bytes :=
  match s with
  | [] => [[]]
  | x :: s' =>
      if chr sep x then [] :: Split s' sep
      else match Split s' sep with
           | [] => [[x]]
           | f :: fs => (x :: f) :: fs
           end
  end.

Fixpoint Cut (s : bytes) (sep : byte) : bytes * bytes * bool :=
  match s with
  | [] => ([], [], false)
  | x :: s' =>
      if chr sep x then ([], s', true)
      else let '(a, b, ok) := Cut s' sep in (x :: a, b, ok)
  end.

(** [strings.Join] with a one-byte separator. *)
Fixpoint Join (l : list bytes) (sep : byte) : bytes :=
  match l with
  | [] => []
  | [f] => f
  | f :: fs => f ++ sep :: Join fs sep
  end.

(** [strings.EqualFold] against an ASCII word without the letters [k] and [s]
    (the only ones with a non-ASCII fold). *)
Definition EqualFold (s t : bytes) : bool :=
  bool_decide (map lower_byte s = map lower_byte t).

(** [strings.Count] of one byte. *)
Definition CountByte (s : bytes) (c : byte) : Z := len (List.filter (chr c) s).

(** [strings.ReplaceAll(s, c, "")] for one byte. *)
Definition RemoveByte (s : bytes) (c : byte) : bytes :=
  List.filter (fun x => negb (chr c x)) s.

(** * package strconv *)

Definition digit (d : Z) : byte := z2b (48 + d).

Fixpoint itoa_digits (fuel : nat) (z : Z) (acc : bytes) : bytes :=
  match fuel with
  | O => acc
  | S f => if z <? 10 then digit z :: acc
           else itoa_digits f (z / 10) (digit (z mod 10) :: acc)
  end.

(** [strconv.Itoa]; twenty digits cover a 64-bit integer. *)
Definition Itoa (z : Z) : bytes :=
  if z <? 0 then z2b 45 :: itoa_digits 20 (- z) [] else itoa_digits 20 z [].

Fixpoint atoi_digits (s : bytes) (acc : Z) : option Z :=
  match s with
  | [] => Some acc
  | c :: s' => if is_digit c then atoi_digits s' (acc * 10 + (b2z c - 48)) else None
  end.

Definition in_int64 (z : Z) : bool := (- 2 ^ 63 <=? z) && (z <? 2 ^ 63).

(** [strconv.Atoi]: an optional sign and decimal digits, in range of [int];
    [None] is a syntax or range error. *)
Definition Atoi (s : bytes) : option Z :=
  let '(neg, ds) :=
    match s with
    | c :: s' => if b2z c =? 45 then (true, s')
                 else if b2z c =? 43 then (false, s') else (false, s)
    | [] => (false, [])
    end in
  match ds with
  | [] => None
  | _ => match atoi_digits ds 0 with
         | Some v => let z := if neg then - v else v in
                     if in_int64 z then Some z else None
         | None => None
         end
  end.

(** * Lemmas *)

Lemma chr_true c x : chr c x = true <-> c = x.
Proof. unfold chr. by rewrite bool_decide_eq_true. Qed.

Lemma chr_refl c : chr c c = true.
Proof. by apply chr_true. Qed.

Lemma chr_false c x : chr c x = false <-> c <> x.
Proof. unfold chr. by rewrite bool_decide_eq_false. Qed.

Lemma HasPrefix_app s p : HasPrefix s p = true <-> exists t, s = p ++ t.
Proof.
  revert s. induction p as [|x p IH]; intros s; simpl.
  - split; eauto.
  - destruct s as [|y s]; [by split; [|intros [? ?]]|].
    rewrite andb_true_iff, chr_true, IH. split.
    + intros [-> [t ->]]. eauto.
    + intros [t [= -> ->]]. eauto.
Qed.

Lemma HasSuffix_app s p : HasSuffix s p = true <-> exists t, s = t ++ p.
Proof.
  unfold HasSuffix. rewrite andb_true_iff, Nat.leb_le, bool_decide_eq_true. split.
  - intros [_ H]. exists (take (length s - length p) s).
    rewrite <- H at 2. by rewrite take_drop.
  - intros [t ->]. rewrite length_app. split; [lia|].
    replace (length t + length p - length p)%nat with (length t) by lia.
    by rewrite drop_app_length.
Qed.

Lemma IndexByte_none s c : IndexByte s c < 0 <-> c ∉ s.
Proof.
  induction s as [|x s IH]; simpl.
  { split; [intros _; apply not_elem_of_nil|lia]. }
  rewrite not_elem_of_cons. destruct (chr c x) eqn:E.
  - apply chr_true in E. intuition lia.
  - apply chr_false in E. destruct (Z.ltb_spec (IndexByte s c) 0); intuition lia.
Qed.

Lemma IndexByte_lower s c : -1 <= IndexByte s c.
Proof. induction s; simpl; repeat case_match; lia. Qed.

Lemma LastIndexByte_lower s c : -1 <= LastIndexByte s c.
Proof. induction s; simpl; repeat case_match; lia. Qed.

(** The last occurrence: what follows it has no [c]. *)
Lemma LastIndexByte_app s c t :
  c ∉ t -> LastIndexByte (s ++ c :: t) c = len s.
Proof.
  intros Ht. induction s as [|x s IH]; simpl.
  - assert (LastIndexByte t c = -1) as ->.
    { clear -Ht. induction t as [|y t IH]; simpl; [done|].
      rewrite IH by set_solver. simpl.
      destruct (chr c y) eqn:E; [|done]. apply chr_true in E. set_solver. }
    by rewrite chr_refl.
  - rewrite IH. destruct (Z.leb_spec 0 (len s)); [solve_len|]. pose proof (len_nonneg s). lia.
Qed.

Lemma IndexByte_app s c t : c ∉ s -> IndexByte (s ++ c :: t) c = len s.
Proof.
  intros Hs. induction s as [|x s IH]; simpl; [by rewrite chr_refl|].
  rewrite (proj2 (chr_false c x)) by set_solver.
  rewrite IH by set_solver.
  destruct (Z.ltb_spec (len s) 0); [|solve_len]. pose proof (len_nonneg s). lia.
Qed.

Lemma Split_ne s c : Split s c <> [].
Proof. induction s; simpl; repeat case_match; done. Qed.

Lemma Join_Split s c : Join (Split s c) c = s.
Proof.
  induction s as [|x s IH]; simpl; [done|].
  destruct (chr c x) eqn:E.
  - apply chr_true in E. subst x. simpl.
    destruct (Split s c) eqn:E2; [by apply Split_ne in E2|]. by rewrite <- IH.
  - destruct (Split s c) as [|f fs] eqn:E2; [by apply Split_ne in E2|].
    simpl in IH |- *. destruct fs; simpl; by rewrite <- IH.
Qed.

(** Decimal rendering: [Atoi] inverts [Itoa] on naturals of the [int] range. *)
Lemma b2z_digit d : 0 <= d < 10 -> b2z (digit d) = 48 + d.
Proof. intros. unfold digit. rewrite b2z_z2b_small; lia. Qed.

Lemma is_digit_digit d : 0 <= d < 10 -> is_digit (digit d) = true.
Proof. intros. unfold is_digit, between. rewrite b2z_digit; lia. Qed.

Lemma atoi_itoa_digits f z s a :
  0 <= z < 10 ^ Z.of_nat f -> 0 <= a ->
  atoi_digits (itoa_digits f z s) a =
  atoi_digits s (a * 10 ^ len (itoa_digits f z []) + z).
Proof.
  revert z s a. induction f as [|f IH]; intros z s a Hz Ha.
  { simpl in Hz. simpl. f_equal. unfold len; simpl. lia. }
  cbn [itoa_digits]. destruct (Z.ltb_spec z 10).
  - simpl. rewrite is_digit_digit, b2z_digit by lia. f_equal. unfold len; simpl. lia.
  - assert (0 <= z / 10 < 10 ^ Z.of_nat f) as Hd.
    { rewrite Nat2Z.inj_succ, Z.pow_succ_r in Hz by lia.
      split; [apply Z.div_pos; lia|apply Z.div_lt_upper_bound; lia]. }
    rewrite IH by done. simpl atoi_digits at 1.
    pose proof (Z.mod_pos_bound z 10 eq_refl).
    rewrite is_digit_digit, b2z_digit by lia. f_equal.
    assert (forall g y t, len (itoa_digits g y t) = len (itoa_digits g y []) + len t) as Hlen.
    { intros g. induction g as [|g IHg]; intros y t; simpl; [unfold len; simpl; lia|].
      case_match; [solve_len|].
      rewrite IHg, (IHg _ [_]). solve_len. }
    rewrite (Hlen f (z / 10) [_]). change (len [digit (z mod 10)]) with 1.
    rewrite Z.pow_add_r, Z.pow_1_r by (try apply len_nonneg; lia).
    pose proof (Z.div_mod z 10). lia.
Qed.

Lemma itoa_digits_cons f z s :
  0 <= z -> exists c t, itoa_digits (S f) z s = c :: t /\ is_digit c = true.
Proof.
  revert z s. induction f as [|f IH]; intros z s Hz.
  - simpl. pose proof (Z.mod_pos_bound z 10 eq_refl).
    case_match; do 2 eexists; (split; [done|]); apply is_digit_digit; lia.
  - cbn [itoa_digits]. destruct (Z.ltb_spec z 10).
    + do 2 eexists; split; [done|]. apply is_digit_digit; lia.
    + apply IH. apply Z.div_pos; lia.
Qed.

Lemma Atoi_Itoa z : 0 <= z < 2 ^ 63 -> Atoi (Itoa z) = Some z.
Proof.
  intros Hz. unfold Itoa. destruct (Z.ltb_spec z 0); [lia|].
  pose proof (atoi_itoa_digits 20 z [] 0) as E.
  destruct (itoa_digits_cons 19 z []) as (c & t & Hc & Hd); [lia|].
  unfold Atoi. rewrite Hc in *.
  unfold is_digit, between in Hd. apply andb_true_iff in Hd as [Hd1 Hd2].
  apply Z.leb_le in Hd1, Hd2.
  destruct (Z.eqb_spec (b2z c) 45); [lia|]. destruct (Z.eqb_spec (b2z c) 43); [lia|].
  rewrite E by (simpl; lia). cbn [atoi_digits]. rewrite Z.mul_0_l, Z.add_0_l.
  replace (in_int64 z) with true by (unfold in_int64; lia). done.
Qed.

(** The digits of [Itoa] on naturals are digits. *)
Lemma Itoa_digits z : 0 <= z -> forallb is_digit (Itoa z) = true.
Proof.
  intros Hz. unfold Itoa. destruct (Z.ltb_spec z 0); [lia|].
  assert (forall f y s, 0 <= y -> forallb is_digit s = true ->
            forallb is_digit (itoa_digits f y s) = true) as H0.
  { intros f. induction f as [|f IH]; intros y s Hy Hs; simpl; [done|].
    pose proof (Z.mod_pos_bound y 10 eq_refl).
    case_match.
    - simpl. rewrite is_digit_digit by lia. done.
    - apply IH; [apply Z.div_pos; lia|]. simpl. by rewrite is_digit_digit by lia. }
  by apply H0.
Qed.

(** * Cutting, splitting and trimming *)

Lemma Cut_found s c a b : Cut s c = (a, b, true) -> s = a ++ c :: b /\ c ∉ a.
Proof.
  revert a. induction s as [|x s IH]; intros a H; cbn in H; [done|].
  destruct (chr c x) eqn:E.
  - apply chr_true in E as <-. simplify_eq. split; [done|]. apply not_elem_of_nil.
  - destruct (Cut s c) as [[a' b'] ok]. simplify_eq. destruct (IH a' eq_refl) as [-> Ha].
    split; [done|]. apply chr_false in E. by apply not_elem_of_cons.
Qed.

Lemma Cut_app a c b : c ∉ a -> Cut (a ++ c :: b) c = (a, b, true).
Proof.
  induction a as [|x a IH]; intros H; cbn; [by rewrite chr_refl|].
  apply not_elem_of_cons in H as [H1 H2]. apply chr_false in H1. by rewrite H1, IH.
Qed.

Lemma Split_no_sep s c : Forall (fun f => c ∉ f) (Split s c).
Proof.
  induction s as [|x s IH]; cbn; [constructor; [apply not_elem_of_nil|done]|].
  destruct (chr c x) eqn:E; [constructor; [apply not_elem_of_nil|done]|].
  destruct (Split s c) as [|f fs] eqn:Ef; [by apply Split_ne in Ef|].
  inversion_clear IH. constructor; [|done]. apply chr_false in E. by apply not_elem_of_cons.
Qed.

Lemma Split_app s c t : c ∉ s -> Split (s ++ c :: t) c = s :: Split t c.
Proof.
  induction s as [|x s IH]; intros H; cbn; [by rewrite chr_refl|].
  apply not_elem_of_cons in H as [H1 H2]. apply chr_false in H1. by rewrite H1, IH.
Qed.

Lemma Split_single s c : c ∉ s -> Split s c = [s].
Proof.
  induction s as [|x s IH]; intros H; cbn; [done|].
  apply not_elem_of_cons in H as [H1 H2]. apply chr_false in H1. by rewrite H1, IH.
Qed.

Lemma Split_Join c l : l <> [] -> Forall (fun f => c ∉ f) l -> Split (Join l c) c = l.
Proof.
  induction l as [|f l IH]; intros Hne H; [done|]. inversion_clear H.
  destruct l as [|g l]; [by apply Split_single|].
  change (Join (f :: g :: l) c) with (f ++ c :: Join (g :: l) c).
  rewrite Split_app by done. by rewrite IH.
Qed.

(** The parts of a string are substrings of it. *)
Lemma Split_elem s c f x : f ∈ Split s c -> x ∈ f -> x ∈ s.
Proof.
  revert f. induction s as [|y s IH]; intros f; cbn.
  { intros ->%list_elem_of_singleton. done. }
  destruct (chr c y).
  - intros [-> | H]%elem_of_cons Hx; [by apply elem_of_nil in Hx|]. right. eauto.
  - destruct (Split s c) as [|g gs] eqn:Eg; [by apply Split_ne in Eg|].
    intros [-> | H]%elem_of_cons Hx.
    + apply elem_of_cons in Hx as [-> | Hx]; [by left|]. right. apply (IH g); [by left|done].
    + right. apply (IH f); [by right|done].
Qed.

Lemma is_ascii_elem s : is_ascii s = true <-> forall x, x ∈ s -> is_ascii_byte x = true.
Proof.
  unfold is_ascii. rewrite forallb_forall. split; intros H x Hx; apply H; by apply list_elem_of_In.
Qed.

(** Nothing to trim at either end. *)
Definition trimmed (s : bytes) : Prop :=
  (forall c, head s = Some c -> is_space c = false) /\
  (forall d, last s = Some d -> is_space d = false).

Section Trim.
Context `{U : GoUnicode}.

Lemma trim_right_spec r :
  is_ascii r = true ->
  exists b, rev r = trim_right_rev r ++ b /\
    (forall d, last (trim_right_rev r) = Some d -> is_space d = false) /\
    (forall c, last r = Some c -> is_space c = false -> head (trim_right_rev r) = Some c).
Proof.
  induction r as [|x r IH]; intros H; [by exists []|]. cbn in H. apply andb_true_iff in H as [Hx Hr].
  cbn [trim_right_rev]. rewrite Hx. cbn [negb]. destruct (is_space x) eqn:Es.
  - destruct (IH Hr) as (b & E & Hd & Hh). exists (b ++ [x]). split; [|split; [done|]].
    + cbn [rev]. by rewrite E, app_assoc.
    + intros c Hc Hcs. apply Hh; [|done]. destruct r; [simplify_eq/=; congruence|done].
  - exists []. rewrite app_nil_r. split; [done|]. cbn [rev]. split.
    + intros d. rewrite last_snoc. intros [= <-]. done.
    + intros c Hc _. apply last_Some in Hc as [l Hl]. change (rev r ++ [x]) with (rev (x :: r)).
      rewrite Hl, rev_unit. done.
Qed.

Lemma TrimSpace_spec s :
  is_ascii s = true ->
  trimmed (TrimSpace s) /\ exists a b, s = a ++ TrimSpace s ++ b.
Proof.
  induction s as [|c s IH]; intros H; [by split; [split|exists [], []]|].
  pose proof H as Hs. cbn in Hs. apply andb_true_iff in Hs as [Hc Hs].
  cbn [TrimSpace]. rewrite Hc. cbn [negb]. destruct (is_space c) eqn:Es.
  - destruct (IH Hs) as (Ht & a & b & E). split; [done|]. exists (c :: a), b. cbn. by rewrite <- E.
  - destruct (trim_right_spec (rev (c :: s))) as (b & E & Hd & Hh).
    { apply is_ascii_elem. intros x Hx. apply (proj1 (is_ascii_elem _) H).
      apply list_elem_of_In. apply list_elem_of_In in Hx. by apply in_rev. }
    split.
    + split; [|done]. intros c'. rewrite (Hh c); [by intros [= <-]| |done]. cbn [rev]. by rewrite last_snoc.
    + exists [], b. cbn [app]. by rewrite <- E, rev_involutive.
Qed.

Lemma TrimSpace_trimmed s : is_ascii s = true -> trimmed s -> TrimSpace s = s.
Proof.
  intros Ha [Hh Hl]. destruct s as [|c s]; [done|]. cbn in Ha. apply andb_true_iff in Ha as [Hc Ha].
  cbn [TrimSpace]. rewrite Hc, (Hh c) by done. cbn [negb].
  destruct (last (c :: s)) as [d|] eqn:El; [|by apply last_None in El].
  assert (is_ascii_byte d = true) as Hd.
  { apply (proj1 (is_ascii_elem (c :: s))); [cbn; by rewrite Hc|]. by apply last_Some_elem_of. }
  apply last_Some in El as El'. destruct El' as [l E]. rewrite E, rev_unit. cbn [trim_right_rev].
  rewrite Hd, (Hl d) by done. cbn [negb rev]. by rewrite rev_involutive.
Qed.

Lemma TrimSpace_elem s x : is_ascii s = true -> x ∈ TrimSpace s -> x ∈ s.
Proof.
  intros H Hx. destruct (TrimSpace_spec s H) as (_ & a & b & E). rewrite E. set_solver.
Qed.

Lemma TrimSpace_ascii s : is_ascii s = true -> is_ascii (TrimSpace s) = true.
Proof.
  intros H. apply is_ascii_elem. intros x Hx. apply (proj1 (is_ascii_elem s) H). by apply TrimSpace_elem.
Qed.

End Trim.
