(* ===== verification/GoNet.v ===== *)
(** The parts of Go's [net] and [net/netip] that the tunnel calls: splitting
    and joining host and port, textual IP addresses, CIDR blocks.  Written from
    the documented grammar and algorithms of those packages. *)

From Stdlib Require Import ZArith Lia Strings.Byte.
From stdpp Require Import base numbers list sets.
From S2P Require Import Prelude GoStrings.

Local Open Scope Z_scope.
Local Open Scope go_scope.

Definition c_colon : byte := z2b 58.
Definition c_dot : byte := z2b 46.
Definition c_lbrack : byte := z2b 91.
Definition c_rbrack : byte := z2b 93.
Definition c_percent : byte := z2b 37.
Definition c_slash : byte := z2b 47.
Definition c_comma : byte := z2b 44.

(** * Host and port *)

Definition missingPort : error := Errorf "missing port in address" [].
Definition tooManyColons : error := Errorf "too many colons in address" [].

(** [net.SplitHostPort]: the port starts after the last colon; a host with a
    colon must be bracketed. *)
Definition SplitHostPort (hostport : bytes) : res (bytes * bytes) :=
  let i := LastIndexByte hostport c_colon in
  if i <? 0 then Err missingPort else
  let! (host, j, k) :=
    match hostport with
    | c :: _ =>
        if chr c_lbrack c then
          let e := IndexByte hostport c_rbrack in
          if e <? 0 then Err (Errorf "missing ']' in address" []) else
          if e + 1 =? len hostport then Err missingPort else
          if e + 1 =? i then
            let! host := slice hostport 1 e in Ok (host, 1, e + 1)
          else
            let! n := index hostport (e + 1) in
            if chr c_colon n then Err tooManyColons else Err missingPort
        else
          let! host := slice hostport 0 i in
          if 0 <=? IndexByte host c_colon then Err tooManyColons
          else Ok (host, 0, 0)
    | [] => Err missingPort
    end in
  if 0 <=? IndexByte (drop (Z.to_nat j) hostport) c_lbrack
  then Err (Errorf "unexpected '[' in address" []) else
  if 0 <=? IndexByte (drop (Z.to_nat k) hostport) c_rbrack
  then Err (Errorf "unexpected ']' in address" []) else
  let! port := slice hostport (i + 1) (len hostport) in
  Ok (host, port).

(** [net.JoinHostPort]. *)
Definition JoinHostPort (host port : bytes) : bytes :=
  if 0 <=? IndexByte host c_colon
  then c_lbrack :: host ++ c_rbrack :: c_colon :: port
  else host ++ c_colon :: port.

(** * Addresses *)

(** [netip.Addr]: the zero value, an IPv4 or an IPv6 address with its zone. *)
Inductive Addr : Type :=
  | AddrZero
  | Addr4 (v : Z)
  | Addr6 (v : Z) (zone : bytes).

#[export] Instance Addr_eq_dec : EqDecision Addr.
Proof. solve_decision. Defined.

Definition IsValid (a : Addr) : bool :=
  match a with AddrZero => false | _ => true end.

Definition Is4 (a : Addr) : bool := match a with Addr4 _ => true | _ => false end.

Definition BitLen (a : Addr) : Z :=
  match a with AddrZero => 0 | Addr4 _ => 32 | Addr6 _ _ => 128 end.

Definition addr_val (a : Addr) : Z :=
  match a with AddrZero => 0 | Addr4 v => v | Addr6 v _ => v end.

Definition addr_zone (a : Addr) : bytes :=
  match a with Addr6 _ z => z | _ => [] end.

(** The octets of a dotted quad, as [parseIPv4Fields] scans them: [val] and
    [dig] describe the current field, [prev] the previous character. *)
Fixpoint parseIPv4Fields (s : bytes) (first prevdot : bool) (val dig : Z)
    (fields : list Z) : option (list Z) :=
  match s with
  | [] => if (length fields <? 3)%nat then None else Some (fields ++ [val])
  | c :: s' =>
      if is_digit c then
        if (dig =? 1) && (val =? 0) then None else
        let val' := val * 10 + (b2z c - 48) in
        if 255 <? val' then None
        else parseIPv4Fields s' false false val' (dig + 1) fields
      else if chr c_dot c then
        if first || (match s' with [] => true | _ => false end) || prevdot then None
        else if (length fields =? 3)%nat then None
        else parseIPv4Fields s' false true 0 0 (fields ++ [val])
      else None
  end.

Definition parseIPv4 (s : bytes) : option (list Z) :=
  parseIPv4Fields s true false 0 0 [].

Definition hexval (c : byte) : option Z :=
  if is_digit c then Some (b2z c - 48)
  else if between 97 102 c then Some (b2z c - 97 + 10)
  else if between 65 70 c then Some (b2z c - 65 + 10)
  else None.

(** One hexadecimal group: its value, the number of digits and the rest; [None]
    when there are more than four digits or the value passes 16 bits. *)
Fixpoint hexgroup (s : bytes) (off acc : Z) : option (Z * Z * bytes) :=
  match s with
  | [] => Some (acc, off, [])
  | c :: s' =>
      match hexval c with
      | None => Some (acc, off, s)
      | Some d =>
          let acc' := acc * 16 + d in
          if (3 <? off) || (65535 <? acc') then None else hexgroup s' (off + 1) acc'
      end
  end.

(** The loop of [parseIPv6]: [ip] holds the bytes so far, [ell] the position of
    the ellipsis.  Eight groups at most, so eight rounds. *)
Fixpoint parseIPv6_loop (fuel : nat) (s : bytes) (ip : list Z) (ell : option nat)
    : option (bytes * list Z * option nat) :=
  match fuel with
  | O => Some (s, ip, ell)
  | S f =>
      match hexgroup s 0 0 with
      | None => None
      | Some (acc, off, rest) =>
          if off =? 0 then None else
          match rest with
          | [] => Some ([], ip ++ [acc / 256; acc mod 256], ell)
          | c :: rest' =>
              if chr c_dot c then
                if (match ell with None => true | _ => false end)
                   && negb (length ip =? 12)%nat then None
                else if (16 <? length ip + 4)%nat then None
                else match parseIPv4 s with
                     | None => None
                     | Some q => Some ([], ip ++ q, ell)
                     end
              else
                let ip' := ip ++ [acc / 256; acc mod 256] in
                if negb (chr c_colon c) then None else
                match rest' with
                | [] => None
                | d :: rest'' =>
                    if chr c_colon d then
                      match ell with
                      | Some _ => None
                      | None =>
                          match rest'' with
                          | [] => Some ([], ip', Some (length ip'))
                          | _ => parseIPv6_loop f rest'' ip' (Some (length ip'))
                          end
                      end
                    else parseIPv6_loop f rest' ip' ell
                end
          end
      end
  end.

Definition quad_val (q : list Z) : Z := foldl (fun a d => a * 256 + d) 0 q.

Definition expand_ellipsis (ip : list Z) (ell : option nat) : option (list Z) :=
  if (length ip <? 16)%nat then
    match ell with
    | None => None
    | Some e => Some (take e ip ++ replicate (16 - length ip) 0 ++ drop e ip)
    end
  else match ell with Some _ => None | None => Some ip end.

(** [netip.parseIPv6], the zone split off first. *)
Definition parseIPv6 (s0 : bytes) : option Addr :=
  let i := IndexByte s0 c_percent in
  let '(s, zone) := if 0 <=? i
    then (take (Z.to_nat i) s0, drop (Z.to_nat i + 1) s0) else (s0, []) in
  if (0 <=? i) && (match zone with [] => true | _ => false end) then None else
  let '(s1, ell) :=
    if HasPrefix s [c_colon; c_colon] then (drop 2 s, Some 0%nat) else (s, None) in
  match ell, s1 with
  | Some _, [] => Some (Addr6 0 zone)
  | _, _ =>
      match parseIPv6_loop 8 s1 [] ell with
      | Some ([], ip, ell') =>
          match expand_ellipsis ip ell' with
          | Some full => Some (Addr6 (quad_val full) zone)
          | None => None
          end
      | _ => None
      end
  end.

Fixpoint first_of (s : bytes) : option byte :=
  match s with
  | [] => None
  | c :: s' =>
      if chr c_dot c || chr c_colon c || chr c_percent c then Some c else first_of s'
  end.

(** [netip.ParseAddr]: the first dot or colon decides the family. *)
Definition ParseAddr (s : bytes) : option Addr :=
  match first_of s with
  | Some c =>
      if chr c_dot c then
        match parseIPv4 s with Some q => Some (Addr4 (quad_val q)) | None => None end
      else if chr c_colon c then parseIPv6 s else None
  | None => None
  end.

(** [netip.AddrFromSlice]. *)
Definition AddrFromSlice (b : bytes) : option Addr :=
  if (length b =? 4)%nat then Some (Addr4 (be_get b))
  else if (length b =? 16)%nat then Some (Addr6 (be_get b) []) else None.

(** [netip.Addr.Compare]: by bit length, then value, then zone. *)
Fixpoint bytes_compare (a b : bytes) : comparison :=
  match a, b with
  | [], [] => Eq
  | [], _ => Lt
  | _, [] => Gt
  | x :: a', y :: b' =>
      match Z.compare (b2z x) (b2z y) with
      | Eq => bytes_compare a' b'
      | c => c
      end
  end.

Definition addr_compare (a b : Addr) : comparison :=
  match Z.compare (BitLen a) (BitLen b) with
  | Eq => match Z.compare (addr_val a) (addr_val b) with
          | Eq => bytes_compare (addr_zone a) (addr_zone b)
          | c => c
          end
  | c => c
  end.

(** [netip.Prefix] and [Prefix.Contains]. *)
Record Prefix : Type := mkPrefix { p_addr : Addr; p_bits : Z }.

Definition prefix_valid (p : Prefix) : bool :=
  match p_addr p with
  | AddrZero => false
  | Addr4 _ => (0 <=? p_bits p) && (p_bits p <=? 32)
  | Addr6 _ zone => (0 <=? p_bits p) && (p_bits p <=? 128) && bool_decide (zone = [])
  end.

Definition prefix_contains (p : Prefix) (ip : Addr) : bool :=
  prefix_valid p && bool_decide (addr_zone ip = []) &&
  negb (BitLen (p_addr p) =? 0) && (BitLen (p_addr p) =? BitLen ip) &&
  (Z.shiftr (Z.lxor (addr_val ip) (addr_val (p_addr p))) (BitLen ip - p_bits p) =? 0).

Definition with_val (a : Addr) (v : Z) : Addr :=
  match a with AddrZero => AddrZero | Addr4 _ => Addr4 v | Addr6 _ z => Addr6 v z end.

(** [Prefix.Masked]: the host bits cleared. *)
Definition Masked (p : Prefix) : Prefix :=
  let w := BitLen (p_addr p) in
  mkPrefix (with_val (p_addr p)
              (Z.shiftl (Z.shiftr (addr_val (p_addr p)) (w - p_bits p)) (w - p_bits p)))
           (p_bits p).

(** [netip.PrefixFrom]: invalid ([prefix_valid]) when the length is out of range. *)
Definition PrefixFrom (a : Addr) (bits : Z) : Prefix :=
  mkPrefix (match a with Addr6 v _ => Addr6 v [] | _ => a end) bits.

(** [netip.ParsePrefix]: an address without zone, a slash and a length without
    sign or leading zero. *)
Definition ParsePrefix (s : bytes) : option Prefix :=
  let i := LastIndexByte s c_slash in
  if i <? 0 then None else
  match ParseAddr (take (Z.to_nat i) s) with
  | None => None
  | Some ip =>
      if negb (bool_decide (addr_zone ip = [])) then None else
      let bitsStr := drop (Z.to_nat (i + 1)) s in
      let lead := match bitsStr with c :: _ :: _ => negb (between 49 57 c) | _ => false end in
      if lead then None else
      match Atoi bitsStr with
      | None => None
      | Some bits =>
          if (bits <? 0) || (BitLen ip <? bits) then None else Some (PrefixFrom ip bits)
      end
  end.

(** [netip.Addr.Is4In6] and [Unmap]. *)
Definition Is4In6 (a : Addr) : bool :=
  match a with Addr6 v _ => Z.shiftr v 32 =? 65535 | _ => false end.

Definition Unmap (a : Addr) : Addr :=
  match a with Addr6 v z => if Is4In6 a then Addr4 (v mod 2 ^ 32) else a | _ => a end.

(** The classes of addresses; an IPv4-mapped address counts as the IPv4 one. *)
Definition IsPrivate (a : Addr) : bool :=
  match Unmap a with
  | Addr4 v => (Z.shiftr v 24 =? 10) || (Z.shiftr v 20 =? 2753) || (Z.shiftr v 16 =? 49320)
  | Addr6 v _ => Z.shiftr v 121 =? 126
  | AddrZero => false
  end.

Definition IsLoopback (a : Addr) : bool :=
  match Unmap a with
  | Addr4 v => Z.shiftr v 24 =? 127
  | Addr6 v _ => v =? 1
  | AddrZero => false
  end.

Definition IsMulticast (a : Addr) : bool :=
  match Unmap a with
  | Addr4 v => Z.shiftr v 28 =? 14
  | Addr6 v _ => Z.shiftr v 120 =? 255
  | AddrZero => false
  end.

Definition IsLinkLocalUnicast (a : Addr) : bool :=
  match Unmap a with
  | Addr4 v => Z.shiftr v 16 =? 43518
  | Addr6 v _ => Z.shiftr v 118 =? 1018
  | AddrZero => false
  end.

(** [IsUnspecified]: the two zero addresses, without zone. *)
Definition IsUnspecified (a : Addr) : bool :=
  bool_decide (a = Addr4 0) || bool_decide (a = Addr6 0 []).

(** * package net: [net.IP] as its bytes ([nil] is the empty list) *)

Definition v4InV6Prefix : bytes := replicate 10 (z2b 0) ++ [z2b 255; z2b 255].

(** [net.ParseIP]: sixteen bytes, an IPv4 address mapped into IPv6. *)
Definition ParseIP (s : bytes) : option bytes :=
  match ParseAddr s with
  | Some (Addr4 v) => Some (v4InV6Prefix ++ be_put 4 v)
  | Some (Addr6 v []) => Some (be_put 16 v)
  | _ => None
  end.

Definition To4 (ip : bytes) : option bytes :=
  if (length ip =? 4)%nat then Some ip
  else if (length ip =? 16)%nat && bool_decide (take 12 ip = v4InV6Prefix)
       then Some (drop 12 ip) else None.

Definition To16 (ip : bytes) : option bytes :=
  if (length ip =? 4)%nat then Some (v4InV6Prefix ++ ip)
  else if (length ip =? 16)%nat then Some ip else None.

(** [net.IP.IsLoopback]. *)
Definition ip_IsLoopback (ip : bytes) : bool :=
  match To4 ip with
  | Some q => match q with a :: _ => b2z a =? 127 | [] => false end
  | None => bool_decide (ip = replicate 15 (z2b 0) ++ [z2b 1])
  end.

(** Textual form: dotted quad, or hexadecimal groups with the longest run of
    zeros (two groups at least, the first of the longest) written [::]. *)
Definition hexdigit (d : Z) : byte := if d <? 10 then z2b (48 + d) else z2b (87 + d).

Definition hex16 (v : Z) : bytes :=
  if v <? 16 then [hexdigit v]
  else if v <? 256 then [hexdigit (v / 16); hexdigit (v mod 16)]
  else if v <? 4096 then
    [hexdigit (v / 256); hexdigit (v / 16 mod 16); hexdigit (v mod 16)]
  else [hexdigit (v / 4096); hexdigit (v / 256 mod 16); hexdigit (v / 16 mod 16);
        hexdigit (v mod 16)].

Fixpoint groups16 (b : bytes) : list Z :=
  match b with
  | x :: y :: b' => (b2z x * 256 + b2z y) :: groups16 b'
  | _ => []
  end.

Fixpoint zero_run (g : list Z) : nat :=
  match g with
  | v :: g' => if v =? 0 then S (zero_run g') else O
  | [] => O
  end.

Fixpoint best_run (i : nat) (g : list Z) (start size : nat) : nat * nat :=
  match g with
  | [] => (start, size)
  | _ :: g' =>
      let l := zero_run g in
      if ((2 <=? l) && (size <? l))%nat then best_run (S i) g' i l
      else best_run (S i) g' start size
  end.

Fixpoint colon_hex (g : list Z) : bytes :=
  match g with
  | [] => []
  | [v] => hex16 v
  | v :: g' => hex16 v ++ c_colon :: colon_hex g'
  end.

Definition string6 (b : bytes) : bytes :=
  let g := groups16 b in
  let '(start, size) := best_run 0 g 0 0 in
  if (size =? 0)%nat then colon_hex g
  else colon_hex (take start g) ++ [c_colon; c_colon] ++ colon_hex (drop (start + size) g).

Definition string4 (b : bytes) : bytes :=
  Join (map (fun x => Itoa (b2z x)) b) c_dot.

(** [net.IP.String] on the lengths the tunnel passes. *)
Definition IPString (ip : bytes) : bytes :=
  match To4 ip with
  | Some q => string4 q
  | None => string6 ip
  end.

(** [net.IPNet] as built by [net.ParseCIDR], and [IPNet.Contains]. *)
Record IPNet : Type := mkIPNet { net_ip : bytes; net_mask : bytes }.

Definition and_bytes (a b : bytes) : bytes :=
  zip_with (fun x y => z2b (Z.land (b2z x) (b2z y))) a b.

Definition networkNumberAndMask (n : IPNet) : option (bytes * bytes) :=
  match (match To4 (net_ip n) with
         | Some q => Some q
         | None => if (length (net_ip n) =? 16)%nat then Some (net_ip n) else None
         end) with
  | None => None
  | Some ip =>
      if (length (net_mask n) =? 4)%nat then
        if (length ip =? 4)%nat then Some (ip, net_mask n) else None
      else if (length (net_mask n) =? 16)%nat then
        if (length ip =? 4)%nat then Some (ip, drop 12 (net_mask n))
        else Some (ip, net_mask n)
      else None
  end.

Definition net_contains (n : IPNet) (ip : bytes) : bool :=
  let ip := match To4 ip with Some q => q | None => ip end in
  match networkNumberAndMask n with
  | None => (length ip =? 0)%nat
  | Some (nn, m) =>
      (length ip =? length nn)%nat && bool_decide (and_bytes nn m = and_bytes ip m)
  end.

Definition CIDRMask (ones bits : Z) : bytes :=
  be_put (Z.to_nat (bits / 8)) (2 ^ bits - 2 ^ (bits - ones)).

(** [net.ParseCIDR]: the network part of its result. *)
Definition ParseCIDR (s : bytes) : option IPNet :=
  let '(a, m, ok) := Cut s c_slash in
  if negb ok then None else
  match ParseAddr a with
  | None => None
  | Some addr =>
      if bool_decide (addr_zone addr <> []) then None else
      match m with
      | [] => None
      | _ =>
          match atoi_digits m 0 with
          | None => None
          | Some n =>
              if BitLen addr <? n then None else
              let mask := CIDRMask n (BitLen addr) in
              let ip := be_put (Z.to_nat (BitLen addr / 8)) (addr_val addr) in
              Some (mkIPNet (and_bytes ip mask) mask)
          end
      end
  end.

Example ParseAddr_v4 : ParseAddr (bs "10.0.255.1") = Some (Addr4 (10 * 2^24 + 255 * 256 + 1)).
Proof. vm_compute. reflexivity. Qed.
Example ParseAddr_zero : ParseAddr (bs "10.00.255.1") = None.
Proof. vm_compute. reflexivity. Qed.
Example ParseAddr_v6 : ParseAddr (bs "fe80::1%eth0") = Some (Addr6 (0xfe80 * 2^112 + 1) (bs "eth0")).
Proof. vm_compute. reflexivity. Qed.
Example ParseIP_mapped : option_map IPString (ParseIP (bs "::ffff:1.2.3.4")) = Some (bs "1.2.3.4").
Proof. vm_compute. reflexivity. Qed.
Example ParseIP_text6 : option_map IPString (ParseIP (bs "2001:DB8:0:0:1:0:0:1")) = Some (bs "2001:db8::1:0:0:1").
Proof. vm_compute. reflexivity. Qed.
Example split_v6 : SplitHostPort (bs "[::1]:80") = Ok (bs "::1", bs "80").
Proof. vm_compute. reflexivity. Qed.
Example split_bad : SplitHostPort (bs "::1:80") = Err tooManyColons.
Proof. vm_compute. reflexivity. Qed.
Example cidr_in : option_map (fun n => net_contains n (bs "" ++ v4InV6Prefix ++ be_put 4 (10*2^24+5))) (ParseCIDR (bs "10.1.2.3/8")) = Some true.
Proof. vm_compute. reflexivity. Qed.

(** * Lemmas *)

Lemma IndexByte_ge_elem s c : 0 <= IndexByte s c <-> c ∈ s.
Proof.
  rewrite <- Z.nlt_ge, IndexByte_none. split; [apply dec_stable|tauto].
Qed.

Lemma drop_app_len {A} (a b : list A) : drop (Z.to_nat (len a)) (a ++ b) = b.
Proof. unfold len. by rewrite Nat2Z.id, drop_app_length. Qed.

Lemma slice_prefix a b : slice (a ++ b) 0 (len a) = Ok a.
Proof. exact (slice_app_mid [] a b). Qed.

Lemma slice_suffix a b : slice (a ++ b) (len a) (len (a ++ b)) = Ok b.
Proof.
  rewrite len_app. pose proof (slice_app_mid a b []) as H. by rewrite app_nil_r in H.
Qed.

Lemma IndexByte_absent c s : c ∉ s -> (0 <=? IndexByte s c) = false.
Proof. intros Hn%IndexByte_none. lia. Qed.

Lemma split_bracketed host port :
  c_lbrack ∉ host -> c_rbrack ∉ host ->
  c_colon ∉ port -> c_lbrack ∉ port -> c_rbrack ∉ port ->
  SplitHostPort (c_lbrack :: host ++ c_rbrack :: c_colon :: port) = Ok (host, port).
Proof.
  intros Hl Hr Hpc Hpl Hpr. pose proof (len_nonneg host). pose proof (len_nonneg port).
  set (s := c_lbrack :: host ++ c_rbrack :: c_colon :: port).
  assert (s = (c_lbrack :: host ++ [c_rbrack]) ++ c_colon :: port) as Hs.
  { unfold s. simpl. by rewrite <- app_assoc. }
  assert (LastIndexByte s c_colon = len host + 2) as Hi.
  { rewrite Hs, LastIndexByte_app by done. solve_len. }
  assert (IndexByte s c_rbrack = len host + 1) as He.
  { change s with ((c_lbrack :: host) ++ c_rbrack :: c_colon :: port).
    rewrite IndexByte_app by (apply not_elem_of_cons; split; [by vm_compute|done]).
    solve_len. }
  assert (len s = len host + 3 + len port) as Hls.
  { rewrite Hs. solve_len. }
  unfold SplitHostPort. rewrite Hi.
  destruct (Z.ltb_spec (len host + 2) 0); [lia|].
  cbn [res_bind]. unfold s at 1. rewrite chr_refl. rewrite He, Hls.
  destruct (Z.ltb_spec (len host + 1) 0); [lia|].
  destruct (Z.eqb_spec (len host + 1 + 1) (len host + 3 + len port)); [lia|].
  destruct (Z.eqb_spec (len host + 1 + 1) (len host + 2)); [|lia].
  replace (slice s 1 (len host + 1)) with (Ok host).
  2: { symmetry. pose proof (slice_app_mid [c_lbrack] host (c_rbrack :: c_colon :: port)) as E.
       change (len [c_lbrack]) with 1 in E. by rewrite Z.add_comm in E. }
  cbn [res_bind].
  rewrite IndexByte_absent; [rewrite IndexByte_absent|].
  + rewrite Hs.
    replace (len host + 2 + 1) with (len ((c_lbrack :: host ++ [c_rbrack]) ++ [c_colon])) by solve_len.
    replace (len host + 3 + len port) with
      (len (((c_lbrack :: host ++ [c_rbrack]) ++ [c_colon]) ++ port)) by solve_len.
    change (c_colon :: port) with ([c_colon] ++ port). rewrite app_assoc.
    by rewrite slice_suffix.
  + replace (Z.to_nat (len host + 1 + 1)) with (Z.to_nat (len (c_lbrack :: host ++ [c_rbrack])))
      by (f_equal; solve_len).
    rewrite Hs, drop_app_len. apply not_elem_of_cons. split; [by vm_compute|done].
  + change (drop (Z.to_nat 1) s) with (host ++ c_rbrack :: c_colon :: port).
    rewrite elem_of_app, !elem_of_cons. intros [?|[E|[E|?]]]; try done; by vm_compute in E.
Qed.

Lemma split_plain host port :
  c_colon ∉ host -> c_lbrack ∉ host -> c_rbrack ∉ host ->
  c_colon ∉ port -> c_lbrack ∉ port -> c_rbrack ∉ port ->
  SplitHostPort (host ++ c_colon :: port) = Ok (host, port).
Proof.
  intros Hch. intros Hl Hr Hpc Hpl Hpr. pose proof (len_nonneg host). pose proof (len_nonneg port).
  set (s := host ++ c_colon :: port).
  assert (LastIndexByte s c_colon = len host) as Hi by by apply LastIndexByte_app.
  unfold SplitHostPort. rewrite Hi. destruct (Z.ltb_spec (len host) 0); [lia|].
  assert (slice s 0 (len host) = Ok host) as Hsl by apply slice_prefix.
  destruct s as [|c s'] eqn:Es; [by destruct host|].
  assert (chr c_lbrack c = false) as Hb.
  { apply chr_false. intros E. subst c. unfold s in Es.
    destruct host as [|h host']; injection Es as E _; [by vm_compute in E|].
    apply Hl. rewrite E. apply elem_of_cons. by left. }
  rewrite Hb. cbn [res_bind]. rewrite Hsl. cbn [res_bind].
  rewrite (IndexByte_absent _ _ Hch). cbn [res_bind]. change (Z.to_nat 0) with 0%nat. rewrite !drop_0.
  rewrite <- Es. unfold s. rewrite (IndexByte_absent c_lbrack), (IndexByte_absent c_rbrack).
  + change (c_colon :: port) with ([c_colon] ++ port). rewrite app_assoc.
    replace (len host + 1) with (len (host ++ [c_colon])) by solve_len.
    by rewrite slice_suffix.
  + rewrite elem_of_app, elem_of_cons. intros [?|[E|?]]; try done; by vm_compute in E.
  + rewrite elem_of_app, elem_of_cons. intros [?|[E|?]]; try done; by vm_compute in E.
Qed.

(** Joining and splitting: the host comes back when it has no brackets and the
    port has no colon or bracket. *)
Lemma SplitHostPort_JoinHostPort host port :
  c_lbrack ∉ host -> c_rbrack ∉ host ->
  c_colon ∉ port -> c_lbrack ∉ port -> c_rbrack ∉ port ->
  SplitHostPort (JoinHostPort host port) = Ok (host, port).
Proof.
  intros. unfold JoinHostPort. destruct (Z.leb_spec 0 (IndexByte host c_colon)) as [Hc|Hc].
  - by apply split_bracketed.
  - apply split_plain; try done. by apply IndexByte_none.
Qed.

Lemma ParseIP_length s ip : ParseIP s = Some ip -> length ip = 16%nat.
Proof.
  unfold ParseIP. destruct (ParseAddr s) as [[|v|v [|]]|]; try done; intros [= <-];
    reflexivity.
Qed.

Lemma To4_length ip q : To4 ip = Some q -> length q = 4%nat.
Proof.
  unfold To4. destruct (Nat.eqb_spec (length ip) 4); [by intros [= <-]|].
  destruct (Nat.eqb_spec (length ip) 16) as [E|]; [|done]. cbn [andb].
  destruct (bool_decide _); [|done]. intros [= <-]. rewrite length_drop, E. done.
Qed.
