(* ===== verification/NetAddr.v ===== *)
(** internal/netaddr/netaddr.go: validation of host names and of host:port
    strings, with the facts its clients (the wire format, SOCKS5, the policy)
    rely on. *)

From Stdlib Require Import ZArith Lia Strings.Byte.
From stdpp Require Import base numbers list sets.
From S2P Require Import Prelude GoStrings GoNet.

Local Open Scope Z_scope.
Local Open Scope go_scope.

Section NetAddr.
Context `{U : GoUnicode}.

(** [r >= 'a' && r <= 'z' || r >= '0' && r <= '9' || r == '-'] *)
Definition hostname_char (c : byte) : bool :=
  is_lower c || is_digit c || (b2z c =? 45).

Definition label_ok (label : bytes) : bool :=
  match label with
  | [] => false
  | c0 :: _ =>
      negb (63 <? len label) &&
      negb ((b2z c0 =? 45) || (match last label with Some c => b2z c =? 45 | None => false end)) &&
      forallb hostname_char label
  end.

Definition ValidHostname (host : bytes) : bool :=
  let host := ToLower (TrimSuffix host [c_dot]) in
  if (match host with [] => true | _ => false end) || (253 <? len host) then false
  else forallb label_ok (Split host c_dot).

Definition NormalizeTargetHost (host : bytes) : bytes :=
  TrimSuffix (TrimSpace (ToLower host)) [c_dot].

Definition ValidateHostnameOrIP (host : bytes) : res unit :=
  match ParseIP host with
  | Some _ => Ok tt
  | None =>
      if ValidHostname (NormalizeTargetHost host) then Ok tt
      else Err (Errorf "host %q 不是合法 IP 或 DNS 主机名" [])
  end.

Definition is_empty (s : bytes) : bool := match s with [] => true | _ => false end.

Definition validateHostPortValue (value : bytes) (allowEmptyHost allowZeroPort : bool)
    : res unit :=
  if ContainsAny value (map z2b [32; 9; 13; 10])
  then Err (Errorf "host:port 不能包含空白字符" []) else
  let! (host, port) := SplitHostPort value in
  if negb allowEmptyHost && is_empty (TrimSpace host)
  then Err (Errorf "host 不能为空" []) else
  let! _ := if negb (is_empty (TrimSpace host)) then ValidateHostnameOrIP host else Ok tt in
  if is_empty (TrimSpace port) then Err (Errorf "port 不能为空" []) else
  let minPort := if allowZeroPort then 0 else 1 in
  let bad := match Atoi port with
             | None => true
             | Some p => (p <? minPort) || (65535 <? p)
             end in
  if bad then
    if allowZeroPort then Err (Errorf "port 必须在 0-65535 之间" [])
    else Err (Errorf "port 必须在 1-65535 之间" [])
  else Ok tt.

Definition ValidateHostPortValue (value : bytes) (allowEmptyHost : bool) : res unit :=
  validateHostPortValue value allowEmptyHost false.

Definition ValidateHostPort (value : bytes) : res unit := ValidateHostPortValue value false.

Definition ValidateListenHostPort (value : bytes) : res unit := ValidateHostPortValue value true.

Definition ValidateListenHostPortAllowZero (value : bytes) : res unit :=
  validateHostPortValue value true true.

End NetAddr.

(** * Dotted quads *)

Lemma parse_digit d s first prevdot val dig fields :
  0 <= d < 10 -> ~ (dig = 1 /\ val = 0) -> val * 10 + d <= 255 ->
  parseIPv4Fields (digit d :: s) first prevdot val dig fields =
  parseIPv4Fields s false false (val * 10 + d) (dig + 1) fields.
Proof.
  intros Hd Hz Hv. cbn [parseIPv4Fields].
  rewrite is_digit_digit, b2z_digit by done.
  replace (val * 10 + (48 + d - 48)) with (val * 10 + d) by lia.
  destruct ((dig =? 1) && (val =? 0)) eqn:E; [lia|].
  by destruct (Z.ltb_spec 255 (val * 10 + d)); [lia|].
Qed.

(** The digits of one octet are read as its value, in at least one digit. *)
Lemma parse_octet z s first prevdot fields :
  0 <= z < 256 ->
  exists dig, 0 < dig /\
  parseIPv4Fields (Itoa z ++ s) first prevdot 0 0 fields =
  parseIPv4Fields s false false z dig fields.
Proof.
  intros Hz. unfold Itoa. destruct (Z.ltb_spec z 0); [lia|].
  cbn [itoa_digits].
  pose proof (Z.mod_pos_bound z 10 eq_refl).
  pose proof (Z.mod_pos_bound (z / 10) 10 eq_refl).
  pose proof (Z.div_mod z 10). pose proof (Z.div_mod (z / 10) 10).
  destruct (Z.ltb_spec z 10); [|destruct (Z.ltb_spec (z / 10) 10);
    [|destruct (Z.ltb_spec (z / 10 / 10) 10); [|lia]]]; cbn [app];
    rewrite ?parse_digit by lia; eexists; (split; [|f_equal; lia]); lia.
Qed.

Lemma parse_dot c s first dig val fields :
  (length fields < 3)%nat -> first = false ->
  parseIPv4Fields (c_dot :: c :: s) first false val dig fields =
  parseIPv4Fields (c :: s) false true 0 0 (fields ++ [val]).
Proof.
  intros Hf ->. cbn [parseIPv4Fields].
  change (is_digit c_dot) with false. rewrite chr_refl. cbn [orb].
  by destruct (Nat.eqb_spec (length fields) 3); [lia|].
Qed.

Lemma Itoa_ne z : 0 <= z -> exists c t, Itoa z = c :: t /\ is_digit c = true.
Proof.
  intros Hz. unfold Itoa. destruct (Z.ltb_spec z 0); [lia|]. by apply itoa_digits_cons.
Qed.

Lemma parse_octet_dot z y s first prevdot fields :
  0 <= z < 256 -> 0 <= y -> (length fields < 3)%nat ->
  parseIPv4Fields (Itoa z ++ c_dot :: Itoa y ++ s) first prevdot 0 0 fields =
  parseIPv4Fields (Itoa y ++ s) false true 0 0 (fields ++ [z]).
Proof.
  intros Hz Hy Hf.
  destruct (parse_octet z (c_dot :: Itoa y ++ s) first prevdot fields Hz) as (dig & _ & ->).
  destruct (Itoa_ne y Hy) as (c & t & -> & _). cbn [app]. by apply parse_dot.
Qed.

Lemma parseIPv4_string4 a b c d :
  parseIPv4 (string4 [a; b; c; d]) = Some [b2z a; b2z b; b2z c; b2z d].
Proof.
  pose proof (b2z_range a). pose proof (b2z_range b).
  pose proof (b2z_range c). pose proof (b2z_range d).
  unfold parseIPv4, string4. cbn [map Join].
  rewrite parse_octet_dot by (simpl; lia). cbn [app].
  rewrite parse_octet_dot by (simpl; lia). cbn [app].
  rewrite <- (app_nil_r (Itoa (b2z d))).
  rewrite parse_octet_dot by (simpl; lia). cbn [app].
  destruct (parse_octet (b2z d) [] false true [b2z a; b2z b; b2z c]) as (dig & _ & ->); [lia|].
  reflexivity.
Qed.

(** The text of an octet string is scanned by [ParseAddr] up to its first dot. *)
Lemma first_of_digits s t :
  forallb is_digit s = true -> first_of (s ++ c_dot :: t) = Some c_dot.
Proof.
  induction s as [|x s IH]; simpl; [done|]. intros [Hx Hs]%andb_true_iff.
  assert (forall y, is_digit y = false -> chr y x = false) as Hn.
  { intros y Hy. apply chr_false. intros ->. congruence. }
  rewrite !Hn by reflexivity. simpl. by apply IH.
Qed.

(** [net.ParseIP] inverts [net.IP.String] on IPv4 addresses. *)
Lemma ParseIP_string4 q :
  length q = 4%nat -> ParseIP (string4 q) = Some (v4InV6Prefix ++ q).
Proof.
  intros Hq. destruct q as [|a [|b [|c [|d [|? ?]]]]]; try done.
  unfold ParseIP, ParseAddr.
  assert (first_of (string4 [a; b; c; d]) = Some c_dot) as ->.
  { apply first_of_digits, Itoa_digits. pose proof (b2z_range a). lia. }
  rewrite chr_refl, parseIPv4_string4. do 2 f_equal.
  rewrite <- (be_put_get [a; b; c; d]). f_equal.
Qed.

Lemma string4_not_elem q c :
  is_digit c = false -> c <> c_dot -> c ∉ string4 q.
Proof.
  intros Hc Hd. unfold string4.
  assert (forall z, 0 <= z -> c ∉ Itoa z) as Hi.
  { intros z Hz Hin. pose proof (Itoa_digits z Hz) as Ha.
    rewrite forallb_forall in Ha. apply list_elem_of_In, Ha in Hin. congruence. }
  induction q as [|x q IH]; simpl; [apply not_elem_of_nil|].
  pose proof (b2z_range x). destruct q as [|y q]; [apply Hi; lia|].
  simpl. simpl in IH. rewrite elem_of_app, elem_of_cons.
  intros [?|[?|?]]; [by eapply Hi; [|done]; lia|done|done].
Qed.

(** * Validation *)

Lemma TrimSpace_id `{U : GoUnicode} c m d :
  is_ascii_byte c = true -> is_space c = false ->
  is_ascii_byte d = true -> is_space d = false ->
  last (c :: m) = Some d ->
  TrimSpace (c :: m) = c :: m.
Proof.
  intros Hc1 Hc2 Hd1 Hd2 Hl. cbn [TrimSpace]. rewrite Hc1, Hc2. cbn [negb].
  apply last_Some in Hl as [l Hl]. rewrite Hl, rev_unit. cbn [trim_right_rev].
  rewrite Hd1, Hd2. cbn [negb rev]. by rewrite rev_involutive.
Qed.

Lemma digit_ascii c : is_digit c = true -> is_ascii_byte c = true /\ is_space c = false.
Proof. unfold is_digit, is_ascii_byte, is_space, between. lia. Qed.

(** A non-empty string whose first and last bytes are digits is not trimmed. *)
Lemma TrimSpace_digits `{U : GoUnicode} s c d :
  head s = Some c -> last s = Some d -> is_digit c = true -> is_digit d = true ->
  TrimSpace s = s.
Proof.
  intros Hh Hl [Hc1 Hc2]%digit_ascii [Hd1 Hd2]%digit_ascii.
  destruct s as [|x s]; [done|]. simplify_eq/=. by eapply TrimSpace_id.
Qed.

Lemma Itoa_last z : 0 <= z -> exists d, last (Itoa z) = Some d /\ is_digit d = true.
Proof.
  intros Hz. destruct (Itoa_ne z Hz) as (c & t & E & _).
  destruct (last (Itoa z)) as [d|] eqn:El.
  - exists d. split; [done|]. pose proof (Itoa_digits z Hz) as Ha.
    rewrite forallb_forall in Ha. apply Ha.
    apply last_Some in El as [l ->]. apply in_or_app. right. by left.
  - apply last_None in El. congruence.
Qed.

Lemma Itoa_TrimSpace `{U : GoUnicode} z : 0 <= z -> TrimSpace (Itoa z) = Itoa z.
Proof.
  intros Hz. destruct (Itoa_ne z Hz) as (c & t & E & Hc).
  destruct (Itoa_last z Hz) as (d & Hl & Hd).
  apply (TrimSpace_digits _ c d); [by rewrite E|done..].
Qed.

Lemma string4_TrimSpace `{U : GoUnicode} q :
  length q = 4%nat -> TrimSpace (string4 q) = string4 q.
Proof.
  intros Hq. destruct q as [|a [|b [|c [|d [|? ?]]]]]; try done.
  pose proof (b2z_range a). pose proof (b2z_range d).
  destruct (Itoa_ne (b2z a)) as (x & t & E & Hx); [lia|].
  destruct (Itoa_last (b2z d)) as (y & Hl & Hy); [lia|].
  apply (TrimSpace_digits _ x y); unfold string4; cbn [map Join]; [by rewrite E| |done..].
  rewrite !app_comm_cons, !app_assoc. rewrite last_app.
  change (c_dot :: Itoa (b2z d)) with ([c_dot] ++ Itoa (b2z d)). by rewrite last_app, Hl.
Qed.

Lemma Itoa_not_elem z c : 0 <= z -> is_digit c = false -> c ∉ Itoa z.
Proof.
  intros Hz Hc Hin. pose proof (Itoa_digits z Hz) as Ha.
  rewrite forallb_forall in Ha. apply list_elem_of_In, Ha in Hin. congruence.
Qed.

Lemma ContainsAny_false s chars :
  (forall c, c ∈ chars -> c ∉ s) -> ContainsAny s chars = false.
Proof.
  intros H. unfold ContainsAny. apply not_true_iff_false. intros [c [Hc Hx]]%existsb_exists.
  apply existsb_exists in Hx as [x [Hx E]]. apply chr_true in E. subst x.
  apply list_elem_of_In in Hc, Hx. by eapply H.
Qed.

Lemma is_empty_false s c t : s = c :: t -> is_empty s = false.
Proof. by intros ->. Qed.

(** An IPv4 address and a port as the relays print them. *)
Definition endpoint4 (q : bytes) (p : Z) : bytes := JoinHostPort (string4 q) (Itoa p).

Lemma SplitHostPort_endpoint4 q p :
  length q = 4%nat -> 0 <= p -> SplitHostPort (endpoint4 q p) = Ok (string4 q, Itoa p).
Proof.
  intros Hq Hp. apply SplitHostPort_JoinHostPort;
    (apply string4_not_elem || apply Itoa_not_elem); by vm_compute.
Qed.

(** Every printed IPv4 endpoint with a port in range is accepted. *)
Lemma ValidateHostPort_endpoint4 `{U : GoUnicode} q p :
  length q = 4%nat -> 1 <= p <= 65535 -> ValidateHostPort (endpoint4 q p) = Ok tt.
Proof.
  intros Hq Hp. unfold ValidateHostPort, ValidateHostPortValue, validateHostPortValue.
  rewrite ContainsAny_false.
  2: { intros c Hc. unfold endpoint4, JoinHostPort.
       assert (is_digit c = false /\ c <> c_dot /\ c <> c_colon) as (H1 & H2 & H3).
       { cbn [map] in Hc. rewrite !elem_of_cons in Hc. destruct Hc as [-> | [-> | [-> | [-> | Hc]]]];
           try (split_and!; by vm_compute). by apply not_elem_of_nil in Hc. }
       case_match eqn:E; [|].
       - apply Z.leb_le, IndexByte_ge_elem in E.
         by apply string4_not_elem in E.
       - rewrite elem_of_app, elem_of_cons. intros [?|[?|?]]; [|done|].
         + by eapply string4_not_elem.
         + eapply (Itoa_not_elem p); [lia|done..]. }
  rewrite SplitHostPort_endpoint4 by (done || lia). cbn [res_bind negb andb].
  rewrite string4_TrimSpace, Itoa_TrimSpace by (done || lia).
  assert (is_empty (string4 q) = false) as ->.
  { destruct q as [|a q]; [done|]. pose proof (b2z_range a).
    destruct (Itoa_ne (b2z a)) as (c & t & E & _); [lia|].
    unfold string4. destruct q; cbn [map Join]; by rewrite E. }
  destruct (Itoa_ne p) as (c & t & Ec & _); [lia|]. rewrite (is_empty_false _ _ _ Ec).
  cbn [res_bind negb andb]. unfold ValidateHostnameOrIP.
  rewrite ParseIP_string4 by done. cbn [res_bind]. rewrite Atoi_Itoa by lia.
  destruct (Z.ltb_spec p 1); [lia|]. by destruct (Z.ltb_spec 65535 p); [lia|].
Qed.

(** What an accepted value guarantees: it splits into a host that is an IP or a
    well-formed name and a port between 1 and 65535. *)
Lemma ValidateHostPort_ok `{U : GoUnicode} v :
  ValidateHostPort v = Ok tt ->
  exists host port p,
    SplitHostPort v = Ok (host, port) /\ Atoi port = Some p /\ 1 <= p <= 65535 /\
    (is_Some (ParseIP host) \/ ValidHostname (NormalizeTargetHost host) = true).
Proof.
  unfold ValidateHostPort, ValidateHostPortValue, validateHostPortValue.
  destruct (ContainsAny _ _); [done|].
  destruct (SplitHostPort v) as [[host port]| |] eqn:Es; try done.
  cbn [res_bind negb andb].
  destruct (is_empty (TrimSpace host)); [done|]. cbn [negb].
  unfold ValidateHostnameOrIP.
  destruct (ParseIP host) eqn:Ei; cbn [res_bind].
  - destruct (is_empty (TrimSpace port)); [done|].
    destruct (Atoi port) as [p|] eqn:Ea; [|done].
    destruct ((p <? 1) || (65535 <? p)) eqn:Eb; [done|]. intros _.
    exists host, port, p. split_and!; try done; try lia. rewrite Ei. eauto.
  - destruct (ValidHostname (NormalizeTargetHost host)) eqn:Eh; [|done]. cbn [res_bind].
    destruct (is_empty (TrimSpace port)); [done|].
    destruct (Atoi port) as [p|] eqn:Ea; [|done].
    destruct ((p <? 1) || (65535 <? p)) eqn:Eb; [done|]. intros _.
    exists host, port, p. split_and!; try done; try lia. eauto.
Qed.
