(* ===== verification/GoTime.v ===== *)
(** Go's [time.Time] as the tunnel uses it: wall-clock seconds since year 1 in an
    [int64], nanoseconds, and the optional monotonic reading that [time.Now]
    attaches and comparisons prefer. *)

From Stdlib Require Import ZArith Lia.
From stdpp Require Import base numbers list.
From S2P Require Import Prelude.

Local Open Scope Z_scope.

(** [time.Duration]: nanoseconds. *)
Definition Second : Z := 1000000000.
Definition Millisecond : Z := 1000000.

Record Time : Type := mkTime {
  t_sec : Z;           (* seconds since 1 January of year 1, int64 *)
  t_nsec : Z;          (* 0 .. 999999999 *)
  t_mono : option Z;   (* monotonic clock reading in nanoseconds *)
}.

#[export] Instance Time_eq_dec : EqDecision Time.
Proof. solve_decision. Defined.

(** The zero value [time.Time{}]. *)
Definition zeroTime : Time := mkTime 0 0 None.

Definition unixToInternal : Z := 62135596800.

(** [time.Unix]; the offset addition wraps as [int64] addition does. *)
Definition Unix (sec nsec : Z) : Time :=
  mkTime (wrapS 64 (sec + nsec / Second + unixToInternal)) (nsec mod Second) None.

(** [t.Unix()] and [t.Nanosecond()]. *)
Definition UnixSec (t : Time) : Z := wrapS 64 (t_sec t - unixToInternal).
Definition Nanosecond (t : Time) : Z := t_nsec t.

(** A reading of the clock at [ns] nanoseconds after the Unix epoch with the
    monotonic clock at [mono]. *)
Definition now_at (ns mono : Z) : Time :=
  mkTime (ns / Second + unixToInternal) (ns mod Second) (Some mono).

(** The wall-clock instant in nanoseconds since year 1. *)
Definition wall (t : Time) : Z := t_sec t * Second + t_nsec t.

Definition sat64 (z : Z) : Z := Z.max (- 2 ^ 63) (Z.min (2 ^ 63 - 1) z).

(** [t.Add(d)]: seconds saturate; an overflowing monotonic reading is dropped. *)
Definition Add (t : Time) (d : Z) : Time :=
  let total := t_nsec t + d in
  mkTime (Z.max (- (2 ^ 63 - 1)) (Z.min (2 ^ 63 - 1) (t_sec t + total / Second)))
         (total mod Second)
         (match t_mono t with
          | Some m => if (- 2 ^ 63 <=? m + d) && (m + d <? 2 ^ 63) then Some (m + d) else None
          | None => None
          end).

(** [t.Before(u)], [t.After(u)]: monotonic readings when both have one. *)
Definition Before (t u : Time) : bool :=
  match t_mono t, t_mono u with
  | Some m, Some n => m <? n
  | _, _ => (t_sec t <? t_sec u) || ((t_sec t =? t_sec u) && (t_nsec t <? t_nsec u))
  end.

Definition After (t u : Time) : bool := Before u t.

(** [t.Sub(u)], saturating. *)
Definition Sub (t u : Time) : Z :=
  match t_mono t, t_mono u with
  | Some m, Some n => sat64 (m - n)
  | _, _ => sat64 (wall t - wall u)
  end.

(** * Lemmas *)

Definition time_ok (t : Time) : Prop := 0 <= t_nsec t < Second.

Lemma Unix_ok s n : time_ok (Unix s n).
Proof. unfold time_ok, Unix, Second. simpl. apply Z.mod_pos_bound. lia. Qed.

Lemma now_at_ok ns m : time_ok (now_at ns m).
Proof. unfold time_ok, now_at, Second. simpl. apply Z.mod_pos_bound. lia. Qed.

Lemma Add_ok t d : time_ok (Add t d).
Proof. unfold time_ok, Add, Second. simpl. apply Z.mod_pos_bound. lia. Qed.

(** Away from the ends of the range, [Add] is addition of instants. *)
Lemma wall_Add t d :
  - (2 ^ 63 - 1) <= t_sec t + (t_nsec t + d) / Second <= 2 ^ 63 - 1 ->
  wall (Add t d) = wall t + d.
Proof.
  intros H. unfold wall, Add. simpl.
  pose proof (Z.div_mod (t_nsec t + d) Second). unfold Second in *. lia.
Qed.

(** Wall-clock comparison orders instants. *)
Lemma Before_wall t u :
  time_ok t -> time_ok u -> (t_mono t = None \/ t_mono u = None) ->
  Before t u = true <-> wall t < wall u.
Proof.
  unfold time_ok, Before, wall, Second. intros Ht Hu Hm.
  destruct (t_mono t), (t_mono u); [by destruct Hm|..]; lia.
Qed.

Lemma wall_Unix s n :
  - 2 ^ 63 <= s + n / Second + unixToInternal < 2 ^ 63 ->
  wall (Unix s n) = s * Second + n + unixToInternal * Second.
Proof.
  intros H. unfold wall, Unix. simpl. rewrite wrapS_small by (simpl; lia).
  pose proof (Z.div_mod n Second). unfold Second in *. lia.
Qed.

Lemma wall_now_at ns m : wall (now_at ns m) = ns + unixToInternal * Second.
Proof.
  unfold wall, now_at. simpl. pose proof (Z.div_mod ns Second). unfold Second in *. lia.
Qed.
