(* ===== verification/Crypto.v ===== *)
(** The cryptographic primitives the protocol calls: SHA-256, HMAC, HKDF, X25519
    and AEAD ciphers, with the random source.  Their code is outside the
    repository: they are the fields of a class, and the facts the protocol
    relies on are the fields of another. *)

From Stdlib Require Import ZArith Lia Strings.Byte.
From stdpp Require Import base numbers list.
From S2P Require Import Prelude.

Local Open Scope Z_scope.

(** An AEAD instance is keyed: [seal key nonce plaintext additional]. *)
Class Crypto := {
  sha256 : bytes -> bytes;
  hmac_sha256 : bytes -> bytes -> bytes;
  (** [hkdf.New(sha256.New, secret, salt, info)], the first [n] bytes read. *)
  hkdf_new : bytes -> bytes -> bytes -> nat -> res bytes;
  (** [hkdf.Extract(sha256.New, secret, salt)]. *)
  hkdf_extract : bytes -> bytes -> bytes;
  (** [hkdf.Expand(sha256.New, prk, info)], the first [n] bytes read. *)
  hkdf_expand : bytes -> bytes -> nat -> res bytes;
  (** [curve25519.X25519(scalar, point)] and [curve25519.Basepoint]. *)
  x25519 : bytes -> bytes -> res bytes;
  x25519_basepoint : bytes;
  (** Is the cipher constructible with a key: [newAEAD]'s calls. *)
  chacha20poly1305_new : bytes -> res unit;
  aes_new : bytes -> res unit;
  aead_seal : byte -> bytes -> bytes -> bytes -> bytes -> bytes;
  aead_open : byte -> bytes -> bytes -> bytes -> bytes -> option bytes;
}.

(** The random source: [rand.Int(rand.Reader, n)] and [rand.Read] into [n]
    bytes, by the number of the record they are drawn for. *)
Class Rand := {
  rand_int : Z -> Z -> option Z;
  rand_read : Z -> nat -> option bytes;
}.

Class RandOk `{R : Rand} := {
  rand_int_ok : forall i n x, rand_int i n = Some x -> 0 <= x < n;
  rand_read_ok : forall i n b, rand_read i n = Some b -> length b = n;
}.

(** Documented behaviour: output sizes, agreement of the two sides of the
    Diffie-Hellman exchange, decryption of a sealed record. *)
Class CryptoOk `{C : Crypto} := {
  len_sha256 : forall m, len (sha256 m) = 32;
  len_hmac : forall k m, len (hmac_sha256 k m) = 32;
  hkdf_new_ok : forall secret salt info n, (n <= 255 * 32)%nat ->
    exists k, hkdf_new secret salt info n = Ok k /\ length k = n;
  hkdf_expand_ok : forall prk info n, (n <= 255 * 32)%nat ->
    exists k, hkdf_expand prk info n = Ok k /\ length k = n;
  x25519_agree : forall a b pa pb, len a = 32 -> len b = 32 ->
    x25519 a x25519_basepoint = Ok pa -> x25519 b x25519_basepoint = Ok pb ->
    x25519 a pb = x25519 b pa;
  len_x25519 : forall a p s, x25519 a p = Ok s -> len s = 32;
  aead_open_seal : forall id key nonce pt ad,
    aead_open id key nonce (aead_seal id key nonce pt ad) ad = Some pt;
  len_aead_seal : forall id key nonce pt ad, len (aead_seal id key nonce pt ad) = len pt + 16;
  chacha20poly1305_ok : forall key, len key = 32 -> chacha20poly1305_new key = Ok tt;
  aes_ok : forall key, len key = 16 \/ len key = 32 -> aes_new key = Ok tt;
}.

(** [hmac.Equal]: constant-time equality. *)
Definition hmac_Equal (a b : bytes) : bool := bool_decide (a = b).

(** A source that pads nothing. *)
#[export] Instance no_rand : Rand := {| rand_int := fun _ _ => None; rand_read := fun _ _ => None |}.

#[export] Instance no_rand_ok : RandOk.
Proof. by split. Qed.

(** * A toy instance *)

(** Every law above holds of this transparent arithmetic on bytes: the class is
    not contradictory. *)
Definition pad32 (m : bytes) : bytes := take 32 (m ++ replicate 32 Byte.x00).

Definition toy_x25519 (a p : bytes) : res bytes :=
  Ok (pad32 (be_put 32 (be_get a * be_get p))).

#[export] Instance toy_crypto : Crypto := {|
  sha256 := pad32;
  hmac_sha256 := fun k m => pad32 (k ++ m);
  hkdf_new := fun secret salt info n => Ok (take n (secret ++ replicate n Byte.x00));
  hkdf_extract := fun secret salt => pad32 secret;
  hkdf_expand := fun prk info n => Ok (take n (prk ++ replicate n Byte.x00));
  x25519 := toy_x25519;
  x25519_basepoint := be_put 32 9;
  chacha20poly1305_new := fun _ => Ok tt;
  aes_new := fun _ => Ok tt;
  aead_seal := fun id key nonce pt ad => pt ++ replicate 16 Byte.x00;
  aead_open := fun id key nonce ct ad =>
    if len ct <? 16 then None else Some (take (Z.to_nat (len ct - 16)) ct);
|}.

Lemma len_pad32 m : len (pad32 m) = 32.
Proof. unfold pad32. solve_len. Qed.

Lemma pad32_id m : len m = 32 -> pad32 m = m.
Proof. intros H. unfold pad32. apply take_app_length'. solve_len. Qed.

Lemma be_put_mul_mod n a b :
  be_put n (a * (b mod 256 ^ Z.of_nat n)) = be_put n (a * b).
Proof.
  rewrite <- (be_put_mod n (a * (b mod _)) n) by lia.
  rewrite Z.mul_mod_idemp_r by lia. by rewrite be_put_mod.
Qed.

Lemma toy_agree a b g pa pb :
  toy_x25519 a g = Ok pa -> toy_x25519 b g = Ok pb -> toy_x25519 a pb = toy_x25519 b pa.
Proof.
  unfold toy_x25519. rewrite !pad32_id by (by rewrite len_be_put).
  intros <-%Ok_inj <-%Ok_inj.
  rewrite !be_get_put, !be_put_mul_mod. do 2 f_equal. lia.
Qed.

#[export] Instance toy_crypto_ok : CryptoOk.
Proof.
  split.
  - exact len_pad32.
  - intros k m. apply len_pad32.
  - intros secret salt info n _. eexists. split; [reflexivity|]. solve_len.
  - intros prk info n _. eexists. split; [reflexivity|]. solve_len.
  - intros a b pa pb _ _. apply toy_agree.
  - intros a p s [= <-]. apply len_pad32.
  - intros id key nonce pt ad. cbn [aead_open aead_seal toy_crypto].
    pose proof (len_nonneg pt). rewrite len_app. change (len (replicate 16 Byte.x00)) with 16.
    destruct (Z.ltb_spec (len pt + 16) 16); [lia|].
    replace (Z.to_nat (len pt + 16 - 16)) with (length pt) by solve_len.
    by rewrite take_app_length.
  - intros id key nonce pt ad. cbn [aead_seal toy_crypto]. rewrite len_app. done.
  - done.
  - done.
Qed.
