(* ===== verification/Wire.v ===== *)
(** internal/wire/protocol.go: the framing of the tunnel's data streams (open
    header, open status, UDP chunks and replies), on writers that may accept a
    write only in part. *)

From Stdlib Require Import ZArith Lia Strings.Byte.
From stdpp Require Import base numbers list sets.
From S2P Require Import Prelude GoStrings GoNet NetAddr.

Local Open Scope Z_scope.
Local Open Scope go_scope.

(** * Constants *)

Definition streamKindTCP : Z := 1.
Definition streamKindUDP : Z := 2.
Definition streamKindPing : Z := 3.

Definition isSupportedStreamKind (kind : Z) : bool :=
  (kind =? streamKindTCP) || (kind =? streamKindUDP) || (kind =? streamKindPing).

(** [1 << iota] from zero, 32 bits wide. *)
Definition protocolCapabilityTCP : Z := Z.shiftl 1 0.
Definition protocolCapabilityUDP : Z := Z.shiftl 1 1.
Definition protocolCapabilityPing : Z := Z.shiftl 1 2.
Definition protocolCapabilityIPStrategy : Z := Z.shiftl 1 3.
Definition protocolCapabilityTCPStatus : Z := Z.shiftl 1 4.
Definition protocolCapabilityUDPStatus : Z := Z.shiftl 1 5.
Definition protocolCapabilityOpenStatusCode : Z := Z.shiftl 1 6.

Definition tcpOpenStatusOK : Z := 0.
Definition tcpOpenStatusError : Z := 1.
Definition udpOpenStatusOK : Z := 0.
Definition udpOpenStatusError : Z := 1.

Definition openStatusCodeNone : Z := 0.
Definition openStatusCodeBadTarget : Z := 1.
Definition openStatusCodePolicyDenied : Z := 2.
Definition openStatusCodeDialFailed : Z := 3.
Definition openStatusCodeResourceLimit : Z := 4.

Definition maxProtocolFieldLen : Z := 65535.

Definition lor_all (l : list Z) : Z := foldr Z.lor 0 l.

Definition currentProtocolCapabilities : Z :=
  lor_all [protocolCapabilityTCP; protocolCapabilityUDP; protocolCapabilityPing;
           protocolCapabilityIPStrategy; protocolCapabilityTCPStatus;
           protocolCapabilityUDPStatus; protocolCapabilityOpenStatusCode].

Definition requiredProtocolCapabilities : Z :=
  Z.lor protocolCapabilityTCP protocolCapabilityPing.

(** * Writers *)

(** An [io.Writer]: the number of bytes it reports and its error, and the same
    for [io.StringWriter] when the writer has it. *)
Class Writer (W : Type) := {
  w_write : W -> bytes -> W * nat * option error;
  w_write_string : option (W -> bytes -> W * nat * option error);
}.

(** The contract of [io.Writer]: what was accepted is a prefix of the argument,
    it is appended to the output, and a short write reports an error.  [sink]
    is the output so far. *)
Definition write_contract {W} (sink : W -> bytes)
    (f : W -> bytes -> W * nat * option error) : Prop :=
  forall w b w' n e, f w b = (w', n, e) ->
    (n <= length b)%nat /\ sink w' = sink w ++ take n b /\
    ((n < length b)%nat -> e <> None).

Class WriterOk (W : Type) `{Writer W} := {
  sink : W -> bytes;
  w_write_ok : write_contract sink w_write;
  w_write_string_ok : forall f, w_write_string = Some f -> write_contract sink f;
}.

Section Writing.
Context {W : Type} `{HW : Writer W}.

(** The loop of [writeAllCount] over one of the two write methods.  Every round
    that goes on has consumed at least one byte, so [length b] rounds do. *)
Fixpoint write_loop (f : W -> bytes -> W * nat * option error) (fuel : nat)
    (w : W) (b : bytes) (total : Z) : W * (Z * option error) :=
  match b, fuel with
  | [], _ => (w, (total, None))
  | _, O => (w, (total, None))
  | _, S fuel' =>
      let '(w', n, err) := f w b in
      if (length b <? n)%nat then (w', (total, Some ErrShortWrite)) else
      let total' := total + Z.of_nat n in
      match err with
      | Some e => (w', (total', Some e))
      | None =>
          if (n =? 0)%nat then (w', (total', Some ErrShortWrite))
          else write_loop f fuel' w' (drop n b) total'
      end
  end.

Definition writeAllCount (w : W) (b : bytes) : W * (Z * option error) :=
  write_loop w_write (length b) w b 0.

Definition of_count (r : W * (Z * option error)) : W * res unit :=
  match r with
  | (w, (_, None)) => (w, Ok tt)
  | (w, (_, Some e)) => (w, Err e)
  end.

Definition writeAll (b : bytes) : io W unit := fun w => of_count (writeAllCount w b).

Definition writeAllString (s : bytes) : io W unit :=
  fun w =>
    match w_write_string with
    | Some f => of_count (write_loop f (length s) w s 0)
    | None => writeAll s w
    end.

Definition writeOptionalPayload (payload : bytes) : io W unit :=
  match payload with [] => io_ret tt | _ => writeAll payload end.

Definition writeOptionalString (payload : bytes) : io W unit :=
  match payload with [] => io_ret tt | _ => writeAllString payload end.

Definition validateProtocolFieldLen (length : Z) : res unit :=
  if maxProtocolFieldLen <? length
  then Err (Errorf "%s长度超过 %d 字节" [maxProtocolFieldLen]) else Ok tt.

(** * Messages *)

Definition writeOpenStatus (status : byte) (message : bytes) : io W unit :=
  io_lift (validateProtocolFieldLen (len message)) ;!
  writeAll (status :: be_put 2 (len message)) ;!
  writeOptionalString message.

Definition writeOpenStatusCode (status code : byte) (message : bytes) : io W unit :=
  io_lift (validateProtocolFieldLen (len message)) ;!
  writeAll (status :: code :: be_put 2 (len message)) ;!
  writeOptionalString message.

Definition writeTCPOpenStatus := writeOpenStatus.
Definition writeUDPOpenStatus := writeOpenStatus.
Definition writeTCPOpenStatusCode := writeOpenStatusCode.
Definition writeUDPOpenStatusCode := writeOpenStatusCode.

Definition writeSmuxOpenHeader (kind strategy : byte) (target : bytes) : io W unit :=
  io_lift (res_map_err (fun _ => Errorf "目标地址过长" []) (validateProtocolFieldLen (len target))) ;!
  writeAll (kind :: strategy :: be_put 2 (len target)) ;!
  writeOptionalString target.

Definition writeChunk (b : bytes) : io W unit :=
  io_lift (res_map_err (fun _ => Errorf "数据块过大" []) (validateProtocolFieldLen (len b))) ;!
  writeAll (be_put 2 (len b)) ;!
  writeOptionalPayload b.

Definition writeUDPReply `{U : GoUnicode} (addr payload : bytes) : io W unit :=
  io_lift (res_map_err (fun _ => Errorf "地址过长" []) (validateProtocolFieldLen (len addr))) ;!
  io_lift (res_map_err (Wrapf "UDP 响应地址无效: %w") (ValidateHostPort addr)) ;!
  io_lift (res_map_err (fun _ => Errorf "数据块过大" []) (validateProtocolFieldLen (len payload))) ;!
  writeAll (be_put 2 (len addr) ++ be_put 2 (len payload)) ;!
  writeOptionalString addr ;!
  writeOptionalPayload payload.

End Writing.

(** The fixed-size head of a message, once read. *)
Definition at_ (head : bytes) (i : nat) : byte := nth i head Byte.x00.
Definition u16_at (head : bytes) (i : nat) : Z := be_get (take 2 (drop i head)).

Definition readExactPayload (length : Z) : io bytes bytes :=
  if length =? 0 then io_ret [] else ReadFull (Z.to_nat length).

Definition readOpenStatus : io bytes (byte * bytes) :=
  do! head <- ReadFull 3 in
  do! message <- readExactPayload (u16_at head 1) in
  io_ret (at_ head 0, message).

Definition readOpenStatusCode : io bytes (byte * byte * bytes) :=
  do! head <- ReadFull 4 in
  do! message <- readExactPayload (u16_at head 2) in
  io_ret (at_ head 0, at_ head 1, message).

Definition readTCPOpenStatus := readOpenStatus.
Definition readUDPOpenStatus := readOpenStatus.
Definition readTCPOpenStatusCode := readOpenStatusCode.
Definition readUDPOpenStatusCode := readOpenStatusCode.

Definition readSmuxOpenHeader : io bytes (byte * byte * bytes) :=
  do! head <- ReadFull 4 in
  do! targetRaw <- readExactPayload (u16_at head 2) in
  io_ret (at_ head 0, at_ head 1, targetRaw).

Definition readChunk : io bytes bytes :=
  do! h <- ReadFull 2 in
  readExactPayload (u16_at h 0).

Definition readUDPReply `{U : GoUnicode} : io bytes (bytes * bytes) :=
  do! head <- ReadFull 4 in
  do! addr <- readExactPayload (u16_at head 0) in
  io_lift (res_map_err (Wrapf "UDP 响应地址无效: %w") (ValidateHostPort addr)) ;!
  do! data <- readExactPayload (u16_at head 2) in
  io_ret (addr, data).

(** * Lemmas on writers *)

(** [m], when it returns nil, has appended exactly [out]. *)
Definition writes {W} `{WriterOk W} (m : io W unit) (out : bytes) : Prop :=
  forall w w', m w = (w', Ok tt) -> sink w' = sink w ++ out.

(** [rd] consumes exactly [out] and returns [v]. *)
Definition reads {A} (rd : io bytes A) (out : bytes) (v : A) : Prop :=
  forall rest, rd (out ++ rest) = (rest, Ok v).

Create HintDb wire.

Section WriterLemmas.
Context {W : Type} {HWr : Writer W} {HOk : WriterOk W}.

(** The write loop: the output grows by a prefix of the argument, whose length
    is the count returned; without an error it is the whole argument. *)
Lemma write_loop_spec f fuel w b total w' t e :
  write_contract sink f -> (length b <= fuel)%nat ->
  write_loop f fuel w b total = (w', (t, e)) ->
  exists p, p `prefix_of` b /\ sink w' = sink w ++ p /\ t = total + len p /\
            (e = None -> p = b).
Proof.
  intros Hf. revert w b total. induction fuel as [|fuel IH]; intros w b total Hl Hr.
  - destruct b; [|simpl in Hl; lia]. simpl in Hr. simplify_eq.
    exists []. rewrite app_nil_r. unfold len; simpl. split_and!; [done..|lia|done].
  - destruct b as [|c b']; [simpl in Hr; simplify_eq; exists [];
      rewrite app_nil_r; unfold len; simpl; split_and!; [done..|lia|done]|].
    cbn [write_loop] in Hr. remember (c :: b') as b eqn:Eb. clear Eb.
    destruct (f w b) as [[w1 n] err] eqn:Ew.
    destruct (Hf _ _ _ _ _ Ew) as (Hn & Hs & Hshort).
    destruct (Nat.ltb_spec (length b) n); [lia|].
    assert (len (take n b) = Z.of_nat n) as Ht by solve_len.
    destruct err as [e1|].
    { simplify_eq. exists (take n b). rewrite Ht.
      split_and!; [apply prefix_take|done|done|done]. }
    destruct (Nat.eqb_spec n 0) as [->|Hn0].
    { simplify_eq. exists []. split_and!; [apply prefix_nil|done|unfold len; simpl; lia|done]. }
    destruct (IH w1 (drop n b) (total + Z.of_nat n)) as (p & Hp & Hs' & Ht' & He); [solve_len|done|].
    exists (take n b ++ p). split_and!.
    + rewrite <- (take_drop n b) at 2. by apply prefix_app.
    + by rewrite Hs', Hs, app_assoc.
    + rewrite Ht', len_app. lia.
    + intros E. rewrite He by done. by rewrite take_drop.
Qed.

Lemma of_count_ok (r : W * (Z * option error)) w' : of_count r = (w', Ok tt) -> exists t, r = (w', (t, None)).
Proof. destruct r as [? [? [|]]]; simpl; intros [= ->]; eauto. Qed.

Lemma writes_writeAll b : writes (writeAll b) b.
Proof.
  intros w w' [t Hc]%of_count_ok.
  eapply write_loop_spec in Hc as (p & _ & -> & _ & Hp); [|apply w_write_ok|done].
  by rewrite Hp.
Qed.

Lemma writes_writeAllString b : writes (writeAllString b) b.
Proof.
  intros w w'. unfold writeAllString. destruct w_write_string as [f|] eqn:E.
  - intros [t Hc]%of_count_ok.
    eapply write_loop_spec in Hc as (p & _ & -> & _ & Hp); [|by apply w_write_string_ok|done].
    by rewrite Hp.
  - apply writes_writeAll.
Qed.

Lemma writes_optional_payload b : writes (writeOptionalPayload b) b.
Proof.
  destruct b; [|apply writes_writeAll].
  intros w w' [= ->]. by rewrite app_nil_r.
Qed.

Lemma writes_optional_string b : writes (writeOptionalString b) b.
Proof.
  destruct b; [|apply writes_writeAllString].
  intros w w' [= ->]. by rewrite app_nil_r.
Qed.

Lemma writes_bind m1 m2 o1 o2 :
  writes m1 o1 -> writes m2 o2 -> writes (m1 ;! m2) (o1 ++ o2).
Proof.
  intros H1 H2 w w'. unfold io_bind. destruct (m1 w) as [w1 [[]| |]] eqn:E; try done.
  intros Hm2. rewrite (H2 _ _ Hm2), (H1 _ _ E). by rewrite app_assoc.
Qed.

Lemma writes_lift (m : res unit) k out : (m = Ok tt -> writes k out) -> writes (io_lift m ;! k) out.
Proof. intros Hk w w'. unfold io_bind, io_lift. destruct m as [[]| |]; [by apply Hk|done..]. Qed.

End WriterLemmas.

#[export] Hint Resolve writes_writeAll writes_writeAllString writes_optional_payload
  writes_optional_string writes_bind writes_lift : wire.

(** * Lemmas on readers *)

Lemma validateProtocolFieldLen_ok n : validateProtocolFieldLen n = Ok tt <-> n <= 65535.
Proof.
  unfold validateProtocolFieldLen, maxProtocolFieldLen.
  destruct (Z.ltb_spec 65535 n); split; try done; lia.
Qed.

Lemma reads_ReadFull n a : length a = n -> reads (ReadFull n) a a.
Proof. intros H rest. by apply ReadFull_app. Qed.

Lemma reads_exact n a : len a = n -> reads (readExactPayload n) a a.
Proof.
  intros H rest. unfold readExactPayload. destruct (Z.eqb_spec n 0) as [->|Hn].
  - destruct a; [done|]. solve_len.
  - apply ReadFull_app. solve_len.
Qed.

Lemma reads_bind {A B} (m : io bytes A) (k : A -> io bytes B) o1 o2 a b :
  reads m o1 a -> reads (k a) o2 b -> reads (io_bind m k) (o1 ++ o2) b.
Proof. intros H1 H2 rest. unfold io_bind. by rewrite <- app_assoc, H1. Qed.

Lemma reads_ret {A} (a : A) : reads (io_ret a) [] a.
Proof. by intros rest. Qed.

Lemma reads_lift {B} (m : res unit) (k : io bytes B) out b :
  m = Ok tt -> reads k out b -> reads (io_lift m ;! k) out b.
Proof. intros -> Hk rest. exact (Hk rest). Qed.

(** The 16-bit length written in a head is the one read back. *)
Lemma u16_put n : 0 <= n <= 65535 -> be_get (be_put 2 n) = n.
Proof. intros. apply be_get_put_small. simpl. lia. Qed.

Lemma reads_payload_end {A} n a (v : A) :
  len a = n -> reads (do! x <- readExactPayload n in io_ret (v, x)) a (v, a).
Proof.
  intros H. rewrite <- (app_nil_r a) at 1.
  eapply reads_bind; [by apply reads_exact|apply reads_ret].
Qed.

(** What each writer emits on a message within the field limit. *)
Definition enc_open_status (status : byte) (message : bytes) : bytes :=
  (status :: be_put 2 (len message)) ++ message.
Definition enc_open_status_code (status code : byte) (message : bytes) : bytes :=
  (status :: code :: be_put 2 (len message)) ++ message.
Definition enc_chunk (b : bytes) : bytes := be_put 2 (len b) ++ b.
Definition enc_udp_reply (addr payload : bytes) : bytes :=
  (be_put 2 (len addr) ++ be_put 2 (len payload)) ++ addr ++ payload.

Lemma reads_open_status status message :
  len message <= 65535 -> reads readOpenStatus (enc_open_status status message) (status, message).
Proof.
  intros H. pose proof (len_nonneg message). unfold readOpenStatus, enc_open_status.
  eapply reads_bind; [by apply reads_ReadFull|].
  apply reads_payload_end. symmetry. by apply u16_put.
Qed.

Lemma reads_open_status_code status code message :
  len message <= 65535 ->
  reads readOpenStatusCode (enc_open_status_code status code message) (status, code, message).
Proof.
  intros H. pose proof (len_nonneg message). unfold readOpenStatusCode, enc_open_status_code.
  eapply reads_bind; [by apply reads_ReadFull|].
  apply reads_payload_end. symmetry. by apply u16_put.
Qed.

Lemma reads_chunk b : len b <= 65535 -> reads readChunk (enc_chunk b) b.
Proof.
  intros H. pose proof (len_nonneg b). unfold readChunk, enc_chunk.
  eapply reads_bind; [by apply reads_ReadFull|].
  apply reads_exact. symmetry. by apply u16_put.
Qed.

Lemma reads_udp_reply `{U : GoUnicode} addr payload :
  len addr <= 65535 -> len payload <= 65535 -> ValidateHostPort addr = Ok tt ->
  reads readUDPReply (enc_udp_reply addr payload) (addr, payload).
Proof.
  intros H1 H2 Hv. pose proof (len_nonneg addr). pose proof (len_nonneg payload).
  unfold readUDPReply, enc_udp_reply.
  eapply reads_bind; [by apply reads_ReadFull|].
  eapply reads_bind; [apply reads_exact; symmetry; by apply u16_put|].
  apply reads_lift; [by rewrite Hv|].
  apply reads_payload_end. symmetry. by apply u16_put.
Qed.

(** * Truncated streams *)

Definition is_eof (e : error) : Prop := e = EOF \/ e = ErrUnexpectedEOF.

(** Every proper prefix of [out] makes [rd] fail with an end-of-file error. *)
Definition demands {A} (rd : io bytes A) (out : bytes) : Prop :=
  forall p q, out = p ++ q -> q <> [] -> exists s e, rd p = (s, Err e) /\ is_eof e.

Lemma demands_ReadFull n a : length a = n -> demands (ReadFull n) a.
Proof.
  intros H p q -> Hq. rewrite length_app in H. destruct q; [done|]. simpl in H.
  rewrite ReadFull_short by lia. unfold is_eof. destruct p; eauto.
Qed.

Lemma demands_exact n a : len a = n -> demands (readExactPayload n) a.
Proof.
  intros H p q E Hq. unfold readExactPayload. destruct (Z.eqb_spec n 0) as [->|Hn].
  - destruct a; [|solve_len]. destruct p; [by destruct q|done].
  - eapply demands_ReadFull; [|done..]. solve_len.
Qed.

Lemma demands_bind {A B} (m : io bytes A) (k : A -> io bytes B) o1 o2 a :
  demands m o1 -> reads m o1 a -> demands (k a) o2 -> demands (io_bind m k) (o1 ++ o2).
Proof.
  intros Hd Hr Hk p q E Hq. unfold io_bind.
  apply app_eq_app in E as [l [[-> ->]|[-> ->]]].
  - destruct l as [|c l].
    + rewrite app_nil_r in Hr, Hd. rewrite <- (app_nil_r p), Hr. by eapply (Hk []).
    + destruct (Hd p (c :: l)) as (s & e & -> & He); eauto.
  - rewrite Hr. by eapply Hk.
Qed.

Lemma demands_ret {A} (a : A) : demands (io_ret a) [].
Proof. intros p q E Hq. by destruct p, q. Qed.

Lemma demands_lift {B} (m : res unit) (k : io bytes B) out :
  m = Ok tt -> demands k out -> demands (io_lift m ;! k) out.
Proof. intros -> Hk p q. exact (Hk p q). Qed.

Lemma demands_payload_end {A} n a (v : A) :
  len a = n -> demands (do! x <- readExactPayload n in io_ret (v, x)) a.
Proof.
  intros H. rewrite <- (app_nil_r a) at 1.
  eapply demands_bind; [by apply demands_exact|by apply reads_exact|apply demands_ret].
Qed.

(** * A buffer as a writer *)

(** [bytes.Buffer]: both methods append the whole argument. *)
Definition buffer_write (w : bytes) (b : bytes) : bytes * nat * option error :=
  (w ++ b, length b, None).

#[export] Instance buffer_writer : Writer bytes := {|
  w_write := buffer_write;
  w_write_string := Some buffer_write;
|}.

Lemma buffer_write_contract : write_contract (fun w : bytes => w) buffer_write.
Proof.
  intros w b w' n e [= <- <- <-]. rewrite firstn_all. split_and!; [done|done|lia].
Qed.

#[export] Instance buffer_writer_ok : WriterOk bytes := {|
  sink := fun w => w;
  w_write_ok := buffer_write_contract;
  w_write_string_ok := fun f H => match H with eq_refl => buffer_write_contract end;
|}.

Lemma lift_bind_ok {W} (m : res unit) (k : io W unit) w w' :
  (io_lift m ;! k) w = (w', Ok tt) -> m = Ok tt /\ k w = (w', Ok tt).
Proof. unfold io_bind, io_lift. by destruct m as [[]| |]. Qed.

Lemma res_map_err_ok {A} f (m : res A) a : res_map_err f m = Ok a -> m = Ok a.
Proof. by destruct m. Qed.

Lemma validateProtocolFieldLen_long n :
  65535 < n -> validateProtocolFieldLen n = Err (Errorf "%s长度超过 %d 字节" [65535]).
Proof.
  intros H. unfold validateProtocolFieldLen, maxProtocolFieldLen.
  by destruct (Z.ltb_spec 65535 n); [|lia].
Qed.

(** Reading off the output of a successful write. *)
Lemma writes_frame {W} `{WriterOk W} (m : io W unit) w w' out :
  m w = (w', Ok tt) -> writes m out -> sink w' = sink w ++ out.
Proof. intros H1 H2. exact (H2 _ _ H1). Qed.

(** * Writers that accept everything *)

Definition reliable {W : Type} `{HWr : Writer W} : Prop :=
  forall (w : W) b, exists w', w_write w b = (w', length b, None).

(** The same for the optional [WriteString] method. *)
Definition reliable_strings {W : Type} `{HWr : Writer W} : Prop :=
  forall f, w_write_string = Some f -> forall (w : W) b, exists w', f w b = (w', length b, None).

Lemma write_loop_total {W} (f : W -> bytes -> W * nat * option error) b w total :
  (forall w b, exists w', f w b = (w', length b, None)) ->
  exists w' n, write_loop f (length b) w b total = (w', (n, None)).
Proof.
  intros Hf. destruct b as [|x b]; [by eexists _, _|]. cbn [length write_loop].
  destruct (Hf w (x :: b)) as [w' ->]. rewrite Nat.ltb_irrefl. cbn [length Nat.eqb].
  rewrite drop_ge by (cbn [length]; lia). destruct (length b); eexists _, _; reflexivity.
Qed.

Lemma writeAll_total {W} {HWr : Writer W} (Hrel : reliable (W := W)) b (w : W) :
  exists w', writeAll b w = (w', Ok tt).
Proof.
  unfold writeAll, writeAllCount. destruct (write_loop_total w_write b w 0 Hrel) as (w' & n & ->). by exists w'.
Qed.

Lemma writeOptionalString_total {W} {HWr : Writer W} (Hrel : reliable (W := W))
    (Hstr : reliable_strings (W := W)) b (w : W) :
  exists w', writeOptionalString b w = (w', Ok tt).
Proof.
  destruct b as [|x b]; [by eexists|]. cbn [writeOptionalString]. unfold writeAllString.
  destruct w_write_string as [f|] eqn:Ef; [|by apply writeAll_total].
  destruct (write_loop_total f (x :: b) w 0 (Hstr f Ef)) as (w' & n & ->). by exists w'.
Qed.

(** A status message, or a header, goes through whole. *)
Lemma head_and_string_total {W} {HWr : Writer W} {HOk : WriterOk W} (Hrel : reliable (W := W))
    (Hstr : reliable_strings (W := W)) (m : res unit) (head message : bytes) (w : W) :
  m = Ok tt ->
  exists w', (io_lift m ;! writeAll head ;! writeOptionalString message) w = (w', Ok tt) /\
             sink w' = sink w ++ head ++ message.
Proof.
  intros ->. cbn [io_bind io_lift].
  destruct (writeAll_total Hrel head w) as [w1 H1].
  destruct (writeOptionalString_total Hrel Hstr message w1) as [w2 H2].
  assert ((io_lift (Ok tt) ;! writeAll head ;! writeOptionalString message) w = (w2, Ok tt)) as Hw.
  { unfold io_bind, io_lift. by rewrite H1. }
  exists w2. split; [done|]. eapply writes_frame; [exact Hw|]. apply writes_lift. intros _. eauto with wire.
Qed.

(** * Properties of the framing *)

Section Properties.
Context {W : Type} {HWr : Writer W} {HOk : WriterOk W} {U : GoUnicode}.

(** Every message of the data-stream protocol that a writer obeying the
    [io.Writer] contract accepted without error is read back unchanged by the
    peer's reader, whatever follows it in the stream: the open header, the open
    status with and without a code, a UDP chunk and a UDP reply. *)
Theorem data_frames_roundtrip (w w' : W) :
  (forall kind strategy target,
     writeSmuxOpenHeader kind strategy target w = (w', Ok tt) ->
     exists out, sink w' = sink w ++ out /\
       reads readSmuxOpenHeader out (kind, strategy, target)) /\
  (forall status message,
     writeOpenStatus status message w = (w', Ok tt) ->
     exists out, sink w' = sink w ++ out /\ reads readOpenStatus out (status, message)) /\
  (forall status code message,
     writeOpenStatusCode status code message w = (w', Ok tt) ->
     exists out, sink w' = sink w ++ out /\
       reads readOpenStatusCode out (status, code, message)) /\
  (forall b, writeChunk b w = (w', Ok tt) ->
     exists out, sink w' = sink w ++ out /\ reads readChunk out b) /\
  (forall addr payload, writeUDPReply addr payload w = (w', Ok tt) ->
     exists out, sink w' = sink w ++ out /\ reads readUDPReply out (addr, payload)).
Proof.
  split_and!; intros *.
  - intros [Hm Hw]%lift_bind_ok. apply res_map_err_ok, validateProtocolFieldLen_ok in Hm.
    exists (enc_open_status_code kind strategy target).
    split; [by eapply writes_frame; eauto with wire|by apply reads_open_status_code].
  - intros [Hm Hw]%lift_bind_ok. apply validateProtocolFieldLen_ok in Hm.
    exists (enc_open_status status message).
    split; [by eapply writes_frame; eauto with wire|by apply reads_open_status].
  - intros [Hm Hw]%lift_bind_ok. apply validateProtocolFieldLen_ok in Hm.
    exists (enc_open_status_code status code message).
    split; [by eapply writes_frame; eauto with wire|by apply reads_open_status_code].
  - intros [Hm Hw]%lift_bind_ok. apply res_map_err_ok, validateProtocolFieldLen_ok in Hm.
    exists (enc_chunk b).
    split; [by eapply writes_frame; eauto with wire|by apply reads_chunk].
  - intros [H1 [H2 [H3 Hw]%lift_bind_ok]%lift_bind_ok]%lift_bind_ok.
    apply res_map_err_ok in H1, H2, H3. apply validateProtocolFieldLen_ok in H1, H3.
    exists (enc_udp_reply addr payload).
    split; [by eapply writes_frame; eauto with wire|by apply reads_udp_reply].
Qed.

(** A message with a field longer than 65535 bytes, or a UDP reply whose
    address is not a valid host:port, is refused before any byte is written:
    the writer is left as it was. *)
Theorem oversize_frame_refused (w : W) :
  (forall kind strategy target, 65535 < len target ->
     writeSmuxOpenHeader kind strategy target w = (w, Err (Errorf "目标地址过长" []))) /\
  (forall status code message, 65535 < len message ->
     fst (writeOpenStatusCode status code message w) = w /\
     snd (writeOpenStatusCode status code message w) <> Ok tt) /\
  (forall b, 65535 < len b -> writeChunk b w = (w, Err (Errorf "数据块过大" []))) /\
  (forall addr payload,
     65535 < len addr \/ 65535 < len payload \/ ValidateHostPort addr <> Ok tt ->
     fst (writeUDPReply addr payload w) = w /\ snd (writeUDPReply addr payload w) <> Ok tt).
Proof.
  split_and!; intros *.
  - intros H. unfold writeSmuxOpenHeader. by rewrite (validateProtocolFieldLen_long _ H).
  - intros H. unfold writeOpenStatusCode. by rewrite (validateProtocolFieldLen_long _ H).
  - intros H. unfold writeChunk. by rewrite (validateProtocolFieldLen_long _ H).
  - unfold writeUDPReply, io_bind, io_lift.
    destruct (Z.ltb_spec 65535 (len addr)) as [H1|H1];
      [by rewrite (validateProtocolFieldLen_long _ H1)|].
    apply validateProtocolFieldLen_ok in H1. rewrite H1. simpl.
    destruct (ValidateHostPort addr) as [[]| |]; simpl; [|done..].
    intros [H|[H|H]]; [by apply validateProtocolFieldLen_ok in H1; lia| |done].
    by rewrite (validateProtocolFieldLen_long _ H).
Qed.

(** What [writeAllCount] reports is true of any writer that obeys the
    [io.Writer] contract, however it splits the writes: the count is the number
    of bytes that reached the output, they are a prefix of the argument, and a
    nil error means that all of it was written. *)
Theorem writeAllCount_reports (w w' : W) (b : bytes) (n : Z) (e : option error) :
  writeAllCount w b = (w', (n, e)) ->
  exists p, p `prefix_of` b /\ sink w' = sink w ++ p /\ n = len p /\ (e = None -> p = b).
Proof.
  intros Hr. eapply write_loop_spec in Hr; [|apply w_write_ok|done].
  destruct Hr as (p & ? & ? & -> & ?). exists p. split_and!; done || lia.
Qed.

End Properties.

(** A stream cut anywhere inside a frame is never taken for a shorter
    message: on every proper prefix of the bytes of a frame its reader fails with
    [io.EOF] or [io.ErrUnexpectedEOF]. *)
Theorem truncated_frame_rejected `{U : GoUnicode} :
  (forall kind strategy target, len target <= 65535 ->
     demands readSmuxOpenHeader (enc_open_status_code kind strategy target)) /\
  (forall status message, len message <= 65535 ->
     demands readOpenStatus (enc_open_status status message)) /\
  (forall b, len b <= 65535 -> demands readChunk (enc_chunk b)) /\
  (forall addr payload, len addr <= 65535 -> len payload <= 65535 ->
     ValidateHostPort addr = Ok tt -> demands readUDPReply (enc_udp_reply addr payload)).
Proof.
  split_and!; intros *.
  - intros H. pose proof (len_nonneg target).
    eapply demands_bind; [by apply demands_ReadFull|by apply reads_ReadFull|].
    apply demands_payload_end. symmetry. by apply u16_put.
  - intros H. pose proof (len_nonneg message).
    eapply demands_bind; [by apply demands_ReadFull|by apply reads_ReadFull|].
    apply demands_payload_end. symmetry. by apply u16_put.
  - intros H. pose proof (len_nonneg b).
    eapply demands_bind; [by apply demands_ReadFull|by apply reads_ReadFull|].
    apply demands_exact. symmetry. by apply u16_put.
  - intros H1 H2 Hv. pose proof (len_nonneg addr). pose proof (len_nonneg payload).
    eapply demands_bind; [by apply demands_ReadFull|by apply reads_ReadFull|].
    eapply demands_bind; [apply demands_exact; symmetry; by apply u16_put|
      apply reads_exact; symmetry; by apply u16_put|].
    apply demands_lift; [by rewrite Hv|].
    apply demands_payload_end. symmetry. by apply u16_put.
Qed.

(** * Witnesses *)

Local Existing Instance ascii_only_unicode.

Lemma data_frames_roundtrip_witness :
  exists out,
    sink (enc_open_status_code (z2b 1) (z2b 0) (bs "example.com:443")) =
    sink (bs "") ++ out /\
    reads readSmuxOpenHeader out (z2b 1, z2b 0, bs "example.com:443").
Proof.
  apply (proj1 (data_frames_roundtrip (W := bytes) (U := ascii_only_unicode) (bs "")
    (enc_open_status_code (z2b 1) (z2b 0) (bs "example.com:443")))
    (z2b 1) (z2b 0) (bs "example.com:443")).
  reflexivity.
Defined.

Lemma oversize_frame_refused_witness :
  writeChunk (replicate (Z.to_nat 65536) (z2b 0)) (bs "head") = (bs "head", Err (Errorf "数据块过大" [])).
Proof.
  apply (proj1 (proj2 (proj2 (oversize_frame_refused (W := bytes) (bs "head"))))).
  vm_compute. reflexivity.
Defined.

Lemma writeAllCount_reports_witness :
  exists p, p `prefix_of` bs "abc" /\ sink (bs "xabc") = sink (bs "x") ++ p /\ 3 = len p /\
            (@None error = None -> p = bs "abc").
Proof.
  apply (writeAllCount_reports (W := bytes) (bs "x") (bs "xabc") (bs "abc") 3 None).
  vm_compute. reflexivity.
Defined.

Lemma truncated_frame_rejected_witness :
  demands readUDPReply (enc_udp_reply (bs "10.0.0.1:53") (bs "reply")).
Proof.
  apply (proj2 (proj2 (proj2 (truncated_frame_rejected (U := ascii_only_unicode)))));
    vm_compute; congruence.
Defined.
