(* ===== verification/WireV2.v ===== *)
(** internal/wire/protocol_v2.go: the control-channel frames, the TLV records
    they carry, the messages ChannelInit, ChannelAccept and ChannelReject, and
    the version 2 authentication transcript. *)

From Stdlib Require Import ZArith Lia Strings.Byte.
From stdpp Require Import base numbers list gmap.
From S2P Require Import Prelude GoStrings GoNet NetAddr GoTime Crypto Wire.

Local Open Scope Z_scope.
Local Open Scope go_scope.

(** * Constants and data *)

Definition protocolV2Version : Z := 2.
Definition v2FrameTypeChannelInit : Z := 1.
Definition v2FrameTypeChannelAccept : Z := 2.
Definition v2FrameTypeChannelReject : Z := 3.

Definition v2RecordSessionID : Z := 0x8001.
Definition v2RecordChannelID : Z := 0x8002.
Definition v2RecordClientNonce : Z := 0x8003.
Definition v2RecordTimestamp : Z := 0x8004.
Definition v2RecordCapabilities : Z := 0x8005.
Definition v2RecordAuthProof : Z := 0x8006.
Definition v2RecordClientName : Z := 0x0007.
Definition v2RecordBuildInfo : Z := 0x0008.
Definition v2RecordDesiredChannelCount : Z := 0x0009.
Definition v2RecordTransportHints : Z := 0x000a.
Definition v2RecordPadding : Z := 0x000b.
Definition v2RecordServerNonce : Z := 0x8010.
Definition v2RecordServerTime : Z := 0x8011.
Definition v2RecordMaxFrameSize : Z := 0x0012.
Definition v2RecordMaxStreams : Z := 0x0013.
Definition v2RecordMessage : Z := 0x0015.
Definition v2RecordRejectCode : Z := 0x8020.
Definition v2RecordRejectReason : Z := 0x0021.

Definition protocolCapabilityChannelStats : Z := Z.shiftl 1 9.
Definition protocolCapabilityForwardSecrecy : Z := Z.shiftl 1 12.

Definition v2RejectMissingRequiredCapability : Z := 2.
Definition v2RejectAuthenticationFailed : Z := 3.
Definition v2RejectMalformedFrame : Z := 8.

Definition maxV2FrameSize : Z := 16 * 1024.

Record V2Frame : Type := mkV2Frame {
  f_type : byte;
  f_version : byte;
  f_flags : Z;
  f_body : bytes;
}.

Record V2TLV : Type := mkTLV { tlv_type : Z; tlv_value : bytes }.

Record ChannelInit : Type := mkChannelInit {
  ci_session_id : bytes;
  ci_channel_id : Z;
  ci_client_nonce : bytes;
  ci_timestamp : Z;
  ci_capabilities : Z;
  ci_auth_proof : bytes;
  ci_cipher_pref : bytes;
  ci_client_eph_pk : bytes;
  ci_tai64n : bytes;
  ci_padding : bytes;
}.

Record ChannelAccept : Type := mkChannelAccept {
  ca_capabilities : Z;
  ca_server_nonce : bytes;
  ca_server_time : Z;
  ca_max_frame_size : Z;
  ca_max_streams : Z;
  ca_message : bytes;
  ca_cipher : byte;
  ca_server_eph_pk : bytes;
  ca_server_proof : bytes;
}.

Record ChannelReject : Type := mkChannelReject { cr_code : byte; cr_message : bytes }.

(** The zero values, returned beside an error or the other kind of reply. *)
Definition zeroAccept : ChannelAccept := mkChannelAccept 0 [] 0 0 0 [] Byte.x00 [] [].
Definition zeroReject : ChannelReject := mkChannelReject Byte.x00 [].

(** * Capabilities *)

Definition currentProtocolCapabilitiesV2 : Z :=
  lor_all [currentProtocolCapabilities; protocolCapabilityChannelStats;
           protocolCapabilityForwardSecrecy].

Definition requiredProtocolCapabilitiesV2 : Z :=
  lor_all [protocolCapabilityTCP; protocolCapabilityPing; protocolCapabilityTCPStatus;
           protocolCapabilityOpenStatusCode].

Definition negotiateProtocolCapabilitiesV2 (clientCaps : Z) : Z * Z * bytes :=
  let caps := Z.land clientCaps currentProtocolCapabilitiesV2 in
  let required := requiredProtocolCapabilitiesV2 in
  if negb (Z.land caps required =? required)
  then (0, v2RejectMissingRequiredCapability, bs "missing required protocol capabilities")
  else (caps, 0, []).

(** * Frames *)

Section Frames.
Context {W : Type} `{HW : Writer W}.

Definition writeV2Frame (frame : V2Frame) : io W unit :=
  let version := if b2z (f_version frame) =? 0 then protocolV2Version else b2z (f_version frame) in
  if negb (version =? protocolV2Version)
  then io_err (Errorf "v2 frame version invalid: %d" [version]) else
  if maxV2FrameSize <? len (f_body frame)
  then io_err (Errorf "v2 frame body too large: %d" [len (f_body frame)]) else
  writeAll (f_type frame :: z2b version :: be_put 2 (f_flags frame)
              ++ be_put 4 (len (f_body frame))) ;!
  writeOptionalPayload (f_body frame).

Definition writeV2TLV (typ : Z) (value : bytes) : io W unit :=
  if maxProtocolFieldLen <? len value
  then io_err (Errorf "v2 record too large: type=0x%04x length=%d" [typ; len value]) else
  writeAll (be_put 2 typ ++ be_put 2 (len value)) ;!
  writeOptionalPayload value.

End Frames.

Definition u32_at (head : bytes) (i : nat) : Z := be_get (take 4 (drop i head)).

Definition readV2Frame (maxSize : Z) : io bytes V2Frame :=
  let maxSize := if maxSize <=? 0 then maxV2FrameSize else maxSize in
  do! head <- ReadFull 8 in
  let version := at_ head 1 in
  if negb (b2z version =? protocolV2Version)
  then io_err (Errorf "v2 frame version invalid: %d" [b2z version]) else
  let bodyLen := u32_at head 4 in
  if maxSize <? bodyLen
  then io_err (Errorf "v2 frame body too large: %d" [bodyLen]) else
  do! body <- readExactPayload bodyLen in
  io_ret (mkV2Frame (at_ head 0) version (u16_at head 2) body).

(** * TLV records *)

(** One round of [parseV2TLVs] consumes four bytes at least: the length of the
    body bounds the number of rounds. *)
Fixpoint parseV2TLVs_loop (fuel : nat) (body : bytes) (known : option (list Z))
    (records : gmap Z V2TLV) : res (gmap Z V2TLV) :=
  match body, fuel with
  | [], _ => Ok records
  | _, O => Panic
  | _, S fuel' =>
      if len body <? 4 then Err ErrUnexpectedEOF else
      let typ := u16_at body 0 in
      let length := u16_at body 2 in
      let body := drop 4 body in
      if len body <? length then Err ErrUnexpectedEOF else
      let value := take (Z.to_nat length) body in
      let body := drop (Z.to_nat length) body in
      match records !! typ with
      | Some _ => Err (Errorf "duplicate v2 record: 0x%04x" [typ])
      | None =>
          if (match known with Some k => negb (bool_decide (typ ∈ k)) | None => false end) then
            if negb (Z.land typ 0x8000 =? 0)
            then Err (Errorf "unknown critical v2 record: 0x%04x" [typ])
            else parseV2TLVs_loop fuel' body known records
          else parseV2TLVs_loop fuel' body known (<[typ := mkTLV typ value]> records)
      end
  end.

Definition parseV2TLVs (body : bytes) (known : option (list Z)) : res (gmap Z V2TLV) :=
  parseV2TLVs_loop (length body) body known ∅.

Fixpoint check_tlvs (records : list V2TLV) : res unit :=
  match records with
  | [] => Ok tt
  | r :: rs =>
      if maxProtocolFieldLen <? len (tlv_value r)
      then Err (Errorf "v2 record too large: type=0x%04x length=%d" [tlv_type r; len (tlv_value r)])
      else check_tlvs rs
  end.

Fixpoint write_tlvs (records : list V2TLV) : io bytes unit :=
  match records with
  | [] => io_ret tt
  | r :: rs => writeV2TLV (tlv_type r) (tlv_value r) ;! write_tlvs rs
  end.

(** The sizes are checked first, then the records go to a [bytes.Buffer]. *)
Definition encodeV2TLVs (records : list V2TLV) : res bytes :=
  let! _ := check_tlvs records in
  match write_tlvs records [] with
  | (buf, Ok _) => Ok buf
  | (_, Err e) => Err e
  | (_, Panic) => Panic
  end.

(** * ChannelInit *)

Definition encodeChannelInit (init : ChannelInit) : res bytes :=
  if negb (len (ci_session_id init) =? 16)
  then Err (Errorf "session id must be 16 bytes" []) else
  if ci_channel_id init =? 0
  then Err (Errorf "channel id must be positive" []) else
  if negb (len (ci_client_nonce init) =? 32)
  then Err (Errorf "client nonce must be 32 bytes" []) else
  encodeV2TLVs [
    mkTLV v2RecordSessionID (ci_session_id init);
    mkTLV v2RecordChannelID (be_put 4 (ci_channel_id init));
    mkTLV v2RecordClientNonce (ci_client_nonce init);
    mkTLV v2RecordTimestamp (be_put 8 (wrapU 64 (ci_timestamp init)));
    mkTLV v2RecordCapabilities (be_put 8 (ci_capabilities init));
    mkTLV v2RecordAuthProof (ci_auth_proof init)].

Definition initRecords : list Z := [
  v2RecordSessionID; v2RecordChannelID; v2RecordClientNonce; v2RecordTimestamp;
  v2RecordCapabilities; v2RecordAuthProof; v2RecordClientName; v2RecordBuildInfo;
  v2RecordDesiredChannelCount; v2RecordTransportHints; v2RecordPadding].

(** The closure [get] of [decodeChannelInit]; a negative size is not checked. *)
Definition getV2 (records : gmap Z V2TLV) (typ size : Z) : res bytes :=
  match records !! typ with
  | None => Err (Errorf "missing required v2 record: 0x%04x" [typ])
  | Some r =>
      if (0 <=? size) && negb (len (tlv_value r) =? size)
      then Err (Errorf "invalid v2 record length: 0x%04x" [typ])
      else Ok (tlv_value r)
  end.

Definition decodeChannelInit (body : bytes) : res ChannelInit :=
  let! records := parseV2TLVs body (Some initRecords) in
  let! sessionID := getV2 records v2RecordSessionID 16 in
  let! channelIDRaw := getV2 records v2RecordChannelID 4 in
  let! nonce := getV2 records v2RecordClientNonce 32 in
  let! timestampRaw := getV2 records v2RecordTimestamp 8 in
  let! capsRaw := getV2 records v2RecordCapabilities 8 in
  let! proof := getV2 records v2RecordAuthProof (-1) in
  let channelID := be_get channelIDRaw in
  if channelID =? 0 then Err (Errorf "channel id must be positive" []) else
  Ok (mkChannelInit sessionID channelID nonce (wrapS 64 (be_get timestampRaw))
        (be_get capsRaw) proof [] [] [] []).

Definition writeChannelInit {W} `{Writer W} (init : ChannelInit) : io W unit :=
  do! body <- io_lift (encodeChannelInit init) in
  writeV2Frame (mkV2Frame (z2b v2FrameTypeChannelInit) (z2b protocolV2Version) 0 body).

Definition readChannelInit (maxSize : Z) : io bytes ChannelInit :=
  do! frame <- readV2Frame maxSize in
  if negb (b2z (f_type frame) =? v2FrameTypeChannelInit)
  then io_err (Errorf "unexpected v2 frame type: %d" [b2z (f_type frame)])
  else io_lift (decodeChannelInit (f_body frame)).

(** * ChannelAccept and ChannelReject *)

Definition encodeChannelAccept (accept : ChannelAccept) : res bytes :=
  if negb (len (ca_server_nonce accept) =? 32)
  then Err (Errorf "server nonce must be 32 bytes" []) else
  encodeV2TLVs (
    [mkTLV v2RecordCapabilities (be_put 8 (ca_capabilities accept));
     mkTLV v2RecordServerNonce (ca_server_nonce accept);
     mkTLV v2RecordServerTime (be_put 8 (wrapU 64 (ca_server_time accept)))]
    ++ (if negb (ca_max_frame_size accept =? 0)
        then [mkTLV v2RecordMaxFrameSize (be_put 4 (ca_max_frame_size accept))] else [])
    ++ (if negb (ca_max_streams accept =? 0)
        then [mkTLV v2RecordMaxStreams (be_put 4 (ca_max_streams accept))] else [])
    ++ (if negb (is_empty (ca_message accept))
        then [mkTLV v2RecordMessage (ca_message accept)] else [])).

Definition acceptRecords : list Z := [
  v2RecordCapabilities; v2RecordServerNonce; v2RecordServerTime; v2RecordMaxFrameSize;
  v2RecordMaxStreams; v2RecordMessage; v2RecordPadding].

(** [record, ok := records[typ]; if !ok || len(record.Value) != size]. *)
Definition require (records : gmap Z V2TLV) (typ size : Z) (msg : String.string) : res bytes :=
  match records !! typ with
  | Some r => if len (tlv_value r) =? size then Ok (tlv_value r) else Err (Errorf msg [])
  | None => Err (Errorf msg [])
  end.

(** An optional 32-bit record, zero when absent. *)
Definition optional_u32 (records : gmap Z V2TLV) (typ : Z) (msg : String.string) : res Z :=
  match records !! typ with
  | Some r => if negb (len (tlv_value r) =? 4) then Err (Errorf msg []) else Ok (be_get (tlv_value r))
  | None => Ok 0
  end.

Definition optional_value (records : gmap Z V2TLV) (typ : Z) : bytes :=
  match records !! typ with Some r => tlv_value r | None => [] end.

Definition decodeChannelAccept (body : bytes) : res ChannelAccept :=
  let! records := parseV2TLVs body (Some acceptRecords) in
  let! caps := require records v2RecordCapabilities 8 "invalid channel accept capabilities" in
  let! nonce := require records v2RecordServerNonce 32 "invalid channel accept server nonce" in
  let! stime := require records v2RecordServerTime 8 "invalid channel accept server time" in
  let! mfs := optional_u32 records v2RecordMaxFrameSize "invalid max frame size length" in
  let! ms := optional_u32 records v2RecordMaxStreams "invalid max streams length" in
  Ok (mkChannelAccept (be_get caps) nonce (wrapS 64 (be_get stime)) mfs ms
        (optional_value records v2RecordMessage) Byte.x00 [] []).

Definition encodeChannelReject (reject : ChannelReject) : res bytes :=
  let code := if b2z (cr_code reject) =? 0 then v2RejectMalformedFrame else b2z (cr_code reject) in
  encodeV2TLVs (
    [mkTLV v2RecordRejectCode (be_put 2 code)]
    ++ (if negb (is_empty (cr_message reject))
        then [mkTLV v2RecordRejectReason (cr_message reject)] else [])).

(** The code is a 16-bit record converted with [byte(..)]. *)
Definition decodeChannelReject (body : bytes) : res ChannelReject :=
  let! records := parseV2TLVs body (Some [v2RecordRejectCode; v2RecordRejectReason; v2RecordPadding]) in
  let! code := require records v2RecordRejectCode 2 "invalid channel reject code" in
  Ok (mkChannelReject (z2b (be_get code)) (optional_value records v2RecordRejectReason)).

Definition writeChannelAccept {W} `{Writer W} (accept : ChannelAccept) : io W unit :=
  do! body <- io_lift (encodeChannelAccept accept) in
  writeV2Frame (mkV2Frame (z2b v2FrameTypeChannelAccept) (z2b protocolV2Version) 0 body).

Definition writeChannelReject {W} `{Writer W} (reject : ChannelReject) : io W unit :=
  do! body <- io_lift (encodeChannelReject reject) in
  writeV2Frame (mkV2Frame (z2b v2FrameTypeChannelReject) (z2b protocolV2Version) 0 body).

Definition readChannelAcceptOrReject (maxSize : Z) : io bytes (ChannelAccept * ChannelReject) :=
  do! frame <- readV2Frame maxSize in
  if b2z (f_type frame) =? v2FrameTypeChannelAccept then
    do! accept <- io_lift (decodeChannelAccept (f_body frame)) in io_ret (accept, zeroReject)
  else if b2z (f_type frame) =? v2FrameTypeChannelReject then
    do! reject <- io_lift (decodeChannelReject (f_body frame)) in io_ret (zeroAccept, reject)
  else io_err (Errorf "unexpected v2 frame type: %d" [b2z (f_type frame)]).

(** * Timestamps and the authentication transcript *)

Definition validateChannelInitTimestamp (now : Time) (timestamp skew : Z) : bool :=
  if skew <=? 0 then true else
  let then_ := Unix timestamp 0 in
  if After then_ (Add now skew) then false
  else negb (Before then_ (Add now (- skew))).

Definition appendTranscriptString (dst value : bytes) : res bytes :=
  if maxProtocolFieldLen <? len value then Err (Errorf "transcript string too long" [])
  else Ok (dst ++ be_put 2 (len value) ++ value).

Definition channelInitTranscript (serverName path : bytes) (init : ChannelInit) : res bytes :=
  if negb (len (ci_session_id init) =? 16) then Err (Errorf "session id must be 16 bytes" []) else
  if negb (len (ci_client_nonce init) =? 32) then Err (Errorf "client nonce must be 32 bytes" []) else
  let transcript :=
    [z2b v2FrameTypeChannelInit; z2b protocolV2Version; z2b 0; z2b 0]
    ++ ci_session_id init
    ++ be_put 4 (ci_channel_id init)
    ++ ci_client_nonce init
    ++ be_put 8 (wrapU 64 (ci_timestamp init))
    ++ be_put 8 (ci_capabilities init) in
  let! transcript := appendTranscriptString transcript serverName in
  appendTranscriptString transcript path.

Section Auth.
Context `{C : Crypto}.

Definition computeV2AuthProof (token serverName path : bytes) (init : ChannelInit) : res bytes :=
  let! authKey := hkdf_new token (bs "x-tunnel-v2-auth") serverName 32 in
  let! transcript := channelInitTranscript serverName path init in
  Ok (hmac_sha256 authKey transcript).

Definition verifyV2AuthProof (token serverName path : bytes) (init : ChannelInit) : bool :=
  match computeV2AuthProof token serverName path
          (mkChannelInit (ci_session_id init) (ci_channel_id init) (ci_client_nonce init)
             (ci_timestamp init) (ci_capabilities init) [] [] [] [] []) with
  | Ok want => hmac_Equal want (ci_auth_proof init)
  | _ => false
  end.

End Auth.

(** * TLV lists: lemmas *)

(** The encoding of a record and of a list of them. *)
Definition enc_tlv (r : V2TLV) : bytes :=
  be_put 2 (tlv_type r) ++ be_put 2 (len (tlv_value r)) ++ tlv_value r.

Definition enc_tlvs (rs : list V2TLV) : bytes := concat (map enc_tlv rs).

(** Records that fit their wire format. *)
Definition tlv_wf (r : V2TLV) : Prop :=
  0 <= tlv_type r < 65536 /\ len (tlv_value r) <= 65535.

(** Set of known types: [None] is the nil map, everything known. *)
Definition is_known (known : option (list Z)) (t : Z) : bool :=
  match known with Some k => bool_decide (t ∈ k) | None => true end.

Definition is_critical (t : Z) : bool := negb (Z.land t 0x8000 =? 0).

Definition tlv_map (rs : list V2TLV) : gmap Z V2TLV :=
  list_to_map (map (fun r => (tlv_type r, r)) rs).

Definition known_tlvs (known : option (list Z)) (rs : list V2TLV) : list V2TLV :=
  List.filter (fun r => is_known known (tlv_type r)) rs.

Lemma buffer_writeAll b (w : bytes) : writeAll b w = (w ++ b, Ok tt).
Proof.
  unfold writeAll, writeAllCount. destruct b as [|c b]; [by rewrite app_nil_r|].
  cbn [length write_loop w_write buffer_writer buffer_write].
  rewrite Nat.ltb_irrefl. cbn [Nat.eqb]. cbn [drop]. rewrite drop_all.
  by destruct (length b).
Qed.

Lemma buffer_optional b (w : bytes) : writeOptionalPayload b w = (w ++ b, Ok tt).
Proof. destruct b; [by rewrite app_nil_r|]. apply buffer_writeAll. Qed.

Lemma write_tlvs_buffer rs (w : bytes) :
  check_tlvs rs = Ok tt -> write_tlvs rs w = (w ++ enc_tlvs rs, Ok tt).
Proof.
  revert w. induction rs as [|r rs IH]; intros w; cbn [check_tlvs write_tlvs].
  - by rewrite app_nil_r.
  - destruct (Z.ltb_spec maxProtocolFieldLen (len (tlv_value r))) as [|Hr]; [done|].
    intros Hrs. unfold writeV2TLV, io_bind.
    destruct (Z.ltb_spec maxProtocolFieldLen (len (tlv_value r))); [lia|].
    rewrite buffer_writeAll, buffer_optional, IH by done.
    unfold enc_tlvs. simpl. unfold enc_tlv. by rewrite <- !app_assoc.
Qed.

Lemma check_tlvs_ok rs :
  check_tlvs rs = Ok tt <-> Forall (fun r => len (tlv_value r) <= 65535) rs.
Proof.
  induction rs as [|r rs IH]; simpl; [by split|].
  rewrite Forall_cons, <- IH. unfold maxProtocolFieldLen.
  destruct (Z.ltb_spec 65535 (len (tlv_value r))); intuition (done || lia).
Qed.

(** [encodeV2TLVs] is concatenation of records, refused when one is too long. *)
Lemma encodeV2TLVs_ok rs body :
  encodeV2TLVs rs = Ok body <->
  Forall (fun r => len (tlv_value r) <= 65535) rs /\ body = enc_tlvs rs.
Proof.
  unfold encodeV2TLVs. rewrite <- check_tlvs_ok.
  destruct (check_tlvs rs) as [[]| |] eqn:E; cbn [res_bind]; [|by split; [|intros []]..].
  rewrite write_tlvs_buffer by done. simpl. split; [intros [= <-]|intros [_ ->]]; done.
Qed.

Lemma enc_tlv_head r rest :
  tlv_wf r ->
  let b := enc_tlv r ++ rest in
  (len b <? 4) = false /\ u16_at b 0 = tlv_type r /\ u16_at b 2 = len (tlv_value r) /\
  drop 4 b = tlv_value r ++ rest.
Proof.
  intros [Ht Hv]. pose proof (len_nonneg (tlv_value r)).
  unfold enc_tlv. rewrite <- !app_assoc.
  assert (length (be_put 2 (tlv_type r)) = 2%nat) as H2 by apply length_be_put.
  assert (length (be_put 2 (len (tlv_value r))) = 2%nat) as H3 by apply length_be_put.
  split_and!.
  - apply Z.ltb_ge. rewrite !len_app, !len_be_put.
    pose proof (len_nonneg rest). pose proof (len_nonneg (tlv_value r)). lia.
  - unfold u16_at. rewrite drop_0, take_app_length' by done. by apply u16_put; lia.
  - unfold u16_at. rewrite drop_app_length' by done.
    rewrite take_app_length' by done. by apply u16_put; lia.
  - rewrite (app_assoc (be_put 2 (tlv_type r))).
    by rewrite drop_app_length' by (rewrite length_app, H2, H3; done).
Qed.

(** One round of the parser on an encoded record. *)
Lemma parse_step fuel r rest known acc :
  tlv_wf r ->
  parseV2TLVs_loop (S fuel) (enc_tlv r ++ rest) known acc =
  match acc !! tlv_type r with
  | Some _ => Err (Errorf "duplicate v2 record: 0x%04x" [tlv_type r])
  | None =>
      if is_known known (tlv_type r)
      then parseV2TLVs_loop fuel rest known (<[tlv_type r := r]> acc)
      else if is_critical (tlv_type r)
           then Err (Errorf "unknown critical v2 record: 0x%04x" [tlv_type r])
           else parseV2TLVs_loop fuel rest known acc
  end.
Proof.
  intros Hr. destruct (enc_tlv_head r rest Hr) as (H4 & Ht & Hl & Hd).
  remember (enc_tlv r ++ rest) as b eqn:Eb. cbn [parseV2TLVs_loop].
  destruct b as [|c b']; [done|]. rewrite H4, Ht, Hl, Hd.
  pose proof (len_nonneg rest). rewrite len_app.
  destruct (Z.ltb_spec (len (tlv_value r) + len rest) (len (tlv_value r))); [lia|].
  assert (Z.to_nat (len (tlv_value r)) = length (tlv_value r)) as -> by solve_len.
  rewrite take_app_length, drop_app_length.
  destruct (acc !! tlv_type r); [done|]. unfold is_critical.
  replace (mkTLV (tlv_type r) (tlv_value r)) with r by by destruct r.
  destruct known as [k|]; simpl; [|done]. by destruct (bool_decide _).
Qed.

(** Any body long enough starts with an encoded record. *)
Lemma split_tlv body :
  (len body <? 4) = false -> (len (drop 4 body) <? u16_at body 2) = false ->
  exists r, tlv_wf r /\ tlv_type r = u16_at body 0 /\
    body = enc_tlv r ++ drop (Z.to_nat (u16_at body 2)) (drop 4 body).
Proof.
  intros H4%Z.ltb_ge Hl%Z.ltb_ge.
  set (n := Z.to_nat (u16_at body 2)) in *.
  assert (len (take 2 (drop 2 body)) = 2) as L2 by solve_len.
  assert (len (take 2 body) = 2) as L1 by solve_len.
  assert (forall x : bytes, len x = 2 -> 0 <= be_get x < 65536) as Hr.
  { intros x Hx. pose proof (be_get_range x) as R. rewrite Hx in R. simpl in R. lia. }
  assert (0 <= u16_at body 2 < 65536) as R2 by by apply Hr.
  assert (0 <= u16_at body 0 < 65536) as R1 by (apply Hr; by rewrite drop_0).
  assert (len (take n (drop 4 body)) = u16_at body 2) as Lv.
  { unfold len in *. rewrite length_take, Nat.min_l; unfold n; lia. }
  exists (mkTLV (u16_at body 0) (take n (drop 4 body))). split_and!; [|done|].
  - split; simpl; [lia|]. rewrite Lv. lia.
  - unfold enc_tlv. cbn [tlv_type tlv_value]. rewrite Lv. unfold n, u16_at.
    rewrite !be_put_get' by solve_len. rewrite <- !app_assoc.
    replace (drop 4 body) with (drop 2 (drop 2 body)) by by rewrite drop_drop.
    by rewrite !take_drop.
Qed.

(** What the parser accepts: every unknown record is optional and no known
    type, one already in [acc] included, appears twice. *)
Definition tlvs_accepted (known : option (list Z)) (acc : gmap Z V2TLV) (rs : list V2TLV) : Prop :=
  Forall tlv_wf rs /\
  Forall (fun r => is_known known (tlv_type r) = false -> is_critical (tlv_type r) = false) rs /\
  Forall (fun r => acc !! tlv_type r = None) rs /\
  NoDup (map tlv_type (known_tlvs known rs)).

Definition known_keys (known : option (list Z)) (acc : gmap Z V2TLV) : Prop :=
  forall t, acc !! t <> None -> is_known known t = true.

Lemma known_tlvs_types known rs t :
  t ∈ map tlv_type (known_tlvs known rs) -> is_known known t = true.
Proof.
  rewrite list_elem_of_In, in_map_iff. intros (r & <- & Hr).
  apply filter_In in Hr as [_ Hr]. done.
Qed.

Lemma elem_known_tlvs known rs r :
  r ∈ rs -> is_known known (tlv_type r) = true ->
  tlv_type r ∈ map tlv_type (known_tlvs known rs).
Proof.
  rewrite !list_elem_of_In. intros Hr Hk. apply in_map, filter_In. done.
Qed.

(** Prepending a record the parser keeps, and one it skips. *)
Lemma tlvs_accepted_known known acc r rs :
  tlv_wf r -> is_known known (tlv_type r) = true -> known_keys known acc ->
  acc !! tlv_type r = None ->
  tlvs_accepted known (<[tlv_type r := r]> acc) rs <-> tlvs_accepted known acc (r :: rs).
Proof.
  intros Hw Hk Hkeys Ha. unfold tlvs_accepted. rewrite !Forall_cons. unfold known_tlvs at 2.
  cbn [List.filter]. rewrite Hk. cbn [map]. fold (known_tlvs known rs). rewrite NoDup_cons.
  split.
  - intros (H1 & H2 & H3 & H4). split_and!; try done. 
    + eapply Forall_impl; [exact H3|]. intros r' Hr'. by apply lookup_insert_None in Hr' as [? _].
    + intros (r' & Ht & Hr')%list_elem_of_In%in_map_iff. apply filter_In in Hr' as [Hr' _].
      rewrite Forall_forall in H3. apply list_elem_of_In, H3, lookup_insert_None in Hr'. by destruct Hr'.
  - intros ((_ & H1) & (_ & H2) & (_ & H3) & Hn & H4). split_and!; try done.
    apply Forall_forall. intros r' Hr'. rewrite Forall_forall in H3.
    apply lookup_insert_None. split; [by apply H3|]. intros E. apply Hn. rewrite E.
    apply elem_known_tlvs; [done|]. by rewrite <- E.
Qed.

Lemma tlvs_accepted_unknown known acc r rs :
  tlv_wf r -> is_known known (tlv_type r) = false -> known_keys known acc ->
  is_critical (tlv_type r) = false ->
  tlvs_accepted known acc rs <-> tlvs_accepted known acc (r :: rs).
Proof.
  intros Hw Hk Hkeys Hc. unfold tlvs_accepted. rewrite !Forall_cons. unfold known_tlvs at 2.
  cbn [List.filter]. rewrite Hk. fold (known_tlvs known rs).
  assert (acc !! tlv_type r = None).
  { destruct (acc !! tlv_type r) eqn:E; [|done].
    assert (is_known known (tlv_type r) = true) by (apply Hkeys; by rewrite E). congruence. }
  intuition.
Qed.

Lemma known_keys_insert known acc r :
  is_known known (tlv_type r) = true -> known_keys known acc ->
  known_keys known (<[tlv_type r := r]> acc).
Proof.
  intros Hk Ha t. destruct (decide (t = tlv_type r)) as [->|Hn]; [done|].
  rewrite lookup_insert_ne by done. apply Ha.
Qed.

Lemma tlv_map_known known acc r rs :
  is_known known (tlv_type r) = true -> acc !! tlv_type r = None ->
  NoDup (map tlv_type (known_tlvs known (r :: rs))) ->
  tlv_map (known_tlvs known rs) ∪ <[tlv_type r := r]> acc =
  tlv_map (known_tlvs known (r :: rs)) ∪ acc.
Proof.
  intros Hk Ha. unfold known_tlvs. cbn [List.filter]. rewrite Hk. cbn [map].
  rewrite NoDup_cons. intros [Hn _]. unfold tlv_map at 2. cbn [map]. rewrite list_to_map_cons.
  rewrite <- insert_union_l, <- insert_union_r; [done|].
  apply not_elem_of_list_to_map_1. rewrite map_map. done.
Qed.

Lemma enc_tlvs_cons r rs : enc_tlvs (r :: rs) = enc_tlv r ++ enc_tlvs rs.
Proof. reflexivity. Qed.

Lemma length_enc_tlv r : (4 <= length (enc_tlv r))%nat.
Proof. unfold enc_tlv. rewrite !length_app, !length_be_put. lia. Qed.

(** The parser keeps the known records of a list it accepts... *)
Lemma parse_loop_complete rs fuel known acc :
  (length (enc_tlvs rs) <= fuel)%nat -> known_keys known acc -> tlvs_accepted known acc rs ->
  parseV2TLVs_loop fuel (enc_tlvs rs) known acc = Ok (tlv_map (known_tlvs known rs) ∪ acc).
Proof.
  revert fuel acc. induction rs as [|r rs IH]; intros fuel acc Hf Hk Ha.
  - unfold tlv_map; simpl. rewrite (left_id_L ∅ (∪)). by destruct fuel.
  - rewrite enc_tlvs_cons in *. pose proof (length_enc_tlv r).
    rewrite length_app in Hf. destruct fuel as [|fuel]; [lia|].
    assert (tlv_wf r /\ acc !! tlv_type r = None) as [Hw Hn].
    { destruct Ha as (H1 & _ & H3 & _). by inversion H1; inversion H3. }
    rewrite parse_step, Hn by done. destruct (is_known known (tlv_type r)) eqn:Er.
    + rewrite IH; [|lia|by apply known_keys_insert|by apply tlvs_accepted_known].
      f_equal. apply tlv_map_known; [done..|apply Ha].
    + assert (is_critical (tlv_type r) = false) as Hc.
      { destruct Ha as (_ & H2 & _). inversion H2; auto. }
      rewrite Hc, IH; [|lia|done|by eapply tlvs_accepted_unknown].
      unfold known_tlvs at 2. cbn [List.filter]. by rewrite Er.
Qed.

(** ... and accepts nothing else. *)
Lemma parse_loop_sound fuel body known acc m :
  known_keys known acc -> parseV2TLVs_loop fuel body known acc = Ok m ->
  exists rs, body = enc_tlvs rs /\ tlvs_accepted known acc rs.
Proof.
  revert body acc. induction fuel as [|fuel IH]; intros body acc Hk Hp.
  { destruct body; [|done]. exists []. repeat split; constructor. }
  destruct body as [|c body]; [exists []; repeat split; constructor|].
  remember (c :: body) as b eqn:Eb.
  destruct ((len b <? 4) || (len (drop 4 b) <? u16_at b 2)) eqn:Es.
  { subst b. cbn [parseV2TLVs_loop] in Hp. apply orb_true_iff in Es as [Es|Es].
    - by rewrite Es in Hp.
    - destruct (len (c :: body) <? 4); [done|]. by rewrite Es in Hp. }
  apply orb_false_iff in Es as [E1 E2].
  destruct (split_tlv b E1 E2) as (r & Hw & _ & Hb). clear Eb.
  rewrite Hb in Hp |- *. revert Hp. generalize (drop (Z.to_nat (u16_at b 2)) (drop 4 b)).
  clear Hb E1 E2. intros rest. rewrite parse_step by done.
  destruct (acc !! tlv_type r) eqn:En; [done|].
  destruct (is_known known (tlv_type r)) eqn:Er.
  - intros (rs & -> & Ha)%IH; [|by apply known_keys_insert].
    exists (r :: rs). split; [done|]. by apply tlvs_accepted_known.
  - destruct (is_critical (tlv_type r)) eqn:Ec; [done|].
    intros (rs & -> & Ha)%IH; [|done].
    exists (r :: rs). split; [done|]. by apply tlvs_accepted_unknown.
Qed.

Lemma parse_loop_no_panic fuel body known acc :
  (length body <= fuel)%nat -> parseV2TLVs_loop fuel body known acc <> Panic.
Proof.
  revert body acc. induction fuel as [|fuel IH]; intros body acc Hl.
  { by destruct body; [|simpl in Hl; lia]. }
  destruct body as [|c body]; [done|]. remember (c :: body) as b eqn:Eb.
  cbn [parseV2TLVs_loop]. assert (length b = S (length body)) as Hb by by subst.
  assert (forall n, length (drop n (drop 4 b)) <= fuel)%nat as Hd.
  { intros n. rewrite !length_drop. lia. }
  clear Eb. destruct b as [|x b']; [done|].
  repeat (case_match; try done); apply IH; apply Hd.
Qed.

(** The first record of each type, by scanning a list. *)
Fixpoint tlv_find (t : Z) (rs : list V2TLV) : option V2TLV :=
  match rs with
  | [] => None
  | r :: rs => if tlv_type r =? t then Some r else tlv_find t rs
  end.

Lemma tlv_map_lookup rs t : tlv_map rs !! t = tlv_find t rs.
Proof.
  induction rs as [|r rs IH]; [done|]. unfold tlv_map. cbn [map tlv_find].
  rewrite list_to_map_cons. destruct (Z.eqb_spec (tlv_type r) t) as [<-|Hn].
  - by rewrite lookup_insert_eq.
  - by rewrite lookup_insert_ne.
Qed.

Lemma parseV2TLVs_enc known rs :
  tlvs_accepted known ∅ rs -> parseV2TLVs (enc_tlvs rs) known = Ok (tlv_map (known_tlvs known rs)).
Proof.
  intros Ha. unfold parseV2TLVs.
  rewrite parse_loop_complete; [by rewrite (right_id_L ∅ (∪))|lia| |done].
  intros t. by rewrite lookup_empty.
Qed.

(** A sequence of records of distinct known types, short enough, is parsed back. *)
Lemma parse_encoded known rs body :
  encodeV2TLVs rs = Ok body ->
  forallb (fun r => (0 <=? tlv_type r) && (tlv_type r <? 65536) && is_known known (tlv_type r)) rs = true ->
  bool_decide (NoDup (map tlv_type rs)) = true ->
  parseV2TLVs body known = Ok (tlv_map rs).
Proof.
  intros [Hl ->]%encodeV2TLVs_ok Hall Hd%bool_decide_eq_true.
  rewrite forallb_forall in Hall.
  assert (forall r, r ∈ rs -> 0 <= tlv_type r < 65536 /\ is_known known (tlv_type r) = true) as Hr.
  { intros r Hr%list_elem_of_In%Hall. apply andb_true_iff in Hr as [Hr ->]. lia. }
  assert (known_tlvs known rs = rs) as Hk.
  { unfold known_tlvs. clear Hl Hd Hall. induction rs as [|r rs IH]; [done|]. cbn [List.filter].
    rewrite (proj2 (Hr r (list_elem_of_here _ _))). f_equal. apply IH.
    intros r' H'. apply Hr. by right. }
  rewrite parseV2TLVs_enc; [by rewrite Hk|].
  split_and!; [| | |by rewrite Hk]; apply Forall_forall; intros r Hin; destruct (Hr r Hin) as [Ht Hkn].
  - split; [done|]. by rewrite Forall_forall in Hl; apply Hl.
  - intros E. by rewrite Hkn in E.
  - apply lookup_empty.
Qed.

(** * Frames: lemmas *)

Definition enc_frame (typ : byte) (version flags : Z) (body : bytes) : bytes :=
  (typ :: z2b version :: be_put 2 flags ++ be_put 4 (len body)) ++ body.

Lemma frame_head typ version flags (body : bytes) :
  0 <= version < 256 -> 0 <= flags < 65536 -> len body < 2 ^ 32 ->
  let head := typ :: z2b version :: be_put 2 flags ++ be_put 4 (len body) in
  length head = 8%nat /\ at_ head 0 = typ /\ b2z (at_ head 1) = version /\
  u16_at head 2 = flags /\ u32_at head 4 = len body.
Proof.
  intros Hv Hf Hb. pose proof (len_nonneg body). split_and!.
  - simpl. reflexivity.
  - reflexivity.
  - by apply b2z_z2b_small.
  - change (be_get (be_put 2 flags) = flags). apply be_get_put_small. simpl. lia.
  - change (be_get (be_put 4 (len body)) = len body). apply be_get_put_small. simpl. lia.
Qed.

(** The limit a reader applies: the default, or a larger one. *)
Definition admits (maxSize : Z) : Prop := maxSize <= 0 \/ maxV2FrameSize <= maxSize.

(** Reading a frame and decoding its body. *)
Lemma reads_decode {A B} (m : io bytes A) (k : A -> io bytes B) out a b :
  reads m out a -> k a = io_lift (Ok b) -> reads (io_bind m k) out b.
Proof. intros Hm Hk rest. unfold io_bind. by rewrite Hm, Hk. Qed.

Lemma reads_readV2Frame maxSize typ flags body :
  admits maxSize -> 0 <= flags < 65536 -> len body <= maxV2FrameSize ->
  reads (readV2Frame maxSize) (enc_frame typ protocolV2Version flags body)
        (mkV2Frame typ (z2b protocolV2Version) flags body).
Proof.
  intros Hm Hf Hb. unfold admits, maxV2FrameSize in *.
  destruct (frame_head typ protocolV2Version flags body) as (H1 & H2 & H3 & H4 & H5);
    [by vm_compute|done|lia|].
  unfold readV2Frame, enc_frame.
  eapply reads_bind; [by apply reads_ReadFull|]. rewrite H2, H3, H4, H5.
  rewrite Z.eqb_refl. cbn [negb].
  destruct (Z.ltb_spec (if maxSize <=? 0 then maxV2FrameSize else maxSize) (len body)) as [Hlt|_].
  { unfold maxV2FrameSize in Hlt. destruct (Z.leb_spec maxSize 0); lia. }
  eapply reads_decode; [by apply reads_exact|]. reflexivity.
Qed.

Lemma writes_writeV2Frame {W} {HWr : Writer W} {HOk : WriterOk W} typ flags body (w w' : W) :
  writeV2Frame (mkV2Frame typ (z2b protocolV2Version) flags body) w = (w', Ok tt) ->
  sink w' = sink w ++ enc_frame typ protocolV2Version flags body /\ len body <= maxV2FrameSize.
Proof.
  unfold writeV2Frame. cbn [f_type f_version f_flags f_body].
  change (b2z (z2b protocolV2Version)) with protocolV2Version. cbn [Z.eqb].
  rewrite Z.eqb_refl. cbn [negb].
  destruct (Z.ltb_spec maxV2FrameSize (len body)); [done|]. intros Hw.
  split; [|lia]. eapply writes_frame; [exact Hw|]. unfold enc_frame. eauto with wire.
Qed.

Lemma lift_bind_ok' {W A} (m : res A) (k : A -> io W unit) w w' :
  io_bind (io_lift m) k w = (w', Ok tt) -> exists a, m = Ok a /\ k a w = (w', Ok tt).
Proof. unfold io_bind, io_lift. destruct m; eauto; done. Qed.

(** * Messages: decoding inverts encoding *)

(** The ranges of the fields' Go types. *)
Definition init_typed (i : ChannelInit) : Prop :=
  0 <= ci_channel_id i < 2 ^ 32 /\ - 2 ^ 63 <= ci_timestamp i < 2 ^ 63 /\
  0 <= ci_capabilities i < 2 ^ 64.

Definition accept_typed (a : ChannelAccept) : Prop :=
  0 <= ca_capabilities a < 2 ^ 64 /\ - 2 ^ 63 <= ca_server_time a < 2 ^ 63 /\
  0 <= ca_max_frame_size a < 2 ^ 32 /\ 0 <= ca_max_streams a < 2 ^ 32.

(** The fields version 2 carries; the others are zero on the other side. *)
Definition init_v2 (i : ChannelInit) : ChannelInit :=
  mkChannelInit (ci_session_id i) (ci_channel_id i) (ci_client_nonce i) (ci_timestamp i)
    (ci_capabilities i) (ci_auth_proof i) [] [] [] [].

Definition accept_v2 (a : ChannelAccept) : ChannelAccept :=
  mkChannelAccept (ca_capabilities a) (ca_server_nonce a) (ca_server_time a)
    (ca_max_frame_size a) (ca_max_streams a) (ca_message a) Byte.x00 [] [].

(** The code an encoded rejection carries. *)
Definition sent_reject (r : ChannelReject) : ChannelReject :=
  mkChannelReject (if b2z (cr_code r) =? 0 then z2b v2RejectMalformedFrame else cr_code r)
    (cr_message r).

Lemma be_get_u64 n : 0 <= n < 2 ^ 64 -> be_get (be_put 8 n) = n.
Proof. intros H. by apply be_get_put_small. Qed.

Lemma be_get_u32 n : 0 <= n < 2 ^ 32 -> be_get (be_put 4 n) = n.
Proof. intros H. by apply be_get_put_small. Qed.

Lemma be_get_i64 n : - 2 ^ 63 <= n < 2 ^ 63 -> wrapS 64 (be_get (be_put 8 (wrapU 64 n))) = n.
Proof. intros H. rewrite be_get_u64 by by apply wrapU_range. by apply wrapS_wrapU. Qed.

(** [if len(v) != n { return err }]: the case that goes on. *)
Ltac len_guard H :=
  match goal with
  | |- context [if negb (?a =? ?b) then Err _ else _] =>
      destruct (Z.eqb_spec a b) as [H|H]; cbn [negb]; [|intros; done]
  end.

Lemma getV2_find rs t n r :
  tlv_find t rs = Some r -> (n < 0 \/ len (tlv_value r) = n) ->
  getV2 (tlv_map rs) t n = Ok (tlv_value r).
Proof.
  intros Hf Hn. unfold getV2. rewrite tlv_map_lookup, Hf.
  destruct (Z.leb_spec 0 n); [|done]. destruct (Z.eqb_spec (len (tlv_value r)) n); [done|]. lia.
Qed.

Lemma require_find rs t n msg r :
  tlv_find t rs = Some r -> len (tlv_value r) = n ->
  require (tlv_map rs) t n msg = Ok (tlv_value r).
Proof.
  intros Hf <-. unfold require. by rewrite tlv_map_lookup, Hf, Z.eqb_refl.
Qed.

(** Reads the fields of a message off the list of its records. *)
Ltac get_fields :=
  repeat ((erewrite getV2_find by (reflexivity || cbn [tlv_value]; first [left; done | right; done]))
          || (erewrite require_find by (reflexivity || done));
          cbn [res_bind tlv_value]).

Lemma decode_encode_init i body :
  init_typed i -> encodeChannelInit i = Ok body -> decodeChannelInit body = Ok (init_v2 i).
Proof.
  intros (Hc & Ht & Hcap). unfold encodeChannelInit. len_guard Hs.
  destruct (Z.eqb_spec (ci_channel_id i) 0) as [|Hc0]; [done|]. len_guard Hn. intros He.
  unfold decodeChannelInit.
  rewrite (parse_encoded (Some initRecords) _ _ He) by by vm_compute.
  cbn [res_bind]. get_fields.
  rewrite be_get_i64, be_get_u32, be_get_u64 by done.
  by destruct (Z.eqb_spec (ci_channel_id i) 0).
Qed.

Lemma optional_u32_find rs t msg r :
  tlv_find t rs = Some r -> len (tlv_value r) = 4 ->
  optional_u32 (tlv_map rs) t msg = Ok (be_get (tlv_value r)).
Proof. intros Hf Hl. unfold optional_u32. by rewrite tlv_map_lookup, Hf, Hl. Qed.

Lemma optional_u32_none rs t msg : tlv_find t rs = None -> optional_u32 (tlv_map rs) t msg = Ok 0.
Proof. intros Hf. unfold optional_u32. by rewrite tlv_map_lookup, Hf. Qed.

Lemma optional_value_find rs t r :
  tlv_find t rs = Some r -> optional_value (tlv_map rs) t = tlv_value r.
Proof. intros Hf. unfold optional_value. by rewrite tlv_map_lookup, Hf. Qed.

Lemma optional_value_none rs t : tlv_find t rs = None -> optional_value (tlv_map rs) t = [].
Proof. intros Hf. unfold optional_value. by rewrite tlv_map_lookup, Hf. Qed.

Ltac get_optionals :=
  repeat (first
    [ erewrite optional_u32_find by (reflexivity || done)
    | rewrite optional_u32_none by reflexivity
    | erewrite optional_value_find by reflexivity
    | rewrite optional_value_none by reflexivity ]; cbn [res_bind tlv_value]).

Lemma decode_encode_accept a body :
  accept_typed a -> encodeChannelAccept a = Ok body ->
  decodeChannelAccept body = Ok (accept_v2 a).
Proof.
  destruct a as [caps nonce time mfs ms msg c pk pf].
  intros (Hcap & Ht & Hf & Hs). simpl in *. unfold encodeChannelAccept, accept_v2.
  cbn [ca_capabilities ca_server_nonce ca_server_time ca_max_frame_size ca_max_streams ca_message].
  len_guard Hn. unfold decodeChannelAccept.
  destruct (Z.eqb_spec mfs 0) as [->|Hm]; destruct (Z.eqb_spec ms 0) as [->|Hs0];
    destruct msg as [|ch msg]; cbn [negb app is_empty]; intros He;
    rewrite (parse_encoded (Some acceptRecords) _ _ He) by (vm_compute; reflexivity);
    cbn [res_bind]; get_fields; get_optionals;
    rewrite be_get_i64, be_get_u64, ?be_get_u32 by done; reflexivity.
Qed.

Lemma sent_reject_code r :
  z2b (be_get (be_put 2 (if b2z (cr_code r) =? 0 then v2RejectMalformedFrame else b2z (cr_code r)))) =
  cr_code (sent_reject r).
Proof.
  unfold sent_reject. cbn [cr_code]. destruct (b2z (cr_code r) =? 0); [done|].
  pose proof (b2z_range (cr_code r)). rewrite u16_put by lia. apply z2b_b2z.
Qed.

Lemma decode_encode_reject r body :
  encodeChannelReject r = Ok body -> decodeChannelReject body = Ok (sent_reject r).
Proof.
  destruct r as [code [|ch msg]]; unfold encodeChannelReject, decodeChannelReject;
    cbn [negb app is_empty cr_message]; intros He;
    rewrite (parse_encoded (Some [v2RecordRejectCode; v2RecordRejectReason; v2RecordPadding]) _ _ He)
      by (vm_compute; reflexivity);
    cbn [res_bind]; get_fields; get_optionals; rewrite sent_reject_code; reflexivity.
Qed.

(** * Properties *)

(** [parseV2TLVs] accepts exactly the concatenations of well-formed records
    in which every unknown record is optional (its top bit clear) and no record
    repeats the type of a known one, and returns the known records by type; it
    never panics, so every other input, such as a truncated record, a duplicate
    or an unknown critical record, is an error value. *)
Theorem parseV2TLVs_exact (body : bytes) (known : option (list Z)) :
  (forall m, parseV2TLVs body known = Ok m <->
     exists rs, body = enc_tlvs rs /\ tlvs_accepted known ∅ rs /\
                m = tlv_map (known_tlvs known rs)) /\
  parseV2TLVs body known <> Panic.
Proof.
  split; [|by apply parse_loop_no_panic].
  intros m. split.
  - intros Hm. destruct (parse_loop_sound _ _ _ _ _ (fun t H => match H (lookup_empty t) with end) Hm)
      as (rs & -> & Ha).
    exists rs. split_and!; [done..|]. rewrite parseV2TLVs_enc in Hm by done. congruence.
  - intros (rs & -> & Ha & ->). by apply parseV2TLVs_enc.
Qed.

(** A version 2 control message written without error is what the peer
    reads, whatever follows it: ChannelInit and ChannelAccept up to the fields
    version 2 does not carry, ChannelReject with code zero replaced by
    MalformedFrame. *)
Theorem control_messages_v2_roundtrip {W : Type} {HWr : Writer W} {HOk : WriterOk W}
    (maxSize : Z) (Hmax : admits maxSize) (w w' : W) :
  (forall i, init_typed i -> writeChannelInit i w = (w', Ok tt) ->
     exists out, sink w' = sink w ++ out /\ reads (readChannelInit maxSize) out (init_v2 i)) /\
  (forall a, accept_typed a -> writeChannelAccept a w = (w', Ok tt) ->
     exists out, sink w' = sink w ++ out /\
       reads (readChannelAcceptOrReject maxSize) out (accept_v2 a, zeroReject)) /\
  (forall r, writeChannelReject r w = (w', Ok tt) ->
     exists out, sink w' = sink w ++ out /\
       reads (readChannelAcceptOrReject maxSize) out (zeroAccept, sent_reject r)).
Proof.
  split_and!; intros *; [intros Ht|intros Ht|];
    intros (body & He & [Hs Hl]%writes_writeV2Frame)%lift_bind_ok';
    (eexists; split; [exact Hs|]);
    (eapply reads_decode; [by apply reads_readV2Frame|]); cbn [f_type f_body].
  - by rewrite (decode_encode_init _ _ Ht He).
  - by rewrite (decode_encode_accept _ _ Ht He).
  - by rewrite (decode_encode_reject _ _ He).
Qed.

(** A clock reading away from the ends of the representable range. *)
Definition sane_now (now : Time) : Prop :=
  time_ok now /\ 0 <= t_sec now <= 2 ^ 62.

Lemma wall_Add_sane now d :
  sane_now now -> - 2 ^ 63 <= d <= 2 ^ 63 -> wall (Add now d) = wall now + d.
Proof.
  intros [Hok Hs] Hd. apply wall_Add. unfold time_ok, Second in *.
  change (2 ^ 63) with 9223372036854775808 in *. change (2 ^ 62) with 4611686018427387904 in *.
  pose proof (Z.div_mod (t_nsec now + d) 1000000000).
  pose proof (Z.mod_pos_bound (t_nsec now + d) 1000000000). lia.
Qed.

(** The instant of a Unix timestamp: seconds beyond the range of [int64] wrap to
    instants before year 1. *)
Lemma wall_Unix_wraps ts :
  - 2 ^ 63 <= ts < 2 ^ 63 ->
  wall (Unix ts 0) = (ts + unixToInternal) * Second \/
  (2 ^ 63 <= ts + unixToInternal /\ wall (Unix ts 0) < - 2 ^ 62 * Second).
Proof.
  intros H. unfold wall, Unix, unixToInternal, Second, wrapS. cbn [t_sec t_nsec].
  change (0 / 1000000000) with 0. change (0 mod 1000000000) with 0.
  change (2 ^ 63) with 9223372036854775808 in *. change (2 ^ 62) with 4611686018427387904 in *.
  change (2 ^ (64 - 1)) with 9223372036854775808. change (2 ^ 64) with 18446744073709551616.
  pose proof (Z.div_mod (ts + 0 + 62135596800 + 9223372036854775808) 18446744073709551616).
  pose proof (Z.mod_pos_bound (ts + 0 + 62135596800 + 9223372036854775808) 18446744073709551616).
  assert ((ts + 0 + 62135596800 + 9223372036854775808) / 18446744073709551616 = 0 \/
          (ts + 0 + 62135596800 + 9223372036854775808) / 18446744073709551616 = 1) as [E|E] by lia;
    rewrite E in *; lia.
Qed.

Lemma Before_false t u :
  time_ok t -> time_ok u -> (t_mono t = None \/ t_mono u = None) ->
  Before t u = false <-> wall u <= wall t.
Proof.
  intros Ht Hu Hm. pose proof (Before_wall t u Ht Hu Hm) as H.
  rewrite <- not_true_iff_false, H. lia.
Qed.

(** With a positive skew, [validateChannelInitTimestamp] accepts a timestamp,
    any 64-bit value, exactly when it is within the skew of the server's clock
    on either side; without a skew it accepts everything. *)
Theorem timestamp_window (now : Time) (ts skew : Z)
    (Hnow : sane_now now) (Hts : - 2 ^ 63 <= ts < 2 ^ 63) (Hskew : - 2 ^ 63 <= skew < 2 ^ 63) :
  validateChannelInitTimestamp now ts skew = true <->
  skew <= 0 \/ Z.abs ((ts + unixToInternal) * Second - wall now) <= skew.
Proof.
  unfold validateChannelInitTimestamp. destruct (Z.leb_spec skew 0); [by split; auto|].
  pose proof (wall_Add_sane now skew Hnow). pose proof (wall_Add_sane now (- skew) Hnow).
  assert (0 <= wall now < (2 ^ 62 + 1) * Second) as Hw.
  { destruct Hnow as [Hok Hs]. unfold wall, time_ok, Second in *. lia. }
  pose proof (Before_false (Add now skew) (Unix ts 0) (Add_ok _ _) (Unix_ok _ _) (or_intror eq_refl)) as Ha.
  pose proof (Before_false (Unix ts 0) (Add now (- skew)) (Unix_ok _ _) (Add_ok _ _) (or_introl eq_refl)) as Hb.
  unfold After. unfold Second in *.
  destruct (wall_Unix_wraps ts Hts) as [E|[E1 E2]]; unfold Second in *;
    destruct (Before (Add now skew) (Unix ts 0)), (Before (Unix ts 0) (Add now (- skew)));
    cbn [negb]; lia.
Qed.

(** * The transcript determines the message *)

(** Two equal concatenations split at blocks of equal length. *)
Lemma app_inj_len {A} (a b c d : list A) : a ++ b = c ++ d -> len a = len c -> a = c /\ b = d.
Proof. intros H1 H2. apply app_inj_1; [|done]. solve_len. Qed.

Lemma be_put_inj n x y :
  0 <= x < 256 ^ Z.of_nat n -> 0 <= y < 256 ^ Z.of_nat n -> be_put n x = be_put n y -> x = y.
Proof. intros Hx Hy E. by rewrite <- (be_get_put_small n x Hx), E, be_get_put_small. Qed.

Lemma wrapU64_inj x y :
  - 2 ^ 63 <= x < 2 ^ 63 -> - 2 ^ 63 <= y < 2 ^ 63 -> wrapU 64 x = wrapU 64 y -> x = y.
Proof. intros Hx Hy E. by rewrite <- (wrapS_wrapU 64 x), E, wrapS_wrapU by done. Qed.

(** A length-prefixed string followed by more: both are determined. *)
Lemma prefixed_inj (a b c d : bytes) :
  len a <= 65535 -> len c <= 65535 ->
  be_put 2 (len a) ++ a ++ b = be_put 2 (len c) ++ c ++ d -> a = c /\ b = d.
Proof.
  intros Ha Hc [E1 E2]%app_inj_len; [|by rewrite !len_be_put].
  pose proof (len_nonneg a). pose proof (len_nonneg c).
  apply app_inj_len; [done|]. eapply (be_put_inj 2); [simpl; lia..|done].
Qed.

Lemma appendTranscriptString_ok dst v t :
  appendTranscriptString dst v = Ok t <-> len v <= 65535 /\ t = dst ++ be_put 2 (len v) ++ v.
Proof.
  unfold appendTranscriptString, maxProtocolFieldLen.
  destruct (Z.ltb_spec 65535 (len v)); split; [done|lia|intros [= <-]; done|intros [_ ->]; done].
Qed.

(** The fields the version 2 proof covers. *)
Definition authenticated_v2 (i : ChannelInit) : bytes * Z * bytes * Z * Z :=
  (ci_session_id i, ci_channel_id i, ci_client_nonce i, ci_timestamp i, ci_capabilities i).

Lemma transcript_v2_inj s p i s' p' i' t :
  init_typed i -> init_typed i' ->
  channelInitTranscript s p i = Ok t -> channelInitTranscript s' p' i' = Ok t ->
  authenticated_v2 i = authenticated_v2 i' /\ s = s' /\ p = p'.
Proof.
  intros (Hc & Ht & Hcap) (Hc' & Ht' & Hcap') H1 H2. revert H1 H2.
  unfold channelInitTranscript. len_guard Hs. len_guard Hn. intros H1. len_guard Hs'. len_guard Hn'.
  revert H1. unfold res_bind.
  case_match eqn:E1; [|done..]. apply appendTranscriptString_ok in E1 as [L1 ->].
  intros [L2 ->]%appendTranscriptString_ok.
  case_match eqn:E2; [|done..]. apply appendTranscriptString_ok in E2 as [L3 ->].
  intros [L4 E]%appendTranscriptString_ok. rewrite <- !app_assoc in E.
  apply app_inj_len in E as [_ E]; [|done].
  apply app_inj_len in E as [E6 E]; [|congruence].
  apply app_inj_len in E as [E3%(be_put_inj 4) E]; [|by rewrite ?len_be_put..].
  apply app_inj_len in E as [E7 E]; [|congruence].
  apply app_inj_len in E as [E4%(be_put_inj 8) E]; [|by apply wrapU_range|by apply wrapU_range|by rewrite !len_be_put].
  apply wrapU64_inj in E4; [|done..].
  apply app_inj_len in E as [E5%(be_put_inj 8) E]; [|by rewrite ?len_be_put..].
  apply prefixed_inj in E as [-> E]; [|done..].
  assert (p = p') as ->.
  { apply (prefixed_inj p [] p' []); [done..|]. by rewrite !app_nil_r. }
  unfold authenticated_v2. rewrite E3, E4, E5, E6, E7. done.
Qed.

(** * Witnesses *)

Definition sampleReject : ChannelReject := mkChannelReject (z2b 0) (bs "bad frame").

Definition sampleRejectBody : bytes :=
  match encodeChannelReject sampleReject with Ok b => b | _ => [] end.

Lemma control_messages_v2_roundtrip_witness :
  exists out, sink (bs "x" ++ enc_frame (z2b 3) 2 0 sampleRejectBody) = sink (bs "x") ++ out /\
    reads (readChannelAcceptOrReject 0) out (zeroAccept, mkChannelReject (z2b 8) (bs "bad frame")).
Proof.
  apply (proj2 (proj2 (control_messages_v2_roundtrip (W := bytes) 0 (or_introl (Z.le_refl 0)) (bs "x")
    (bs "x" ++ enc_frame (z2b 3) 2 0 sampleRejectBody))) sampleReject).
  vm_compute. reflexivity.
Defined.

Lemma timestamp_window_witness :
  validateChannelInitTimestamp (now_at (1700000000 * Second) 0) 1700000060 (60 * Second) = true <->
  60 * Second <= 0 \/
  Z.abs ((1700000060 + unixToInternal) * Second - wall (now_at (1700000000 * Second) 0)) <= 60 * Second.
Proof.
  apply timestamp_window; [split; [apply now_at_ok|]|..]; vm_compute; intuition congruence.
Defined.
