(* ===== verification/WireV3.v ===== *)
(** internal/wire/protocol_v3.go: the version 3 handshake.  Its frames and
    messages, cipher negotiation, the transcript both proofs are computed over,
    and the derivation of the session and stream keys. *)

From Stdlib Require Import ZArith Lia Strings.Byte.
From stdpp Require Import base numbers list gmap.
From S2P Require Import Prelude GoStrings GoNet NetAddr GoTime Crypto Wire WireV2.

Local Open Scope Z_scope.
Local Open Scope go_scope.

(** * Constants and ciphers *)

Definition protocolV3Version : Z := 3.
Definition v3FrameTypeChannelInit : Z := 1.
Definition v3FrameTypeChannelAccept : Z := 2.
Definition v3FrameTypeChannelReject : Z := 3.

Definition v3RecordCipherPref : Z := 0x8030.
Definition v3RecordCipher : Z := 0x8031.
Definition v3RecordClientEphPK : Z := 0x8032.
Definition v3RecordServerEphPK : Z := 0x8033.
Definition v3RecordServerProof : Z := 0x8034.
Definition v3RecordTAI64N : Z := 0x8035.

Definition v3RejectUnsupportedCipher : Z := 9.

Definition ProtocolCipherChaCha20Poly1305 : Z := 1.
Definition ProtocolCipherAES256GCM : Z := 2.
Definition ProtocolCipherAES128GCM : Z := 3.

Definition isSupportedCipherV3 (id : byte) : bool :=
  (b2z id =? ProtocolCipherChaCha20Poly1305) || (b2z id =? ProtocolCipherAES256GCM)
  || (b2z id =? ProtocolCipherAES128GCM).

Definition V3SupportedCiphers : bytes :=
  [z2b ProtocolCipherChaCha20Poly1305; z2b ProtocolCipherAES256GCM; z2b ProtocolCipherAES128GCM].

Definition V3CipherKeyLen (id : byte) : Z :=
  if b2z id =? ProtocolCipherChaCha20Poly1305 then 32 else
  if b2z id =? ProtocolCipherAES256GCM then 32 else
  if b2z id =? ProtocolCipherAES128GCM then 16 else 0.

Definition V3CipherName (id : byte) : bytes :=
  if b2z id =? ProtocolCipherChaCha20Poly1305 then bs "ChaCha20-Poly1305" else
  if b2z id =? ProtocolCipherAES256GCM then bs "AES-256-GCM" else
  if b2z id =? ProtocolCipherAES128GCM then bs "AES-128-GCM" else bs "Unknown".

(** The loop of [NegotiateCipherV3]. *)
Fixpoint first_supported (pref : bytes) : byte * Z * bytes :=
  match pref with
  | [] => (Byte.x00, v3RejectUnsupportedCipher, bs "no supported cipher in preference")
  | c :: pref' => if isSupportedCipherV3 c then (c, 0, []) else first_supported pref'
  end.

Definition NegotiateCipherV3 (pref : bytes) : byte * Z * bytes :=
  match pref with
  | [] => (Byte.x00, v3RejectUnsupportedCipher, bs "empty cipher preference")
  | _ => first_supported pref
  end.

(** [var or byte; for _, v := range b { or |= v }; or == 0]. *)
Definition isZeroBytesV3 (b : bytes) : bool :=
  foldl (fun or v => Z.lor or (b2z v)) 0 b =? 0.

(** * Frames *)

Abbreviation V3Frame := V2Frame.

Section Frames.
Context {W : Type} `{HW : Writer W}.

Definition writeV3Frame (frame : V3Frame) : io W unit :=
  let version := if b2z (f_version frame) =? 0 then protocolV3Version else b2z (f_version frame) in
  if negb (version =? protocolV3Version)
  then io_err (Errorf "v3 frame version invalid: %d" [version]) else
  if maxV2FrameSize <? len (f_body frame)
  then io_err (Errorf "v3 frame body too large: %d" [len (f_body frame)]) else
  writeAll (f_type frame :: z2b version :: be_put 2 (f_flags frame)
              ++ be_put 4 (len (f_body frame))) ;!
  writeOptionalPayload (f_body frame).

End Frames.

Definition readV3Frame (maxSize : Z) : io bytes V3Frame :=
  let maxSize := if maxSize <=? 0 then maxV2FrameSize else maxSize in
  do! head <- ReadFull 8 in
  let version := at_ head 1 in
  if negb (b2z version =? protocolV3Version)
  then io_err (Errorf "v3 frame version invalid: %d" [b2z version]) else
  let bodyLen := u32_at head 4 in
  if maxSize <? bodyLen
  then io_err (Errorf "v3 frame body too large: %d" [bodyLen]) else
  do! body <- readExactPayload bodyLen in
  io_ret (mkV2Frame (at_ head 0) version (u16_at head 2) body).

(** * ChannelInit *)

(** [for _, c := range pref { if !isSupportedCipherV3(c) { return err } }]. *)
Fixpoint check_ciphers (pref : bytes) : res unit :=
  match pref with
  | [] => Ok tt
  | c :: pref' =>
      if negb (isSupportedCipherV3 c)
      then Err (Errorf "unsupported cipher in preference: %d" [b2z c]) else check_ciphers pref'
  end.

Definition encodeChannelInitV3 (init : ChannelInit) : res bytes :=
  if negb (len (ci_session_id init) =? 16)
  then Err (Errorf "session id must be 16 bytes" []) else
  if ci_channel_id init =? 0
  then Err (Errorf "channel id must be positive" []) else
  if negb (len (ci_client_nonce init) =? 32)
  then Err (Errorf "client nonce must be 32 bytes" []) else
  if negb (len (ci_auth_proof init) =? 32)
  then Err (Errorf "auth proof must be 32 bytes" []) else
  if (len (ci_cipher_pref init) <? 1) || (8 <? len (ci_cipher_pref init))
  then Err (Errorf "cipher preference count must be between 1 and 8: got %d"
              [len (ci_cipher_pref init)]) else
  let! _ := check_ciphers (ci_cipher_pref init) in
  if negb (len (ci_client_eph_pk init) =? 32)
  then Err (Errorf "client ephemeral public key must be 32 bytes" []) else
  if negb (len (ci_tai64n init) =? 12)
  then Err (Errorf "tai64n timestamp must be 12 bytes" []) else
  encodeV2TLVs (
    [mkTLV v2RecordSessionID (ci_session_id init);
     mkTLV v2RecordChannelID (be_put 4 (ci_channel_id init));
     mkTLV v2RecordClientNonce (ci_client_nonce init);
     mkTLV v2RecordTimestamp (be_put 8 (wrapU 64 (ci_timestamp init)));
     mkTLV v2RecordCapabilities (be_put 8 (ci_capabilities init));
     mkTLV v2RecordAuthProof (ci_auth_proof init);
     mkTLV v3RecordCipherPref (ci_cipher_pref init);
     mkTLV v3RecordClientEphPK (ci_client_eph_pk init);
     mkTLV v3RecordTAI64N (ci_tai64n init)]
    ++ (if 0 <? len (ci_padding init)
        then [mkTLV v2RecordPadding (ci_padding init)] else [])).

Definition initRecordsV3 : list Z :=
  initRecords ++ [v3RecordCipherPref; v3RecordClientEphPK; v3RecordTAI64N].

(** The closure [get] of [decodeChannelInitV3]; size zero is not checked. *)
Definition getV3 (records : gmap Z V2TLV) (typ size : Z) : res bytes :=
  match records !! typ with
  | None => Err (Errorf "missing required v3 record: 0x%04x" [typ])
  | Some r =>
      if (0 <? size) && negb (len (tlv_value r) =? size)
      then Err (Errorf "invalid v3 record length: 0x%04x (want %d, got %d)"
                  [typ; size; len (tlv_value r)])
      else Ok (tlv_value r)
  end.

Definition decodeChannelInitV3 (body : bytes) : res ChannelInit :=
  let! records := parseV2TLVs body (Some initRecordsV3) in
  let! sessionID := getV3 records v2RecordSessionID 16 in
  let! channelIDRaw := getV3 records v2RecordChannelID 4 in
  let! clientNonce := getV3 records v2RecordClientNonce 32 in
  let! clientTimeRaw := getV3 records v2RecordTimestamp 8 in
  let! capsRaw := getV3 records v2RecordCapabilities 8 in
  let! authProof := getV3 records v2RecordAuthProof 32 in
  let! cipherPrefRaw := getV3 records v3RecordCipherPref 0 in
  if (len cipherPrefRaw <? 1) || (8 <? len cipherPrefRaw)
  then Err (Errorf "invalid cipher preference length: %d" [len cipherPrefRaw]) else
  let! _ := check_ciphers cipherPrefRaw in
  let! clientEphPK := getV3 records v3RecordClientEphPK 32 in
  let! tai64n := getV3 records v3RecordTAI64N 12 in
  let channelID := be_get channelIDRaw in
  if channelID =? 0 then Err (Errorf "channel id must be positive" []) else
  Ok (mkChannelInit sessionID channelID clientNonce (wrapS 64 (be_get clientTimeRaw))
        (be_get capsRaw) authProof cipherPrefRaw clientEphPK tai64n
        (optional_value records v2RecordPadding)).

Definition writeChannelInitV3 {W} `{Writer W} (init : ChannelInit) : io W unit :=
  do! body <- io_lift (encodeChannelInitV3 init) in
  writeV3Frame (mkV2Frame (z2b v3FrameTypeChannelInit) (z2b protocolV3Version) 0 body).

Definition readChannelInitV3 (maxSize : Z) : io bytes ChannelInit :=
  do! frame <- readV3Frame maxSize in
  if negb (b2z (f_type frame) =? v3FrameTypeChannelInit)
  then io_err (Errorf "unexpected v3 frame type: %d" [b2z (f_type frame)])
  else io_lift (decodeChannelInitV3 (f_body frame)).

(** * ChannelAccept and ChannelReject *)

Definition encodeChannelAcceptV3 (accept : ChannelAccept) : res bytes :=
  if negb (len (ca_server_nonce accept) =? 32)
  then Err (Errorf "server nonce must be 32 bytes" []) else
  if negb (isSupportedCipherV3 (ca_cipher accept))
  then Err (Errorf "unsupported cipher in accept: %d" [b2z (ca_cipher accept)]) else
  if negb (len (ca_server_eph_pk accept) =? 32)
  then Err (Errorf "server ephemeral public key must be 32 bytes" []) else
  if negb (len (ca_server_proof accept) =? 32)
  then Err (Errorf "server proof must be 32 bytes" []) else
  encodeV2TLVs (
    [mkTLV v2RecordCapabilities (be_put 8 (ca_capabilities accept));
     mkTLV v2RecordServerNonce (ca_server_nonce accept);
     mkTLV v2RecordServerTime (be_put 8 (wrapU 64 (ca_server_time accept)))]
    ++ (if 0 <? ca_max_frame_size accept
        then [mkTLV v2RecordMaxFrameSize (be_put 4 (ca_max_frame_size accept))] else [])
    ++ (if 0 <? ca_max_streams accept
        then [mkTLV v2RecordMaxStreams (be_put 4 (ca_max_streams accept))] else [])
    ++ (if 0 <? len (ca_message accept)
        then [mkTLV v2RecordMessage (ca_message accept)] else [])
    ++ [mkTLV v3RecordCipher [ca_cipher accept];
        mkTLV v3RecordServerEphPK (ca_server_eph_pk accept);
        mkTLV v3RecordServerProof (ca_server_proof accept)]).

Definition acceptRecordsV3 : list Z :=
  acceptRecords ++ [v3RecordCipher; v3RecordServerEphPK; v3RecordServerProof].

Definition decodeChannelAcceptV3 (body : bytes) : res ChannelAccept :=
  let! records := parseV2TLVs body (Some acceptRecordsV3) in
  let! caps := require records v2RecordCapabilities 8 "invalid channel accept capabilities" in
  let! nonce := require records v2RecordServerNonce 32 "invalid channel accept server nonce" in
  let! stime := require records v2RecordServerTime 8 "invalid channel accept server time" in
  let! cipher := require records v3RecordCipher 1 "invalid channel accept cipher" in
  let! cipherID := index cipher 0 in
  if negb (isSupportedCipherV3 cipherID)
  then Err (Errorf "unsupported cipher in accept: %d" [b2z cipherID]) else
  let! pk := require records v3RecordServerEphPK 32
               "invalid channel accept server ephemeral public key" in
  let! proof := require records v3RecordServerProof 32 "invalid channel accept server proof" in
  let! mfs := optional_u32 records v2RecordMaxFrameSize "invalid max frame size length" in
  let! ms := optional_u32 records v2RecordMaxStreams "invalid max streams length" in
  Ok (mkChannelAccept (be_get caps) nonce (wrapS 64 (be_get stime)) mfs ms
        (optional_value records v2RecordMessage) cipherID pk proof).

Definition writeChannelAcceptV3 {W} `{Writer W} (accept : ChannelAccept) : io W unit :=
  do! body <- io_lift (encodeChannelAcceptV3 accept) in
  writeV3Frame (mkV2Frame (z2b v3FrameTypeChannelAccept) (z2b protocolV3Version) 0 body).

Definition writeChannelRejectV3 {W} `{Writer W} (reject : ChannelReject) : io W unit :=
  do! body <- io_lift (encodeChannelReject reject) in
  writeV3Frame (mkV2Frame (z2b v3FrameTypeChannelReject) (z2b protocolV3Version) 0 body).

Definition readChannelAcceptOrRejectV3 (maxSize : Z) : io bytes (ChannelAccept * ChannelReject) :=
  do! frame <- readV3Frame maxSize in
  if b2z (f_type frame) =? v3FrameTypeChannelAccept then
    do! accept <- io_lift (decodeChannelAcceptV3 (f_body frame)) in io_ret (accept, zeroReject)
  else if b2z (f_type frame) =? v3FrameTypeChannelReject then
    do! reject <- io_lift (decodeChannelReject (f_body frame)) in io_ret (zeroAccept, reject)
  else io_err (Errorf "unexpected v3 frame type: %d" [b2z (f_type frame)]).

(** * The transcript *)

Definition zeros (n : Z) : bytes := replicate (Z.to_nat n) Byte.x00.

(** [copy(buf[i:j], src)]: a panic when the range is not within the buffer, and
    otherwise as many bytes as both hold. *)
Definition copy_into (buf : bytes) (i j : Z) (src : bytes) : res bytes :=
  if (0 <=? i) && (i <=? j) && (j <=? len buf) then
    let n := Z.to_nat (Z.min (j - i) (len src)) in
    Ok (take (Z.to_nat i) buf ++ take n src ++ drop (Z.to_nat i + n) buf)
  else Panic.

(** [buf[i] = b]. *)
Definition set_byte (buf : bytes) (i : Z) (b : byte) : res bytes := copy_into buf i (i + 1) [b].

(** The block of checks made for a full transcript only. *)
Definition transcript_server_ok (pk nonce : bytes) (c : byte) (full : bool) : res unit :=
  if full then
    if negb (len pk =? 32) then Err (Errorf "server ephemeral public key must be 32 bytes" []) else
    if negb (len nonce =? 32) then Err (Errorf "server nonce must be 32 bytes" []) else
    if negb (isSupportedCipherV3 c)
    then Err (Errorf "unsupported cipher in transcript: %d" [b2z c]) else Ok tt
  else Ok tt.

Definition channelInitTranscriptV3 (serverName path : bytes) (init : ChannelInit)
    (serverEphPK serverNonce : bytes) (negotiatedCipher : byte) (full : bool) : res bytes :=
  if negb (len (ci_session_id init) =? 16)
  then Err (Errorf "session id must be 16 bytes" []) else
  if ci_channel_id init =? 0
  then Err (Errorf "channel id must be positive" []) else
  if negb (len (ci_client_nonce init) =? 32)
  then Err (Errorf "client nonce must be 32 bytes" []) else
  if negb (len (ci_client_eph_pk init) =? 32)
  then Err (Errorf "client ephemeral public key must be 32 bytes" []) else
  if negb (len (ci_tai64n init) =? 12)
  then Err (Errorf "tai64n timestamp must be 12 bytes" []) else
  let! _ := transcript_server_ok serverEphPK serverNonce negotiatedCipher full in
  let pref := ci_cipher_pref init in
  if (len pref <? 1) || (8 <? len pref)
  then Err (Errorf "cipher preference count must be between 1 and 8" []) else
  let! _ := check_ciphers pref in
  if 65535 <? len serverName then Err (Errorf "server name too long" []) else
  if 65535 <? len path then Err (Errorf "path too long" []) else
  let total := 137 + len pref + 2 + len serverName + 2 + len path + 12 in
  let total := if full then total + (1 + 32) else total in
  let buf := zeros total in
  let! buf := set_byte buf 0 (z2b 1) in
  let! buf := set_byte buf 1 (z2b 3) in
  let! buf := set_byte buf 2 (z2b 0) in
  let! buf := set_byte buf 3 (z2b 0) in
  let! buf := copy_into buf 4 20 (ci_session_id init) in
  let! buf := copy_into buf 20 24 (be_put 4 (ci_channel_id init)) in
  let! buf := copy_into buf 24 56 (ci_client_nonce init) in
  let! buf := copy_into buf 56 64 (be_put 8 (wrapU 64 (ci_timestamp init))) in
  let! buf := copy_into buf 64 72 (be_put 8 (ci_capabilities init)) in
  let! buf := copy_into buf 72 104 (ci_client_eph_pk init) in
  let! buf := if full then copy_into buf 104 136 serverEphPK else Ok buf in
  let! buf := set_byte buf 136 (z2b (len pref)) in
  let! buf := copy_into buf 137 (137 + len pref) pref in
  let off := 137 + len pref in
  let! buf := copy_into buf off (off + 2) (be_put 2 (len serverName)) in
  let off := off + 2 in
  let! buf := copy_into buf off (off + len serverName) serverName in
  let off := off + len serverName in
  let! buf := copy_into buf off (off + 2) (be_put 2 (len path)) in
  let off := off + 2 in
  let! buf := copy_into buf off (off + len path) path in
  let off := off + len path in
  let! buf := copy_into buf off (off + 12) (ci_tai64n init) in
  let off := off + 12 in
  if full then
    let! buf := set_byte buf off negotiatedCipher in
    let off := off + 1 in
    copy_into buf off (off + 32) serverNonce
  else Ok buf.

(** * Proofs and keys *)

Record V3SessionKeys : Type := mkSessionKeys {
  sk_seed : bytes;
  sk_c2s_nonce_prefix : bytes;
  sk_s2c_nonce_prefix : bytes;
}.

Section Crypto.
Context `{C : Crypto}.

(** [rand.Read] fills the key from [rnd]. *)
Definition NewV3ClientEphemeralKey (rnd : res bytes) : res (bytes * bytes) :=
  let! ephSk := rnd in
  let! ephPk := x25519 ephSk x25519_basepoint in
  Ok (ephSk, ephPk).

Definition ComputeV3SharedSecret (ephSk peerPk : bytes) : res bytes :=
  if negb (len ephSk =? 32) then Err (Errorf "ephemeral secret key must be 32 bytes" []) else
  if negb (len peerPk =? 32) then Err (Errorf "peer public key must be 32 bytes" []) else
  let! shared := res_map_err (Wrapf "x25519 computation failed: %w") (x25519 ephSk peerPk) in
  if isZeroBytesV3 shared
  then Err (Errorf "computed shared secret is all zeros (low-order point)" []) else
  Ok shared.

Definition ComputeV3TranscriptHash (serverName path : bytes) (init : ChannelInit)
    (serverEphPK serverNonce : bytes) (negotiatedCipher : byte) (full : bool) : res bytes :=
  let! transcript :=
    channelInitTranscriptV3 serverName path init serverEphPK serverNonce negotiatedCipher full in
  Ok (sha256 transcript).

Definition ComputeV3TranscriptHashInit (serverName path : bytes) (init : ChannelInit) : res bytes :=
  ComputeV3TranscriptHash serverName path init [] [] Byte.x00 false.

Definition ComputeV3TranscriptHashFull (serverName path : bytes) (init : ChannelInit)
    (serverEphPK serverNonce : bytes) (negotiatedCipher : byte) : res bytes :=
  ComputeV3TranscriptHash serverName path init serverEphPK serverNonce negotiatedCipher true.

Definition ComputeV3AuthProof (token serverName path : bytes) (init : ChannelInit) : res bytes :=
  let! transcriptHash := ComputeV3TranscriptHashInit serverName path init in
  let! authKey := hkdf_new token (bs "x-tunnel-v3-auth") serverName 32 in
  Ok (hmac_sha256 authKey transcriptHash).

Definition VerifyV3AuthProof (token serverName path : bytes) (init : ChannelInit) : bool :=
  match ComputeV3AuthProof token serverName path init with
  | Ok expected =>
      if negb (len (ci_auth_proof init) =? len expected) then false
      else hmac_Equal (ci_auth_proof init) expected
  | _ => false
  end.

Definition ComputeV3ServerProof (token serverName path : bytes) (init : ChannelInit)
    (serverEphPK serverNonce : bytes) (negotiatedCipher : byte) : res bytes :=
  let! transcriptHash :=
    ComputeV3TranscriptHashFull serverName path init serverEphPK serverNonce negotiatedCipher in
  let! authKey := hkdf_new token (bs "x-tunnel-v3-auth") serverName 32 in
  Ok (hmac_sha256 authKey transcriptHash).

Definition VerifyV3ServerProof (token serverName path : bytes) (init : ChannelInit)
    (accept : ChannelAccept) : bool :=
  match ComputeV3ServerProof token serverName path init (ca_server_eph_pk accept)
          (ca_server_nonce accept) (ca_cipher accept) with
  | Ok expected =>
      if negb (len (ca_server_proof accept) =? len expected) then false
      else hmac_Equal (ca_server_proof accept) expected
  | _ => false
  end.

Definition DeriveV3SessionSeed (token transcriptHashFull shared : bytes) : res V3SessionKeys :=
  if len token =? 0 then Err (Errorf "empty token" []) else
  if negb (len transcriptHashFull =? 32)
  then Err (Errorf "transcript hash must be 32 bytes" []) else
  if negb (len shared =? 32) then Err (Errorf "shared secret must be 32 bytes" []) else
  if isZeroBytesV3 shared then Err (Errorf "shared secret must not be all zero" []) else
  let ikm := shared ++ token in
  let prk := hkdf_extract ikm (bs "xtunnel-v3-kdf") in
  let! seed := hkdf_expand prk transcriptHashFull 32 in
  let! sessionSeed := hkdf_expand seed (bs "xtunnel-v3 fs mix") 32 in
  let! c2sNoncePrefix := hkdf_expand sessionSeed (bs "xtunnel-v3 c2s nonce") 4 in
  let! s2cNoncePrefix := hkdf_expand sessionSeed (bs "xtunnel-v3 s2c nonce") 4 in
  Ok (mkSessionKeys sessionSeed c2sNoncePrefix s2cNoncePrefix).

(** The deprecated derivation without a shared secret refuses every input. *)
Definition DeriveV3SessionKeys (token transcriptHash : bytes) : res V3SessionKeys :=
  Err (Errorf "DeriveV3SessionKeys is disabled: a non-zero DH shared secret is required, use DeriveV3SessionSeed" []).

(** The [info] of a stream key: label, cipher, stream and generation. *)
Definition stream_key_info (cipherID : byte) (clientToServer : bool) (streamID gen : Z) : bytes :=
  (if clientToServer then bs "xtunnel-v3 c2s key" else bs "xtunnel-v3 s2c key")
  ++ [cipherID] ++ be_put 4 streamID ++ be_put 8 gen.

Definition StreamKey (k : V3SessionKeys) (cipherID : byte) (clientToServer : bool)
    (streamID gen : Z) : res bytes :=
  let keyLen := V3CipherKeyLen cipherID in
  if keyLen <=? 0 then Err (Errorf "unsupported cipher ID: %d" [b2z cipherID]) else
  if negb (len (sk_seed k) =? 32) then Err (Errorf "invalid session seed length" []) else
  hkdf_expand (sk_seed k) (stream_key_info cipherID clientToServer streamID gen) (Z.to_nat keyLen).

End Crypto.

(** * Frames and messages: lemmas *)

Lemma reads_readV3Frame maxSize typ flags body :
  admits maxSize -> 0 <= flags < 65536 -> len body <= maxV2FrameSize ->
  reads (readV3Frame maxSize) (enc_frame typ protocolV3Version flags body)
        (mkV2Frame typ (z2b protocolV3Version) flags body).
Proof.
  intros Hm Hf Hb. unfold admits, maxV2FrameSize in *.
  destruct (frame_head typ protocolV3Version flags body) as (H1 & H2 & H3 & H4 & H5);
    [by vm_compute|done|lia|].
  unfold readV3Frame, enc_frame.
  eapply reads_bind; [by apply reads_ReadFull|]. rewrite H2, H3, H4, H5.
  rewrite Z.eqb_refl. cbn [negb].
  destruct (Z.ltb_spec (if maxSize <=? 0 then maxV2FrameSize else maxSize) (len body)) as [Hlt|_].
  { unfold maxV2FrameSize in Hlt. destruct (Z.leb_spec maxSize 0); lia. }
  eapply reads_decode; [by apply reads_exact|]. reflexivity.
Qed.

Lemma writes_writeV3Frame {W} {HWr : Writer W} {HOk : WriterOk W} typ flags body (w w' : W) :
  writeV3Frame (mkV2Frame typ (z2b protocolV3Version) flags body) w = (w', Ok tt) ->
  sink w' = sink w ++ enc_frame typ protocolV3Version flags body /\ len body <= maxV2FrameSize.
Proof.
  unfold writeV3Frame. cbn [f_type f_version f_flags f_body].
  change (b2z (z2b protocolV3Version)) with protocolV3Version. cbn [Z.eqb].
  rewrite Z.eqb_refl. cbn [negb].
  destruct (Z.ltb_spec maxV2FrameSize (len body)); [done|]. intros Hw.
  split; [|lia]. eapply writes_frame; [exact Hw|]. unfold enc_frame. eauto with wire.
Qed.

Lemma getV3_find rs t n r :
  tlv_find t rs = Some r -> (n = 0 \/ len (tlv_value r) = n) ->
  getV3 (tlv_map rs) t n = Ok (tlv_value r).
Proof.
  intros Hf Hn. unfold getV3. rewrite tlv_map_lookup, Hf.
  destruct (Z.ltb_spec 0 n); [|done]. destruct (Z.eqb_spec (len (tlv_value r)) n); [done|]. lia.
Qed.

Ltac get_fields_v3 :=
  repeat (erewrite getV3_find by (reflexivity || cbn [tlv_value]; first [left; reflexivity | right; done]);
          cbn [res_bind tlv_value]).

Lemma check_ciphers_ok pref :
  check_ciphers pref = Ok tt <-> Forall (fun c => isSupportedCipherV3 c = true) pref.
Proof.
  induction pref as [|c pref IH]; simpl; [by split|]. rewrite Forall_cons, <- IH.
  destruct (isSupportedCipherV3 c); simpl; intuition done.
Qed.

Lemma len_pos_nil (l : bytes) : (0 <? len l) = negb (is_empty l).
Proof. by destruct l. Qed.

Lemma decode_encode_init_v3 i body :
  init_typed i -> encodeChannelInitV3 i = Ok body -> decodeChannelInitV3 body = Ok i.
Proof.
  destruct i as [sid cid nonce ts caps pf pref pk tai pad].
  intros (Hc & Ht & Hcap). unfold encodeChannelInitV3.
  cbn [ci_session_id ci_channel_id ci_client_nonce ci_timestamp ci_capabilities ci_auth_proof
    ci_cipher_pref ci_client_eph_pk ci_tai64n ci_padding] in *.
  len_guard Hs. destruct (Z.eqb_spec cid 0) as [|Hc0]; [done|]. len_guard Hn. len_guard Hp.
  destruct ((len pref <? 1) || (8 <? len pref)) eqn:Epref; [done|].
  destruct (check_ciphers pref) as [[]| |] eqn:Eck; cbn [res_bind]; [|done..].
  len_guard Hk. len_guard Hta. unfold decodeChannelInitV3. rewrite len_pos_nil.
  destruct pad as [|b pad]; cbn [negb app is_empty]; intros He;
    rewrite (parse_encoded (Some initRecordsV3) _ _ He) by (vm_compute; reflexivity);
    cbn [res_bind]; get_fields_v3; rewrite Epref, Eck; cbn [res_bind];
    get_fields_v3; get_optionals; rewrite be_get_i64, be_get_u32, be_get_u64 by done;
    by destruct (Z.eqb_spec cid 0).
Qed.

Lemma decode_encode_accept_v3 a body :
  accept_typed a -> encodeChannelAcceptV3 a = Ok body -> decodeChannelAcceptV3 body = Ok a.
Proof.
  destruct a as [caps nonce time mfs ms msg c pk pf].
  intros (Hcap & Ht & Hf & Hs). simpl in *. unfold encodeChannelAcceptV3.
  cbn [ca_capabilities ca_server_nonce ca_server_time ca_max_frame_size ca_max_streams ca_message
    ca_cipher ca_server_eph_pk ca_server_proof].
  len_guard Hn. destruct (isSupportedCipherV3 c) eqn:Ec; cbn [negb]; [|done]. len_guard Hpk. len_guard Hpf.
  unfold decodeChannelAcceptV3. rewrite len_pos_nil.
  destruct (Z.ltb_spec 0 mfs) as [Hm|Hm]; destruct (Z.ltb_spec 0 ms) as [Hm0|Hm0];
    destruct msg as [|ch msg]; cbn [negb app is_empty]; intros He;
    rewrite (parse_encoded (Some acceptRecordsV3) _ _ He) by (vm_compute; reflexivity);
    cbn [res_bind]; get_fields; change (index [c] 0) with (Ok c); cbn [res_bind];
    rewrite ?Ec; cbn [negb]; get_fields; get_optionals;
    rewrite be_get_i64, be_get_u64, ?be_get_u32 by done;
    repeat f_equal; lia.
Qed.

(** * The transcript: lemmas *)

Lemma len_zeros n : 0 <= n -> len (zeros n) = n.
Proof. intros. unfold zeros. solve_len. Qed.

Lemma zeros_split n k : 0 <= n <= k -> zeros k = zeros n ++ zeros (k - n).
Proof.
  intros H. unfold zeros. rewrite <- replicate_add. f_equal. lia.
Qed.

(** Writing at the end of the filled part of a zeroed buffer. *)
Lemma copy_into_step w k i j src :
  i = len w -> j = i + len src -> len src <= k ->
  copy_into (w ++ zeros k) i j src = Ok ((w ++ src) ++ zeros (k - len src)).
Proof.
  intros -> -> Hk. unfold copy_into. pose proof (len_nonneg w). pose proof (len_nonneg src).
  rewrite len_app, len_zeros by lia.
  destruct (Z.leb_spec 0 (len w)); [|lia].
  destruct (Z.leb_spec (len w) (len w + len src)); [|lia].
  destruct (Z.leb_spec (len w + len src) (len w + k)); [|lia]. cbn [andb]. f_equal.
  replace (Z.to_nat (Z.min (len w + len src - len w) (len src))) with (length src) by solve_len.
  replace (Z.to_nat (len w)) with (length w) by solve_len.
  rewrite take_app_length, firstn_all, drop_app_ge by lia.
  rewrite (zeros_split (len src) k) by lia. rewrite <- app_assoc. do 2 f_equal.
  apply drop_app_length'. unfold zeros. rewrite length_replicate. solve_len.
Qed.

Lemma set_byte_step w k i b :
  i = len w -> 1 <= k -> set_byte (w ++ zeros k) i b = Ok ((w ++ [b]) ++ zeros (k - 1)).
Proof. intros -> Hk. by apply (copy_into_step w k (len w) (len w + 1) [b]). Qed.

(** What the server adds in the full transcript: its key in the middle, the
    cipher and its nonce at the end. *)
Record ServerPart : Type := mkServerPart { sp_eph_pk : bytes; sp_nonce : bytes; sp_cipher : byte }.

(** The transcript as a concatenation of fields. *)
Definition transcript_ref (serverName path : bytes) (i : ChannelInit) (sp : option ServerPart) : bytes :=
  [z2b 1; z2b 3; z2b 0; z2b 0] ++ ci_session_id i ++ be_put 4 (ci_channel_id i)
  ++ ci_client_nonce i ++ be_put 8 (wrapU 64 (ci_timestamp i)) ++ be_put 8 (ci_capabilities i)
  ++ ci_client_eph_pk i ++ (match sp with Some s => sp_eph_pk s | None => zeros 32 end)
  ++ [z2b (len (ci_cipher_pref i))] ++ ci_cipher_pref i
  ++ be_put 2 (len serverName) ++ serverName ++ be_put 2 (len path) ++ path ++ ci_tai64n i
  ++ (match sp with Some s => sp_cipher s :: sp_nonce s | None => [] end).

Definition server_part (pk nonce : bytes) (c : byte) (full : bool) : option ServerPart :=
  if full then Some (mkServerPart pk nonce c) else None.

(** The inputs a transcript is computed for. *)
Definition transcript_inputs (serverName path : bytes) (i : ChannelInit) (sp : option ServerPart) : Prop :=
  len (ci_session_id i) = 16 /\ ci_channel_id i <> 0 /\ len (ci_client_nonce i) = 32 /\
  len (ci_client_eph_pk i) = 32 /\ len (ci_tai64n i) = 12 /\
  1 <= len (ci_cipher_pref i) <= 8 /\ check_ciphers (ci_cipher_pref i) = Ok tt /\
  len serverName <= 65535 /\ len path <= 65535 /\
  (forall s, sp = Some s ->
     len (sp_eph_pk s) = 32 /\ len (sp_nonce s) = 32 /\ isSupportedCipherV3 (sp_cipher s) = true).

Lemma zeros_none (w : bytes) k : k = 0 -> w ++ zeros k = w.
Proof. intros ->. apply app_nil_r. Qed.

Lemma zeros_skip (w : bytes) k n : 0 <= n <= k -> w ++ zeros k = (w ++ zeros n) ++ zeros (k - n).
Proof. intros H. by rewrite <- app_assoc, <- zeros_split. Qed.

Ltac tlen :=
  rewrite ?len_app, ?len_be_put, ?len_cons, ?len_zeros by lia;
  change (len (@nil byte)) with 0; lia.

Ltac tstep :=
  first [rewrite set_byte_step by tlen | rewrite copy_into_step by tlen]; cbn [res_bind].

Lemma transcript_build serverName path i pk nonce c full :
  transcript_inputs serverName path i (server_part pk nonce c full) ->
  channelInitTranscriptV3 serverName path i pk nonce c full =
  Ok (transcript_ref serverName path i (server_part pk nonce c full)).
Proof.
  destruct i as [sid cid cn ts caps pf pref epk tai pad].
  intros (Hs & Hc & Hn & Hk & Ht & Hp & Hck & Hsn & Hpa & Hsp). unfold channelInitTranscriptV3.
  cbn [ci_session_id ci_channel_id ci_client_nonce ci_timestamp ci_capabilities ci_auth_proof
    ci_cipher_pref ci_client_eph_pk ci_tai64n ci_padding] in *.
  pose proof (len_nonneg serverName). pose proof (len_nonneg path).
  rewrite Hs, Hn, Hk, Ht. cbn [Z.eqb Pos.eqb negb].
  destruct (Z.eqb_spec cid 0); [done|].
  destruct (Z.ltb_spec (len pref) 1); [lia|]. destruct (Z.ltb_spec 8 (len pref)); [lia|].
  destruct (Z.ltb_spec 65535 (len serverName)); [lia|]. destruct (Z.ltb_spec 65535 (len path)); [lia|].
  cbn [orb]. rewrite Hck. unfold server_part in *. destruct full.
  - destruct (Hsp _ eq_refl) as (Hpk & Hno & Hci). cbn [sp_eph_pk sp_nonce sp_cipher] in *.
    unfold transcript_server_ok. rewrite Hpk, Hno, Hci. cbn [Z.eqb Pos.eqb negb res_bind].
    rewrite <- (app_nil_l (zeros _)).
    repeat tstep. rewrite zeros_none by tlen. f_equal. unfold transcript_ref.
    by rewrite <- !app_assoc.
  - cbn [res_bind transcript_server_ok]. rewrite <- (app_nil_l (zeros _)). repeat tstep.
    rewrite (zeros_skip _ _ 32) by tlen. repeat tstep.
    rewrite zeros_none by tlen. f_equal. unfold transcript_ref.
    by rewrite <- !app_assoc, !app_nil_r.
Qed.

Lemma check_ciphers_cases pref :
  check_ciphers pref = Ok tt \/ exists e, check_ciphers pref = Err e.
Proof.
  induction pref as [|c pref IH]; [by left|]. cbn [check_ciphers].
  destruct (isSupportedCipherV3 c); cbn [negb]; [done|by eauto].
Qed.

(** Inputs outside the domain are refused with an error before anything is written. *)
Lemma transcript_refuses serverName path i pk nonce c full :
  transcript_inputs serverName path i (server_part pk nonce c full) \/
  exists e, channelInitTranscriptV3 serverName path i pk nonce c full = Err e.
Proof.
  unfold channelInitTranscriptV3, transcript_inputs.
  destruct (Z.eqb_spec (len (ci_session_id i)) 16); cbn [negb]; [|by eauto].
  destruct (Z.eqb_spec (ci_channel_id i) 0); [by eauto|].
  destruct (Z.eqb_spec (len (ci_client_nonce i)) 32); cbn [negb]; [|by eauto].
  destruct (Z.eqb_spec (len (ci_client_eph_pk i)) 32); cbn [negb]; [|by eauto].
  destruct (Z.eqb_spec (len (ci_tai64n i)) 12); cbn [negb]; [|by eauto].
  assert (transcript_server_ok pk nonce c full = Ok tt /\
          (forall s, server_part pk nonce c full = Some s -> len (sp_eph_pk s) = 32 /\
             len (sp_nonce s) = 32 /\ isSupportedCipherV3 (sp_cipher s) = true)
          \/ exists e, transcript_server_ok pk nonce c full = Err e) as [[E Hsp]|[e' E]].
  { unfold transcript_server_ok, server_part. destruct full; [|by left].
    destruct (Z.eqb_spec (len pk) 32); cbn [negb]; [|by eauto].
    destruct (Z.eqb_spec (len nonce) 32); cbn [negb]; [|by eauto].
    destruct (isSupportedCipherV3 c) eqn:Es; cbn [negb]; [|by eauto].
    left. split; [done|]. by intros s [= <-]. }
  2:{ rewrite E. cbn [res_bind]. eauto. }
  rewrite E. cbn [res_bind].
  destruct (Z.ltb_spec (len (ci_cipher_pref i)) 1); [by eauto|].
  destruct (Z.ltb_spec 8 (len (ci_cipher_pref i))); [by eauto|]. cbn [orb].
  destruct (check_ciphers_cases (ci_cipher_pref i)) as [Ec|[e' Ec]]; rewrite Ec; cbn [res_bind]; [|by eauto].
  destruct (Z.ltb_spec 65535 (len serverName)); [by eauto|].
  destruct (Z.ltb_spec 65535 (len path)); [by eauto|].
  left. split_and!; done.
Qed.

Lemma transcript_ok serverName path i pk nonce c full t :
  channelInitTranscriptV3 serverName path i pk nonce c full = Ok t <->
  transcript_inputs serverName path i (server_part pk nonce c full) /\
  t = transcript_ref serverName path i (server_part pk nonce c full).
Proof.
  split.
  - intros Ht. destruct (transcript_refuses serverName path i pk nonce c full) as [Hi|[e He]];
      [|congruence].
    rewrite transcript_build in Ht by done. split; [done|]. by apply Ok_inj in Ht.
  - intros [Hi ->]. by apply transcript_build.
Qed.

(** The fields of ChannelInit the version 3 proofs cover: all but the proof
    itself and the padding. *)
Definition authenticated_v3 (i : ChannelInit) :=
  (ci_session_id i, ci_channel_id i, ci_client_nonce i, ci_timestamp i, ci_capabilities i,
   ci_client_eph_pk i, ci_cipher_pref i, ci_tai64n i).

Lemma server_key_len s p i sp :
  transcript_inputs s p i sp ->
  len (match sp with Some x => sp_eph_pk x | None => zeros 32 end) = 32.
Proof.
  intros (_ & _ & _ & _ & _ & _ & _ & _ & _ & H). destruct sp as [x|]; [|done]. by apply (H x).
Qed.

(** The part up to the server's key has a fixed size. *)
Lemma transcript_head_inj i i' x x' r r' :
  init_typed i -> init_typed i' ->
  len (ci_session_id i) = len (ci_session_id i') -> len (ci_client_nonce i) = len (ci_client_nonce i') ->
  len (ci_client_eph_pk i) = len (ci_client_eph_pk i') -> len x = len x' ->
  [z2b 1; z2b 3; z2b 0; z2b 0] ++ ci_session_id i ++ be_put 4 (ci_channel_id i)
  ++ ci_client_nonce i ++ be_put 8 (wrapU 64 (ci_timestamp i)) ++ be_put 8 (ci_capabilities i)
  ++ ci_client_eph_pk i ++ x ++ r =
  [z2b 1; z2b 3; z2b 0; z2b 0] ++ ci_session_id i' ++ be_put 4 (ci_channel_id i')
  ++ ci_client_nonce i' ++ be_put 8 (wrapU 64 (ci_timestamp i')) ++ be_put 8 (ci_capabilities i')
  ++ ci_client_eph_pk i' ++ x' ++ r' ->
  authenticated_v2 i = authenticated_v2 i' /\ ci_client_eph_pk i = ci_client_eph_pk i' /\
  x = x' /\ r = r'.
Proof.
  intros (Hc & Ht & Hcap) (Hc' & Ht' & Hcap') L1 L2 L3 L4 E.
  apply app_inj_len in E as [_ E]; [|done].
  apply app_inj_len in E as [E1 E]; [|done].
  apply app_inj_len in E as [E2%(be_put_inj 4) E]; [|by rewrite ?len_be_put..].
  apply app_inj_len in E as [E3 E]; [|done].
  apply app_inj_len in E as [E4%(be_put_inj 8) E]; [|by apply wrapU_range|by apply wrapU_range|by rewrite !len_be_put].
  apply wrapU64_inj in E4; [|done..].
  apply app_inj_len in E as [E5%(be_put_inj 8) E]; [|by rewrite ?len_be_put..].
  apply app_inj_len in E as [E6 E]; [|done].
  apply app_inj_len in E as [E7 E]; [|done].
  unfold authenticated_v2. rewrite E1, E2, E3, E4, E5. done.
Qed.

Lemma transcript_ref_inj s p i sp s' p' i' sp' :
  init_typed i -> init_typed i' ->
  transcript_inputs s p i sp -> transcript_inputs s' p' i' sp' ->
  transcript_ref s p i sp = transcript_ref s' p' i' sp' ->
  authenticated_v3 i = authenticated_v3 i' /\ s = s' /\ p = p' /\ sp = sp'.
Proof.
  intros Ht Ht' Hi Hi' E. pose proof (server_key_len _ _ _ _ Hi) as K.
  pose proof (server_key_len _ _ _ _ Hi') as K'.
  destruct Hi as (H1 & _ & H2 & H3 & H4 & H5 & _ & H6 & H7 & H8).
  destruct Hi' as (H1' & _ & H2' & H3' & H4' & H5' & _ & H6' & H7' & H8').
  apply transcript_head_inj in E as (Ea & Ek & Ex & E); [|congruence..].
  apply app_inj_len in E as [[= Ec]%(f_equal (map b2z)) E]; [|done].
  rewrite !b2z_z2b, !Z.mod_small in Ec by lia.
  apply app_inj_len in E as [Ep E]; [|done].
  apply prefixed_inj in E as [-> E]; [|done..].
  apply prefixed_inj in E as [-> E]; [|done..].
  apply app_inj_len in E as [Et E]; [|congruence].
  injection Ea as Ea1 Ea2 Ea3 Ea4 Ea5.
  split_and!; [|done|done|].
  - unfold authenticated_v3. congruence.
  - destruct sp as [[]|], sp' as [[]|]; simpl in *; congruence.
Qed.

(** * Decoded messages are well formed *)

Lemma getV3_ok records t n v :
  getV3 records t n = Ok v ->
  exists r, records !! t = Some r /\ v = tlv_value r /\ (0 < n -> len v = n).
Proof.
  unfold getV3. destruct (records !! t) as [r|]; [|done].
  destruct (Z.ltb_spec 0 n); simpl; [|intros [= <-]; exists r; split_and!; [done..|lia]].
  destruct (Z.eqb_spec (len (tlv_value r)) n); simpl; [|done].
  intros [= <-]. eauto.
Qed.

Lemma res_bind_ok {A B} (m : res A) (k : A -> res B) b :
  res_bind m k = Ok b -> exists a, m = Ok a /\ k a = Ok b.
Proof. destruct m; simpl; eauto; done. Qed.

(** Every value of a parsed map fits its 16-bit length. *)
Lemma parsed_value_len body known m t r :
  parseV2TLVs body known = Ok m -> m !! t = Some r -> len (tlv_value r) <= 65535.
Proof.
  intros Hm Hr. unfold parseV2TLVs in Hm.
  pose proof (parse_loop_sound _ _ _ _ _ (fun t H => match H (lookup_empty t) with end) Hm)
    as (rs & Hb & Ha).
  assert (parseV2TLVs body known = Ok m) as Hp by done.
  rewrite Hb, parseV2TLVs_enc in Hp by done. apply Ok_inj in Hp. subst m.
  rewrite tlv_map_lookup in Hr. destruct Ha as (Hw & _).
  assert (r ∈ known_tlvs known rs) as Hin.
  { clear -Hr. induction (known_tlvs known rs) as [|r' rs' IH]; [done|]. cbn [tlv_find] in Hr.
    destruct (tlv_type r' =? t); [simplify_eq; left|right; auto]. }
  apply list_elem_of_In, filter_In in Hin as [Hin _].
  rewrite Forall_forall in Hw. apply Hw. by apply list_elem_of_In.
Qed.

(** The constraints [decodeChannelInitV3] enforces. *)
Definition init_valid_v3 (i : ChannelInit) : Prop :=
  init_typed i /\ len (ci_session_id i) = 16 /\ ci_channel_id i <> 0 /\
  len (ci_client_nonce i) = 32 /\ len (ci_auth_proof i) = 32 /\
  1 <= len (ci_cipher_pref i) <= 8 /\ check_ciphers (ci_cipher_pref i) = Ok tt /\
  len (ci_client_eph_pk i) = 32 /\ len (ci_tai64n i) = 12 /\ len (ci_padding i) <= 65535.

Lemma be_get_bounds l n : len l = n -> 0 <= be_get l < 256 ^ n.
Proof. intros <-. apply be_get_range. Qed.

Lemma decode_valid_v3 body i : decodeChannelInitV3 body = Ok i -> init_valid_v3 i.
Proof.
  unfold decodeChannelInitV3. intros (m & Hm & H)%res_bind_ok.
  apply res_bind_ok in H as (sid & (r1 & _ & _ & L1)%getV3_ok & H).
  apply res_bind_ok in H as (cid & (r2 & _ & _ & L2)%getV3_ok & H).
  apply res_bind_ok in H as (non & (r3 & _ & _ & L3)%getV3_ok & H).
  apply res_bind_ok in H as (ts & (r4 & _ & _ & L4)%getV3_ok & H).
  apply res_bind_ok in H as (caps & (r5 & _ & _ & L5)%getV3_ok & H).
  apply res_bind_ok in H as (pf & (r6 & _ & _ & L6)%getV3_ok & H).
  apply res_bind_ok in H as (pref & (r7 & _ & _ & _)%getV3_ok & H).
  destruct (Z.ltb_spec (len pref) 1), (Z.ltb_spec 8 (len pref)); [done..|]. cbn [orb] in H.
  apply res_bind_ok in H as ([] & Hck & H).
  apply res_bind_ok in H as (pk & (r8 & _ & _ & L8)%getV3_ok & H).
  apply res_bind_ok in H as (tai & (r9 & _ & _ & L9)%getV3_ok & H).
  destruct (Z.eqb_spec (be_get cid) 0); [done|]. apply Ok_inj in H. subst i.
  unfold init_valid_v3, init_typed. cbn [ci_session_id ci_channel_id ci_client_nonce ci_timestamp
    ci_capabilities ci_auth_proof ci_cipher_pref ci_client_eph_pk ci_tai64n ci_padding].
  assert (len (optional_value m v2RecordPadding) <= 65535).
  { unfold optional_value. destruct (m !! v2RecordPadding) eqn:E; [by eapply parsed_value_len|done]. }
  pose proof (be_get_bounds cid 4 (L2 eq_refl)). pose proof (be_get_bounds caps 8 (L5 eq_refl)).
  pose proof (wrapS_range 64 (be_get ts) eq_refl).
  split_and!; auto; try lia; try (by apply L1); try (by apply L3); try (by apply L6);
    try (by apply L8); by apply L9.
Qed.

(** A well-formed message can be encoded. *)
Lemma encode_valid_v3 i : init_valid_v3 i -> exists body, encodeChannelInitV3 i = Ok body.
Proof.
  intros (Ht & H1 & H2 & H3 & H4 & H5 & H6 & H7 & H8 & H9). unfold encodeChannelInitV3.
  rewrite H1, H3, H4, H6, H7, H8. cbn [Z.eqb Pos.eqb negb res_bind].
  destruct (Z.eqb_spec (ci_channel_id i) 0); [done|].
  destruct (Z.ltb_spec (len (ci_cipher_pref i)) 1); [lia|].
  destruct (Z.ltb_spec 8 (len (ci_cipher_pref i))); [lia|]. cbn [orb].
  eexists. apply encodeV2TLVs_ok. split; [|reflexivity].
  apply Forall_app. split; [|by destruct (0 <? _); repeat constructor].
  repeat constructor; cbn [tlv_value]; rewrite ?len_be_put; lia.
Qed.

(** * Properties *)

Lemma init_v3_sent {W : Type} {HWr : Writer W} {HOk : WriterOk W} maxSize i (w w' : W) :
  admits maxSize -> init_typed i -> writeChannelInitV3 i w = (w', Ok tt) ->
  exists out, sink w' = sink w ++ out /\ reads (readChannelInitV3 maxSize) out i.
Proof.
  intros Hmax Ht (body & He & [Hs Hl]%writes_writeV3Frame)%lift_bind_ok'.
  eexists. split; [exact Hs|]. eapply reads_decode; [by apply reads_readV3Frame|]. cbn [f_type f_body].
  by rewrite (decode_encode_init_v3 _ _ Ht He).
Qed.

Lemma accept_v3_sent {W : Type} {HWr : Writer W} {HOk : WriterOk W} maxSize a (w w' : W) :
  admits maxSize -> accept_typed a -> writeChannelAcceptV3 a w = (w', Ok tt) ->
  exists out, sink w' = sink w ++ out /\
    reads (readChannelAcceptOrRejectV3 maxSize) out (a, zeroReject).
Proof.
  intros Hmax Ht (body & He & [Hs Hl]%writes_writeV3Frame)%lift_bind_ok'.
  eexists. split; [exact Hs|]. eapply reads_decode; [by apply reads_readV3Frame|]. cbn [f_type f_body].
  by rewrite (decode_encode_accept_v3 _ _ Ht He).
Qed.

(** C40: a version 3 control message written without error is exactly what the
    peer reads, whatever follows it: ChannelInit with its padding, ChannelAccept
    with or without the optional limits and message, and ChannelReject with code
    zero replaced by MalformedFrame. *)
Theorem control_messages_v3_roundtrip {W : Type} {HWr : Writer W} {HOk : WriterOk W}
    (maxSize : Z) (Hmax : admits maxSize) (w w' : W) :
  (forall i, init_typed i -> writeChannelInitV3 i w = (w', Ok tt) ->
     exists out, sink w' = sink w ++ out /\ reads (readChannelInitV3 maxSize) out i) /\
  (forall a, accept_typed a -> writeChannelAcceptV3 a w = (w', Ok tt) ->
     exists out, sink w' = sink w ++ out /\
       reads (readChannelAcceptOrRejectV3 maxSize) out (a, zeroReject)) /\
  (forall r, writeChannelRejectV3 r w = (w', Ok tt) ->
     exists out, sink w' = sink w ++ out /\
       reads (readChannelAcceptOrRejectV3 maxSize) out (zeroAccept, sent_reject r)).
Proof.
  split_and!; intros *; [by apply init_v3_sent|by apply accept_v3_sent|].
  intros (body & He & [Hs Hl]%writes_writeV3Frame)%lift_bind_ok'.
  eexists. split; [exact Hs|]. eapply reads_decode; [by apply reads_readV3Frame|]. cbn [f_type f_body].
  by rewrite (decode_encode_reject _ _ He).
Qed.

(** What [decodeChannelInitV3] returns satisfies every constraint of a
    version 3 ChannelInit (field sizes, a positive channel id, one to eight
    supported ciphers), can be encoded again, and that encoding decodes to the
    same message. *)
Theorem decoded_init_v3_valid (body : bytes) (i : ChannelInit)
    (Hdec : decodeChannelInitV3 body = Ok i) :
  init_valid_v3 i /\
  exists body', encodeChannelInitV3 i = Ok body' /\ decodeChannelInitV3 body' = Ok i.
Proof.
  apply decode_valid_v3 in Hdec. split; [done|].
  destruct (encode_valid_v3 i Hdec) as [body' He]. exists body'. split; [done|].
  by apply decode_encode_init_v3; [apply Hdec|].
Qed.

(** The transcript computed by writing fields at offsets of a zeroed buffer
    is the concatenation of the fields (32 zero bytes standing for the server's
    key before it is known), defined exactly on well-formed inputs; out of them
    the function returns an error, and no write is out of the buffer's range. *)
Theorem transcript_v3_layout (serverName path : bytes) (i : ChannelInit)
    (pk nonce : bytes) (c : byte) (full : bool) :
  (forall t, channelInitTranscriptV3 serverName path i pk nonce c full = Ok t <->
     transcript_inputs serverName path i (server_part pk nonce c full) /\
     t = transcript_ref serverName path i (server_part pk nonce c full)) /\
  channelInitTranscriptV3 serverName path i pk nonce c full <> Panic.
Proof.
  split; [intros t; apply transcript_ok|].
  destruct (transcript_refuses serverName path i pk nonce c full) as [Hi|[e ->]]; [|done].
  by rewrite transcript_build.
Qed.

(** Equal transcripts come from equal inputs: the server name, the path,
    every field of ChannelInit but the proof and the padding, and whether the
    server's part (its key, nonce and cipher) is included and which it is.  In
    particular an initial transcript is never a full one. *)
Theorem transcript_v3_binds (s p s' p' : bytes) (i i' : ChannelInit)
    (pk nonce pk' nonce' : bytes) (c c' : byte) (full full' : bool) (t : bytes)
    (Ht : init_typed i) (Ht' : init_typed i')
    (H1 : channelInitTranscriptV3 s p i pk nonce c full = Ok t)
    (H2 : channelInitTranscriptV3 s' p' i' pk' nonce' c' full' = Ok t) :
  authenticated_v3 i = authenticated_v3 i' /\ s = s' /\ p = p' /\
  server_part pk nonce c full = server_part pk' nonce' c' full'.
Proof.
  apply transcript_ok in H1 as [Hi ->]. apply transcript_ok in H2 as [Hi' E].
  by apply transcript_ref_inj.
Qed.

Section CryptoProperties.
Context `{C : Crypto} `{COk : !CryptoOk}.

Lemma verify_auth_ok token s p i :
  VerifyV3AuthProof token s p i = true ->
  transcript_inputs s p i None /\
  exists k, hkdf_new token (bs "x-tunnel-v3-auth") s 32 = Ok k /\
    ci_auth_proof i = hmac_sha256 k (sha256 (transcript_ref s p i None)).
Proof.
  unfold VerifyV3AuthProof, ComputeV3AuthProof, ComputeV3TranscriptHashInit, ComputeV3TranscriptHash.
  destruct (channelInitTranscriptV3 s p i [] [] Byte.x00 false) as [t| |] eqn:E; [|done..].
  apply transcript_ok in E as [Hi ->]. cbn [res_bind].
  destruct (hkdf_new token _ s 32) as [k| |] eqn:Ek; cbn [res_bind]; [|done..].
  case_match; [done|]. intros Hb%bool_decide_eq_true. split; [done|]. exists k. split; [done|exact Hb].
Qed.

Lemma auth_proof_accepted token s p i proof :
  ComputeV3AuthProof token s p i = Ok proof -> ci_auth_proof i = proof ->
  VerifyV3AuthProof token s p i = true.
Proof.
  intros Hc Hp. unfold VerifyV3AuthProof. rewrite Hc, Hp, Z.eqb_refl. cbn [negb].
  unfold hmac_Equal. by apply bool_decide_eq_true.
Qed.

(** C39: the proof of a ChannelInit authenticates it.  A proof a client computes
    is accepted by the server holding the same token, and two messages the
    server accepts with the same proof for the same server name agree on the
    path and on every covered field, or else their transcripts are a collision
    of SHA-256 or the two digests one of HMAC under the derived key. *)
Theorem auth_proof_v3_authenticates (token s : bytes) :
  (forall p i proof, ComputeV3AuthProof token s p i = Ok proof -> ci_auth_proof i = proof ->
     VerifyV3AuthProof token s p i = true) /\
  (forall p p' i i', init_typed i -> init_typed i' ->
     VerifyV3AuthProof token s p i = true -> VerifyV3AuthProof token s p' i' = true ->
     ci_auth_proof i = ci_auth_proof i' ->
     let t := transcript_ref s p i None in
     let t' := transcript_ref s p' i' None in
     (authenticated_v3 i = authenticated_v3 i' /\ p = p') \/
     (t <> t' /\ sha256 t = sha256 t') \/
     (exists k, hkdf_new token (bs "x-tunnel-v3-auth") s 32 = Ok k /\
        sha256 t <> sha256 t' /\ hmac_sha256 k (sha256 t) = hmac_sha256 k (sha256 t'))).
Proof.
  split.
  - intros *. apply auth_proof_accepted.
  - intros p p' i i' Ht Ht' [Hi (k & Hk & E)]%verify_auth_ok [Hi' (k' & Hk' & E')]%verify_auth_ok Epf t t'.
    assert (k = k') as <- by congruence. rewrite E, E' in Epf. fold t in Epf. fold t' in Epf.
    destruct (decide (sha256 t = sha256 t')) as [Eh|Nh]; [|by eauto 10].
    destruct (decide (t = t')) as [Et|Nt]; [|by eauto].
    left. apply transcript_ref_inj in Et as (? & _ & ? & _); auto.
Qed.

Lemma shared_secret_agrees rndC rndS skC pkC skS pkS :
  NewV3ClientEphemeralKey rndC = Ok (skC, pkC) -> NewV3ClientEphemeralKey rndS = Ok (skS, pkS) ->
  len skC = 32 -> len skS = 32 ->
  ComputeV3SharedSecret skC pkS = ComputeV3SharedSecret skS pkC /\ len pkC = 32 /\ len pkS = 32.
Proof.
  intros (x & -> & (y & Hx & [= <- <-])%res_bind_ok)%res_bind_ok
    (x' & -> & (y' & Hx' & [= <- <-])%res_bind_ok)%res_bind_ok LC LS.
  unfold ComputeV3SharedSecret.
  rewrite LC, LS, (len_x25519 _ _ _ Hx), (len_x25519 _ _ _ Hx'). cbn [Z.eqb Pos.eqb negb].
  by rewrite (x25519_agree _ _ _ _ LC LS Hx Hx').
Qed.

Lemma shared_secret_len sk pk shared :
  ComputeV3SharedSecret sk pk = Ok shared -> len shared = 32 /\ isZeroBytesV3 shared = false.
Proof.
  unfold ComputeV3SharedSecret. do 2 (case_match; [done|]). intros (sh & Hs & Hz)%res_bind_ok.
  destruct (isZeroBytesV3 sh) eqn:Ez; [done|]. apply Ok_inj in Hz as <-. split; [|done].
  destruct (x25519 sk pk) eqn:E; simplify_eq/=. by eapply len_x25519.
Qed.

Lemma session_seed_ok token hash sk pk shared :
  len token <> 0 -> len hash = 32 -> ComputeV3SharedSecret sk pk = Ok shared ->
  exists keys, DeriveV3SessionSeed token hash shared = Ok keys /\
    len (sk_seed keys) = 32 /\ len (sk_c2s_nonce_prefix keys) = 4 /\
    len (sk_s2c_nonce_prefix keys) = 4.
Proof.
  intros Hto Hh [Lsh Ez]%shared_secret_len.
  unfold DeriveV3SessionSeed. rewrite Hh, Lsh, Ez. cbn [Z.eqb Pos.eqb negb].
  destruct (Z.eqb_spec (len token) 0); [done|].
  destruct (hkdf_expand_ok (hkdf_extract (shared ++ token) (bs "xtunnel-v3-kdf")) hash 32) as (k1 & -> & _); [lia|].
  cbn [res_bind].
  destruct (hkdf_expand_ok k1 (bs "xtunnel-v3 fs mix") 32) as (k2 & -> & L2); [lia|]. cbn [res_bind].
  destruct (hkdf_expand_ok k2 (bs "xtunnel-v3 c2s nonce") 4) as (k3 & -> & L3); [lia|]. cbn [res_bind].
  destruct (hkdf_expand_ok k2 (bs "xtunnel-v3 s2c nonce") 4) as (k4 & -> & L4); [lia|]. cbn [res_bind].
  eexists. split; [done|]. cbn [sk_seed sk_c2s_nonce_prefix sk_s2c_nonce_prefix]. solve_len.
Qed.

(** Key agreement.  When both sides generate their keys and compute a
    shared secret from the other's public key, they obtain the same secret, so
    with the same token and full transcript hash the same session keys, of the
    sizes the stream cipher needs: 32 bytes of seed and nonce prefixes of 4. *)
Theorem handshake_keys_agree (rndC rndS : res bytes) (skC pkC skS pkS : bytes)
    (HC : NewV3ClientEphemeralKey rndC = Ok (skC, pkC))
    (HS : NewV3ClientEphemeralKey rndS = Ok (skS, pkS))
    (LC : len skC = 32) (LS : len skS = 32) :
  ComputeV3SharedSecret skC pkS = ComputeV3SharedSecret skS pkC /\
  (forall token hash shared,
     len token <> 0 -> len hash = 32 -> ComputeV3SharedSecret skC pkS = Ok shared ->
     exists keys, DeriveV3SessionSeed token hash shared = Ok keys /\
       len (sk_seed keys) = 32 /\ len (sk_c2s_nonce_prefix keys) = 4 /\
       len (sk_s2c_nonce_prefix keys) = 4).
Proof.
  split; [by eapply shared_secret_agrees|]. intros *. apply session_seed_ok.
Qed.

End CryptoProperties.

Lemma stream_key_info_inj c d s g c' d' s' g' :
  0 <= s < 2 ^ 32 -> 0 <= s' < 2 ^ 32 -> 0 <= g < 2 ^ 64 -> 0 <= g' < 2 ^ 64 ->
  stream_key_info c d s g = stream_key_info c' d' s' g' -> (c, d, s, g) = (c', d', s', g').
Proof.
  intros Hs Hs' Hg Hg' E. unfold stream_key_info in E.
  apply app_inj_len in E as [E1 E]; [|by destruct d, d'].
  apply app_inj_len in E as [[= E2] E]; [|done].
  apply app_inj_len in E as [E3%(be_put_inj 4) E4%(be_put_inj 8)]; [|by rewrite ?len_be_put..].
  subst. by destruct d, d'.
Qed.

(** The HKDF input of a stream key determines the cipher, the direction,
    the stream and the generation, so that no two streams or directions share
    one; a supported cipher and a 32-byte seed give a key of exactly the
    cipher's size, and anything else is an error. *)
Theorem stream_keys_separated `{C : Crypto} `{COk : !CryptoOk} (k : V3SessionKeys)
    (cipher : byte) (c2s : bool) (sid gen : Z) :
  (0 <= sid < 2 ^ 32 -> 0 <= gen < 2 ^ 64 ->
   forall cipher' c2s' sid' gen', 0 <= sid' < 2 ^ 32 -> 0 <= gen' < 2 ^ 64 ->
     stream_key_info cipher c2s sid gen = stream_key_info cipher' c2s' sid' gen' ->
     (cipher, c2s, sid, gen) = (cipher', c2s', sid', gen')) /\
  (if isSupportedCipherV3 cipher && (len (sk_seed k) =? 32)
   then exists key, StreamKey k cipher c2s sid gen = Ok key /\ len key = V3CipherKeyLen cipher
   else exists e, StreamKey k cipher c2s sid gen = Err e).
Proof.
  split.
  - intros Hs Hg cipher' c2s' sid' gen' Hs' Hg'. by apply stream_key_info_inj.
  - unfold StreamKey, isSupportedCipherV3, V3CipherKeyLen.
    assert (forall n, (n <= 32)%nat -> exists key,
      hkdf_expand (sk_seed k) (stream_key_info cipher c2s sid gen) n = Ok key /\ len key = Z.of_nat n) as He.
    { intros n Hn. destruct (hkdf_expand_ok (sk_seed k) (stream_key_info cipher c2s sid gen) n)
        as (key & Hk & Hl); [lia|]. exists key. split; [done|]. solve_len. }
    destruct (len (sk_seed k) =? 32);
      destruct (b2z cipher =? ProtocolCipherChaCha20Poly1305), (b2z cipher =? ProtocolCipherAES256GCM),
        (b2z cipher =? ProtocolCipherAES128GCM); cbn [orb andb negb Z.leb Z.compare];
      eauto; first [apply (He 32%nat); lia | apply (He 16%nat); lia].
Qed.

(** * Witnesses *)

Definition sampleInit : ChannelInit :=
  mkChannelInit (replicate 16 (z2b 7)) 1 (replicate 32 (z2b 9)) 1700000000 127
    (replicate 32 (z2b 5)) [z2b 1; z2b 3] (be_put 32 9) (replicate 12 (z2b 4)) (bs "pad").

Definition sampleKeys : V3SessionKeys := mkSessionKeys (replicate 32 (z2b 1)) (bs "abcd") (bs "efgh").

Definition sampleBody : bytes :=
  match encodeChannelInitV3 sampleInit with Ok b => b | _ => [] end.

(** The sample with the proof of a token under the toy primitives. *)
Definition signedInit : ChannelInit :=
  mkChannelInit (ci_session_id sampleInit) 1 (ci_client_nonce sampleInit) 1700000000 127
    (match ComputeV3AuthProof (bs "token") (bs "srv") (bs "/ws") sampleInit with Ok p => p | _ => [] end)
    (ci_cipher_pref sampleInit) (ci_client_eph_pk sampleInit) (ci_tai64n sampleInit) (bs "pad").

Lemma sampleInit_typed : init_typed sampleInit.
Proof. unfold init_typed. vm_compute. intuition congruence. Qed.

Lemma control_messages_v3_roundtrip_witness :
  exists out, sink (bs "x" ++ enc_frame (z2b 1) 3 0 sampleBody) = sink (bs "x") ++ out /\
    reads (readChannelInitV3 0) out sampleInit.
Proof.
  apply (proj1 (control_messages_v3_roundtrip (W := bytes) 0 (or_introl (Z.le_refl 0)) (bs "x")
    (bs "x" ++ enc_frame (z2b 1) 3 0 sampleBody)) sampleInit sampleInit_typed).
  vm_compute. reflexivity.
Defined.

Lemma decoded_init_v3_valid_witness :
  init_valid_v3 sampleInit /\
  exists body', encodeChannelInitV3 sampleInit = Ok body' /\ decodeChannelInitV3 body' = Ok sampleInit.
Proof. apply (decoded_init_v3_valid sampleBody sampleInit). vm_compute. reflexivity. Defined.

Lemma transcript_v3_binds_witness :
  authenticated_v3 sampleInit = authenticated_v3 signedInit /\ bs "srv" = bs "srv" /\
  bs "/ws" = bs "/ws" /\
  server_part [] [] Byte.x00 false = server_part (bs "ignored") [] Byte.x00 false.
Proof.
  apply (transcript_v3_binds (bs "srv") (bs "/ws") (bs "srv") (bs "/ws") sampleInit signedInit
    [] [] (bs "ignored") [] Byte.x00 Byte.x00 false false
    (transcript_ref (bs "srv") (bs "/ws") sampleInit None) sampleInit_typed).
  - unfold init_typed. vm_compute. intuition congruence.
  - vm_compute. reflexivity.
  - vm_compute. reflexivity.
Defined.

Lemma auth_proof_v3_authenticates_witness :
  VerifyV3AuthProof (bs "token") (bs "srv") (bs "/ws") signedInit = true.
Proof.
  apply (proj1 (auth_proof_v3_authenticates (bs "token") (bs "srv")) (bs "/ws") signedInit
    (ci_auth_proof signedInit)); vm_compute; reflexivity.
Defined.

Lemma handshake_keys_agree_witness :
  ComputeV3SharedSecret (be_put 32 5) (be_put 32 63) = ComputeV3SharedSecret (be_put 32 7) (be_put 32 45).
Proof.
  apply (handshake_keys_agree (C := toy_crypto) (Ok (be_put 32 5)) (Ok (be_put 32 7)) (be_put 32 5)
    (be_put 32 45) (be_put 32 7) (be_put 32 63)); vm_compute; reflexivity.
Defined.

Lemma stream_keys_separated_witness :
  exists key, StreamKey sampleKeys (z2b 3) true 4 0 = Ok key /\ len key = V3CipherKeyLen (z2b 3).
Proof. exact (proj2 (stream_keys_separated sampleKeys (z2b 3) true 4 0)). Defined.
