(* ===== verification/ReplayWindow.v ===== *)
(** internal/wire/cipher_stream.go: the sliding window that rejects replayed
    record counters, a ring of 2048 bits in 32 words, and its refinement of the
    set of counters seen. *)

From Stdlib Require Import ZArith Lia.
From stdpp Require Import base numbers list gmap sets.
From S2P Require Import Prelude.

Local Open Scope Z_scope.

(** * The window *)

Definition replayWindowSize : Z := 2048.
Definition replayWindowWords : Z := replayWindowSize / 64.

Record replayWindow : Type := mkWindow { maxSeq : Z; bitmap : list Z }.

(** The zero value of the Go struct. *)
Definition emptyWindow : replayWindow := mkWindow 0 (replicate (Z.to_nat replayWindowWords) 0).

(** [idx := (seq - 1) % replayWindowSize] on [uint64]. *)
Definition slot (seq : Z) : Z := wrapU 64 (seq - 1) mod replayWindowSize.

Definition word (bm : list Z) (i : Z) : Z := nth (Z.to_nat i) bm 0.

(** [bitmap[idx/64] &^= 1 << (idx%64)], [... |= ...] and the test. *)
Definition clear_bit (bm : list Z) (idx : Z) : list Z :=
  <[Z.to_nat (idx / 64) := Z.ldiff (word bm (idx / 64)) (Z.shiftl 1 (idx mod 64))]> bm.

Definition set_bit (bm : list Z) (idx : Z) : list Z :=
  <[Z.to_nat (idx / 64) := Z.lor (word bm (idx / 64)) (Z.shiftl 1 (idx mod 64))]> bm.

Definition bit_is_set (bm : list Z) (idx : Z) : bool :=
  negb (Z.land (word bm (idx / 64)) (Z.shiftl 1 (idx mod 64)) =? 0).

(** [for s := from; s <= seq; s++], the increment wrapping at 2^64; [None] when
    the loop has not ended after [fuel] rounds. *)
Fixpoint clear_loop (fuel : nat) (s seq : Z) (bm : list Z) : option (list Z) :=
  if s <=? seq then
    match fuel with
    | O => None
    | S fuel' => clear_loop fuel' (wrapU 64 (s + 1)) seq (clear_bit bm (slot s))
    end
  else Some bm.

Definition checkAndAdd_fuel (fuel : nat) (w : replayWindow) (seq : Z) : option (replayWindow * bool) :=
  if seq =? 0 then Some (w, false) else
  if maxSeq w <? seq then
    let diff := seq - maxSeq w in
    let cleared :=
      if replayWindowSize <=? diff
      then Some (map (fun _ => 0) (bitmap w))
      else clear_loop fuel (wrapU 64 (maxSeq w + 1)) seq (bitmap w) in
    match cleared with
    | None => None
    | Some bm => Some (mkWindow seq (set_bit bm (slot seq)), true)
    end
  else if replayWindowSize <=? maxSeq w - seq then Some (w, false)
  else if bit_is_set (bitmap w) (slot seq) then Some (w, false)
  else Some (mkWindow (maxSeq w) (set_bit (bitmap w) (slot seq)), true).

(** The clearing loop makes fewer than 2048 rounds when it ends at all. *)
Definition checkAndAdd : replayWindow -> Z -> option (replayWindow * bool) :=
  checkAndAdd_fuel (Z.to_nat replayWindowSize).

(** A sequence of counters, with the answer to each. *)
Fixpoint check_all (w : replayWindow) (seqs : list Z) : option (replayWindow * list bool) :=
  match seqs with
  | [] => Some (w, [])
  | s :: seqs' =>
      match checkAndAdd w s with
      | None => None
      | Some (w', b) =>
          match check_all w' seqs' with
          | None => None
          | Some (w'', bs) => Some (w'', b :: bs)
          end
      end
  end.

(** * The specification *)

(** The highest counter and the set of all accepted ones. *)
Record seen_set : Type := mkSeen { top : Z; seen : gset Z }.

Definition emptySeen : seen_set := mkSeen 0 ∅.

(** Fresh: positive, not more than 2047 behind the highest, never accepted. *)
Definition fresh (a : seen_set) (seq : Z) : bool :=
  (0 <? seq) && (top a - replayWindowSize <? seq) && bool_decide (seq ∉ seen a).

Definition spec_add (a : seen_set) (seq : Z) : seen_set * bool :=
  if fresh a seq then (mkSeen (Z.max (top a) seq) ({[seq]} ∪ seen a), true) else (a, false).

Fixpoint spec_all (a : seen_set) (seqs : list Z) : seen_set * list bool :=
  match seqs with
  | [] => (a, [])
  | s :: seqs' =>
      let '(a', b) := spec_add a s in
      let '(a'', bs) := spec_all a' seqs' in (a'', b :: bs)
  end.

(** * Bits of the ring *)

(** [k] is a bit of the ring and the ring has all its words. *)
Definition ring_ok (bm : list Z) : Prop := length bm = 32%nat.

Lemma slot_range s : 0 <= slot s < 2048.
Proof. unfold slot, replayWindowSize. apply Z.mod_pos_bound. lia. Qed.

Lemma word_insert bm i v j :
  ring_ok bm -> 0 <= i < 32 -> 0 <= j < 32 ->
  word (<[Z.to_nat i := v]> bm) j = if i =? j then v else word bm j.
Proof.
  intros Hb Hi Hj. unfold ring_ok, word in *. rewrite !nth_lookup.
  destruct (Z.eqb_spec i j) as [->|Hn].
  - by rewrite list_lookup_insert_eq by lia.
  - by rewrite list_lookup_insert_ne by lia.
Qed.

Lemma shiftl_1_testbit b k : 0 <= b -> 0 <= k -> Z.testbit (Z.shiftl 1 b) k = (k =? b).
Proof.
  intros Hb Hk. rewrite Z.shiftl_1_l, Z.pow2_bits_eqb by lia. apply Z.eqb_sym.
Qed.

Lemma land_bit_set x b : 0 <= b -> negb (Z.land x (Z.shiftl 1 b) =? 0) = Z.testbit x b.
Proof.
  intros Hb. destruct (Z.eqb_spec (Z.land x (Z.shiftl 1 b)) 0) as [E|N]; simpl.
  - symmetry. apply (f_equal (fun z => Z.testbit z b)) in E.
    rewrite Z.land_spec, shiftl_1_testbit, Z.eqb_refl, andb_true_r, Z.bits_0 in E by lia. done.
  - symmetry. destruct (Z.testbit x b) eqn:Et; [done|]. destruct N.
    apply Z.bits_inj_0. intros k. destruct (Z.le_gt_cases 0 k); [|by apply Z.testbit_neg_r].
    rewrite Z.land_spec, shiftl_1_testbit by lia.
    destruct (Z.eqb_spec k b) as [->|]; [by rewrite Et|apply andb_false_r].
Qed.

Lemma bit_is_set_testbit bm k :
  bit_is_set bm k = Z.testbit (word bm (k / 64)) (k mod 64).
Proof. unfold bit_is_set. apply land_bit_set. apply Z.mod_pos_bound. lia. Qed.

Lemma div_mod_64 j k : j / 64 = k / 64 -> j mod 64 = k mod 64 -> j = k.
Proof. intros. pose proof (Z.div_mod j 64). pose proof (Z.div_mod k 64). lia. Qed.

Lemma word_index k : 0 <= k < 2048 -> 0 <= k / 64 < 32.
Proof. intros. split; [apply Z.div_pos; lia|apply Z.div_lt_upper_bound; lia]. Qed.

Lemma bit_set_bit bm k j :
  ring_ok bm -> 0 <= k < 2048 -> 0 <= j < 2048 ->
  bit_is_set (set_bit bm k) j = (j =? k) || bit_is_set bm j.
Proof.
  intros Hb Hk Hj. rewrite !bit_is_set_testbit. unfold set_bit.
  pose proof (Z.mod_pos_bound j 64 eq_refl). pose proof (Z.mod_pos_bound k 64 eq_refl).
  rewrite word_insert by (done || by apply word_index).
  destruct (Z.eqb_spec (k / 64) (j / 64)) as [E|N].
  - rewrite Z.lor_spec, shiftl_1_testbit, E by lia.
    destruct (Z.eqb_spec (j mod 64) (k mod 64)) as [E'|N'].
    + rewrite (div_mod_64 j k) by done. by rewrite Z.eqb_refl, orb_true_r.
    + destruct (Z.eqb_spec j k) as [->|]; [done|]. by rewrite orb_false_r.
  - by destruct (Z.eqb_spec j k) as [->|].
Qed.

Lemma bit_clear_bit bm k j :
  ring_ok bm -> 0 <= k < 2048 -> 0 <= j < 2048 ->
  bit_is_set (clear_bit bm k) j = negb (j =? k) && bit_is_set bm j.
Proof.
  intros Hb Hk Hj. rewrite !bit_is_set_testbit. unfold clear_bit.
  pose proof (Z.mod_pos_bound j 64 eq_refl). pose proof (Z.mod_pos_bound k 64 eq_refl).
  rewrite word_insert by (done || by apply word_index).
  destruct (Z.eqb_spec (k / 64) (j / 64)) as [E|N].
  - rewrite Z.ldiff_spec, shiftl_1_testbit, E by lia.
    destruct (Z.eqb_spec (j mod 64) (k mod 64)) as [E'|N'].
    + rewrite (div_mod_64 j k) by done. by rewrite Z.eqb_refl, andb_false_r.
    + destruct (Z.eqb_spec j k) as [->|]; [done|]. by rewrite andb_true_r.
  - by destruct (Z.eqb_spec j k) as [->|].
Qed.

Lemma set_bit_ok bm k : ring_ok bm -> ring_ok (set_bit bm k).
Proof. unfold ring_ok, set_bit. by rewrite length_insert. Qed.

Lemma clear_bit_ok bm k : ring_ok bm -> ring_ok (clear_bit bm k).
Proof. unfold ring_ok, clear_bit. by rewrite length_insert. Qed.

Lemma zero_bits (bm : list Z) j : bit_is_set (map (fun _ => 0) bm) j = false.
Proof.
  unfold bit_is_set, word. replace (nth (Z.to_nat (j / 64)) (map (fun _ : Z => 0) bm) 0) with 0; [done|].
  symmetry. rewrite nth_lookup, list_lookup_fmap. by destruct (bm !! _).
Qed.

Lemma slot_eq s : 1 <= s < 2 ^ 64 -> slot s = (s - 1) mod 2048.
Proof. intros H. unfold slot, wrapU. by rewrite (Z.mod_small (s - 1)) by lia. Qed.

(** Counters closer than the window have different slots. *)
Lemma slot_inj s t :
  1 <= s < 2 ^ 64 -> 1 <= t < 2 ^ 64 -> Z.abs (s - t) < 2048 -> slot s = slot t -> s = t.
Proof.
  intros Hs Ht Hd. rewrite !slot_eq by lia. intros E.
  pose proof (Z.div_mod (s - 1) 2048). pose proof (Z.div_mod (t - 1) 2048). lia.
Qed.

(** The clearing loop ends, clears the slots of the counters it visits and
    leaves the others. *)
Lemma clear_loop_spec fuel s seq bm :
  1 <= s -> s <= seq + 1 -> seq < 2 ^ 64 - 1 -> seq - s < 2048 ->
  (Z.to_nat (seq + 1 - s) <= fuel)%nat -> ring_ok bm ->
  exists bm', clear_loop fuel s seq bm = Some bm' /\ ring_ok bm' /\
    (forall x, s <= x <= seq -> bit_is_set bm' (slot x) = false) /\
    (forall x, 1 <= x < s -> seq - x < 2048 -> bit_is_set bm' (slot x) = bit_is_set bm (slot x)).
Proof.
  revert s bm. induction fuel as [|fuel IH]; intros s bm H1 H2 H3 H4 Hf Hb; cbn [clear_loop];
    (destruct (Z.leb_spec s seq); [|exists bm; split_and!; [done..|lia|done]]); [lia|].
  assert (wrapU 64 (s + 1) = s + 1) as -> by (apply wrapU_small; lia).
  destruct (IH (s + 1) (clear_bit bm (slot s))) as (bm' & -> & Hb' & Hc & Hk);
    [lia..|by apply clear_bit_ok|].
  exists bm'. split_and!; [done..| |].
  - intros x Hx. destruct (Z.eq_dec x s) as [->|]; [|apply Hc; lia].
    rewrite Hk by lia. rewrite bit_clear_bit by (done || apply slot_range). by rewrite Z.eqb_refl.
  - intros x Hx Hd. rewrite Hk by lia. rewrite bit_clear_bit by (done || apply slot_range).
    destruct (Z.eqb_spec (slot x) (slot s)) as [E|]; [|done].
    apply slot_inj in E; lia.
Qed.

(** * Refinement *)

(** The window holds, of the counters still in range, those accepted. *)
Definition refines (w : replayWindow) (a : seen_set) : Prop :=
  maxSeq w = top a /\ 0 <= top a < 2 ^ 64 - 1 /\ ring_ok (bitmap w) /\
  (forall s, 1 <= s -> top a - 2048 < s <= top a ->
     bit_is_set (bitmap w) (slot s) = bool_decide (s ∈ seen a)) /\
  (forall s, s ∈ seen a -> 1 <= s <= top a).

Lemma refines_empty : refines emptyWindow emptySeen.
Proof. split_and!; try done; cbn [top seen emptySeen]; lia. Qed.

(** A counter above the highest: every slot between the two is cleared. *)
Lemma advance_cleared w a seq :
  refines w a -> top a < seq < 2 ^ 64 - 1 ->
  exists bm,
    (if replayWindowSize <=? seq - maxSeq w then Some (map (fun _ => 0) (bitmap w))
     else clear_loop (Z.to_nat replayWindowSize) (wrapU 64 (maxSeq w + 1)) seq (bitmap w)) = Some bm /\
    ring_ok bm /\
    (forall s, 1 <= s -> seq - 2048 < s <= seq ->
       bit_is_set bm (slot s) = bool_decide (s ∈ seen a)).
Proof.
  intros (Hm & Hr & Hb & Hbit & Hs) Hseq. unfold replayWindowSize. rewrite Hm.
  assert (forall s, top a < s -> bool_decide (s ∈ seen a) = false) as Hnew.
  { intros s Hgt. apply bool_decide_eq_false. intros Hin%Hs. lia. }
  destruct (Z.leb_spec 2048 (seq - top a)).
  - eexists. split_and!; [reflexivity| |].
    + unfold ring_ok in *. by rewrite length_map.
    + intros s H1 H2. by rewrite zero_bits, Hnew by lia.
  - rewrite wrapU_small by lia.
    destruct (clear_loop_spec (Z.to_nat 2048) (top a + 1) seq (bitmap w))
      as (bm & Hc & Hok & Hz & Hk); [lia..|done|].
    exists bm. split_and!; [done..|]. intros s H1 H2.
    destruct (Z.le_gt_cases s (top a)).
    + rewrite Hk by lia. apply Hbit; lia.
    + by rewrite Hz, Hnew by lia.
Qed.

Lemma refines_insert bm a seq m :
  1 <= seq <= m -> top a <= m < 2 ^ 64 - 1 -> m - 2048 < seq -> ring_ok bm ->
  (forall s, 1 <= s -> m - 2048 < s <= m -> bit_is_set bm (slot s) = bool_decide (s ∈ seen a)) ->
  (forall s, s ∈ seen a -> 1 <= s <= top a) ->
  refines (mkWindow m (set_bit bm (slot seq))) (mkSeen m ({[seq]} ∪ seen a)).
Proof.
  intros Hq Hm Hw Hb Hbit Hs. split_and!; cbn [top seen bitmap maxSeq]; [done|lia|lia|by apply set_bit_ok| |].
  - intros s H1 H2. rewrite bit_set_bit by (done || apply slot_range). rewrite Hbit by lia.
    destruct (Z.eqb_spec (slot s) (slot seq)) as [E|N].
    + apply slot_inj in E as ->; [|lia..]. symmetry. apply bool_decide_eq_true.
      apply elem_of_union_l, elem_of_singleton_2. done.
    + assert (s <> seq) by congruence. simpl. apply bool_decide_ext.
      rewrite elem_of_union, elem_of_singleton. intuition.
  - intros s [->%elem_of_singleton|Hin%Hs]%elem_of_union; lia.
Qed.

Lemma checkAndAdd_refines w a seq :
  refines w a -> 0 <= seq < 2 ^ 64 - 1 ->
  exists w', checkAndAdd w seq = Some (w', snd (spec_add a seq)) /\ refines w' (fst (spec_add a seq)).
Proof.
  intros HR Hq. pose proof HR as (Hm & Hr & Hb & Hbit & Hs).
  unfold checkAndAdd, checkAndAdd_fuel, spec_add, fresh.
  destruct (Z.eqb_spec seq 0) as [->|H0]; [by exists w|].
  destruct (Z.ltb_spec 0 seq); [|lia]. rewrite Hm.
  destruct (Z.ltb_spec (top a) seq).
  - destruct (advance_cleared w a seq HR) as (bm & Hc & Hok & Hbm); [lia|].
    rewrite Hm in Hc. rewrite Hc.
    destruct (Z.ltb_spec (top a - replayWindowSize) seq); [|unfold replayWindowSize in *; lia].
    rewrite bool_decide_eq_true_2 by (intros Hin%Hs; lia). cbn [andb fst snd].
    eexists. split; [done|]. rewrite Z.max_r by lia. apply refines_insert; auto; lia.
  - unfold replayWindowSize. destruct (Z.leb_spec 2048 (top a - seq)).
    + destruct (Z.ltb_spec (top a - 2048) seq); [lia|]. by exists w.
    + destruct (Z.ltb_spec (top a - 2048) seq); [|lia]. rewrite Hbit by lia. cbn [andb].
      destruct (bool_decide_reflect (seq ∈ seen a)) as [Hin|Hn].
      * rewrite bool_decide_eq_false_2 by (intros Hn; by apply Hn). by exists w.
      * rewrite bool_decide_eq_true_2 by done. cbn [fst snd]. eexists. split; [done|].
        rewrite Z.max_l by lia. apply refines_insert; auto; lia.
Qed.

Lemma check_all_refines w a seqs :
  refines w a -> Forall (fun s => 0 <= s < 2 ^ 64 - 1) seqs ->
  exists w', check_all w seqs = Some (w', snd (spec_all a seqs)) /\ refines w' (fst (spec_all a seqs)).
Proof.
  revert w a. induction seqs as [|s seqs IH]; intros w a HR Hf; [by exists w|].
  inversion Hf as [|? ? Hs Hf']; subst. cbn [check_all spec_all].
  destruct (checkAndAdd_refines w a s HR Hs) as (w1 & -> & HR1).
  destruct (spec_add a s) as [a1 b]. cbn [fst snd] in *.
  destruct (IH w1 a1 HR1 Hf') as (w2 & -> & HR2).
  destruct (spec_all a1 seqs) as [a2 bs]. by exists w2.
Qed.

(** The counters that got the answer [true]. *)
Fixpoint accepted (seqs : list Z) (bs : list bool) : list Z :=
  match seqs, bs with
  | s :: seqs', b :: bs' => if b then s :: accepted seqs' bs' else accepted seqs' bs'
  | _, _ => []
  end.

Lemma spec_all_accepted a seqs :
  NoDup (accepted seqs (snd (spec_all a seqs))) /\
  (forall s, s ∈ accepted seqs (snd (spec_all a seqs)) -> s ∉ seen a).
Proof.
  revert a. induction seqs as [|s seqs IH]; intros a; [split; [constructor|by intros ? ?%elem_of_nil]|].
  cbn [spec_all]. destruct (spec_add a s) as [a1 b] eqn:E.
  destruct (IH a1) as [Hd Hn]. destruct (spec_all a1 seqs) as [a2 bs]. cbn [snd accepted] in *.
  unfold spec_add in E. destruct (fresh a s) eqn:Ef; simplify_eq; [|done].
  apply andb_true_iff in Ef as [_ Ef%bool_decide_eq_true]. cbn [seen] in Hn. split.
  - constructor; [|done]. intros Hin%Hn. apply Hin. by apply elem_of_union_l, elem_of_singleton_2.
  - intros x [->|Hin]%elem_of_cons; [done|]. apply Hn in Hin. intros Hx. apply Hin. by apply elem_of_union_r.
Qed.

(** * Properties *)

(** C38: on counters below 2^64 - 1, the 2048-bit ring refines the set of
    counters seen: it returns, for every sequence, the answers of the
    specification, which accepts a counter exactly when it is positive, less
    than 2048 behind the highest accepted one and not accepted before. *)
Theorem replay_window_refines_set (seqs : list Z)
    (Hseqs : Forall (fun s => 0 <= s < 2 ^ 64 - 1) seqs) :
  exists w, check_all emptyWindow seqs = Some (w, snd (spec_all emptySeen seqs)) /\
            refines w (fst (spec_all emptySeen seqs)).
Proof. by apply check_all_refines; [apply refines_empty|]. Qed.

(** No counter is accepted twice, in any order of arrival. *)
Theorem replay_window_rejects_replays (seqs : list Z) (bs : list bool) (w : replayWindow)
    (Hseqs : Forall (fun s => 0 <= s < 2 ^ 64 - 1) seqs)
    (Hrun : check_all emptyWindow seqs = Some (w, bs)) :
  NoDup (accepted seqs bs).
Proof.
  destruct (check_all_refines emptyWindow emptySeen seqs refines_empty Hseqs) as (w' & E & _).
  rewrite Hrun in E. injection E as _ ->. apply spec_all_accepted.
Qed.

Lemma clear_loop_diverges fuel s bm : 0 <= s < 2 ^ 64 -> clear_loop fuel s (2 ^ 64 - 1) bm = None.
Proof.
  revert s bm. induction fuel as [|fuel IH]; intros s bm Hs; cbn [clear_loop];
    (destruct (Z.leb_spec s (2 ^ 64 - 1)); [|lia]); [done|]. apply IH, wrapU_range. lia.
Qed.

(** The one counter excluded above: when the highest counter is within the
    window of 2^64 - 1, the clearing loop for 2^64 - 1 never ends, since its
    index wraps to zero instead of passing the bound. *)
Theorem replay_window_last_counter_hangs (w : replayWindow) (fuel : nat)
    (Hmax : 2 ^ 64 - 1 - 2048 < maxSeq w < 2 ^ 64 - 1) :
  checkAndAdd_fuel fuel w (2 ^ 64 - 1) = None.
Proof.
  unfold checkAndAdd_fuel, replayWindowSize.
  destruct (Z.eqb_spec (2 ^ 64 - 1) 0); [lia|].
  destruct (Z.ltb_spec (maxSeq w) (2 ^ 64 - 1)); [|lia].
  destruct (Z.leb_spec 2048 (2 ^ 64 - 1 - maxSeq w)); [lia|].
  by rewrite clear_loop_diverges by (apply wrapU_range; lia).
Qed.

(** * Witnesses *)

Lemma replay_window_refines_set_witness :
  exists w, check_all emptyWindow [1; 3; 2; 3; 5000; 2; 4000; 4000] =
            Some (w, [true; true; true; false; true; false; true; false]) /\
            refines w (fst (spec_all emptySeen [1; 3; 2; 3; 5000; 2; 4000; 4000])).
Proof.
  exact (replay_window_refines_set [1; 3; 2; 3; 5000; 2; 4000; 4000]
    ltac:(repeat constructor; vm_compute; congruence)).
Defined.

Lemma replay_window_rejects_replays_witness : NoDup (accepted [1; 1; 2] [true; false; true]).
Proof.
  refine (replay_window_rejects_replays [1; 1; 2] [true; false; true]
    (mkWindow 2 (<[0%nat := 3]> (bitmap emptyWindow))) _ _).
  - repeat constructor; vm_compute; congruence.
  - vm_compute. reflexivity.
Defined.

(** A peer holding the keys reaches that state with a single record. *)
Lemma replay_window_last_counter_hangs_witness :
  exists w, checkAndAdd emptyWindow (2 ^ 64 - 2) = Some (w, true) /\
            checkAndAdd_fuel (Z.to_nat 4096) w (2 ^ 64 - 1) = None.
Proof.
  eexists. split; [vm_compute; reflexivity|].
  apply replay_window_last_counter_hangs. vm_compute. split; reflexivity.
Defined.
