(* ===== verification/Tai64n.v ===== *)
(** internal/wire/protocol_tai64n.go: TAI64N labels, and
    internal/app/tai64n_cache.go: the server's freshness check with its LRU of
    the last label per session. *)

From Stdlib Require Import ZArith Lia Strings.Byte.
From stdpp Require Import base numbers list gmap.
From S2P Require Import Prelude GoStrings GoNet GoTime.

Local Open Scope Z_scope.
Local Open Scope go_scope.

(** * Labels *)

Definition tai64Base : Z := Z.shiftl 1 62.

Definition EncodeTAI64N (t : Time) : bytes :=
  let sec := wrapU 64 (wrapU 64 (UnixSec t) + tai64Base) in
  let nanos := wrapU 32 (Nanosecond t) in
  be_put 8 sec ++ be_put 4 nanos.

Definition DecodeTAI64N (b : bytes) : res Time :=
  if negb (len b =? 12)
  then Err (Errorf "tai64n timestamp must be 12 bytes: got %d" [len b]) else
  let! hi := slice b 0 8 in
  let sec := be_get hi in
  if sec <? tai64Base then Err (Errorf "invalid tai64n seconds: must be >= 2^62" []) else
  let! lo := slice b 8 12 in
  let nanos := be_get lo in
  if 1000000000 <=? nanos
  then Err (Errorf "invalid tai64n nanoseconds: %d >= 1000000000" [nanos]) else
  let unixSec := wrapS 64 (wrapU 64 (sec - tai64Base)) in
  Ok (Unix unixSec nanos).

Definition CompareTAI64N (a b : bytes) : comparison := bytes_compare a b.

(** * The cache *)

Definition defaultTAI64NCacheCapacity : Z := 65536.

Record tai64nEntry : Type := mkEntry { e_session : bytes; e_last : bytes }.

(** [evict] lists the elements from front to back; an element is its number,
    which [items] holds as the pointer, and its value. *)
Record tai64nCache : Type := mkCache {
  c_capacity : Z;
  c_items : gmap bytes nat;
  c_evict : list (nat * tai64nEntry);
  c_fresh : nat;
  c_evictions : Z;
}.

Definition newTAI64NCache (capacity : Z) : tai64nCache :=
  mkCache (if capacity <=? 0 then defaultTAI64NCacheCapacity else capacity) ∅ [] 0 0.

(** [list.Back], [list.Remove], [list.MoveToFront] with the value updated. *)
Definition back (l : list (nat * tai64nEntry)) : option (nat * tai64nEntry) := last l.

Definition remove_elem (id : nat) (l : list (nat * tai64nEntry)) : list (nat * tai64nEntry) :=
  List.filter (fun p => negb (Nat.eqb (fst p) id)) l.

(** [elem.Value] of the element with a given number. *)
Fixpoint elem_value (id : nat) (l : list (nat * tai64nEntry)) : option tai64nEntry :=
  match l with
  | [] => None
  | (i, e) :: l' => if Nat.eqb i id then Some e else elem_value id l'
  end.

Definition evict_oldest (c : tai64nCache) : tai64nCache :=
  if c_capacity c <=? len (c_evict c) then
    match back (c_evict c) with
    | Some (id, old) =>
        mkCache (c_capacity c) (delete (e_session old) (c_items c)) (remove_elem id (c_evict c))
          (c_fresh c) (c_evictions c + 1)
    | None => c
    end
  else c.

Definition store_label (c : tai64nCache) (sKey tVal : bytes) : tai64nCache :=
  match c_items c !! sKey with
  | Some id =>
      match elem_value id (c_evict c) with
      | Some entry =>
          mkCache (c_capacity c) (c_items c)
            ((id, mkEntry (e_session entry) tVal) :: remove_elem id (c_evict c))
            (c_fresh c) (c_evictions c)
      | None => c
      end
  | None =>
      let c := evict_oldest c in
      mkCache (c_capacity c) (<[sKey := c_fresh c]> (c_items c))
        ((c_fresh c, mkEntry sKey tVal) :: c_evict c) (S (c_fresh c)) (c_evictions c)
  end.

Definition CheckAndStore (c : tai64nCache) (sessionID tai64n : bytes) (now : Time) (skew : Z)
    : tai64nCache * bool :=
  if negb (len sessionID =? 16) then (c, false) else
  match DecodeTAI64N tai64n with
  | Ok decoded =>
      if (0 <? skew) && (Before decoded (Add now (- skew)) || After decoded (Add now skew))
      then (c, false)
      else (store_label c sessionID tai64n, true)
  | _ => (c, false)
  end.

Definition Len (c : tai64nCache) : Z := Z.of_nat (size (c_items c)).

(** * Client side *)

(** [nextClientTAI64N]: the state is the last reading; [int64] addition wraps. *)
Definition nextClientTAI64N (lastNano now : Z) : Z * bytes :=
  let now := if now <=? lastNano then wrapS 64 (lastNano + 1) else now in
  (now, EncodeTAI64N (Unix 0 now)).

(** * Labels: lemmas *)

Lemma bytes_compare_be a b :
  length a = length b -> bytes_compare a b = Z.compare (be_get a) (be_get b).
Proof.
  revert b. induction a as [|x a IH]; intros [|y b] Hl; try done. injection Hl as Hl.
  cbn [bytes_compare]. rewrite !be_get_cons, (IH b Hl).
  assert (len a = len b) as El by solve_len. rewrite El.
  pose proof (be_get_range a) as Ra. pose proof (be_get_range b) as Rb. rewrite El in Ra.
  destruct (Z.compare_spec (b2z x) (b2z y)) as [->|Hlt|Hgt].
  - destruct (Z.compare_spec (be_get a) (be_get b)), (Z.compare_spec (b2z y * 256 ^ len b + be_get a)
      (b2z y * 256 ^ len b + be_get b)); try done; lia.
  - symmetry. apply Z.compare_lt_iff. nia.
  - symmetry. apply Z.compare_gt_iff. nia.
Qed.

Lemma be_get_app a b : be_get (a ++ b) = be_get a * 256 ^ len b + be_get b.
Proof.
  induction a as [|x a IH]; [done|]. cbn [app]. rewrite !be_get_cons, IH, len_app.
  rewrite Z.pow_add_r by apply len_nonneg. lia.
Qed.

(** A time the label format covers: not before 1970, within [int64]. *)
Definition label_time (t : Time) : Prop :=
  time_ok t /\ unixToInternal <= t_sec t < 2 ^ 63.

Lemma encode_label t :
  label_time t ->
  EncodeTAI64N t = be_put 8 (t_sec t - unixToInternal + 2 ^ 62) ++ be_put 4 (t_nsec t).
Proof.
  intros [Hok Hs]. unfold time_ok, EncodeTAI64N, UnixSec, Nanosecond, Second in *.
  assert (0 <= t_sec t - unixToInternal < 2 ^ 63) as Hu by (unfold unixToInternal in *; lia).
  rewrite wrapS_small by (simpl; lia). rewrite (wrapU_small 64 (t_sec t - _)) by lia.
  rewrite (wrapU_small 32) by lia.
  rewrite wrapU_small by (change tai64Base with (2 ^ 62); lia). done.
Qed.

Lemma be_get_label t :
  label_time t -> be_get (EncodeTAI64N t) = (t_sec t - unixToInternal + 2 ^ 62) * 2 ^ 32 + t_nsec t.
Proof.
  intros Hl. rewrite encode_label by done. destruct Hl as [Hok Hs].
  unfold time_ok, Second, unixToInternal in *. rewrite be_get_app, len_be_put.
  rewrite !be_get_put_small by (simpl; lia). reflexivity.
Qed.

Lemma length_label t : length (EncodeTAI64N t) = 12%nat.
Proof. unfold EncodeTAI64N. by rewrite length_app, !length_be_put. Qed.

Lemma decode_split hi lo :
  len hi = 8 -> len lo = 4 ->
  DecodeTAI64N (hi ++ lo) =
  if be_get hi <? tai64Base then Err (Errorf "invalid tai64n seconds: must be >= 2^62" []) else
  if 1000000000 <=? be_get lo
  then Err (Errorf "invalid tai64n nanoseconds: %d >= 1000000000" [be_get lo]) else
  Ok (Unix (wrapS 64 (wrapU 64 (be_get hi - tai64Base))) (be_get lo)).
Proof.
  intros H1 H2. unfold DecodeTAI64N. rewrite len_app, H1, H2. cbn [Z.add Z.eqb Pos.add Pos.eqb negb].
  pose proof (slice_app_mid [] hi lo) as S1. pose proof (slice_app_mid hi lo []) as S2.
  cbn [app] in S1. rewrite app_nil_r in S2. change (len []) with 0 in S1.
  rewrite H1 in S1. rewrite H1, H2 in S2.
  change (0 + 8) with 8 in S1. change (8 + 4) with 12 in S2.
  rewrite S1. cbn [res_bind]. destruct (be_get hi <? tai64Base); [done|].
  rewrite S2. done.
Qed.

Lemma decode_encode_label t :
  label_time t -> DecodeTAI64N (EncodeTAI64N t) = Ok (mkTime (t_sec t) (t_nsec t) None).
Proof.
  intros Hl. rewrite encode_label by done. destruct Hl as [Hok Hs].
  unfold time_ok, Second in Hok. rewrite decode_split by apply len_be_put.
  rewrite !be_get_put_small by (unfold unixToInternal in *; simpl; lia).
  change tai64Base with (2 ^ 62).
  destruct (Z.ltb_spec (t_sec t - unixToInternal + 2 ^ 62) (2 ^ 62)); [lia|].
  destruct (Z.leb_spec 1000000000 (t_nsec t)); [lia|].
  replace (t_sec t - unixToInternal + 2 ^ 62 - 2 ^ 62) with (t_sec t - unixToInternal) by lia.
  rewrite wrapU_small, wrapS_small by (unfold unixToInternal in *; simpl; lia).
  unfold Unix. rewrite Z.div_small, Z.mod_small by (unfold Second; lia).
  unfold unixToInternal in *. rewrite wrapS_small by (simpl; lia). do 2 f_equal. lia.
Qed.

(** * The cache: invariant *)

Definition entry_keys (l : list (nat * tai64nEntry)) : list (bytes * nat) :=
  map (fun p => (e_session (snd p), fst p)) l.

(** Every element is indexed by its session and by nothing else, sessions and
    element numbers are distinct, and the capacity is respected. *)
Record cache_ok (c : tai64nCache) : Prop := {
  ok_capacity : 0 < c_capacity c;
  ok_items : c_items c = list_to_map (entry_keys (c_evict c));
  ok_sessions : NoDup (map (fun p => e_session (snd p)) (c_evict c));
  ok_ids : NoDup (map fst (c_evict c));
  ok_fresh : Forall (fun i => (i < c_fresh c)%nat) (map fst (c_evict c));
  ok_len : len (c_evict c) <= c_capacity c;
}.

Lemma entry_keys_fst l : (entry_keys l).*1 = map (fun p => e_session (snd p)) l.
Proof. unfold entry_keys. induction l as [|? l IH]; [done|]. cbn. by f_equal. Qed.

Lemma remove_elem_notin id l : id ∉ map fst l -> remove_elem id l = l.
Proof.
  unfold remove_elem. induction l as [|[i e] l IH]; [done|]. cbn [map List.filter fst].
  rewrite not_elem_of_cons. intros [Hn Hl].
  destruct (Nat.eqb_spec i id); [congruence|]. cbn [negb]. by rewrite IH.
Qed.

(** Removing an element of a list with distinct numbers splits the list there. *)
Lemma remove_elem_split id e l :
  NoDup (map fst l) -> (id, e) ∈ l ->
  exists l1 l2, l = l1 ++ (id, e) :: l2 /\ remove_elem id l = l1 ++ l2.
Proof.
  intros Hd (l1 & l2 & ->)%list_elem_of_split. exists l1, l2. split; [done|].
  rewrite map_app, NoDup_app in Hd. destruct Hd as (_ & Hx & Hd%NoDup_cons).
  unfold remove_elem. rewrite List.filter_app. cbn [List.filter fst].
  rewrite Nat.eqb_refl. cbn [negb]. fold (remove_elem id l1). fold (remove_elem id l2).
  rewrite !remove_elem_notin; [done|apply Hd|].
  intros Hin. apply (Hx _ Hin). left.
Qed.

Lemma cache_lookup c s :
  cache_ok c ->
  (exists id e, c_items c !! s = Some id /\ (id, e) ∈ c_evict c /\ e_session e = s /\
     elem_value id (c_evict c) = Some e) \/
  (c_items c !! s = None /\ s ∉ map (fun p => e_session (snd p)) (c_evict c)).
Proof.
  intros [_ Hi Hs Hd _ _]. rewrite Hi. destruct (list_to_map (entry_keys (c_evict c)) !! s) as [id|] eqn:E.
  - left. apply elem_of_list_to_map_2 in E. apply list_elem_of_In, in_map_iff in E as ([i e] & [= <- <-] & Hin).
    exists i, e. apply list_elem_of_In in Hin. split_and!; [done..|].
    clear -Hin Hd. induction (c_evict c) as [|[j e'] l IH]; [by apply elem_of_nil in Hin|].
    cbn [elem_value map fst] in *. apply NoDup_cons in Hd as [Hn Hd].
    apply elem_of_cons in Hin as [[= <- <-]|Hin]; [by rewrite Nat.eqb_refl|].
    destruct (Nat.eqb_spec j i) as [->|]; [|by apply IH].
    destruct Hn. apply list_elem_of_In, (in_map fst _ (i, e)). by apply list_elem_of_In.
  - right. split; [done|]. rewrite <- entry_keys_fst. by apply not_elem_of_list_to_map_2.
Qed.

Definition entries (c : tai64nCache) : list tai64nEntry := map snd (c_evict c).

(** The recency list: the entry goes in front, its old one disappears and the
    tail beyond the capacity is forgotten. *)
Definition remember (capacity : Z) (l : list tai64nEntry) (s t : bytes) : list tai64nEntry :=
  take (Z.to_nat capacity)
    (mkEntry s t :: List.filter (fun e => negb (bool_decide (e_session e = s))) l).

Lemma filter_session_notin s (l : list (nat * tai64nEntry)) :
  s ∉ map (fun p => e_session (snd p)) l ->
  List.filter (fun e => negb (bool_decide (e_session e = s))) (map snd l) = map snd l.
Proof.
  induction l as [|[i e] l IH]; [done|]. cbn [map List.filter snd]. rewrite not_elem_of_cons.
  intros [Hn Hl]. rewrite bool_decide_eq_false_2 by congruence. cbn [negb]. by rewrite IH.
Qed.

(** Moving an element to the front. *)
Lemma store_known_ok c s t id e :
  cache_ok c -> c_items c !! s = Some id -> (id, e) ∈ c_evict c -> e_session e = s ->
  elem_value id (c_evict c) = Some e ->
  cache_ok (store_label c s t) /\ entries (store_label c s t) = remember (c_capacity c) (entries c) s t.
Proof.
  intros [H1 H2 H3 H4 H5 H6] Hi Hin Hs He. unfold store_label. rewrite Hi, He.
  destruct (remove_elem_split id e (c_evict c) H4 Hin) as (l1 & l2 & El & Er).
  assert (Permutation ((id, e) :: l1 ++ l2) (c_evict c)) as HP by (rewrite El; apply Permutation_middle).
  rewrite Er. split.
  - constructor; cbn [c_capacity c_items c_evict c_fresh].
    + done.
    + rewrite H2. symmetry. apply list_to_map_proper.
      * rewrite entry_keys_fst. cbn [map snd]. rewrite <- (Permutation_map _ HP) in H3. done.
      * unfold entry_keys. rewrite <- HP. done.
    + rewrite <- (Permutation_map _ HP) in H3. done.
    + rewrite <- (Permutation_map _ HP) in H4. done.
    + rewrite <- (Permutation_map _ HP) in H5. done.
    + apply Permutation_length in HP. unfold len in *. cbn [length] in *. lia.
  - unfold entries, remember. cbn [c_evict map snd]. rewrite Hs, El.
    rewrite El, map_app in H3. cbn [map snd] in H3. rewrite NoDup_app in H3.
    destruct H3 as (_ & Hx & [Hy _]%NoDup_cons). rewrite Hs in *.
    rewrite !map_app. cbn [map snd]. rewrite List.filter_app. cbn [List.filter].
    rewrite Hs, bool_decide_eq_true_2 by done. cbn [negb].
    rewrite !filter_session_notin; [|done|intros Hin'; apply (Hx _ Hin'); left].
    rewrite firstn_all2; [done|].
    assert (length (c_evict c) <= Z.to_nat (c_capacity c))%nat by solve_len.
    rewrite El, length_app in H. cbn [length] in *. rewrite length_app, !length_map. lia.
Qed.

Lemma back_split (l : list (nat * tai64nEntry)) p : back l = Some p -> exists l', l = l' ++ [p].
Proof. unfold back. intros [l' ->]%last_Some. eauto. Qed.

(** Evicting makes room, and keeps all but the oldest entry. *)
Lemma evict_oldest_ok c :
  cache_ok c ->
  cache_ok (evict_oldest c) /\ c_capacity (evict_oldest c) = c_capacity c /\
  len (c_evict (evict_oldest c)) < c_capacity c /\
  c_evict (evict_oldest c) = take (Z.to_nat (c_capacity c - 1)) (c_evict c).
Proof.
  intros [H1 H2 H3 H4 H5 H6]. unfold evict_oldest.
  destruct (Z.leb_spec (c_capacity c) (len (c_evict c))) as [Hfull|Hroom].
  2:{ split_and!; [by constructor|done|lia|]. rewrite firstn_all2; [done|]. solve_len. }
  destruct (back (c_evict c)) as [[id old]|] eqn:Eb.
  2:{ apply last_None in Eb. rewrite Eb in Hfull. unfold len in Hfull. cbn in Hfull. lia. }
  apply back_split in Eb as [l' El].
  destruct (remove_elem_split id old (c_evict c) H4) as (l1 & l2 & El' & Er).
  { rewrite El. apply elem_of_app. right. left. }
  assert (remove_elem id (c_evict c) = l') as Er'.
  { rewrite El. unfold remove_elem. rewrite List.filter_app. cbn [List.filter fst].
    rewrite Nat.eqb_refl. cbn [negb]. rewrite app_nil_r. apply remove_elem_notin.
    rewrite El, map_app, NoDup_app in H4. destruct H4 as (_ & Hx & _).
    intros Hin. apply (Hx _ Hin). left. }
  rewrite Er'. rewrite El in H3, H4, H5, H6, H2, Hfull. clear El' Er Er' l1 l2.
  rewrite map_app, NoDup_app in H3. rewrite map_app, NoDup_app in H4.
  rewrite map_app, Forall_app in H5. rewrite len_app in *. change (len [(id, old)]) with 1 in *.
  split_and!; cbn [c_capacity c_evict].
  - constructor; cbn [c_capacity c_items c_evict c_fresh]; [done| |apply H3|apply H4|apply H5|lia].
    rewrite H2. unfold entry_keys. rewrite map_app, list_to_map_app. cbn [map snd fst].
    destruct H3 as (_ & Hx & _). apply map_eq. intros k.
    assert ((list_to_map (map (fun p : nat * tai64nEntry => (e_session p.2, p.1)) l') : gmap bytes nat)
              !! e_session old = None) as Hn.
    { apply not_elem_of_list_to_map_1. rewrite entry_keys_fst. intros Hin. apply (Hx _ Hin). left. }
    destruct (decide (k = e_session old)) as [->|Hk]; [by rewrite lookup_delete_eq, Hn|].
    rewrite lookup_delete_ne by done. rewrite lookup_union, list_to_map_cons, list_to_map_nil.
    rewrite lookup_insert_ne, lookup_empty by done. by destruct (_ !! k).
  - done.
  - lia.
  - rewrite El. replace (Z.to_nat (c_capacity c - 1)) with (length l') by solve_len.
    by rewrite take_app_length.
Qed.

(** Storing a session that is not there. *)
Lemma store_new_ok c s t :
  cache_ok c -> c_items c !! s = None -> s ∉ map (fun p => e_session (snd p)) (c_evict c) ->
  cache_ok (store_label c s t) /\ entries (store_label c s t) = remember (c_capacity c) (entries c) s t.
Proof.
  intros Hok Hi Hn. unfold store_label. rewrite Hi.
  destruct (evict_oldest_ok c Hok) as ([H1 H2 H3 H4 H5 H6] & Ec & Hroom & Ev).
  assert (s ∉ map (fun p => e_session (snd p)) (c_evict (evict_oldest c))) as Hn'.
  { rewrite Ev. intros Hin. apply Hn. rewrite <- (take_drop (Z.to_nat (c_capacity c - 1)) (c_evict c)), map_app.
    apply elem_of_app. by left. }
  split.
  - constructor; cbn [c_capacity c_items c_evict c_fresh]; [lia| | | | |].
    + by rewrite H2.
    + constructor; done.
    + constructor; [|done]. intros Hin. rewrite Forall_forall in H5. apply H5 in Hin.
      cbn [fst] in Hin. lia.
    + constructor; [cbn; lia|]. eapply Forall_impl; [exact H5|]. intros i Hlt. cbn in Hlt |- *. lia.
    + rewrite len_cons, Ec. lia.
  - unfold entries, remember. cbn [c_evict map snd]. rewrite filter_session_notin, Ev by done.
    destruct Hok as [H1' _ _ _ _ _].
    replace (Z.to_nat (c_capacity c)) with (S (Z.to_nat (c_capacity c - 1))) by lia.
    cbn [take]. by rewrite firstn_map.
Qed.

Lemma store_label_ok c s t :
  cache_ok c ->
  cache_ok (store_label c s t) /\ entries (store_label c s t) = remember (c_capacity c) (entries c) s t.
Proof.
  intros Hok. destruct (cache_lookup c s Hok) as [(id & e & Hi & Hin & Hs & He)|[Hi Hn]].
  - by eapply store_known_ok.
  - by apply store_new_ok.
Qed.

(** * Properties *)

(** TAI64N labels.  A time from 1970 on is recovered from its label, and
    the order of the labels as bytes is the order of the times, so that labels
    can be compared without being decoded. *)
Theorem tai64n_labels (t u : Time) (Ht : label_time t) (Hu : label_time u) :
  DecodeTAI64N (EncodeTAI64N t) = Ok (mkTime (t_sec t) (t_nsec t) None) /\
  CompareTAI64N (EncodeTAI64N t) (EncodeTAI64N u) = Z.compare (wall t) (wall u).
Proof.
  split; [by apply decode_encode_label|]. unfold CompareTAI64N.
  rewrite bytes_compare_be by by rewrite !length_label.
  rewrite !be_get_label by done. destruct Ht as [Ht _], Hu as [Hu _].
  unfold time_ok, wall, Second in *.
  destruct (Z.compare_spec (t_sec t * 1000000000 + t_nsec t) (t_sec u * 1000000000 + t_nsec u)).
  - apply Z.compare_eq_iff. assert (t_sec t = t_sec u) by lia. lia.
  - apply Z.compare_lt_iff. assert (t_sec t < t_sec u \/ t_sec t = t_sec u) by lia. lia.
  - apply Z.compare_gt_iff. assert (t_sec u < t_sec t \/ t_sec t = t_sec u) by lia. lia.
Qed.

(** A label with a seconds field of 2^63 + 2^62 or more passes
    [DecodeTAI64N] and yields a time before 1970, although it compares as later
    than every label of a representable time. *)
Theorem tai64n_huge_label_is_past (t : Time) (Ht : label_time t) :
  let huge := be_put 8 (2 ^ 63 + 2 ^ 62) ++ be_put 4 0 in
  CompareTAI64N (EncodeTAI64N t) huge = Lt /\
  exists past, DecodeTAI64N huge = Ok past /\ wall past < wall t.
Proof.
  intros huge. split.
  - unfold CompareTAI64N. rewrite bytes_compare_be by by rewrite length_label.
    rewrite be_get_label by done. unfold huge. rewrite be_get_app.
    rewrite !be_get_put_small by done. rewrite len_be_put. apply Z.compare_lt_iff.
    destruct Ht as [Hok Hs]. unfold time_ok, Second, unixToInternal in *. simpl. lia.
  - eexists. split; [vm_compute; reflexivity|]. destruct Ht as [Hok Hs].
    unfold wall, time_ok, Second, unixToInternal in *. cbn [t_sec t_nsec]. lia.
Qed.

(** The server's freshness check.  [CheckAndStore] accepts exactly the
    well-formed labels of 16-byte sessions that are within the skew of the clock
    on either side (any when the skew is not positive); an accepted label enters
    the recency list, which holds at most the capacity's number of sessions and
    forgets the least recent ones first, and a rejected one changes nothing. *)
Theorem freshness_cache_correct (c : tai64nCache) (s tai : bytes) (now : Time) (skew : Z)
    (Hok : cache_ok c) :
  let '(c', ok) := CheckAndStore c s tai now skew in
  (ok = true <->
     len s = 16 /\ exists t, DecodeTAI64N tai = Ok t /\
       (skew <= 0 \/ (Before t (Add now (- skew)) = false /\ After t (Add now skew) = false))) /\
  cache_ok c' /\
  (if ok then entries c' = remember (c_capacity c) (entries c) s tai else c' = c).
Proof.
  unfold CheckAndStore. destruct (Z.eqb_spec (len s) 16) as [Hl|Hl]; cbn [negb].
  2:{ split_and!; [|done|done]. split; [done|]. by intros [? _]. }
  destruct (DecodeTAI64N tai) as [t|e|] eqn:Ed.
  2,3: split_and!; [|done|done]; split; [done|by intros (_ & t & ? & _)].
  destruct (store_label_ok c s tai Hok) as [Hok' He].
  destruct (Z.ltb_spec 0 skew); cbn [andb].
  - destruct (Before t (Add now (- skew)) || After t (Add now skew)) eqn:E;
      (split_and!; [|done|done]).
    + split; [done|]. intros (_ & t' & [= <-] & [?|[E1 E2]]); [lia|]. by rewrite E1, E2 in E.
    + split; [|done]. intros _. apply orb_false_iff in E. eauto.
  - split_and!; [|done|done]. split; [|done]. intros _. split; [done|]. exists t. split; [done|]. by left.
Qed.

(** The labels a client sends are strictly increasing, whatever its clock
    reads (stalled or set back), as long as the readings stay within [int64]. *)
Theorem client_labels_increase (lastNano now : Z)
    (Hlast : 0 <= lastNano < 2 ^ 63 - 1) (Hnow : 0 <= now < 2 ^ 63) :
  let '(last', label) := nextClientTAI64N lastNano now in
  lastNano < last' /\ now <= last' /\
  CompareTAI64N (EncodeTAI64N (Unix 0 lastNano)) label = Lt.
Proof.
  unfold nextClientTAI64N. set (n := if now <=? lastNano then wrapS 64 (lastNano + 1) else now).
  assert (lastNano < n < 2 ^ 63 /\ now <= n) as [Hn Hle].
  { unfold n. destruct (Z.leb_spec now lastNano); [|lia]. rewrite wrapS_small by (simpl; lia). lia. }
  split_and!; [lia|done|].
  assert (forall x, 0 <= x < 2 ^ 63 -> label_time (Unix 0 x) /\ wall (Unix 0 x) = x + unixToInternal * Second) as Hx.
  { intros x Hx. assert (0 <= x / Second <= 2 ^ 62) as Hd.
    { unfold Second. split; [apply Z.div_pos; lia|].
      transitivity (2 ^ 63 / 1000000000); [apply Z.div_le_mono; lia|vm_compute; congruence]. }
    split; [split; [apply Unix_ok|]|].
    - unfold Unix. cbn [t_sec]. unfold unixToInternal in *. rewrite wrapS_small by (simpl; lia). lia.
    - rewrite wall_Unix by (unfold unixToInternal; lia). lia. }
  destruct (Hx lastNano) as [L1 W1]; [lia|]. destruct (Hx n) as [L2 W2]; [lia|].
  unfold CompareTAI64N. rewrite bytes_compare_be by by rewrite !length_label.
  rewrite !be_get_label by done. unfold wall, time_ok, label_time, Second in *.
  apply Z.compare_lt_iff. destruct L1 as [O1 _], L2 as [O2 _]. unfold time_ok, Second in *.
  assert (t_sec (Unix 0 lastNano) < t_sec (Unix 0 n) \/ t_sec (Unix 0 lastNano) = t_sec (Unix 0 n)) by lia.
  lia.
Qed.

(** * Witnesses *)

Definition t2023 : Time := now_at (1700000000 * Second) 5.

Lemma t2023_label : label_time t2023.
Proof. split; [apply now_at_ok|]. vm_compute. intuition congruence. Qed.

Lemma tai64n_labels_witness :
  DecodeTAI64N (EncodeTAI64N t2023) = Ok (mkTime (t_sec t2023) (t_nsec t2023) None) /\
  CompareTAI64N (EncodeTAI64N t2023) (EncodeTAI64N (Add t2023 1)) = Lt.
Proof.
  apply (tai64n_labels t2023 (Add t2023 1) t2023_label).
  split; [apply Add_ok|]. vm_compute. intuition congruence.
Defined.

Lemma tai64n_huge_label_is_past_witness :
  CompareTAI64N (EncodeTAI64N t2023) (be_put 8 (2 ^ 63 + 2 ^ 62) ++ be_put 4 0) = Lt.
Proof. apply (tai64n_huge_label_is_past t2023 t2023_label). Defined.

Lemma newTAI64NCache_ok n : cache_ok (newTAI64NCache n).
Proof.
  unfold newTAI64NCache, defaultTAI64NCacheCapacity.
  constructor; cbn [c_capacity c_items c_evict c_fresh]; try constructor;
    destruct (Z.leb_spec n 0); try done; unfold len; cbn; lia.
Qed.

Lemma freshness_cache_correct_witness :
  let '(c', ok) := CheckAndStore (newTAI64NCache 2) (replicate 16 (z2b 1)) (EncodeTAI64N t2023)
                     (Add t2023 Second) (60 * Second) in
  (ok = true <->
     len (replicate 16 (z2b 1)) = 16 /\ exists t, DecodeTAI64N (EncodeTAI64N t2023) = Ok t /\
       (60 * Second <= 0 \/ (Before t (Add (Add t2023 Second) (- (60 * Second))) = false /\
                             After t (Add (Add t2023 Second) (60 * Second)) = false))) /\
  cache_ok c' /\
  (if ok then entries c' = remember 2 [] (replicate 16 (z2b 1)) (EncodeTAI64N t2023)
   else c' = newTAI64NCache 2).
Proof.
  exact (freshness_cache_correct (newTAI64NCache 2) (replicate 16 (z2b 1)) (EncodeTAI64N t2023)
    (Add t2023 Second) (60 * Second) (newTAI64NCache_ok 2)).
Defined.

Lemma client_labels_increase_witness :
  let '(last', label) := nextClientTAI64N 1700000000000000007 1700000000000000000 in
  1700000000000000007 < last' /\ 1700000000000000000 <= last' /\
  CompareTAI64N (EncodeTAI64N (Unix 0 1700000000000000007)) label = Lt.
Proof. apply client_labels_increase; vm_compute; intuition congruence. Defined.
