(* ===== verification/CipherStream.v ===== *)
(** internal/wire/cipher_stream.go: the encrypted stream.  Records with a
    counter, a rekeyed AEAD, random padding, coalesced writes, and the reader
    with its replay window. *)

From Stdlib Require Import ZArith Lia Strings.Byte.
From stdpp Require Import base numbers list gmap sets.
From S2P Require Import Prelude GoStrings GoNet NetAddr GoTime Crypto Wire WireV2 WireV3 ReplayWindow.

Local Open Scope Z_scope.
Local Open Scope go_scope.

(** * Constants and state *)

Definition defaultRekeyInterval : Z := Z.shiftl 1 32.
Definition maxV3RecordPayload : Z := 1400.
Definition coalesceFlushThreshold : Z := 1024.
Definition v3RecordHeaderSize : Z := 12.
Definition v3PlainLenSize : Z := 2.
Definition maxV3RecordPlaintext : Z := maxV3RecordPayload - v3PlainLenSize.
Definition MaxUint64 : Z := 2 ^ 64 - 1.

(** What does not change after construction. *)
Record streamConfig : Type := mkConfig {
  s_keys : V3SessionKeys;
  s_cipherID : byte;
  s_streamID : Z;
  s_RekeyInterval : Z;
  s_PadRecords : bool;
  s_CoalesceDelay : Z;
}.

(** The fields under [writeMu]; an AEAD is its key. *)
Record writeState : Type := mkWriteState {
  writeCounter : Z;
  writeC2S : bool;
  writeNoncePrefix : bytes;
  writeAEAD : option bytes;
  writeGen : Z;
  coalesceBuf : bytes;
  coalesceTimer : bool;
  closed : bool;
}.

(** The fields under [readMu]. *)
Record readState : Type := mkReadState {
  readC2S : bool;
  readNoncePrefix : bytes;
  readAEAD : option bytes;
  readGen : Z;
  readWindow : replayWindow;
  readPlainBuf : bytes;
}.

Record V3CipherStream : Type := mkStream {
  st_config : streamConfig;
  st_write : writeState;
  st_read : readState;
}.

Definition set_writeCounter (s : writeState) (x : Z) : writeState :=
  mkWriteState x (writeC2S s) (writeNoncePrefix s) (writeAEAD s) (writeGen s) (coalesceBuf s)
    (coalesceTimer s) (closed s).
Definition set_writeAEAD (s : writeState) (key : bytes) (gen : Z) : writeState :=
  mkWriteState (writeCounter s) (writeC2S s) (writeNoncePrefix s) (Some key) gen (coalesceBuf s)
    (coalesceTimer s) (closed s).
Definition set_coalesceBuf (s : writeState) (b : bytes) : writeState :=
  mkWriteState (writeCounter s) (writeC2S s) (writeNoncePrefix s) (writeAEAD s) (writeGen s) b
    (coalesceTimer s) (closed s).
Definition set_coalesceTimer (s : writeState) (b : bool) : writeState :=
  mkWriteState (writeCounter s) (writeC2S s) (writeNoncePrefix s) (writeAEAD s) (writeGen s)
    (coalesceBuf s) b (closed s).
Definition set_closed (s : writeState) : writeState :=
  mkWriteState (writeCounter s) (writeC2S s) (writeNoncePrefix s) (writeAEAD s) (writeGen s)
    (coalesceBuf s) (coalesceTimer s) true.

Section Stream.
Context `{C : Crypto} `{R : Rand}.

Definition newAEAD (cipherID : byte) (key : bytes) : res unit :=
  if b2z cipherID =? ProtocolCipherChaCha20Poly1305 then chacha20poly1305_new key else
  if (b2z cipherID =? ProtocolCipherAES256GCM) || (b2z cipherID =? ProtocolCipherAES128GCM)
  then aes_new key
  else Err (Errorf "unsupported cipher: %d" [b2z cipherID]).

Definition sampleRecordPadLen (record maxPad : Z) : Z :=
  if maxPad <=? 0 then 0 else
  match rand_int record (maxPad + 1) with
  | Some n => n
  | None => 0
  end.

Definition NewV3CipherStream (keys : V3SessionKeys) (cipherID : byte) (streamID : Z)
    (clientSide : bool) : res V3CipherStream :=
  if negb (isSupportedCipherV3 cipherID)
  then Err (Errorf "unsupported cipher: %d" [b2z cipherID]) else
  if negb (len (sk_c2s_nonce_prefix keys) =? 4) || negb (len (sk_s2c_nonce_prefix keys) =? 4)
  then Err (Errorf "invalid nonce prefix in session keys" []) else
  let cfg := mkConfig keys cipherID streamID defaultRekeyInterval true 0 in
  Ok (if clientSide
      then mkStream cfg (mkWriteState 0 true (sk_c2s_nonce_prefix keys) None 0 [] false false)
             (mkReadState false (sk_s2c_nonce_prefix keys) None 0 emptyWindow [])
      else mkStream cfg (mkWriteState 0 false (sk_s2c_nonce_prefix keys) None 0 [] false false)
             (mkReadState true (sk_c2s_nonce_prefix keys) None 0 emptyWindow [])).

Definition rekey_interval (cfg : streamConfig) : Z :=
  if s_RekeyInterval cfg =? 0 then defaultRekeyInterval else s_RekeyInterval cfg.

(** The key of a generation, kept while the generation does not change. *)
Definition aead_for (cfg : streamConfig) (c2s : bool) (aead : option bytes) (current gen : Z)
    : res bytes :=
  match aead with
  | Some key =>
      if gen =? current then Ok key else
      let! key := StreamKey (s_keys cfg) (s_cipherID cfg) c2s (s_streamID cfg) gen in
      let! _ := newAEAD (s_cipherID cfg) key in Ok key
  | None =>
      let! key := StreamKey (s_keys cfg) (s_cipherID cfg) c2s (s_streamID cfg) gen in
      let! _ := newAEAD (s_cipherID cfg) key in Ok key
  end.

(** counter (8) | payload length (2) | reserved (2). *)
Definition record_header (counter payloadLen : Z) : bytes :=
  be_put 8 counter ++ be_put 2 payloadLen ++ be_put 2 0.

(** [copy(nonce[0:4], prefix)], then the counter. *)
Definition record_nonce (prefix : bytes) (counter : Z) : bytes :=
  take 4 (prefix ++ replicate 4 Byte.x00) ++ be_put 8 counter.

Definition pad_bytes (record : Z) (n : nat) : bytes :=
  match rand_read record n with Some b => b | None => replicate n Byte.x00 end.

Section Writer.
Context {W : Type} `{HWr : Writer W}.

(** The state is the write side of the stream and the writer under it. *)
Definition writeRecordLocked (cfg : streamConfig) (plain : bytes) : io (writeState * W) unit :=
  fun '(s, w) =>
    let plainLen := len plain in
    if plainLen =? 0 then ((s, w), Ok tt) else
    if maxV3RecordPlaintext <? plainLen
    then ((s, w), Err (Errorf "plaintext length %d exceeds maximum record plaintext %d"
                         [plainLen; maxV3RecordPlaintext])) else
    if writeCounter s =? MaxUint64
    then ((s, w), Err (Errorf "write counter overflow" [])) else
    let counter := writeCounter s + 1 in
    let s := set_writeCounter s counter in
    let gen := (counter - 1) / rekey_interval cfg in
    match aead_for cfg (writeC2S s) (writeAEAD s) (writeGen s) gen with
    | Err e => ((s, w), Err e)
    | Panic => ((s, w), Panic)
    | Ok key =>
        let s := set_writeAEAD s key gen in
        let padLen := if s_PadRecords cfg
                      then sampleRecordPadLen counter (maxV3RecordPayload - v3PlainLenSize - plainLen)
                      else 0 in
        let payloadLen := v3PlainLenSize + plainLen + padLen in
        let header := record_header counter payloadLen in
        let payload := be_put 2 plainLen ++ plain
                       ++ (if 0 <? padLen then pad_bytes counter (Z.to_nat padLen) else []) in
        let sealed := aead_seal (s_cipherID cfg) key (record_nonce (writeNoncePrefix s) counter)
                        payload header in
        let '(w', _, err) := w_write w (header ++ sealed) in
        ((s, w'), match err with None => Ok tt | Some e => Err e end)
    end.

(** Every round of a chunk loop consumes a byte at least. *)
Fixpoint flush_loop (fuel : nat) (cfg : streamConfig) : io (writeState * W) unit :=
  fun '(s, w) =>
    if 0 <? len (coalesceBuf s) then
      match fuel with
      | O => ((s, w), Panic)
      | S fuel' =>
          let chunkSize := Z.min (len (coalesceBuf s)) maxV3RecordPlaintext in
          match writeRecordLocked cfg (take (Z.to_nat chunkSize) (coalesceBuf s)) (s, w) with
          | ((s, w), Ok _) =>
              flush_loop fuel' cfg
                (set_coalesceBuf s (drop (Z.to_nat chunkSize) (coalesceBuf s)), w)
          | ((s, w), Err e) => ((s, w), Err e)
          | ((s, w), Panic) => ((s, w), Panic)
          end
      end
    else ((s, w), Ok tt).

Definition flushCoalesceBufLocked (cfg : streamConfig) : io (writeState * W) unit :=
  fun '(s, w) => flush_loop (length (coalesceBuf s)) cfg (s, w).

(** The timer of [time.AfterFunc] fires. *)
Definition onCoalesceTimer (cfg : streamConfig) : io (writeState * W) unit :=
  fun '(s, w) =>
    if closed s || (len (coalesceBuf s) =? 0) then ((set_coalesceTimer s false, w), Ok tt) else
    let '((s, w), _) := flushCoalesceBufLocked cfg (s, w) in
    ((set_coalesceTimer s false, w), Ok tt).

(** The loop of the direct branch of [Write]; its result is the pair Go returns. *)
Fixpoint write_chunks (fuel : nat) (cfg : streamConfig) (p : bytes) (total : Z)
    : io (writeState * W) (Z * option error) :=
  fun '(s, w) =>
    if 0 <? len p then
      match fuel with
      | O => ((s, w), Panic)
      | S fuel' =>
          let chunkSize := Z.min (len p) maxV3RecordPlaintext in
          match writeRecordLocked cfg (take (Z.to_nat chunkSize) p) (s, w) with
          | ((s, w), Ok _) =>
              write_chunks fuel' cfg (drop (Z.to_nat chunkSize) p) (total + chunkSize) (s, w)
          | ((s, w), Err e) => ((s, w), Ok (total, Some e))
          | ((s, w), Panic) => ((s, w), Panic)
          end
      end
    else ((s, w), Ok (total, None)).

(** The loop of the coalescing branch: full records while the threshold is reached. *)
Fixpoint coalesce_loop (fuel : nat) (cfg : streamConfig) : io (writeState * W) unit :=
  fun '(s, w) =>
    if coalesceFlushThreshold <=? len (coalesceBuf s) then
      match fuel with
      | O => ((s, w), Panic)
      | S fuel' =>
          let chunkSize := Z.min (len (coalesceBuf s)) maxV3RecordPlaintext in
          match writeRecordLocked cfg (take (Z.to_nat chunkSize) (coalesceBuf s)) (s, w) with
          | ((s, w), Ok _) =>
              coalesce_loop fuel' cfg
                (set_coalesceBuf s (drop (Z.to_nat chunkSize) (coalesceBuf s)), w)
          | ((s, w), Err e) => ((s, w), Err e)
          | ((s, w), Panic) => ((s, w), Panic)
          end
      end
    else ((s, w), Ok tt).

Definition stream_Write (cfg : streamConfig) (p : bytes) : io (writeState * W) (Z * option error) :=
  fun '(s, w) =>
    if len p =? 0 then ((s, w), Ok (0, None)) else
    if closed s then ((s, w), Ok (0, Some ErrClosedPipe)) else
    if s_CoalesceDelay cfg <=? 0 then
      match (if 0 <? len (coalesceBuf s) then flushCoalesceBufLocked cfg (s, w) else ((s, w), Ok tt)) with
      | ((s, w), Ok _) => write_chunks (length p) cfg p 0 (s, w)
      | ((s, w), Err e) => ((s, w), Ok (0, Some e))
      | ((s, w), Panic) => ((s, w), Panic)
      end
    else
      let s := set_coalesceBuf s (coalesceBuf s ++ p) in
      let totalWritten := len p in
      match coalesce_loop (length (coalesceBuf s)) cfg (s, w) with
      | ((s, w), Ok _) =>
          let s := if len (coalesceBuf s) =? 0
                   then (if coalesceTimer s then set_coalesceTimer s false else s)
                   else (if coalesceTimer s then s else set_coalesceTimer s true) in
          ((s, w), Ok (totalWritten, None))
      | ((s, w), Err e) => ((s, w), Ok (0, Some e))
      | ((s, w), Panic) => ((s, w), Panic)
      end.

(** The stream's part of [Close]; closing the inner stream is the caller's. *)
Definition stream_Close (cfg : streamConfig) : io (writeState * W) unit :=
  fun '(s, w) =>
    let s := if coalesceTimer s then set_coalesceTimer s false else s in
    let '((s, w), _) :=
      if 0 <? len (coalesceBuf s) then flushCoalesceBufLocked cfg (s, w) else ((s, w), Ok tt) in
    ((set_closed s, w), Ok tt).

End Writer.

Definition set_readAEAD (r : readState) (key : bytes) (gen : Z) : readState :=
  mkReadState (readC2S r) (readNoncePrefix r) (Some key) gen (readWindow r) (readPlainBuf r).
Definition set_readWindow (r : readState) (w : replayWindow) : readState :=
  mkReadState (readC2S r) (readNoncePrefix r) (readAEAD r) (readGen r) w (readPlainBuf r).
Definition set_readPlainBuf (r : readState) (b : bytes) : readState :=
  mkReadState (readC2S r) (readNoncePrefix r) (readAEAD r) (readGen r) (readWindow r) b.

(** [Read] into a buffer of [n] bytes: the bytes copied.  The state is the read
    side of the stream and what is left of the inner stream.  A replay check that
    never ends ([None]) is a [Panic] here: the call returns nothing. *)
Definition stream_Read (cfg : streamConfig) (n : Z) : io (readState * bytes) bytes :=
  fun '(r, input) =>
    if n =? 0 then ((r, input), Ok []) else
    if 0 <? len (readPlainBuf r) then
      ((set_readPlainBuf r (drop (Z.to_nat n) (readPlainBuf r)), input),
       Ok (take (Z.to_nat n) (readPlainBuf r)))
    else
    match ReadFull 12 input with
    | (input, Err e) => ((r, input), Err e)
    | (input, Panic) => ((r, input), Panic)
    | (input, Ok head) =>
        let counter := be_get (take 8 head) in
        let payloadLen := u16_at head 8 in
        if counter <? 1
        then ((r, input), Err (Errorf "invalid record counter: %d" [counter])) else
        if payloadLen <? v3PlainLenSize + 1
        then ((r, input), Err (Errorf "invalid record payload length: %d" [payloadLen])) else
        if maxV3RecordPayload <? payloadLen
        then ((r, input), Err (Errorf "record payload length %d exceeds maximum %d"
                                 [payloadLen; maxV3RecordPayload])) else
        let gen := (counter - 1) / rekey_interval cfg in
        match aead_for cfg (readC2S r) (readAEAD r) (readGen r) gen with
        | Err e => ((r, input), Err e)
        | Panic => ((r, input), Panic)
        | Ok key =>
            let r := set_readAEAD r key gen in
            match ReadFull (Z.to_nat (payloadLen + 16)) input with
            | (input, Err e) => ((r, input), Err e)
            | (input, Panic) => ((r, input), Panic)
            | (input, Ok ciphertext) =>
                match aead_open (s_cipherID cfg) key (record_nonce (readNoncePrefix r) counter)
                        ciphertext head with
                | None => ((r, input), Err (Errorf "record decryption failed: %w" []))
                | Some decrypted =>
                    if negb (len decrypted =? payloadLen)
                    then ((r, input), Err (Errorf "decrypted length mismatch: got %d, want %d"
                                             [len decrypted; payloadLen])) else
                    match checkAndAdd (readWindow r) counter with
                    | None => ((r, input), Panic)
                    | Some (_, false) =>
                        ((r, input), Err (Errorf "record counter rejected (replay or out of window): %d"
                                            [counter]))
                    | Some (win, true) =>
                        let r := set_readWindow r win in
                        let plainLen := u16_at decrypted 0 in
                        if (plainLen <? 1) || (payloadLen <? v3PlainLenSize + plainLen)
                        then ((r, input), Err (Errorf "invalid inner plaintext length: %d (payload %d)"
                                                 [plainLen; payloadLen])) else
                        let plain := take (Z.to_nat plainLen) (drop 2 decrypted) in
                        ((set_readPlainBuf r (drop (Z.to_nat n) plain), input),
                         Ok (take (Z.to_nat n) plain))
                    end
                end
            end
        end
    end.

End Stream.

(** * Records *)

Section Records.
Context `{C : Crypto} `{COk : !CryptoOk}.

(** Configurations the constructor accepts. *)
Definition config_ok (cfg : streamConfig) : Prop :=
  isSupportedCipherV3 (s_cipherID cfg) = true /\ len (sk_seed (s_keys cfg)) = 32 /\
  0 <= s_RekeyInterval cfg.

Definition key_at (cfg : streamConfig) (c2s : bool) (gen : Z) : bytes :=
  match StreamKey (s_keys cfg) (s_cipherID cfg) c2s (s_streamID cfg) gen with
  | Ok k => k
  | _ => []
  end.

Definition record (cfg : streamConfig) (c2s : bool) (prefix : bytes) (counter : Z)
    (plain pad : bytes) : bytes :=
  let header := record_header counter (2 + len plain + len pad) in
  header ++ aead_seal (s_cipherID cfg) (key_at cfg c2s ((counter - 1) / rekey_interval cfg))
              (record_nonce prefix counter) (be_put 2 (len plain) ++ plain ++ pad) header.

(** A sequence of records with consecutive counters, from the one after [c] to
    [c'], and the plaintext they carry. *)
Inductive emits (cfg : streamConfig) (c2s : bool) (prefix : bytes)
    : Z -> Z -> bytes -> bytes -> Prop :=
  | emits_nil c : emits cfg c2s prefix c c [] []
  | emits_cons c c' plain pad out rest :
      1 <= len plain -> 2 + len plain + len pad <= 1400 ->
      emits cfg c2s prefix (c + 1) c' out rest ->
      emits cfg c2s prefix c c' (record cfg c2s prefix (c + 1) plain pad ++ out) (plain ++ rest).

Lemma emits_one cfg c2s prefix c plain pad :
  1 <= len plain -> 2 + len plain + len pad <= 1400 ->
  emits cfg c2s prefix c (c + 1) (record cfg c2s prefix (c + 1) plain pad) plain.
Proof.
  intros H1 H2. pose proof (emits_cons cfg c2s prefix c (c + 1) plain pad [] [] H1 H2 (emits_nil _ _ _ _)) as H.
  by rewrite !app_nil_r in H.
Qed.

Lemma emits_trans cfg c2s prefix c1 c2 c3 o1 o2 p1 p2 :
  emits cfg c2s prefix c1 c2 o1 p1 -> emits cfg c2s prefix c2 c3 o2 p2 ->
  emits cfg c2s prefix c1 c3 (o1 ++ o2) (p1 ++ p2).
Proof.
  intros H1 H2. induction H1; [done|]. rewrite <- !app_assoc. constructor; auto.
Qed.

Lemma emits_le cfg c2s prefix c c' out plain :
  emits cfg c2s prefix c c' out plain -> c <= c' <= c + len plain.
Proof.
  induction 1 as [c|c c' plain pad out rest H1 H2 _ IH]; [unfold len; cbn; lia|]. rewrite len_app. lia.
Qed.

Lemma supported_cases id :
  isSupportedCipherV3 id = true -> b2z id = 1 \/ b2z id = 2 \/ b2z id = 3.
Proof.
  unfold isSupportedCipherV3, ProtocolCipherChaCha20Poly1305, ProtocolCipherAES256GCM,
    ProtocolCipherAES128GCM. lia.
Qed.

(** With a good configuration every generation has a usable key. *)
Lemma key_at_ok cfg c2s gen :
  config_ok cfg ->
  StreamKey (s_keys cfg) (s_cipherID cfg) c2s (s_streamID cfg) gen = Ok (key_at cfg c2s gen) /\
  newAEAD (s_cipherID cfg) (key_at cfg c2s gen) = Ok tt.
Proof.
  intros (Hs & Hl & _). unfold key_at, StreamKey, newAEAD, V3CipherKeyLen. rewrite Hl.
  unfold ProtocolCipherChaCha20Poly1305, ProtocolCipherAES256GCM, ProtocolCipherAES128GCM.
  cbn [Z.eqb Pos.eqb negb].
  destruct (supported_cases _ Hs) as [E|[E|E]]; rewrite E; cbn [Z.eqb Pos.eqb Z.leb Z.compare orb];
    match goal with
    | |- context [hkdf_expand ?p ?i ?n] =>
        destruct (hkdf_expand_ok p i n) as (k & -> & Lk); [lia|]
    end; (split; [done|]).
  - apply chacha20poly1305_ok. solve_len.
  - apply aes_ok. solve_len.
  - apply aes_ok. solve_len.
Qed.

(** A cached AEAD is the one of its generation. *)
Definition aead_ok (cfg : streamConfig) (c2s : bool) (aead : option bytes) (gen : Z) : Prop :=
  forall k, aead = Some k -> k = key_at cfg c2s gen.

Lemma aead_for_ok cfg c2s aead current gen :
  config_ok cfg -> aead_ok cfg c2s aead current ->
  aead_for cfg c2s aead current gen = Ok (key_at cfg c2s gen).
Proof.
  intros Hc Ha. destruct (key_at_ok cfg c2s gen Hc) as [H1 H2]. unfold aead_for.
  destruct aead as [k|]; [destruct (Z.eqb_spec gen current) as [->|]|];
    [by rewrite (Ha k)|rewrite H1; cbn [res_bind]; by rewrite H2..].
Qed.

Lemma aead_ok_refl cfg c2s gen : aead_ok cfg c2s (Some (key_at cfg c2s gen)) gen.
Proof. by intros k [= <-]. Qed.

End Records.

(** * The writer *)

Section WriterProofs.
Context `{C : Crypto} `{COk : !CryptoOk} `{R : Rand} `{ROk : !RandOk}.
Context {W : Type} {HWr : Writer W} {HOk : WriterOk W}.

Lemma sampleRecordPadLen_range i m : 0 <= sampleRecordPadLen i m <= Z.max 0 m.
Proof.
  unfold sampleRecordPadLen. destruct (Z.leb_spec m 0); [lia|].
  destruct (rand_int i (m + 1)) eqn:E; [|lia]. apply rand_int_ok in E. lia.
Qed.

Lemma length_pad_bytes i n : length (pad_bytes i n) = n.
Proof.
  unfold pad_bytes. destruct (rand_read i n) eqn:E; [by eapply rand_read_ok|apply length_replicate].
Qed.

(** The padding of a record, whatever the source returned. *)
Definition record_pad (cfg : streamConfig) (counter plainLen : Z) : bytes :=
  let padLen := if s_PadRecords cfg
                then sampleRecordPadLen counter (maxV3RecordPayload - v3PlainLenSize - plainLen) else 0 in
  if 0 <? padLen then pad_bytes counter (Z.to_nat padLen) else [].

Lemma len_record_pad cfg counter n :
  n <= 1398 ->
  len (record_pad cfg counter n) =
    (if s_PadRecords cfg
     then sampleRecordPadLen counter (maxV3RecordPayload - v3PlainLenSize - n) else 0) /\
  2 + n + len (record_pad cfg counter n) <= 1400.
Proof.
  intros Hn. unfold record_pad.
  pose proof (sampleRecordPadLen_range counter (maxV3RecordPayload - v3PlainLenSize - n)) as Hr.
  unfold maxV3RecordPayload, v3PlainLenSize in *.
  destruct (s_PadRecords cfg); [|by split; [|unfold len; cbn; lia]].
  destruct (Z.ltb_spec 0 (sampleRecordPadLen counter (1400 - 2 - n))); unfold len.
  - rewrite length_pad_bytes. lia.
  - cbn [length]. lia.
Qed.

Definition write_ok (cfg : streamConfig) (s : writeState) : Prop :=
  0 <= writeCounter s <= MaxUint64 /\ aead_ok cfg (writeC2S s) (writeAEAD s) (writeGen s).

(** From [s] to [s'], records carrying [plain] were appended to the inner stream. *)
Definition wrote (cfg : streamConfig) (s : writeState) (w : W) (s' : writeState) (w' : W)
    (plain : bytes) : Prop :=
  write_ok cfg s' /\ writeC2S s' = writeC2S s /\ writeNoncePrefix s' = writeNoncePrefix s /\
  exists out, sink w' = sink w ++ out /\
    emits cfg (writeC2S s) (writeNoncePrefix s) (writeCounter s) (writeCounter s') out plain.

Lemma wrote_nil cfg s w s' :
  write_ok cfg s' -> writeC2S s' = writeC2S s -> writeNoncePrefix s' = writeNoncePrefix s ->
  writeCounter s' = writeCounter s -> wrote cfg s w s' w [].
Proof.
  intros H1 H2 H3 H4. unfold wrote. split_and!; [done..|]. exists []. rewrite app_nil_r, H4.
  split; [done|constructor].
Qed.

Lemma wrote_trans cfg s1 w1 s2 w2 s3 w3 p q :
  wrote cfg s1 w1 s2 w2 p -> wrote cfg s2 w2 s3 w3 q -> wrote cfg s1 w1 s3 w3 (p ++ q).
Proof.
  intros (_ & Ha & Hb & o1 & E1 & H1) (Hok & Hc & Hd & o2 & E2 & H2). unfold wrote.
  split_and!; [done|congruence..|]. exists (o1 ++ o2). rewrite E2, E1, app_assoc. split; [done|].
  rewrite Ha, Hb in H2. by eapply emits_trans.
Qed.

(** Two write sides with the same buffer, timer and closed flag. *)
Definition same_buffer (s s' : writeState) : Prop :=
  coalesceBuf s' = coalesceBuf s /\ coalesceTimer s' = coalesceTimer s /\ closed s' = closed s.

(** The call of the inner writer, once the record is sealed. *)
Lemma writeRecord_eq cfg plain s (w : W) :
  config_ok cfg -> write_ok cfg s -> 1 <= len plain <= 1398 -> writeCounter s <> MaxUint64 ->
  let c := writeCounter s + 1 in
  let gen := (c - 1) / rekey_interval cfg in
  writeRecordLocked cfg plain (s, w) =
  let '(w', _, err) := w_write w (record cfg (writeC2S s) (writeNoncePrefix s) c plain
                                    (record_pad cfg c (len plain))) in
  ((set_writeAEAD (set_writeCounter s c) (key_at cfg (writeC2S s) gen) gen, w'),
   match err with None => Ok tt | Some e => Err e end).
Proof.
  intros Hc [Hn Ha] Hl Hm c gen. unfold writeRecordLocked.
  destruct (Z.eqb_spec (len plain) 0); [lia|].
  destruct (Z.ltb_spec maxV3RecordPlaintext (len plain)).
  { unfold maxV3RecordPlaintext, maxV3RecordPayload, v3PlainLenSize in *. lia. }
  destruct (Z.eqb_spec (writeCounter s) MaxUint64); [done|]. fold c. fold gen.
  cbn [set_writeCounter writeC2S writeAEAD writeGen writeNoncePrefix].
  rewrite (aead_for_ok cfg _ _ _ gen Hc Ha).
  unfold record. fold c. fold gen. cbn [set_writeAEAD writeNoncePrefix].
  destruct (len_record_pad cfg c (len plain)) as [Ep _]; [lia|].
  fold (record_pad cfg c (len plain)). rewrite <- Ep. done.
Qed.

Lemma write_whole (w w' : W) b n e :
  w_write w b = (w', n, e) -> e = None -> sink w' = sink w ++ b.
Proof.
  intros Hw He. destruct (w_write_ok w b w' n e Hw) as (Hn & Hs & Hx).
  destruct (Nat.lt_ge_cases n (length b)) as [Hlt|]; [by destruct (Hx Hlt)|].
  rewrite Hs, firstn_all2 by lia. done.
Qed.

Lemma writeRecord_ok cfg plain s w s' w' :
  config_ok cfg -> write_ok cfg s -> 1 <= len plain <= 1398 ->
  writeRecordLocked cfg plain (s, w) = ((s', w'), Ok tt) ->
  wrote cfg s w s' w' plain /\ same_buffer s s'.
Proof.
  intros Hc Hw Hl Hr. destruct (Z.eq_dec (writeCounter s) MaxUint64) as [Em|Nm].
  { exfalso. revert Hr. unfold writeRecordLocked.
    destruct (Z.eqb_spec (len plain) 0); [lia|].
    destruct (maxV3RecordPlaintext <? len plain); [done|].
    by destruct (Z.eqb_spec (writeCounter s) MaxUint64). }
  rewrite writeRecord_eq in Hr by done.
  destruct (w_write w _) as [[w1 n] [e|]] eqn:Ew; simplify_eq/=.
  pose proof Hw as [Hn _]. split; [|done]. unfold wrote. split_and!; try done.
  - split; [unfold MaxUint64 in *; cbn; lia|apply aead_ok_refl].
  - eexists. split; [by eapply write_whole|].
    apply emits_one; [lia|]. apply len_record_pad. lia.
Qed.

(** A chunk of at most a record's size, and what is left. *)
Lemma chunk_split (b : bytes) :
  0 < len b ->
  let n := Z.to_nat (Z.min (len b) maxV3RecordPlaintext) in
  1 <= len (take n b) <= 1398 /\ b = take n b ++ drop n b /\ (length (drop n b) < length b)%nat.
Proof.
  intros Hb n. unfold maxV3RecordPlaintext, maxV3RecordPayload, v3PlainLenSize in *.
  split_and!; [..|by rewrite take_drop|]; unfold n; solve_len.
Qed.

Lemma flush_loop_ok fuel cfg s w s' w' :
  config_ok cfg -> write_ok cfg s ->
  flush_loop fuel cfg (s, w) = ((s', w'), Ok tt) ->
  wrote cfg s w s' w' (coalesceBuf s) /\ coalesceBuf s' = [] /\
  coalesceTimer s' = coalesceTimer s /\ closed s' = closed s.
Proof.
  intros Hc. revert s w. induction fuel as [|fuel IH]; intros s w Hw Hr; cbn [flush_loop] in Hr;
    (destruct (Z.ltb_spec 0 (len (coalesceBuf s))) as [Hp|Hz];
       [|simplify_eq; assert (coalesceBuf s' = []) as -> by (destruct (coalesceBuf s'); [done|solve_len]);
         split_and!; [by apply wrote_nil|done..]]); [done|].
  destruct (chunk_split (coalesceBuf s) Hp) as (Hl & Eb & _).
  set (n := Z.to_nat (Z.min (len (coalesceBuf s)) maxV3RecordPlaintext)) in *.
  destruct (writeRecordLocked cfg _ (s, w)) as [[s1 w1] [[]| |]] eqn:Er; [|done..].
  apply writeRecord_ok in Er as [Hwr (E1 & E2 & E3)]; [|done..].
  apply IH in Hr as (Hwr2 & E4 & E5 & E6).
  - cbn [set_coalesceBuf coalesceBuf coalesceTimer closed] in *. split_and!; [|done|congruence..].
    rewrite Eb. rewrite E1 in Hwr2. eapply wrote_trans; [exact Hwr|]. exact Hwr2.
  - destruct Hwr as (Hok & _). exact Hok.
Qed.

Lemma write_chunks_ok fuel cfg p total s w s' w' n :
  config_ok cfg -> write_ok cfg s ->
  write_chunks fuel cfg p total (s, w) = ((s', w'), Ok (n, None)) ->
  wrote cfg s w s' w' p /\ same_buffer s s' /\ n = total + len p.
Proof.
  intros Hc. revert p total s w. induction fuel as [|fuel IH]; intros p total s w Hw Hr;
    cbn [write_chunks] in Hr;
    (destruct (Z.ltb_spec 0 (len p)) as [Hp|Hz];
       [|simplify_eq; assert (p = []) as -> by (destruct p; [done|solve_len]);
         split_and!; [by apply wrote_nil|done|unfold len; cbn; lia]]); [done|].
  destruct (chunk_split p Hp) as (Hl & Eb & _).
  set (k := Z.min (len p) maxV3RecordPlaintext) in *.
  destruct (writeRecordLocked cfg _ (s, w)) as [[s1 w1] [[]| |]] eqn:Er; [|done..].
  apply writeRecord_ok in Er as [Hwr (E1 & E2 & E3)]; [|done..].
  apply IH in Hr as (Hwr2 & (E4 & E5 & E6) & ->); [|apply Hwr]. split_and!.
  - rewrite Eb. by eapply wrote_trans.
  - unfold same_buffer. split_and!; congruence.
  - assert (len p = k + len (drop (Z.to_nat k) p)); [|lia].
    rewrite Eb at 1. rewrite len_app. f_equal.
    unfold k, maxV3RecordPlaintext, maxV3RecordPayload, v3PlainLenSize in *. solve_len.
Qed.

Lemma coalesce_loop_ok fuel cfg s w s' w' :
  config_ok cfg -> write_ok cfg s ->
  coalesce_loop fuel cfg (s, w) = ((s', w'), Ok tt) ->
  exists q, wrote cfg s w s' w' q /\ coalesceBuf s = q ++ coalesceBuf s' /\
    len (coalesceBuf s') < coalesceFlushThreshold /\
    coalesceTimer s' = coalesceTimer s /\ closed s' = closed s.
Proof.
  intros Hc. revert s w. induction fuel as [|fuel IH]; intros s w Hw Hr; cbn [coalesce_loop] in Hr;
    (destruct (Z.leb_spec coalesceFlushThreshold (len (coalesceBuf s))) as [Hp|Hz];
       [|simplify_eq; exists []; split_and!; [by apply wrote_nil|done..]]); [done|].
  destruct (chunk_split (coalesceBuf s)) as (Hl & Eb & _); [unfold coalesceFlushThreshold in Hp; lia|].
  set (n := Z.to_nat (Z.min (len (coalesceBuf s)) maxV3RecordPlaintext)) in *.
  destruct (writeRecordLocked cfg _ (s, w)) as [[s1 w1] [[]| |]] eqn:Er; [|done..].
  apply writeRecord_ok in Er as [Hwr (E1 & E2 & E3)]; [|done..].
  apply IH in Hr as (q & Hwr2 & E4 & E5 & E6 & E7).
  - cbn [set_coalesceBuf coalesceBuf coalesceTimer closed] in *. exists (take n (coalesceBuf s) ++ q).
    split_and!; [by eapply wrote_trans| |done|congruence..].
    rewrite Eb at 1. rewrite <- app_assoc. f_equal. congruence.
  - destruct Hwr as (Hok & _). exact Hok.
Qed.

(** A write that reports success: all of [p] is accounted for, and what was
    buffered or written before goes out first. *)
Lemma stream_Write_ok cfg p s w s' w' n :
  config_ok cfg -> write_ok cfg s ->
  stream_Write cfg p (s, w) = ((s', w'), Ok (n, None)) ->
  n = len p /\ closed s' = closed s /\
  exists q, wrote cfg s w s' w' q /\ coalesceBuf s ++ p = q ++ coalesceBuf s' /\
    (p <> [] -> s_CoalesceDelay cfg <= 0 -> coalesceBuf s' = []) /\
    (p <> [] -> 0 < s_CoalesceDelay cfg -> len (coalesceBuf s') < coalesceFlushThreshold /\
       coalesceTimer s' = negb (is_empty (coalesceBuf s'))).
Proof.
  intros Hc Hw. unfold stream_Write. destruct (Z.eqb_spec (len p) 0) as [Ep|Np].
  { intros [= <- <- <-]. assert (p = []) as -> by (destruct p; [done|solve_len]).
    split_and!; [done..|]. exists []. split_and!; [by apply wrote_nil|by rewrite app_nil_r|done..]. }
  destruct (closed s) eqn:Ecl; [done|]. destruct (Z.leb_spec (s_CoalesceDelay cfg) 0) as [Hd|Hd].
  - destruct (0 <? len (coalesceBuf s)) eqn:E0.
    + unfold flushCoalesceBufLocked. destruct (flush_loop _ cfg (s, w)) as [[s1 w1] [[]| |]] eqn:Ef; [|done..].
      apply flush_loop_ok in Ef as (Hwr & E1 & E2 & E3); [|done..].
      intros (Hwr2 & (E4 & E5 & E6) & ->)%write_chunks_ok; [|done|apply Hwr].
      split_and!; [done|congruence|]. exists (coalesceBuf s ++ p).
      split_and!; [by eapply wrote_trans|by rewrite E4, E1, app_nil_r|congruence|lia].
    + assert (coalesceBuf s = []) as En by (destruct (coalesceBuf s); [done|cbn in E0; done]).
      intros (Hwr & (E4 & E5 & E6) & ->)%write_chunks_ok; [|done..].
      split_and!; [done|congruence|]. exists p.
      split_and!; [done|by rewrite E4, En, app_nil_r|congruence|lia].
  - destruct (coalesce_loop _ cfg _) as [[s1 w1] [[]| |]] eqn:El; [|done..].
    apply coalesce_loop_ok in El as (q & Hwr & E1 & E2 & E3 & E4); [|done..].
    cbn [set_coalesceBuf coalesceBuf coalesceTimer closed] in *.
    intros [= <- <- <-]. split_and!; [done|destruct (_ =? 0), (coalesceTimer s1); cbn; congruence|].
    exists q. assert (forall b, coalesceBuf (set_coalesceTimer s1 b) = coalesceBuf s1) as Hb by done.
    destruct (Z.eqb_spec (len (coalesceBuf s1)) 0) as [Ez|Nz], (coalesceTimer s1) eqn:Et;
      (split_and!; [exact Hwr|rewrite ?Hb; exact E1|lia|intros; split; [done|]]);
      cbn [set_coalesceTimer coalesceTimer coalesceBuf]; rewrite ?Et;
      destruct (coalesceBuf s1); try done; solve_len.
Qed.

(** * Progress over a writer that accepts everything *)

Lemma writeRecord_total cfg plain s w :
  reliable (W := W) -> config_ok cfg -> write_ok cfg s -> 1 <= len plain <= 1398 ->
  writeCounter s < MaxUint64 ->
  exists s' w', writeRecordLocked cfg plain (s, w) = ((s', w'), Ok tt) /\
    writeCounter s' = writeCounter s + 1.
Proof.
  intros Hr Hc Hw Hl Hm. rewrite writeRecord_eq by (done || lia).
  destruct (Hr w (record cfg (writeC2S s) (writeNoncePrefix s) (writeCounter s + 1) plain
    (record_pad cfg (writeCounter s + 1) (len plain)))) as [w' ->]. by eexists _, w'.
Qed.

Lemma len_chunk (p : bytes) :
  0 < len p -> len (drop (Z.to_nat (Z.min (len p) maxV3RecordPlaintext)) p) + 1 <= len p.
Proof. intros H. destruct (chunk_split p H) as (_ & _ & Hl). unfold len in *. lia. Qed.

Lemma flush_loop_total fuel cfg s w :
  reliable (W := W) -> config_ok cfg -> write_ok cfg s ->
  (length (coalesceBuf s) <= fuel)%nat -> writeCounter s + len (coalesceBuf s) <= MaxUint64 ->
  exists s' w', flush_loop fuel cfg (s, w) = ((s', w'), Ok tt).
Proof.
  intros Hrel Hc. revert s w. induction fuel as [|fuel IH]; intros s w Hw Hf Hm; cbn [flush_loop];
    (destruct (Z.ltb_spec 0 (len (coalesceBuf s))) as [Hp|Hz]; [|by eauto]); [solve_len|].
  destruct (chunk_split (coalesceBuf s) Hp) as (Hl & _ & Hlt). pose proof (len_chunk _ Hp).
  destruct (writeRecord_total cfg _ s w Hrel Hc Hw Hl) as (s1 & w1 & Er & Ec); [lia|]. rewrite Er.
  apply writeRecord_ok in Er as [(Hok & _) (E1 & _)]; [|done..].
  apply IH; cbn [set_coalesceBuf coalesceBuf writeCounter]; rewrite ?E1; [exact Hok|lia|lia].
Qed.

Lemma write_chunks_total fuel cfg p total s w :
  reliable (W := W) -> config_ok cfg -> write_ok cfg s ->
  (length p <= fuel)%nat -> writeCounter s + len p <= MaxUint64 ->
  exists s' w' n, write_chunks fuel cfg p total (s, w) = ((s', w'), Ok (n, None)).
Proof.
  intros Hrel Hc. revert p total s w. induction fuel as [|fuel IH]; intros p total s w Hw Hf Hm;
    cbn [write_chunks]; (destruct (Z.ltb_spec 0 (len p)) as [Hp|Hz]; [|by eauto]); [solve_len|].
  destruct (chunk_split p Hp) as (Hl & _ & Hlt). pose proof (len_chunk _ Hp).
  destruct (writeRecord_total cfg _ s w Hrel Hc Hw Hl) as (s1 & w1 & Er & Ec); [lia|]. rewrite Er.
  apply writeRecord_ok in Er as [(Hok & _) _]; [|done..]. apply IH; [done|lia|lia].
Qed.

Lemma coalesce_loop_total fuel cfg s w :
  reliable (W := W) -> config_ok cfg -> write_ok cfg s ->
  (length (coalesceBuf s) <= fuel)%nat -> writeCounter s + len (coalesceBuf s) <= MaxUint64 ->
  exists s' w', coalesce_loop fuel cfg (s, w) = ((s', w'), Ok tt).
Proof.
  intros Hrel Hc. revert s w. induction fuel as [|fuel IH]; intros s w Hw Hf Hm; cbn [coalesce_loop];
    (destruct (Z.leb_spec coalesceFlushThreshold (len (coalesceBuf s))) as [Hp|Hz]; [|by eauto]);
    unfold coalesceFlushThreshold in Hp; [solve_len|].
  assert (0 < len (coalesceBuf s)) as Hp' by lia.
  destruct (chunk_split (coalesceBuf s) Hp') as (Hl & _ & Hlt). pose proof (len_chunk _ Hp').
  destruct (writeRecord_total cfg _ s w Hrel Hc Hw Hl) as (s1 & w1 & Er & Ec); [lia|]. rewrite Er.
  apply writeRecord_ok in Er as [(Hok & _) (E1 & _)]; [|done..].
  apply IH; cbn [set_coalesceBuf coalesceBuf writeCounter]; rewrite ?E1; [exact Hok|lia|lia].
Qed.

Lemma stream_Write_total cfg p s w :
  reliable (W := W) -> config_ok cfg -> write_ok cfg s -> closed s = false ->
  writeCounter s + len (coalesceBuf s) + len p <= MaxUint64 ->
  exists s' w' n, stream_Write cfg p (s, w) = ((s', w'), Ok (n, None)).
Proof.
  intros Hrel Hc Hw Hcl Hm. unfold stream_Write. rewrite Hcl.
  destruct (len p =? 0); [by eauto|].
  pose proof (len_nonneg (coalesceBuf s)). pose proof (len_nonneg p).
  destruct (s_CoalesceDelay cfg <=? 0).
  - destruct (0 <? len (coalesceBuf s)).
    + unfold flushCoalesceBufLocked.
      destruct (flush_loop_total (length (coalesceBuf s)) cfg s w) as (s1 & w1 & Ef); [done..|lia|].
      rewrite Ef. apply flush_loop_ok in Ef as ((Hok & _ & _ & o & _ & He) & _); [|done..].
      apply emits_le in He. apply write_chunks_total; auto. lia.
    + apply write_chunks_total; auto. lia.
  - destruct (coalesce_loop_total (length (coalesceBuf (set_coalesceBuf s (coalesceBuf s ++ p)))) cfg
      (set_coalesceBuf s (coalesceBuf s ++ p)) w) as (s1 & w1 & El); try done.
    { cbn [set_coalesceBuf writeCounter coalesceBuf]. rewrite len_app. lia. }
    rewrite El. eauto.
Qed.

End WriterProofs.

(** * The reader *)

Section ReaderProofs.
Context `{C : Crypto} `{COk : !CryptoOk} `{R : Rand}.

(** The read side of a stream that has accepted the counters of [a]. *)
Definition reader_ok (cfg : streamConfig) (c2s : bool) (prefix : bytes) (r : readState)
    (a : seen_set) : Prop :=
  readC2S r = c2s /\ readNoncePrefix r = prefix /\
  aead_ok cfg c2s (readAEAD r) (readGen r) /\ refines (readWindow r) a.

Lemma record_header_fields counter pl :
  0 <= counter < 2 ^ 64 -> 0 <= pl < 65536 ->
  length (record_header counter pl) = 12%nat /\
  be_get (take 8 (record_header counter pl)) = counter /\ u16_at (record_header counter pl) 8 = pl.
Proof.
  intros Hc Hp. unfold record_header. split_and!.
  - done.
  - rewrite take_app_length' by by rewrite length_be_put. by apply be_get_put_small.
  - unfold u16_at. rewrite drop_app_length' by by rewrite length_be_put.
    rewrite take_app_length' by by rewrite length_be_put. by apply be_get_put_small.
Qed.

(** The next counter in order is fresh. *)
Lemma next_counter w a :
  refines w a -> 0 <= top a -> top a + 1 < 2 ^ 64 - 1 ->
  exists w' a', checkAndAdd w (top a + 1) = Some (w', true) /\ refines w' a' /\ top a' = top a + 1.
Proof.
  intros HR H0 H1. destruct (checkAndAdd_refines w a (top a + 1) HR) as (w' & Hc & HR'); [lia|].
  destruct HR as (_ & _ & _ & _ & Hs). unfold spec_add in *.
  assert (fresh a (top a + 1) = true) as Hf.
  { unfold fresh, replayWindowSize. rewrite bool_decide_eq_true_2 by (intros Hin%Hs; lia). lia. }
  rewrite Hf in *. cbn [fst snd] in *. exists w'. eexists. split_and!; [done|exact HR'|cbn; lia].
Qed.

Lemma read_buffered cfg n r input :
  n <> 0 -> 0 < len (readPlainBuf r) ->
  stream_Read cfg n (r, input) =
    ((set_readPlainBuf r (drop (Z.to_nat n) (readPlainBuf r)), input),
     Ok (take (Z.to_nat n) (readPlainBuf r))).
Proof.
  intros Hn Hb. unfold stream_Read. destruct (Z.eqb_spec n 0); [done|].
  by destruct (Z.ltb_spec 0 (len (readPlainBuf r))); [|lia].
Qed.

(** The record after the last one is decrypted and delivered. *)
Lemma read_record cfg c2s prefix r a n plain pad rest :
  config_ok cfg -> reader_ok cfg c2s prefix r a -> 0 <= top a -> top a + 1 < 2 ^ 64 - 1 ->
  readPlainBuf r = [] -> n <> 0 -> 1 <= len plain -> 2 + len plain + len pad <= 1400 ->
  exists r' a',
    stream_Read cfg n (r, record cfg c2s prefix (top a + 1) plain pad ++ rest) =
      ((r', rest), Ok (take (Z.to_nat n) plain)) /\
    reader_ok cfg c2s prefix r' a' /\ top a' = top a + 1 /\
    readPlainBuf r' = drop (Z.to_nat n) plain.
Proof.
  intros Hc (E1 & E2 & Ha & HR) H0 H1 Hb Hn Hl1 Hl2.
  pose proof (len_nonneg pad).
  destruct (record_header_fields (top a + 1) (2 + len plain + len pad)) as (L & Ec & Ep); [lia..|].
  unfold stream_Read. destruct (Z.eqb_spec n 0); [done|]. rewrite Hb. cbn [len length Z.of_nat Z.ltb Z.compare].
  unfold record. rewrite <- app_assoc, ReadFull_app by done. rewrite Ec, Ep.
  destruct (Z.ltb_spec (top a + 1) 1); [lia|].
  unfold v3PlainLenSize, maxV3RecordPayload.
  destruct (Z.ltb_spec (2 + len plain + len pad) (2 + 1)); [lia|].
  destruct (Z.ltb_spec 1400 (2 + len plain + len pad)); [lia|].
  rewrite E1, (aead_for_ok cfg c2s _ _ _ Hc Ha).
  cbn [set_readAEAD readNoncePrefix readWindow readC2S]. rewrite E2.
  rewrite ReadFull_app.
  2:{ pose proof (len_aead_seal (s_cipherID cfg) (key_at cfg c2s ((top a + 1 - 1) / rekey_interval cfg))
        (record_nonce prefix (top a + 1)) (be_put 2 (len plain) ++ plain ++ pad)
        (record_header (top a + 1) (2 + len plain + len pad))) as Hs.
      rewrite !len_app, len_be_put in Hs. unfold len in *. lia. }
  rewrite aead_open_seal. rewrite !len_app, len_be_put.
  replace (Z.of_nat 2 + (len plain + len pad)) with (2 + len plain + len pad) by lia.
  rewrite Z.eqb_refl. cbn [negb].
  destruct (next_counter (readWindow r) a HR H0 H1) as (w' & a' & Hck & HR' & Ht). rewrite Hck.
  assert (u16_at (be_put 2 (len plain) ++ plain ++ pad) 0 = len plain) as Eu.
  { unfold u16_at. rewrite drop_0, take_app_length' by by rewrite length_be_put. apply u16_put. lia. }
  rewrite Eu. destruct (Z.ltb_spec (len plain) 1); [lia|].
  destruct (Z.ltb_spec (2 + len plain + len pad) (2 + len plain)); [lia|]. cbn [orb].
  rewrite drop_app_length' by by rewrite length_be_put.
  replace (Z.to_nat (len plain)) with (length plain) by solve_len. rewrite take_app_length.
  eexists _, a'. split; [reflexivity|].
  unfold reader_ok. split_and!; try done. apply aead_ok_refl.
Qed.

(** Reading to the end of the stream with a buffer of [n] bytes. *)
Fixpoint drain (fuel : nat) (cfg : streamConfig) (n : Z) (st : readState * bytes)
    : (readState * bytes) * res bytes :=
  match fuel with
  | O => (st, Panic)
  | S fuel' =>
      match stream_Read cfg n st with
      | (st', Ok b) =>
          match drain fuel' cfg n st' with
          | (st'', Ok rest) => (st'', Ok (b ++ rest))
          | other => other
          end
      | (st', Err EOF) => (st', Ok [])
      | (st', Err e) => (st', Err e)
      | (st', Panic) => (st', Panic)
      end
  end.

Lemma read_eof cfg n r : n <> 0 -> readPlainBuf r = [] -> stream_Read cfg n (r, []) = ((r, []), Err EOF).
Proof. intros Hn Hb. unfold stream_Read. rewrite Hb. by destruct (Z.eqb_spec n 0). Qed.

(** Draining a sequence of records delivers what is buffered and then their
    plaintext, whatever the size of the read buffer. *)
Lemma drain_emits k cfg c2s prefix n r a c' out plain fuel :
  config_ok cfg -> 0 < n -> c' < 2 ^ 64 - 1 ->
  reader_ok cfg c2s prefix r a -> emits cfg c2s prefix (top a) c' out plain ->
  k = (length (readPlainBuf r) + length plain)%nat -> (k < fuel)%nat ->
  exists r', drain fuel cfg n (r, out) = ((r', []), Ok (readPlainBuf r ++ plain)).
Proof.
  intros Hc Hn Hc'. revert r a out plain fuel.
  induction k as [k IH] using lt_wf_ind; intros r a out plain fuel Hr He Hk Hf.
  destruct fuel as [|fuel]; [lia|]. cbn [drain].
  destruct (decide (readPlainBuf r = [])) as [E|N].
  - inversion He as [|c1 c2 pl pad out1 rest H1 H2 He1]; subst.
    + rewrite read_eof by (done || lia). rewrite E. eauto.
    + assert (0 <= top a) as H0 by (destruct Hr as (_ & _ & _ & _ & ? & _); lia). pose proof (emits_le _ _ _ _ _ _ _ He1).
      destruct (read_record cfg c2s prefix r a n pl pad out1) as (r' & a' & -> & Hr' & Ht & Eb);
        [done|done|done|lia|done|lia|done|done|].
      rewrite <- Ht in He1. rewrite length_app in *.
      destruct (IH (length (readPlainBuf r') + length rest)%nat) with (fuel := fuel) (r := r') (a := a')
        (out := out1) (plain := rest) as [r'' Hd]; auto.
      * rewrite Eb, E, length_drop in *. unfold len in H1. cbn [length]. lia.
      * rewrite Eb, E, length_drop in *. unfold len in H1. cbn [length] in Hf. lia.
      * rewrite Hd. exists r''. rewrite Eb, E. cbn [app].
        by rewrite app_assoc, take_drop.
  - assert (0 < len (readPlainBuf r)) as Hpos by (destruct (readPlainBuf r); [done|solve_len]).
    rewrite read_buffered by (done || lia).
    set (r1 := set_readPlainBuf r (drop (Z.to_nat n) (readPlainBuf r))).
    destruct (IH (length (readPlainBuf r1) + length plain)%nat) with (fuel := fuel) (r := r1) (a := a)
        (out := out) (plain := plain) as [r'' Hd]; auto.
    + unfold r1; cbn [set_readPlainBuf readPlainBuf]. rewrite length_drop. unfold len in Hpos. lia.
    + unfold r1; cbn [set_readPlainBuf readPlainBuf]. rewrite length_drop. unfold len in Hpos. lia.
    + rewrite Hd. exists r''. unfold r1; cbn [set_readPlainBuf readPlainBuf].
      by rewrite app_assoc, take_drop.
Qed.

End ReaderProofs.

(** * A stream end to end *)

(** What happens to the write side: calls of [Write] and firings of the timer. *)
Inductive write_op : Type := OpWrite (p : bytes) | OpTimer.

Definition written (ops : list write_op) : bytes :=
  concat (map (fun o => match o with OpWrite p => p | OpTimer => [] end) ops).

Section Session.
Context `{C : Crypto} `{COk : !CryptoOk} `{R : Rand} `{ROk : !RandOk}.
Context {W : Type} {HWr : Writer W} {HOk : WriterOk W}.

Fixpoint run_ops (cfg : streamConfig) (ops : list write_op) : io (writeState * W) unit :=
  match ops with
  | [] => io_ret tt
  | OpWrite p :: ops' =>
      fun st =>
        match stream_Write cfg p st with
        | (st', Ok (_, None)) => run_ops cfg ops' st'
        | (st', Ok (_, Some e)) => (st', Err e)
        | (st', Err e) => (st', Err e)
        | (st', Panic) => (st', Panic)
        end
  | OpTimer :: ops' => onCoalesceTimer cfg ;! run_ops cfg ops'
  end.

Lemma onCoalesceTimer_ok cfg s w :
  reliable (W := W) -> config_ok cfg -> write_ok cfg s -> closed s = false ->
  writeCounter s + len (coalesceBuf s) <= MaxUint64 ->
  exists s' w', onCoalesceTimer cfg (s, w) = ((s', w'), Ok tt) /\
    wrote cfg s w s' w' (coalesceBuf s) /\ coalesceBuf s' = [] /\ closed s' = false.
Proof.
  intros Hrel Hc Hw Hcl Hm. unfold onCoalesceTimer. rewrite Hcl. cbn [orb].
  destruct (Z.eqb_spec (len (coalesceBuf s)) 0) as [E|N].
  - assert (coalesceBuf s = []) as -> by (destruct (coalesceBuf s); [done|solve_len]).
    eexists _, w. split_and!; [done|by apply wrote_nil| |done].
    cbn. destruct (coalesceBuf s); [done|solve_len].
  - unfold flushCoalesceBufLocked.
    destruct (flush_loop_total (length (coalesceBuf s)) cfg s w) as (s1 & w1 & Ef); [done..|].
    rewrite Ef. apply flush_loop_ok in Ef as (Hwr & E1 & E2 & E3); [|done..].
    eexists _, w1. split_and!; [done|exact Hwr|done|cbn; congruence].
Qed.

Lemma wrote_counter cfg s (w : W) s' w' q :
  wrote cfg s w s' w' q -> writeCounter s' <= writeCounter s + len q.
Proof. intros (_ & _ & _ & o & _ & He). apply emits_le in He. lia. Qed.

Lemma run_ops_ok cfg ops s w :
  reliable (W := W) -> config_ok cfg -> write_ok cfg s -> closed s = false ->
  writeCounter s + len (coalesceBuf s) + len (written ops) <= MaxUint64 ->
  exists s' w' q, run_ops cfg ops (s, w) = ((s', w'), Ok tt) /\
    wrote cfg s w s' w' q /\ coalesceBuf s ++ written ops = q ++ coalesceBuf s' /\ closed s' = false /\
    writeCounter s' + len (coalesceBuf s') <= MaxUint64.
Proof.
  intros Hrel Hc. revert s w. induction ops as [|[p|] ops IH]; intros s w Hw Hcl Hm.
  - exists s, w, []. change (len (written [])) with 0 in Hm. change (written []) with (@nil byte).
    rewrite app_nil_r.
    split_and!; [done|by apply wrote_nil|done..|lia].
  - cbn [run_ops]. unfold written in *. cbn [map concat] in *. fold (written ops) in *.
    rewrite len_app in Hm. pose proof (len_nonneg (written ops)).
    destruct (stream_Write_total cfg p s w) as (s1 & w1 & n & Ew); [done..|lia|]. rewrite Ew.
    apply stream_Write_ok in Ew as (_ & Ecl & q & Hwr & Eq & _); [|done..].
    pose proof (wrote_counter _ _ _ _ _ _ Hwr) as Hct.
    apply (f_equal len) in Eq as El. rewrite !len_app in El.
    destruct (IH s1 w1) as (s2 & w2 & q2 & E2 & Hwr2 & Eq2 & Hcl2 & Hm2);
      [apply Hwr|congruence|lia|].
    exists s2, w2, (q ++ q2). split_and!; [done|by eapply wrote_trans| |done|done].
    rewrite app_assoc, Eq, <- !app_assoc, Eq2. done.
  - cbn [run_ops]. unfold io_bind.
    destruct (onCoalesceTimer_ok cfg s w) as (s1 & w1 & -> & Hwr & Eb & Hcl1); [done..| |].
    { pose proof (len_nonneg (written (OpTimer :: ops))). lia. }
    pose proof (wrote_counter _ _ _ _ _ _ Hwr) as Hct. change (written (OpTimer :: ops)) with (written ops) in *.
    destruct (IH s1 w1) as (s2 & w2 & q2 & E2 & Hwr2 & Eq2 & Hcl2 & Hm2); [apply Hwr|done| |].
    { rewrite Eb. change (len (@nil byte)) with 0. lia. }
    exists s2, w2, (coalesceBuf s ++ q2). split_and!; [done|by eapply wrote_trans| |done|done].
    rewrite <- app_assoc, <- Eq2, Eb. done.
Qed.

Lemma stream_Close_ok cfg s w :
  reliable (W := W) -> config_ok cfg -> write_ok cfg s ->
  writeCounter s + len (coalesceBuf s) <= MaxUint64 ->
  exists s' w', stream_Close cfg (s, w) = ((s', w'), Ok tt) /\
    wrote cfg s w s' w' (coalesceBuf s) /\ coalesceBuf s' = [] /\ closed s' = true /\
    coalesceTimer s' = false.
Proof.
  intros Hrel Hc Hw Hm. unfold stream_Close.
  set (s0 := if coalesceTimer s then set_coalesceTimer s false else s).
  assert (coalesceBuf s0 = coalesceBuf s /\ coalesceTimer s0 = false /\ writeCounter s0 = writeCounter s /\
          writeC2S s0 = writeC2S s /\ writeNoncePrefix s0 = writeNoncePrefix s /\ write_ok cfg s0)
    as (E1 & E2 & E3 & E4 & E5 & Hw0) by (unfold s0; by destruct (coalesceTimer s) eqn:?).
  destruct (Z.ltb_spec 0 (len (coalesceBuf s0))) as [Hp|Hz].
  - unfold flushCoalesceBufLocked.
    destruct (flush_loop_total (length (coalesceBuf s0)) cfg s0 w) as (s1 & w1 & Ef); [done..|rewrite E1, E3; lia|].
    rewrite Ef. apply flush_loop_ok in Ef as (Hwr & F1 & F2 & F3); [|done..].
    eexists _, w1. split_and!; [done| |done|done|cbn; congruence].
    destruct Hwr as (G1 & G2 & G3 & o & G4 & G5). unfold wrote. split_and!; [exact G1|cbn; congruence..|].
    exists o. split; [done|]. rewrite E1, E3, E4, E5 in G5. exact G5.
  - assert (coalesceBuf s = []) as En by (rewrite <- E1; destruct (coalesceBuf s0); [done|solve_len]).
    eexists _, w. rewrite En. split_and!; [done|by apply wrote_nil|by cbn; rewrite E1|done|done].
Qed.

(** Options a caller may set after construction. *)
Definition with_options (cfg : streamConfig) (rekey : Z) (pad : bool) (delay : Z) : streamConfig :=
  mkConfig (s_keys cfg) (s_cipherID cfg) (s_streamID cfg) rekey pad delay.

(** The options that matter to the reader. *)
Lemma emits_options cfg cfg' c2s prefix c c' out plain :
  s_keys cfg = s_keys cfg' -> s_cipherID cfg = s_cipherID cfg' -> s_streamID cfg = s_streamID cfg' ->
  s_RekeyInterval cfg = s_RekeyInterval cfg' ->
  emits cfg c2s prefix c c' out plain -> emits cfg' c2s prefix c c' out plain.
Proof.
  intros E1 E2 E3 E4. induction 1 as [|c c' pl pad out rest H1 H2 _ IH]; [constructor|].
  assert (record cfg c2s prefix (c + 1) pl pad = record cfg' c2s prefix (c + 1) pl pad) as ->.
  { unfold record, key_at, rekey_interval. by rewrite E1, E2, E3, E4. }
  by constructor.
Qed.

(** The write side of a new stream and the read side of its peer. *)
Definition new_writer (c2s : bool) (prefix : bytes) : writeState := mkWriteState 0 c2s prefix None 0 [] false false.
Definition new_reader (c2s : bool) (prefix : bytes) : readState := mkReadState c2s prefix None 0 emptyWindow [].

(** What one end writes is what the other reads, for two configurations that
    differ only in padding and coalescing. *)
Lemma written_is_read cfg cfg' c2s prefix ops (w : W) n fuel :
  config_ok cfg -> config_ok cfg' ->
  s_keys cfg = s_keys cfg' -> s_cipherID cfg = s_cipherID cfg' -> s_streamID cfg = s_streamID cfg' ->
  s_RekeyInterval cfg = s_RekeyInterval cfg' ->
  reliable (W := W) -> len (written ops) < MaxUint64 -> 0 < n -> (length (written ops) < fuel)%nat ->
  exists s w' out,
    (run_ops cfg ops ;! stream_Close cfg) (new_writer c2s prefix, w) = ((s, w'), Ok tt) /\
    sink w' = sink w ++ out /\
    exists r, drain fuel cfg' n (new_reader c2s prefix, out) = ((r, []), Ok (written ops)).
Proof.
  intros Hc Hc' E1 E2 E3 E4 Hrel Hsize Hn Hfuel.
  destruct (run_ops_ok cfg ops (new_writer c2s prefix) w) as (s1 & w1 & q & Er & Hwr & Eq & Hcl & Hm);
    [done|done|split; [done|by intros k]|done| |].
  { cbn [new_writer writeCounter coalesceBuf]. change (len (@nil byte)) with 0. lia. }
  destruct (stream_Close_ok cfg s1 w1) as (s2 & w2 & Ecl & Hwr2 & _); [done|done|apply Hwr|done|].
  pose proof (wrote_trans _ _ _ _ _ _ _ _ _ Hwr Hwr2) as (_ & _ & _ & out & Eo & He).
  cbn [new_writer coalesceBuf app] in Eq. rewrite <- Eq in He. cbn [new_writer writeC2S writeNoncePrefix writeCounter] in He.
  exists s2, w2, out. unfold io_bind. rewrite Er. split_and!; [done..|].
  pose proof (emits_le _ _ _ _ _ _ _ He). unfold MaxUint64 in *.
  apply (drain_emits (length (written ops)) cfg' c2s prefix n (new_reader c2s prefix) emptySeen (writeCounter s2) out (written ops) fuel Hc' Hn);
    try done; [lia| |].
  - unfold reader_ok. split_and!; [done..|by intros k|apply refines_empty].
  - by eapply emits_options; [..|exact He].
Qed.

(** C3: the encrypted stream is reliable end to end.  Two ends built from the
    same session keys, with any rekey interval, padding and coalescing delay:
    over an inner stream that accepts its writes, every sequence of writes and
    timer firings followed by [Close] succeeds, and the peer that reads the
    bytes produced, with read buffers of any size, gets exactly the bytes
    written, in order, and then the end of the stream. *)
Theorem encrypted_stream_delivers (keys : V3SessionKeys) (cipher : byte) (sid : Z) (side : bool)
    (a b : V3CipherStream) (rekey : Z) (pad pad' : bool) (delay delay' : Z)
    (ops : list write_op) (w : W) (n : Z) (fuel : nat)
    (Ha : NewV3CipherStream keys cipher sid side = Ok a)
    (Hb : NewV3CipherStream keys cipher sid (negb side) = Ok b)
    (Hseed : len (sk_seed keys) = 32) (Hrekey : 0 <= rekey)
    (Hrel : reliable (W := W)) (Hsize : len (written ops) < MaxUint64)
    (Hn : 0 < n) (Hfuel : (length (written ops) < fuel)%nat) :
  let cfg := with_options (st_config a) rekey pad delay in
  let cfg' := with_options (st_config b) rekey pad' delay' in
  exists s w' out,
    (run_ops cfg ops ;! stream_Close cfg) (st_write a, w) = ((s, w'), Ok tt) /\
    sink w' = sink w ++ out /\
    exists r, drain fuel cfg' n (st_read b, out) = ((r, []), Ok (written ops)).
Proof.
  unfold NewV3CipherStream in Ha, Hb. destruct (isSupportedCipherV3 cipher) eqn:Es; [|done].
  cbn [negb] in *. destruct (negb _ || negb _); [done|]. apply Ok_inj in Ha as <-, Hb as <-.
  assert (forall d p, config_ok (mkConfig keys cipher sid rekey p d)) as Hc by (intros; split_and!; done).
  destruct side; by apply written_is_read.
Qed.

End Session.

Section ReadSafety.
Context `{C : Crypto} `{COk : !CryptoOk} `{R : Rand}.

(** A record at the head of the input that opens under the key derived for the
    generation of its counter, its header authenticated with it: the header, what
    it decrypts to and what follows it. *)
Definition record_authentic (cfg : streamConfig) (c2s : bool) (prefix input head dec rest : bytes) : Prop :=
  exists ct, input = head ++ ct ++ rest /\ length head = 12%nat /\ length ct = Z.to_nat (u16_at head 8 + 16) /\
    let counter := be_get (take 8 head) in
    1 <= counter /\ len dec = u16_at head 8 /\
    aead_open (s_cipherID cfg) (key_at cfg c2s ((counter - 1) / rekey_interval cfg))
      (record_nonce prefix counter) ct head = Some dec.

(** Its lengths are those of a record: a payload of 3 to 1400 bytes, an inner length
    of at least 1 that fits in it. *)
Definition record_sized (dec : bytes) : Prop :=
  3 <= len dec <= 1400 /\ 1 <= u16_at dec 0 <= len dec - 2.

(** A record the reader has to deliver: authentic, well sized, its counter fresh and
    below the last one. *)
Definition record_due (cfg : streamConfig) (c2s : bool) (prefix : bytes) (a : seen_set) (input : bytes) : Prop :=
  exists head dec rest, record_authentic cfg c2s prefix input head dec rest /\ record_sized dec /\
    fresh a (be_get (take 8 head)) = true /\ be_get (take 8 head) < 2 ^ 64 - 1.

Lemma reader_ok_key cfg c2s prefix r a gen : reader_ok cfg c2s prefix r a ->
  reader_ok cfg c2s prefix (set_readAEAD r (key_at cfg c2s gen) gen) a.
Proof. intros (H1 & H2 & _ & H3). split_and!; [done|done|apply aead_ok_refl|done]. Qed.

(** A counter below the last one gets an answer, that of the specification. *)
Lemma window_answer w a seq : refines w a -> 0 <= seq < 2 ^ 64 ->
  match checkAndAdd w seq with
  | None => seq = 2 ^ 64 - 1
  | Some (w', ok) => seq < 2 ^ 64 - 1 -> ok = fresh a seq /\ refines w' (fst (spec_add a seq))
  end.
Proof.
  intros HR Hs. destruct (decide (seq = 2 ^ 64 - 1)) as [-> |Hne]; [by destruct (checkAndAdd w _) as [[w' ok]|]; [lia|]|].
  destruct (checkAndAdd_refines w a seq HR) as (w' & -> & HR'); [lia|]. intros _. split; [|done].
  unfold spec_add. by destruct (fresh a seq).
Qed.

Lemma read_due cfg c2s prefix n r a input :
  config_ok cfg -> reader_ok cfg c2s prefix r a -> n <> 0 -> readPlainBuf r = [] -> record_due cfg c2s prefix a input ->
  exists b, snd (stream_Read cfg n (r, input)) = Ok b.
Proof.
  intros Hcfg (E1 & E2 & Ha & Hwin) Hn Hb (head & dec & rest & (ct & -> & Lh & Lc & H1 & Ld & Ho) & (Hs1 & Hs2) & Hf & Hlt).
  unfold stream_Read. destruct (Z.eqb_spec n 0); [done|]. rewrite Hb. change (0 <? len (@nil byte)) with false. cbv iota.
  rewrite ReadFull_app by done. destruct (Z.ltb_spec (be_get (take 8 head)) 1); [lia|]. unfold v3PlainLenSize, maxV3RecordPayload.
  destruct (Z.ltb_spec (u16_at head 8) (2 + 1)); [lia|]. destruct (Z.ltb_spec 1400 (u16_at head 8)); [lia|].
  rewrite E1, (aead_for_ok cfg c2s _ _ _ Hcfg Ha), ReadFull_app by done.
  cbn [set_readAEAD readNoncePrefix readWindow]. rewrite E2, Ho, Ld, Z.eqb_refl. cbn [negb].
  destruct (checkAndAdd_refines (readWindow r) a (be_get (take 8 head)) Hwin) as (w' & -> & _); [lia|].
  unfold spec_add. rewrite Hf. cbn [snd]. destruct (Z.ltb_spec (u16_at dec 0) 1); [lia|].
  destruct (Z.ltb_spec (u16_at head 8) (2 + u16_at dec 0)); [lia|]. cbn [orb snd]. by eexists.
Qed.

(** C36: the reader delivers nothing unauthenticated, and everything that is due.  On
    a stream whose cached key is that of its generation, as it is from the start and
    after every [Read], a [Read] that takes a new record returns bytes only if the
    record, its header included, opened under the key derived for the generation of
    its counter, and then the bytes the record says; the counter is fresh for the
    replay window, which then holds it (of a counter below the last one, 2^64 - 1).
    A [Read] that fails delivers nothing, was given no record that is due, and leaves
    the accepted counters as they were, so a forged counter cannot move the window,
    unless the record was authentic and fresh and only its inner length was wrong.
    The call does not return only for an authentic record with the last counter. *)
Theorem read_authenticates (cfg : streamConfig) (c2s : bool) (prefix : bytes) (n : Z) (r r' : readState) (a : seen_set)
    (input input' : bytes) (o : res bytes) (Hcfg : config_ok cfg) (Hok : reader_ok cfg c2s prefix r a)
    (Hread : stream_Read cfg n (r, input) = ((r', input'), o)) (Hn : n <> 0) (Hbuf : readPlainBuf r = []) :
  let accepts head :=
    be_get (take 8 head) < 2 ^ 64 - 1 ->
    fresh a (be_get (take 8 head)) = true /\ reader_ok cfg c2s prefix r' (fst (spec_add a (be_get (take 8 head)))) in
  match o with
  | Ok b =>
      exists head dec, record_authentic cfg c2s prefix input head dec input' /\ record_sized dec /\
        b ++ readPlainBuf r' = take (Z.to_nat (u16_at dec 0)) (drop 2 dec) /\ b = take (Z.to_nat n) (b ++ readPlainBuf r') /\
        accepts head
  | Err e =>
      readPlainBuf r' = [] /\ ~ record_due cfg c2s prefix a input /\
      (reader_ok cfg c2s prefix r' a \/
       exists head dec, record_authentic cfg c2s prefix input head dec input' /\ ~ record_sized dec /\ accepts head)
  | Panic => exists head dec, record_authentic cfg c2s prefix input head dec input' /\ be_get (take 8 head) = 2 ^ 64 - 1
  end.
Proof.
  intros accepts. assert (match o with Err _ => ~ record_due cfg c2s prefix a input | _ => True end) as Hdue.
  { destruct o; [done| |done]. intros Hd. destruct (read_due cfg c2s prefix n r a input) as [b Hb]; [done..|]. by rewrite Hread in Hb. }
  revert Hdue Hread. subst accepts. unfold stream_Read. destruct (Z.eqb_spec n 0); [done|]. rewrite Hbuf.
  change (0 <? len (@nil byte)) with false. cbv iota.
  destruct (ReadFull 12 input) as [input1 [head| |]] eqn:E1;
    [|by intros Hdue [= <- <- <-]; auto|by pose proof (ReadFull_total 12 input) as Hp; rewrite E1 in Hp].
  apply ReadFull_ok in E1 as [Ei Lh]. set (counter := be_get (take 8 head)).
  destruct (Z.ltb_spec counter 1) as [|Hc1]; [by intros Hdue [= <- <- <-]; auto|].
  destruct (Z.ltb_spec (u16_at head 8) (v3PlainLenSize + 1)) as [|Hp1]; [by intros Hdue [= <- <- <-]; auto|].
  destruct (Z.ltb_spec maxV3RecordPayload (u16_at head 8)) as [|Hp2]; [by intros Hdue [= <- <- <-]; auto|].
  pose proof Hok as (E1' & E2' & Ha & Hwin). rewrite E1', (aead_for_ok cfg c2s _ _ _ Hcfg Ha).
  set (gen := (counter - 1) / rekey_interval cfg).
  pose proof (reader_ok_key cfg c2s prefix r a gen Hok) as Hok'. set (r1 := set_readAEAD r (key_at cfg c2s gen) gen) in *.
  assert (readPlainBuf r1 = []) as Hb1 by done.
  destruct (ReadFull _ input1) as [input2 [ct| |]] eqn:E2;
    [|by intros Hdue [= <- <- <-]; auto|by pose proof (ReadFull_total (Z.to_nat (u16_at head 8 + 16)) input1) as Hp; rewrite E2 in Hp].
  apply ReadFull_ok in E2 as [Ei2 Lc].
  change (readNoncePrefix r1) with (readNoncePrefix r). change (readWindow r1) with (readWindow r). rewrite E2'.
  destruct (aead_open _ _ _ _ _) as [dec|] eqn:Eo; [|by intros Hdue [= <- <- <-]; auto].
  destruct (Z.eqb_spec (len dec) (u16_at head 8)) as [Hlen|]; cbn [negb]; [|by intros Hdue [= <- <- <-]; auto].
  assert (record_authentic cfg c2s prefix input head dec input2) as Hauth.
  { exists ct. split_and!; [by rewrite Ei, Ei2|done|done|by split_and!]. }
  assert (0 <= counter < 2 ^ 64) as Hr.
  { pose proof (be_get_range (take 8 head)) as Hr. unfold len in Hr. rewrite length_take, Lh in Hr. exact Hr. }
  pose proof (window_answer (readWindow r) a counter Hwin Hr) as Hw.
  destruct (checkAndAdd (readWindow r) counter) as [[win [|]]|] eqn:Ec;
    [|by intros Hdue [= <- <- <-]; auto|by intros Hdue [= <- <- <-]; exists head, dec].
  assert (forall buf, counter < 2 ^ 64 - 1 -> fresh a counter = true /\
            reader_ok cfg c2s prefix (set_readPlainBuf (set_readWindow r1 win) buf) (fst (spec_add a counter))) as Hnext.
  { intros buf Hlt. destruct (Hw Hlt) as [Hf HR]. destruct Hok' as (? & ? & ? & _). by split_and!. }
  unfold v3PlainLenSize, maxV3RecordPayload in *.
  destruct ((u16_at dec 0 <? 1) || _) eqn:Ein; intros Hdue [= <- <- <-].
  - split_and!; [done|done|]. right. exists head, dec. split_and!; [done| |exact (Hnext [])].
    intros [_ Hs]. apply orb_true_iff in Ein as [?%Z.ltb_lt|?%Z.ltb_lt]; lia.
  - apply orb_false_iff in Ein as [?%Z.ltb_ge ?%Z.ltb_ge].
    exists head, dec. cbn [set_readPlainBuf readPlainBuf]. rewrite take_drop.
    split_and!; [done|unfold record_sized; lia|done|done|apply Hnext].
Qed.

End ReadSafety.

(** * Witnesses *)

Definition demoKeys : V3SessionKeys := sampleKeys.

Definition demoEnd (side : bool) : V3CipherStream :=
  match NewV3CipherStream demoKeys (z2b 1) 5 side with
  | Ok s => s
  | _ => mkStream (mkConfig demoKeys Byte.x00 0 0 false 0)
           (mkWriteState 0 false [] None 0 [] false false) (mkReadState false [] None 0 emptyWindow [])
  end.

Lemma buffer_reliable : reliable (W := bytes).
Proof. intros w b. by eexists. Qed.

(** Rekeying every two records, coalescing, a timer between two writes. *)
Lemma encrypted_stream_delivers_witness :
  exists s w' out,
    (run_ops (W := bytes) (with_options (st_config (demoEnd true)) 2 true 5)
       [OpWrite (bs "hello "); OpTimer; OpWrite (bs "wor"); OpTimer; OpWrite (bs "ld")] ;!
     stream_Close (with_options (st_config (demoEnd true)) 2 true 5)) (st_write (demoEnd true), bs "x")
    = ((s, w'), Ok tt) /\
    sink w' = sink (bs "x") ++ out /\
    exists r, drain 20 (with_options (st_config (demoEnd false)) 2 false 0) 4 (st_read (demoEnd false), out)
              = ((r, []), Ok (bs "hello world")).
Proof.
  apply (encrypted_stream_delivers (W := bytes) demoKeys (z2b 1) 5 true (demoEnd true) (demoEnd false)
    2 true false 5 0 [OpWrite (bs "hello "); OpTimer; OpWrite (bs "wor"); OpTimer; OpWrite (bs "ld")]
    (bs "x") 4 20); try (vm_compute; reflexivity).
  - vm_compute. congruence.
  - apply buffer_reliable.
  - vm_compute. lia.
Defined.

(** Two records, the second one of the next generation: the reader that cached the
    first one's key delivers the second, which is authentic under the new key; the
    first one again is refused, so it is not due. *)
Definition demoReadConfig : streamConfig := with_options (st_config (demoEnd false)) 2 false 0.
Definition demoPrefix : bytes := readNoncePrefix (st_read (demoEnd false)).
Definition demoRecord (counter : Z) (plain : bytes) : bytes := record demoReadConfig true demoPrefix counter plain (bs "pad").
Definition demoAfter : readState := fst (fst (stream_Read demoReadConfig 9 (st_read (demoEnd false), demoRecord 1 (bs "one")))).

Lemma demoAfter_ok : reader_ok demoReadConfig true demoPrefix demoAfter (fst (spec_add emptySeen 1)).
Proof.
  split_and!; [reflexivity|reflexivity|by intros k [= <-]; vm_compute|].
  destruct (checkAndAdd_refines emptyWindow emptySeen 1 refines_empty ltac:(lia)) as (w & E & HR).
  replace (readWindow demoAfter) with w; [done|]. vm_compute in E. injection E as <-. vm_compute. reflexivity.
Qed.

Lemma read_authenticates_witness :
  readAEAD demoAfter = Some (key_at demoReadConfig true 0) /\
  (exists head dec, record_authentic demoReadConfig true demoPrefix (demoRecord 3 (bs "two")) head dec [] /\
     bs "two" = take (Z.to_nat (u16_at dec 0)) (drop 2 dec)) /\
  ~ record_due demoReadConfig true demoPrefix (fst (spec_add emptySeen 1)) (demoRecord 1 (bs "one")).
Proof.
  assert (config_ok demoReadConfig) as Hc by (split_and!; vm_compute; congruence).
  split; [vm_compute; reflexivity|]. split.
  - destruct (stream_Read demoReadConfig 9 (demoAfter, demoRecord 3 (bs "two"))) as [[r2 i2] o2] eqn:E2.
    pose proof (read_authenticates demoReadConfig true demoPrefix 9 _ _ _ _ _ _ Hc demoAfter_ok E2 ltac:(done) eq_refl) as H2.
    vm_compute in E2. injection E2 as <- <- <-.
    destruct H2 as (head & dec & Hauth & _ & Hb & _). exists head, dec. by split.
  - destruct (stream_Read demoReadConfig 9 (demoAfter, demoRecord 1 (bs "one"))) as [[r2 i2] o2] eqn:E2.
    pose proof (read_authenticates demoReadConfig true demoPrefix 9 _ _ _ _ _ _ Hc demoAfter_ok E2 ltac:(done) eq_refl) as H2.
    vm_compute in E2. injection E2 as <- <- <-. apply H2.
Defined.
