(* ===== verification/Datagram.v ===== *)
(** internal/transport/datagram.go: the datagrams that carry UDP over QUIC.
    Their wire format, fragmentation and reassembly. *)

From Stdlib Require Import ZArith Lia Strings.Byte.
From stdpp Require Import base numbers list gmap.
From S2P Require Import Prelude GoStrings GoNet NetAddr GoTime.

Local Open Scope Z_scope.
Local Open Scope go_scope.

(** * Frames *)

Definition AddrTypeIPv4 : Z := 1.
Definition AddrTypeDomain : Z := 3.
Definition AddrTypeIPv6 : Z := 4.
Definition MaxDatagramSize : Z := 1400.
Definition DefaultMTU : Z := 1200.

Definition ErrInvalidDatagram : error := Errorf "transport: invalid datagram format" [].
Definition ErrUnsupportedAddrType : error := Errorf "transport: unsupported address type" [].
Definition ErrReassemblerQueueFull : error := Errorf "transport: reassembly queue is full" [].

Record DatagramFrame : Type := mkFrame {
  d_assoc : Z;
  d_pkt : Z;
  d_frag_total : Z;
  d_frag_id : Z;
  d_payload_len : Z;
  d_addr_type : Z;
  d_addr : bytes;
  d_port : Z;
  d_payload : bytes;
}.

Definition addr_bytes (f : DatagramFrame) : res bytes :=
  if d_addr_type f =? AddrTypeIPv4 then
    match ParseIP (d_addr f) ≫= To4 with
    | Some ip => Ok ip
    | None => Err (Wrapf "%w: invalid IPv4 address %q" ErrInvalidDatagram)
    end
  else if d_addr_type f =? AddrTypeDomain then
    if 255 <? len (d_addr f) then Err (Wrapf "%w: domain name too long" ErrInvalidDatagram)
    else Ok (z2b (len (d_addr f)) :: d_addr f)
  else if d_addr_type f =? AddrTypeIPv6 then
    match ParseIP (d_addr f) ≫= To16 with
    | Some ip => Ok ip
    | None => Err (Wrapf "%w: invalid IPv6 address %q" ErrInvalidDatagram)
    end
  else Err (Wrapf "%w: 0x%02x" ErrUnsupportedAddrType).

Definition EncodeDatagram (f : DatagramFrame) : res bytes :=
  let payloadLen := if negb (d_payload_len f =? len (d_payload f))
                    then wrapU 16 (len (d_payload f)) else d_payload_len f in
  let! addrBytes := addr_bytes f in
  Ok (be_put 2 (d_assoc f) ++ be_put 2 (d_pkt f) ++ [z2b (d_frag_total f); z2b (d_frag_id f)]
      ++ be_put 2 payloadLen ++ [z2b (d_addr_type f)] ++ addrBytes ++ be_put 2 (d_port f)
      ++ d_payload f).

(** The address at [offset] and the offset after it. *)
Definition decode_addr (b : bytes) (addrType offset : Z) : res (bytes * Z) :=
  if addrType =? AddrTypeIPv4 then
    if len b <? offset + 4 + 2 then Err ErrInvalidDatagram else
    let! ip := slice b offset (offset + 4) in
    Ok (IPString ip, offset + 4)
  else if addrType =? AddrTypeDomain then
    if len b <? offset + 1 then Err ErrInvalidDatagram else
    let! l := index b offset in
    let domainLen := b2z l in
    let offset := offset + 1 in
    if len b <? offset + domainLen + 2 then Err ErrInvalidDatagram else
    let! name := slice b offset (offset + domainLen) in
    Ok (name, offset + domainLen)
  else if addrType =? AddrTypeIPv6 then
    if len b <? offset + 16 + 2 then Err ErrInvalidDatagram else
    let! ip := slice b offset (offset + 16) in
    Ok (IPString ip, offset + 16)
  else Err (Wrapf "%w: 0x%02x" ErrUnsupportedAddrType).

Definition DecodeDatagram (b : bytes) : res DatagramFrame :=
  if len b <? 11 then Err ErrInvalidDatagram else
  let! assoc := slice b 0 2 in
  let! pkt := slice b 2 4 in
  let! total := index b 4 in
  let! id := index b 5 in
  let! plen := slice b 6 8 in
  let! atype := index b 8 in
  let fragTotal := if b2z total =? 0 then 1 else b2z total in
  let! (addr, offset) := decode_addr b (b2z atype) 9 in
  let! port := slice b offset (offset + 2) in
  let offset := offset + 2 in
  if len b <? offset + be_get plen then Err ErrInvalidDatagram else
  let! payload := slice b offset (offset + be_get plen) in
  Ok (mkFrame (be_get assoc) (be_get pkt) fragTotal (b2z id) (be_get plen) (b2z atype) addr
        (be_get port) payload).

(** * Fragments *)

Definition with_fragment (f : DatagramFrame) (total id : Z) (payload : bytes) : DatagramFrame :=
  mkFrame (d_assoc f) (d_pkt f) total id (wrapU 16 (len payload)) (d_addr_type f) (d_addr f)
    (d_port f) payload.

(** [frame.Payload[start:end]] for the fragment [i]. *)
Definition fragment (f : DatagramFrame) (maxPayloadSize total i : Z) : DatagramFrame :=
  let start := i * maxPayloadSize in
  let stop := Z.min (start + maxPayloadSize) (len (d_payload f)) in
  with_fragment f (wrapU 8 total) (wrapU 8 i)
    (take (Z.to_nat (stop - start)) (drop (Z.to_nat start) (d_payload f))).

Definition fragment_count (n maxPayloadSize : Z) : Z :=
  Z.min ((n + maxPayloadSize - 1) / maxPayloadSize) 255.

Definition FragmentDatagram (f : DatagramFrame) (maxPayloadSize : Z) : list DatagramFrame :=
  if (maxPayloadSize <=? 0) || (len (d_payload f) <=? maxPayloadSize)
  then [with_fragment f 1 0 (d_payload f)]
  else
    let totalFrags := fragment_count (len (d_payload f)) maxPayloadSize in
    map (fun i => fragment f maxPayloadSize totalFrags (Z.of_nat i)) (seq 0 (Z.to_nat totalFrags)).

(** * Reassembly *)

Record fragmentEntry : Type := mkFragEntry {
  fe_fragments : gmap Z bytes;
  fe_total : Z;
  fe_frame : DatagramFrame;
  fe_created : Time;
}.

Record DatagramReassembler : Type := mkReassembler {
  ra_entries : gmap Z fragmentEntry;
  ra_ttl : Z;
  ra_max : Z;
}.

Definition NewDatagramReassembler (ttl maxQueued : Z) : DatagramReassembler :=
  mkReassembler ∅ (if ttl <=? 0 then 5 * Second else ttl) (if maxQueued <=? 0 then 1024 else maxQueued).

Definition entry_key (f : DatagramFrame) : Z := Z.lor (Z.shiftl (d_assoc f) 16) (d_pkt f).

Definition cleanupExpired (now : Time) (r : DatagramReassembler) : DatagramReassembler :=
  mkReassembler (filter (fun kv => ~ (ra_ttl r < Sub now (fe_created (snd kv)))) (ra_entries r))
    (ra_ttl r) (ra_max r).

(** [entry.fragments[i]]: nil when absent. *)
Definition frag_at (m : gmap Z bytes) (i : Z) : bytes := default [] (m !! i).

Definition combine_fragments (m : gmap Z bytes) (total : Z) : bytes :=
  concat (map (fun i => frag_at m (Z.of_nat i)) (seq 0 (Z.to_nat total))).

(** [Ok (Some f)] is [(f, true, nil)] and [Ok None] is [(_, false, nil)]; [now]
    is the clock in the cleanup, [created] when an entry is made. *)
Definition ReassemblerAdd (f : DatagramFrame) (now created : Time)
    : io DatagramReassembler (option DatagramFrame) :=
  fun r =>
    if d_frag_total f <=? 1 then (r, Ok (Some f)) else
    let r := cleanupExpired now r in
    let key := entry_key f in
    match (match ra_entries r !! key with
           | Some e => Ok e
           | None => if ra_max r <=? Z.of_nat (size (ra_entries r)) then Err ErrReassemblerQueueFull
                     else Ok (mkFragEntry ∅ (d_frag_total f) f created)
           end) with
    | Err e => (r, Err e)
    | Panic => (r, Panic)
    | Ok e =>
        let e := mkFragEntry (<[d_frag_id f := d_payload f]> (fe_fragments e)) (fe_total e)
                   (fe_frame e) (fe_created e) in
        if Z.of_nat (size (fe_fragments e)) =? fe_total e then
          (mkReassembler (delete key (ra_entries r)) (ra_ttl r) (ra_max r),
           Ok (Some (with_fragment (fe_frame e) 1 0 (combine_fragments (fe_fragments e) (fe_total e)))))
        else (mkReassembler (<[key := e]> (ra_entries r)) (ra_ttl r) (ra_max r), Ok None)
    end.

(** Frames arriving one after the other, with the clock at each. *)
Fixpoint add_all (r : DatagramReassembler) (l : list (DatagramFrame * (Time * Time)))
    : DatagramReassembler * list (res (option DatagramFrame)) :=
  match l with
  | [] => (r, [])
  | (f, (now, created)) :: l' =>
      let '(r1, o) := ReassemblerAdd f now created r in
      let '(r2, os) := add_all r1 l' in (r2, o :: os)
  end.

(** * The wire format *)

Lemma slice_at a x c i j b :
  b = a ++ x ++ c -> i = len a -> j = i + len x -> slice b i j = Ok x.
Proof. intros -> -> ->. apply slice_app_mid. Qed.

Lemma index_at a x c i b : b = a ++ x :: c -> i = len a -> index b i = Ok x.
Proof.
  intros -> ->. unfold index. pose proof (len_nonneg a). destruct (Z.leb_spec 0 (len a)); [|lia].
  replace (Z.to_nat (len a)) with (length a) by solve_len. by rewrite list_lookup_middle.
Qed.

(** The ranges of the fields' Go types, with a payload a datagram can carry. *)
Definition frame_typed (f : DatagramFrame) : Prop :=
  0 <= d_assoc f < 65536 /\ 0 <= d_pkt f < 65536 /\ 0 <= d_frag_total f < 256 /\
  0 <= d_frag_id f < 256 /\ 0 <= d_payload_len f < 65536 /\ 0 <= d_addr_type f < 256 /\
  0 <= d_port f < 65536 /\ len (d_payload f) <= 65535.

(** How the address is written by the decoder: IP addresses in their standard
    form, domains unchanged. *)
Definition canonical_addr (f : DatagramFrame) : bytes :=
  if d_addr_type f =? AddrTypeDomain then d_addr f else
  match addr_bytes f with Ok ip => IPString ip | _ => [] end.

Definition canonical (f : DatagramFrame) : DatagramFrame :=
  mkFrame (d_assoc f) (d_pkt f) (if d_frag_total f =? 0 then 1 else d_frag_total f) (d_frag_id f)
    (len (d_payload f)) (d_addr_type f) (canonical_addr f) (d_port f) (d_payload f).

Lemma To16_length ip q : To16 ip = Some q -> length q = 16%nat.
Proof.
  unfold To16. destruct (Nat.eqb_spec (length ip) 4) as [E|]; [intros [= <-]; cbn; by rewrite E|].
  destruct (Nat.eqb_spec (length ip) 16); [by intros [= <-]|done].
Qed.

(** The address is decoded at the offset where it was written. *)
Lemma decode_addr_ok f ab pre rest :
  addr_bytes f = Ok ab -> len pre = 9 -> 2 <= len rest ->
  decode_addr (pre ++ ab ++ rest) (d_addr_type f) 9 = Ok (canonical_addr f, 9 + len ab).
Proof.
  intros Ha Hp Hr. unfold decode_addr, canonical_addr. rewrite Ha. revert Ha. unfold addr_bytes.
  pose proof (len_nonneg ab). rewrite !len_app, Hp.
  destruct (Z.eqb_spec (d_addr_type f) AddrTypeIPv4) as [E4|N4].
  { destruct (ParseIP (d_addr f) ≫= To4) as [ip|] eqn:E; [|done]. intros [= <-].
    apply bind_Some in E as (x & _ & E%To4_length).
    assert (len ip = 4) as L by solve_len. rewrite L.
    destruct (Z.ltb_spec (9 + (4 + len rest)) (9 + 4 + 2)); [lia|].
    erewrite (slice_at pre ip rest) by (done || lia). by rewrite E4. }
  destruct (Z.eqb_spec (d_addr_type f) AddrTypeDomain) as [Ed|Nd].
  { destruct (Z.ltb_spec 255 (len (d_addr f))); [done|]. intros [= <-]. rewrite len_cons in *.
    pose proof (len_nonneg (d_addr f)).
    destruct (Z.ltb_spec (9 + (1 + len (d_addr f) + len rest)) (9 + 1)); [lia|].
    erewrite (index_at pre _ (d_addr f ++ rest)) by (done || lia). cbn [res_bind].
    rewrite b2z_z2b_small by lia.
    destruct (Z.ltb_spec (9 + (1 + len (d_addr f) + len rest)) (9 + 1 + len (d_addr f) + 2)); [lia|].
    erewrite (slice_at (pre ++ [z2b (len (d_addr f))]) (d_addr f) rest);
      [|by rewrite <- app_assoc|rewrite len_app, Hp; done|done].
    cbn [res_bind]. do 2 f_equal. lia. }
  destruct (Z.eqb_spec (d_addr_type f) AddrTypeIPv6) as [E6|N6]; [|done].
  destruct (ParseIP (d_addr f) ≫= To16) as [ip|] eqn:E; [|done]. intros [= <-].
  apply bind_Some in E as (x & _ & E%To16_length).
  assert (len ip = 16) as L by solve_len. rewrite L.
  destruct (Z.ltb_spec (9 + (16 + len rest)) (9 + 16 + 2)); [lia|].
  by erewrite (slice_at pre ip rest) by (done || lia).
Qed.

Lemma decode_encode_datagram f b :
  frame_typed f -> EncodeDatagram f = Ok b -> DecodeDatagram b = Ok (canonical f).
Proof.
  intros (H1 & H2 & H3 & H4 & H5 & H6 & H7 & H8). unfold EncodeDatagram.
  destruct (addr_bytes f) as [ab| |] eqn:Ea; cbn [res_bind]; [|done..].
  pose proof (len_nonneg (d_payload f)). pose proof (len_nonneg ab).
  assert ((if negb (d_payload_len f =? len (d_payload f)) then wrapU 16 (len (d_payload f))
           else d_payload_len f) = len (d_payload f)) as ->.
  { destruct (Z.eqb_spec (d_payload_len f) (len (d_payload f))); [done|]. cbn [negb]. apply wrapU_small. lia. }
  set (A := be_put 2 (d_assoc f)). set (P := be_put 2 (d_pkt f)). set (L := be_put 2 (len (d_payload f))).
  set (O := be_put 2 (d_port f)). set (t := z2b (d_frag_total f)). set (i := z2b (d_frag_id f)).
  set (y := z2b (d_addr_type f)).
  assert (len A = 2 /\ len P = 2 /\ len L = 2 /\ len O = 2) as (LA & LP & LL & LO)
    by (unfold A, P, L, O; by rewrite !len_be_put).
  intros <-%Ok_inj. set (b := A ++ P ++ [t; i] ++ L ++ [y] ++ ab ++ O ++ d_payload f).
  assert (len b = 9 + len ab + 2 + len (d_payload f)) as Lb.
  { unfold b. rewrite !len_app, LA, LP, LL, LO. unfold len at 1 2. cbn. lia. }
  unfold DecodeDatagram. destruct (Z.ltb_spec (len b) 11); [lia|].
  rewrite (slice_at [] A (P ++ [t; i] ++ L ++ [y] ++ ab ++ O ++ d_payload f)) by done. cbn [res_bind].
  rewrite (slice_at A P ([t; i] ++ L ++ [y] ++ ab ++ O ++ d_payload f)) by (done || lia). cbn [res_bind].
  rewrite (index_at (A ++ P) t ([i] ++ L ++ [y] ++ ab ++ O ++ d_payload f))
    by (unfold b; rewrite <- ?app_assoc; done || rewrite len_app; lia). cbn [res_bind].
  rewrite (index_at (A ++ P ++ [t]) i (L ++ [y] ++ ab ++ O ++ d_payload f))
    by (unfold b; rewrite <- ?app_assoc; done || rewrite !len_app, LA, LP; done). cbn [res_bind].
  rewrite (slice_at (A ++ P ++ [t; i]) L ([y] ++ ab ++ O ++ d_payload f))
    by (unfold b; rewrite <- ?app_assoc; done || (rewrite !len_app, LA, LP; done)). cbn [res_bind].
  rewrite (index_at (A ++ P ++ [t; i] ++ L) y (ab ++ O ++ d_payload f))
    by (unfold b; rewrite <- ?app_assoc; done || (rewrite !len_app, LA, LP, LL; done)). cbn [res_bind].
  assert (b2z y = d_addr_type f) as -> by (by apply b2z_z2b_small).
  set (pre := A ++ P ++ [t; i] ++ L ++ [y]).
  assert (len pre = 9) as Lp by (unfold pre; rewrite !len_app, LA, LP, LL; done).
  assert (b = pre ++ ab ++ O ++ d_payload f) as Eb by (unfold b, pre; by rewrite <- !app_assoc).
  rewrite Eb. rewrite (decode_addr_ok f ab pre (O ++ d_payload f) Ea Lp) by (rewrite len_app; lia).
  cbn [res_bind]. rewrite <- Eb.
  rewrite (slice_at (pre ++ ab) O (d_payload f)) by (rewrite ?len_app, <- ?app_assoc; done || lia).
  cbn [res_bind].
  assert (be_get L = len (d_payload f)) as EL by (apply be_get_put_small; simpl; lia). rewrite EL, Lb.
  destruct (Z.ltb_spec (9 + len ab + 2 + len (d_payload f)) (9 + len ab + 2 + len (d_payload f))); [lia|].
  rewrite (slice_at (pre ++ ab ++ O) (d_payload f) [])
    by (rewrite ?len_app, <- ?app_assoc, ?app_nil_r; done || lia).
  cbn [res_bind]. unfold canonical, A, P, O, t, i. rewrite !b2z_z2b_small by lia.
  rewrite !be_get_put_small by (simpl; lia). done.
Qed.

(** * No input makes the decoder panic *)

Lemma slice_total b i j : 0 <= i -> i <= j -> j <= len b -> exists x, slice b i j = Ok x.
Proof. intros. rewrite slice_ok by done. eauto. Qed.

Lemma decode_addr_total b t :
  11 <= len b ->
  (exists e, decode_addr b t 9 = Err e) \/
  (exists a off, decode_addr b t 9 = Ok (a, off) /\ 9 <= off /\ off + 2 <= len b).
Proof.
  intros Hb. unfold decode_addr.
  destruct (t =? AddrTypeIPv4).
  { destruct (Z.ltb_spec (len b) (9 + 4 + 2)); [by eauto|].
    destruct (slice_total b 9 (9 + 4)) as [x ->]; [lia..|]. right. cbn [res_bind]. eexists _, _. split; [done|]. lia. }
  destruct (t =? AddrTypeDomain).
  { destruct (Z.ltb_spec (len b) (9 + 1)); [by eauto|].
    destruct (index_ok b 9) as [l ->]; [lia|]. cbn [res_bind]. pose proof (b2z_range l).
    destruct (Z.ltb_spec (len b) (9 + 1 + b2z l + 2)); [by eauto|].
    destruct (slice_total b (9 + 1) (9 + 1 + b2z l)) as [x ->]; [lia..|]. right. cbn [res_bind].
    eexists _, _. split; [done|]. lia. }
  destruct (t =? AddrTypeIPv6); [|by eauto].
  destruct (Z.ltb_spec (len b) (9 + 16 + 2)); [by eauto|].
  destruct (slice_total b 9 (9 + 16)) as [x ->]; [lia..|]. right. cbn [res_bind]. eexists _, _. split; [done|]. lia.
Qed.

Lemma DecodeDatagram_total b : DecodeDatagram b <> Panic.
Proof.
  unfold DecodeDatagram. destruct (Z.ltb_spec (len b) 11); [done|].
  destruct (slice_total b 0 2) as [x1 ->]; [lia..|]. cbn [res_bind].
  destruct (slice_total b 2 4) as [x2 ->]; [lia..|]. cbn [res_bind].
  destruct (index_ok b 4) as [x3 ->]; [lia|]. cbn [res_bind].
  destruct (index_ok b 5) as [x4 ->]; [lia|]. cbn [res_bind].
  destruct (slice_total b 6 8) as [x5 ->]; [lia..|]. cbn [res_bind].
  destruct (index_ok b 8) as [x6 ->]; [lia|]. cbn [res_bind].
  destruct (decode_addr_total b (b2z x6)) as [[e ->]|(a & off & -> & Ho1 & Ho2)]; [done..|]. cbn [res_bind].
  destruct (slice_total b off (off + 2)) as [x7 ->]; [lia..|]. cbn [res_bind].
  pose proof (be_get_range x5).
  destruct (Z.ltb_spec (len b) (off + 2 + be_get x5)); [done|].
  destruct (slice_total b (off + 2) (off + 2 + be_get x5)) as [x8 ->]; [lia..|]. done.
Qed.

(** * Fragmentation *)

(** The pieces of a payload cut every [m] bytes, [k] of them. *)
Lemma concat_pieces (l : bytes) m k :
  0 < m ->
  concat (map (fun i => take (Z.to_nat (Z.min (Z.of_nat i * m + m) (len l) - Z.of_nat i * m))
                          (drop (Z.to_nat (Z.of_nat i * m)) l)) (seq 0 k)) =
  take (k * Z.to_nat m) l.
Proof.
  intros Hm. induction k as [|k IH]; [done|].
  rewrite seq_S, map_app, concat_app, IH. cbn [map concat]. rewrite app_nil_r, Nat.add_0_l.
  replace (S k * Z.to_nat m)%nat with (k * Z.to_nat m + Z.to_nat m)%nat by lia.
  replace (Z.to_nat (Z.of_nat k * m)) with (k * Z.to_nat m)%nat by lia.
  rewrite <- (take_drop (k * Z.to_nat m) l) at 4. set (n := (k * Z.to_nat m)%nat).
  destruct (Nat.le_gt_cases (length l) n) as [Hle|Hgt].
  - rewrite (firstn_all2 (n := n)) by done. rewrite (skipn_all2 (n := n)) by done.
    rewrite take_nil, app_nil_r, firstn_all2; [done|]. lia.
  - rewrite take_app_ge by (rewrite length_take; lia). rewrite length_take, Nat.min_l by lia.
    f_equal. replace (n + Z.to_nat m - n)%nat with (Z.to_nat m) by lia.
    destruct (Z.le_gt_cases (len l) (Z.of_nat k * m + m)).
    + rewrite Z.min_r by done. rewrite !firstn_all2; [done|rewrite length_drop; unfold n, len in *; lia..].
    + rewrite Z.min_l by lia. f_equal. lia.
Qed.

Lemma FragmentDatagram_payloads f m :
  0 < m -> m < len (d_payload f) ->
  concat (map d_payload (FragmentDatagram f m)) =
  take (Z.to_nat (fragment_count (len (d_payload f)) m * m)) (d_payload f).
Proof.
  intros Hm Hl. unfold FragmentDatagram.
  destruct (Z.leb_spec m 0); [lia|]. destruct (Z.leb_spec (len (d_payload f)) m); [lia|]. cbn [orb].
  rewrite map_map. unfold fragment, with_fragment. cbn [d_payload].
  assert (0 <= fragment_count (len (d_payload f)) m) as Hc.
  { unfold fragment_count. assert (0 <= (len (d_payload f) + m - 1) / m) by (apply Z.div_pos; lia). lia. }
  rewrite concat_pieces by done. f_equal. lia.
Qed.

Lemma fragment_count_covers n m : 0 < m -> 0 < n <= 255 * m -> n <= fragment_count n m * m.
Proof.
  intros Hm Hn. unfold fragment_count.
  pose proof (Z.div_mod (n + m - 1) m). pose proof (Z.mod_pos_bound (n + m - 1) m Hm).
  destruct (Z.le_gt_cases ((n + m - 1) / m) 255); [rewrite Z.min_l by done; nia|].
  rewrite Z.min_r by lia. lia.
Qed.

Lemma fragment_count_range n m : 0 < m -> m < n -> 2 <= fragment_count n m <= 255.
Proof.
  intros Hm Hn. unfold fragment_count.
  assert (2 <= (n + m - 1) / m) by (apply Z.div_le_lower_bound; lia). lia.
Qed.

(** * Reassembly *)

(** The fragments received so far, by their numbers. *)
Definition received (fs : list DatagramFrame) : gmap Z bytes :=
  list_to_map (map (fun g => (d_frag_id g, d_payload g)) fs).

Definition frag_ids (fs : list DatagramFrame) : list Z := map d_frag_id fs.

Lemma received_keys fs : (map (fun g => (d_frag_id g, d_payload g)) fs).*1 = frag_ids fs.
Proof. unfold frag_ids. induction fs as [|? fs IH]; [done|]. cbn. by f_equal. Qed.

Lemma size_received fs : NoDup (frag_ids fs) -> size (received fs) = length fs.
Proof.
  intros Hd. induction fs as [|g fs IH]; [apply map_size_empty|].
  cbn [frag_ids map] in Hd. apply NoDup_cons in Hd as [Hn Hd].
  unfold received. cbn [map]. rewrite list_to_map_cons.
  rewrite map_size_insert_None; [cbn [length]; f_equal; by apply IH|].
  apply not_elem_of_list_to_map_1. by rewrite received_keys.
Qed.

Lemma received_snoc fs g :
  d_frag_id g ∉ frag_ids fs -> <[d_frag_id g := d_payload g]> (received fs) = received (fs ++ [g]).
Proof.
  intros Hn. unfold received. rewrite map_app, list_to_map_app. cbn [map].
  rewrite list_to_map_cons, list_to_map_nil, <- insert_union_r by
    (apply not_elem_of_list_to_map_1; by rewrite received_keys).
  by rewrite (right_id_L ∅ (∪)).
Qed.

Lemma received_at fs g :
  NoDup (frag_ids fs) -> g ∈ fs -> received fs !! d_frag_id g = Some (d_payload g).
Proof.
  intros Hd Hg. apply elem_of_list_to_map_1; [by rewrite received_keys|].
  apply list_elem_of_In, in_map_iff. exists g. split; [done|]. by apply list_elem_of_In.
Qed.

(** Every frame of [fs] is the fragment of [f] with its number. *)
Definition fragments_of (f : DatagramFrame) (m total : Z) (fs : list DatagramFrame) : Prop :=
  Permutation fs (map (fun i => fragment f m total (Z.of_nat i)) (seq 0 (Z.to_nat total))).

Lemma fragment_ids f m total :
  0 <= total <= 255 ->
  frag_ids (map (fun i => fragment f m total (Z.of_nat i)) (seq 0 (Z.to_nat total))) =
  map Z.of_nat (seq 0 (Z.to_nat total)).
Proof.
  intros Ht. unfold frag_ids. rewrite map_map. apply map_ext_in. intros i Hi%in_seq.
  cbn [fragment with_fragment d_frag_id]. apply wrapU_small. lia.
Qed.

Lemma fragments_nodup f m total fs :
  0 <= total <= 255 -> fragments_of f m total fs -> NoDup (frag_ids fs).
Proof.
  intros Ht HP. unfold frag_ids. rewrite (Permutation_map _ HP).
  fold (frag_ids (map (fun i => fragment f m total (Z.of_nat i)) (seq 0 (Z.to_nat total)))).
  rewrite fragment_ids by done. apply NoDup_fmap_2; [apply Nat2Z.inj'|]. apply NoDup_ListNoDup, seq_NoDup.
Qed.

(** Once all are there, the payload is put together in order. *)
Lemma combine_received f m fs :
  0 < m -> m < len (d_payload f) -> len (d_payload f) <= 255 * m ->
  let total := fragment_count (len (d_payload f)) m in
  fragments_of f m total fs -> combine_fragments (received fs) total = d_payload f.
Proof.
  intros Hm Hl H255 total HP. pose proof (fragment_count_range _ _ Hm Hl) as Ht. fold total in Ht.
  transitivity (concat (map d_payload (FragmentDatagram f m))).
  - unfold combine_fragments, FragmentDatagram.
    destruct (Z.leb_spec m 0); [lia|]. destruct (Z.leb_spec (len (d_payload f)) m); [lia|]. cbn [orb].
    fold total. f_equal. rewrite map_map. apply map_ext_in. intros i Hi.
    assert (d_frag_id (fragment f m total (Z.of_nat i)) = Z.of_nat i) as Ei.
    { cbn [fragment with_fragment d_frag_id]. apply in_seq in Hi. apply wrapU_small. lia. }
    unfold frag_at. rewrite <- Ei at 1. rewrite received_at; [done|eapply fragments_nodup; [|done]; lia|].
    apply (elem_of_Permutation_proper _ _ _ HP).
    apply list_elem_of_In, (in_map (fun i => fragment f m total (Z.of_nat i))). done.
  - rewrite FragmentDatagram_payloads by done. apply firstn_all2.
    pose proof (fragment_count_covers (len (d_payload f)) m Hm). unfold len in *. lia.
Qed.

(** The clock readings of an exchange: none is more than the lifetime after the
    creation of the entry. *)
Definition timely (ttl : Z) (ts : list (Time * Time)) : Prop :=
  forall x y, x ∈ ts -> y ∈ ts -> Sub (fst x) (snd y) <= ttl.

Lemma cleanup_lookup now r k e :
  ra_entries r !! k = Some e -> Sub now (fe_created e) <= ra_ttl r ->
  ra_entries (cleanupExpired now r) !! k = Some e.
Proof. intros He Hs. cbn. apply map_lookup_filter_Some. split; [done|]. cbn. lia. Qed.

Lemma cleanup_none now r k :
  ra_entries r !! k = None -> ra_entries (cleanupExpired now r) !! k = None.
Proof. intros He. cbn. apply map_lookup_filter_None. by left. Qed.

Lemma cleanup_size now r : (size (ra_entries (cleanupExpired now r)) <= size (ra_entries r))%nat.
Proof. cbn. apply map_subseteq_size, map_filter_subseteq. Qed.

(** The entry of [f] after the fragments [got] have arrived. *)
Definition pending (f : DatagramFrame) (total : Z) (created : list Time)
    (r : DatagramReassembler) (got : list DatagramFrame) : Prop :=
  exists e, ra_entries r !! entry_key f = Some e /\ fe_fragments e = received got /\
    fe_total e = total /\ (exists a b p, fe_frame e = with_fragment f a b p) /\ fe_created e ∈ created.

Lemma fragment_facts f m total fs g :
  0 <= total <= 255 -> fragments_of f m total fs -> g ∈ fs ->
  d_frag_total g = total /\ entry_key g = entry_key f /\ exists a b p, g = with_fragment f a b p.
Proof.
  intros Ht HP Hg. rewrite HP in Hg. apply list_elem_of_In, in_map_iff in Hg as (i & <- & _).
  split_and!; [by apply wrapU_small; lia|done|]. by eexists _, _, _.
Qed.

(** One more fragment of a pending datagram, or its first. *)
Lemma add_fragment f m total fs got g rest r now created ts :
  2 <= total <= 255 -> fragments_of f m total fs -> fs = got ++ g :: rest ->
  timely (ra_ttl r) ts -> (now, created) ∈ ts ->
  (got = [] /\ ra_entries r !! entry_key f = None /\ Z.of_nat (size (ra_entries r)) < ra_max r) \/
  pending f total (map snd ts) r got ->
  exists e r1,
    fe_fragments e = received (got ++ [g]) /\ fe_total e = total /\
    (exists a b p, fe_frame e = with_fragment f a b p) /\ fe_created e ∈ map snd ts /\
    ra_ttl r1 = ra_ttl r /\ ra_max r1 = ra_max r /\
    ReassemblerAdd g now created r =
      if Z.of_nat (length got) + 1 =? total then
        (mkReassembler (delete (entry_key f) (ra_entries r1)) (ra_ttl r) (ra_max r),
         Ok (Some (with_fragment f 1 0 (combine_fragments (received (got ++ [g])) total))))
      else (mkReassembler (<[entry_key f := e]> (ra_entries r1)) (ra_ttl r) (ra_max r), Ok None).
Proof.
  intros Ht HP -> Htime Hin Hst.
  destruct (fragment_facts f m total (got ++ g :: rest) g) as (Et & Ek & a & b & p & Eg);
    [lia|done|apply elem_of_app; right; left|].
  assert (NoDup (frag_ids (got ++ g :: rest))) as Hd by (eapply fragments_nodup; [|done]; lia).
  unfold frag_ids in Hd. rewrite map_app in Hd. cbn [map] in Hd. rewrite NoDup_app in Hd.
  destruct Hd as (Hd1 & Hd2 & _).
  assert (d_frag_id g ∉ frag_ids got) as Hn by (intros Hx; apply (Hd2 _ Hx); left).
  assert (size (received (got ++ [g])) = S (length got)) as Hsz.
  { rewrite size_received; [rewrite length_app; cbn; lia|]. unfold frag_ids. rewrite map_app.
    apply NoDup_app. split_and!; [done| |apply NoDup_singleton].
    intros x Hx [->|H0]%elem_of_cons; [done|by apply elem_of_nil in H0]. }
  assert (created ∈ map snd ts) as Hcr.
  { apply list_elem_of_In, (in_map snd _ (now, created)). by apply list_elem_of_In. }
  unfold ReassemblerAdd. rewrite Et, Ek. destruct (Z.leb_spec total 1); [lia|].
  destruct Hst as [(-> & Hnone & Hroom)|(e & He & Ef & Eto & (a' & b' & p' & Efr) & Hc)].
  - rewrite (cleanup_none now _ _ Hnone). pose proof (cleanup_size now r).
    destruct (Z.leb_spec (ra_max (cleanupExpired now r)) (Z.of_nat (size (ra_entries (cleanupExpired now r)))));
      [cbn [cleanupExpired ra_max] in *; lia|].
    cbn [fe_fragments fe_total fe_frame fe_created].
    change (∅ : gmap Z bytes) with (received []). rewrite received_snoc by done. rewrite Hsz. cbn [length].
    eexists (mkFragEntry (received ([] ++ [g])) total g created), (cleanupExpired now r).
    cbn [fe_fragments fe_total fe_frame fe_created]. split_and!; try done; [by eexists _, _, _|].
    rewrite Eg. done.
  - assert (Sub now (fe_created e) <= ra_ttl r) as Hs.
    { apply list_elem_of_In, in_map_iff in Hc as (y & <- & Hy). apply (Htime (now, created) y); [done|].
      by apply list_elem_of_In. }
    rewrite (cleanup_lookup now r _ e He Hs). cbn [fe_fragments fe_total fe_frame fe_created].
    rewrite Ef, received_snoc, Hsz, Eto by done.
    eexists (mkFragEntry (received (got ++ [g])) total (fe_frame e) (fe_created e)), (cleanupExpired now r).
    cbn [fe_fragments fe_total fe_frame fe_created]. split_and!; try done; [by eexists _, _, _|].
    replace (Z.of_nat (S (length got))) with (Z.of_nat (length got) + 1) by lia.
    rewrite Efr. done.
Qed.

Lemma add_all_fragments f m total fs got rest r ts0 ts :
  2 <= total <= 255 -> fragments_of f m total fs -> fs = got ++ rest -> rest <> [] ->
  timely (ra_ttl r) (ts0 ++ ts) -> length rest = length ts ->
  (got = [] /\ ra_entries r !! entry_key f = None /\ Z.of_nat (size (ra_entries r)) < ra_max r) \/
  pending f total (map snd (ts0 ++ ts)) r got ->
  exists r', add_all r (zip rest ts) =
    (r', replicate (length rest - 1) (Ok None)
         ++ [Ok (Some (with_fragment f 1 0 (combine_fragments (received fs) total)))]) /\
    ra_entries r' !! entry_key f = None.
Proof.
  intros Ht HP. revert got r ts0 ts. induction rest as [|g rest IH]; intros got r ts0 ts Efs Hne Htime Hlen Hst; [done|].
  destruct ts as [|[now created] ts]; [done|]. cbn [zip zip_with add_all].
  assert (length fs = Z.to_nat total) as Hl.
  { rewrite (Permutation_length HP), length_map, length_seq. done. }
  destruct (add_fragment f m total fs got g rest r now created (ts0 ++ (now, created) :: ts))
    as (e & r1 & E1 & E2 & E3 & E4 & E5 & E6 & ->); auto.
  { apply elem_of_app. right. left. }
  rewrite Efs, length_app in Hl. cbn [length] in Hl.
  destruct (Z.eqb_spec (Z.of_nat (length got) + 1) total) as [Eq|Ne].
  - destruct rest; [|cbn [length] in Hl; lia]. destruct ts; [|done]. cbn [zip zip_with add_all length Nat.sub replicate app].
    eexists. rewrite Efs. split; [done|]. cbn. apply lookup_delete_eq.
  - assert (rest <> []) as Hne' by (intros ->; cbn [length] in Hl; lia).
    destruct (IH (got ++ [g]) (mkReassembler (<[entry_key f:=e]> (ra_entries r1)) (ra_ttl r) (ra_max r))
      (ts0 ++ [(now, created)]) ts) as (r' & Ha & Hn).
    + by rewrite <- app_assoc.
    + done.
    + by rewrite <- app_assoc.
    + by injection Hlen.
    + right. exists e. cbn [ra_entries]. rewrite <- app_assoc. split_and!; [by rewrite lookup_insert_eq|done..].
    + exists r'. rewrite Ha. split; [|done]. destruct rest as [|g' rest]; [done|].
      cbn [length Nat.sub replicate app]. by rewrite Nat.sub_0_r.
Qed.

(** * Properties *)

(** Datagrams on the wire.  What [EncodeDatagram] produces for a payload of
    at most 65535 bytes decodes to the same frame, IP addresses rewritten in
    their standard form and a fragment count of zero read as one; and no byte
    string makes [DecodeDatagram] panic. *)
Theorem datagram_roundtrip (f : DatagramFrame) (Hf : frame_typed f) :
  (forall b, EncodeDatagram f = Ok b -> DecodeDatagram b = Ok (canonical f)) /\
  (forall b, DecodeDatagram b <> Panic).
Proof. split; [intros b; by apply decode_encode_datagram|apply DecodeDatagram_total]. Qed.

(** Reassembly inverts fragmentation.  The fragments of a datagram that
    fits in 255 pieces, arriving in any order within the lifetime of an entry,
    to a reassembler with room and no datagram of the same key: every arrival
    but the last is held back and the last one yields the original datagram;
    its entry is then gone. *)
Theorem reassembly_inverts_fragmentation (f : DatagramFrame) (m : Z) (r : DatagramReassembler)
    (fs : list DatagramFrame) (ts : list (Time * Time))
    (Hm : 0 < m) (Hlarge : m < len (d_payload f)) (Hfits : len (d_payload f) <= 255 * m)
    (Hperm : Permutation fs (FragmentDatagram f m))
    (Hnew : ra_entries r !! entry_key f = None)
    (Hroom : Z.of_nat (size (ra_entries r)) < ra_max r)
    (Htimely : timely (ra_ttl r) ts) (Hlen : length fs = length ts) :
  exists r', add_all r (zip fs ts) =
    (r', replicate (length fs - 1) (Ok None) ++ [Ok (Some (with_fragment f 1 0 (d_payload f)))]) /\
    ra_entries r' !! entry_key f = None.
Proof.
  pose proof (fragment_count_range _ _ Hm Hlarge) as Ht.
  set (total := fragment_count (len (d_payload f)) m) in *.
  assert (fragments_of f m total fs) as HP.
  { unfold FragmentDatagram in Hperm. destruct (Z.leb_spec m 0); [lia|].
    destruct (Z.leb_spec (len (d_payload f)) m); [lia|]. exact Hperm. }
  assert (fs <> []) as Hne.
  { intros ->. apply Permutation_length in HP. rewrite length_map, length_seq in HP. cbn in HP. lia. }
  destruct (add_all_fragments f m total fs [] fs r [] ts) as (r' & Ha & Hn); auto.
  rewrite (combine_received f m fs Hm Hlarge Hfits HP : combine_fragments (received fs) total = _) in Ha. eauto.
Qed.

(** A datagram of more than 255 pieces is cut short without an error: the
    fragments carry its first 255 pieces only, and shorter ones are carried
    whole. *)
Theorem fragmentation_truncates (f : DatagramFrame) (m : Z)
    (Hm : 0 < m) (Hlarge : m < len (d_payload f)) :
  concat (map d_payload (FragmentDatagram f m)) = take (Z.to_nat (255 * m)) (d_payload f) /\
  Forall (fun g => len (d_payload g) <= m) (FragmentDatagram f m).
Proof.
  split.
  - rewrite FragmentDatagram_payloads by done.
    destruct (Z.le_gt_cases (len (d_payload f)) (255 * m)) as [H|H].
    + pose proof (fragment_count_covers (len (d_payload f)) m Hm) as Hc.
      rewrite !firstn_all2; [done|unfold len in *; lia..].
    + do 2 f_equal. unfold fragment_count. f_equal. apply Z.min_r.
      apply Z.div_le_lower_bound; lia.
  - unfold FragmentDatagram. destruct (Z.leb_spec m 0); [lia|].
    destruct (Z.leb_spec (len (d_payload f)) m); [lia|]. cbn [orb].
    apply Forall_forall. intros g Hg%list_elem_of_In. apply in_map_iff in Hg as (i & <- & _).
    cbn [fragment with_fragment d_payload]. unfold len. rewrite length_take, length_drop. lia.
Qed.

(** Fragment numbers are not checked against the count.  Two fragments of a
    two-fragment datagram, numbered 0 and 7, complete it, and the payload of the
    second is dropped. *)
Theorem reassembly_accepts_bad_ids :
  let frag id payload := mkFrame 1 1 2 id (len payload) 1 (bs "1.2.3.4") 53 payload in
  let now := now_at (1700000000 * Second) 0 in
  snd (add_all (NewDatagramReassembler 0 0)
         [(frag 0 (bs "head"), (now, now)); (frag 7 (bs "tail"), (now, now))]) =
  [Ok None; Ok (Some (mkFrame 1 1 1 0 4 1 (bs "1.2.3.4") 53 (bs "head")))].
Proof. vm_compute. reflexivity. Qed.

(** * Witnesses *)

Definition sampleFrame : DatagramFrame :=
  mkFrame 1001 42 1 0 0 AddrTypeIPv4 (bs "1.2.3.4") 8080 (bs "hello datagram").

Lemma datagram_roundtrip_witness :
  match EncodeDatagram sampleFrame with
  | Ok b => DecodeDatagram b =
            Ok (mkFrame 1001 42 1 0 14 AddrTypeIPv4 (bs "1.2.3.4") 8080 (bs "hello datagram"))
  | _ => False
  end.
Proof.
  exact (proj1 (datagram_roundtrip sampleFrame
    ltac:(unfold frame_typed; vm_compute; intuition congruence)) _ eq_refl).
Defined.

Definition sampleNow : Time * Time := (now_at (1700000000 * Second) 0, now_at (1700000000 * Second) 0).

(** Three fragments, the last one first. *)
Lemma reassembly_inverts_fragmentation_witness :
  exists r', add_all (NewDatagramReassembler 0 0)
      (zip (rev (FragmentDatagram sampleFrame 5)) (replicate 3 sampleNow)) =
    (r', replicate (length (rev (FragmentDatagram sampleFrame 5)) - 1) (Ok None)
         ++ [Ok (Some (with_fragment sampleFrame 1 0 (d_payload sampleFrame)))]) /\
    ra_entries r' !! entry_key sampleFrame = None.
Proof.
  refine (reassembly_inverts_fragmentation sampleFrame 5 (NewDatagramReassembler 0 0)
    (rev (FragmentDatagram sampleFrame 5)) (replicate 3 sampleNow) _ _ _ _ _ _ _ _).
  - reflexivity.
  - reflexivity.
  - vm_compute. congruence.
  - symmetry. apply Permutation_rev.
  - apply lookup_empty.
  - vm_compute. reflexivity.
  - intros x y Hx%elem_of_replicate_inv Hy%elem_of_replicate_inv. subst. vm_compute. congruence.
  - reflexivity.
Defined.

Lemma fragmentation_truncates_witness :
  concat (map d_payload (FragmentDatagram sampleFrame 5)) =
    take (Z.to_nat (255 * 5)) (d_payload sampleFrame) /\
  Forall (fun g => len (d_payload g) <= 5) (FragmentDatagram sampleFrame 5).
Proof. apply fragmentation_truncates; vm_compute; reflexivity. Defined.
