(* ===== verification/Policy.v ===== *)
(** internal/app/policy.go: the server's target policy (CIDRs for IP targets,
    host patterns for names), its parsers, and the validation of stream targets
    and IP strategies. *)

From Stdlib Require Import ZArith Lia Strings.Byte.
From stdpp Require Import base numbers list.
From S2P Require Import Prelude GoStrings GoNet NetAddr.

Local Open Scope Z_scope.
Local Open Scope go_scope.

(** * IP strategies *)

Definition IPStrategyDefault : Z := 0.
Definition IPStrategyIPv4Only : Z := 1.
Definition IPStrategyIPv6Only : Z := 2.
Definition IPStrategyPv4Pv6 : Z := 3.
Definition IPStrategyPv6Pv4 : Z := 4.

Section Policy.
Context {U : GoUnicode}.

Definition parseIPStrategyStrict (s : bytes) : res Z :=
  let s := RemoveByte (TrimSpace s) (z2b 32) in
  if bool_decide (s = bs "") then Ok IPStrategyDefault else
  if bool_decide (s = bs "4") then Ok IPStrategyIPv4Only else
  if bool_decide (s = bs "6") then Ok IPStrategyIPv6Only else
  if bool_decide (s = bs "4,6") then Ok IPStrategyPv4Pv6 else
  if bool_decide (s = bs "6,4") then Ok IPStrategyPv6Pv4 else
  Err (Errorf "仅支持空值、4、6、4,6 或 6,4" []).

Definition parseIPStrategy (s : bytes) : Z :=
  match parseIPStrategyStrict s with Ok v => v | _ => IPStrategyDefault end.

Definition validateIPStrategyValue (strategy : byte) : res unit :=
  if (b2z strategy =? IPStrategyDefault) || (b2z strategy =? IPStrategyIPv4Only)
     || (b2z strategy =? IPStrategyIPv6Only) || (b2z strategy =? IPStrategyPv4Pv6)
     || (b2z strategy =? IPStrategyPv6Pv4)
  then Ok tt else Err (Errorf "IP 策略无效: %d" [b2z strategy]).

(** * The policy *)

Record TargetPolicy : Type := mkPolicy {
  tp_allow : list IPNet;
  tp_deny : list IPNet;
  tp_allow_hosts : list bytes;
  tp_deny_hosts : list bytes;
}.

(** The loop of [parseCIDRList] over the parts between commas. *)
Fixpoint parse_cidrs (parts : list bytes) : res (list IPNet) :=
  match parts with
  | [] => Ok []
  | part :: parts' =>
      let item := TrimSpace part in
      if is_empty item then parse_cidrs parts' else
      match ParseCIDR item with
      | None => Err (Errorf "CIDR %q 解析失败: %w" [])
      | Some n => let! nets := parse_cidrs parts' in Ok (n :: nets)
      end
  end.

Definition parseCIDRList (raw : bytes) : res (list IPNet) :=
  if is_empty (TrimSpace raw) then Ok [] else parse_cidrs (Split raw c_comma).

(** [parseSourceCIDRs] refuses empty items. *)
Fixpoint parse_source_cidrs (parts : list bytes) : res (list IPNet) :=
  match parts with
  | [] => Ok []
  | part :: parts' =>
      let item := TrimSpace part in
      if is_empty item then Err (Errorf "CIDR 不能为空" []) else
      match ParseCIDR item with
      | None => Err (Errorf "CIDR %q 解析失败: %w" [])
      | Some n => let! nets := parse_source_cidrs parts' in Ok (n :: nets)
      end
  end.

Definition parseSourceCIDRs (raw : bytes) : res (list IPNet) :=
  if is_empty (TrimSpace raw) then Err (Errorf "至少需要一个 CIDR" [])
  else parse_source_cidrs (Split raw c_comma).

Definition star_dot : bytes := bs "*.".
Definition c_star : byte := z2b 42.

Definition validateHostPattern (pattern : bytes) : res unit :=
  if 0 <=? IndexByte pattern c_colon then Err (Errorf "host pattern %q 不能包含端口" []) else
  let! pattern :=
    if 0 <=? IndexByte pattern c_star then
      if negb (HasPrefix pattern star_dot) || negb (CountByte pattern c_star =? 1)
      then Err (Errorf "host pattern %q 只支持前缀通配符 *.example.com" [])
      else Ok (TrimPrefix pattern star_dot)
    else Ok pattern in
  match ParseIP pattern with
  | Some _ => Err (Errorf "host pattern %q 是 IP，目标 IP 请使用 CIDR 策略" [])
  | None =>
      if negb (ValidHostname pattern)
      then Err (Errorf "host pattern %q 不是合法主机名" []) else Ok tt
  end.

Fixpoint parse_patterns (parts : list bytes) : res (list bytes) :=
  match parts with
  | [] => Ok []
  | part :: parts' =>
      let item := NormalizeTargetHost part in
      if is_empty item then parse_patterns parts' else
      let! _ := validateHostPattern item in
      let! patterns := parse_patterns parts' in Ok (item :: patterns)
  end.

Definition parseHostPatternList (raw : bytes) : res (list bytes) :=
  if is_empty (TrimSpace raw) then Ok [] else parse_patterns (Split raw c_comma).

Definition parseTargetPolicy (allowRaw denyRaw allowHostRaw denyHostRaw : bytes) : res TargetPolicy :=
  let! allow := res_map_err (Wrapf "allow-target: %w") (parseCIDRList allowRaw) in
  let! deny := res_map_err (Wrapf "deny-target: %w") (parseCIDRList denyRaw) in
  let! allowHosts := res_map_err (Wrapf "allow-host: %w") (parseHostPatternList allowHostRaw) in
  let! denyHosts := res_map_err (Wrapf "deny-host: %w") (parseHostPatternList denyHostRaw) in
  Ok (mkPolicy allow deny allowHosts denyHosts).

Definition hostPatternMatches (pattern host : bytes) : bool :=
  if HasPrefix pattern star_dot
  then HasSuffix host (c_dot :: TrimPrefix pattern star_dot)
  else bool_decide (host = pattern).

(** The reasons of a refusal, without the values they mention. *)
Inductive reason : Type :=
  | BadTarget (e : error)
  | DenyHostHit (host pattern : bytes)
  | DomainUnderCIDRs
  | NoAllowHost (host : bytes)
  | DenyTargetHit (ip : bytes) (n : IPNet)
  | AllowHostNotForIP (ip : bytes)
  | NoAllowTarget (ip : bytes).

(** The branch of [Allows] for names. *)
Definition allows_name (p : TargetPolicy) (host : bytes) : unit + reason :=
  match List.find (fun pattern => hostPatternMatches pattern host) (tp_deny_hosts p) with
  | Some pattern => inr (DenyHostHit host pattern)
  | None =>
      if len (tp_allow_hosts p) =? 0 then
        if 0 <? len (tp_allow p) then inr DomainUnderCIDRs else inl tt
      else if existsb (fun pattern => hostPatternMatches pattern host) (tp_allow_hosts p)
           then inl tt else inr (NoAllowHost host)
  end.

(** The branch of [Allows] for IP addresses. *)
Definition allows_ip (p : TargetPolicy) (ip : bytes) : unit + reason :=
  match List.find (fun n => net_contains n ip) (tp_deny p) with
  | Some n => inr (DenyTargetHit ip n)
  | None =>
      if len (tp_allow p) =? 0 then
        if 0 <? len (tp_allow_hosts p) then inr (AllowHostNotForIP ip) else inl tt
      else if existsb (fun n => net_contains n ip) (tp_allow p)
           then inl tt else inr (NoAllowTarget ip)
  end.

(** [inl tt] is [(true, "")]; a refusal carries its reason. *)
Definition Allows (p : option TargetPolicy) (target : bytes) : unit + reason :=
  match p with
  | None => inl tt
  | Some p =>
      if (len (tp_allow p) =? 0) && (len (tp_deny p) =? 0) && (len (tp_allow_hosts p) =? 0)
         && (len (tp_deny_hosts p) =? 0) then inl tt else
      match SplitHostPort target with
      | Ok (host, _) =>
          let host := NormalizeTargetHost host in
          match ParseIP host with
          | None => allows_name p host
          | Some ip => allows_ip p ip
          end
      | Err e => inr (BadTarget e)
      | Panic => inr (BadTarget EOF)
      end
  end.

Definition ensureTargetAllowed (policy : option TargetPolicy) (target : bytes) : unit + reason :=
  match policy with
  | None => inl tt
  | Some _ => Allows policy target
  end.

Definition validateSmuxStreamTarget (target : bytes) : res unit :=
  res_map_err (Wrapf "目标地址无效: %w") (ValidateHostPort target).

(** * The documented decision table *)

Definition no_policy (p : TargetPolicy) : Prop :=
  tp_allow p = [] /\ tp_deny p = [] /\ tp_allow_hosts p = [] /\ tp_deny_hosts p = [].

(** docs/deployment.md: deny wins; if any allow rule is set the target must
    match one of its own kind. *)
Definition permits_ip (p : TargetPolicy) (ip : bytes) : Prop :=
  (forall n, n ∈ tp_deny p -> net_contains n ip = false) /\
  (tp_allow p = [] /\ tp_allow_hosts p = [] \/
   exists n, n ∈ tp_allow p /\ net_contains n ip = true).

Definition permits_name (p : TargetPolicy) (host : bytes) : Prop :=
  (forall x, x ∈ tp_deny_hosts p -> hostPatternMatches x host = false) /\
  (tp_allow p = [] /\ tp_allow_hosts p = [] \/
   exists x, x ∈ tp_allow_hosts p /\ hostPatternMatches x host = true).

Lemma find_none {A} (f : A -> bool) l :
  List.find f l = None <-> forall x, x ∈ l -> f x = false.
Proof.
  split.
  - intros H x Hx%list_elem_of_In. by apply (find_none f l).
  - intros H. destruct (List.find f l) eqn:E; [|done]. apply find_some in E as [Hin Ht].
    apply list_elem_of_In, H in Hin. congruence.
Qed.

Lemma existsb_elem {A} (f : A -> bool) l : existsb f l = true <-> exists x, x ∈ l /\ f x = true.
Proof. rewrite existsb_exists. by setoid_rewrite list_elem_of_In. Qed.

Lemma len_zero {A} (l : list A) : (len l =? 0) = true <-> l = [].
Proof. by destruct l. Qed.

Lemma len_positive {A} (l : list A) : (0 <? len l) = negb (len l =? 0).
Proof. destruct l; [done|]. unfold len. cbn. done. Qed.

Lemma allows_ip_ok p ip : allows_ip p ip = inl tt <-> permits_ip p ip.
Proof.
  unfold allows_ip, permits_ip. rewrite <- (find_none (fun n => net_contains n ip)).
  destruct (List.find _ (tp_deny p)); [by split; [|intros [? _]]|].
  rewrite len_positive. destruct (len (tp_allow p) =? 0) eqn:E.
  - apply len_zero in E. rewrite E. destruct (len (tp_allow_hosts p) =? 0) eqn:E2; cbn [negb].
    + apply len_zero in E2. by split; auto.
    + split; [done|]. intros [_ [[_ H]|(n & H & _)]]; [by apply len_zero in H; congruence|by apply elem_of_nil in H].
  - rewrite <- existsb_elem. destruct (existsb _ (tp_allow p)); split; auto; [done|].
    intros [_ [[H _]|H]]; [by apply len_zero in H; congruence|done].
Qed.

Lemma allows_name_ok p host : allows_name p host = inl tt <-> permits_name p host.
Proof.
  unfold allows_name, permits_name. rewrite <- (find_none (fun x => hostPatternMatches x host)).
  destruct (List.find _ (tp_deny_hosts p)); [by split; [|intros [? _]]|].
  rewrite len_positive. destruct (len (tp_allow_hosts p) =? 0) eqn:E.
  - apply len_zero in E. rewrite E. destruct (len (tp_allow p) =? 0) eqn:E2; cbn [negb].
    + apply len_zero in E2. by split; auto.
    + split; [done|]. intros [_ [[H _]|(n & H & _)]]; [by apply len_zero in H; congruence|by apply elem_of_nil in H].
  - rewrite <- existsb_elem. destruct (existsb _ (tp_allow_hosts p)); split; auto; [done|].
    intros [_ [[_ H]|H]]; [by apply len_zero in H; congruence|done].
Qed.

(** * Host patterns *)

(** What a parsed list of patterns contains: normalised names, or a wildcard
    and a name. *)
Definition pattern_ok (x : bytes) : Prop :=
  exists name, (x = name /\ c_star ∉ x \/ x = star_dot ++ name) /\ ValidHostname name = true /\
    ParseIP name = None /\ c_colon ∉ x.

Lemma validateHostPattern_ok x : validateHostPattern x = Ok tt -> pattern_ok x.
Proof.
  unfold validateHostPattern. destruct (Z.leb_spec 0 (IndexByte x c_colon)) as [|Hc]; [done|].
  assert (c_colon ∉ x) as Hn by (intros H%IndexByte_ge_elem; lia).
  destruct (Z.leb_spec 0 (IndexByte x c_star)) as [|Hs].
  - destruct (HasPrefix x star_dot) eqn:Ep; cbn [negb orb res_bind]; [|done].
    destruct (CountByte x c_star =? 1); cbn [negb res_bind]; [|done].
    destruct (ParseIP (TrimPrefix x star_dot)) eqn:Ei; [done|].
    destruct (ValidHostname (TrimPrefix x star_dot)) eqn:Ev; [|done]. intros _.
    exists (TrimPrefix x star_dot). split_and!; try done. right.
    apply HasPrefix_app in Ep as [y ->]. unfold TrimPrefix.
    assert (HasPrefix (star_dot ++ y) star_dot = true) as -> by (apply HasPrefix_app; eauto).
    by rewrite drop_app_length.
  - cbn [res_bind]. destruct (ParseIP x) eqn:Ei; [done|].
    destruct (ValidHostname x) eqn:Ev; [|done]. intros _. exists x.
    split_and!; try done. left. split; [done|]. intros H%IndexByte_ge_elem. lia.
Qed.

Lemma parse_patterns_ok parts l : parse_patterns parts = Ok l -> Forall pattern_ok l.
Proof.
  revert l. induction parts as [|part parts IH]; intros l; cbn [parse_patterns]; [intros [= <-]; constructor|].
  destruct (is_empty _); [apply IH|].
  destruct (validateHostPattern _) as [[]| |] eqn:Ev; cbn [res_bind]; [|done..].
  destruct (parse_patterns parts) as [l'| |]; cbn [res_bind]; [|done..]. intros [= <-].
  constructor; [by apply validateHostPattern_ok|by apply IH].
Qed.

Lemma parseHostPatternList_ok raw l : parseHostPatternList raw = Ok l -> Forall pattern_ok l.
Proof.
  unfold parseHostPatternList. destruct (is_empty _); [intros [= <-]; constructor|]. apply parse_patterns_ok.
Qed.

Lemma wildcard_matches name host :
  hostPatternMatches (star_dot ++ name) host = true <-> exists label, host = label ++ c_dot :: name.
Proof.
  unfold hostPatternMatches, TrimPrefix.
  assert (HasPrefix (star_dot ++ name) star_dot = true) as -> by (apply HasPrefix_app; eauto).
  rewrite drop_app_length. apply HasSuffix_app.
Qed.

Lemma plain_matches name host :
  c_star ∉ name -> hostPatternMatches name host = true <-> host = name.
Proof.
  intros Hn. unfold hostPatternMatches. destruct (HasPrefix name star_dot) eqn:E.
  - apply HasPrefix_app in E as [t ->]. destruct Hn. apply elem_of_app. left. left.
  - apply bool_decide_eq_true.
Qed.

(** * Properties *)

(** The policy decides as the deployment guide's table says.  Without rules
    everything is allowed; otherwise a target with no host and port is refused,
    a literal IP is decided by the CIDR rules and a name by the host rules: deny
    wins, and once any allow rule is set the target must match one of its own
    kind. *)
Theorem target_policy_table (p : TargetPolicy) (target : bytes) :
  ensureTargetAllowed None target = inl tt /\
  (no_policy p -> ensureTargetAllowed (Some p) target = inl tt) /\
  (~ no_policy p ->
   (ensureTargetAllowed (Some p) target = inl tt <->
    exists host port, SplitHostPort target = Ok (host, port) /\
      match ParseIP (NormalizeTargetHost host) with
      | Some ip => permits_ip p ip
      | None => permits_name p (NormalizeTargetHost host)
      end)).
Proof.
  split; [done|]. unfold ensureTargetAllowed, Allows, no_policy.
  destruct ((len (tp_allow p) =? 0) && (len (tp_deny p) =? 0) && (len (tp_allow_hosts p) =? 0)
            && (len (tp_deny_hosts p) =? 0)) eqn:E.
  - rewrite !andb_true_iff, !len_zero in E. tauto.
  - rewrite <- not_true_iff_false, !andb_true_iff, !len_zero in E. split; [tauto|]. intros _.
    destruct (SplitHostPort target) as [[host port]| |]; [|by split; [|intros (? & ? & ? & _)]..].
    destruct (ParseIP (NormalizeTargetHost host)) eqn:Ei; [rewrite allows_ip_ok|rewrite allows_name_ok];
      (split; [intros H; exists host, port; by rewrite Ei|intros (h & q & [= <- <-] & H); by rewrite Ei in H]).
Qed.

(** Host patterns.  Every pattern of a parsed policy is a plain name, which
    matches only itself, or [*.] and a name, which matches exactly the names
    that extend it by labels to the left and never the name itself. *)
Theorem host_patterns_match (ar dr ahr dhr : bytes) (p : TargetPolicy) (x host : bytes)
    (Hparse : parseTargetPolicy ar dr ahr dhr = Ok p)
    (Hin : x ∈ tp_allow_hosts p \/ x ∈ tp_deny_hosts p) :
  exists name, ValidHostname name = true /\ ParseIP name = None /\
    ((x = name /\ (hostPatternMatches x host = true <-> host = name)) \/
     (x = star_dot ++ name /\
      (hostPatternMatches x host = true <-> exists label, host = label ++ c_dot :: name) /\
      hostPatternMatches x name = false)).
Proof.
  unfold parseTargetPolicy in Hparse.
  destruct (parseCIDRList ar) as [allow| |], (parseCIDRList dr) as [deny| |],
    (parseHostPatternList ahr) as [ah| |] eqn:E1, (parseHostPatternList dhr) as [dh| |] eqn:E2;
    cbn [res_map_err res_bind] in Hparse; try done. injection Hparse as <-. cbn in Hin.
  apply parseHostPatternList_ok in E1, E2. rewrite Forall_forall in E1, E2.
  assert (pattern_ok x) as (name & Hx & Hv & Hp & _) by (destruct Hin; auto).
  exists name. split_and!; [done..|]. destruct Hx as [[-> Hs]| ->].
  - left. split; [done|]. by apply plain_matches.
  - right. split_and!; [done|apply wildcard_matches|].
    apply not_true_iff_false. rewrite wildcard_matches. intros [label E].
    apply (f_equal length) in E. rewrite length_app in E. cbn [length] in E. lia.
Qed.

End Policy.

(** * Witnesses *)

Local Existing Instance ascii_only_unicode.

Lemma host_patterns_match_witness :
  exists name, ValidHostname name = true /\ ParseIP name = None /\
    ((bs "*.example.com" = name /\
      (hostPatternMatches (bs "*.example.com") (bs "a.b.example.com") = true <-> bs "a.b.example.com" = name)) \/
     (bs "*.example.com" = star_dot ++ name /\
      (hostPatternMatches (bs "*.example.com") (bs "a.b.example.com") = true <->
         exists label, bs "a.b.example.com" = label ++ c_dot :: name) /\
      hostPatternMatches (bs "*.example.com") name = false)).
Proof.
  apply (host_patterns_match (bs "10.0.0.0/8") [] (bs "api.test, *.Example.com.") (bs "bad.test")
    (match parseTargetPolicy (bs "10.0.0.0/8") [] (bs "api.test, *.Example.com.") (bs "bad.test") with
     | Ok p => p | _ => mkPolicy [] [] [] [] end)).
  - vm_compute. reflexivity.
  - left. vm_compute. right. left.
Defined.

(** The policy of the guide's example. *)
Definition guidePolicy : TargetPolicy :=
  match parseTargetPolicy (bs "10.0.0.0/8,192.168.0.0/16") (bs "10.0.9.0/24")
          (bs "api.internal.example.com,*.svc.example.com") (bs "bad.internal.example.com") with
  | Ok p => p
  | _ => mkPolicy [] [] [] []
  end.

Lemma target_policy_table_witness :
  ensureTargetAllowed (Some guidePolicy) (bs "10.0.8.1:443") = inl tt <->
  exists host port, SplitHostPort (bs "10.0.8.1:443") = Ok (host, port) /\
    match ParseIP (NormalizeTargetHost host) with
    | Some ip => permits_ip guidePolicy ip
    | None => permits_name guidePolicy (NormalizeTargetHost host)
    end.
Proof.
  apply (target_policy_table guidePolicy (bs "10.0.8.1:443")).
  intros [H _]. vm_compute in H. discriminate H.
Defined.
