(* ===== verification/NonceCache.v ===== *)
(** internal/app/server.go: [nonceReplayCache], the server's memory of the
    handshake nonces it has accepted, a map with a FIFO order, a lifetime and a
    capacity. *)

From Stdlib Require Import ZArith Lia Strings.Byte.
From stdpp Require Import base numbers list gmap.
From S2P Require Import Prelude GoStrings GoNet NetAddr GoTime.

Local Open Scope Z_scope.

(** * The cache *)

Record nonceReplayCache : Type := mkNonces {
  nc_max : Z;
  nc_entries : gmap bytes Time;
  nc_order : list bytes;
}.

Definition newNonceReplayCache (max : Z) : nonceReplayCache :=
  mkNonces (if max <=? 0 then 65536 else max) ∅ [].

(** [%x] of a byte slice. *)
Fixpoint hex_encode (b : bytes) : bytes :=
  match b with
  | [] => []
  | c :: b' => hexdigit (b2z c / 16) :: hexdigit (b2z c mod 16) :: hex_encode b'
  end.

(** [fmt.Sprintf("%x:%d:%x", sessionID, channelID, nonce)]. *)
Definition nonce_key (sessionID : bytes) (channelID : Z) (nonce : bytes) : bytes :=
  hex_encode sessionID ++ [c_colon] ++ Itoa channelID ++ [c_colon] ++ hex_encode nonce.

(** The loop that drops expired keys. *)
Fixpoint purge (cutoff : Time) (order : list bytes) (entries : gmap bytes Time)
    : list bytes * gmap bytes Time :=
  match order with
  | [] => ([], entries)
  | key :: order' =>
      match entries !! key with
      | Some t =>
          if Before t cutoff then purge cutoff order' (delete key entries)
          else let '(o, e) := purge cutoff order' entries in (key :: o, e)
      | None => purge cutoff order' entries
      end
  end.

(** [for len(c.order) > c.max]: the oldest goes. *)
Fixpoint drop_oldest (fuel : nat) (max : Z) (order : list bytes) (entries : gmap bytes Time)
    : list bytes * gmap bytes Time :=
  if max <? len order then
    match fuel, order with
    | S fuel', old :: order' => drop_oldest fuel' max order' (delete old entries)
    | _, _ => (order, entries)
    end
  else (order, entries).

Definition seenOrStore_key (c : nonceReplayCache) (key : bytes) (now : Time) (ttl : Z)
    : nonceReplayCache * bool :=
  let '(order, entries) :=
    if 0 <? ttl then purge (Add now (- ttl)) (nc_order c) (nc_entries c)
    else (nc_order c, nc_entries c) in
  match entries !! key with
  | Some _ => (mkNonces (nc_max c) entries order, true)
  | None =>
      let entries := <[key := now]> entries in
      let order := order ++ [key] in
      let '(order, entries) := drop_oldest (length order) (nc_max c) order entries in
      (mkNonces (nc_max c) entries order, false)
  end.

Definition seenOrStore (c : nonceReplayCache) (sessionID : bytes) (channelID : Z) (nonce : bytes)
    (now : Time) (ttl : Z) : nonceReplayCache * bool :=
  seenOrStore_key c (nonce_key sessionID channelID nonce) now ttl.

(** * Keys are injective *)

Lemma hexdigit_inj a b : 0 <= a < 16 -> 0 <= b < 16 -> hexdigit a = hexdigit b -> a = b.
Proof.
  intros Ha Hb E. apply (f_equal b2z) in E. unfold hexdigit in E.
  destruct (Z.ltb_spec a 10), (Z.ltb_spec b 10); rewrite !b2z_z2b_small in E by lia; lia.
Qed.

Lemma hexdigit_colon d : 0 <= d < 16 -> hexdigit d <> c_colon.
Proof.
  intros Hd E. apply (f_equal b2z) in E. unfold hexdigit, c_colon in E.
  destruct (Z.ltb_spec d 10); rewrite !b2z_z2b_small in E by lia; lia.
Qed.

Lemma nibbles c : 0 <= b2z c / 16 < 16 /\ 0 <= b2z c mod 16 < 16.
Proof.
  pose proof (b2z_range c). split; [|apply Z.mod_pos_bound; lia].
  split; [apply Z.div_pos; lia|apply Z.div_lt_upper_bound; lia].
Qed.

Lemma hex_encode_inj a b : hex_encode a = hex_encode b -> a = b.
Proof.
  revert b. induction a as [|x a IH]; intros [|y b] E; try done. cbn [hex_encode] in E.
  injection E as E1 E2 E3. destruct (nibbles x), (nibbles y).
  apply hexdigit_inj in E1; [|done..]. apply hexdigit_inj in E2; [|done..].
  f_equal; [|by apply IH]. apply b2z_inj.
  pose proof (Z.div_mod (b2z x) 16). pose proof (Z.div_mod (b2z y) 16). lia.
Qed.

Lemma hex_encode_colon b : c_colon ∉ hex_encode b.
Proof.
  induction b as [|c b IH]; cbn [hex_encode]; [apply not_elem_of_nil|]. destruct (nibbles c).
  apply not_elem_of_cons. split; [intros E; symmetry in E; by apply hexdigit_colon in E|].
  apply not_elem_of_cons. split; [intros E; symmetry in E; by apply hexdigit_colon in E|done].
Qed.

(** A string without a separator, the separator, and a rest. *)
Lemma split_at_sep (s t a b : bytes) (c : byte) :
  c ∉ s -> c ∉ t -> s ++ c :: a = t ++ c :: b -> s = t /\ a = b.
Proof.
  intros Hs Ht E. assert (length s = length t) as L.
  { pose proof (IndexByte_app s c a Hs) as H1. rewrite E in H1. rewrite (IndexByte_app t c b Ht) in H1.
    unfold len in H1. lia. }
  apply app_inj_1 in E as [-> E]; [|done]. by injection E.
Qed.

Lemma nonce_key_inj s c n s' c' n' :
  0 <= c < 2 ^ 32 -> 0 <= c' < 2 ^ 32 ->
  nonce_key s c n = nonce_key s' c' n' -> s = s' /\ c = c' /\ n = n'.
Proof.
  intros Hc Hc' E. unfold nonce_key in E. cbn [app] in E.
  apply split_at_sep in E as [E1%hex_encode_inj E]; [|apply hex_encode_colon..].
  apply split_at_sep in E as [E2 E3%hex_encode_inj];
    [|apply Itoa_not_elem; [lia|by vm_compute]..].
  split_and!; [done| |done].
  assert (Some c = Some c') as [=]; [|done].
  rewrite <- (Atoi_Itoa c), <- (Atoi_Itoa c'), E2 by lia. done.
Qed.

(** * Invariant *)

Record nonces_ok (c : nonceReplayCache) : Prop := {
  no_max : 0 < nc_max c;
  no_nodup : NoDup (nc_order c);
  no_dom : forall k, is_Some (nc_entries c !! k) <-> k ∈ nc_order c;
  no_len : len (nc_order c) <= nc_max c;
}.

(** Live keys of a purge keep their order and their times. *)
Lemma purge_spec cutoff order entries o e :
  NoDup order -> (forall k, k ∈ order -> is_Some (entries !! k)) ->
  purge cutoff order entries = (o, e) ->
  o = List.filter (fun k => match entries !! k with Some t => negb (Before t cutoff) | None => false end) order /\
  (forall k, e !! k = if bool_decide (k ∈ order) then
                        match entries !! k with Some t => if Before t cutoff then None else Some t | None => None end
                      else entries !! k).
Proof.
  revert entries o e. induction order as [|k order IH]; intros entries o e Hd Hin Hp.
  { injection Hp as <- <-. split; [done|]. intros k. by rewrite bool_decide_eq_false_2 by apply not_elem_of_nil. }
  apply NoDup_cons in Hd as [Hn Hd]. cbn [purge List.filter] in *.
  destruct (Hin k (list_elem_of_here _ _)) as [t Ht]. rewrite Ht in Hp |- *.
  destruct (Before t cutoff) eqn:Eb; cbn [negb].
  - destruct (IH (delete k entries) o e Hd) as [-> He]; [|done|].
    { intros k' Hk'. rewrite lookup_delete_ne by (by intros <-). apply Hin. by right. }
    split.
    + apply List.filter_ext_in. intros k' Hk'%list_elem_of_In. by rewrite lookup_delete_ne by (by intros <-).
    + intros k'. rewrite He. destruct (decide (k' = k)) as [->|Hne].
      * rewrite (bool_decide_eq_false_2 (k ∈ order)) by done. rewrite lookup_delete_eq.
        rewrite bool_decide_eq_true_2 by left. by rewrite Ht, Eb.
      * rewrite lookup_delete_ne by done. rewrite (bool_decide_ext (k' ∈ k :: order) (k' ∈ order)); [done|].
        rewrite elem_of_cons. tauto.
  - destruct (purge cutoff order entries) as [o1 e1] eqn:Ep. injection Hp as <- <-.
    destruct (IH entries o1 e1 Hd) as [-> He]; [|done|].
    { intros k' Hk'. apply Hin. by right. }
    split; [done|]. intros k'. rewrite He. destruct (decide (k' = k)) as [->|Hne].
    + rewrite (bool_decide_eq_false_2 (k ∈ order)) by done. rewrite bool_decide_eq_true_2 by left.
      by rewrite Ht, Eb.
    + rewrite (bool_decide_ext (k' ∈ k :: order) (k' ∈ order)); [done|]. rewrite elem_of_cons. tauto.
Qed.

(** * The cache as a list of keys with their times, oldest first *)

Definition history_of (entries : gmap bytes Time) (order : list bytes) : list (bytes * Time) :=
  map (fun k => (k, default zeroTime (entries !! k))) order.

Definition history (c : nonceReplayCache) : list (bytes * Time) := history_of (nc_entries c) (nc_order c).

Definition live (ttl : Z) (now : Time) (l : list (bytes * Time)) : list (bytes * Time) :=
  if 0 <? ttl then List.filter (fun e => negb (Before (snd e) (Add now (- ttl)))) l else l.

(** The most recent [max] entries. *)
Definition recent (max : Z) (l : list (bytes * Time)) : list (bytes * Time) :=
  drop (length l - Z.to_nat max) l.

Lemma history_keys entries order : map fst (history_of entries order) = order.
Proof. unfold history_of. rewrite map_map. apply map_id. Qed.

(** [entries] and [order] describe the same keys. *)
Definition synced (order : list bytes) (entries : gmap bytes Time) : Prop :=
  NoDup order /\ forall k, is_Some (entries !! k) <-> k ∈ order.

Lemma filter_elem {A} (f : A -> bool) l x : x ∈ List.filter f l <-> x ∈ l /\ f x = true.
Proof. rewrite !list_elem_of_In. apply filter_In. Qed.

Lemma filter_nodup {A} (f : A -> bool) (l : list A) : NoDup l -> NoDup (List.filter f l).
Proof. rewrite !NoDup_ListNoDup. apply List.NoDup_filter. Qed.

Lemma purge_history cutoff order entries o e :
  synced order entries -> purge cutoff order entries = (o, e) ->
  synced o e /\
  history_of e o = List.filter (fun x => negb (Before (snd x) cutoff)) (history_of entries order).
Proof.
  intros [Hd Hs] Hp. apply purge_spec in Hp as [-> He]; [|done|intros k; apply Hs].
  assert (forall k, k ∈ List.filter (fun k => match entries !! k with
                     | Some t => negb (Before t cutoff) | None => false end) order ->
                    exists t, entries !! k = Some t /\ e !! k = Some t) as Hlive.
  { intros k [Hk Hb]%filter_elem. destruct (entries !! k) as [t|] eqn:Et; [|done]. exists t.
    rewrite He, bool_decide_eq_true_2, Et by done. by destruct (Before t cutoff). }
  split; [split; [by apply filter_nodup|]|].
  - intros k. split.
    + rewrite He. intros [t Ht]. apply filter_elem. case_bool_decide as Hk.
      * split; [done|]. destruct (entries !! k) as [t'|]; [|done]. by destruct (Before t' cutoff).
      * destruct Hk. apply Hs. eauto.
    + intros (t & _ & Ht)%Hlive. eauto.
  - unfold history_of. clear Hd. assert (forall k, k ∈ order -> is_Some (entries !! k)) as Hin by (intros; by apply Hs).
    assert (forall k, k ∈ order -> negb (Before (default zeroTime (entries !! k)) cutoff) = true ->
              e !! k = entries !! k) as Heq.
    { intros k Hk Hb. rewrite He, bool_decide_eq_true_2 by done. destruct (Hin k Hk) as [t Ht].
      rewrite Ht in *. cbn in Hb. by destruct (Before t cutoff). }
    clear He Hs Hlive. induction order as [|k order IH]; [done|].
    assert (is_Some (entries !! k)) as [t Ht] by (apply Hin; left).
    cbn [map List.filter snd]. rewrite Ht. cbn [from_option id].
    specialize (IH (fun k' H => Hin k' (list_elem_of_further _ _ _ H)) (fun k' H => Heq k' (list_elem_of_further _ _ _ H))).
    destruct (Before t cutoff) eqn:Eb; cbn [negb map]; [done|]. rewrite IH. do 2 f_equal.
    rewrite Heq; [by rewrite Ht|left|by rewrite Ht; cbn; rewrite Eb].
Qed.

Lemma synced_tail k order entries : synced (k :: order) entries -> synced order (delete k entries).
Proof.
  intros [[Hn Hd]%NoDup_cons Hs]. split; [done|]. intros k'.
  destruct (decide (k' = k)) as [->|Hne].
  - rewrite lookup_delete_eq. split; [by intros [? ?]|done].
  - rewrite lookup_delete_ne by done. rewrite Hs, elem_of_cons. tauto.
Qed.

Lemma history_delete k order entries :
  k ∉ order -> history_of (delete k entries) order = history_of entries order.
Proof.
  intros Hn. unfold history_of. apply map_ext_in. intros k' Hk'%list_elem_of_In.
  by rewrite lookup_delete_ne by (by intros ->).
Qed.

Lemma drop_oldest_history fuel max order entries o e :
  (length order <= fuel)%nat -> 0 <= max -> synced order entries ->
  drop_oldest fuel max order entries = (o, e) ->
  synced o e /\ len o <= max /\ history_of e o = recent max (history_of entries order).
Proof.
  intros Hf Hm. revert order entries Hf. induction fuel as [|fuel IH]; intros order entries Hf Hs Hd;
    cbn [drop_oldest] in Hd; destruct (Z.ltb_spec max (len order)) as [Hlt|Hge].
  1: { destruct order; [unfold len in Hlt; cbn in Hlt; lia|cbn in Hf; lia]. }
  2: { destruct order as [|k order]; [unfold len in Hlt; cbn in Hlt; lia|].
       cbn [length] in Hf. apply IH in Hd as (H1 & H2 & H3); [|lia|by apply synced_tail].
       split_and!; [done..|]. rewrite H3. destruct Hs as [[Hn _]%NoDup_cons _].
       rewrite history_delete by done. unfold recent.
       change (history_of entries (k :: order)) with ((k, default zeroTime (entries !! k)) :: history_of entries order).
       cbn [length]. assert (length (history_of entries order) = length order) as L by apply length_map.
       rewrite L. unfold len in Hlt. cbn [length] in Hlt.
       replace (S (length order) - Z.to_nat max)%nat with (S (length order - Z.to_nat max)) by lia. done. }
  all: injection Hd as <- <-; split_and!; [done..|]; unfold recent;
    assert (length (history_of entries order) = length order) as L by apply length_map;
    unfold len in Hge; rewrite L; replace (length order - Z.to_nat max)%nat with 0%nat by lia; done.
Qed.

(** One call of the cache, on the list. *)
Lemma seenOrStore_key_spec c key now ttl :
  nonces_ok c ->
  let l := live ttl now (history c) in
  let '(c', seen) := seenOrStore_key c key now ttl in
  nonces_ok c' /\ nc_max c' = nc_max c /\
  seen = bool_decide (key ∈ map fst l) /\
  history c' = if seen then l else recent (nc_max c) (l ++ [(key, now)]).
Proof.
  intros [H1 H2 H3 H4] l. unfold seenOrStore_key.
  destruct (if 0 <? ttl then purge (Add now (- ttl)) (nc_order c) (nc_entries c)
            else (nc_order c, nc_entries c)) as [o e] eqn:Ep.
  assert (synced o e /\ history_of e o = l) as [[Hd Hs] Hl].
  { unfold l, live. destruct (0 <? ttl); [|by injection Ep as <- <-].
    by apply purge_history in Ep. }
  assert (map fst l = o) as Hk by (rewrite <- Hl; apply history_keys).
  assert (len o <= nc_max c) as Hlen.
  { assert (length l <= length (history c))%nat as Hle.
    { unfold l, live. destruct (0 <? ttl); [|done]. apply List.filter_length_le. }
    apply (f_equal length) in Hk. rewrite length_map in Hk.
    unfold history, history_of in Hle. rewrite length_map in Hle. unfold len in *. lia. }
  destruct (e !! key) as [t|] eqn:Ek.
  - assert (key ∈ o) as Hin by (apply Hs; eauto).
    split_and!; [by constructor|done| |done]. rewrite Hk. by rewrite bool_decide_eq_true_2.
  - assert (key ∉ o) as Hn by (intros Hin%Hs; rewrite Ek in Hin; by destruct Hin).
    destruct (drop_oldest _ (nc_max c) (o ++ [key]) (<[key:=now]> e)) as [o' e'] eqn:Ed.
    apply drop_oldest_history in Ed as ([Hd' Hs'] & Hl' & Hh); [|done|lia|].
    + split_and!; [by constructor|done|by rewrite Hk, bool_decide_eq_false_2|].
      unfold history. cbn [nc_entries nc_order]. rewrite Hh. f_equal.
      unfold history_of. rewrite map_app. cbn [map]. rewrite lookup_insert_eq. cbn [from_option id].
      rewrite <- Hl. unfold history_of. f_equal. apply map_ext_in. intros k Hk'%list_elem_of_In.
      by rewrite lookup_insert_ne by (by intros <-).
    + split.
      * apply NoDup_app. split_and!; [done| |apply NoDup_singleton].
        intros x Hx ->%list_elem_of_singleton. done.
      * intros k. rewrite elem_of_app, list_elem_of_singleton. destruct (decide (k = key)) as [->|Hne].
        -- rewrite lookup_insert_eq. split; [by right|by eauto].
        -- rewrite lookup_insert_ne by done. rewrite Hs. tauto.
Qed.

(** * How long a key is held *)

(** [k] is in the list with time [t0] and at most [j] younger entries. *)
Definition held (l : list (bytes * Time)) (k : bytes) (t0 : Time) (j : nat) : Prop :=
  exists l1 l2, l = l1 ++ (k, t0) :: l2 /\ (length l2 <= j)%nat.

Definition unexpired (t0 : Time) (ttl : Z) (now : Time) : Prop :=
  ttl <= 0 \/ Before t0 (Add now (- ttl)) = false.

Lemma held_live l k t0 j ttl now :
  held l k t0 j -> unexpired t0 ttl now -> held (live ttl now l) k t0 j.
Proof.
  intros (l1 & l2 & -> & Hj) Hu. unfold live. destruct (Z.ltb_spec 0 ttl); [|by exists l1, l2].
  destruct Hu as [|Hb]; [lia|]. rewrite List.filter_app. cbn [List.filter snd]. rewrite Hb. cbn [negb].
  eexists _, _. split; [reflexivity|].
  pose proof (List.filter_length_le (fun e : bytes * Time => negb (Before (snd e) (Add now (- ttl)))) l2). lia.
Qed.

Lemma held_recent l k t0 j x max :
  held l k t0 j -> Z.of_nat j + 2 <= max -> held (recent max (l ++ [x])) k t0 (S j).
Proof.
  intros (l1 & l2 & -> & Hj) Hm. unfold recent.
  assert (length ((l1 ++ (k, t0) :: l2) ++ [x]) - Z.to_nat max <= length l1)%nat as Hd.
  { rewrite !length_app. cbn [length]. lia. }
  rewrite <- app_assoc. rewrite <- app_assoc in Hd.
  rewrite drop_app_le by done. eexists _, (l2 ++ [x]). split; [reflexivity|].
  rewrite length_app. cbn [length]. lia.
Qed.

Lemma held_in l k t0 j : held l k t0 j -> k ∈ map fst l.
Proof.
  intros (l1 & l2 & -> & _). rewrite map_app. apply elem_of_app. right. cbn [map fst]. left.
Qed.

Lemma held_step c key now ttl k t0 j :
  nonces_ok c -> held (history c) k t0 j -> unexpired t0 ttl now -> Z.of_nat j + 2 <= nc_max c ->
  let c' := fst (seenOrStore_key c key now ttl) in
  nonces_ok c' /\ nc_max c' = nc_max c /\ held (history c') k t0 (S j).
Proof.
  intros Hok Hh Hu Hj. pose proof (seenOrStore_key_spec c key now ttl Hok) as Hs.
  destruct (seenOrStore_key c key now ttl) as [c' seen]. destruct Hs as (Hok' & Em & _ & Eh).
  cbn [fst]. split_and!; [done..|]. rewrite Eh. apply (held_live _ _ _ _ ttl now) in Hh; [|done].
  destruct seen; [|by apply held_recent]. destruct Hh as (l1 & l2 & E & Hl). exists l1, l2. split; [done|lia].
Qed.

(** Other handshakes in between. *)
Fixpoint run_calls (c : nonceReplayCache) (ttl : Z) (calls : list (bytes * Time)) : nonceReplayCache :=
  match calls with
  | [] => c
  | (key, now) :: calls' => run_calls (fst (seenOrStore_key c key now ttl)) ttl calls'
  end.

Lemma held_calls c ttl calls k t0 j :
  nonces_ok c -> held (history c) k t0 j -> Forall (fun x => unexpired t0 ttl (snd x)) calls ->
  Z.of_nat j + Z.of_nat (length calls) + 1 <= nc_max c ->
  let c' := run_calls c ttl calls in
  nonces_ok c' /\ held (history c') k t0 (j + length calls).
Proof.
  revert c j. induction calls as [|[key now] calls IH]; intros c j Hok Hh Hu Hj; cbn [run_calls].
  - by rewrite Nat.add_0_r.
  - inversion Hu as [|? ? Hu1 Hu2]; subst. cbn [length] in *.
    destruct (held_step c key now ttl k t0 j Hok Hh Hu1) as (Hok' & Em & Hh'); [lia|].
    cbn [length]. replace (j + S (length calls))%nat with (S j + length calls)%nat by lia.
    apply IH; [done..|]. rewrite Em. lia.
Qed.

Lemma replay_seen c s ch n t0 now ttl calls :
  nonces_ok c -> snd (seenOrStore c s ch n t0 ttl) = false ->
  Forall (fun x => unexpired t0 ttl (snd x)) calls -> unexpired t0 ttl now ->
  Z.of_nat (length calls) < nc_max c ->
  snd (seenOrStore (run_calls (fst (seenOrStore c s ch n t0 ttl)) ttl calls) s ch n now ttl) = true.
Proof.
  intros Hok Hfirst Htimes Hnow Hfew.
  pose proof (seenOrStore_key_spec c (nonce_key s ch n) t0 ttl Hok) as Hs. unfold seenOrStore in *.
  destruct (seenOrStore_key c (nonce_key s ch n) t0 ttl) as [c1 seen]. cbn [fst snd] in *. subst seen.
  destruct Hs as (Hok1 & Em & _ & Eh).
  assert (held (history c1) (nonce_key s ch n) t0 0) as Hh.
  { rewrite Eh. unfold recent. destruct Hok as [Hmax _ _ _].
    rewrite drop_app_le by (rewrite length_app; cbn [length]; lia). by eexists _, []. }
  destruct (held_calls c1 ttl calls (nonce_key s ch n) t0 0 Hok1 Hh Htimes) as [Hok2 Hh2]; [lia|].
  pose proof (seenOrStore_key_spec (run_calls c1 ttl calls) (nonce_key s ch n) now ttl Hok2) as Hs2.
  destruct (seenOrStore_key (run_calls c1 ttl calls) (nonce_key s ch n) now ttl) as [c3 seen3].
  destruct Hs2 as (_ & _ & -> & _). cbn [snd]. apply bool_decide_eq_true.
  eapply held_in, held_live; [exact Hh2|done].
Qed.

(** * Properties *)

(** The nonce cache is a list of keys with their times.  A call forgets
    the entries older than the lifetime, answers whether the session, channel
    and nonce are among the rest, and if not adds them and keeps the most
    recent entries up to the capacity; the map and the order of keys stay in
    step, without duplicates, and within the capacity. *)
Theorem nonce_cache_refines_list (c : nonceReplayCache) (s : bytes) (ch : Z) (n : bytes)
    (now : Time) (ttl : Z) (Hok : nonces_ok c) :
  let key := nonce_key s ch n in
  let l := live ttl now (history c) in
  let '(c', seen) := seenOrStore c s ch n now ttl in
  nonces_ok c' /\ nc_max c' = nc_max c /\
  seen = bool_decide (key ∈ map fst l) /\
  history c' = if seen then l else recent (nc_max c) (l ++ [(key, now)]).
Proof. exact (seenOrStore_key_spec c (nonce_key s ch n) now ttl Hok). Qed.

(** A replayed nonce is recognised.  Once a session, channel and nonce have
    been accepted at [t0], presenting the same three again is reported as a
    replay at every later time within the lifetime, as long as fewer handshakes
    than the capacity came in between; and distinct triples never share a key. *)
Theorem nonce_replay_detected (c : nonceReplayCache) (s : bytes) (ch : Z) (n : bytes)
    (t0 now : Time) (ttl : Z) (calls : list (bytes * Time))
    (Hok : nonces_ok c)
    (Hfirst : snd (seenOrStore c s ch n t0 ttl) = false)
    (Htimes : Forall (fun x => unexpired t0 ttl (snd x)) calls)
    (Hnow : unexpired t0 ttl now)
    (Hfew : Z.of_nat (length calls) < nc_max c) :
  snd (seenOrStore (run_calls (fst (seenOrStore c s ch n t0 ttl)) ttl calls) s ch n now ttl) = true /\
  (forall s' ch' n', 0 <= ch < 2 ^ 32 -> 0 <= ch' < 2 ^ 32 ->
     nonce_key s ch n = nonce_key s' ch' n' -> s = s' /\ ch = ch' /\ n = n').
Proof. split; [by apply replay_seen|intros *; apply nonce_key_inj]. Qed.

(** * Witnesses *)

Lemma newNonceReplayCache_ok max : nonces_ok (newNonceReplayCache max).
Proof.
  unfold newNonceReplayCache. constructor; cbn [nc_max nc_order nc_entries].
  - destruct (Z.leb_spec max 0); lia.
  - constructor.
  - intros k. rewrite lookup_empty. split; [by intros [? ?]|by intros ?%elem_of_nil].
  - unfold len. cbn. destruct (Z.leb_spec max 0); lia.
Qed.

Definition noon : Time := now_at (1700000000 * Second) 0.
Definition noon_plus (s : Z) : Time := now_at ((1700000000 + s) * Second) (s * Second).

Lemma nonce_cache_refines_list_witness :
  let key := nonce_key (bs "s") 1 (bs "n") in
  let l := live (60 * Second) noon (history (newNonceReplayCache 2)) in
  let '(c', seen) := seenOrStore (newNonceReplayCache 2) (bs "s") 1 (bs "n") noon (60 * Second) in
  nonces_ok c' /\ nc_max c' = nc_max (newNonceReplayCache 2) /\
  seen = bool_decide (key ∈ map fst l) /\
  history c' = if seen then l else recent (nc_max (newNonceReplayCache 2)) (l ++ [(key, noon)]).
Proof.
  exact (nonce_cache_refines_list (newNonceReplayCache 2) (bs "s") 1 (bs "n") noon (60 * Second)
    (newNonceReplayCache_ok 2)).
Defined.

Lemma nonce_replay_detected_witness :
  snd (seenOrStore
         (run_calls (fst (seenOrStore (newNonceReplayCache 2) (bs "s") 1 (bs "n") noon (60 * Second)))
            (60 * Second) [(bs "other", noon_plus 30)])
         (bs "s") 1 (bs "n") (noon_plus 60) (60 * Second)) = true.
Proof.
  refine (proj1 (nonce_replay_detected (newNonceReplayCache 2) (bs "s") 1 (bs "n") noon (noon_plus 60)
    (60 * Second) [(bs "other", noon_plus 30)] (newNonceReplayCache_ok 2) _ _ _ _)).
  - vm_compute. reflexivity.
  - constructor; [|constructor]. right. vm_compute. reflexivity.
  - right. vm_compute. reflexivity.
  - vm_compute. reflexivity.
Defined.
