(* ===== verification/Sessions.v ===== *)
(** internal/app/server.go: the server's table of client sessions and their
    channels, with the limits on sessions and on streams, as atomic operations
    on a heap of shared objects and as a step relation over their
    interleavings. *)

From Stdlib Require Import ZArith Lia Strings.Byte.
From stdpp Require Import base numbers list gmap relations.
From S2P Require Import Prelude Crypto WireV3.

Local Open Scope Z_scope.

(** * State *)

(** A connection or transport session that the server can close. *)
Inductive resource : Type := ResConn (n : nat) | ResTransport (n : nat).

Record WSChannel : Type := mkChannel {
  ch_id : Z;
  ch_conn : option nat;
  ch_session : nat;
  ch_capabilities : Z;
  ch_v3Keys : V3SessionKeys;
  ch_v3Cipher : byte;
  ch_transport : option nat;
}.

Record ClientSession : Type := mkSession {
  cs_nextChanID : Z;
  cs_clientID : bytes;
  cs_channels : gmap Z nat;
  cs_activeStreams : Z;
}.

(** [serverSessions] and the objects its pointers reach: sessions and channels
    are named by their addresses, so that a session dropped from the map lives
    on for the channels that still hold it.  [tb_closed] lists what has been
    closed, latest first. *)
Record sessionTable : Type := mkTable {
  tb_sessions : gmap bytes nat;
  tb_heap : gmap nat ClientSession;
  tb_chans : gmap nat WSChannel;
  tb_closed : list resource;
}.

Definition emptyTable : sessionTable := mkTable ∅ ∅ ∅ [].

Definition set_sessions (t : sessionTable) (m : gmap bytes nat) : sessionTable :=
  mkTable m (tb_heap t) (tb_chans t) (tb_closed t).
Definition set_session (t : sessionTable) (p : nat) (s : ClientSession) : sessionTable :=
  mkTable (tb_sessions t) (<[p := s]> (tb_heap t)) (tb_chans t) (tb_closed t).
Definition set_channel (t : sessionTable) (c : nat) (ch : WSChannel) : sessionTable :=
  mkTable (tb_sessions t) (tb_heap t) (<[c := ch]> (tb_chans t)) (tb_closed t).
Definition close_all (t : sessionTable) (rs : list resource) : sessionTable :=
  mkTable (tb_sessions t) (tb_heap t) (tb_chans t) (rs ++ tb_closed t).

Definition with_channels (s : ClientSession) (m : gmap Z nat) : ClientSession :=
  mkSession (cs_nextChanID s) (cs_clientID s) m (cs_activeStreams s).
Definition with_streams (s : ClientSession) (n : Z) : ClientSession :=
  mkSession (cs_nextChanID s) (cs_clientID s) (cs_channels s) n.
Definition with_next (s : ClientSession) (n : Z) : ClientSession :=
  mkSession n (cs_clientID s) (cs_channels s) (cs_activeStreams s).

(** * Operations *)

Definition serverSessionCount (t : sessionTable) : Z := Z.of_nat (size (tb_sessions t)).

(** Every value ever stored in [serverSessions] is a non-nil session, so the
    type assertion of the source cannot fail. *)
Definition getOrCreateClientSession (maxClientSessions : Z) (clientID : bytes) (t : sessionTable)
    : sessionTable * option nat :=
  match tb_sessions t !! clientID with
  | Some p => (t, Some p)
  | None =>
      if (0 <? maxClientSessions) && (maxClientSessions <=? serverSessionCount t)
      then (t, None)
      else
        let p := fresh (dom (tb_heap t)) in
        (set_sessions (set_session t p (mkSession 0 clientID ∅ 0)) (<[clientID := p]> (tb_sessions t)),
         Some p)
  end.

Definition resources_of (ch : WSChannel) : list resource :=
  (match ch_conn ch with Some n => [ResConn n] | None => [] end) ++
  (match ch_transport ch with Some n => [ResTransport n] | None => [] end).

Definition zeroKeys : V3SessionKeys := mkSessionKeys [] [] [].

(** The operations on a session dereference its pointer: [None] is a nil
    dereference.  [addChannel] is three actions: the number of the channel, an
    atomic increment when the client named none; its registration, the critical
    section, which gives the channel it replaces; and, after the lock is released,
    the closing of what the replaced channel holds then. *)
Definition nextChannelID (p : nat) (preferredID : Z) (t : sessionTable) : option (sessionTable * Z) :=
  if preferredID =? 0 then
    match tb_heap t !! p with
    | None => None
    | Some s => let next := wrapU 64 (cs_nextChanID s + 1) in Some (set_session t p (with_next s next), next)
    end
  else Some (t, preferredID).

Definition registerChannel (p : nat) (wsConn : option nat) (newID : Z) (t : sessionTable)
    : option (sessionTable * nat * option nat) :=
  match tb_heap t !! p with
  | None => None
  | Some s =>
      let c := fresh (dom (tb_chans t)) in
      let ch := mkChannel newID wsConn p 0 zeroKeys Byte.x00 None in
      Some (set_channel (set_session t p (with_channels s (<[newID := c]> (cs_channels s)))) c ch, c,
            cs_channels s !! newID)
  end.

Definition closeReplaced (replaced : option nat) (t : sessionTable) : sessionTable :=
  match replaced with
  | None => t
  | Some old => match tb_chans t !! old with Some ch => close_all t (resources_of ch) | None => t end
  end.

Definition addChannel (p : nat) (wsConn : option nat) (preferredID : Z) (t : sessionTable)
    : option (sessionTable * nat) :=
  match nextChannelID p preferredID t with
  | None => None
  | Some (t, newID) =>
      match registerChannel p wsConn newID t with
      | None => None
      | Some (t, c, replaced) => Some (closeReplaced replaced t, c)
      end
  end.

(** The first critical section of [removeChannel]: whether no channel is left. *)
Definition detachChannel (p : nat) (id : Z) (current : nat) (t : sessionTable)
    : option (sessionTable * bool) :=
  match tb_heap t !! p with
  | None => None
  | Some s =>
      let m := if bool_decide (cs_channels s !! id = Some current)
               then delete id (cs_channels s) else cs_channels s in
      Some (set_session t p (with_channels s m), Z.of_nat (size m) =? 0)
  end.

(** The second one, run when no channel was left. *)
Definition dropSession (p : nat) (t : sessionTable) : option sessionTable :=
  match tb_heap t !! p with
  | None => None
  | Some s =>
      Some (if bool_decide (tb_sessions t !! cs_clientID s = Some p)
            then set_sessions t (delete (cs_clientID s) (tb_sessions t)) else t)
  end.

Definition removeChannel (p : nat) (id : Z) (current : nat) (t : sessionTable)
    : option sessionTable :=
  match detachChannel p id current t with
  | None => None
  | Some (t, true) => dropSession p t
  | Some (t, false) => Some t
  end.

Definition tryAcquireStream (maxStreamsPerClient : Z) (p : nat) (t : sessionTable)
    : option (sessionTable * (Z * bool)) :=
  match tb_heap t !! p with
  | None => None
  | Some s =>
      if (0 <? maxStreamsPerClient) && (maxStreamsPerClient <=? cs_activeStreams s)
      then Some (t, (cs_activeStreams s, false))
      else Some (set_session t p (with_streams s (cs_activeStreams s + 1)),
                 (cs_activeStreams s + 1, true))
  end.

Definition releaseStream (p : nat) (t : sessionTable) : option sessionTable :=
  match tb_heap t !! p with
  | None => None
  | Some s =>
      Some (if 0 <? cs_activeStreams s
            then set_session t p (with_streams s (cs_activeStreams s - 1)) else t)
  end.

Definition activeStreamCount (t : sessionTable) (p : nat) : Z :=
  match tb_heap t !! p with Some s => cs_activeStreams s | None => 0 end.

Definition countServerActiveStreams (t : sessionTable) : Z :=
  map_fold (fun _ p count => count + activeStreamCount t p) 0 (tb_sessions t).

(** * Interleavings *)

(** The goroutines of the server, by what they hold: a handshake between
    [getOrCreateClientSession] and the registration of its channel, a channel
    being served, a [removeChannel] between its two critical sections, a stream
    between [tryAcquireStream] and [releaseStream], and an [addChannel] that has
    released the lock and has yet to close the channel it replaced.  [w_leaked]
    lists the sessions of handshakes that failed after taking one.  Any goroutine
    may close its own connection at any time; the order of the lists carries no
    meaning. *)
Record world : Type := mkWorld {
  w_tab : sessionTable;
  w_joining : list nat;
  w_serving : list nat;
  w_dropping : list nat;
  w_streams : list nat;
  w_leaked : list nat;
  w_closing : list nat;
}.

Definition start : world := mkWorld emptyTable [] [] [] [] [] [].

Definition configure (ch : WSChannel) (caps : Z) (keys : V3SessionKeys) (cipher : byte)
    (tr : option nat) : WSChannel :=
  mkChannel (ch_id ch) (ch_conn ch) (ch_session ch) caps keys cipher tr.

Inductive step (maxClients maxStreams : Z) : world -> world -> Prop :=
  | step_join w clientID t p :
      getOrCreateClientSession maxClients clientID (w_tab w) = (t, Some p) ->
      step maxClients maxStreams w
        (mkWorld t (p :: w_joining w) (w_serving w) (w_dropping w) (w_streams w) (w_leaked w) (w_closing w))
  | step_refused w clientID t :
      getOrCreateClientSession maxClients clientID (w_tab w) = (t, None) ->
      step maxClients maxStreams w
        (mkWorld t (w_joining w) (w_serving w) (w_dropping w) (w_streams w) (w_leaked w) (w_closing w))
  | step_fail w a p b :
      w_joining w = a ++ p :: b ->
      step maxClients maxStreams w
        (mkWorld (w_tab w) (a ++ b) (w_serving w) (w_dropping w) (w_streams w) (p :: w_leaked w) (w_closing w))
  | step_number w p id t newID :
      p ∈ w_joining w ->
      nextChannelID p id (w_tab w) = Some (t, newID) ->
      step maxClients maxStreams w
        (mkWorld t (w_joining w) (w_serving w) (w_dropping w) (w_streams w) (w_leaked w) (w_closing w))
  | step_register w a p b wsConn newID t c replaced :
      w_joining w = a ++ p :: b ->
      registerChannel p wsConn newID (w_tab w) = Some (t, c, replaced) ->
      step maxClients maxStreams w
        (mkWorld t (a ++ b) (c :: w_serving w) (w_dropping w) (w_streams w) (w_leaked w)
           (option_list replaced ++ w_closing w))
  | step_close_replaced w a old b :
      w_closing w = a ++ old :: b ->
      step maxClients maxStreams w
        (mkWorld (closeReplaced (Some old) (w_tab w)) (w_joining w) (w_serving w) (w_dropping w) (w_streams w)
           (w_leaked w) (a ++ b))
  | step_configure w c ch caps keys cipher tr :
      c ∈ w_serving w -> tb_chans (w_tab w) !! c = Some ch ->
      step maxClients maxStreams w
        (mkWorld (set_channel (w_tab w) c (configure ch caps keys cipher tr))
           (w_joining w) (w_serving w) (w_dropping w) (w_streams w) (w_leaked w) (w_closing w))
  | step_detach w a c b ch t (empty : bool) :
      w_serving w = a ++ c :: b -> tb_chans (w_tab w) !! c = Some ch ->
      detachChannel (ch_session ch) (ch_id ch) c (w_tab w) = Some (t, empty) ->
      step maxClients maxStreams w
        (mkWorld t (w_joining w) (a ++ b)
           (if empty then ch_session ch :: w_dropping w else w_dropping w) (w_streams w) (w_leaked w) (w_closing w))
  | step_drop w a p b t :
      w_dropping w = a ++ p :: b ->
      dropSession p (w_tab w) = Some t ->
      step maxClients maxStreams w
        (mkWorld t (w_joining w) (w_serving w) (a ++ b) (w_streams w) (w_leaked w) (w_closing w))
  | step_acquire w c ch t n (ok : bool) :
      c ∈ w_serving w -> tb_chans (w_tab w) !! c = Some ch ->
      tryAcquireStream maxStreams (ch_session ch) (w_tab w) = Some (t, (n, ok)) ->
      step maxClients maxStreams w
        (mkWorld t (w_joining w) (w_serving w) (w_dropping w)
           (if ok then ch_session ch :: w_streams w else w_streams w) (w_leaked w) (w_closing w))
  | step_release w a p b t :
      w_streams w = a ++ p :: b ->
      releaseStream p (w_tab w) = Some t ->
      step maxClients maxStreams w
        (mkWorld t (w_joining w) (w_serving w) (w_dropping w) (a ++ b) (w_leaked w) (w_closing w))
  | step_close w rs :
      step maxClients maxStreams w
        (mkWorld (close_all (w_tab w) rs) (w_joining w) (w_serving w) (w_dropping w) (w_streams w)
           (w_leaked w) (w_closing w))
  | step_reorder w w' :
      w_tab w' = w_tab w -> w_joining w' ≡ₚ w_joining w -> w_serving w' ≡ₚ w_serving w ->
      w_dropping w' ≡ₚ w_dropping w -> w_streams w' ≡ₚ w_streams w -> w_leaked w' ≡ₚ w_leaked w ->
      w_closing w' ≡ₚ w_closing w ->
      step maxClients maxStreams w w'.

Definition reachable (maxClients maxStreams : Z) : world -> Prop :=
  rtc (step maxClients maxStreams) start.

(** A scheduler: an action names the goroutine that moves by its position. *)
Inductive action : Type :=
  | DoJoin (clientID : bytes)
  | DoFail (i : nat)
  | DoNumber (i : nat) (id : Z)
  | DoRegister (i : nat) (wsConn : option nat) (newID : Z)
  | DoCloseReplaced (i : nat)
  | DoDetach (i : nat)
  | DoDrop (i : nat)
  | DoAcquire (i : nat)
  | DoRelease (i : nat).

Definition pick (i : nat) (l : list nat) : option (list nat * nat * list nat) :=
  match l !! i with
  | Some x => Some (take i l, x, drop (S i) l)
  | None => None
  end.

Definition exec (maxClients maxStreams : Z) (w : world) (a : action) : option world :=
  match a with
  | DoJoin clientID =>
      match getOrCreateClientSession maxClients clientID (w_tab w) with
      | (t, Some p) => Some (mkWorld t (p :: w_joining w) (w_serving w) (w_dropping w) (w_streams w) (w_leaked w) (w_closing w))
      | (t, None) => Some (mkWorld t (w_joining w) (w_serving w) (w_dropping w) (w_streams w) (w_leaked w) (w_closing w))
      end
  | DoFail i =>
      '(a, p, b) ← pick i (w_joining w);
      Some (mkWorld (w_tab w) (a ++ b) (w_serving w) (w_dropping w) (w_streams w) (p :: w_leaked w) (w_closing w))
  | DoNumber i id =>
      p ← w_joining w !! i;
      '(t, _) ← nextChannelID p id (w_tab w);
      Some (mkWorld t (w_joining w) (w_serving w) (w_dropping w) (w_streams w) (w_leaked w) (w_closing w))
  | DoRegister i wsConn newID =>
      '(a, p, b) ← pick i (w_joining w);
      '(t, c, replaced) ← registerChannel p wsConn newID (w_tab w);
      Some (mkWorld t (a ++ b) (c :: w_serving w) (w_dropping w) (w_streams w) (w_leaked w)
              (option_list replaced ++ w_closing w))
  | DoCloseReplaced i =>
      '(a, old, b) ← pick i (w_closing w);
      Some (mkWorld (closeReplaced (Some old) (w_tab w)) (w_joining w) (w_serving w) (w_dropping w) (w_streams w)
              (w_leaked w) (a ++ b))
  | DoDetach i =>
      '(a, c, b) ← pick i (w_serving w);
      ch ← tb_chans (w_tab w) !! c;
      '(t, empty) ← detachChannel (ch_session ch) (ch_id ch) c (w_tab w);
      Some (mkWorld t (w_joining w) (a ++ b)
              (if (empty : bool) then ch_session ch :: w_dropping w else w_dropping w)
              (w_streams w) (w_leaked w) (w_closing w))
  | DoDrop i =>
      '(a, p, b) ← pick i (w_dropping w);
      t ← dropSession p (w_tab w);
      Some (mkWorld t (w_joining w) (w_serving w) (a ++ b) (w_streams w) (w_leaked w) (w_closing w))
  | DoAcquire i =>
      c ← w_serving w !! i;
      ch ← tb_chans (w_tab w) !! c;
      '(t, (_, ok)) ← tryAcquireStream maxStreams (ch_session ch) (w_tab w);
      Some (mkWorld t (w_joining w) (w_serving w) (w_dropping w)
              (if (ok : bool) then ch_session ch :: w_streams w else w_streams w) (w_leaked w) (w_closing w))
  | DoRelease i =>
      '(a, p, b) ← pick i (w_streams w);
      t ← releaseStream p (w_tab w);
      Some (mkWorld t (w_joining w) (w_serving w) (w_dropping w) (a ++ b) (w_leaked w) (w_closing w))
  end.

Fixpoint exec_all (maxClients maxStreams : Z) (w : world) (l : list action) : option world :=
  match l with
  | [] => Some w
  | a :: l => w' ← exec maxClients maxStreams w a; exec_all maxClients maxStreams w' l
  end.

Lemma pick_split i l a x b : pick i l = Some (a, x, b) -> l = a ++ x :: b.
Proof.
  unfold pick. destruct (l !! i) as [y|] eqn:H; [|done]. intros [= <- <- <-].
  by rewrite take_drop_middle.
Qed.

Lemma exec_sound maxC maxS w a w' : exec maxC maxS w a = Some w' -> step maxC maxS w w'.
Proof.
  destruct a as [id|i|i id|i conn id|i|i|i|i|i]; cbn [exec]; intros H.
  { destruct (getOrCreateClientSession _ _ _) as [t [p|]] eqn:Hg; simplify_eq;
      [by eapply step_join|by eapply step_refused]. }
  2: { apply bind_Some in H as (p & Hp & H). apply bind_Some in H as ([t n] & Ht & H). simplify_eq.
       eapply step_number; [by eapply list_elem_of_lookup_2|done]. }
  6: {
    apply bind_Some in H as (c & Hc & H). apply bind_Some in H as (ch & Hch & H).
    apply bind_Some in H as ([t [n ok]] & Ht & H). simplify_eq.
    eapply step_acquire; [by eapply list_elem_of_lookup_2|done|done]. }
  all: apply bind_Some in H as ([[a x] b] & Hp%pick_split & H).
  - simplify_eq. by apply step_fail.
  - apply bind_Some in H as ([[t c] r] & Ht & H). simplify_eq. by eapply step_register.
  - simplify_eq. by apply step_close_replaced.
  - apply bind_Some in H as (ch & Hch & H). apply bind_Some in H as ([t e] & Ht & H).
    simplify_eq. by eapply step_detach.
  - apply bind_Some in H as (t & Ht & H). simplify_eq. by eapply step_drop.
  - apply bind_Some in H as (t & Ht & H). simplify_eq. by eapply step_release.
Qed.

Lemma exec_all_reachable maxC maxS l w :
  exec_all maxC maxS start l = Some w -> reachable maxC maxS w.
Proof.
  enough (H : forall w0, exec_all maxC maxS w0 l = Some w -> rtc (step maxC maxS) w0 w) by apply H.
  induction l as [|a l IH]; intros w0 H; cbn in H; [by simplify_eq|].
  apply bind_Some in H as (w1 & Hw1 & H). eapply rtc_l; [by eapply exec_sound|eauto].
Qed.

(** * The invariant *)

(** The number of streams held on a session. *)
Definition held_on (p : nat) (l : list nat) : Z := Z.of_nat (length (filter (p =.) l)).

Record world_ok (maxClients maxStreams : Z) (w : world) : Prop := {
  wo_map : forall id p, tb_sessions (w_tab w) !! id = Some p ->
    exists s, tb_heap (w_tab w) !! p = Some s /\ cs_clientID s = id;
  wo_limit : 0 < maxClients -> serverSessionCount (w_tab w) <= maxClients;
  wo_streams : forall p s, tb_heap (w_tab w) !! p = Some s ->
    cs_activeStreams s = held_on p (w_streams w) /\
    (0 < maxStreams -> cs_activeStreams s <= maxStreams);
  wo_live : forall p, p ∈ w_joining w ++ w_dropping w ++ w_streams w ->
    is_Some (tb_heap (w_tab w) !! p);
  wo_serving : forall c, c ∈ w_serving w ->
    exists ch, tb_chans (w_tab w) !! c = Some ch /\ is_Some (tb_heap (w_tab w) !! ch_session ch);
  wo_chan : forall p s id c, tb_heap (w_tab w) !! p = Some s -> cs_channels s !! id = Some c ->
    c ∈ w_serving w /\
    exists ch, tb_chans (w_tab w) !! c = Some ch /\ ch_id ch = id /\ ch_session ch = p;
  wo_nodup : NoDup (w_serving w);
  wo_replaced : forall c ch n, c ∈ w_serving w -> tb_chans (w_tab w) !! c = Some ch ->
    ch_conn ch = Some n ->
    (exists s, tb_heap (w_tab w) !! ch_session ch = Some s /\ cs_channels s !! ch_id ch = Some c) \/
    ResConn n ∈ tb_closed (w_tab w) \/ c ∈ w_closing w;
  wo_closing : forall c, c ∈ w_closing w -> is_Some (tb_chans (w_tab w) !! c);
  wo_empty : forall id p s, tb_sessions (w_tab w) !! id = Some p ->
    tb_heap (w_tab w) !! p = Some s -> cs_channels s = ∅ ->
    p ∈ w_joining w ++ w_dropping w ++ w_leaked w;
}.

Lemma held_on_cons p q l : held_on p (q :: l) = (if decide (p = q) then 1 else 0) + held_on p l.
Proof. unfold held_on. rewrite filter_cons. destruct (decide (p = q)); cbn; lia. Qed.

Lemma held_on_split p q a b : held_on p (a ++ q :: b) = (if decide (p = q) then 1 else 0) + held_on p (a ++ b).
Proof.
  unfold held_on. rewrite !filter_app, filter_cons. destruct (decide (p = q)); rewrite !length_app; cbn; lia.
Qed.

Lemma held_on_nonneg p l : 0 <= held_on p l.
Proof. unfold held_on. lia. Qed.

Lemma held_on_in p l : p ∈ l -> 0 < held_on p l.
Proof. intros (a & b & ->)%list_elem_of_split. rewrite held_on_split, decide_True by done. pose proof (held_on_nonneg p (a ++ b)). lia. Qed.

Lemma held_on_notin p l : p ∉ l -> held_on p l = 0.
Proof.
  intros H. induction l as [|q l IH]; [done|]. apply not_elem_of_cons in H as [Hne H].
  rewrite held_on_cons, decide_False by done. by rewrite IH.
Qed.

(** Case analysis on every lookup in an updated map. *)
Ltac lookups :=
  repeat match goal with
  | H : <[?i := _]> _ !! ?j = Some _ |- _ =>
      apply lookup_insert_Some in H as [[? ?]|[? H]]; simplify_eq
  end.

(** Membership in concatenated lists. *)
Ltac memb :=
  repeat match goal with
  | H : context [_ ∈ _ ++ _] |- _ => rewrite elem_of_app in H
  | H : context [_ ∈ _ :: _] |- _ => rewrite elem_of_cons in H
  end;
  repeat first [rewrite elem_of_app | rewrite elem_of_cons];
  repeat match goal with H : _ \/ _ |- _ => destruct H end; simplify_eq; tauto.

Lemma start_ok maxC maxS : world_ok maxC maxS start.
Proof.
  constructor; cbn; try (intros; simplify_map_eq; set_solver).
  - intros. unfold serverSessionCount. cbn. rewrite map_size_empty. lia.
  - constructor.
Qed.

Section Steps.
Context (maxC maxS : Z).

Lemma join_ok w clientID t p :
  world_ok maxC maxS w ->
  getOrCreateClientSession maxC clientID (w_tab w) = (t, Some p) ->
  world_ok maxC maxS
    (mkWorld t (p :: w_joining w) (w_serving w) (w_dropping w) (w_streams w) (w_leaked w) (w_closing w)).
Proof.
  intros Hok. unfold getOrCreateClientSession.
  destruct (tb_sessions (w_tab w) !! clientID) as [q|] eqn:Hq.
  - intros [= <- ->]. destruct Hok. constructor; cbn; try done.
    + intros q [->|Hin]%elem_of_cons; [|eauto].
      destruct (wo_map0 _ _ Hq) as (s & -> & _). eauto.
    + intros id q s H1 H2 H3. apply elem_of_cons. eauto.
  - destruct (_ && _) eqn:Hlim; [done|]. intros [= <- <-].
    set (p := fresh (dom (tb_heap (w_tab w)))).
    assert (Hp : tb_heap (w_tab w) !! p = None) by apply not_elem_of_dom, is_fresh.
    assert (Hnot : forall q, is_Some (tb_heap (w_tab w) !! q) -> p <> q)
      by (intros q [? ?]; congruence).
    clearbody p. destruct Hok. constructor; cbn; try done.
    + intros id q H. lookups; [eexists; by rewrite lookup_insert_eq|].
      destruct (wo_map0 _ _ H) as (s & Hs & ?). exists s. by rewrite lookup_insert_ne by eauto.
    + intros Hpos. unfold serverSessionCount in *. cbn. rewrite map_size_insert, Hq.
      apply andb_false_iff in Hlim as [?%Z.ltb_ge|?%Z.leb_gt]; lia.
    + intros q s H. lookups; [|eauto]. cbn. rewrite held_on_notin; [lia|].
      intros Hin. destruct (wo_live0 q) as [? ?]; [memb|congruence].
    + intros q Hin. destruct (decide (p = q)) as [<-|]; [by rewrite lookup_insert_eq|].
      rewrite lookup_insert_ne by done. apply wo_live0. memb.
    + intros c Hc. destruct (wo_serving0 c Hc) as (ch & ? & ?). exists ch. split; [done|].
      rewrite lookup_insert_ne by eauto. done.
    + intros q s id c H Hc. lookups; simplify_map_eq; eauto.
    + intros c ch n Hc Hch Hn. destruct (wo_replaced0 c ch n Hc Hch Hn) as [(s & ? & ?)|?]; [left|by right].
      exists s. by rewrite lookup_insert_ne by eauto.
    + intros id q s H1 H2 H3. lookups; try memb.
      specialize (wo_empty0 id q s H1 H2 H3). memb.
Qed.

Lemma refused_ok w clientID t :
  world_ok maxC maxS w ->
  getOrCreateClientSession maxC clientID (w_tab w) = (t, None) -> t = w_tab w.
Proof. intros _. unfold getOrCreateClientSession. repeat case_match; congruence. Qed.

Lemma fail_ok w a p b :
  world_ok maxC maxS w -> w_joining w = a ++ p :: b ->
  world_ok maxC maxS
    (mkWorld (w_tab w) (a ++ b) (w_serving w) (w_dropping w) (w_streams w) (p :: w_leaked w) (w_closing w)).
Proof.
  intros [] Hj. rewrite Hj in *. constructor; cbn; try done.
  - intros q Hq. apply wo_live0. memb.
  - intros id q s H1 H2 H3. specialize (wo_empty0 id q s H1 H2 H3). memb.
Qed.

Lemma registerChannel_inv p wsConn id t t' c replaced :
  registerChannel p wsConn id t = Some (t', c, replaced) ->
  exists s, tb_heap t !! p = Some s /\ tb_chans t !! c = None /\ replaced = cs_channels s !! id /\
    tb_sessions t' = tb_sessions t /\ tb_closed t' = tb_closed t /\
    tb_heap t' = <[p := with_channels s (<[id := c]> (cs_channels s))]> (tb_heap t) /\
    tb_chans t' = <[c := mkChannel id wsConn p 0 zeroKeys Byte.x00 None]> (tb_chans t).
Proof.
  unfold registerChannel. destruct (tb_heap t !! p) as [s|] eqn:Hs; [|done]. intros [= <- <- <-].
  exists s. split_and!; try done. apply not_elem_of_dom, is_fresh.
Qed.

Lemma nextChannelID_inv p id t t' n :
  nextChannelID p id t = Some (t', n) ->
  t' = t \/ exists s, tb_heap t !! p = Some s /\ t' = set_session t p (with_next s n).
Proof.
  unfold nextChannelID. destruct (id =? 0); [|intros [= <- <-]; by left].
  destruct (tb_heap t !! p) as [s|] eqn:Hs; [|done]. intros [= <- <-]. eauto.
Qed.

Lemma nextChannelID_some p id t : is_Some (tb_heap t !! p) -> is_Some (nextChannelID p id t).
Proof. intros [s Hs]. unfold nextChannelID. rewrite Hs. destruct (id =? 0); eauto. Qed.

Lemma nextChannelID_heap p id t t' n q :
  nextChannelID p id t = Some (t', n) -> is_Some (tb_heap t !! q) -> is_Some (tb_heap t' !! q).
Proof.
  intros [-> | (s & Hs & ->)]%nextChannelID_inv; [done|]. cbn.
  destruct (decide (p = q)) as [<-|]; simplify_map_eq; eauto.
Qed.

Lemma registerChannel_some p conn id t : is_Some (tb_heap t !! p) -> is_Some (registerChannel p conn id t).
Proof. intros [s Hs]. unfold registerChannel. rewrite Hs. eauto. Qed.

Lemma addChannel_some p conn id t : is_Some (tb_heap t !! p) -> is_Some (addChannel p conn id t).
Proof.
  intros Hp. unfold addChannel. destruct (nextChannelID_some p id t Hp) as [[t1 n] Hn]. rewrite Hn.
  destruct (registerChannel_some p conn n t1) as [[[t2 c] r] ->]; [|by eauto]. by eapply nextChannelID_heap.
Qed.

Lemma closeReplaced_fields r t :
  tb_sessions (closeReplaced r t) = tb_sessions t /\ tb_heap (closeReplaced r t) = tb_heap t /\
  tb_chans (closeReplaced r t) = tb_chans t /\ exists rs, tb_closed (closeReplaced r t) = rs ++ tb_closed t.
Proof.
  destruct r as [old|]; cbn [closeReplaced]; [destruct (tb_chans t !! old) as [ch|]|]; split_and!; try done;
    [by exists (resources_of ch)|by exists []..].
Qed.

Lemma addChannel_inv p wsConn id t t' c :
  addChannel p wsConn id t = Some (t', c) ->
  exists s id', tb_heap t !! p = Some s /\ tb_chans t !! c = None /\
    tb_sessions t' = tb_sessions t /\
    (exists n, tb_heap t' = <[p := mkSession n (cs_clientID s) (<[id' := c]> (cs_channels s))
                                     (cs_activeStreams s)]> (tb_heap t)) /\
    tb_chans t' = <[c := mkChannel id' wsConn p 0 zeroKeys Byte.x00 None]> (tb_chans t).
Proof.
  unfold addChannel. destruct (nextChannelID p id t) as [[t1 id']|] eqn:Hn; [|done].
  destruct (registerChannel p wsConn id' t1) as [[[t2 c2] r]|] eqn:Hr; [|done]. intros [= <- <-].
  apply registerChannel_inv in Hr as (s & Hs & Hc & _ & Hss & _ & Hh & Hch).
  destruct (closeReplaced_fields r t2) as (-> & -> & -> & _). rewrite Hss, Hh, Hch.
  apply nextChannelID_inv in Hn as [-> | (s0 & Hs0 & ->)].
  - exists s, id'. split_and!; try done. by exists (cs_nextChanID s).
  - cbn in Hs. rewrite lookup_insert_eq in Hs. injection Hs as <-. exists s0, id'. split_and!; try done.
    exists id'. cbn. by rewrite insert_insert_eq.
Qed.

Lemma resources_conn ch n : ch_conn ch = Some n -> ResConn n ∈ resources_of ch.
Proof. unfold resources_of. intros ->. cbn. apply elem_of_cons. by left. Qed.

Lemma number_ok w p id t newID :
  world_ok maxC maxS w -> nextChannelID p id (w_tab w) = Some (t, newID) ->
  world_ok maxC maxS
    (mkWorld t (w_joining w) (w_serving w) (w_dropping w) (w_streams w) (w_leaked w) (w_closing w)).
Proof.
  intros Hok [-> | (s & Hs & ->)]%nextChannelID_inv; [by destruct w|].
  destruct Hok. constructor; cbn; try done.
  - intros id0 q (s' & Hs' & <-)%wo_map0. destruct (decide (p = q)) as [<-|]; simplify_map_eq; eauto.
  - intros q s' H. lookups; cbn; eauto.
  - intros q Hq. destruct (decide (p = q)) as [<-|]; simplify_map_eq; eauto.
  - intros c (ch & ? & ?)%wo_serving0. exists ch. split; [done|].
    destruct (decide (p = ch_session ch)) as [<-|]; simplify_map_eq; eauto.
  - intros q s' id0 c H Hc. lookups; cbn in *; eauto.
  - intros c ch m H1 H2 H3. destruct (wo_replaced0 c ch m H1 H2 H3) as [(s' & ? & ?)|]; [left|by right].
    destruct (decide (p = ch_session ch)) as [He|]; [|exists s'; by rewrite lookup_insert_ne].
    rewrite <- He in *. rewrite lookup_insert_eq. eexists. split; [done|]. cbn. congruence.
  - intros id0 q s' H1 H2 H3. lookups; cbn in *; eauto.
Qed.

Lemma register_ok w a p b wsConn id t c replaced :
  world_ok maxC maxS w -> w_joining w = a ++ p :: b ->
  registerChannel p wsConn id (w_tab w) = Some (t, c, replaced) ->
  world_ok maxC maxS
    (mkWorld t (a ++ b) (c :: w_serving w) (w_dropping w) (w_streams w) (w_leaked w)
       (option_list replaced ++ w_closing w)).
Proof.
  intros [] Hj (s & Hs & Hc & -> & Hm & Hcl & Hh & Hch)%registerChannel_inv. rewrite Hj in *.
  assert (Hnew : c ∉ w_serving w) by (intros (? & ? & ?)%wo_serving0; congruence).
  assert (Hsome : forall q, is_Some (tb_heap (w_tab w) !! q) -> is_Some (tb_heap t !! q)).
  { intros q. rewrite Hh. destruct (decide (p = q)) as [<-|]; simplify_map_eq; eauto. }
  assert (Hcsome : forall q, is_Some (tb_chans (w_tab w) !! q) -> is_Some (tb_chans t !! q)).
  { intros q. rewrite Hch. destruct (decide (c = q)) as [<-|]; simplify_map_eq; eauto. }
  constructor; cbn.
  - intros id0 q. rewrite Hm. intros (s' & Hs' & <-)%wo_map0. rewrite Hh.
    destruct (decide (p = q)) as [<-|]; simplify_map_eq; eauto.
  - unfold serverSessionCount in *. by rewrite Hm.
  - intros q s'. rewrite Hh. intros H. lookups; cbn; eauto.
  - intros q Hq. apply Hsome, wo_live0. memb.
  - intros c' Hin. rewrite Hch. apply elem_of_cons in Hin as [->|Hin].
    + eexists. rewrite lookup_insert_eq. split; [done|]. apply Hsome. eauto.
    + destruct (wo_serving0 _ Hin) as (ch & ? & ?). exists ch.
      rewrite lookup_insert_ne by congruence. eauto.
  - intros q s' id0 c'. rewrite Hh, Hch. intros H Hc'. lookups; cbn in *; lookups.
    + split; [memb|]. eexists. by rewrite lookup_insert_eq.
    + destruct (wo_chan0 _ _ _ _ Hs Hc') as (? & ch & ? & ? & ?). split; [memb|].
      exists ch. by rewrite lookup_insert_ne by congruence.
    + destruct (wo_chan0 _ _ _ _ H Hc') as (? & ch & ? & ? & ?). split; [memb|].
      exists ch. by rewrite lookup_insert_ne by congruence.
  - by constructor.
  - intros c' ch m Hin. rewrite Hch, Hcl, Hh. intros H Hm'. lookups.
    + left. cbn. eexists. rewrite lookup_insert_eq. split; [done|]. cbn. by rewrite lookup_insert_eq.
    + apply elem_of_cons in Hin as [->|Hin]; [done|].
      destruct (wo_replaced0 _ _ _ Hin H Hm') as [(s' & Hs' & Hc')|[Hcl'|Hcl']].
      * destruct (decide (ch_session ch = p)) as [<-|]; [|left; exists s'; by simplify_map_eq].
        rewrite Hs in Hs'. simplify_eq.
        destruct (decide (ch_id ch = id)) as [<-|].
        -- right; right. rewrite Hc'. cbn. apply elem_of_cons. by left.
        -- left. eexists. rewrite lookup_insert_eq. split; [done|]. cbn. by simplify_map_eq.
      * by right; left.
      * right; right. apply elem_of_app. by right.
  - intros c' Hc'. apply Hcsome. apply elem_of_app in Hc' as [Hc'|Hc']; [|eauto].
    destruct (cs_channels s !! id) as [old|] eqn:Hold; cbn in Hc'; [|by apply elem_of_nil in Hc'].
    apply list_elem_of_singleton in Hc' as ->. destruct (wo_chan0 _ _ _ _ Hs Hold) as (_ & ch & ? & _). eauto.
  - intros id0 q s'. rewrite Hm, Hh. intros H1 H2 H3. lookups; cbn in *; [by apply insert_non_empty in H3|].
    specialize (wo_empty0 id0 q s' H1 H2 H3). memb.
Qed.

Lemma close_replaced_ok w a old b :
  world_ok maxC maxS w -> w_closing w = a ++ old :: b ->
  world_ok maxC maxS
    (mkWorld (closeReplaced (Some old) (w_tab w)) (w_joining w) (w_serving w) (w_dropping w) (w_streams w)
       (w_leaked w) (a ++ b)).
Proof.
  intros [] Hcl. rewrite Hcl in *. destruct (wo_closing0 old) as [co Hco]; [memb|].
  cbn [closeReplaced]. rewrite Hco. constructor; cbn; try done.
  - intros c ch n H1 H2 H3. destruct (decide (c = old)) as [-> |Hne].
    + right; left. apply elem_of_app. left. simplify_eq. by apply resources_conn.
    + destruct (wo_replaced0 c ch n H1 H2 H3) as [?|[?|?]]; [by left|right; left; apply elem_of_app; by right|].
      right; right. memb.
  - intros c Hc. apply wo_closing0. memb.
Qed.

Lemma reorder_ok w w' :
  world_ok maxC maxS w ->
  w_tab w' = w_tab w -> w_joining w' ≡ₚ w_joining w -> w_serving w' ≡ₚ w_serving w ->
  w_dropping w' ≡ₚ w_dropping w -> w_streams w' ≡ₚ w_streams w -> w_leaked w' ≡ₚ w_leaked w ->
  w_closing w' ≡ₚ w_closing w -> world_ok maxC maxS w'.
Proof.
  intros [] Et Ej Es Ed Em El Ec. constructor; rewrite ?Et; try done.
  - intros p s Hp. unfold held_on. rewrite Em. by apply wo_streams0.
  - intros p. rewrite Ej, Ed, Em. apply wo_live0.
  - intros c. rewrite Es. apply wo_serving0.
  - intros p s id c. rewrite Es. apply wo_chan0.
  - by rewrite Es.
  - intros c ch n. rewrite Es, Ec. apply wo_replaced0.
  - intros c. rewrite Ec. apply wo_closing0.
  - intros id p s. rewrite Ej, Ed, El. apply wo_empty0.
Qed.

Lemma configure_ok w c ch caps keys cipher tr :
  world_ok maxC maxS w -> tb_chans (w_tab w) !! c = Some ch ->
  world_ok maxC maxS
    (mkWorld (set_channel (w_tab w) c (configure ch caps keys cipher tr))
       (w_joining w) (w_serving w) (w_dropping w) (w_streams w) (w_leaked w) (w_closing w)).
Proof.
  intros [] Hc. constructor; cbn; try done.
  - intros c' (ch' & Hc' & Hs)%wo_serving0. destruct (decide (c = c')) as [<-|]; simplify_map_eq; eauto.
  - intros p s id c' H1 H2. destruct (wo_chan0 _ _ _ _ H1 H2) as (? & ch' & ? & ? & ?). split; [done|].
    destruct (decide (c = c')) as [<-|]; simplify_map_eq; eauto.
  - intros c' ch' n Hin Hc' Hn. lookups; [exact (wo_replaced0 _ ch n Hin Hc Hn)|eauto].
  - intros c' Hc'. destruct (decide (c = c')) as [<-|]; simplify_map_eq; eauto.
Qed.

Lemma detach_ok w a c b ch t (empty : bool) :
  world_ok maxC maxS w -> w_serving w = a ++ c :: b -> tb_chans (w_tab w) !! c = Some ch ->
  detachChannel (ch_session ch) (ch_id ch) c (w_tab w) = Some (t, empty) ->
  world_ok maxC maxS
    (mkWorld t (w_joining w) (a ++ b)
       (if empty then ch_session ch :: w_dropping w else w_dropping w) (w_streams w) (w_leaked w) (w_closing w)).
Proof.
  intros [] Hsv Hc. unfold detachChannel. rewrite Hsv in *.
  destruct (tb_heap (w_tab w) !! ch_session ch) as [s|] eqn:Hs; [|done].
  set (m := if bool_decide _ then _ else _). intros [= <- <-].
  assert (Hm : forall id c', m !! id = Some c' ->
                 cs_channels s !! id = Some c' /\ (cs_channels s !! ch_id ch = Some c -> id <> ch_id ch)).
  { intros id c'. subst m. case_bool_decide; [rewrite lookup_delete_Some|]; intuition congruence. }
  assert (Hm' : forall id c', cs_channels s !! id = Some c' -> c' <> c -> m !! id = Some c').
  { intros id c' H Hne. subst m. case_bool_decide; [|done]. rewrite lookup_delete_Some. split; [congruence|done]. }
  assert (Hgone : forall id, m !! id = Some c -> False).
  { intros id [H1 H2]%Hm. destruct (wo_chan0 _ _ _ _ Hs H1) as (_ & ch' & Hch' & Hid & _). simplify_eq. by apply H2. }
  clearbody m. apply NoDup_app in wo_nodup0 as (Hna & Hdis & [Hcb Hnb]%NoDup_cons).
  assert (Hca : c ∉ a) by (intros H; apply (Hdis c H), elem_of_cons; by left).
  constructor; cbn; try done.
  - intros id p (s' & Hs' & <-)%wo_map0. destruct (decide (ch_session ch = p)) as [<-|]; simplify_map_eq; eauto.
  - intros p s' H. lookups; cbn; eauto.
  - intros p Hp. destruct (decide (ch_session ch = p)) as [<-|]; simplify_map_eq; [eauto|].
    apply wo_live0. destruct (Z.of_nat (size m) =? 0); memb.
  - intros c' Hin. destruct (wo_serving0 c') as (ch' & Hc' & [s' Hs']); [memb|]. exists ch'. split; [done|].
    destruct (decide (ch_session ch = ch_session ch')) as [<-|]; simplify_map_eq; eauto.
  - intros p s' id c' H Hc'. lookups; cbn in *.
    + apply Hm in Hc' as Hc2. destruct Hc2 as [Hc2 _]. destruct (wo_chan0 _ _ _ _ Hs Hc2) as (Hin & Hrest).
      split; [|done]. apply elem_of_app in Hin as [?|[->|?]%elem_of_cons]; [memb|by apply Hgone in Hc'|memb].
    + destruct (wo_chan0 _ _ _ _ H Hc') as (Hin & ch' & Hch' & ? & ?). split; [|eauto].
      apply elem_of_app in Hin as [?|[->|?]%elem_of_cons]; [memb|congruence|memb].
  - apply NoDup_app. split_and!; [done| |done]. intros x Hx Hxb. apply (Hdis x Hx), elem_of_cons. by right.
  - intros c' ch' n Hin Hc' Hn. assert (Hne : c' <> c) by (intros ->; memb).
    destruct (wo_replaced0 c' ch' n) as [(s' & Hs' & Hin')|?]; [memb|done|done| |by right]. left.
    destruct (decide (ch_session ch = ch_session ch')) as [He|]; [|exists s'; by simplify_map_eq].
    rewrite He in *. simplify_map_eq. eexists. split; [done|]. cbn. eauto.
  - intros id p s' H1 H2 H3. lookups; cbn in *.
    + rewrite H3, map_size_empty. cbn. apply elem_of_app. right. apply elem_of_cons. by left.
    + specialize (wo_empty0 id p s' H1 H2 H3). destruct (Z.of_nat (size m) =? 0); memb.
Qed.

Lemma drop_ok w a p b t :
  world_ok maxC maxS w -> w_dropping w = a ++ p :: b -> dropSession p (w_tab w) = Some t ->
  world_ok maxC maxS
    (mkWorld t (w_joining w) (w_serving w) (a ++ b) (w_streams w) (w_leaked w) (w_closing w)).
Proof.
  intros [] Hd. unfold dropSession. rewrite Hd in *.
  destruct (tb_heap (w_tab w) !! p) as [s|] eqn:Hs; [|done]. intros [= <-].
  assert (Hsub : forall q, q <> p -> q ∈ w_joining w ++ (a ++ p :: b) ++ w_leaked w ->
                   q ∈ w_joining w ++ (a ++ b) ++ w_leaked w) by (intros q ? ?; memb).
  case_bool_decide as Hmap; constructor; cbn; try done.
  - intros id q [_ H]%lookup_delete_Some. eauto.
  - intros Hpos%wo_limit0. unfold serverSessionCount in *. cbn. rewrite map_size_delete_Some by done. lia.
  - intros q Hq. apply wo_live0. memb.
  - intros id q s' [Hne H]%lookup_delete_Some H2 H3. apply Hsub; [|eauto].
    intros ->. destruct (wo_map0 _ _ H) as (? & ? & ?). congruence.
  - intros q Hq. apply wo_live0. memb.
  - intros id q s' H H2 H3. apply Hsub; [|eauto].
    intros ->. destruct (wo_map0 _ _ H) as (? & ? & ?). congruence.
Qed.

Lemma streams_ok w p s n (l : list nat) :
  world_ok maxC maxS w -> tb_heap (w_tab w) !! p = Some s ->
  n = held_on p l -> (0 < maxS -> n <= maxS) ->
  (forall q, q <> p -> held_on q l = held_on q (w_streams w)) ->
  (forall q, q ∈ l -> q = p \/ q ∈ w_streams w) ->
  world_ok maxC maxS
    (mkWorld (set_session (w_tab w) p (with_streams s n))
       (w_joining w) (w_serving w) (w_dropping w) l (w_leaked w) (w_closing w)).
Proof.
  intros [] Hs Hn Hmax Hother Hin. constructor; cbn; try done.
  - intros id q (s' & Hs' & <-)%wo_map0. destruct (decide (p = q)) as [<-|]; simplify_map_eq; eauto.
  - intros q s' H. lookups; [done|]. rewrite Hother by done. eauto.
  - intros q Hq. destruct (decide (p = q)) as [<-|]; simplify_map_eq; [eauto|].
    apply wo_live0. rewrite !elem_of_app in *. destruct Hq as [|[|[|]%Hin]]; [tauto..|congruence|tauto].
  - intros c (ch & ? & ?)%wo_serving0. exists ch. split; [done|].
    destruct (decide (p = ch_session ch)) as [<-|]; simplify_map_eq; eauto.
  - intros q s' id c H Hc. lookups; cbn in *; eauto.
  - intros c ch m H1 H2 H3. destruct (wo_replaced0 c ch m H1 H2 H3) as [(s' & ? & ?)|]; [left|by right].
    destruct (decide (p = ch_session ch)) as [He|]; [|exists s'; by rewrite lookup_insert_ne].
    rewrite <- He in *. rewrite lookup_insert_eq. eexists. split; [done|]. cbn. congruence.
  - intros id q s' H1 H2 H3. lookups; cbn in *; eauto.
Qed.

Lemma acquire_ok w p t n (ok : bool) :
  world_ok maxC maxS w -> tryAcquireStream maxS p (w_tab w) = Some (t, (n, ok)) ->
  world_ok maxC maxS
    (mkWorld t (w_joining w) (w_serving w) (w_dropping w)
       (if ok then p :: w_streams w else w_streams w) (w_leaked w) (w_closing w)).
Proof.
  intros Hok. unfold tryAcquireStream. destruct (tb_heap (w_tab w) !! p) as [s|] eqn:Hs; [|done].
  destruct (wo_streams _ _ _ Hok _ _ Hs) as [Hh Hl].
  destruct (_ && _) eqn:Hlim; intros [= <- <- <-]; [by destruct w|].
  apply streams_ok; [done|done| | | |].
  - rewrite held_on_cons, decide_True by done. lia.
  - intros. apply andb_false_iff in Hlim as [?%Z.ltb_ge|?%Z.leb_gt]; lia.
  - intros q Hne. by rewrite held_on_cons, decide_False.
  - intros q [->|]%elem_of_cons; eauto.
Qed.

Lemma release_ok w a p b t :
  world_ok maxC maxS w -> w_streams w = a ++ p :: b -> releaseStream p (w_tab w) = Some t ->
  world_ok maxC maxS
    (mkWorld t (w_joining w) (w_serving w) (w_dropping w) (a ++ b) (w_leaked w) (w_closing w)).
Proof.
  intros Hok Hst. unfold releaseStream. destruct (tb_heap (w_tab w) !! p) as [s|] eqn:Hs; [|done].
  destruct (wo_streams _ _ _ Hok _ _ Hs) as [Hh Hl]. rewrite Hst, held_on_split, decide_True in Hh by done.
  pose proof (held_on_nonneg p (a ++ b)). rewrite (proj2 (Z.ltb_lt _ _)) by lia. intros [= <-].
  apply streams_ok; [done|done|lia|lia| |].
  - intros q Hne. by rewrite Hst, held_on_split, decide_False.
  - intros q Hq. right. rewrite Hst. memb.
Qed.

Lemma close_ok w rs :
  world_ok maxC maxS w ->
  world_ok maxC maxS
    (mkWorld (close_all (w_tab w) rs) (w_joining w) (w_serving w) (w_dropping w) (w_streams w) (w_leaked w) (w_closing w)).
Proof.
  intros []. constructor; cbn; try done.
  intros c ch n H1 H2 H3. destruct (wo_replaced0 c ch n H1 H2 H3) as [?|[?|?]]; [by left|right; left|by right; right].
  apply elem_of_app. by right.
Qed.

Lemma step_preserves w w' : step maxC maxS w w' -> world_ok maxC maxS w -> world_ok maxC maxS w'.
Proof.
  destruct 1 as [| w clientID t Hr | | | | | | | | | | |]; intros Hok.
  - by eapply join_ok.
  - apply refused_ok in Hr as ->; [|done]. by destruct w.
  - by apply fail_ok.
  - by eapply number_ok.
  - by eapply register_ok.
  - by apply close_replaced_ok.
  - by apply configure_ok.
  - by eapply detach_ok.
  - by eapply drop_ok.
  - by eapply acquire_ok.
  - by eapply release_ok.
  - by apply close_ok.
  - by eapply reorder_ok.
Qed.

Lemma steps_preserve w w' : rtc (step maxC maxS) w w' -> world_ok maxC maxS w -> world_ok maxC maxS w'.
Proof. induction 1; eauto using step_preserves. Qed.

Lemma reachable_ok w : reachable maxC maxS w -> world_ok maxC maxS w.
Proof.
  unfold reachable. apply (rtc_ind_r (world_ok maxC maxS)); [apply start_ok|].
  intros x y _ Hxy Hx. by eapply step_preserves.
Qed.

End Steps.

(** * Correctness *)

(** C7: the limits hold under every interleaving of the server's goroutines.
    In a reachable state no more sessions than [max-clients] are in the table
    and every session's stream count is the number of streams that hold it,
    never above [max-streams]; and no operation a goroutine can run next
    dereferences a nil session. *)
Theorem session_limits_hold (maxC maxS : Z) (w : world) (Hreach : reachable maxC maxS w) :
  (0 < maxC -> serverSessionCount (w_tab w) <= maxC) /\
  (forall p s, tb_heap (w_tab w) !! p = Some s ->
     cs_activeStreams s = held_on p (w_streams w) /\ (0 < maxS -> cs_activeStreams s <= maxS)) /\
  (forall p, p ∈ w_joining w -> forall conn id, addChannel p conn id (w_tab w) <> None) /\
  (forall c, c ∈ w_serving w -> exists ch, tb_chans (w_tab w) !! c = Some ch /\
     detachChannel (ch_session ch) (ch_id ch) c (w_tab w) <> None /\
     tryAcquireStream maxS (ch_session ch) (w_tab w) <> None) /\
  (forall p, p ∈ w_dropping w -> dropSession p (w_tab w) <> None) /\
  (forall p, p ∈ w_streams w -> releaseStream p (w_tab w) <> None).
Proof.
  apply reachable_ok in Hreach. destruct Hreach. split_and!; [done|done| | | |].
  - intros p Hp conn id. destruct (addChannel_some p conn id (w_tab w)) as [r ->]; [|done]. apply wo_live0. memb.
  - intros c (ch & Hch & [s Hs])%wo_serving0. exists ch. unfold detachChannel, tryAcquireStream.
    rewrite Hs. split_and!; [done|done|by destruct (_ && _)].
  - intros p Hp. destruct (wo_live0 p) as [s Hs]; [memb|]. unfold dropSession. by rewrite Hs.
  - intros p Hp. destruct (wo_live0 p) as [s Hs]; [memb|]. unfold releaseStream. by rewrite Hs.
Qed.

(** C8: the table of sessions and channels is exact under every interleaving.
    A session is found under its own client id; a registered channel is being
    served and its id and session are those it is registered under; the
    connection of a served channel that is not registered any more has been
    closed, or the goroutine that replaced the channel has released the lock and
    has yet to close it, which it can do at once; and a session with no channel
    stays in the table only while a handshake or a removal that will use it is
    under way, or because a handshake failed after taking it. *)
Theorem channel_registry_exact (maxC maxS : Z) (w : world) (Hreach : reachable maxC maxS w) :
  (forall id p, tb_sessions (w_tab w) !! id = Some p ->
     exists s, tb_heap (w_tab w) !! p = Some s /\ cs_clientID s = id) /\
  (forall p s id c, tb_heap (w_tab w) !! p = Some s -> cs_channels s !! id = Some c ->
     c ∈ w_serving w /\
     exists ch, tb_chans (w_tab w) !! c = Some ch /\ ch_id ch = id /\ ch_session ch = p) /\
  (forall c ch n, c ∈ w_serving w -> tb_chans (w_tab w) !! c = Some ch -> ch_conn ch = Some n ->
     (exists s, tb_heap (w_tab w) !! ch_session ch = Some s /\ cs_channels s !! ch_id ch = Some c) \/
     ResConn n ∈ tb_closed (w_tab w) \/ c ∈ w_closing w) /\
  (forall c, c ∈ w_closing w -> exists ch w', tb_chans (w_tab w) !! c = Some ch /\ step maxC maxS w w' /\
     tb_closed (w_tab w') = resources_of ch ++ tb_closed (w_tab w)) /\
  (forall id p s, tb_sessions (w_tab w) !! id = Some p -> tb_heap (w_tab w) !! p = Some s ->
     cs_channels s = ∅ -> p ∈ w_joining w ++ w_dropping w ++ w_leaked w).
Proof.
  apply reachable_ok in Hreach. destruct Hreach. split_and!; eauto.
  intros c Hc. destruct (wo_closing0 c Hc) as [ch Hch]. apply list_elem_of_split in Hc as (a & b & Hc).
  eexists ch, _. split; [done|]. split; [by eapply step_close_replaced|]. cbn. by rewrite Hch.
Qed.

(** A channel leaves, a second one joins before the table entry is dropped, and a
    third one follows. *)
Definition race_trace : list action :=
  [DoJoin (bs "client"); DoRegister 0 (Some 1%nat) 1; DoJoin (bs "client"); DoDetach 0;
   DoRegister 0 (Some 2%nat) 2; DoDrop 0; DoAcquire 0; DoJoin (bs "client"); DoRegister 0 (Some 3%nat) 3;
   DoAcquire 0].

Definition raced : world :=
  match exec_all 1 1 start race_trace with Some w => w | None => start end.

(** The two critical sections of [removeChannel] race with a handshake.
    With both limits set to one, a second channel that joins the session of a
    client between them is served in a session no longer in the table, so the
    client's third channel gets a session of its own: two live sessions and two
    streams of one client. *)
Theorem removeChannel_race :
  exists w c1 c2 ch1 ch2 s1 s2,
    reachable 1 1 w /\ w_serving w = [c2; c1] /\
    tb_chans (w_tab w) !! c1 = Some ch1 /\ tb_chans (w_tab w) !! c2 = Some ch2 /\
    ch_session ch1 <> ch_session ch2 /\
    tb_heap (w_tab w) !! ch_session ch1 = Some s1 /\ tb_heap (w_tab w) !! ch_session ch2 = Some s2 /\
    cs_clientID s1 = cs_clientID s2 /\ cs_activeStreams s1 = 1 /\ cs_activeStreams s2 = 1.
Proof.
  exists raced, 1%nat, 2%nat. do 4 eexists.
  split; [apply (exec_all_reachable 1 1 race_trace); vm_compute; reflexivity|].
  split_and!; try (vm_compute; reflexivity). vm_compute. discriminate.
Qed.

(** * Witnesses *)

(** One client with a channel that replaced an earlier one, and a failed
    handshake of another. *)
Definition busy_trace : list action :=
  [DoJoin (bs "a"); DoNumber 0 7; DoRegister 0 (Some 1%nat) 7; DoJoin (bs "a"); DoRegister 0 (Some 2%nat) 7; DoAcquire 0;
   DoJoin (bs "b"); DoFail 0; DoCloseReplaced 0; DoJoin (bs "a"); DoRegister 0 (Some 3%nat) 7; DoAcquire 0].

Definition busy : world :=
  match exec_all 2 1 start busy_trace with Some w => w | None => start end.

Lemma busy_reachable : reachable 2 1 busy.
Proof. apply (exec_all_reachable 2 1 busy_trace). vm_compute. reflexivity. Qed.

Lemma session_limits_hold_witness :
  serverSessionCount (w_tab busy) = 2 /\ serverSessionCount (w_tab busy) <= 2 /\ w_streams busy = [0%nat].
Proof.
  split; [vm_compute; reflexivity|]. split; [|vm_compute; reflexivity].
  apply (proj1 (session_limits_hold 2 1 busy busy_reachable)). lia.
Defined.

(** The first connection has been closed; the second was replaced and its closing
    is yet to come. *)
Lemma channel_registry_exact_witness :
  ResConn 1 ∈ tb_closed (w_tab busy) /\ (ResConn 2 ∉ tb_closed (w_tab busy)) /\ w_closing busy = [1%nat] /\
  (exists s, tb_heap (w_tab busy) !! 1%nat = Some s /\ cs_clientID s = bs "b") /\
  exists ch w', tb_chans (w_tab busy) !! 1%nat = Some ch /\ step 2 1 busy w' /\
    tb_closed (w_tab w') = resources_of ch ++ tb_closed (w_tab busy).
Proof.
  destruct (channel_registry_exact 2 1 busy busy_reachable) as (H1 & _ & _ & H2 & _).
  split; [vm_compute; left|]. split; [rewrite list_elem_of_In; vm_compute; intros [H|[]]; discriminate H|].
  split; [vm_compute; reflexivity|].
  split; [apply H1; vm_compute; reflexivity|]. apply H2. vm_compute. left.
Defined.
