(* ===== verification/Handshake.v ===== *)
(** internal/app/server.go: the server's side of a handshake,
    [handlePreAuthTransportSession], over the nonce cache, the freshness cache
    and the session table. *)

From Stdlib Require Import ZArith Lia Strings.Byte.
From stdpp Require Import base numbers list gmap relations.
From S2P Require Import Prelude GoStrings GoNet NetAddr GoTime Crypto Wire WireV2 WireV3 Tai64n NonceCache Sessions.

Local Open Scope Z_scope.
Local Open Scope go_scope.

(** * State *)

(** The counters of the status page a handshake moves. *)
Inductive counter : Type :=
  | serverProtocolFailureSeq
  | serverProtocolRejectSeq
  | serverAuthRejectSeq
  | serverProtocolReplaySeq
  | serverTAI64NRejectSeq
  | serverClientRejectSeq
  | serverProtocolOKSeq.

#[export] Instance counter_eq_dec : EqDecision counter.
Proof. solve_decision. Defined.

Record server : Type := mkServer {
  sv_nonces : nonceReplayCache;
  sv_tai : tai64nCache;
  sv_table : sessionTable;
  sv_counters : counter -> Z;
}.

Record serverConfig : Type := mkServerConfig {
  sc_token : bytes;
  sc_authSkew : Z;
  sc_maxClientSessions : Z;
  sc_maxStreamsPerClient : Z;
}.

(** The [io.Closer] given to the handler: a WebSocket connection or, for QUIC,
    the transport session itself. *)
Inductive closer : Type := CloserWS (n : nat) | CloserQUIC (n : nat).

Definition closer_resources (c : option closer) : list resource :=
  match c with
  | None => []
  | Some (CloserWS n) => [ResConn n]
  | Some (CloserQUIC n) => [ResTransport n]
  end.

(** What a run of the handler meets: its closer and transport session, the bytes
    of the first stream ([None] when accepting it fails), the clock and the two
    readings of the random source. *)
Record attempt : Type := mkAttempt {
  at_closer : option closer;
  at_transport : nat;
  at_serverName : bytes;
  at_path : bytes;
  at_stream : option bytes;
  at_now : Time;
  at_keyRand : res bytes;
  at_nonceRand : res bytes;
}.

(** [Established c] is the channel [c] served from then on; [Crashed] a nil
    dereference. *)
Inductive outcome : Type := Dropped | Established (c : nat) | Crashed.

Definition set_nonces (sv : server) (c : nonceReplayCache) : server :=
  mkServer c (sv_tai sv) (sv_table sv) (sv_counters sv).
Definition set_tai (sv : server) (c : tai64nCache) : server :=
  mkServer (sv_nonces sv) c (sv_table sv) (sv_counters sv).
Definition set_table (sv : server) (t : sessionTable) : server :=
  mkServer (sv_nonces sv) (sv_tai sv) t (sv_counters sv).
Definition bump (sv : server) (c : counter) : server :=
  mkServer (sv_nonces sv) (sv_tai sv) (sv_table sv)
    (fun c' => if bool_decide (c = c') then wrapU 64 (sv_counters sv c + 1) else sv_counters sv c').

(** * The handler *)

Definition validateChannelInitTime (now : Time) (timestamp skew : Z) : bool :=
  if skew <=? 0 then true else
  let then_ := Unix timestamp 0 in
  negb (Before then_ (Add now (- skew))) && negb (After then_ (Add now skew)).

(** The early returns: some counters and [closer.Close()]. *)
Definition drop_with (a : attempt) (cs : list counter) (sv : server) : server :=
  let sv := foldl bump sv cs in
  set_table sv (close_all (sv_table sv) (closer_resources (at_closer a))).

Definition ws_conn (c : option closer) : option nat :=
  match c with Some (CloserWS n) => Some n | _ => None end.

Definition accept_message (cfg : serverConfig) (now : Time) (caps : Z) (serverNonce : bytes)
    (cipher : byte) (serverPk serverProof : bytes) : ChannelAccept :=
  mkChannelAccept caps serverNonce (UnixSec now) maxV2FrameSize
    (if 0 <? sc_maxStreamsPerClient cfg then wrapU 32 (sc_maxStreamsPerClient cfg) else 0)
    [] cipher serverPk serverProof.

Section Handler.
Context `{C : Crypto} {W : Type} `{HW : Writer W}.

(** The cryptographic part: ephemeral key, shared secret, nonce, transcript hash,
    proof and session keys; every failure is the same early return. *)
Definition server_secrets (cfg : serverConfig) (a : attempt) (init : ChannelInit) (cipher : byte)
    : res (bytes * bytes * bytes * V3SessionKeys) :=
  let! (serverSk, serverPk) := NewV3ClientEphemeralKey (at_keyRand a) in
  let! shared := ComputeV3SharedSecret serverSk (ci_client_eph_pk init) in
  let! serverNonce := at_nonceRand a in
  let! thFull := ComputeV3TranscriptHashFull (at_serverName a) (at_path a) init serverPk serverNonce cipher in
  let! serverProof := ComputeV3ServerProof (sc_token cfg) (at_serverName a) (at_path a) init serverPk serverNonce cipher in
  let! keys := DeriveV3SessionSeed (sc_token cfg) thFull shared in
  Ok (serverPk, serverNonce, serverProof, keys).

(** From [addChannel] on: the channel is registered, then the answer written. *)
Definition establish (cfg : serverConfig) (a : attempt) (init : ChannelInit) (caps : Z) (cipher : byte)
    (session : nat) (secrets : bytes * bytes * bytes * V3SessionKeys) (sv : server) (w : W)
    : server * W * outcome :=
  let '(serverPk, serverNonce, serverProof, keys) := secrets in
  match addChannel session (ws_conn (at_closer a)) (ci_channel_id init) (sv_table sv) with
  | None => (sv, w, Crashed)
  | Some (t, c) =>
      match tb_chans t !! c with
      | None => (sv, w, Crashed)
      | Some ch =>
          let t := set_channel t c (configure ch caps keys cipher (Some (at_transport a))) in
          let accept := accept_message cfg (at_now a) caps serverNonce cipher serverPk serverProof in
          match writeChannelAcceptV3 accept w with
          | (w, Ok _) => (bump (set_table sv t) serverProtocolOKSeq, w, Established c)
          | (w, _) =>
              let sv := bump (set_table sv t) serverProtocolFailureSeq in
              match removeChannel session (ch_id ch) c (sv_table sv) with
              | None => (sv, w, Crashed)
              | Some t => (drop_with a [] (set_table sv t), w, Dropped)
              end
          end
      end
  end.

Definition required_caps : Z := Z.lor requiredProtocolCapabilitiesV2 protocolCapabilityForwardSecrecy.

(** After the proof was verified. *)
Definition handle_authenticated (cfg : serverConfig) (a : attempt) (init : ChannelInit) (sv : server) (w : W)
    : server * W * outcome :=
  let '(nonces, seen) := seenOrStore (sv_nonces sv) (ci_session_id init) (ci_channel_id init)
                           (ci_client_nonce init) (at_now a) (sc_authSkew cfg) in
  let sv := set_nonces sv nonces in
  if seen then (drop_with a [serverProtocolReplaySeq; serverProtocolRejectSeq] sv, w, Dropped) else
  let '(tai, fresh) := CheckAndStore (sv_tai sv) (ci_session_id init) (ci_tai64n init) (at_now a)
                         (sc_authSkew cfg) in
  let sv := set_tai sv tai in
  if negb fresh then (drop_with a [serverTAI64NRejectSeq; serverProtocolRejectSeq] sv, w, Dropped) else
  if negb (Z.land (ci_capabilities init) required_caps =? required_caps)
  then (drop_with a [serverProtocolRejectSeq] sv, w, Dropped) else
  let caps := Z.land (ci_capabilities init) currentProtocolCapabilitiesV2 in
  let '(cipher, rejectCode, msg) := NegotiateCipherV3 (ci_cipher_pref init) in
  if negb (rejectCode =? 0) then (drop_with a [serverProtocolRejectSeq] sv, w, Dropped) else
  let sessionID := hex_encode (ci_session_id init) in
  match getOrCreateClientSession (sc_maxClientSessions cfg) sessionID (sv_table sv) with
  | (t, None) => (drop_with a [serverClientRejectSeq] (set_table sv t), w, Dropped)
  | (t, Some session) =>
      let sv := set_table sv t in
      match server_secrets cfg a init cipher with
      | Ok secrets => establish cfg a init caps cipher session secrets sv w
      | _ => (drop_with a [serverProtocolFailureSeq] sv, w, Dropped)
      end
  end.

Definition handlePreAuthTransportSession (cfg : serverConfig) (a : attempt) (sv : server) (w : W)
    : server * W * outcome :=
  match at_stream a with
  | None => (drop_with a [serverProtocolFailureSeq] sv, w, Dropped)
  | Some input =>
      match snd (readChannelInitV3 maxV2FrameSize input) with
      | Ok init =>
          match DecodeTAI64N (ci_tai64n init) with
          | Ok _ =>
              if negb (validateChannelInitTime (at_now a) (ci_timestamp init) (sc_authSkew cfg))
              then (drop_with a [serverProtocolRejectSeq] sv, w, Dropped) else
              if negb (len (ci_client_eph_pk init) =? 32)
              then (drop_with a [serverProtocolFailureSeq] sv, w, Dropped) else
              if negb (VerifyV3AuthProof (sc_token cfg) (at_serverName a) (at_path a) init)
              then (drop_with a [serverAuthRejectSeq; serverProtocolFailureSeq] sv, w, Dropped) else
              handle_authenticated cfg a init sv w
          | _ => (drop_with a [serverProtocolRejectSeq] sv, w, Dropped)
          end
      | _ => (drop_with a [serverProtocolFailureSeq] sv, w, Dropped)
      end
  end.

(** ** The handler among the other goroutines

    Between two accesses to the state it shares, the handler may be suspended and
    any other goroutine may run.  A phase is what the handler has reached, with
    what it holds; each of its steps makes at most one access: to the nonce cache,
    to the freshness cache, to the session table under one of its locks, or to the
    closed connections. *)
Inductive phase : Type :=
  | PhInit
  | PhVerified (init : ChannelInit)
  | PhUnseen (init : ChannelInit)
  | PhFresh (init : ChannelInit)
  | PhJoined (init : ChannelInit) (caps : Z) (cipher : byte) (session : nat)
  | PhNumbered (caps : Z) (cipher : byte) (session : nat) (secrets : bytes * bytes * bytes * V3SessionKeys) (newID : Z)
  | PhRegistered (caps : Z) (cipher : byte) (session : nat) (secrets : bytes * bytes * bytes * V3SessionKeys)
      (c : nat) (replaced : option nat)
  | PhConfiguring (caps : Z) (cipher : byte) (session : nat) (secrets : bytes * bytes * bytes * V3SessionKeys) (c : nat)
  | PhAnswering (caps : Z) (cipher : byte) (session : nat) (secrets : bytes * bytes * bytes * V3SessionKeys) (c : nat)
  | PhRemoving (session c : nat)
  | PhDropping (session : nat)
  | PhDrop (cs : list counter)
  | PhDone (o : outcome).

Definition handshake_step (cfg : serverConfig) (a : attempt) (ph : phase) (sv : server) (w : W) : phase * server * W :=
  match ph with
  | PhInit =>
      match at_stream a with
      | None => (PhDrop [serverProtocolFailureSeq], sv, w)
      | Some input =>
          match snd (readChannelInitV3 maxV2FrameSize input) with
          | Ok init =>
              match DecodeTAI64N (ci_tai64n init) with
              | Ok _ =>
                  if negb (validateChannelInitTime (at_now a) (ci_timestamp init) (sc_authSkew cfg))
                  then (PhDrop [serverProtocolRejectSeq], sv, w) else
                  if negb (len (ci_client_eph_pk init) =? 32)
                  then (PhDrop [serverProtocolFailureSeq], sv, w) else
                  if negb (VerifyV3AuthProof (sc_token cfg) (at_serverName a) (at_path a) init)
                  then (PhDrop [serverAuthRejectSeq; serverProtocolFailureSeq], sv, w) else
                  (PhVerified init, sv, w)
              | _ => (PhDrop [serverProtocolRejectSeq], sv, w)
              end
          | _ => (PhDrop [serverProtocolFailureSeq], sv, w)
          end
      end
  | PhVerified init =>
      let '(nonces, seen) := seenOrStore (sv_nonces sv) (ci_session_id init) (ci_channel_id init)
                               (ci_client_nonce init) (at_now a) (sc_authSkew cfg) in
      (if seen : bool then PhDrop [serverProtocolReplaySeq; serverProtocolRejectSeq] else PhUnseen init, set_nonces sv nonces, w)
  | PhUnseen init =>
      let '(tai, fresh) := CheckAndStore (sv_tai sv) (ci_session_id init) (ci_tai64n init) (at_now a)
                             (sc_authSkew cfg) in
      (if fresh : bool then PhFresh init else PhDrop [serverTAI64NRejectSeq; serverProtocolRejectSeq], set_tai sv tai, w)
  | PhFresh init =>
      if negb (Z.land (ci_capabilities init) required_caps =? required_caps)
      then (PhDrop [serverProtocolRejectSeq], sv, w) else
      let '(cipher, rejectCode, msg) := NegotiateCipherV3 (ci_cipher_pref init) in
      if negb (rejectCode =? 0) then (PhDrop [serverProtocolRejectSeq], sv, w) else
      match getOrCreateClientSession (sc_maxClientSessions cfg) (hex_encode (ci_session_id init)) (sv_table sv) with
      | (t, None) => (PhDrop [serverClientRejectSeq], set_table sv t, w)
      | (t, Some session) =>
          (PhJoined init (Z.land (ci_capabilities init) currentProtocolCapabilitiesV2) cipher session, set_table sv t, w)
      end
  | PhJoined init caps cipher session =>
      match server_secrets cfg a init cipher with
      | Ok secrets =>
          match nextChannelID session (ci_channel_id init) (sv_table sv) with
          | Some (t, newID) => (PhNumbered caps cipher session secrets newID, set_table sv t, w)
          | None => (PhDone Crashed, sv, w)
          end
      | _ => (PhDrop [serverProtocolFailureSeq], sv, w)
      end
  | PhNumbered caps cipher session secrets newID =>
      match registerChannel session (ws_conn (at_closer a)) newID (sv_table sv) with
      | Some (t, c, replaced) => (PhRegistered caps cipher session secrets c replaced, set_table sv t, w)
      | None => (PhDone Crashed, sv, w)
      end
  | PhRegistered caps cipher session secrets c replaced =>
      (PhConfiguring caps cipher session secrets c, set_table sv (closeReplaced replaced (sv_table sv)), w)
  | PhConfiguring caps cipher session secrets c =>
      match tb_chans (sv_table sv) !! c with
      | Some ch =>
          (PhAnswering caps cipher session secrets c,
           set_table sv (set_channel (sv_table sv) c (configure ch caps (snd secrets) cipher (Some (at_transport a)))), w)
      | None => (PhDone Crashed, sv, w)
      end
  | PhAnswering caps cipher session (serverPk, serverNonce, serverProof, keys) c =>
      match writeChannelAcceptV3 (accept_message cfg (at_now a) caps serverNonce cipher serverPk serverProof) w with
      | (w, Ok _) => (PhDone (Established c), bump sv serverProtocolOKSeq, w)
      | (w, _) => (PhRemoving session c, bump sv serverProtocolFailureSeq, w)
      end
  | PhRemoving session c =>
      match tb_chans (sv_table sv) !! c with
      | None => (PhDone Crashed, sv, w)
      | Some ch =>
          match detachChannel session (ch_id ch) c (sv_table sv) with
          | None => (PhDone Crashed, sv, w)
          | Some (t, true) => (PhDropping session, set_table sv t, w)
          | Some (t, false) => (PhDrop [], set_table sv t, w)
          end
      end
  | PhDropping session =>
      match dropSession session (sv_table sv) with
      | None => (PhDone Crashed, sv, w)
      | Some t => (PhDrop [], set_table sv t, w)
      end
  | PhDrop cs => (PhDone Dropped, drop_with a cs sv, w)
  | PhDone o => (PhDone o, sv, w)
  end.

End Handler.

(** What the handler holds in a phase, added to a world of the other goroutines. *)
Definition own_joining (ph : phase) : list nat :=
  match ph with PhJoined _ _ _ p | PhNumbered _ _ p _ _ => [p] | _ => [] end.
Definition own_serving (ph : phase) : list nat :=
  match ph with
  | PhRegistered _ _ _ _ c _ | PhConfiguring _ _ _ _ c | PhAnswering _ _ _ _ c | PhRemoving _ c | PhDone (Established c) => [c]
  | _ => []
  end.
Definition own_dropping (ph : phase) : list nat := match ph with PhDropping p => [p] | _ => [] end.
Definition own_closing (ph : phase) : list nat := match ph with PhRegistered _ _ _ _ _ r => option_list r | _ => [] end.

Definition whole (ph : phase) (others : world) : world :=
  mkWorld (w_tab others) (w_joining others ++ own_joining ph) (w_serving others ++ own_serving ph)
    (w_dropping others ++ own_dropping ph) (w_streams others) (w_leaked others) (w_closing others ++ own_closing ph).

(** The table after a step of the handler; a session it gives up is a leaked one. *)
Definition settle (ph ph' : phase) (others : world) (t : sessionTable) : world :=
  mkWorld t (w_joining others) (w_serving others) (w_dropping others) (w_streams others)
    (match ph, ph' with PhJoined _ _ _ p, PhDrop _ => p :: w_leaked others | _, _ => w_leaked others end) (w_closing others).

(** The handler and the others take turns.  The others make steps of the session
    table with what they hold themselves, and anything of the caches and counters. *)
Inductive interleave `{C : Crypto} {W : Type} `{HW : Writer W} (cfg : serverConfig) (a : attempt)
    : phase * server * W * world -> phase * server * W * world -> Prop :=
  | il_self ph sv w others ph' sv' w' :
      handshake_step cfg a ph sv w = (ph', sv', w') ->
      interleave cfg a (ph, sv, w, others) (ph', sv', w', settle ph ph' others (sv_table sv'))
  | il_others ph sv w others sv' others' :
      step (sc_maxClientSessions cfg) (sc_maxStreamsPerClient cfg) others others' -> sv_table sv' = w_tab others' ->
      interleave cfg a (ph, sv, w, others) (ph, sv', w, others').

(** * Lemmas *)

Lemma bump_all_fields cs sv :
  sv_nonces (foldl bump sv cs) = sv_nonces sv /\ sv_tai (foldl bump sv cs) = sv_tai sv /\
  sv_table (foldl bump sv cs) = sv_table sv.
Proof.
  revert sv. induction cs as [|c cs IH]; intros sv; [done|]. cbn [foldl].
  destruct (IH (bump sv c)) as (-> & -> & ->). done.
Qed.

Lemma drop_with_fields a cs sv :
  sv_nonces (drop_with a cs sv) = sv_nonces sv /\ sv_tai (drop_with a cs sv) = sv_tai sv /\
  sv_table (drop_with a cs sv) = close_all (sv_table sv) (closer_resources (at_closer a)).
Proof.
  unfold drop_with. cbn [set_table sv_nonces sv_tai sv_table].
  destruct (bump_all_fields cs sv) as (-> & -> & ->). done.
Qed.

Lemma getOrCreate_heap maxC id t t' p :
  (forall id p, tb_sessions t !! id = Some p -> is_Some (tb_heap t !! p)) ->
  getOrCreateClientSession maxC id t = (t', Some p) -> is_Some (tb_heap t' !! p).
Proof.
  intros Hmap. unfold getOrCreateClientSession.
  destruct (tb_sessions t !! id) as [q|] eqn:E; [intros [= <- <-]; eauto|].
  case_match; [done|]. intros [= <- <-]. cbn. rewrite lookup_insert_eq. eauto.
Qed.

Lemma getOrCreate_refused maxC id t t' : getOrCreateClientSession maxC id t = (t', None) -> t' = t.
Proof. unfold getOrCreateClientSession. repeat case_match; congruence. Qed.

(** ** Interleavings refine the steps of the table *)

Section Refinement.
Context (maxC maxS : Z).

Definition framed (oj os od oc : list nat) (w : world) : world :=
  mkWorld (w_tab w) (w_joining w ++ oj) (w_serving w ++ os) (w_dropping w ++ od) (w_streams w) (w_leaked w) (w_closing w ++ oc).

(** What others hold does not keep a goroutine from its steps. *)
Lemma step_framed oj os od oc w w' :
  step maxC maxS w w' -> step maxC maxS (framed oj os od oc w) (framed oj os od oc w').
Proof.
  assert (forall (x : nat) l l', x ∈ l -> x ∈ l ++ l') as Hin by (intros; apply elem_of_app; by left).
  assert (forall (l a b o : list nat) x, l = a ++ x :: b -> l ++ o = a ++ x :: (b ++ o)) as Hsp
    by (intros l a0 b0 o x ->; by rewrite <- app_assoc).
  intros Hstep. destruct Hstep as [w id t p H|w id t H|w a p b H|w p id t n Hp H|w a p b conn id t c r H H2|w a old b H|
    w c ch caps keys ci tr H H2|w a c b ch t e H H2 H3|w a p b t H H2|w c ch t n ok H H2 H3|w a p b t H H2|w rs|w w' Ht Hj Hs Hd Hm Hl Hc];
    unfold framed; cbn [w_tab w_joining w_serving w_dropping w_streams w_leaked w_closing];
    rewrite <- ?(assoc_L (++)).
  - by eapply (step_join _ _ (framed oj os od oc w)).
  - by eapply (step_refused _ _ (framed oj os od oc w)).
  - by apply (step_fail _ _ (framed oj os od oc w)), Hsp.
  - eapply (step_number _ _ (framed oj os od oc w)); [by apply Hin|done].
  - eapply (step_register _ _ (framed oj os od oc w)); [by apply Hsp|done].
  - by apply (step_close_replaced _ _ (framed oj os od oc w)), Hsp.
  - apply (step_configure _ _ (framed oj os od oc w)); [by apply Hin|done].
  - replace ((if e then ch_session ch :: w_dropping w else w_dropping w) ++ od)
      with (if e then ch_session ch :: w_dropping w ++ od else w_dropping w ++ od) by by destruct e.
    eapply (step_detach _ _ (framed oj os od oc w)); [by apply Hsp|done|done].
  - eapply (step_drop _ _ (framed oj os od oc w)); [by apply Hsp|done].
  - eapply (step_acquire _ _ (framed oj os od oc w)); [by apply Hin|done|done].
  - by eapply (step_release _ _ (framed oj os od oc w)).
  - apply (step_close _ _ (framed oj os od oc w)).
  - apply step_reorder; cbn; rewrite ?Ht, ?Hj, ?Hs, ?Hd, ?Hm, ?Hl, ?Hc; done.
Qed.

Lemma step_whole ph w w' : step maxC maxS w w' -> step maxC maxS (whole ph w) (whole ph w').
Proof. apply step_framed. Qed.

(** A channel keeps its session and its number. *)
Lemma step_channel w w' c ch :
  step maxC maxS w w' -> tb_chans (w_tab w) !! c = Some ch ->
  exists ch', tb_chans (w_tab w') !! c = Some ch' /\ ch_session ch' = ch_session ch.
Proof.
  intros Hstep Hc. destruct Hstep as [w id t p H|w id t H| |w p id t n Hp H|w a p b conn id t c' r H H2|w a old b H|
    w c' ch' caps keys ci tr H H2|w a c' b ch' t e H H2 H3|w a p b t H H2|w c' ch' t n ok H H2 H3|w a p b t H H2| |w w' Ht];
    cbn [w_tab] in *; try by exists ch.
  - unfold getOrCreateClientSession in H. repeat case_match; simplify_eq; by exists ch.
  - unfold getOrCreateClientSession in H. repeat case_match; simplify_eq; by exists ch.
  - apply nextChannelID_inv in H as [-> | (s & _ & ->)]; by exists ch.
  - apply registerChannel_inv in H2 as (s & _ & Hn & _ & _ & _ & _ & ->). exists ch. by rewrite lookup_insert_ne by congruence.
  - destruct (closeReplaced_fields (Some old) (w_tab w)) as (_ & _ & -> & _). by exists ch.
  - cbn. destruct (decide (c' = c)) as [-> |]; [|exists ch; by rewrite lookup_insert_ne].
    simplify_eq. eexists. by rewrite lookup_insert_eq.
  - unfold detachChannel in H3. repeat case_match; simplify_eq; by exists ch.
  - unfold dropSession in H2. repeat case_match; simplify_eq; by exists ch.
  - unfold tryAcquireStream in H3. repeat case_match; simplify_eq; by exists ch.
  - unfold releaseStream in H2. repeat case_match; simplify_eq; by exists ch.
  - rewrite Ht. by exists ch.
Qed.

End Refinement.

(** The handler's channel is one of its session. *)
Definition phase_ok (ph : phase) (t : sessionTable) : Prop :=
  match ph with
  | PhRegistered _ _ session _ c _ | PhConfiguring _ _ session _ c | PhAnswering _ _ session _ c | PhRemoving session c =>
      exists ch, tb_chans t !! c = Some ch /\ ch_session ch = session
  | _ => True
  end.

Lemma phase_ok_step maxC maxS ph w w' : step maxC maxS w w' -> phase_ok ph (w_tab w) -> phase_ok ph (w_tab w').
Proof.
  intros Hs. destruct ph; cbn [phase_ok]; try done; intros (ch & Hc & <-);
    destruct (step_channel _ _ _ _ _ _ Hs Hc) as (ch' & ? & ?); by exists ch'.
Qed.

Section HandlerLemmas.
Context `{C : Crypto} {W : Type} {HWr : Writer W} (cfg : serverConfig) (a : attempt).

Local Abbreviation maxC := (sc_maxClientSessions cfg).
Local Abbreviation maxS := (sc_maxStreamsPerClient cfg).

(** A step of the handler as one of the table, up to the order of the lists. *)
Ltac reordered := apply rtc_once, step_reorder; cbn; rewrite ?app_nil_r; 
  first [done | match goal with H : w_tab _ = _ |- _ => by rewrite H end | solve_Permutation].

Lemma settle_same (ph ph' : phase) others sv :
  w_tab others = sv_table sv -> own_joining ph = own_joining ph' -> own_serving ph = own_serving ph' ->
  own_dropping ph = own_dropping ph' -> own_closing ph = own_closing ph' -> (forall i ca ci p, ph <> PhJoined i ca ci p) ->
  whole ph' (settle ph ph' others (sv_table sv)) = whole ph others.
Proof.
  intros Et E1 E2 E3 E4 Hn. unfold whole, settle. cbn. rewrite E1, E2, E3, E4, <- Et. f_equal.
  destruct ph; try done. by destruct (Hn init caps cipher session).
Qed.

(** A step from one phase to another is a run of the whole world. *)
Definition refined (ph : phase) (others : world) (ph' : phase) (sv' : server) : Prop :=
  rtc (step maxC maxS) (whole ph others) (whole ph' (settle ph ph' others (sv_table sv'))) /\
  phase_ok ph' (sv_table sv') /\ ph' <> PhDone Crashed.

Lemma fresh_refines init sv (w : W) others ph' sv' w' :
  handshake_step cfg a (PhFresh init) sv w = (ph', sv', w') -> w_tab others = sv_table sv ->
  refined (PhFresh init) others ph' sv'.
Proof.
  intros Hs Et. cbn [handshake_step] in Hs.
  destruct (negb _); [simplify_eq; (split; [by rewrite settle_same|done])|].
  destruct (NegotiateCipherV3 _) as [[cipher code] msg].
  destruct (negb _); [simplify_eq; (split; [by rewrite settle_same|done])|].
  destruct (getOrCreateClientSession _ _ _) as [t [p|]] eqn:Hg; simplify_eq.
  - split; [|done]. eapply rtc_l;
      [(eapply (step_join maxC maxS (whole (PhFresh init) others)); cbn; by rewrite Et)|reordered].
  - apply getOrCreate_refused in Hg as ->. split; [by rewrite settle_same|done].
Qed.

Lemma joined_refines init caps cipher session sv (w : W) others ph' sv' w' :
  let ph := PhJoined init caps cipher session in
  handshake_step cfg a ph sv w = (ph', sv', w') -> w_tab others = sv_table sv ->
  is_Some (tb_heap (sv_table sv) !! session) -> refined ph others ph' sv'.
Proof.
  intros ph Hs Et Hp. cbn [ph handshake_step] in Hs.
  destruct (server_secrets cfg a init cipher) as [secrets|e|]; simplify_eq.
  2, 3: (split; [|done]; eapply rtc_l; [by eapply (step_fail maxC maxS (whole ph others))|reordered]).
  destruct (nextChannelID_some session (ci_channel_id init) (sv_table sv) Hp) as [[t n] Hn]. rewrite Hn in Hs. simplify_eq.
  split; [|done]. eapply rtc_l;
    [(eapply (step_number maxC maxS (whole ph others)); cbn; [apply elem_of_app; right; by left|by rewrite Et])|reordered].
Qed.

Lemma numbered_refines caps cipher session secrets newID sv (w : W) others ph' sv' w' :
  let ph := PhNumbered caps cipher session secrets newID in
  handshake_step cfg a ph sv w = (ph', sv', w') -> w_tab others = sv_table sv ->
  is_Some (tb_heap (sv_table sv) !! session) -> refined ph others ph' sv'.
Proof.
  intros ph Hs Et Hp. cbn [ph handshake_step] in Hs.
  destruct (registerChannel_some session (ws_conn (at_closer a)) newID (sv_table sv) Hp) as [[[t c] r] Hr].
  rewrite Hr in Hs. simplify_eq. split; [|split; [|done]].
  - eapply rtc_l;
      [(eapply (step_register maxC maxS (whole ph others) (w_joining others) session []); cbn; [done|by rewrite Et])|reordered].
  - apply registerChannel_inv in Hr as (s & _ & _ & _ & _ & _ & _ & Hc).
    cbn [set_table sv_table phase_ok]. rewrite Hc. eexists. by rewrite lookup_insert_eq.
Qed.

Lemma registered_refines caps cipher session secrets c replaced sv (w : W) others ph' sv' w' :
  let ph := PhRegistered caps cipher session secrets c replaced in
  handshake_step cfg a ph sv w = (ph', sv', w') -> w_tab others = sv_table sv ->
  phase_ok ph (sv_table sv) -> refined ph others ph' sv'.
Proof.
  intros ph Hs Et Hok. cbn [ph handshake_step] in Hs. simplify_eq.
  destruct (closeReplaced_fields replaced (sv_table sv)) as (_ & _ & Hc & _).
  split; [|split; [cbn [phase_ok set_table sv_table]; by rewrite Hc|done]]. destruct replaced as [old|].
  - eapply rtc_l; [by apply (step_close_replaced maxC maxS (whole ph others) (w_closing others) old [])|reordered].
  - apply rtc_once, step_reorder; cbn; by rewrite ?app_nil_r, ?Et.
Qed.

Lemma configuring_refines caps cipher session secrets c sv (w : W) others ph' sv' w' :
  let ph := PhConfiguring caps cipher session secrets c in
  handshake_step cfg a ph sv w = (ph', sv', w') -> w_tab others = sv_table sv ->
  phase_ok ph (sv_table sv) -> refined ph others ph' sv'.
Proof.
  intros ph Hs Et (ch & Hc & Hsess). cbn [ph handshake_step] in Hs. rewrite Hc in Hs. simplify_eq. split; [|split; [|done]].
  - eapply rtc_l;
      [apply (step_configure maxC maxS (whole ph others) c ch caps (snd secrets) cipher (Some (at_transport a))); cbn;
       [apply elem_of_app; right; by left|by rewrite Et]|reordered].
  - cbn. eexists. by rewrite lookup_insert_eq.
Qed.

Lemma removing_refines session c sv (w : W) others ph' sv' w' :
  let ph := PhRemoving session c in
  handshake_step cfg a ph sv w = (ph', sv', w') -> w_tab others = sv_table sv ->
  phase_ok ph (sv_table sv) -> is_Some (tb_heap (sv_table sv) !! session) -> refined ph others ph' sv'.
Proof.
  intros ph Hs Et (ch & Hc & <-) [s Hss]. cbn [ph handshake_step] in Hs. rewrite Hc in Hs.
  destruct (detachChannel (ch_session ch) (ch_id ch) c (sv_table sv)) as [[t [|]]|] eqn:Hd; simplify_eq.
  3: { unfold detachChannel in Hd. by rewrite Hss in Hd. }
  all: split; [|done]; eapply rtc_l;
    [eapply (step_detach maxC maxS (whole ph others) (w_serving others) c [] ch); cbn; [done|by rewrite Et|by rewrite Et]|reordered].
Qed.

Lemma dropping_refines session sv (w : W) others ph' sv' w' :
  let ph := PhDropping session in
  handshake_step cfg a ph sv w = (ph', sv', w') -> w_tab others = sv_table sv ->
  is_Some (tb_heap (sv_table sv) !! session) -> refined ph others ph' sv'.
Proof.
  intros ph Hs Et [s Hss]. cbn [ph handshake_step] in Hs.
  destruct (dropSession session (sv_table sv)) as [t|] eqn:Hd; simplify_eq.
  2: { unfold dropSession in Hd. by rewrite Hss in Hd. }
  split; [|done]. eapply rtc_l;
    [(eapply (step_drop maxC maxS (whole ph others) (w_dropping others) session []); cbn; [done|by rewrite Et])|reordered].
Qed.

(** One step of the handler keeps what the whole world needs. *)
Lemma self_refines ph sv (w : W) others ph' sv' w' :
  handshake_step cfg a ph sv w = (ph', sv', w') ->
  w_tab others = sv_table sv -> phase_ok ph (sv_table sv) -> world_ok maxC maxS (whole ph others) -> ph <> PhDone Crashed ->
  refined ph others ph' sv'.
Proof.
  intros Hs Et Hok Hw Hnc.
  assert (forall p, p ∈ own_joining ph ++ own_dropping ph -> is_Some (tb_heap (sv_table sv) !! p)) as Hlive.
  { intros p Hp. rewrite <- Et. apply (wo_live _ _ _ Hw p). cbn. rewrite !elem_of_app in *. tauto. }
  destruct ph; cbn [own_joining own_dropping app] in Hlive.
  - cbn [handshake_step] in Hs. repeat case_match; simplify_eq; (split; [by rewrite settle_same|done]).
  - cbn [handshake_step] in Hs. destruct (seenOrStore _ _ _ _ _ _) as [nonces [|]]; simplify_eq;
      (split; [by rewrite (settle_same _ _ others (set_nonces sv nonces))|done]).
  - cbn [handshake_step] in Hs. destruct (CheckAndStore _ _ _ _ _) as [tai [|]]; simplify_eq;
      (split; [by rewrite (settle_same _ _ others (set_tai sv tai))|done]).
  - by eapply fresh_refines.
  - eapply joined_refines; [done..|]. apply Hlive. by left.
  - eapply numbered_refines; [done..|]. apply Hlive. by left.
  - by eapply registered_refines.
  - by eapply configuring_refines.
  - cbn [handshake_step] in Hs. destruct secrets as [[[pk nonce] proof] keys].
    destruct (writeChannelAcceptV3 _ w) as [w1 [[]|e|]]; simplify_eq;
      (split; [by rewrite (settle_same _ _ others (bump sv _))|done]).
  - eapply removing_refines; [done..|]. destruct Hok as (ch & Hc & <-).
    destruct (wo_serving _ _ _ Hw c) as (ch' & Hc' & Hss); [cbn; apply elem_of_app; right; by left|].
    cbn in Hc', Hss. rewrite Et in *. by simplify_eq.
  - eapply dropping_refines; [done..|]. apply Hlive. by left.
  - cbn [handshake_step] in Hs. simplify_eq. split; [|done]. destruct (drop_with_fields a cs sv) as (_ & _ & Hd). rewrite Hd.
    eapply rtc_l; [apply (step_close maxC maxS (whole (PhDrop cs) others) (closer_resources (at_closer a)))|reordered].
  - cbn [handshake_step] in Hs. simplify_eq. split; [by rewrite settle_same|done].
Qed.

(** Every interleaving is a run of the table's steps. *)
Lemma interleave_refines ph sv (w : W) others ph' sv' w' others' :
  rtc (interleave cfg a) (ph, sv, w, others) (ph', sv', w', others') ->
  world_ok maxC maxS (whole ph others) -> w_tab others = sv_table sv -> phase_ok ph (sv_table sv) -> ph <> PhDone Crashed ->
  w_tab others' = sv_table sv' /\ rtc (step maxC maxS) (whole ph others) (whole ph' others') /\ ph' <> PhDone Crashed.
Proof.
  intros Hr. remember (ph, sv, w, others) as x eqn:Hx. remember (ph', sv', w', others') as y eqn:Hy.
  revert ph sv w others Hx. induction Hr as [x|x y z Hxy Hyz IH]; intros ph sv w others -> Hw Et Hok Hnc; [by simplify_eq|].
  specialize (IH Hy). inversion Hxy; subst.
  - destruct (self_refines _ _ _ _ _ _ _ H4 Et Hok Hw Hnc) as (Hrun & Hok' & Hnc').
    destruct (IH _ _ _ _ eq_refl) as (? & Hrun' & ?); [|done|done|done|].
    + by eapply steps_preserve.
    + split; [done|]. split; [by etrans|done].
  - pose proof (step_whole maxC maxS ph _ _ H4) as Hst.
    destruct (IH _ _ _ _ eq_refl) as (? & Hrun' & ?); [by eapply step_preserves|done| |done|].
    + rewrite H5. eapply phase_ok_step; [done|]. by rewrite Et.
    + split; [done|]. split; [by eapply rtc_l|done].
Qed.

(** Left to itself, from a phase on, the handler ends with a given result; the
    other goroutines hold what they held, and a session is leaked only when no
    channel was established. *)
Definition ends (ph : phase) (sv : server) (w : W) (others : world) (res : server * W * outcome) : Prop :=
  let '(sv', w', o) := res in
  o <> Crashed -> exists leaked,
    rtc (interleave cfg a) (ph, sv, w, others)
      (PhDone o, sv', w', mkWorld (sv_table sv') (w_joining others) (w_serving others) (w_dropping others)
                            (w_streams others) leaked (w_closing others)) /\
    (leaked = w_leaked others \/ o = Dropped).

Lemma ends_step ph sv w others res ph1 sv1 w1 :
  handshake_step cfg a ph sv w = (ph1, sv1, w1) ->
  (w_leaked (settle ph ph1 others (sv_table sv1)) = w_leaked others \/ snd res = Dropped) ->
  ends ph1 sv1 w1 (settle ph ph1 others (sv_table sv1)) res -> ends ph sv w others res.
Proof.
  destruct res as [[sv' w'] o]. cbn [snd]. intros Hs Hl He Hc. destruct (He Hc) as (leaked & Hr & Hk).
  exists leaked. split; [by eapply rtc_l; [apply il_self|]|]. destruct Hl as [<-|]; [done|by right].
Qed.

Lemma drop_ends cs sv w others : ends (PhDrop cs) sv w others (drop_with a cs sv, w, Dropped).
Proof. intros _. exists (w_leaked others). split; [|by left]. by apply rtc_once, il_self. Qed.

Lemma done_ends o sv w others : w_tab others = sv_table sv -> ends (PhDone o) sv w others (sv, w, o).
Proof. intros Et _. exists (w_leaked others). split; [|by left]. rewrite <- Et. by destruct others. Qed.

Lemma remove_ends session c ch sv w others :
  tb_chans (sv_table sv) !! c = Some ch ->
  ends (PhRemoving session c) sv w others
    match removeChannel session (ch_id ch) c (sv_table sv) with
    | None => (sv, w, Crashed)
    | Some t => (drop_with a [] (set_table sv t), w, Dropped)
    end.
Proof.
  intros Hc. unfold removeChannel. destruct (detachChannel _ _ _ _) as [[t [|]]|] eqn:Hd; [| |by intros []].
  - destruct (dropSession session t) as [t'|] eqn:Hp; [|by intros []].
    eapply ends_step; [cbn; by rewrite Hc, Hd|by left|]. eapply ends_step; [cbn; by rewrite Hp|by left|]. apply drop_ends.
  - eapply ends_step; [cbn; by rewrite Hc, Hd|by left|]. apply drop_ends.
Qed.

Lemma establish_ends init caps cipher session secrets sv w others :
  server_secrets cfg a init cipher = Ok secrets ->
  ends (PhJoined init caps cipher session) sv w others (establish cfg a init caps cipher session secrets sv w).
Proof.
  intros Hsec. destruct secrets as [[[pk nonce] proof] keys]. unfold establish, addChannel.
  destruct (nextChannelID session _ (sv_table sv)) as [[t1 n]|] eqn:Hn; [|by intros []].
  destruct (registerChannel session _ n t1) as [[[t2 c] r]|] eqn:Hr; [|by intros []].
  destruct (tb_chans (closeReplaced r t2) !! c) as [ch|] eqn:Hc; [|by intros []].
  eapply ends_step; [cbn; by rewrite Hsec, Hn|by left|]. eapply ends_step; [cbn; by rewrite Hr|by left|].
  eapply ends_step; [done|by left|]. eapply ends_step; [cbn; by rewrite Hc|by left|].
  destruct (writeChannelAcceptV3 _ w) as [w1 [[]|e|]] eqn:Hw.
  - eapply ends_step; [cbn [handshake_step]; by rewrite Hw|by left|]. by apply done_ends.
  - eapply ends_step; [cbn [handshake_step]; by rewrite Hw|by left|].
    refine (remove_ends session c (configure ch caps keys cipher (Some (at_transport a))) _ _ _ _). cbn. by rewrite lookup_insert_eq.
  - eapply ends_step; [cbn [handshake_step]; by rewrite Hw|by left|].
    refine (remove_ends session c (configure ch caps keys cipher (Some (at_transport a))) _ _ _ _). cbn. by rewrite lookup_insert_eq.
Qed.

Lemma establish_no_crash init caps cipher session secrets sv w :
  is_Some (tb_heap (sv_table sv) !! session) ->
  snd (establish cfg a init caps cipher session secrets sv w) <> Crashed.
Proof.
  intros Hs. destruct secrets as [[[pk nonce] proof] keys]. unfold establish.
  destruct (addChannel_some session (ws_conn (at_closer a)) (ci_channel_id init) (sv_table sv) Hs) as [[t c] Ha]. rewrite Ha.
  destruct (addChannel_inv _ _ _ _ _ _ Ha) as (s' & id' & _ & _ & _ & [n Hh] & Hc). rewrite Hc, lookup_insert_eq.
  destruct (writeChannelAcceptV3 _ w) as [w1 [[]|e|]]; [done|..];
    (destruct (removeChannel _ _ _ _) as [t3|] eqn:Hrm; [done|]);
    unfold removeChannel, detachChannel, dropSession in Hrm; cbn [sv_table set_table bump set_channel tb_heap set_session] in Hrm;
    rewrite Hh, lookup_insert_eq in Hrm; cbn [set_session tb_heap] in Hrm; repeat case_match; simplify_eq; by simplify_map_eq.
Qed.

Lemma handle_no_crash sv w wd :
  world_ok maxC maxS wd -> w_tab wd = sv_table sv ->
  let '(_, _, o) := handlePreAuthTransportSession cfg a sv w in o <> Crashed.
Proof.
  intros Hok Et. enough (snd (handlePreAuthTransportSession cfg a sv w) <> Crashed) as H
    by by destruct (handlePreAuthTransportSession cfg a sv w) as [[sv' w'] o].
  unfold handlePreAuthTransportSession, handle_authenticated.
  destruct (at_stream a); [|done]. destruct (snd (readChannelInitV3 _ _)) as [init| |]; [|done..]. destruct (DecodeTAI64N _); [|done..].
  destruct (negb _); [done|]. destruct (negb _); [done|]. destruct (negb _); [done|].
  destruct (seenOrStore _ _ _ _ _ _) as [nonces [|]]; [done|].
  destruct (CheckAndStore _ _ _ _ _) as [tai [|]]; cbn [negb]; [|done].
  destruct (negb _); [done|]. destruct (NegotiateCipherV3 _) as [[cipher code] msg]. destruct (negb _); [done|].
  destruct (getOrCreateClientSession _ _ _) as [t [p|]] eqn:Hg; [|done].
  destruct (server_secrets cfg a init cipher); [|done..]. apply establish_no_crash. cbn.
  eapply getOrCreate_heap; [|exact Hg]. cbn. rewrite <- Et. intros id q (s & Hs & _)%(wo_map _ _ _ Hok). eauto.
Qed.

(** The handler as one function is the run without interference. *)
Lemma handle_ends sv w others : ends PhInit sv w others (handlePreAuthTransportSession cfg a sv w).
Proof.
  unfold handlePreAuthTransportSession, handle_authenticated.
  destruct (at_stream a) as [input|] eqn:E1; [|eapply ends_step; [cbn; by rewrite E1|by left|apply drop_ends]].
  destruct (snd _) as [init| |] eqn:E2; [|eapply ends_step; [cbn; by rewrite E1, E2|by left|apply drop_ends]..].
  destruct (DecodeTAI64N _) eqn:E3; [|eapply ends_step; [cbn; by rewrite E1, E2, E3|by left|apply drop_ends]..].
  destruct (negb (validateChannelInitTime _ _ _)) eqn:E4; [eapply ends_step; [cbn; by rewrite E1, E2, E3, E4|by left|apply drop_ends]|].
  destruct (negb (len _ =? _)) eqn:E5; [eapply ends_step; [cbn; by rewrite E1, E2, E3, E4, E5|by left|apply drop_ends]|].
  destruct (negb (VerifyV3AuthProof _ _ _ _)) eqn:E6; [eapply ends_step; [cbn; by rewrite E1, E2, E3, E4, E5, E6|by left|apply drop_ends]|].
  eapply ends_step; [cbn; by rewrite E1, E2, E3, E4, E5, E6|by left|].
  destruct (seenOrStore _ _ _ _ _ _) as [nonces [|]] eqn:E7; (eapply ends_step; [cbn; by rewrite E7|by left|]); [apply drop_ends|].
  destruct (CheckAndStore _ _ _ _ _) as [tai [|]] eqn:E8; (eapply ends_step; [cbn in *; by rewrite E8|by left|]); cbn [negb]; [|apply drop_ends].
  destruct (negb (Z.land _ _ =? _)) eqn:E9; [eapply ends_step; [cbn; by rewrite E9|by left|apply drop_ends]|].
  destruct (NegotiateCipherV3 _) as [[cipher code] msg] eqn:E10.
  destruct (negb (code =? 0)) eqn:E11; [eapply ends_step; [cbn; by rewrite E9, E10, E11|by left|apply drop_ends]|].
  destruct (getOrCreateClientSession _ _ _) as [t [p|]] eqn:E12;
    (eapply ends_step; [cbn; cbn in E12; by rewrite E9, E10, E11, E12|by left|]); [|apply drop_ends].
  destruct (server_secrets cfg a init cipher) as [secrets|e|] eqn:E13; [by apply establish_ends|..];
    (eapply ends_step; [cbn; by rewrite E13|by right|apply drop_ends]).
Qed.

End HandlerLemmas.

(** * The handler before and after authentication *)

Section HandlerProperties.
Context `{C : Crypto} {W : Type} {HWr : Writer W}.

(** The stream carries a ChannelInit whose proof the server verifies. *)
Definition authentic (cfg : serverConfig) (a : attempt) (init : ChannelInit) : Prop :=
  exists input, at_stream a = Some input /\
    snd (readChannelInitV3 maxV2FrameSize input) = Ok init /\
    VerifyV3AuthProof (sc_token cfg) (at_serverName a) (at_path a) init = true.

(** The checks before the proof: what is left is the authenticated part. *)
Lemma handle_cases cfg a sv (w : W) :
  (exists cs, handlePreAuthTransportSession cfg a sv w = (drop_with a cs sv, w, Dropped)) \/
  (exists init, authentic cfg a init /\
     (exists t, DecodeTAI64N (ci_tai64n init) = Ok t) /\
     validateChannelInitTime (at_now a) (ci_timestamp init) (sc_authSkew cfg) = true /\
     handlePreAuthTransportSession cfg a sv w = handle_authenticated cfg a init sv w).
Proof.
  unfold handlePreAuthTransportSession, authentic.
  destruct (at_stream a) as [input|]; [|eauto].
  destruct (snd (readChannelInitV3 maxV2FrameSize input)) as [init| |] eqn:Hr; [|eauto..].
  destruct (DecodeTAI64N (ci_tai64n init)) as [t| |] eqn:Ht; [|eauto..].
  destruct (validateChannelInitTime _ _ _) eqn:Hv; cbn [negb]; [|eauto].
  destruct (negb (len _ =? 32)); [eauto|].
  destruct (VerifyV3AuthProof _ _ _ _) eqn:Hp; cbn [negb]; [|eauto].
  right. exists init. eauto 10.
Qed.

(** The only write of a handshake is the answer. *)
Lemma authenticated_writes cfg a init sv (w : W) :
  let '(_, w', o) := handle_authenticated cfg a init sv w in
  o = Dropped -> w' = w \/
  exists accept r, writeChannelAcceptV3 accept w = (w', r) /\ r <> Ok tt.
Proof.
  unfold handle_authenticated, establish. repeat case_match; simplify_eq/=; intros; try discriminate; eauto;
    right; do 2 eexists; (split; [eassumption|done]).
Qed.

Lemma authenticated_nonces cfg a init sv (w : W) :
  let '(sv', _, o) := handle_authenticated cfg a init sv w in
  let r := seenOrStore (sv_nonces sv) (ci_session_id init) (ci_channel_id init)
             (ci_client_nonce init) (at_now a) (sc_authSkew cfg) in
  sv_nonces sv' = fst r /\ ((exists c, o = Established c) -> snd r = false).
Proof.
  unfold handle_authenticated, establish.
  destruct (seenOrStore _ _ _ _ _ _) as [nonces seen].
  repeat case_match; simplify_eq/=; (split; [try done|by intros [? ?]]);
    match goal with |- sv_nonces (drop_with ?a ?cs ?sv) = _ => by destruct (drop_with_fields a cs sv) as (-> & _) end.
Qed.

(** What a handshake does to the nonce cache: nothing, or one call of it, which an
    established handshake answered with a new nonce. *)
Lemma handle_nonces cfg a sv (w : W) :
  let '(sv', _, o) := handlePreAuthTransportSession cfg a sv w in
  ((forall c, o <> Established c) /\ sv_nonces sv' = sv_nonces sv) \/
  (exists init, authentic cfg a init /\
     sv_nonces sv' = fst (seenOrStore (sv_nonces sv) (ci_session_id init) (ci_channel_id init)
                            (ci_client_nonce init) (at_now a) (sc_authSkew cfg)) /\
     ((exists c, o = Established c) ->
      snd (seenOrStore (sv_nonces sv) (ci_session_id init) (ci_channel_id init)
             (ci_client_nonce init) (at_now a) (sc_authSkew cfg)) = false)).
Proof.
  destruct (handle_cases cfg a sv w) as [[cs ->]|(init & Hauth & _ & _ & ->)].
  - left. by destruct (drop_with_fields a cs sv) as (-> & _).
  - pose proof (authenticated_nonces cfg a init sv w) as Hn.
    destruct (handle_authenticated cfg a init sv w) as [[sv' w'] o]. right. exists init.
    by destruct Hn.
Qed.

(** C4: an unauthenticated peer learns nothing and changes nothing.  Whatever
    bytes it sends, a handshake whose ChannelInit is missing, malformed or
    carries no valid proof is dropped without a byte of answer and without
    touching the nonce cache, the freshness cache, the sessions or the channels;
    and even an authentic one that is dropped gets no answer, unless writing the
    acceptance itself failed. *)
Theorem unauthenticated_leaves_no_trace (cfg : serverConfig) (a : attempt) (sv : server) (w : W) :
  let '(sv', w', o) := handlePreAuthTransportSession cfg a sv w in
  ((forall init, ~ authentic cfg a init) ->
     o = Dropped /\ w' = w /\ sv_nonces sv' = sv_nonces sv /\ sv_tai sv' = sv_tai sv /\
     sv_table sv' = close_all (sv_table sv) (closer_resources (at_closer a))) /\
  (o = Dropped -> w' = w \/
     exists accept r, writeChannelAcceptV3 accept w = (w', r) /\ r <> Ok tt).
Proof.
  destruct (handle_cases cfg a sv w) as [[cs ->]|(init & Hauth & _ & _ & ->)].
  - split; [|by left]. intros _. destruct (drop_with_fields a cs sv) as (? & ? & ?). done.
  - pose proof (authenticated_writes cfg a init sv w) as Hw.
    destruct (handle_authenticated cfg a init sv w) as [[sv' w'] o].
    split; [|done]. intros H. by destruct (H init).
Qed.

(** C6: the handler is a client of the session table, whatever runs beside it.
    The handler is suspended between any two accesses to shared state, and the
    other goroutines then take any steps of the session table with what they hold,
    and change the caches as they will.  From a table the server's goroutines can
    reach, every such execution, at every point of it, is a run of the table's own
    steps, in which the handler's session, channel and pending removal or closing
    are entries of the world beside those of the others, and it never dereferences
    a nil session: the limits and the registry's invariant hold throughout.
    Without interference the execution ends as the handler run as one function
    does: its channel is served when it was established, and otherwise the others
    hold exactly what they held, a session it gave up apart. *)
Theorem handshake_refines_steps (cfg : serverConfig) (a : attempt) (sv : server) (w : W) (wd : world)
    (Hreach : reachable (sc_maxClientSessions cfg) (sc_maxStreamsPerClient cfg) wd)
    (Htab : w_tab wd = sv_table sv) :
  (forall ph sv' w' others, rtc (interleave cfg a) (PhInit, sv, w, wd) (ph, sv', w', others) ->
     w_tab others = sv_table sv' /\ ph <> PhDone Crashed /\
     rtc (step (sc_maxClientSessions cfg) (sc_maxStreamsPerClient cfg)) wd (whole ph others)) /\
  let '(sv', w', o) := handlePreAuthTransportSession cfg a sv w in
  exists leaked,
    let others := mkWorld (sv_table sv') (w_joining wd) (w_serving wd) (w_dropping wd) (w_streams wd) leaked (w_closing wd) in
    rtc (interleave cfg a) (PhInit, sv, w, wd) (PhDone o, sv', w', others) /\
    rtc (step (sc_maxClientSessions cfg) (sc_maxStreamsPerClient cfg)) wd (whole (PhDone o) others) /\
    match o with
    | Established c => w_serving (whole (PhDone o) others) = w_serving wd ++ [c] /\ leaked = w_leaked wd
    | Dropped => w_serving (whole (PhDone o) others) = w_serving wd ++ []
    | Crashed => False
    end.
Proof.
  assert (whole PhInit wd = wd) as Hwd by (destruct wd; unfold whole; cbn; by rewrite !app_nil_r).
  assert (forall ph sv' w' others, rtc (interleave cfg a) (PhInit, sv, w, wd) (ph, sv', w', others) ->
     w_tab others = sv_table sv' /\ ph <> PhDone Crashed /\
     rtc (step (sc_maxClientSessions cfg) (sc_maxStreamsPerClient cfg)) wd (whole ph others)) as Hall.
  { intros ph sv' w' others Hr. destruct (interleave_refines cfg a _ _ _ _ _ _ _ _ Hr) as (? & Hs & ?); try done.
    - rewrite Hwd. by apply reachable_ok.
    - rewrite Hwd in Hs. done. }
  split; [exact Hall|]. pose proof (handle_ends cfg a sv w wd) as He.
  pose proof (handle_no_crash cfg a sv w wd (reachable_ok _ _ _ Hreach) Htab) as Hnc.
  destruct (handlePreAuthTransportSession cfg a sv w) as [[sv' w'] o]. destruct (He Hnc) as (leaked & Hr & Hk).
  exists leaked. split; [exact Hr|]. split; [by apply (Hall _ _ _ _ Hr)|]. destruct o; [done| |by destruct Hnc].
  split; [done|]. by destruct Hk.
Qed.

(** Handshakes one after another, each with its own stream. *)
Fixpoint run_attempts (cfg : serverConfig) (sv : server) (l : list (attempt * W)) : server :=
  match l with
  | [] => sv
  | (a, w) :: l => run_attempts cfg (fst (fst (handlePreAuthTransportSession cfg a sv w))) l
  end.

Lemma attempts_nonces cfg (P : Time -> Prop) l sv :
  Forall (fun x => P (at_now (fst x))) l ->
  exists calls, sv_nonces (run_attempts cfg sv l) = run_calls (sv_nonces sv) (sc_authSkew cfg) calls /\
    (length calls <= length l)%nat /\ Forall (fun x => P (snd x)) calls.
Proof.
  revert sv. induction l as [|[a w] l IH]; intros sv Hl; cbn [run_attempts].
  - by exists [].
  - apply Forall_cons in Hl as [Ha Hl]. pose proof (handle_nonces cfg a sv w) as Hn.
    destruct (handlePreAuthTransportSession cfg a sv w) as [[sv' w'] o]. cbn [fst].
    destruct (IH sv' Hl) as (calls & E & Hlen & Hp). cbn [length].
    destruct Hn as [[_ En]|(init & _ & En & _)].
    + exists calls. rewrite E, En. split_and!; [done|lia|done].
    + exists ((nonce_key (ci_session_id init) (ci_channel_id init) (ci_client_nonce init), at_now a) :: calls).
      rewrite E, En. split_and!; [done|cbn [length]; lia|by constructor].
Qed.

Lemma authenticated_replay cfg a init sv (w : W) :
  snd (seenOrStore (sv_nonces sv) (ci_session_id init) (ci_channel_id init)
         (ci_client_nonce init) (at_now a) (sc_authSkew cfg)) = true ->
  exists nonces, handle_authenticated cfg a init sv w =
    (drop_with a [serverProtocolReplaySeq; serverProtocolRejectSeq] (set_nonces sv nonces), w, Dropped).
Proof.
  unfold handle_authenticated. destruct (seenOrStore _ _ _ _ _ _) as [nonces seen]. cbn [snd].
  intros ->. eauto.
Qed.

(** C5: a recorded handshake cannot be replayed within the nonces' lifetime.
    After a handshake was established, the same bytes on another connection are
    dropped without an answer, whatever handshakes came in between, as long as
    they are fewer than the cache's capacity and none, nor the replay, is later
    than the lifetime; sessions, channels and freshness labels stay as they
    were. *)
Theorem replayed_handshake_dropped (cfg : serverConfig) (a0 a : attempt) (sv sv1 : server) (w0 w1 w : W)
    (c : nat) (between : list (attempt * W))
    (Hok : nonces_ok (sv_nonces sv))
    (Hfirst : handlePreAuthTransportSession cfg a0 sv w0 = (sv1, w1, Established c))
    (Hsame : at_stream a = at_stream a0)
    (Htimes : Forall (fun x => unexpired (at_now a0) (sc_authSkew cfg) (at_now (fst x))) between)
    (Hnow : unexpired (at_now a0) (sc_authSkew cfg) (at_now a))
    (Hfew : Z.of_nat (length between) < nc_max (sv_nonces sv)) :
  let sv2 := run_attempts cfg sv1 between in
  let '(sv', w', o) := handlePreAuthTransportSession cfg a sv2 w in
  o = Dropped /\ w' = w /\ sv_tai sv' = sv_tai sv2 /\
  sv_table sv' = close_all (sv_table sv2) (closer_resources (at_closer a)).
Proof.
  intros sv2. pose proof (handle_nonces cfg a0 sv w0) as Hn. rewrite Hfirst in Hn.
  destruct Hn as [[Hnot _]|(init & (input & Hin & Hdec & _) & En & Hnew)]; [by destruct (Hnot c)|].
  specialize (Hnew (ex_intro _ c eq_refl)).
  destruct (handle_cases cfg a sv2 w) as [[cs ->]|(init' & (input' & Hin' & Hdec' & _) & _ & _ & ->)].
  { by destruct (drop_with_fields a cs sv2) as (_ & ? & ?). }
  assert (init' = init) as -> by congruence.
  destruct (attempts_nonces cfg (unexpired (at_now a0) (sc_authSkew cfg)) between sv1 Htimes)
    as (calls & Ec & Hlen & Hu).
  destruct (authenticated_replay cfg a init sv2 w) as [nonces ->].
  { subst sv2. rewrite Ec, En. apply replay_seen; [done..|lia]. }
  by destruct (drop_with_fields a [serverProtocolReplaySeq; serverProtocolRejectSeq]
    (set_nonces sv2 nonces)) as (_ & -> & ->).
Qed.

End HandlerProperties.

(** * Witnesses and two weaknesses *)

(** A client's message at a time of its own clock, with its public key. *)
Definition honestInit (t : Time) (pk : bytes) : ChannelInit :=
  let i proof := mkChannelInit (bs "0123456789abcdef") 7 (replicate 32 (z2b 5)) (UnixSec t)
    (Z.lor currentProtocolCapabilitiesV2 protocolCapabilityForwardSecrecy) proof V3SupportedCiphers
    pk (EncodeTAI64N t) [] in
  match ComputeV3AuthProof (bs "secret") (bs "example.com") (bs "/ws") (i []) with
  | Ok proof => i proof
  | _ => i []
  end.

Definition wire_of (i : ChannelInit) : bytes := fst (writeChannelInitV3 (W := bytes) i []).

Definition idleServer : server :=
  mkServer (newNonceReplayCache 0) (newTAI64NCache 0) emptyTable (fun _ => 0).

(** A skew of five minutes, the default. *)
Definition stockConfig : serverConfig := mkServerConfig (bs "secret") (300 * Second) 1 64.

Definition arrival (conn : nat) (stream : bytes) (now : Time) : attempt :=
  mkAttempt (Some (CloserWS conn)) conn (bs "example.com") (bs "/ws") (Some stream) now
    (Ok (be_put 32 11)) (Ok (replicate 32 (z2b 6))).

Definition served (a : attempt) (sv : server) : server * outcome :=
  let '(sv', _, o) := handlePreAuthTransportSession (W := bytes) stockConfig a sv [] in (sv', o).

Definition clientPk : bytes := be_put 32 27.

(** The nonce is forgotten before the timestamp is too old.  A message whose
    clock is five minutes ahead is accepted; recorded and sent again just after
    the nonce's lifetime of five minutes, it is accepted once more, registered
    under the same channel id, and the connection of the honest client is
    closed. *)
Theorem replay_after_nonce_expiry :
  let stream := wire_of (honestInit (noon_plus 300) clientPk) in
  let '(sv1, o1) := served (arrival 1 stream noon) idleServer in
  let '(sv2, o2) := served (arrival 2 stream (noon_plus 301)) sv1 in
  o1 = Established 0 /\ o2 = Established 1 /\ ResConn 1 ∈ tb_closed (sv_table sv2).
Proof. vm_compute. split_and!; [done|done|left]. Qed.

(** A failed key exchange keeps its session: with a public key that gives the zero
    secret, an authentic message is dropped and its session stays in the table
    with no channel, taking one of the places of [max-clients]. *)
Theorem failed_handshake_keeps_session :
  let stream := wire_of (honestInit noon (replicate 32 (z2b 0))) in
  let '(sv1, o1) := served (arrival 1 stream noon) idleServer in
  o1 = Dropped /\ serverSessionCount (sv_table sv1) = 1 /\
  map_fold (fun _ s n => n + Z.of_nat (size (cs_channels s))) 0 (tb_heap (sv_table sv1)) = 0.
Proof. vm_compute. done. Qed.

Lemma unauthenticated_leaves_no_trace_witness :
  let a := arrival 1 (bs "GET / HTTP/1.1") noon in
  let '(sv', w', o) := handlePreAuthTransportSession (W := bytes) stockConfig a idleServer [] in
  o = Dropped /\ w' = [] /\ sv_nonces sv' = sv_nonces idleServer /\ sv_tai sv' = sv_tai idleServer /\
  sv_table sv' = close_all (sv_table idleServer) (closer_resources (at_closer a)).
Proof.
  intros a.
  pose proof (unauthenticated_leaves_no_trace (C := toy_crypto) (W := bytes) stockConfig a idleServer []) as H.
  destruct (handlePreAuthTransportSession stockConfig a idleServer []) as [[sv' w'] o].
  apply (proj1 H). intros init (input & [= <-] & Hd & _). revert Hd. vm_compute. discriminate.
Defined.

Definition honestArrival : attempt := arrival 1 (wire_of (honestInit noon clientPk)) noon.

(** The honest handshake on a server where another client's channel is served. *)
Definition otherJoined : world :=
  match exec_all 4 64 start [DoJoin (bs "other"); DoRegister 0 (Some 9%nat) 1] with Some w => w | None => start end.

Definition roomyConfig : serverConfig := mkServerConfig (bs "secret") (300 * Second) 4 64.

Definition wholeSv (wd : world) : server := mkServer (newNonceReplayCache 0) (newTAI64NCache 0) (w_tab wd) (fun _ => 0).

Lemma handshake_refines_steps_witness :
  exists sv' w' c others,
    handlePreAuthTransportSession (W := bytes) roomyConfig honestArrival (wholeSv otherJoined) [] = (sv', w', Established c) /\
    rtc (step 4 64) otherJoined (whole (PhDone (Established c)) others) /\ w_tab others = sv_table sv' /\
    w_serving (whole (PhDone (Established c)) others) = w_serving otherJoined ++ [c].
Proof.
  destruct (handshake_refines_steps (C := toy_crypto) (W := bytes) roomyConfig honestArrival (wholeSv otherJoined) [] otherJoined)
    as [_ H].
  - apply (exec_all_reachable 4 64 [DoJoin (bs "other"); DoRegister 0 (Some 9%nat) 1]). vm_compute. reflexivity.
  - reflexivity.
  - assert (snd (handlePreAuthTransportSession (W := bytes) roomyConfig honestArrival (wholeSv otherJoined) []) = Established 1) as Ho
      by (vm_compute; reflexivity).
    destruct (handlePreAuthTransportSession (W := bytes) roomyConfig honestArrival (wholeSv otherJoined) []) as [[sv' w'] o].
    cbn [snd] in Ho. subst o. destruct H as (leaked & _ & Hr & Hs & _). do 4 eexists. split; [reflexivity|].
    split; [exact Hr|]. split; [reflexivity|exact Hs].
Defined.

Definition afterFirst : server * bytes * outcome :=
  handlePreAuthTransportSession (W := bytes) stockConfig honestArrival idleServer [].

Lemma first_established :
  handlePreAuthTransportSession (W := bytes) stockConfig honestArrival idleServer [] =
  (fst (fst afterFirst), snd (fst afterFirst), Established 0).
Proof. vm_compute. reflexivity. Qed.

Definition replayArrival : attempt := arrival 2 (wire_of (honestInit noon clientPk)) (noon_plus 300).

Lemma replayed_handshake_dropped_witness :
  let sv2 := run_attempts (W := bytes) stockConfig (fst (fst afterFirst)) [] in
  let '(sv', w', o) := handlePreAuthTransportSession (W := bytes) stockConfig replayArrival sv2 [] in
  o = Dropped /\ w' = [] /\ sv_tai sv' = sv_tai sv2 /\
  sv_table sv' = close_all (sv_table sv2) (closer_resources (at_closer replayArrival)).
Proof.
  refine (replayed_handshake_dropped (C := toy_crypto) (W := bytes) stockConfig honestArrival replayArrival
    idleServer (fst (fst afterFirst)) [] (snd (fst afterFirst)) [] 0 []
    (newNonceReplayCache_ok 0) first_established eq_refl (Forall_nil_2 _) _ _).
  - right. vm_compute. reflexivity.
  - vm_compute. reflexivity.
Defined.
