(* ===== verification/Client.v ===== *)
(** internal/app/client.go: the client's side of a handshake,
    [negotiateClientProtocol], with the cipher preference of
    internal/app/config.go; and that the two sides agree. *)

From Stdlib Require Import ZArith Lia Strings.Byte.
From stdpp Require Import base numbers list gmap.
From S2P Require Import Prelude GoStrings GoNet NetAddr GoTime Crypto Wire WireV2 WireV3 Tai64n CipherStream NonceCache Sessions Handshake.

Local Open Scope Z_scope.
Local Open Scope go_scope.

(** * Cipher preference *)

Definition defaultCipherPreference : bytes :=
  [z2b ProtocolCipherChaCha20Poly1305; z2b ProtocolCipherAES256GCM; z2b ProtocolCipherAES128GCM].

(** [strconv.ParseUint(p, 10, 8)]: digits only. *)
Definition ParseUint8 (p : bytes) : option Z :=
  if is_empty p then None else
  match atoi_digits p 0 with
  | Some n => if n <? 256 then Some n else None
  | None => None
  end.

Section Preference.
Context `{U : GoUnicode}.

Fixpoint parse_cipher_ids (parts : list bytes) : res bytes :=
  match parts with
  | [] => Ok []
  | part :: parts =>
      let p := TrimSpace part in
      if is_empty p then Err (Errorf "cipher ID 不能为空" []) else
      match ParseUint8 p with
      | None => Err (Errorf "无效的 cipher ID %q: %w" [])
      | Some num =>
          let id := z2b num in
          if negb (bool_decide (id ∈ V3SupportedCiphers))
          then Err (Errorf "不支持的 cipher ID: %d" [b2z id]) else
          let! rest := parse_cipher_ids parts in
          Ok (id :: rest)
      end
  end.

Definition parseCipherPreference (raw : bytes) : res bytes :=
  let trimmed := TrimSpace raw in
  if is_empty trimmed then Err (Errorf "cipher 偏好不能为空" []) else
  let parts := Split trimmed c_comma in
  if 8 <? len parts
  then Err (Errorf "cipher 偏好列表长度超限 (最大支持 8 个，当前 %d 个)" [len parts]) else
  let! result := parse_cipher_ids parts in
  if len result =? 0 then Err (Errorf "cipher 偏好列表不能为空" []) else Ok result.

Definition clientCipherPreference (configuredCipherPref cipherPrefStr : bytes) : bytes :=
  if 0 <? len configuredCipherPref then configuredCipherPref else
  match parseCipherPreference cipherPrefStr with
  | Ok parsed => if 0 <? len parsed then parsed else defaultCipherPreference
  | _ => defaultCipherPreference
  end.

End Preference.

(** * The size of the first packet *)

(** The two readings of [rand.Int], [None] an error. *)
Definition sampleFirstPacketTarget (weight : option Z) (offset : Z -> option Z) (frameLen : Z)
    : Z * bool :=
  if 1400 <=? frameLen then (0, false) else
  match weight with
  | None => (0, false)
  | Some weight =>
      let '(min, max) := if weight <? 50 then (480, 576)
                         else if weight <? 75 then (1024, 1152) else (1280, 1400) in
      match offset (max - min + 1) with
      | None => (0, false)
      | Some offset =>
          let target := min + offset in
          if target <? frameLen then (target, false) else (target, true)
      end
  end.

(** * The handshake *)

(** What a run of [negotiateClientProtocol] reads: the arguments, the parsed
    client id ([uuid.Parse]) and server address ([protocolAuthEndpoint]), the
    clock and the random source. *)
Record clientAttempt : Type := mkClientAttempt {
  cl_token : bytes;
  cl_sessionID : res bytes;
  cl_channelID : Z;
  cl_nonceRand : res bytes;
  cl_endpoint : res (bytes * bytes);
  cl_keyRand : res bytes;
  cl_now : Time;
  cl_lastNano : Z;
  cl_nano : Z;
  cl_pref : bytes;
  cl_weight : option Z;
  cl_offset : Z -> option Z;
  cl_padRand : nat -> res bytes;
}.

Definition set_proof (i : ChannelInit) (proof : bytes) : ChannelInit :=
  mkChannelInit (ci_session_id i) (ci_channel_id i) (ci_client_nonce i) (ci_timestamp i)
    (ci_capabilities i) proof (ci_cipher_pref i) (ci_client_eph_pk i) (ci_tai64n i) (ci_padding i).
Definition set_padding (i : ChannelInit) (pad : bytes) : ChannelInit :=
  mkChannelInit (ci_session_id i) (ci_channel_id i) (ci_client_nonce i) (ci_timestamp i)
    (ci_capabilities i) (ci_auth_proof i) (ci_cipher_pref i) (ci_client_eph_pk i) (ci_tai64n i) pad.

(** What [negotiateClientProtocol] has computed before it writes. *)
Record clientHello : Type := mkHello {
  h_init : ChannelInit;
  h_sk : bytes;
  h_name : bytes;
  h_path : bytes;
}.

Section Negotiate.
Context `{C : Crypto} {W : Type} `{HW : Writer W}.

(** The padding that brings the frame to the sampled size. *)
Definition pad_first_packet (c : clientAttempt) (init : ChannelInit) (frameLen : Z) : res ChannelInit :=
  let '(target, ok) := sampleFirstPacketTarget (cl_weight c) (cl_offset c) frameLen in
  let padLen := target - frameLen - 4 in
  if ok && (0 <=? padLen) then
    let! pad := res_map_err (Wrapf "生成首包 padding 失败: %w") (cl_padRand c (Z.to_nat padLen)) in
    Ok (set_padding init pad)
  else Ok init.

Definition client_hello (c : clientAttempt) : res clientHello :=
  let! sessionID := cl_sessionID c in
  let! nonce := cl_nonceRand c in
  let! (serverName, serverPath) := cl_endpoint c in
  let! (clientSk, clientPk) :=
    res_map_err (Wrapf "生成客户端 ephemeral 密钥失败: %w") (NewV3ClientEphemeralKey (cl_keyRand c)) in
  let init :=
    mkChannelInit sessionID (cl_channelID c) nonce (UnixSec (cl_now c))
      (Z.lor currentProtocolCapabilitiesV2 protocolCapabilityForwardSecrecy) []
      (cl_pref c) clientPk (snd (nextClientTAI64N (cl_lastNano c) (cl_nano c))) [] in
  let! proof := ComputeV3AuthProof (cl_token c) serverName serverPath init in
  let init := set_proof init proof in
  let! unpaddedBody := res_map_err (Wrapf "编码 ChannelInit 失败: %w") (encodeChannelInitV3 init) in
  let! init := pad_first_packet c init (8 + len unpaddedBody) in
  Ok (mkHello init clientSk serverName serverPath).

(** [errors.Is(err, io.EOF)] and the like, through [%w]. *)
Fixpoint is_eof_error (e : error) : bool :=
  match e with
  | EOF | ErrUnexpectedEOF => true
  | Wrapf _ e => is_eof_error e
  | _ => false
  end.

(** The checks of the server's answer. *)
Definition client_finish (c : clientAttempt) (h : clientHello) (accept : ChannelAccept)
    (reject : ChannelReject) : res (Z * V3SessionKeys * byte) :=
  if negb (b2z (cr_code reject) =? 0)
  then Err (if b2z (cr_code reject) =? v2RejectAuthenticationFailed
            then Errorf "认证失败" [] else Errorf "协议协商失败: reject=%d" [b2z (cr_code reject)]) else
  if negb (Z.land (ca_capabilities accept) required_caps =? required_caps)
  then Err (Errorf "协议能力不足: caps=0x%x" [ca_capabilities accept]) else
  if negb (len (ca_server_eph_pk accept) =? 32) || negb (len (ca_server_proof accept) =? 32)
  then Err (Errorf "服务端证明或公钥格式非法" []) else
  let! shared := res_map_err (Wrapf "计算共享秘密失败: %w")
                   (ComputeV3SharedSecret (h_sk h) (ca_server_eph_pk accept)) in
  if negb (VerifyV3ServerProof (cl_token c) (h_name h) (h_path h) (h_init h) accept)
  then Err (Errorf "服务端证明校验失败" []) else
  let! thFull := res_map_err (Wrapf "计算 transcript hash 失败: %w")
                   (ComputeV3TranscriptHashFull (h_name h) (h_path h) (h_init h)
                      (ca_server_eph_pk accept) (ca_server_nonce accept) (ca_cipher accept)) in
  let! keys := res_map_err (Wrapf "派生会话密钥失败: %w")
                 (DeriveV3SessionSeed (cl_token c) thFull shared) in
  Ok (ca_capabilities accept, keys, ca_cipher accept).

(** The stream: what was written so far and what is still to be read. *)
Definition negotiateClientProtocol (c : clientAttempt) : io (W * bytes) (Z * V3SessionKeys * byte) :=
  fun '(w, input) =>
    match client_hello c with
    | Ok h =>
        match writeChannelInitV3 (h_init h) w with
        | (w, Ok _) =>
            match readChannelAcceptOrRejectV3 maxV2FrameSize input with
            | (input, Ok (accept, reject)) => ((w, input), client_finish c h accept reject)
            | (input, Err e) =>
                ((w, input), Err (if is_eof_error e then Errorf "连接被服务端关闭" [] else e))
            | (input, Panic) => ((w, input), Panic)
            end
        | (w, Err e) => ((w, input), Err e)
        | (w, Panic) => ((w, input), Panic)
        end
    | Err e => ((w, input), Err e)
    | Panic => ((w, input), Panic)
    end.

End Negotiate.

(** * Writers that accept everything *)

Section Reliable.
Context {W : Type} {HWr : Writer W} (Hrel : reliable (W := W)).

Lemma writeV3Frame_total typ flags body (w : W) :
  len body <= maxV2FrameSize ->
  exists w', writeV3Frame (mkV2Frame typ (z2b protocolV3Version) flags body) w = (w', Ok tt).
Proof.
  intros Hl. unfold writeV3Frame. cbn [f_type f_version f_flags f_body].
  change (b2z (z2b protocolV3Version)) with protocolV3Version. cbn [Z.eqb].
  rewrite Z.eqb_refl. cbn [negb]. destruct (Z.ltb_spec maxV2FrameSize (len body)); [lia|].
  unfold io_bind. edestruct (writeAll_total Hrel) as [w1 ->]. destruct body as [|b body]; [by eexists|].
  by apply writeAll_total.
Qed.

End Reliable.

(** * The client's message: lemmas *)

Lemma encode_init_len i body :
  encodeChannelInitV3 i = Ok body ->
  len body = 180 + len (ci_cipher_pref i) +
             (if 0 <? len (ci_padding i) then 4 + len (ci_padding i) else 0).
Proof.
  destruct i as [sid cid nonce ts caps pf pref pk tai pad]. unfold encodeChannelInitV3.
  cbn [ci_session_id ci_channel_id ci_client_nonce ci_timestamp ci_capabilities ci_auth_proof
    ci_cipher_pref ci_client_eph_pk ci_tai64n ci_padding].
  len_guard Hs. case_match; [done|]. len_guard Hn. len_guard Hp. case_match; [done|].
  destruct (check_ciphers pref) as [[]| |]; cbn [res_bind]; [|done..]. len_guard Hk. len_guard Hta.
  intros [_ ->]%encodeV2TLVs_ok. unfold enc_tlvs. rewrite map_app, concat_app.
  destruct (0 <? len pad); cbn [map concat]; unfold enc_tlv; cbn [tlv_type tlv_value];
    rewrite ?len_app, ?len_be_put; change (len (@nil byte)) with 0; lia.
Qed.

Lemma padded_encodes i pad body :
  init_typed i -> encodeChannelInitV3 i = Ok body -> len pad <= 65535 ->
  exists body', encodeChannelInitV3 (set_padding i pad) = Ok body'.
Proof.
  intros Ht He Hp. apply encode_valid_v3.
  pose proof (decode_valid_v3 _ _ (decode_encode_init_v3 _ _ Ht He)) as (? & ? & ? & ? & ? & ? & ? & ? & ? & _).
  unfold init_valid_v3. cbn [set_padding ci_session_id ci_channel_id ci_client_nonce ci_auth_proof
    ci_cipher_pref ci_client_eph_pk ci_tai64n ci_padding]. tauto.
Qed.

(** The random source of a handshake returns values in the range asked for. *)
Definition client_rand_ok (c : clientAttempt) : Prop :=
  (forall n x, cl_offset c n = Some x -> 0 <= x < n) /\
  (forall n b, cl_padRand c n = Ok b -> length b = n).

Lemma target_bounds weight offset frameLen target :
  (forall n x, offset n = Some x -> 0 <= x < n) ->
  sampleFirstPacketTarget weight offset frameLen = (target, true) ->
  frameLen <= target /\
  (480 <= target <= 576 \/ 1024 <= target <= 1152 \/ 1280 <= target <= 1400).
Proof.
  intros Hoff. unfold sampleFirstPacketTarget. case_match; [done|]. destruct weight as [wt|]; [|done].
  destruct (wt <? 50); [|destruct (wt <? 75)];
    (destruct (offset _) as [x|] eqn:Ho; [|done]; apply Hoff in Ho; case_match; [done|];
     intros [= <-]; split; [lia|]; lia).
Qed.

Section Hello.
Context `{C : Crypto} `{COk : !CryptoOk}.

(** What the rest of the handshake uses of a message the client built. *)
Record hello_ok (c : clientAttempt) (h : clientHello) : Prop := {
  ho_key : NewV3ClientEphemeralKey (cl_keyRand c) = Ok (h_sk h, ci_client_eph_pk (h_init h));
  ho_proof : VerifyV3AuthProof (cl_token c) (h_name h) (h_path h) (h_init h) = true;
  ho_caps : ci_capabilities (h_init h) =
              Z.lor currentProtocolCapabilitiesV2 protocolCapabilityForwardSecrecy;
  ho_pref : ci_cipher_pref (h_init h) = cl_pref c;
  ho_channel : ci_channel_id (h_init h) = cl_channelID c;
  ho_time : ci_timestamp (h_init h) = UnixSec (cl_now c);
  ho_encodes : exists body body0, encodeChannelInitV3 (h_init h) = Ok body /\
    encodeChannelInitV3 (set_padding (h_init h) []) = Ok body0 /\
    (len body = len body0 \/
     480 <= 8 + len body <= 576 \/ 1024 <= 8 + len body <= 1152 \/ 1280 <= 8 + len body <= 1400);
}.

Lemma UnixSec_range t : - 2 ^ 63 <= UnixSec t < 2 ^ 63.
Proof. exact (wrapS_range 64 (t_sec t - unixToInternal) eq_refl). Qed.

Lemma hello_typed c h :
  0 <= cl_channelID c < 2 ^ 32 -> hello_ok c h -> init_typed (h_init h).
Proof.
  intros Hc []. unfold init_typed. rewrite ho_channel0, ho_time0, ho_caps0.
  split_and!; try lia; try apply UnixSec_range; vm_compute; congruence.
Qed.

Lemma pad_first_packet_spec c init body i :
  client_rand_ok c -> init_typed init -> ci_padding init = [] ->
  encodeChannelInitV3 init = Ok body -> pad_first_packet c init (8 + len body) = Ok i ->
  exists pad body', i = set_padding init pad /\ encodeChannelInitV3 i = Ok body' /\
    (len body' = len body \/
     480 <= 8 + len body' <= 576 \/ 1024 <= 8 + len body' <= 1152 \/ 1280 <= 8 + len body' <= 1400).
Proof.
  intros [Hoff Hpad] Ht Hnil He. unfold pad_first_packet.
  assert (set_padding init [] = init) as Eself by (destruct init; cbn in *; by subst).
  destruct (sampleFirstPacketTarget _ _ _) as [target ok] eqn:Hs.
  destruct (ok && _) eqn:Hc.
  2: { intros <-%Ok_inj. exists [], body. rewrite Eself. auto. }
  apply andb_true_iff in Hc as [-> Hp%Z.leb_le]. apply target_bounds in Hs as [Hf Hb]; [|done].
  intros (pad & Hr%res_map_err_ok & <-%Ok_inj)%res_bind_ok. apply Hpad in Hr.
  assert (len pad = target - (8 + len body) - 4) as Lp by solve_len.
  pose proof (len_nonneg body). destruct (padded_encodes init pad body Ht He) as [body' He']; [lia|].
  exists pad, body'. split; [done|]. split; [done|].
  apply encode_init_len in He' as L'. apply encode_init_len in He as L. rewrite Hnil in L.
  cbn [set_padding ci_cipher_pref ci_padding] in L'. change (0 <? len (@nil byte)) with false in L.
  cbn iota in L. destruct (Z.ltb_spec 0 (len pad)); [right; lia|left; lia].
Qed.

Lemma client_hello_ok c h :
  client_rand_ok c -> 0 <= cl_channelID c < 2 ^ 32 -> client_hello c = Ok h -> hello_ok c h.
Proof.
  intros Hrand Hch. unfold client_hello.
  intros (sid & Hsid & H)%res_bind_ok. apply res_bind_ok in H as (nonce & Hn & H).
  apply res_bind_ok in H as ([name path] & Hep & H).
  apply res_bind_ok in H as ([sk pk] & Hk%res_map_err_ok & H).
  set (init := mkChannelInit _ _ _ _ _ _ _ _ _ _) in H.
  apply res_bind_ok in H as (proof & Hpf & H).
  apply res_bind_ok in H as (body0 & Hb%res_map_err_ok & H).
  apply res_bind_ok in H as (i & Hi & <-%Ok_inj).
  assert (init_typed (set_proof init proof)) as Ht.
  { unfold init_typed. cbn. split_and!; try lia; try apply UnixSec_range; vm_compute; congruence. }
  destruct (pad_first_packet_spec c _ body0 i Hrand Ht eq_refl Hb Hi) as (pad & body' & -> & He & Hl).
  constructor; cbn; try done.
  - by apply (auth_proof_accepted _ _ _ _ proof).
  - eauto 10.
Qed.

End Hello.

(** * The two sides together *)

Section Agreement.
Context `{C : Crypto} `{COk : !CryptoOk}.

(** The first supported cipher of a list of supported ones is its head. *)
Lemma negotiate_head pref :
  1 <= len pref <= 8 -> check_ciphers pref = Ok tt ->
  exists cipher, NegotiateCipherV3 pref = (cipher, 0, []) /\ isSupportedCipherV3 cipher = true.
Proof.
  destruct pref as [|x pref]; [solve_len|]. intros _ [Hx _]%check_ciphers_ok%Forall_cons.
  exists x. split; [|done]. unfold NegotiateCipherV3. cbn [first_supported]. by rewrite Hx.
Qed.

(** The secrets the server derives, and that the client derives the same. *)
Lemma secrets_agree (c : clientAttempt) (h : clientHello) (cfg : serverConfig) (a : attempt) (cipher : byte)
    (skS pkS nonceS shared : bytes) :
  hello_ok c h -> transcript_inputs (h_name h) (h_path h) (h_init h) None ->
  at_serverName a = h_name h -> at_path a = h_path h -> sc_token cfg = cl_token c ->
  len (cl_token c) <> 0 -> len (h_sk h) = 32 -> isSupportedCipherV3 cipher = true ->
  NewV3ClientEphemeralKey (at_keyRand a) = Ok (skS, pkS) -> len skS = 32 ->
  at_nonceRand a = Ok nonceS -> len nonceS = 32 ->
  ComputeV3SharedSecret skS (ci_client_eph_pk (h_init h)) = Ok shared ->
  exists proof keys,
    server_secrets cfg a (h_init h) cipher = Ok (pkS, nonceS, proof, keys) /\
    len pkS = 32 /\ len proof = 32 /\ len (sk_seed keys) = 32 /\
    len (sk_c2s_nonce_prefix keys) = 4 /\ len (sk_s2c_nonce_prefix keys) = 4 /\
    (forall accept, ca_capabilities accept =
         Z.land (ci_capabilities (h_init h)) currentProtocolCapabilitiesV2 ->
       ca_server_nonce accept = nonceS -> ca_cipher accept = cipher ->
       ca_server_eph_pk accept = pkS -> ca_server_proof accept = proof ->
       client_finish c h accept zeroReject = Ok (ca_capabilities accept, keys, cipher)).
Proof.
  intros [] Hin En Ep Et Hto Hsk Hci HkS LS HnS LnS Hsh.
  destruct (shared_secret_agrees _ _ _ _ _ _ ho_key0 HkS Hsk LS) as (Eag & LpC & LpS).
  assert (transcript_inputs (h_name h) (h_path h) (h_init h) (server_part pkS nonceS cipher true)) as Hfull.
  { destruct Hin as (? & ? & ? & ? & ? & ? & ? & ? & ? & _). split_and!; try done; [lia..|].
    intros s [= <-]. done. }
  apply transcript_build in Hfull.
  set (th := sha256 (transcript_ref (h_name h) (h_path h) (h_init h) (server_part pkS nonceS cipher true))).
  destruct (hkdf_new_ok (cl_token c) (bs "x-tunnel-v3-auth") (h_name h) 32) as (k & Hk & _); [lia|].
  destruct (session_seed_ok (cl_token c) th _ _ _ Hto (len_sha256 _) Hsh) as (keys & Hkeys & L1 & L2 & L3).
  exists (hmac_sha256 k th), keys.
  assert (ComputeV3TranscriptHashFull (h_name h) (h_path h) (h_init h) pkS nonceS cipher = Ok th) as Hth.
  { unfold ComputeV3TranscriptHashFull, ComputeV3TranscriptHash. by rewrite Hfull. }
  assert (ComputeV3ServerProof (cl_token c) (h_name h) (h_path h) (h_init h) pkS nonceS cipher =
          Ok (hmac_sha256 k th)) as Hpf.
  { unfold ComputeV3ServerProof. rewrite Hth. cbn [res_bind]. by rewrite Hk. }
  split_and!; [|done|apply len_hmac|done..|].
  - unfold server_secrets. rewrite HkS, HnS, En, Ep, Et. cbn [res_bind]. rewrite Hsh. cbn [res_bind].
    rewrite Hth. cbn [res_bind]. rewrite Hpf. cbn [res_bind]. by rewrite Hkeys.
  - intros accept Ec Enn Eci Epk Epf. unfold client_finish. rewrite Ec, Eci, Epk, Epf, Enn, ho_caps0.
    change (b2z (cr_code zeroReject)) with 0.
    replace (Z.land (Z.land (Z.lor currentProtocolCapabilitiesV2 protocolCapabilityForwardSecrecy)
       currentProtocolCapabilitiesV2) required_caps =? required_caps) with true by done.
    cbn [Z.eqb negb]. rewrite LpS, len_hmac. cbn [Z.eqb Pos.eqb negb orb].
    rewrite Eag, Hsh. cbn [res_map_err res_bind]. unfold VerifyV3ServerProof.
    rewrite Epk, Enn, Eci, Epf, Hpf, Z.eqb_refl. cbn [negb]. unfold hmac_Equal.
    rewrite bool_decide_eq_true_2 by done. cbn [negb]. rewrite Hth. cbn [res_map_err res_bind].
    by rewrite Hkeys.
Qed.

(** The server's answer is encodable and written by a reliable writer. *)
Lemma accept_written {W : Type} {HWr : Writer W} {HOk : WriterOk W} cfg now caps nonce cipher pk proof (w : W) :
  reliable (W := W) -> 0 <= caps < 2 ^ 64 ->
  len nonce = 32 -> isSupportedCipherV3 cipher = true -> len pk = 32 -> len proof = 32 ->
  let accept := accept_message cfg now caps nonce cipher pk proof in
  exists w' resp, writeChannelAcceptV3 accept w = (w', Ok tt) /\ sink w' = sink w ++ resp /\
    reads (readChannelAcceptOrRejectV3 maxV2FrameSize) resp (accept, zeroReject).
Proof.
  intros Hrel Hcaps Ln Hc Lpk Lpf accept.
  assert (accept_typed accept) as Ht.
  { split; [done|]. split; [apply UnixSec_range|]. split; [by vm_compute|].
    unfold accept, accept_message. cbn [ca_max_streams].
    case_match; [apply (wrapU_range 32); lia|lia]. }
  assert (exists body, encodeChannelAcceptV3 accept = Ok body /\ len body <= maxV2FrameSize) as (body & He & Hl).
  { unfold encodeChannelAcceptV3. cbn [accept accept_message ca_server_nonce ca_cipher ca_server_eph_pk
      ca_server_proof ca_capabilities ca_server_time ca_max_frame_size ca_max_streams ca_message].
    rewrite Ln, Hc, Lpk, Lpf. cbn [Z.eqb Pos.eqb negb].
    eexists. split; [apply encodeV2TLVs_ok; split; [|reflexivity]|];
      change (0 <? maxV2FrameSize) with true; change (0 <? len (@nil byte)) with false;
      destruct (0 <? (if 0 <? sc_maxStreamsPerClient cfg then _ else _)); cbn [app].
    1,2: repeat constructor; cbn [tlv_value]; rewrite ?len_be_put, ?Ln, ?Lpk, ?Lpf; vm_compute; congruence.
    all: unfold enc_tlvs, enc_tlv; cbn [map concat tlv_type tlv_value];
      rewrite ?len_app, ?len_be_put, ?Ln, ?Lpk, ?Lpf; vm_compute; congruence. }
  destruct (writeV3Frame_total Hrel (z2b v3FrameTypeChannelAccept) 0 body w Hl) as [w' Hw].
  assert (writeChannelAcceptV3 accept w = (w', Ok tt)) as Hsend.
  { unfold writeChannelAcceptV3, io_bind, io_lift. by rewrite He. }
  destruct (accept_v3_sent maxV2FrameSize accept w w') as (resp & ? & ?); [by right|done|done|]. eauto 10.
Qed.

Lemma freshness_decodes cache sid tai now skew :
  snd (CheckAndStore cache sid tai now skew) = true -> exists t, DecodeTAI64N tai = Ok t.
Proof. unfold CheckAndStore. repeat case_match; try done. eauto. Qed.

(** A channel the server established for a message with given secrets. *)
Lemma establish_ok {W : Type} {HWr : Writer W} {HOk : WriterOk W} cfg a init caps cipher session pk nonce proof
    keys sv (w w' : W) :
  is_Some (tb_heap (sv_table sv) !! session) ->
  writeChannelAcceptV3 (accept_message cfg (at_now a) caps nonce cipher pk proof) w = (w', Ok tt) ->
  exists sv' n ch, establish cfg a init caps cipher session (pk, nonce, proof, keys) sv w =
      (sv', w', Established n) /\
    tb_chans (sv_table sv') !! n = Some ch /\
    ch_capabilities ch = caps /\ ch_v3Keys ch = keys /\ ch_v3Cipher ch = cipher.
Proof.
  intros [s Hs] Hw. unfold establish.
  destruct (addChannel session _ _ (sv_table sv)) as [[t n]|] eqn:Ha.
  2: { destruct (addChannel_some session (ws_conn (at_closer a)) (ci_channel_id init) (sv_table sv)) as [? ?]; [eauto|congruence]. }
  destruct (addChannel_inv _ _ _ _ _ _ Ha) as (s' & id' & _ & _ & _ & _ & Hc).
  rewrite Hc, lookup_insert_eq, Hw. do 3 eexists. split; [reflexivity|].
  cbn [bump set_table sv_table set_channel tb_chans]. rewrite lookup_insert_eq. done.
Qed.

(** What the server must find for the message of an honest client: the clocks
    agree within the skew, the nonce is new, there is room for the session and
    the random source works. *)
Record server_ready (cfg : serverConfig) (a : attempt) (sv : server) (i : ChannelInit) : Prop := {
  sr_clock : validateChannelInitTime (at_now a) (ci_timestamp i) (sc_authSkew cfg) = true;
  sr_nonce : snd (seenOrStore (sv_nonces sv) (ci_session_id i) (ci_channel_id i) (ci_client_nonce i)
                    (at_now a) (sc_authSkew cfg)) = false;
  sr_fresh : snd (CheckAndStore (sv_tai sv) (ci_session_id i) (ci_tai64n i) (at_now a)
                    (sc_authSkew cfg)) = true;
  sr_room : snd (getOrCreateClientSession (sc_maxClientSessions cfg) (hex_encode (ci_session_id i))
                   (sv_table sv)) <> None;
  sr_table : forall id p, tb_sessions (sv_table sv) !! id = Some p -> is_Some (tb_heap (sv_table sv) !! p);
  sr_rand : exists skS pkS nonceS shared,
    NewV3ClientEphemeralKey (at_keyRand a) = Ok (skS, pkS) /\ len skS = 32 /\
    at_nonceRand a = Ok nonceS /\ len nonceS = 32 /\
    ComputeV3SharedSecret skS (ci_client_eph_pk i) = Ok shared;
}.

Lemma server_establishes {W : Type} {HWr : Writer W} {HOk : WriterOk W}
    (c : clientAttempt) (h : clientHello) (cfg : serverConfig) (a : attempt) (sv : server) (w : W) (input : bytes) :
  reliable (W := W) -> hello_ok c h -> len (h_sk h) = 32 -> len (cl_token c) <> 0 ->
  at_stream a = Some input -> snd (readChannelInitV3 maxV2FrameSize input) = Ok (h_init h) ->
  at_serverName a = h_name h -> at_path a = h_path h -> sc_token cfg = cl_token c ->
  server_ready cfg a sv (h_init h) ->
  exists sv' w' n ch resp accept,
    handlePreAuthTransportSession cfg a sv w = (sv', w', Established n) /\
    sink w' = sink w ++ resp /\ tb_chans (sv_table sv') !! n = Some ch /\
    reads (readChannelAcceptOrRejectV3 maxV2FrameSize) resp (accept, zeroReject) /\
    client_finish c h accept zeroReject = Ok (ch_capabilities ch, ch_v3Keys ch, ch_v3Cipher ch) /\
    isSupportedCipherV3 (ch_v3Cipher ch) = true /\ len (sk_seed (ch_v3Keys ch)) = 32 /\
    len (sk_c2s_nonce_prefix (ch_v3Keys ch)) = 4 /\ len (sk_s2c_nonce_prefix (ch_v3Keys ch)) = 4.
Proof.
  intros Hrel Hok Hsk Hto Hst Hdec En Ep Et [Hcl Hno Hfr Hro Htb (skS & pkS & nonceS & shared & HkS & LS & HnS & LnS & Hsh)].
  destruct (verify_auth_ok _ _ _ _ (ho_proof _ _ Hok)) as [Hin _].
  destruct (freshness_decodes _ _ _ _ _ Hfr) as [tt' Hdt].
  pose proof Hin as (_ & _ & _ & I4 & _ & I6 & I7 & _).
  destruct (negotiate_head _ I6 I7) as (cipher & Hneg & Hci).
  destruct (secrets_agree c h cfg a cipher skS pkS nonceS shared Hok) as
    (proof & keys & Hsec & Lpk & Lpf & L1 & L2 & L3 & Hfin); [done..|].
  set (caps := Z.land (ci_capabilities (h_init h)) currentProtocolCapabilitiesV2) in *.
  destruct (accept_written cfg (at_now a) caps nonceS cipher pkS proof w Hrel) as (w' & resp & Hw & Hs & Hr);
    [unfold caps; rewrite (ho_caps _ _ Hok); vm_compute; intuition congruence|done..|].
  unfold handlePreAuthTransportSession, handle_authenticated.
  rewrite Hst, Hdec, Hdt, Hcl, I4, En, Ep, Et, (ho_proof _ _ Hok). cbn [Z.eqb Pos.eqb negb].
  destruct (seenOrStore _ _ _ _ _ _) as [nonces seen]. cbn [snd] in Hno. rewrite Hno.
  cbn [set_nonces sv_tai]. destruct (CheckAndStore _ _ _ _ _) as [tai fr]. cbn [snd] in Hfr. rewrite Hfr.
  cbn [negb]. fold caps. rewrite (ho_caps _ _ Hok), Hneg. cbn [Z.eqb negb].
  replace (Z.land _ required_caps =? required_caps) with true by done. cbn [negb].
  change (sv_table (set_tai (set_nonces sv nonces) tai)) with (sv_table sv).
  destruct (getOrCreateClientSession _ _ (sv_table sv)) as [t [p|]] eqn:Hg; [|done].
  rewrite Hsec.
  match goal with |- context [establish _ _ _ _ _ _ _ ?s _] => set (sv1 := s) end.
  destruct (establish_ok cfg a (h_init h) caps cipher p pkS nonceS proof keys sv1 w w') as
    (sv' & n & ch & Hest & Hch & Ec & Ek & Eci); [by eapply getOrCreate_heap|done|].
  rewrite Hest.
  eexists sv', w', n, ch, resp, _. split_and!; [done|done|done|exact Hr| |congruence..].
  rewrite Ec, Ek, Eci. by apply Hfin.
Qed.

(** The handshake of an honest client with a server that is ready for it. *)
Lemma handshake_agrees {Wc Ws : Type} {HWc : Writer Wc} {HWcOk : WriterOk Wc} {HWs : Writer Ws} {HWsOk : WriterOk Ws}
    (c : clientAttempt) (h : clientHello) (cfg : serverConfig) (a : attempt) (sv : server)
    (wc wc' : Wc) (ws : Ws) (out : bytes) :
  client_rand_ok c -> 0 <= cl_channelID c < 2 ^ 32 -> len (cl_token c) <> 0 ->
  client_hello c = Ok h -> len (h_sk h) = 32 ->
  writeChannelInitV3 (h_init h) wc = (wc', Ok tt) -> sink wc' = sink wc ++ out ->
  at_stream a = Some out -> at_serverName a = h_name h -> at_path a = h_path h ->
  sc_token cfg = cl_token c -> server_ready cfg a sv (h_init h) -> reliable (W := Ws) ->
  exists sv' ws' n ch resp,
    handlePreAuthTransportSession cfg a sv ws = (sv', ws', Established n) /\
    sink ws' = sink ws ++ resp /\ tb_chans (sv_table sv') !! n = Some ch /\
    (forall rest, negotiateClientProtocol c (wc, resp ++ rest) =
       ((wc', rest), Ok (ch_capabilities ch, ch_v3Keys ch, ch_v3Cipher ch))) /\
    isSupportedCipherV3 (ch_v3Cipher ch) = true /\ len (sk_seed (ch_v3Keys ch)) = 32 /\
    len (sk_c2s_nonce_prefix (ch_v3Keys ch)) = 4 /\ len (sk_s2c_nonce_prefix (ch_v3Keys ch)) = 4.
Proof.
  intros Hrand Hchan Htoken Hhello Hkey Hsent Hout Hstream Hname Hpath Hsame Hready Hrel.
  pose proof (client_hello_ok c h Hrand Hchan Hhello) as Hok.
  destruct (init_v3_sent maxV2FrameSize (h_init h) wc wc') as (out' & Eo & Hreads);
    [by right|by eapply hello_typed|done|].
  assert (out' = out) as -> by (rewrite Hout in Eo; by apply app_inv_head in Eo).
  specialize (Hreads []). rewrite app_nil_r in Hreads.
  destruct (server_establishes c h cfg a sv ws out Hrel Hok Hkey Htoken Hstream) as
    (sv' & ws' & n & ch & resp & accept & Hh & Hs & Hch & Hr & Hf & Hci);
    [by rewrite Hreads|done..|].
  exists sv', ws', n, ch, resp. split_and!; try done; try apply Hci.
  intros rest. unfold negotiateClientProtocol. rewrite Hhello, Hsent, (Hr rest), Hf. done.
Qed.

(** C2: the handshake completes and the two sides agree.  When an honest client
    and a server ready for it share the token, the server name and the path, the
    server reads the client's message, registers a channel and answers; the
    client, reading that answer, ends with the capabilities, session keys and
    cipher of the server's channel; and both can open encrypted streams with
    them, with the 32-byte seed the record layer needs. *)
Theorem handshake_completes {Wc Ws : Type} {HWc : Writer Wc} {HWcOk : WriterOk Wc}
    {HWs : Writer Ws} {HWsOk : WriterOk Ws}
    (c : clientAttempt) (h : clientHello) (cfg : serverConfig) (a : attempt) (sv : server)
    (wc wc' : Wc) (ws : Ws) (out : bytes)
    (Hrand : client_rand_ok c) (Hchan : 0 <= cl_channelID c < 2 ^ 32) (Htoken : len (cl_token c) <> 0)
    (Hhello : client_hello c = Ok h) (Hkey : len (h_sk h) = 32)
    (Hsent : writeChannelInitV3 (h_init h) wc = (wc', Ok tt)) (Hout : sink wc' = sink wc ++ out)
    (Hstream : at_stream a = Some out) (Hname : at_serverName a = h_name h) (Hpath : at_path a = h_path h)
    (Hsame : sc_token cfg = cl_token c) (Hready : server_ready cfg a sv (h_init h))
    (Hrel : reliable (W := Ws)) :
  exists sv' ws' n ch resp,
    handlePreAuthTransportSession cfg a sv ws = (sv', ws', Established n) /\
    sink ws' = sink ws ++ resp /\
    tb_chans (sv_table sv') !! n = Some ch /\
    (forall rest, negotiateClientProtocol c (wc, resp ++ rest) =
       ((wc', rest), Ok (ch_capabilities ch, ch_v3Keys ch, ch_v3Cipher ch))) /\
    len (sk_seed (ch_v3Keys ch)) = 32 /\
    (forall sid, exists x y,
       NewV3CipherStream (ch_v3Keys ch) (ch_v3Cipher ch) sid true = Ok x /\
       NewV3CipherStream (ch_v3Keys ch) (ch_v3Cipher ch) sid false = Ok y).
Proof.
  destruct (handshake_agrees c h cfg a sv wc wc' ws out) as (sv' & ws' & n & ch & resp & Hh & Hs & Hch & Hn & Hci & L1 & L2 & L3); [done..|].
  exists sv', ws', n, ch, resp. split_and!; try done.
  intros sid. unfold NewV3CipherStream. rewrite Hci, L2, L3. cbn [negb Z.eqb Pos.eqb orb]. by do 2 eexists.
Qed.

(** The first packet has the advertised size.  The frame of a client's
    message is one of the sampled sizes of its three bands, unless the sampled
    size left no room for a padding record, in which case it is the bare frame. *)
Theorem first_packet_size {W : Type} {HWr : Writer W} {HOk : WriterOk W}
    (c : clientAttempt) (h : clientHello) (w w' : W) (out : bytes)
    (Hrand : client_rand_ok c) (Hchan : 0 <= cl_channelID c < 2 ^ 32)
    (Hhello : client_hello c = Ok h)
    (Hsent : writeChannelInitV3 (h_init h) w = (w', Ok tt)) (Hout : sink w' = sink w ++ out) :
  480 <= len out <= 576 \/ 1024 <= len out <= 1152 \/ 1280 <= len out <= 1400 \/
  len out = 188 + len (cl_pref c).
Proof.
  destruct (ho_encodes _ _ (client_hello_ok c h Hrand Hchan Hhello)) as (body & body0 & He & He0 & Hl).
  unfold writeChannelInitV3, io_bind, io_lift in Hsent. rewrite He in Hsent.
  apply writes_writeV3Frame in Hsent as [Hs _]. rewrite Hout in Hs. apply app_inv_head in Hs as ->.
  apply encode_init_len in He0. cbn [set_padding ci_cipher_pref ci_padding] in He0.
  rewrite (ho_pref _ _ (client_hello_ok c h Hrand Hchan Hhello)) in He0.
  change (0 <? len (@nil byte)) with false in He0. cbn iota in He0.
  assert (len (enc_frame (z2b v3FrameTypeChannelInit) protocolV3Version 0 body) = 8 + len body) as ->.
  { unfold enc_frame. rewrite len_app, !len_cons, len_app, !len_be_put. lia. }
  lia.
Qed.

End Agreement.

(** * Witnesses *)

Definition demoClient : clientAttempt :=
  mkClientAttempt (bs "secret") (Ok (bs "0123456789abcdef")) 7 (Ok (replicate 32 (z2b 5)))
    (Ok (bs "example.com", bs "/ws")) (Ok (be_put 32 3)) noon 0 (1700000000 * Second)
    defaultCipherPreference (Some 10) (fun n => if 5 <? n then Some 5 else None) (fun n => Ok (replicate n (z2b 0))).

Definition demoHello : clientHello :=
  match client_hello demoClient with Ok h => h | _ => mkHello sampleInit [] [] [] end.

Definition demoWire : bytes := fst (writeChannelInitV3 (h_init demoHello) []).

Definition demoServer : server :=
  mkServer (newNonceReplayCache 0) (newTAI64NCache 0) emptyTable (fun _ => 0).

Definition demoConfig : serverConfig := mkServerConfig (bs "secret") (300 * Second) 1 64.

Definition demoAttempt : attempt :=
  mkAttempt (Some (CloserWS 1)) 1 (bs "example.com") (bs "/ws") (Some demoWire) noon
    (Ok (be_put 32 11)) (Ok (replicate 32 (z2b 6))).

Lemma demo_rand : client_rand_ok demoClient.
Proof.
  split; cbn; [|intros n b [= <-]; apply length_replicate].
  intros n x. destruct (Z.ltb_spec 5 n); [|done]. intros [= <-]. lia.
Qed.

Lemma demo_ready : server_ready demoConfig demoAttempt demoServer (h_init demoHello).
Proof.
  constructor; [vm_compute; reflexivity..|vm_compute; discriminate| |].
  - intros id p. cbn [demoServer sv_table emptyTable tb_sessions]. by rewrite lookup_empty.
  - eexists (be_put 32 11), _, (replicate 32 (z2b 6)), _. split_and!; vm_compute; reflexivity.
Qed.

(** The honest client and server above establish a channel. *)
Lemma handshake_completes_witness :
  exists sv' ws' n ch resp,
    handlePreAuthTransportSession (W := bytes) demoConfig demoAttempt demoServer [] = (sv', ws', Established n) /\
    sink ws' = sink (@nil byte) ++ resp /\ tb_chans (sv_table sv') !! n = Some ch /\
    (forall rest, negotiateClientProtocol (W := bytes) demoClient ([], resp ++ rest) =
       ((demoWire, rest), Ok (ch_capabilities ch, ch_v3Keys ch, ch_v3Cipher ch))) /\
    len (sk_seed (ch_v3Keys ch)) = 32 /\
    (forall sid, exists x y,
       NewV3CipherStream (ch_v3Keys ch) (ch_v3Cipher ch) sid true = Ok x /\
       NewV3CipherStream (ch_v3Keys ch) (ch_v3Cipher ch) sid false = Ok y).
Proof.
  apply (handshake_completes (C := toy_crypto) (Wc := bytes) (Ws := bytes) demoClient demoHello demoConfig
    demoAttempt demoServer [] demoWire [] demoWire demo_rand);
    [vm_compute; intuition congruence|vm_compute; congruence|vm_compute; reflexivity..| | ];
    [exact demo_ready|exact buffer_reliable].
Defined.

Lemma first_packet_size_witness :
  len demoWire = 485 /\
  (480 <= len demoWire <= 576 \/ 1024 <= len demoWire <= 1152 \/ 1280 <= len demoWire <= 1400 \/
   len demoWire = 188 + len (cl_pref demoClient)).
Proof.
  split; [vm_compute; reflexivity|].
  apply (first_packet_size (C := toy_crypto) (W := bytes) demoClient demoHello [] demoWire demoWire demo_rand);
    [vm_compute; intuition congruence|vm_compute; reflexivity..].
Defined.
