(* ===== verification/StreamOpen.v ===== *)
(** internal/app/server.go and client.go: opening a stream.  The client picks a
    channel, sends the open header and reads the status; the server checks the
    header, the strategy, the target and the policy, dials, and reports. *)

From Stdlib Require Import ZArith Lia Strings.Byte.
From stdpp Require Import base numbers list gmap.
From S2P Require Import Prelude GoStrings GoNet NetAddr Crypto Wire WireV2 WireV3 CipherStream Policy Sessions.

Local Open Scope Z_scope.
Local Open Scope go_scope.

(** * The network *)

(** Every call the server makes to reach a target. *)
Inductive event : Type :=
  | EvDial (network addr : bytes)
  | EvLookup (host : bytes)
  | EvResolve (network addr : bytes)
  | EvListen
  | EvSocks5 (network target : bytes).

(** The answers of the network: [net.DialTimeout], [Resolver.LookupIPAddr],
    [net.ResolveUDPAddr], [net.ListenUDP] and the SOCKS5 upstream. *)
Class Net := {
  net_dial : bytes -> bytes -> res nat;
  net_lookup : bytes -> res (list bytes);
  net_resolve_udp : bytes -> bytes -> res (bytes * Z);
  net_listen_udp : res nat;
  socks5_dial : bytes -> bytes -> res nat;
}.

(** A computation that reports the calls it made. *)
Definition net_io (A : Type) : Type := list event * res A.

Definition call {A} (e : event) (r : res A) : net_io A := ([e], r).

Definition net_bind {A B} (m : net_io A) (k : A -> net_io B) : net_io B :=
  match m with
  | (es, Ok a) => let '(es', r) := k a in (es ++ es', r)
  | (es, Err e) => (es, Err e)
  | (es, Panic) => (es, Panic)
  end.

(** * Dialling by address family *)

(** The loop over the looked-up addresses: the first of each family. *)
Fixpoint pick_families (addrs : list bytes) (v4 v6 : option bytes) : option bytes * option bytes :=
  match addrs with
  | [] => (v4, v6)
  | ip :: addrs =>
      let v4 := match To4 ip, v4 with Some _, None => Some ip | _, _ => v4 end in
      let v6 := match To4 ip, v6 with None, None => Some ip | _, _ => v6 end in
      match v4, v6 with
      | Some _, Some _ => (v4, v6)
      | _, _ => pick_families addrs v4 v6
      end
  end.

Definition select_ip (strategy : Z) (addrs : list bytes) : option bytes :=
  let '(v4, v6) := pick_families addrs None None in
  if strategy =? IPStrategyPv4Pv6
  then match v4 with Some _ => v4 | None => v6 end
  else match v6 with Some _ => v6 | None => v4 end.

Section Dial.
Context `{N : Net}.

Definition dialTCPWithStrategy (addr : bytes) (strategy : Z) : net_io nat :=
  let plain := call (EvDial (bs "tcp") addr) (net_dial (bs "tcp") addr) in
  match SplitHostPort addr with
  | Ok (host, port) =>
      match ParseIP host with
      | Some _ => plain
      | None =>
          if strategy =? IPStrategyIPv4Only
          then call (EvDial (bs "tcp4") addr) (net_dial (bs "tcp4") addr) else
          if strategy =? IPStrategyIPv6Only
          then call (EvDial (bs "tcp6") addr) (net_dial (bs "tcp6") addr) else
          if (strategy =? IPStrategyPv4Pv6) || (strategy =? IPStrategyPv6Pv4) then
            net_bind (call (EvLookup host) (net_lookup host)) (fun addrs =>
              match select_ip strategy addrs with
              | None => ([], Err (Errorf "未找到可用IP: %s" []))
              | Some ip =>
                  let target := JoinHostPort (IPString ip) port in
                  call (EvDial (bs "tcp") target) (net_dial (bs "tcp") target)
              end)
          else plain
      end
  | _ => plain
  end.

Definition resolveUDPWithStrategy (addr : bytes) (strategy : Z) : net_io (bytes * Z) :=
  let plain network := call (EvResolve network addr) (net_resolve_udp network addr) in
  match SplitHostPort addr with
  | Ok (host, portStr) =>
      match Atoi portStr with
      | Some port =>
          if (port <=? 0) || (65535 <? port) then ([], Err (Errorf "port 必须在 1-65535 之间" [])) else
          match ParseIP host with
          | Some ip => ([], Ok (ip, port))
          | None =>
              if strategy =? IPStrategyIPv4Only then plain (bs "udp4") else
              if strategy =? IPStrategyIPv6Only then plain (bs "udp6") else
              if (strategy =? IPStrategyPv4Pv6) || (strategy =? IPStrategyPv6Pv4) then
                net_bind (call (EvLookup host) (net_lookup host)) (fun addrs =>
                  match select_ip strategy addrs with
                  | None => ([], Err (Errorf "未找到可用IP: %s" []))
                  | Some ip => ([], Ok (ip, port))
                  end)
              else plain (bs "udp")
          end
      | None => ([], Err (Errorf "port 必须在 1-65535 之间" []))
      end
  | _ => plain (bs "udp")
  end.

End Dial.

(** * Status messages *)

(** The text of an error, [err.Error()].  The errors of the checks and dials of
    a target may quote it ([%q] of the host, [net.AddrError], [net.OpError]), and
    so does the reason of a denial: these texts are functions of the target too. *)
Class ErrorText := {
  error_text : error -> bytes;
  target_text : bytes -> error -> bytes;
  reason_text : bytes -> reason -> bytes;
}.

Definition has_status_code (caps : Z) : bool :=
  negb (Z.land caps protocolCapabilityOpenStatusCode =? 0).

Section Status.
Context {W : Type} `{HW : Writer W}.

Definition writeTCPOpenSuccess (caps : Z) : io W unit :=
  if has_status_code caps
  then writeTCPOpenStatusCode (z2b tcpOpenStatusOK) (z2b openStatusCodeNone) []
  else writeTCPOpenStatus (z2b tcpOpenStatusOK) [].

Definition writeTCPOpenFailure (caps code : Z) (message : bytes) : io W unit :=
  if has_status_code caps
  then writeTCPOpenStatusCode (z2b tcpOpenStatusError) (z2b code) message
  else writeTCPOpenStatus (z2b tcpOpenStatusError) message.

Definition writeUDPOpenSuccess (caps : Z) : io W unit :=
  if has_status_code caps
  then writeUDPOpenStatusCode (z2b udpOpenStatusOK) (z2b openStatusCodeNone) []
  else writeUDPOpenStatus (z2b udpOpenStatusOK) [].

Definition writeUDPOpenFailure (caps code : Z) (message : bytes) : io W unit :=
  if has_status_code caps
  then writeUDPOpenStatusCode (z2b udpOpenStatusError) (z2b code) message
  else writeUDPOpenStatus (z2b udpOpenStatusError) message.

End Status.

Definition openStatusCodeName (code : byte) : bytes :=
  if b2z code =? openStatusCodeNone then bs "none" else
  if b2z code =? openStatusCodeBadTarget then bs "bad_target" else
  if b2z code =? openStatusCodePolicyDenied then bs "policy_denied" else
  if b2z code =? openStatusCodeDialFailed then bs "dial_failed" else
  if b2z code =? openStatusCodeResourceLimit then bs "resource_limit" else
  bs "code_" ++ Itoa (b2z code).

Definition formatOpenStatusError (status code : byte) (message : bytes) : bytes :=
  if b2z code =? openStatusCodeNone then
    if is_empty message then bs "status=" ++ Itoa (b2z status) else message
  else
    let codeName := openStatusCodeName code in
    if is_empty message then codeName else codeName ++ bs ": " ++ message.

(** What opening a stream can fail with on the client. *)
Inductive openError : Type :=
  | LocalError (e : error)
  | RemoteOpenError (network : bytes) (status code : byte) (message : bytes).

Definition remoteOpenError_Error (network : bytes) (status code : byte) (message : bytes) : bytes :=
  bs "远端 " ++ network ++ bs " 打开失败: " ++ formatOpenStatusError status code message.

Definition socks5ReplyForOpenError (e : openError) : byte :=
  match e with
  | RemoteOpenError _ _ code _ => if b2z code =? openStatusCodePolicyDenied then z2b 2 else z2b 5
  | LocalError _ => z2b 5
  end.

Definition httpStatusForOpenError (e : openError) : Z :=
  match e with
  | RemoteOpenError _ _ code _ => if b2z code =? openStatusCodePolicyDenied then 403 else 502
  | LocalError _ => 502
  end.

(** * The server's side *)

(** How the handler leaves the stream: closed, or relayed to a connection, which
    the relay loops then copy. *)
Inductive stream_end : Type :=
  | EndClosed
  | EndRelayTCP (conn : nat)
  | EndRelayUDP (ip : bytes) (port : Z) (sock : nat)
  | EndRelaySocks5UDP (relay : nat).

Inductive stream_counter : Type :=
  | serverTargetRejectSeq
  | serverUnsupportedStreamSeq
  | serverStreamRejectSeq.

(** What the server runs with. *)
Record relayConfig : Type := mkStreamConfig {
  so_policy : option TargetPolicy;
  so_socks5 : bool;
  so_maxStreams : Z;
}.

Record streamRun (W : Type) : Type := mkRun {
  run_w : W;
  run_events : list event;
  run_counters : list stream_counter;
  run_end : stream_end;
}.
Arguments mkRun {W}. Arguments run_w {W}. Arguments run_events {W}.
Arguments run_counters {W}. Arguments run_end {W}.

Section Server.
Context `{U : GoUnicode} `{N : Net} `{E : ErrorText} {W : Type} `{HW : Writer W}.

Definition is_ok {A} (r : res A) : bool := match r with Ok _ => true | _ => false end.
Definition err_of {A} (r : res A) : error := match r with Err e => e | _ => EOF end.

(** Reaching the target: a TCP connection, or the relay of a UDP stream. *)
Definition tcp_connect (cfg : relayConfig) (strategy : byte) (target : bytes) : net_io nat :=
  if so_socks5 cfg
  then call (EvSocks5 (bs "tcp") target) (socks5_dial (bs "tcp") target)
  else dialTCPWithStrategy target (b2z strategy).

Definition udp_connect (cfg : relayConfig) (strategy : byte) (target : bytes) : net_io stream_end :=
  if so_socks5 cfg
  then net_bind (call (EvSocks5 (bs "udp") target) (socks5_dial (bs "udp") target))
         (fun r => ([], Ok (EndRelaySocks5UDP r)))
  else net_bind (resolveUDPWithStrategy target (b2z strategy)) (fun '(ip, port) =>
       net_bind (call EvListen net_listen_udp) (fun sock => ([], Ok (EndRelayUDP ip port sock)))).

(** The [case streamKindTCP] of [handleSmuxStream]. *)
Definition handle_tcp (cfg : relayConfig) (caps : Z) (strategy : byte) (target : bytes) (w : W) : streamRun W :=
  let fail code msg w := fst (writeTCPOpenFailure caps code msg w) in
  match validateIPStrategyValue strategy with
  | Ok _ =>
      match validateSmuxStreamTarget target with
      | Ok _ =>
          match ensureTargetAllowed (so_policy cfg) target with
          | inl _ =>
              let '(events, conn) := tcp_connect cfg strategy target in
              match conn with
              | Ok tcpConn =>
                  match writeTCPOpenSuccess caps w with
                  | (w, Ok _) => mkRun w events [] (EndRelayTCP tcpConn)
                  | (w, _) => mkRun w events [] EndClosed
                  end
              | r => mkRun (fail openStatusCodeDialFailed (target_text target (err_of r)) w) events [] EndClosed
              end
          | inr reason =>
              mkRun (fail openStatusCodePolicyDenied (reason_text target reason) w) [] [serverTargetRejectSeq] EndClosed
          end
      | r => mkRun (fail openStatusCodeBadTarget (target_text target (err_of r)) w) [] [serverTargetRejectSeq] EndClosed
      end
  | r => mkRun (fail openStatusCodeBadTarget (target_text target (err_of r)) w) [] [serverTargetRejectSeq] EndClosed
  end.

(** The [case streamKindUDP], up to the relay loops. *)
Definition handle_udp (cfg : relayConfig) (caps : Z) (strategy : byte) (target : bytes) (w : W) : streamRun W :=
  let fail code msg w := fst (writeUDPOpenFailure caps code msg w) in
  match validateIPStrategyValue strategy with
  | Ok _ =>
      match validateSmuxStreamTarget target with
      | Ok _ =>
          match ensureTargetAllowed (so_policy cfg) target with
          | inl _ =>
              let '(events, relay) := udp_connect cfg strategy target in
              match relay with
              | Ok relay =>
                  match writeUDPOpenSuccess caps w with
                  | (w, Ok _) => mkRun w events [] relay
                  | (w, _) => mkRun w events [] EndClosed
                  end
              | r => mkRun (fail openStatusCodeDialFailed (target_text target (err_of r)) w) events [] EndClosed
              end
          | inr reason =>
              mkRun (fail openStatusCodePolicyDenied (reason_text target reason) w) [] [serverTargetRejectSeq] EndClosed
          end
      | r => mkRun (fail openStatusCodeBadTarget (target_text target (err_of r)) w) [] [serverTargetRejectSeq] EndClosed
      end
  | r => mkRun (fail openStatusCodeBadTarget (target_text target (err_of r)) w) [] [serverTargetRejectSeq] EndClosed
  end.

(** The body of [handleSmuxStream]; [input] is what the decrypted stream
    delivers and [w] its writer. *)
Definition handle_stream (cfg : relayConfig) (ch : WSChannel) (sid : Z) (input : bytes) (w : W) : streamRun W :=
  match NewV3CipherStream (ch_v3Keys ch) (ch_v3Cipher ch) sid false with
  | Ok _ =>
      match readSmuxOpenHeader input with
      | (rest, Ok (kind, strategy, target)) =>
          if negb (isSupportedStreamKind (b2z kind))
          then mkRun w [] [serverUnsupportedStreamSeq] EndClosed else
          if b2z kind =? streamKindPing then
            match ReadFull 8 rest with
            | (_, Ok payload) => mkRun (fst (writeAll payload w)) [] [] EndClosed
            | _ => mkRun w [] [] EndClosed
            end
          else if b2z kind =? streamKindTCP then handle_tcp cfg (ch_capabilities ch) strategy target w
          else handle_udp cfg (ch_capabilities ch) strategy target w
      | _ => mkRun w [] [] EndClosed
      end
  | _ => mkRun w [] [] EndClosed
  end.

(** [handleSmuxStream]: the body, then the deferred release of the stream. *)
Definition handleSmuxStream (cfg : relayConfig) (session : nat) (ch : WSChannel) (sid : Z)
    (input : bytes) (w : W) (t : sessionTable) : streamRun W * option sessionTable :=
  (handle_stream cfg ch sid input w, releaseStream session t).

Definition rejectSmuxStreamDueToLimit (ch : WSChannel) (sid : Z) (input : bytes) (w : W) : W :=
  match NewV3CipherStream (ch_v3Keys ch) (ch_v3Cipher ch) sid false with
  | Ok _ =>
      match readSmuxOpenHeader input with
      | (_, Ok (kind, _, _)) =>
          let caps := ch_capabilities ch in
          if b2z kind =? streamKindTCP
          then fst (writeTCPOpenFailure caps openStatusCodeResourceLimit (bs "max streams reached") w) else
          if b2z kind =? streamKindUDP
          then fst (writeUDPOpenFailure caps openStatusCodeResourceLimit (bs "max streams reached") w) else w
      | _ => w
      end
  | _ => w
  end.

(** One round of the accept loop of [handleAuthenticatedTransportSession]: the
    stream is refused at the limit or handled while it holds a slot. *)
Definition accept_stream (cfg : relayConfig) (ch : WSChannel) (sid : Z) (input : bytes) (w : W)
    (t : sessionTable) : option (streamRun W * sessionTable) :=
  match tryAcquireStream (so_maxStreams cfg) (ch_session ch) t with
  | None => None
  | Some (t, (_, false)) =>
      Some (mkRun (rejectSmuxStreamDueToLimit ch sid input w) [] [serverStreamRejectSeq] EndClosed, t)
  | Some (t, (_, true)) =>
      match handleSmuxStream cfg (ch_session ch) ch sid input w t with
      | (r, Some t) => Some (r, t)
      | (_, None) => None
      end
  end.

End Server.

(** * The client's side *)

(** A slot of the pool: whether its session is open, and its measured RTT. *)
Record poolSlot : Type := mkSlot { sl_open : bool; sl_rtt : Z }.

Fixpoint candidates (i : nat) (slots : list poolSlot) (probeTimeout : Z) : list (nat * Z) :=
  match slots with
  | [] => []
  | s :: slots =>
      let rest := candidates (S i) slots probeTimeout in
      if sl_open s then (i, if sl_rtt s <=? 0 then probeTimeout else sl_rtt s) :: rest else rest
  end.

Definition min_rtt (cands : list (nat * Z)) (first : Z) : Z :=
  foldl (fun m c => if snd c <? m then snd c else m) first cands.

Definition tieWindow : Z := 10000000.

(** The choice of [openBestStream]; the state is [selectCounter]. *)
Definition choose_channel (slots : list poolSlot) (probeTimeout : Z) (counter : Z) : Z * res nat :=
  match candidates 0 slots probeTimeout with
  | [] => (counter, Err (Errorf "无可用 smux 通道" []))
  | c :: cands =>
      let minRTT := min_rtt cands (snd c) in
      let near := filter (fun x => snd x - minRTT <= tieWindow) (c :: cands) in
      let counter := wrapU 64 (counter + 1) in
      let pick := Z.rem (wrapS 64 (counter - 1)) (len near) in
      (counter, if pick <? 0 then Panic else
                match near !! Z.to_nat pick with Some x => Ok (fst x) | None => Panic end)
  end.

Section Client.
Context {W : Type} `{HW : Writer W}.

(** [openTCPStream] and [openUDPStream] after the cipher stream was built: the
    header, then the status. *)
Definition open_stream (kind : Z) (network : bytes) (caps : Z) (ipStrategy : byte) (target : bytes)
    (st : W * bytes) : (W * bytes) * (unit + openError) :=
  let '(w, input) := st in
  match writeSmuxOpenHeader (z2b kind) ipStrategy target w with
  | (w, Ok _) =>
      let '(input, r) :=
        if has_status_code caps then readOpenStatusCode input
        else match readOpenStatus input with
             | (input, Ok (status, message)) => (input, Ok (status, z2b openStatusCodeNone, message))
             | (input, Err e) => (input, Err e)
             | (input, Panic) => (input, Panic)
             end in
      ((w, input),
       match r with
       | Ok (status, code, message) =>
           if negb (b2z status =? 0) then inr (RemoteOpenError network status code message) else inl tt
       | Err e => inr (LocalError e)
       | Panic => inr (LocalError EOF)
       end)
  | (w, Err e) => ((w, input), inr (LocalError e))
  | (w, Panic) => ((w, input), inr (LocalError EOF))
  end.

Definition openTCPStream (caps : Z) (ipStrategy : byte) (target : bytes) :=
  open_stream streamKindTCP (bs "TCP") caps ipStrategy target.
Definition openUDPStream (caps : Z) (ipStrategy : byte) (target : bytes) :=
  open_stream streamKindUDP (bs "UDP") caps ipStrategy target.

End Client.

(** * Address selection: lemmas *)

Definition is_v4 (ip : bytes) : bool := match To4 ip with Some _ => true | None => false end.

(** The loop may stop as soon as it has one of each, which loses nothing. *)
Lemma pick_families_spec addrs v4 v6 :
  pick_families addrs v4 v6 =
    (match v4 with Some _ => v4 | None => List.find is_v4 addrs end,
     match v6 with Some _ => v6 | None => List.find (fun ip => negb (is_v4 ip)) addrs end).
Proof.
  revert v4 v6. induction addrs as [|ip addrs IH]; intros v4 v6; cbn [pick_families List.find].
  { by destruct v4, v6. }
  assert (is_v4 ip = match To4 ip with Some _ => true | None => false end) as -> by done.
  destruct (To4 ip), v4, v6; cbn [negb]; rewrite ?IH; done.
Qed.

(** The address family preference.  Among the addresses a name resolves
    to, "IPv4 first" selects the first IPv4 address if there is one and the
    first address otherwise, and "IPv6 first" the other way round; it fails only
    when the name has no address. *)
Theorem address_preference (addrs : list bytes) :
  select_ip IPStrategyPv4Pv6 addrs =
    match List.find is_v4 addrs with Some ip => Some ip | None => head addrs end /\
  select_ip IPStrategyPv6Pv4 addrs =
    match List.find (fun ip => negb (is_v4 ip)) addrs with Some ip => Some ip | None => head addrs end /\
  (forall strategy, select_ip strategy addrs = None <-> addrs = []) /\
  (forall strategy ip, select_ip strategy addrs = Some ip -> ip ∈ addrs).
Proof.
  assert (Hnone : forall (f : bytes -> bool) l, List.find f l = None -> List.find (fun x => negb (f x)) l = head l).
  { intros f [|x l]; cbn; [done|]. by destruct (f x). }
  assert (Hnone' : forall l, List.find (fun ip => negb (is_v4 ip)) l = None -> List.find is_v4 l = head l).
  { intros [|x l]; cbn; [done|]. by destruct (is_v4 x). }
  assert (Hin : forall (f : bytes -> bool) l x, List.find f l = Some x -> x ∈ l).
  { intros f l x [H _]%List.find_some. by apply list_elem_of_In. }
  unfold select_ip. rewrite pick_families_spec. cbn [Z.eqb]. split_and!.
  - destruct (List.find is_v4 addrs) eqn:E; [done|]. by apply Hnone.
  - destruct (List.find (fun ip => negb (is_v4 ip)) addrs) eqn:E; [done|]. by apply Hnone'.
  - intros strategy. split; [|intros ->; by destruct (_ =? _)].
    destruct (List.find is_v4 addrs) eqn:E4, (List.find (fun ip => negb (is_v4 ip)) addrs) eqn:E6;
      destruct (_ =? _); try done; intros _; rewrite (Hnone _ _ E4) in E6; by destruct addrs.
  - intros strategy ip. destruct (List.find is_v4 addrs) eqn:E4,
      (List.find (fun ip => negb (is_v4 ip)) addrs) eqn:E6;
      destruct (_ =? _); intros; simplify_eq; eauto.
Qed.

(** * The server's checks *)

Section ServerProperties.
Context `{U : GoUnicode} `{N : Net} `{E : ErrorText} {W : Type} {HWr : Writer W}.

(** The calls a target may lead to: dialling or resolving the target itself, or
    dialling an address its name resolves to. *)
Definition reaches (target : bytes) (e : event) : Prop :=
  match e with
  | EvDial _ addr =>
      addr = target \/
      exists host port addrs ip, SplitHostPort target = Ok (host, port) /\ net_lookup host = Ok addrs /\
        ip ∈ addrs /\ addr = JoinHostPort (IPString ip) port
  | EvLookup host => exists port, SplitHostPort target = Ok (host, port)
  | EvResolve _ addr => addr = target
  | EvListen => True
  | EvSocks5 _ t => t = target
  end.

Lemma select_ip_in strategy addrs ip : select_ip strategy addrs = Some ip -> ip ∈ addrs.
Proof.
  unfold select_ip. rewrite pick_families_spec.
  destruct (List.find is_v4 addrs) eqn:E4, (List.find (fun ip => negb (is_v4 ip)) addrs) eqn:E6;
    destruct (_ =? _); intros; simplify_eq;
    match goal with H : List.find _ _ = Some ?x |- ?x ∈ _ => apply List.find_some in H as [H _] end;
    by apply list_elem_of_In.
Qed.

Lemma dial_reaches target strategy : Forall (reaches target) (fst (dialTCPWithStrategy target strategy)).
Proof.
  assert (forall network, Forall (reaches target)
            (fst (call (EvDial network target) (net_dial network target)))) as Hp.
  { intros. repeat constructor. }
  unfold dialTCPWithStrategy. destruct (SplitHostPort target) as [[host port]| |] eqn:Hs; [|apply Hp..].
  destruct (ParseIP host); [apply Hp|].
  destruct (_ =? _); [apply Hp|]. destruct (_ =? _); [apply Hp|].
  destruct (_ || _); [|apply Hp]. unfold net_bind, call.
  destruct (net_lookup host) as [addrs| |] eqn:Hl; cbn [fst]; [|repeat constructor; cbn; eauto..].
  destruct (select_ip strategy addrs) as [ip|] eqn:Hip; cbn [app];
    (apply Forall_cons; split; [by exists port|]); [|constructor].
  apply Forall_singleton. right. exists host, port, addrs, ip. eauto using select_ip_in.
Qed.

Lemma resolve_reaches target strategy : Forall (reaches target) (fst (resolveUDPWithStrategy target strategy)).
Proof.
  unfold resolveUDPWithStrategy. destruct (SplitHostPort target) as [[host port]| |] eqn:Hs;
    [|repeat constructor..].
  destruct (Atoi port); [|constructor]. destruct (_ || _); [constructor|].
  destruct (ParseIP host); [constructor|].
  destruct (_ =? _); [repeat constructor|]. destruct (_ =? _); [repeat constructor|].
  destruct (_ || _); [|repeat constructor]. unfold net_bind, call.
  destruct (net_lookup host) as [addrs| |]; cbn [fst]; [|repeat constructor; cbn; eauto..].
  destruct (select_ip strategy addrs); cbn; repeat constructor; cbn; eauto.
Qed.

Lemma net_bind_events {A B} (P : event -> Prop) (m : net_io A) (k : A -> net_io B) :
  Forall P (fst m) -> (forall a, Forall P (fst (k a))) -> Forall P (fst (net_bind m k)).
Proof.
  intros Hm Hk. destruct m as [es [a| |]]; cbn in *; [|done..].
  specialize (Hk a). destruct (k a). cbn in *. by apply Forall_app.
Qed.

(** ** The destination of a relay *)

Definition prefers (strategy : Z) : bool := (strategy =? IPStrategyPv4Pv6) || (strategy =? IPStrategyPv6Pv4).

(** The first address of the preferred family, or the first one. *)
Definition preferred (strategy : Z) (addrs : list bytes) : option bytes :=
  match List.find (fun ip => if strategy =? IPStrategyPv4Pv6 then is_v4 ip else negb (is_v4 ip)) addrs with
  | Some ip => Some ip
  | None => head addrs
  end.

(** The network a strategy that fixes the family asks for. *)
Definition family (network : bytes) (strategy : Z) : bytes :=
  if strategy =? IPStrategyIPv4Only then network ++ bs "4" else
  if strategy =? IPStrategyIPv6Only then network ++ bs "6" else network.

(** Where a TCP stream to a target goes: to the target itself when its host is an
    address or the strategy fixes the family or says nothing, and to the preferred
    address of its name, at its port, when the strategy states a preference. *)
Definition tcp_destination (strategy : Z) (target network addr : bytes) : Prop :=
  exists host port, SplitHostPort target = Ok (host, port) /\
    match ParseIP host with
    | Some _ => network = bs "tcp" /\ addr = target
    | None =>
        if prefers strategy
        then network = bs "tcp" /\ exists addrs ip, net_lookup host = Ok addrs /\ preferred strategy addrs = Some ip /\
               addr = JoinHostPort (IPString ip) port
        else network = family (bs "tcp") strategy /\ addr = target
    end.

(** Where the datagrams of a UDP stream go: to the target's address and port, to
    the preferred address of its name at its port, or to what the name service of
    the strategy's family answers for the target. *)
Definition udp_destination (strategy : Z) (target ip : bytes) (port : Z) : Prop :=
  exists host portStr p, SplitHostPort target = Ok (host, portStr) /\ Atoi portStr = Some p /\
    match ParseIP host with
    | Some ip' => ip = ip' /\ port = p
    | None =>
        if prefers strategy
        then port = p /\ exists addrs, net_lookup host = Ok addrs /\ preferred strategy addrs = Some ip
        else net_resolve_udp (family (bs "udp") strategy) target = Ok (ip, port)
    end.

Definition relays_to (cfg : relayConfig) (kind strategy : Z) (target : bytes) (e : stream_end) : Prop :=
  match e with
  | EndClosed => True
  | EndRelayTCP conn =>
      kind = streamKindTCP /\
      if so_socks5 cfg then socks5_dial (bs "tcp") target = Ok conn
      else exists network addr, tcp_destination strategy target network addr /\ net_dial network addr = Ok conn
  | EndRelayUDP ip port sock =>
      kind = streamKindUDP /\ so_socks5 cfg = false /\ net_listen_udp = Ok sock /\ udp_destination strategy target ip port
  | EndRelaySocks5UDP relay => kind = streamKindUDP /\ so_socks5 cfg = true /\ socks5_dial (bs "udp") target = Ok relay
  end.

(** What the loop over the addresses selects is the preferred one. *)
Lemma select_preferred strategy addrs :
  prefers strategy = true -> select_ip strategy addrs = preferred strategy addrs.
Proof.
  intros Hs. destruct (address_preference addrs) as (H4 & H6 & _). unfold preferred, prefers in *.
  destruct (Z.eqb_spec strategy IPStrategyPv4Pv6) as [-> |]; [|destruct (Z.eqb_spec strategy IPStrategyPv6Pv4) as [-> |]; [|done]].
  - exact H4.
  - exact H6.
Qed.

Lemma valid_splits target : ValidateHostPort target = Ok tt -> exists host port, SplitHostPort target = Ok (host, port).
Proof.
  unfold ValidateHostPort, ValidateHostPortValue, validateHostPortValue. destruct (ContainsAny _ _); [done|].
  destruct (SplitHostPort target) as [[host port]| |]; [by eauto|done..].
Qed.

(** A dial that succeeds went where the strategy says. *)
Lemma dial_destination target strategy conn :
  ValidateHostPort target = Ok tt -> snd (dialTCPWithStrategy target strategy) = Ok conn ->
  exists network addr, tcp_destination strategy target network addr /\ net_dial network addr = Ok conn.
Proof.
  intros (host & port & Hs)%valid_splits. unfold dialTCPWithStrategy, tcp_destination. rewrite Hs.
  destruct (ParseIP host) eqn:Hip; [intros H; eexists _, _; split; [|exact H]; exists host, port; by rewrite Hip|].
  fold (prefers strategy). destruct (prefers strategy) eqn:Hp.
  2: { unfold family. intros H. exists (family (bs "tcp") strategy), target. split; [exists host, port; by rewrite Hip|].
       unfold family. by destruct (strategy =? IPStrategyIPv4Only), (strategy =? IPStrategyIPv6Only). }
  assert ((strategy =? IPStrategyIPv4Only) = false /\ (strategy =? IPStrategyIPv6Only) = false) as [-> ->].
  { unfold prefers in Hp. apply orb_true_iff in Hp as [->%Z.eqb_eq | ->%Z.eqb_eq]; done. }
  unfold net_bind, call. destruct (net_lookup host) as [addrs| |] eqn:Hl; [|done..].
  rewrite select_preferred by done. destruct (preferred strategy addrs) as [ip|] eqn:Hsel; [|done].
  cbn [snd]. intros H. eexists _, _. split; [|exact H]. exists host, port. rewrite Hip. by eauto 10.
Qed.

Lemma resolve_destination target strategy ip port :
  ValidateHostPort target = Ok tt -> snd (resolveUDPWithStrategy target strategy) = Ok (ip, port) ->
  udp_destination strategy target ip port.
Proof.
  intros (host & portStr & Hs)%valid_splits. unfold resolveUDPWithStrategy, udp_destination. rewrite Hs.
  destruct (Atoi portStr) as [p|] eqn:Ha; [|done]. destruct (_ || _); [done|].
  intros H. exists host, portStr, p. split; [done|]. split; [done|]. revert H.
  destruct (ParseIP host) eqn:Hip; [by intros [= -> ->]|].
  fold (prefers strategy). destruct (prefers strategy) eqn:Hp.
  2: { unfold family. by destruct (strategy =? IPStrategyIPv4Only), (strategy =? IPStrategyIPv6Only). }
  assert ((strategy =? IPStrategyIPv4Only) = false /\ (strategy =? IPStrategyIPv6Only) = false) as [-> ->].
  { unfold prefers in Hp. apply orb_true_iff in Hp as [->%Z.eqb_eq | ->%Z.eqb_eq]; done. }
  unfold net_bind, call. destruct (net_lookup host) as [addrs| |] eqn:Hl; [|done..].
  rewrite select_preferred by done. destruct (preferred strategy addrs) as [ip'|] eqn:Hsel; [|done].
  cbn [snd]. intros [= -> ->]. eauto.
Qed.

(** The checks a stream passes before anything is dialled for it. *)
Definition admitted (cfg : relayConfig) (strategy : byte) (target : bytes) : Prop :=
  validateIPStrategyValue strategy = Ok tt /\ ValidateHostPort target = Ok tt /\
  ensureTargetAllowed (so_policy cfg) target = inl tt.

Definition guarded (cfg : relayConfig) (kind : Z) (strategy : byte) (target : bytes) (r : streamRun W) : Prop :=
  Forall (reaches target) (run_events r) /\ relays_to cfg kind (b2z strategy) target (run_end r) /\
  (run_events r <> [] \/ run_end r <> EndClosed -> admitted cfg strategy target).

Lemma admitted_intro cfg strategy target u v x :
  validateIPStrategyValue strategy = Ok u -> validateSmuxStreamTarget target = Ok v ->
  ensureTargetAllowed (so_policy cfg) target = inl x -> admitted cfg strategy target.
Proof. destruct u, v, x. intros H1 H2%res_map_err_ok H3. done. Qed.

Lemma handle_tcp_guarded cfg caps strategy target (w : W) :
  guarded cfg streamKindTCP strategy target (handle_tcp cfg caps strategy target w).
Proof.
  assert (forall w c, guarded cfg streamKindTCP strategy target (mkRun w [] c EndClosed)) as Hno.
  { intros. split; [constructor|]. split; [done|]. by intros [|]. }
  unfold handle_tcp. destruct (validateIPStrategyValue strategy) eqn:H1; [|apply Hno..].
  destruct (validateSmuxStreamTarget target) eqn:H2; [|apply Hno..].
  destruct (ensureTargetAllowed _ target) eqn:H3; [|apply Hno].
  assert (Hadm : admitted cfg strategy target) by by eapply admitted_intro.
  destruct (tcp_connect cfg strategy target) as [events conn] eqn:Hd.
  assert (Forall (reaches target) events) as Hev.
  { change events with (fst (events, conn)). rewrite <- Hd. unfold tcp_connect.
    destruct (so_socks5 cfg); [repeat constructor|apply dial_reaches]. }
  assert (forall c, conn = Ok c -> relays_to cfg streamKindTCP (b2z strategy) target (EndRelayTCP c)) as Hto.
  { intros c ->. split; [done|]. apply (f_equal snd) in Hd. revert Hd. unfold tcp_connect.
    destruct (so_socks5 cfg); [done|]. apply dial_destination, Hadm. }
  destruct conn; [destruct (writeTCPOpenSuccess caps w) as [? [| |]]|..]; (split; [done|]); split; cbn [run_end]; by auto.
Qed.

Lemma handle_udp_guarded cfg caps strategy target (w : W) :
  guarded cfg streamKindUDP strategy target (handle_udp cfg caps strategy target w).
Proof.
  assert (forall w c, guarded cfg streamKindUDP strategy target (mkRun w [] c EndClosed)) as Hno.
  { intros. split; [constructor|]. split; [done|]. by intros [|]. }
  unfold handle_udp. destruct (validateIPStrategyValue strategy) eqn:H1; [|apply Hno..].
  destruct (validateSmuxStreamTarget target) eqn:H2; [|apply Hno..].
  destruct (ensureTargetAllowed _ target) eqn:H3; [|apply Hno].
  assert (Hadm : admitted cfg strategy target) by by eapply admitted_intro.
  destruct (udp_connect cfg strategy target) as [events conn] eqn:Hd.
  assert (Forall (reaches target) events) as Hev.
  { change events with (fst (events, conn)). rewrite <- Hd. unfold udp_connect.
    destruct (so_socks5 cfg); apply net_bind_events; [repeat constructor|constructor|apply resolve_reaches|].
    intros [ip port]. apply net_bind_events; repeat constructor. }
  assert (forall e, conn = Ok e -> relays_to cfg streamKindUDP (b2z strategy) target e) as Hto.
  { intros e ->. revert Hd. unfold udp_connect, net_bind, call. destruct (so_socks5 cfg) eqn:H5.
    - destruct (socks5_dial _ target) eqn:H; intros [= <- <-]. done.
    - destruct (resolveUDPWithStrategy target _) as [es [[ip port]| |]] eqn:Hr; [|done..].
      destruct net_listen_udp eqn:Hl; intros [= <- <-].
      split_and!; [done..|]. eapply resolve_destination; [apply Hadm|by rewrite Hr]. }
  destruct conn; [destruct (writeUDPOpenSuccess caps w) as [? [| |]]|..]; (split; [done|]); split; cbn [run_end]; by auto.
Qed.

Lemma release_acquired maxS p t t' n :
  tryAcquireStream maxS p t = Some (t', (n, true)) ->
  (forall s, tb_heap t !! p = Some s -> 0 <= cs_activeStreams s) ->
  exists t2, releaseStream p t' = Some t2 /\ forall q, activeStreamCount t2 q = activeStreamCount t q.
Proof.
  unfold tryAcquireStream, releaseStream, activeStreamCount. intros H Hpos.
  destruct (tb_heap t !! p) as [s|] eqn:Hs; [|done]. specialize (Hpos s eq_refl).
  destruct (_ && _); [done|]. injection H as <- _. cbn. rewrite lookup_insert_eq. cbn.
  destruct (Z.ltb_spec 0 (cs_activeStreams s + 1)); [|lia].
  eexists. split; [reflexivity|]. intros q. cbn. destruct (decide (p = q)) as [<-|].
  - rewrite !lookup_insert_eq, Hs. cbn. lia.
  - by rewrite !lookup_insert_ne.
Qed.

(** C9: the server reaches nothing it should not.  Whatever an authenticated
    peer sends on a stream, a connection is attempted, a name looked up or a
    relay started only for the target of a complete TCP or UDP open header whose
    strategy is known, whose target is a valid host and port and which the
    target policy allows, and only to that target or to an address its name
    resolves to.  A relay that is started goes where the strategy says: a TCP
    stream over the connection dialled to the target, or to the preferred address
    of its name at its port; the datagrams of a UDP stream to the target's address
    and port, to the preferred address of its name at its port, or to what the
    name service answers for the target in the strategy's family; and through the
    SOCKS5 upstream, to the target itself.  When the stream is over it holds no
    slot of its session any more. *)
Theorem stream_reaches_only_allowed (cfg : relayConfig) (ch : WSChannel) (sid : Z) (input : bytes)
    (w : W) (t : sessionTable)
    (Hs : exists s, tb_heap t !! ch_session ch = Some s /\ 0 <= cs_activeStreams s) :
  exists r t', accept_stream cfg ch sid input w t = Some (r, t') /\
    (forall q, activeStreamCount t' q = activeStreamCount t q) /\
    (run_events r = [] /\ run_end r = EndClosed \/
     exists rest kind strategy target,
       readSmuxOpenHeader input = (rest, Ok (kind, strategy, target)) /\
       (b2z kind = streamKindTCP \/ b2z kind = streamKindUDP) /\
       admitted cfg strategy target /\ Forall (reaches target) (run_events r) /\
       relays_to cfg (b2z kind) (b2z strategy) target (run_end r)).
Proof.
  destruct Hs as (s & Hs & Hpos). unfold accept_stream.
  destruct (tryAcquireStream _ _ t) as [[t1 [n [|]]]|] eqn:Ha.
  - destruct (release_acquired _ _ _ _ _ Ha) as (t2 & Hr & Hc); [congruence|].
    unfold handleSmuxStream. rewrite Hr. eexists _, t2. split; [reflexivity|]. split; [done|].
    unfold handle_stream. destruct (NewV3CipherStream _ _ _ _); [|by left..].
    destruct (readSmuxOpenHeader input) as [rest [[[kind strategy] target]| |]]; [|by left..].
    destruct (isSupportedStreamKind (b2z kind)) eqn:Hk; cbn [negb]; [|by left].
    unfold isSupportedStreamKind in Hk. rewrite !orb_true_iff, !Z.eqb_eq in Hk.
    destruct (Z.eqb_spec (b2z kind) streamKindPing); [destruct (ReadFull 8 rest) as [? [| |]]; by left|].
    assert (forall r, (b2z kind = streamKindTCP \/ b2z kind = streamKindUDP) -> guarded cfg (b2z kind) strategy target r ->
      run_events r = [] /\ run_end r = EndClosed \/
      exists rest' kind' strategy' target', (rest, Ok (kind, strategy, target)) = (rest', Ok (kind', strategy', target')) /\
        (b2z kind' = streamKindTCP \/ b2z kind' = streamKindUDP) /\
        admitted cfg strategy' target' /\ Forall (reaches target') (run_events r) /\
        relays_to cfg (b2z kind') (b2z strategy') target' (run_end r)) as Hg.
    { intros r Hkind (Hev & Hto & Hadm). destruct (run_events r) eqn:Ee; [destruct (run_end r) eqn:En; [by left|..]|];
        right; do 4 eexists; (split; [reflexivity|]); (split; [done|]);
        (split; [apply Hadm; first [by left | by right]|done]). }
    destruct (Z.eqb_spec (b2z kind) streamKindTCP) as [Hkt|]; apply Hg; [by left|rewrite Hkt; apply handle_tcp_guarded|tauto|].
    assert (b2z kind = streamKindUDP) as -> by tauto. apply handle_udp_guarded.
  - eexists _, t1. split; [reflexivity|]. split; [|by left]. intros q.
    unfold tryAcquireStream in Ha. rewrite Hs in Ha. destruct (_ && _); by simplify_eq.
  - unfold tryAcquireStream in Ha. rewrite Hs in Ha. by destruct (_ && _).
Qed.

End ServerProperties.

(** * The outcome on both sides *)

(** What opening a stream comes to. *)
Inductive verdict : Type := VBadTarget | VDenied | VDialFailed | VOpen.

Definition code_of (v : verdict) : Z :=
  match v with
  | VBadTarget => openStatusCodeBadTarget
  | VDenied => openStatusCodePolicyDenied
  | VDialFailed => openStatusCodeDialFailed
  | VOpen => openStatusCodeNone
  end.

(** The status the peer reads for a written status and code: without the
    capability the code is lost. *)
Definition seen_code (caps : Z) (v : verdict) : byte :=
  if has_status_code caps then z2b (code_of v) else z2b openStatusCodeNone.

Section Outcome.
Context `{U : GoUnicode} `{N : Net} `{E : ErrorText}.
Context {W : Type} {HWr : Writer W} {HOk : WriterOk W}.

(** The specification: the checks in order, then the dial. *)
Definition verdict_of (cfg : relayConfig) (kind : Z) (strategy : byte) (target : bytes) : verdict :=
  if negb (is_ok (validateIPStrategyValue strategy)) || negb (is_ok (ValidateHostPort target)) then VBadTarget else
  match ensureTargetAllowed (so_policy cfg) target with
  | inr _ => VDenied
  | inl _ =>
      if if kind =? streamKindTCP then is_ok (snd (tcp_connect cfg strategy target))
         else is_ok (snd (udp_connect cfg strategy target))
      then VOpen else VDialFailed
  end.

(** The text of the refusal: that of the first check that failed, or of the dial. *)
Definition refusal_text (cfg : relayConfig) (kind : Z) (strategy : byte) (target : bytes) : bytes :=
  match validateIPStrategyValue strategy, validateSmuxStreamTarget target, ensureTargetAllowed (so_policy cfg) target with
  | Ok _, Ok _, inl _ =>
      if kind =? streamKindTCP then target_text target (err_of (snd (tcp_connect cfg strategy target)))
      else target_text target (err_of (snd (udp_connect cfg strategy target)))
  | Ok _, Ok _, inr reason => reason_text target reason
  | Ok _, r, _ => target_text target (err_of r)
  | r, _, _ => target_text target (err_of r)
  end.

(** A refusal fits the status message when its text has at most 65535 bytes;
    a longer one is refused by the length check before anything is written. *)
Definition told (cfg : relayConfig) (kind : Z) (strategy : byte) (target : bytes) : bool :=
  match verdict_of cfg kind strategy target with
  | VOpen => true
  | _ => len (refusal_text cfg kind strategy target) <=? 65535
  end.

(** A status goes through a writer that accepts everything. *)
Lemma status_sent caps status (code : Z) message (w : W) :
  reliable (W := W) -> reliable_strings (W := W) -> len message <= 65535 ->
  exists w' resp,
    (if has_status_code caps then writeOpenStatusCode status (z2b code) message
     else writeOpenStatus status message) w = (w', Ok tt) /\ sink w' = sink w ++ resp /\
    forall rest, (if has_status_code caps then readOpenStatusCode (resp ++ rest)
                  else match readOpenStatus (resp ++ rest) with
                       | (input, Ok (status, message)) => (input, Ok (status, z2b openStatusCodeNone, message))
                       | (input, Err e) => (input, Err e)
                       | (input, Panic) => (input, Panic)
                       end) =
      (rest, Ok (status, if has_status_code caps then z2b code else z2b openStatusCodeNone, message)).
Proof.
  intros Hrel Hstr Hl. pose proof (proj2 (validateProtocolFieldLen_ok _) Hl) as Hm.
  destruct (has_status_code caps).
  - destruct (head_and_string_total Hrel Hstr _ (status :: z2b code :: be_put 2 (len message)) message w Hm)
      as (w' & H1 & H2).
    exists w', (enc_open_status_code status (z2b code) message). split; [exact H1|]. split; [exact H2|].
    intros rest. by apply reads_open_status_code.
  - destruct (head_and_string_total Hrel Hstr _ (status :: be_put 2 (len message)) message w Hm)
      as (w' & H1 & H2).
    exists w', (enc_open_status status message). split; [exact H1|]. split; [exact H2|].
    intros rest. by rewrite (reads_open_status status message Hl rest).
Qed.

(** A run that reports a verdict to a client reading its answer, or, when the
    text does not fit, ends the stream without writing to it. *)
Definition reports (caps : Z) (v : verdict) (fits : bool) (w : W) (r : streamRun W) : Prop :=
  (run_end r <> EndClosed <-> v = VOpen) /\
  if fits then
    exists resp status message, sink (run_w r) = sink w ++ resp /\
      (forall rest, (if has_status_code caps then readOpenStatusCode (resp ++ rest)
                     else match readOpenStatus (resp ++ rest) with
                          | (input, Ok (status, message)) => (input, Ok (status, z2b openStatusCodeNone, message))
                          | (input, Err e) => (input, Err e)
                          | (input, Panic) => (input, Panic)
                          end) = (rest, Ok (status, seen_code caps v, message))) /\
      (status = z2b 0 <-> v = VOpen) /\ (status = z2b 0 \/ status = z2b 1)
  else v <> VOpen /\ run_w r = w.

(** A message that does not fit is not written at all. *)
Lemma status_unsent caps status (code : Z) message (w : W) :
  65535 < len message ->
  fst ((if has_status_code caps then writeOpenStatusCode status (z2b code) message
        else writeOpenStatus status message) w) = w.
Proof.
  intros Hl. destruct (validateProtocolFieldLen (len message)) as [[]| |] eqn:Hv.
  { apply validateProtocolFieldLen_ok in Hv. lia. }
  all: destruct (has_status_code caps); unfold writeOpenStatusCode, writeOpenStatus, io_bind, io_lift; by rewrite Hv.
Qed.

Lemma failure_reports caps v message (w : W) events counters :
  reliable (W := W) -> reliable_strings (W := W) -> v <> VOpen ->
  reports caps v (len message <=? 65535) w
    (mkRun (fst (writeTCPOpenFailure caps (code_of v) message w)) events counters EndClosed).
Proof.
  intros Hrel Hstr Hv. split; [by split|]. cbn [run_w].
  assert (writeTCPOpenFailure caps (code_of v) message w =
    (if has_status_code caps then writeOpenStatusCode (z2b tcpOpenStatusError) (z2b (code_of v)) message
     else writeOpenStatus (z2b tcpOpenStatusError) message) w) as ->.
  { unfold writeTCPOpenFailure, writeTCPOpenStatusCode, writeTCPOpenStatus. by destruct (has_status_code caps). }
  destruct (Z.leb_spec (len message) 65535) as [Hl|Hl]; [|by rewrite status_unsent].
  destruct (status_sent caps (z2b tcpOpenStatusError) (code_of v) message w Hrel Hstr Hl) as (w' & resp & -> & Hs & Hr).
  exists resp, (z2b 1), message. split; [done|]. split; [exact Hr|]. split; [by split; [intros H; vm_compute in H|]|]. by right.
Qed.

Lemma success_reports caps (w : W) events e :
  reliable (W := W) -> reliable_strings (W := W) -> e <> EndClosed ->
  reports caps VOpen true w
    match writeTCPOpenSuccess caps w with
    | (w, Ok _) => mkRun w events [] e
    | (w, _) => mkRun w events [] EndClosed
    end.
Proof.
  intros Hrel Hstr He.
  destruct (status_sent caps (z2b tcpOpenStatusOK) openStatusCodeNone [] w Hrel Hstr) as (w' & resp & Hw & Hs & Hr);
    [done|].
  assert (writeTCPOpenSuccess caps w = (w', Ok tt)) as ->.
  { unfold writeTCPOpenSuccess, writeTCPOpenStatusCode, writeTCPOpenStatus. by destruct (has_status_code caps). }
  split; [done|]. exists resp, (z2b 0), []. cbn [run_w].
  split; [done|]. split; [exact Hr|]. split; [done|]. by left.
Qed.

Lemma handle_tcp_reports cfg caps strategy target (w : W) :
  reliable (W := W) -> reliable_strings (W := W) ->
  reports caps (verdict_of cfg streamKindTCP strategy target) (told cfg streamKindTCP strategy target) w
    (handle_tcp cfg caps strategy target w).
Proof.
  intros Hrel Hstr. unfold handle_tcp, told, refusal_text, verdict_of, validateSmuxStreamTarget.
  destruct (validateIPStrategyValue strategy); cbn [is_ok negb orb]; [|by apply (failure_reports _ VBadTarget)..].
  destruct (ValidateHostPort target); cbn [is_ok negb orb res_map_err]; [|by apply (failure_reports _ VBadTarget)..].
  destruct (ensureTargetAllowed _ _); [|by apply (failure_reports _ VDenied)].
  rewrite Z.eqb_refl. destruct (tcp_connect cfg strategy target) as [events conn]. cbn [snd].
  destruct conn; cbn [is_ok]; [by apply success_reports|by apply (failure_reports _ VDialFailed)..].
Qed.

Lemma handle_udp_reports cfg caps strategy target (w : W) :
  reliable (W := W) -> reliable_strings (W := W) ->
  reports caps (verdict_of cfg streamKindUDP strategy target) (told cfg streamKindUDP strategy target) w
    (handle_udp cfg caps strategy target w).
Proof.
  intros Hrel Hstr. unfold handle_udp, told, refusal_text, verdict_of, validateSmuxStreamTarget.
  destruct (validateIPStrategyValue strategy); cbn [is_ok negb orb]; [|by apply (failure_reports _ VBadTarget)..].
  destruct (ValidateHostPort target); cbn [is_ok negb orb res_map_err]; [|by apply (failure_reports _ VBadTarget)..].
  destruct (ensureTargetAllowed _ _); [|by apply (failure_reports _ VDenied)].
  change (streamKindUDP =? streamKindTCP) with false. cbn iota.
  destruct (udp_connect cfg strategy target) as [events conn] eqn:Hc. cbn [snd].
  destruct conn as [e| |]; cbn [is_ok]; [|by apply (failure_reports _ VDialFailed)..].
  apply success_reports; [done|done|].
  intros ->. revert Hc. unfold udp_connect, net_bind, call. repeat case_match; simplify_eq/=; congruence.
Qed.

Lemma handle_stream_reports cfg ch sid kind strategy target header rest (w : W) :
  kind = streamKindTCP \/ kind = streamKindUDP ->
  is_ok (NewV3CipherStream (ch_v3Keys ch) (ch_v3Cipher ch) sid false) = true ->
  reads readSmuxOpenHeader header (z2b kind, strategy, target) ->
  reliable (W := W) -> reliable_strings (W := W) ->
  reports (ch_capabilities ch) (verdict_of cfg kind strategy target) (told cfg kind strategy target) w
    (handle_stream cfg ch sid (header ++ rest) w).
Proof.
  intros Hkind Hs Hread Hrel Hstr. unfold handle_stream. destruct (NewV3CipherStream _ _ _ _); [|done..]. rewrite (Hread rest).
  destruct Hkind as [-> | ->]; cbn [negb isSupportedStreamKind]; [apply handle_tcp_reports|apply handle_udp_reports]; done.
Qed.

(** What the client makes of a verdict it is told, and of one that did not fit:
    then the stream ends without a status, and all the client has is an error of
    its own. *)
Definition client_sees (network : bytes) (caps : Z) (v : verdict) (fits : bool) (o : unit + openError) : Prop :=
  match o with
  | inl _ => v = VOpen
  | inr e => v <> VOpen /\
      if fits then (exists message, e = RemoteOpenError network (z2b 1) (seen_code caps v) message) /\
                   (has_status_code caps = true -> (httpStatusForOpenError e = 403 <-> v = VDenied))
      else e = LocalError EOF /\ httpStatusForOpenError e = 502
  end.

(** The status of the server reaches a client whatever follows it; an end
    without a status leaves the client with the end of the stream. *)
Lemma open_stream_sees {Wc : Type} {HWc : Writer Wc} kind network caps strategy target (wc wc' : Wc) v fits (w : W) r :
  writeSmuxOpenHeader (z2b kind) strategy target wc = (wc', Ok tt) -> reports caps v fits w r ->
  exists resp, sink (run_w r) = sink w ++ resp /\ (resp = [] <-> fits = false) /\
    forall more, (fits = false -> more = []) ->
      exists o, open_stream kind network caps strategy target (wc, resp ++ more) = ((wc', more), o) /\ client_sees network caps v fits o.
Proof.
  intros Hsent [Hend H]. destruct fits.
  - destruct H as (resp & status & message & Hs & Hr & Hst & H01). exists resp. split; [done|].
    split. { split; [|done]. intros ->. specialize (Hr []). cbn in Hr. by destruct (has_status_code caps). }
    intros more _. unfold open_stream. rewrite Hsent, (Hr more). eexists. split; [reflexivity|]. unfold client_sees. destruct H01 as [-> | ->].
    + change (b2z (z2b 0) =? 0) with true. cbn [negb]. by apply Hst.
    + change (b2z (z2b 1) =? 0) with false. cbn [negb].
      assert (v <> VOpen) as Hv by (intros Hv%Hst; by vm_compute in Hv).
      split; [done|]. split; [by eauto|]. intros Hcode. unfold httpStatusForOpenError, seen_code.
      rewrite Hcode. by destruct v.
  - destruct H as [Hv ->]. exists []. split; [by rewrite app_nil_r|]. split; [done|]. intros more ->; [|done].
    unfold open_stream. rewrite Hsent. destruct (has_status_code caps); eexists; (split; [reflexivity|]); by cbn.
Qed.

Lemma open_header_sent {Wc : Type} {HWc : Writer Wc} {HWcOk : WriterOk Wc} kind strategy target (wc wc' : Wc) :
  writeSmuxOpenHeader kind strategy target wc = (wc', Ok tt) ->
  exists header, sink wc' = sink wc ++ header /\ reads readSmuxOpenHeader header (kind, strategy, target).
Proof.
  intros Hsent. pose proof Hsent as [Hm Hw]%lift_bind_ok. apply res_map_err_ok, validateProtocolFieldLen_ok in Hm.
  exists (enc_open_status_code kind strategy target).
  split; [by eapply writes_frame; eauto with wire|by apply reads_open_status_code].
Qed.

(** C10: both ends agree on what became of a stream.  When a client opens a TCP
    or UDP stream on a channel with a usable cipher, over writers that take what
    they are given, the stream is relayed exactly when the strategy and target are
    valid, the policy allows the target and the server could reach it.  The client
    reports success exactly then.  Otherwise, when the text of the refusal has at
    most 65535 bytes, it reports the server's refusal with the code for the first
    of these that failed (no code without the capability), and the local proxy
    answers 403 exactly for a policy denial.  A longer text, which a target of up
    to 65535 bytes quoted in it can make, fails the length check of the status
    message: the server then closes the stream without a byte, and the client, at
    the end of the stream, reports an error of its own and 502, for a policy
    denial too. *)
Theorem open_outcome_reported {Wc : Type} {HWc : Writer Wc} {HWcOk : WriterOk Wc}
    (cfg : relayConfig) (ch : WSChannel) (sid : Z) (kind : Z) (network : bytes) (strategy : byte)
    (target rest : bytes) (wc wc' : Wc) (w : W)
    (Hkind : kind = streamKindTCP \/ kind = streamKindUDP)
    (Hstream : is_ok (NewV3CipherStream (ch_v3Keys ch) (ch_v3Cipher ch) sid false) = true)
    (Hsent : writeSmuxOpenHeader (z2b kind) strategy target wc = (wc', Ok tt))
    (Hrel : reliable (W := W)) (Hstr : reliable_strings (W := W)) :
  let caps := ch_capabilities ch in
  let v := verdict_of cfg kind strategy target in
  let fits := told cfg kind strategy target in
  exists header resp, sink wc' = sink wc ++ header /\
    let r := handle_stream cfg ch sid (header ++ rest) w in
    sink (run_w r) = sink w ++ resp /\ (run_end r <> EndClosed <-> v = VOpen) /\ (resp = [] <-> fits = false) /\
    forall more, (fits = false -> more = []) ->
      exists o, open_stream kind network caps strategy target (wc, resp ++ more) = ((wc', more), o) /\
      match o with
      | inl _ => v = VOpen
      | inr e => v <> VOpen /\
          if fits then (exists message, e = RemoteOpenError network (z2b 1) (seen_code caps v) message) /\
                       (has_status_code caps = true -> (httpStatusForOpenError e = 403 <-> v = VDenied))
          else e = LocalError EOF /\ httpStatusForOpenError e = 502
      end.
Proof.
  intros caps v fits. destruct (open_header_sent _ _ _ _ _ Hsent) as (header & Hh & Hread).
  pose proof (handle_stream_reports cfg ch sid kind strategy target header rest w Hkind Hstream Hread Hrel Hstr) as Hrep.
  destruct (open_stream_sees kind network caps strategy target wc wc' v fits w _ Hsent Hrep) as (resp & Hs & Hn & Ho).
  exists header, resp. split; [done|]. split; [done|]. split; [exact (proj1 Hrep)|]. by split.
Qed.

End Outcome.

(** * The choice of a channel *)

(** The RTT a slot competes with. *)
Definition effective_rtt (probeTimeout : Z) (s : poolSlot) : Z :=
  if sl_rtt s <=? 0 then probeTimeout else sl_rtt s.

Lemma candidates_in k slots probe i r :
  (i, r) ∈ candidates k slots probe <->
  exists j s, i = (k + j)%nat /\ slots !! j = Some s /\ sl_open s = true /\ r = effective_rtt probe s.
Proof.
  revert k. induction slots as [|s slots IH]; intros k; cbn [candidates].
  { split; [by intros ?%elem_of_nil|]. intros (j & s & _ & H & _). by rewrite lookup_nil in H. }
  assert ((i, r) ∈ candidates (S k) slots probe <->
          exists j s', i = (k + S j)%nat /\ slots !! j = Some s' /\ sl_open s' = true /\ r = effective_rtt probe s') as IH'.
  { rewrite IH. split; intros (j & s' & -> & H); exists j, s'; (split; [lia|done]). }
  destruct (sl_open s) eqn:Ho; [rewrite elem_of_cons|]; rewrite IH'; clear IH IH'; split.
  - intros [[= -> ->]|(j & s' & H)]; [exists 0%nat, s; by rewrite Nat.add_0_r|exists (S j), s'; done].
  - intros ([|j] & s' & -> & H & H2 & ->); cbn in H; simplify_eq; [left; by rewrite Nat.add_0_r|right; eauto 10].
  - intros (j & s' & H). exists (S j), s'. done.
  - intros ([|j] & s' & -> & H & H2 & ->); cbn in H; simplify_eq; [congruence|eauto 10].
Qed.

Lemma min_rtt_spec cands first :
  min_rtt cands first <= first /\ Forall (fun c => min_rtt cands first <= snd c) cands /\
  (min_rtt cands first = first \/ exists c, c ∈ cands /\ min_rtt cands first = snd c).
Proof.
  unfold min_rtt. revert first. induction cands as [|c cands IH]; intros first; cbn [foldl].
  { split_and!; [lia|constructor|by left]. }
  set (m := if snd c <? first then snd c else first).
  assert (m <= first /\ m <= snd c /\ (m = first \/ m = snd c)) as (H1 & H2 & H3).
  { unfold m. destruct (Z.ltb_spec (snd c) first); lia. }
  destruct (IH m) as (I1 & I2 & I3). split_and!; [lia| |].
  - constructor; [lia|done].
  - destruct I3 as [I3|(c' & Hc & I3)]; [|right; exists c'; split; [by right|done]].
    destruct H3 as [H3|H3]; [left; lia|right; exists c; split; [left|lia]].
Qed.

(** The channel a stream is opened on.  As long as the counter has not
    passed [2^63], the choice never panics: it is an open channel whose round
    trip is within ten milliseconds of the best one, and it fails only when no
    channel is open. *)
Theorem channel_choice (slots : list poolSlot) (probeTimeout counter : Z) (Hcounter : 0 <= counter < 2 ^ 63) :
  let '(counter', r) := choose_channel slots probeTimeout counter in
  match r with
  | Ok i => counter' = counter + 1 /\
      exists s, slots !! i = Some s /\ sl_open s = true /\
        forall j s', slots !! j = Some s' -> sl_open s' = true ->
          effective_rtt probeTimeout s <= effective_rtt probeTimeout s' + tieWindow
  | Err _ => counter' = counter /\ forall j s, slots !! j = Some s -> sl_open s = false
  | Panic => False
  end.
Proof.
  unfold choose_channel. pose proof (candidates_in 0 slots probeTimeout) as Hin.
  destruct (candidates 0 slots probeTimeout) as [|c cands].
  { split; [done|]. intros j s Hs. destruct (sl_open s) eqn:Ho; [|done].
    destruct (not_elem_of_nil (j, effective_rtt probeTimeout s)). apply Hin. by exists j, s. }
  set (m := min_rtt cands (snd c)). set (near := filter _ (c :: cands)).
  destruct (min_rtt_spec cands (snd c)) as (M1 & M2 & M3). fold m in M1, M2, M3.
  assert (exists x, x ∈ near) as [x Hx].
  { destruct M3 as [M3|(x & Hx & M3)]; [exists c|exists x]; apply list_elem_of_filter; unfold tieWindow;
      (split; [lia|]); [left|by right]. }
  assert (0 < len near) as Hlen by (destruct near; [by apply elem_of_nil in Hx|solve_len]).
  assert (wrapU 64 (counter + 1) = counter + 1) as -> by (apply Z.mod_small; lia).
  assert (wrapS 64 (counter + 1 - 1) = counter) as -> by (rewrite Z.add_simpl_r; apply wrapS_small; simpl; lia).
  destruct (Z.rem_bound_pos counter (len near) ltac:(lia) ltac:(lia)) as [Hp0 Hp1].
  destruct (Z.ltb_spec (Z.rem counter (len near)) 0); [lia|].
  destruct (near !! Z.to_nat (Z.rem counter (len near))) as [[i r]|] eqn:Hn.
  2: { apply lookup_ge_None in Hn. unfold len in *. lia. }
  split; [done|]. apply list_elem_of_lookup_2, list_elem_of_filter in Hn as [Ht Hc].
  apply Hin in Hc as (j & s & -> & Hs & Ho & ->). exists s. split_and!; [done|done|].
  intros j' s' Hs' Ho'. assert ((j', effective_rtt probeTimeout s') ∈ c :: cands) as Hc'.
  { apply Hin. by exists j', s'. }
  assert (m <= effective_rtt probeTimeout s') as Hm.
  { apply elem_of_cons in Hc' as [<-|Hc']; [exact M1|]. rewrite Forall_forall in M2.
    exact (M2 _ Hc'). }
  cbn [snd] in Ht. lia.
Qed.

(** * Witnesses *)

(** A network where every name resolves to one address and every dial succeeds. *)
Definition openNet : Net := {|
  net_dial := fun _ _ => Ok 1%nat;
  net_lookup := fun _ => Ok [[z2b 192; z2b 0; z2b 2; z2b 7]];
  net_resolve_udp := fun _ _ => Ok ([z2b 192; z2b 0; z2b 2; z2b 7], 53);
  net_listen_udp := Ok 1%nat;
  socks5_dial := fun _ _ => Ok 1%nat |}.

Definition noText : ErrorText :=
  {| error_text := fun _ => []; target_text := fun _ _ => []; reason_text := fun _ _ => bs "denied" |}.

(** Texts that quote the target, as those of [net.AddrError] do. *)
Definition quotingText : ErrorText :=
  {| error_text := fun _ => []; target_text := fun t _ => bs "address " ++ t ++ bs ": missing port in address";
     reason_text := fun t _ => t ++ bs " denied" |}.

Definition demoChannel : WSChannel :=
  mkChannel 7 (Some 1%nat) 0 currentProtocolCapabilitiesV2 sampleKeys (z2b 1) (Some 1%nat).

Definition demoTable : sessionTable :=
  mkTable {[ bs "client" := 0%nat ]} {[ 0%nat := mkSession 0 (bs "client") {[ 7 := 0%nat ]} 3 ]}
    {[ 0%nat := demoChannel ]} [].

Definition denyLocal : relayConfig :=
  mkStreamConfig (match parseTargetPolicy (U := ascii_only_unicode) [] (bs "127.0.0.0/8") [] [] with
                  | Ok p => Some p | _ => None end) false 64.

Definition openLocal : bytes := enc_open_status_code (z2b streamKindTCP) (z2b 0) (bs "127.0.0.1:22").

(** A UDP stream to a name, IPv4 preferred: the datagrams go to the address the
    name resolves to, at the port of the target. *)
Definition openName : bytes :=
  enc_open_status_code (z2b streamKindUDP) (z2b IPStrategyPv4Pv6) (bs "dns.example:53").

Lemma stream_reaches_only_allowed_witness :
  exists r t', accept_stream (U := ascii_only_unicode) (N := openNet) (E := noText) (W := bytes)
      denyLocal demoChannel 5 openName [] demoTable = Some (r, t') /\
    (forall q, activeStreamCount t' q = activeStreamCount demoTable q) /\
    run_end r = EndRelayUDP (map z2b [192; 0; 2; 7]) 53 1 /\
    exists strategy target, udp_destination (N := openNet) strategy target (map z2b [192; 0; 2; 7]) 53.
Proof.
  destruct (stream_reaches_only_allowed (U := ascii_only_unicode) (N := openNet) (E := noText)
    (W := bytes) denyLocal demoChannel 5 openName [] demoTable) as (r & t' & Ha & Hq & H).
  { eexists. split; [vm_compute; reflexivity|]. vm_compute. congruence. }
  exists r, t'. split; [exact Ha|]. split; [exact Hq|].
  assert (run_end r = EndRelayUDP (map z2b [192; 0; 2; 7]) 53 1) as He.
  { vm_compute in Ha. injection Ha as <- _. vm_compute. reflexivity. }
  split; [exact He|]. destruct H as [[_ H]|(rest & kind & strategy & target & _ & _ & _ & _ & Hto)]; [congruence|].
  rewrite He in Hto. destruct Hto as (_ & _ & _ & Hd). by exists (b2z strategy), target.
Defined.

Lemma buffer_strings : reliable_strings (W := bytes).
Proof. intros f Hf w b. vm_compute in Hf. simplify_eq. by eexists. Qed.

(** A target of the greatest length without a port: the header is sent, and the
    refusal that quotes it does not fit. *)
Lemma long_target_untold (t : bytes) :
  c_colon ∉ t -> len t = 65535 ->
  verdict_of (U := ascii_only_unicode) (N := openNet) denyLocal streamKindTCP (z2b 0) t = VBadTarget /\
  told (U := ascii_only_unicode) (N := openNet) (E := quotingText) denyLocal streamKindTCP (z2b 0) t = false /\
  writeSmuxOpenHeader (W := bytes) (z2b streamKindTCP) (z2b 0) t [] = (enc_open_status_code (z2b streamKindTCP) (z2b 0) t, Ok tt).
Proof.
  intros Hc Hl. assert (exists e, ValidateHostPort (U := ascii_only_unicode) t = Err e) as [e He].
  { unfold ValidateHostPort, ValidateHostPortValue, validateHostPortValue. destruct (ContainsAny _ _); [by eexists|].
    unfold SplitHostPort. assert (LastIndexByte t c_colon = -1) as ->; [|by eexists].
    clear Hl. induction t as [|x t IH]; [done|]. apply not_elem_of_cons in Hc as [Hx Ht].
    cbn [LastIndexByte]. rewrite (IH Ht), (proj2 (chr_false c_colon x)) by done. done. }
  assert (verdict_of (U := ascii_only_unicode) (N := openNet) denyLocal streamKindTCP (z2b 0) t = VBadTarget) as Hv
    by (unfold verdict_of; by rewrite He, orb_true_r).
  split; [done|]. split.
  - unfold told. rewrite Hv. unfold refusal_text, validateSmuxStreamTarget. rewrite He. cbn [res_map_err].
    apply Z.leb_gt. change (65535 < len (bs "address " ++ t ++ bs ": missing port in address")).
    rewrite !len_app, Hl. reflexivity.
  - destruct (head_and_string_total buffer_reliable buffer_strings
      (res_map_err (fun _ => Errorf "目标地址过长" []) (validateProtocolFieldLen (len t)))
      (z2b streamKindTCP :: z2b 0 :: be_put 2 (len t)) t []) as (w' & H1 & H2).
    { rewrite Hl. reflexivity. }
    unfold writeSmuxOpenHeader. rewrite H1. f_equal. exact H2.
Qed.

(** The denied target above: the client is told so; and a target of 65535 bytes
    without a port, whose refusal does not fit, so that nothing is sent. *)
Lemma open_outcome_reported_witness :
  (let r := handle_stream (U := ascii_only_unicode) (N := openNet) (E := noText) (W := bytes)
               denyLocal demoChannel 5 (openLocal ++ []) [] in
   exists resp e, run_w r = resp /\ run_end r = EndClosed /\
     open_stream (W := bytes) streamKindTCP (bs "TCP") (ch_capabilities demoChannel) (z2b 0) (bs "127.0.0.1:22")
       ([], resp) = ((openLocal, []), inr e) /\ httpStatusForOpenError e = 403) /\
  (exists target header, len target = 65535 /\
   let r := handle_stream (U := ascii_only_unicode) (N := openNet) (E := quotingText) (W := bytes)
               denyLocal demoChannel 5 (header ++ []) [] in
   run_w r = [] /\ open_stream (W := bytes) streamKindTCP (bs "TCP") (ch_capabilities demoChannel) (z2b 0) target
       ([], []) = ((header, []), inr (LocalError EOF))).
Proof.
  split.
  - destruct (open_outcome_reported (U := ascii_only_unicode) (N := openNet) (E := noText) (W := bytes)
      (Wc := bytes) denyLocal demoChannel 5 streamKindTCP (bs "TCP") (z2b 0) (bs "127.0.0.1:22") [] [] openLocal [])
      as (header & resp & Hh & Hr & Hend & _ & Ho);
      [by left|vm_compute; reflexivity..|exact buffer_reliable|exact buffer_strings|].
    cbn in Hh. subst header. change (run_w (handle_stream (U := ascii_only_unicode) (N := openNet) (E := noText) (W := bytes) denyLocal demoChannel 5 (openLocal ++ []) []) = resp) in Hr.
    assert (verdict_of (U := ascii_only_unicode) (N := openNet) denyLocal streamKindTCP (z2b 0) (bs "127.0.0.1:22") = VDenied) as Hv
      by (vm_compute; reflexivity).
    assert (told (U := ascii_only_unicode) (N := openNet) (E := noText) denyLocal streamKindTCP (z2b 0) (bs "127.0.0.1:22") = true)
      as Hf by (vm_compute; reflexivity).
    destruct (Ho []) as (o & He & Hs); [reflexivity|]. rewrite app_nil_r in He. rewrite Hv, Hf in Hs.
    destruct o as [[]|e]; [discriminate Hs|]. destruct Hs as (_ & _ & H403). exists resp, e.
    split; [exact Hr|]. split; [vm_compute; reflexivity|]. split; [exact He|]. by apply H403.
  - assert (exists t : bytes, (c_colon ∉ t) /\ len t = 65535) as (t & Hc & Hl).
    { exists (replicate (Z.to_nat 65535) x61). split; [by intros [? _]%elem_of_replicate|].
      unfold len. rewrite length_replicate. by rewrite Z2Nat.id. }
    destruct (long_target_untold t Hc Hl) as (Hb & Hf & Hw).
    destruct (open_outcome_reported (U := ascii_only_unicode) (N := openNet) (E := quotingText) (W := bytes)
      (Wc := bytes) denyLocal demoChannel 5 streamKindTCP (bs "TCP") (z2b 0) t [] [] (enc_open_status_code (z2b streamKindTCP) (z2b 0) t) [])
      as (header & resp & Hh & Hr & Hend & Hn & Ho);
      [by left|vm_compute; reflexivity|exact Hw|exact buffer_reliable|exact buffer_strings|].
    change (enc_open_status_code (z2b streamKindTCP) (z2b 0) t = header) in Hh. subst header.
    rewrite Hf, Hb in Ho. assert (resp = []) as -> by (by apply Hn). eexists t, _. split; [exact Hl|]. split; [exact Hr|].
    destruct (Ho []) as (o & He & Hs); [reflexivity|].
    destruct o as [[]|e]; [discriminate Hs|]. destruct Hs as (_ & -> & _). exact He.
Defined.

Lemma channel_choice_witness :
  let slots := [mkSlot true 50000000; mkSlot false 1; mkSlot true 45000000] in
  match choose_channel slots 1000000000 4 with
  | (counter', Ok i) => i = 0%nat /\ counter' = 4 + 1
  | _ => False
  end.
Proof.
  intros slots. pose proof (channel_choice slots 1000000000 4 ltac:(lia)) as H.
  destruct (choose_channel slots 1000000000 4) as [c' r] eqn:Hc. vm_compute in Hc. simplify_eq.
  split; [done|]. exact (proj1 H).
Defined.
