(* ===== verification/Tunnel.v ===== *)
(** The parts together: a client and a server that have completed the handshake
    of [Client] carry a stream of [StreamOpen] over the record layer of
    [CipherStream].  What the local side writes behind the open header reaches the
    server's relay, the server's answer reaches the client, and both read them as
    they were written. *)

From Stdlib Require Import ZArith Lia Strings.Byte.
From stdpp Require Import base numbers list gmap.
From S2P Require Import Prelude GoStrings GoNet NetAddr GoTime Crypto Wire WireV2 WireV3 Tai64n CipherStream Policy NonceCache Sessions Handshake Client StreamOpen.

Local Open Scope Z_scope.
Local Open Scope go_scope.

Section Tunnel.
Context `{C : Crypto} `{COk : !CryptoOk} `{R : Rand} `{ROk : !RandOk}.
Context `{U : GoUnicode} `{N : Net} `{E : ErrorText}.

(** The operations of one end, closed at the end, over an inner stream that takes
    its writes, are read at the other end in pieces of any size. *)
Definition carries (cx cy : streamConfig) (x y : V3CipherStream) (ops : list write_op) : Prop :=
  forall (W : Type) (HW : Writer W) (HOk : WriterOk W) (w : W) (n : Z) (fuel : nat),
    reliable (W := W) -> 0 < n -> (length (written ops) < fuel)%nat ->
    exists s w' out,
      (run_ops cx ops ;! stream_Close cx) (st_write x, w) = ((s, w'), Ok tt) /\ sink w' = sink w ++ out /\
      exists r, drain fuel cy n (st_read y, out) = ((r, []), Ok (written ops)).

(** The two ends a handshake gives, each with its own padding and coalescing. *)
Lemma ends_carry keys cipher sid rekey px dx py dy :
  isSupportedCipherV3 cipher = true -> len (sk_seed keys) = 32 ->
  len (sk_c2s_nonce_prefix keys) = 4 -> len (sk_s2c_nonce_prefix keys) = 4 -> 0 <= rekey ->
  exists x y, NewV3CipherStream keys cipher sid true = Ok x /\ NewV3CipherStream keys cipher sid false = Ok y /\
    let cx := with_options (st_config x) rekey px dx in
    let cy := with_options (st_config y) rekey py dy in
    forall ops, len (written ops) < MaxUint64 -> carries cx cy x y ops /\ carries cy cx y x ops.
Proof.
  intros Hci L1 L2 L3 Hr. unfold NewV3CipherStream. rewrite Hci, L2, L3. cbn [negb Z.eqb Pos.eqb orb].
  eexists _, _. split; [done|]. split; [done|]. intros ops Hs.
  assert (forall d p, config_ok (mkConfig keys cipher sid rekey p d)) as Hc by (intros; by split_and!).
  split; intros W HW HOk w n fuel Hrel Hn Hf; by apply written_is_read.
Qed.

(** C1: a stream through the tunnel.  When an honest client and a server ready for
    it have completed the handshake, the client opens a TCP or UDP stream to a
    target, with any padding and coalescing on either side.  Whatever follows the
    open header, in whatever pieces it is written, the server's end delivers the
    header and the data and no other byte; the server reads the target the client
    named, and the data is what is left for the relay.  The stream is relayed
    exactly when the target is valid, the policy allows it and it can be reached.
    What the server writes, its status and then any reply, is delivered to the
    client in the same way; the client reports success exactly in that case, and
    is left with the reply.  Otherwise it reports the server's refusal, when the
    text of the refusal fits its message (at most 65535 bytes); a longer one,
    which a target of up to 65535 bytes quoted in it can make, is never sent: the
    server ends the stream without a byte, and the client reports the end of the
    stream as an error of its own. *)
Theorem tunnel_carries_stream {Wc Ws : Type} {HWc : Writer Wc} {HWcOk : WriterOk Wc} {HWs : Writer Ws} {HWsOk : WriterOk Ws}
    (c : clientAttempt) (h : clientHello) (cfg : serverConfig) (a : attempt) (sv : server)
    (wc wc' : Wc) (ws : Ws) (out : bytes)
    (rcfg : relayConfig) (kind : Z) (network : bytes) (strategy : byte) (target header data : bytes)
    (sid rekey : Z) (padc pads : bool) (delayc delays : Z)
    (Hrand : client_rand_ok c) (Hchan : 0 <= cl_channelID c < 2 ^ 32) (Htoken : len (cl_token c) <> 0)
    (Hhello : client_hello c = Ok h) (Hkey : len (h_sk h) = 32)
    (Hsent : writeChannelInitV3 (h_init h) wc = (wc', Ok tt)) (Hout : sink wc' = sink wc ++ out)
    (Hstream : at_stream a = Some out) (Hname : at_serverName a = h_name h) (Hpath : at_path a = h_path h)
    (Hsame : sc_token cfg = cl_token c) (Hready : server_ready cfg a sv (h_init h)) (Hrel : reliable (W := Ws))
    (Hkind : kind = streamKindTCP \/ kind = streamKindUDP)
    (Hheader : writeSmuxOpenHeader (W := bytes) (z2b kind) strategy target [] = (header, Ok tt))
    (Hrekey : 0 <= rekey) :
  exists sv' ws' ch_id ch resp,
    handlePreAuthTransportSession cfg a sv ws = (sv', ws', Established ch_id) /\
    tb_chans (sv_table sv') !! ch_id = Some ch /\ sink ws' = sink ws ++ resp /\
    exists caps keys cipher, negotiateClientProtocol c (wc, resp) = ((wc', []), Ok (caps, keys, cipher)) /\
    exists x y,
      NewV3CipherStream keys cipher sid true = Ok x /\
      NewV3CipherStream (ch_v3Keys ch) (ch_v3Cipher ch) sid false = Ok y /\
      let cx := with_options (st_config x) rekey padc delayc in
      let cy := with_options (st_config y) rekey pads delays in
      (forall up, written up = header ++ data -> len (written up) < MaxUint64 -> carries cx cy x y up) /\
      readSmuxOpenHeader (header ++ data) = (data, Ok (z2b kind, strategy, target)) /\
      let r := handle_stream (W := bytes) rcfg ch sid (header ++ data) [] in
      let v := verdict_of rcfg kind strategy target in
      let fits := told rcfg kind strategy target in
      (run_end r <> EndClosed <-> v = VOpen) /\ (run_w r = [] <-> fits = false) /\
      forall down reply, written down = run_w r ++ reply -> (fits = false -> reply = []) -> len (written down) < MaxUint64 ->
        carries cy cx y x down /\
        exists o, open_stream kind network caps strategy target ([], run_w r ++ reply) = ((header, reply), o) /\
          client_sees network caps v fits o.
Proof.
  destruct (handshake_agrees c h cfg a sv wc wc' ws out) as (sv' & ws' & n & ch & resp & Hh & Hs & Hch & Hn & Hci & L1 & L2 & L3); [done..|].
  exists sv', ws', n, ch, resp. split; [done|]. split; [done|]. split; [done|].
  exists (ch_capabilities ch), (ch_v3Keys ch), (ch_v3Cipher ch). split; [by rewrite <- (Hn []), app_nil_r|].
  destruct (ends_carry (ch_v3Keys ch) (ch_v3Cipher ch) sid rekey padc delayc pads delays Hci L1 L2 L3 Hrekey) as (x & y & Hx & Hy & Hcarry).
  exists x, y. split; [done|]. split; [done|]. intros cx cy. split; [intros up _; by apply Hcarry|].
  destruct (open_header_sent _ _ _ _ _ Hheader) as (header' & Hh' & Hread). cbn in Hh'. subst header'.
  split; [apply (Hread data)|]. intros r v fits.
  assert (reports (ch_capabilities ch) v fits [] r) as Hrep.
  { apply handle_stream_reports; try done; [by rewrite Hy|exact buffer_reliable|exact buffer_strings]. }
  destruct (open_stream_sees kind network (ch_capabilities ch) strategy target [] header v fits [] r Hheader Hrep) as (resp' & Hw & Hnil & Ho).
  cbn in Hw. rewrite Hw. split; [apply Hrep|]. split; [exact Hnil|]. intros down reply _ Hreply Hlen.
  split; [by apply Hcarry|]. by apply Ho.
Qed.

End Tunnel.

(** * Witness *)

Definition openRelay : relayConfig := mkStreamConfig None false 64.

Definition demoTarget : bytes := bs "192.0.2.7:80".

Definition demoHeader : bytes := fst (writeSmuxOpenHeader (W := bytes) (z2b streamKindTCP) (z2b 0) demoTarget []).

(** The honest client and server of [Client], a request in two pieces, and the
    answer of a server that reaches the target. *)
Lemma tunnel_carries_stream_witness :
  exists ch x y,
    carries (with_options (st_config x) 2 true 5) (with_options (st_config y) 2 false 0) x y
      [OpWrite demoHeader; OpTimer; OpWrite (bs "GET /")] /\
    run_end (handle_stream (U := ascii_only_unicode) (N := openNet) (E := noText) (W := bytes) openRelay ch 5 (demoHeader ++ bs "GET /") []) <> EndClosed.
Proof.
  destruct (tunnel_carries_stream (C := toy_crypto) (U := ascii_only_unicode) (N := openNet) (E := noText) (Wc := bytes) (Ws := bytes)
    demoClient demoHello demoConfig demoAttempt demoServer [] demoWire [] demoWire
    openRelay streamKindTCP (bs "TCP") (z2b 0) demoTarget demoHeader (bs "GET /") 5 2 true false 5 0 demo_rand)
    as (sv' & ws' & id & ch & resp & _ & _ & _ & caps & keys & cipher & _ & x & y & _ & _ & Hup & _ & Hend & _);
    [vm_compute; intuition congruence|vm_compute; congruence|vm_compute; reflexivity..|exact demo_ready|exact buffer_reliable|
     left; reflexivity|vm_compute; reflexivity|vm_compute; congruence|].
  exists ch, x, y. split; [apply Hup; [|vm_compute]; reflexivity|]. apply Hend. vm_compute. reflexivity.
Defined.
