(* ===== verification/RouteRules.v ===== *)
(** The rule file of the route engine: internal/route/rules.go.  The parser of
    [rules.txt] with its errors, a printer to state the round trip, the file
    operations (first write of the template, loading, atomic replacement) over
    a map of files, and one tick of the polling watcher.  Calls of the watcher
    that read the file at different moments take one file system each, so that
    an editor may act between any two of them. *)

From Stdlib Require Import ZArith Lia Strings.Byte.
From stdpp Require Import base numbers list gmap.
From S2P Require Import Prelude GoStrings GoNet NetAddr Crypto NonceCache.

Local Open Scope Z_scope.
Local Open Scope go_scope.

(** * Rules *)

Definition ActionProxy : bytes := bs "proxy".
Definition ActionDirect : bytes := bs "direct".
Definition ActionReject : bytes := bs "reject".

Definition KindGeoSite : bytes := bs "geosite".
Definition KindGeoIP : bytes := bs "geoip".
Definition KindDomain : bytes := bs "domain".
Definition KindDefault : bytes := bs "default".

Record Rule : Type := mkRule {
  Action : bytes;
  Kind : bytes;
  Value : bytes;
}.

#[export] Instance Rule_eq_dec : EqDecision Rule.
Proof. solve_decision. Defined.

Definition validActions (a : bytes) : bool := bool_decide (a ∈ [ActionProxy; ActionDirect; ActionReject]).

Definition validKinds (k : bytes) : bool := bool_decide (k ∈ [KindGeoSite; KindGeoIP; KindDomain]).

Definition c_newline : byte := z2b 10.
Definition c_hash : byte := z2b 35.
Definition default_prefix : bytes := bs "default:".

Definition is_default (r : Rule) : bool := bool_decide (Kind r = KindDefault).

Section Parser.
Context {U : GoUnicode}.

(** A [default:] line: [rest] is what follows the prefix, [rules] the rules
    before it. *)
Definition parse_default (lineNo : Z) (rest : bytes) (rules : list Rule) : res Rule :=
  let action := ToLower (TrimSpace rest) in
  if negb (validActions action)
  then Err (Errorf "第 %d 行 default 行为 %q 非法（仅支持 proxy/direct/reject）" [lineNo]) else
  if existsb is_default rules
  then Err (Errorf "第 %d 行：default 只能声明一次（已有 %s）" [lineNo])
  else Ok (mkRule action KindDefault []).

(** A line [action,kind:value]. *)
Definition parse_rule (lineNo : Z) (line : bytes) : res Rule :=
  let '(actionPart, condPart, ok) := Cut line c_comma in
  if negb ok
  then Err (Errorf "第 %d 行格式错误：缺少逗号分隔的 `行为,条件`（行内容: %q）" [lineNo]) else
  let action := ToLower (TrimSpace actionPart) in
  if negb (validActions action)
  then Err (Errorf "第 %d 行行为 %q 非法（仅支持 proxy 或 direct）" [lineNo]) else
  let cond := TrimSpace condPart in
  let '(kind, value, ok) := Cut cond c_colon in
  if negb ok
  then Err (Errorf "第 %d 行条件 %q 非法（缺少 `:` 前缀，如 geosite:google）" [lineNo]) else
  let kind := ToLower (TrimSpace kind) in
  if negb (validKinds kind)
  then Err (Errorf "第 %d 行条件类型 %q 非法（仅支持 geosite / geoip / domain）" [lineNo]) else
  let value := TrimSpace value in
  if is_empty value
  then Err (Errorf "第 %d 行条件值不能为空（格式: %s:<name>）" [lineNo])
  else Ok (mkRule action kind value).

(** The body of the loop: the rules after the line. *)
Definition parse_line (lineNo : Z) (raw : bytes) (rules : list Rule) : res (list Rule) :=
  let line := TrimSpace raw in
  if is_empty line || HasPrefix line [c_hash] then Ok rules else
  let '(rest, found) := CutPrefix (ToLower line) default_prefix in
  if found then let! r := parse_default lineNo rest rules in Ok (rules ++ [r])
  else let! r := parse_rule lineNo line in Ok (rules ++ [r]).

Fixpoint parse_lines (lines : list bytes) (lineNo : Z) (rules : list Rule) : res (list Rule) :=
  match lines with
  | [] => Ok rules
  | raw :: lines' => let! rules := parse_line lineNo raw rules in parse_lines lines' (lineNo + 1) rules
  end.

Definition ParseRules (rulesText : bytes) : res (list Rule) :=
  parse_lines (Split rulesText c_newline) 1 [].

End Parser.

(** The text of a list of rules, one line each. *)
Definition print_rule (r : Rule) : bytes :=
  if is_default r then default_prefix ++ Action r
  else Action r ++ c_comma :: Kind r ++ c_colon :: Value r.

Definition print_rules (rules : list Rule) : bytes := Join (map print_rule rules) c_newline.

(** * Files *)

Record file : Type := mkFile { f_data : bytes; f_mtime : Z; f_readable : bool }.

Abbreviation fsys := (gmap bytes file).

Inductive os_error : Type := ErrNotExist | ErrPermission.

Definition os_err (e : os_error) : error :=
  match e with
  | ErrNotExist => Errorf "file does not exist" []
  | ErrPermission => Errorf "permission denied" []
  end.

Definition os_Stat (fs : fsys) (path : bytes) : file + os_error :=
  match fs !! path with Some f => inl f | None => inr ErrNotExist end.

Definition os_ReadFile (fs : fsys) (path : bytes) : bytes + os_error :=
  match fs !! path with
  | Some f => if f_readable f then inl (f_data f) else inr ErrPermission
  | None => inr ErrNotExist
  end.

Definition dirOf (path : bytes) : bytes :=
  let i := LastIndexByte path c_slash in
  if 0 <=? i then take (Z.to_nat i) path else bs ".".

(** The calls of [atomicWriteFile] that may fail. *)
Inductive write_call : Type := CallCreateTemp | CallWrite | CallChmod | CallClose | CallRename.

#[export] Instance write_call_eq_dec : EqDecision write_call.
Proof. solve_decision. Defined.

(** [atomicWriteFile]: the file systems a reader can see on the way, in order,
    the last one and the outcome.  [fail] is the call that fails, [partial] what
    a failed [Write] has left in the temporary file. *)
Definition atomicWriteFile (fail : option write_call) (partial : bytes) (now : Z)
    (tmpName path data : bytes) (fs : fsys) : list fsys * fsys * res unit :=
  let failed e := Err (Errorf e []) in
  let fails c := bool_decide (fail = Some c) in
  if fails CallCreateTemp then ([], fs, failed "create"%string) else
  let fs1 := <[tmpName := mkFile [] now true]> fs in
  if fails CallWrite then
    let fs2 := <[tmpName := mkFile partial now true]> fs in
    ([fs1; fs2], delete tmpName fs2, failed "write"%string) else
  let fs2 := <[tmpName := mkFile data now true]> fs1 in
  if fails CallChmod then ([fs1; fs2], delete tmpName fs2, failed "chmod"%string) else
  if fails CallClose then ([fs1; fs2], delete tmpName fs2, failed "close"%string) else
  if fails CallRename then ([fs1; fs2], delete tmpName fs2, failed "rename"%string) else
  let fs3 := <[path := mkFile data now true]> (delete tmpName fs2) in
  ([fs1; fs2], delete tmpName fs3, Ok tt).

Definition c_quote : byte := z2b 34.

Definition DefaultRules : bytes := bs
"# 默认路由规则（每行一条，格式: 行为,条件）
# 行为: proxy = 走 WARP 隧道；direct = 本地直连；reject = 拒绝连接（拦截广告）
# 兜底声明（可选）: default:direct 表示" ++ [c_quote] ++ bs "全部规则未命中时" ++ [c_quote] ++ bs "的行为；未声明时
# 由程序决定（桌面直连 / Android 隧道兜底）。国内网络或 GEO 库未就绪时可用
# default: direct 让未命中流量直连（见 CHANGELOG 阶段 11）。
REJECT,geosite:category-ads-all
direct,geosite:private
direct,geoip:private
proxy,geosite:google
proxy,geoip:google
proxy,geosite:geolocation-!cn
proxy,geoip:telegram
direct,geosite:cn
direct,geoip:cn
".

Definition EnsureRulesFile (fail : option write_call) (partial : bytes) (now : Z) (tmpName path : bytes)
    (fs : fsys) : fsys * res bool :=
  match os_Stat fs path with
  | inl _ => (fs, Ok false)
  | inr ErrPermission => (fs, Err (Wrapf "检查规则文件 %s 失败：%w" (os_err ErrPermission)))
  | inr ErrNotExist =>
      match atomicWriteFile fail partial now tmpName path DefaultRules fs with
      | (_, fs', Ok _) => (fs', Ok true)
      | (_, fs', Err e) => (fs', Err (Wrapf "写入默认规则文件 %s 失败：%w" e))
      | (_, fs', Panic) => (fs', Panic)
      end
  end.

Section Loading.
Context {U : GoUnicode} {C : Crypto}.

Definition LoadRulesFile (fs : fsys) (path : bytes) : res (list Rule) :=
  match os_ReadFile fs path with
  | inr e => Err (Wrapf "读取规则文件 %s 失败：%w" (os_err e))
  | inl data => res_map_err (Wrapf "解析规则文件 %s 失败：%w") (ParseRules data)
  end.

(** [fileState]: the file is looked at twice, [fs1] when [os.Stat] runs and
    [fs2] when [os.ReadFile] does. *)
Definition fileState (fs1 fs2 : fsys) (path : bytes) : (bytes * Z) + os_error :=
  match os_Stat fs1 path with
  | inr e => inr e
  | inl info =>
      match os_ReadFile fs2 path with
      | inr e => inr e
      | inl data => inl (hex_encode (sha256 data), f_mtime info)
      end
  end.

(** The state of the watcher goroutine. *)
Record watcher : Type := mkWatcher { w_hash : bytes; w_mtime : Z }.

(** The baseline taken by [watchRulesFile] before the goroutine starts. *)
Definition watchRulesFile (fs1 fs2 : fsys) (path : bytes) : res watcher :=
  match fileState fs1 fs2 path with
  | inr ErrNotExist => Err (Wrapf "规则文件 %s 不存在（%w）" (os_err ErrNotExist))
  | inr e => Err (Wrapf "读取规则文件 %s 状态失败：%w" (os_err e))
  | inl (hash, mtime) => Ok (mkWatcher hash mtime)
  end.

(** One tick: the new state, and the arguments of [onReload] if it is called. *)
Definition watch_tick (path : bytes) (w : watcher) (fs1 fs2 fs3 : fsys) : watcher * option (res (list Rule)) :=
  match fileState fs1 fs2 path with
  | inr _ => (w, None)
  | inl (nh, nm) =>
      if bool_decide (nh = w_hash w) && (nm =? w_mtime w) then (w, None)
      else (mkWatcher nh nm, Some (LoadRulesFile fs3 path))
  end.

End Loading.

(** * The parser and the printer *)

(** What a parsed rule is. *)
Definition rule_ok (r : Rule) : Prop :=
  validActions (Action r) = true /\
  ((Kind r = KindDefault /\ Value r = []) \/
   (validKinds (Kind r) = true /\ Value r <> [])).

(** At most one rule is a [default:] line. *)
Definition one_default (rules : list Rule) : Prop :=
  (length (List.filter is_default rules) <= 1)%nat.

Section ParserFacts.
Context {U : GoUnicode}.

Lemma validActions_cases a :
  validActions a = true -> a = ActionProxy \/ a = ActionDirect \/ a = ActionReject.
Proof. intros H%bool_decide_eq_true. rewrite !elem_of_cons, elem_of_nil in H. tauto. Qed.

Lemma validKinds_cases k :
  validKinds k = true -> k = KindGeoSite \/ k = KindGeoIP \/ k = KindDomain.
Proof. intros H%bool_decide_eq_true. rewrite !elem_of_cons, elem_of_nil in H. tauto. Qed.

Lemma valid_kind_not_default k : validKinds k = true -> k <> KindDefault.
Proof. by intros [-> | [-> | ->]]%validKinds_cases. Qed.

Lemma parse_default_ok n rest rules r :
  parse_default n rest rules = Ok r ->
  rule_ok r /\ is_default r = true /\ existsb is_default rules = false /\ Value r = [].
Proof.
  unfold parse_default. intros H. go_cases. rewrite negb_false_iff in *.
  split_and!; [|done..]. split; [done|]. by left.
Qed.

Lemma parse_rule_ok n line r :
  parse_rule n line = Ok r -> rule_ok r /\ is_default r = false.
Proof.
  unfold parse_rule. destruct (Cut line c_comma) as [[a c] ok].
  destruct (Cut (TrimSpace c) c_colon) as [[k v] ok']. intros H. go_cases.
  rewrite !negb_false_iff in *. split; [split; [done|right]|]; cbn.
  - split; [done|]. intros Ev. by rewrite Ev in *.
  - apply bool_decide_eq_false. by apply valid_kind_not_default.
Qed.

Lemma filter_none {A} (f : A -> bool) l : existsb f l = false -> List.filter f l = [].
Proof. induction l as [|x l IH]; [done|]; cbn. by destruct (f x). Qed.

(** The line is skipped or adds one well-formed rule. *)
Lemma parse_line_ok n raw rules rules' :
  parse_line n raw rules = Ok rules' ->
  rules' = rules \/
  exists r, rules' = rules ++ [r] /\ rule_ok r /\
    (is_default r = true -> existsb is_default rules = false).
Proof.
  unfold parse_line. intros H. destruct (is_empty _ || HasPrefix _ [c_hash]); [left; by injection H|right].
  unfold CutPrefix in H. destruct (HasPrefix _ _).
  - destruct (parse_default _ _ _) as [r| |] eqn:E; try done. injection H as <-.
    apply parse_default_ok in E as (?&?&?&?). eauto.
  - destruct (parse_rule _ _) as [r| |] eqn:E; try done. injection H as <-.
    apply parse_rule_ok in E as [? E']. exists r. split_and!; [done|done|]. by rewrite E'.
Qed.

Lemma one_default_snoc rules r :
  one_default rules -> (is_default r = true -> existsb is_default rules = false) ->
  one_default (rules ++ [r]).
Proof.
  unfold one_default. intros H1 H2. rewrite List.filter_app, length_app. cbn [List.filter].
  destruct (is_default r); cbn; [|lia]. rewrite (filter_none _ _ (H2 eq_refl)). cbn. lia.
Qed.

Lemma parse_lines_ok lines n rules rules' :
  parse_lines lines n rules = Ok rules' ->
  Forall rule_ok rules -> one_default rules -> Forall rule_ok rules' /\ one_default rules'.
Proof.
  revert n rules. induction lines as [|raw lines IH]; intros n rules H Hok H1; cbn in H.
  { by injection H as <-. }
  destruct (parse_line n raw rules) as [rs| |] eqn:E; try done.
  apply parse_line_ok in E as [-> | (r & -> & Hr & Hd)]; eapply IH; eauto.
  - apply Forall_app. auto.
  - by apply one_default_snoc.
Qed.

(** The values that come from the lines of an ASCII text. *)
Definition value_ok (v : bytes) : Prop := is_ascii v = true /\ trimmed v /\ c_newline ∉ v.

Lemma value_ok_nil : value_ok [].
Proof. split_and!; [done|done|apply not_elem_of_nil]. Qed.

Lemma value_ok_trim v x : is_ascii x = true -> c_newline ∉ x -> (forall c, c ∈ v -> c ∈ x) ->
  value_ok (TrimSpace v).
Proof.
  intros Hx Hn Hv. assert (is_ascii v = true) as Ha.
  { apply is_ascii_elem. intros c Hc. by apply (proj1 (is_ascii_elem x) Hx), Hv. }
  split_and!; [by apply TrimSpace_ascii|by apply TrimSpace_spec|].
  intros H%TrimSpace_elem; [|done]. by apply Hn, Hv.
Qed.

Lemma parse_line_value n raw rules rules' :
  is_ascii raw = true -> c_newline ∉ raw ->
  parse_line n raw rules = Ok rules' ->
  Forall (fun r => value_ok (Value r)) rules -> Forall (fun r => value_ok (Value r)) rules'.
Proof.
  unfold parse_line. intros Ha Hn H Hr. destruct (is_empty _ || HasPrefix _ [c_hash]); [by injection H as <-|].
  unfold CutPrefix in H. destruct (HasPrefix _ _).
  - destruct (parse_default _ _ _) as [r| |] eqn:E; try done. injection H as <-.
    apply parse_default_ok in E as (?&?&?&Ev). apply Forall_app. split; [done|].
    constructor; [|done]. rewrite Ev. apply value_ok_nil.
  - unfold parse_rule in H. destruct (Cut (TrimSpace raw) c_comma) as [[a c] ok] eqn:E1.
    destruct (Cut (TrimSpace c) c_colon) as [[k v] ok'] eqn:E2.
    destruct ok; [|done]. destruct ok'; [|by go_cases].
    go_cases. apply Forall_app. split; [done|]. constructor; [|done]. cbn.
    apply Cut_found in E1 as [E1 _]. apply Cut_found in E2 as [E2 _].
    assert (forall x, x ∈ c -> x ∈ raw) as Hc.
    { intros x Hx. apply TrimSpace_elem; [done|]. rewrite E1. set_solver. }
    apply (value_ok_trim v raw Ha Hn). intros x Hx. apply Hc, TrimSpace_elem.
    + apply is_ascii_elem. intros y Hy. apply (proj1 (is_ascii_elem raw) Ha). by apply Hc.
    + rewrite E2. set_solver.
Qed.

Lemma parse_lines_value lines n rules rules' :
  Forall (fun raw => is_ascii raw = true /\ c_newline ∉ raw) lines ->
  parse_lines lines n rules = Ok rules' ->
  Forall (fun r => value_ok (Value r)) rules -> Forall (fun r => value_ok (Value r)) rules'.
Proof.
  revert n rules. induction lines as [|raw lines IH]; intros n rules Hl H Hr; cbn in H.
  { by injection H as <-. }
  inversion_clear Hl as [|? ? [Ha Hn] Hl']. destruct (parse_line n raw rules) as [rs| |] eqn:E; try done.
  eapply IH; [done|done|]. by eapply parse_line_value.
Qed.

End ParserFacts.

(** * Printed rules are read back *)

Section Printing.
Context {U : GoUnicode}.

Lemma trimmed_app a b : a <> [] -> b <> [] -> trimmed a -> trimmed b -> trimmed (a ++ b).
Proof.
  intros Ha Hb [H1 _] [_ H2]. split.
  - destruct a; [done|]. apply H1.
  - intros d Hd. apply H2. rewrite last_app in Hd. destruct (last b) eqn:E; [done|].
    by apply last_None in E.
Qed.

Lemma is_ascii_app a b : is_ascii (a ++ b) = is_ascii a && is_ascii b.
Proof. apply forallb_app. Qed.

Lemma print_default_parses n r rules :
  rule_ok r -> is_default r = true -> existsb is_default rules = false ->
  parse_line n (print_rule r) rules = Ok (rules ++ [r]).
Proof.
  intros [Ha Hk] Hd Hn. unfold print_rule. rewrite Hd. destruct r as [a k v]; cbn in *.
  apply bool_decide_eq_true in Hd. cbn in Hd. subst k.
  destruct Hk as [[_ ->]|[Hk _]]; [|by apply valid_kind_not_default in Hk].
  unfold parse_line, parse_default.
  apply validActions_cases in Ha as [-> | [-> | ->]]; cbn -[existsb]; by rewrite Hn.
Qed.

Lemma rule_line_text r :
  rule_ok r -> is_default r = false -> value_ok (Value r) ->
  exists p, print_rule r = p ++ Value r /\ is_ascii p = true /\ trimmed p /\ p <> [] /\
    (c_newline ∉ p) /\ HasPrefix (map lower_byte p) default_prefix = false /\
    HasPrefix p [c_hash] = false /\ (8 <= length p)%nat.
Proof.
  intros [Ha Hk] Hd _. destruct r as [a k v]; cbn [Action Kind Value] in *.
  destruct Hk as [[-> _]|[Hk _]]; [done|].
  exists (a ++ c_comma :: k ++ [c_colon]). unfold print_rule. rewrite Hd. cbn [Action Kind Value].
  rewrite <- !app_assoc. cbn [app]. rewrite <- !app_assoc. split; [done|].
  apply validActions_cases in Ha as [-> | [-> | ->]]; apply validKinds_cases in Hk as [-> | [-> | ->]];
    (split_and!; [by vm_compute|by split; vm_compute; intros ? [= <-]|done| |by vm_compute|by vm_compute|cbn; lia]).
    all: apply (bool_decide_unpack _); by vm_compute.
Qed.

Lemma HasPrefix_app_l p v q : (length q <= length p)%nat -> HasPrefix (p ++ v) q = HasPrefix p q.
Proof.
  revert p. induction q as [|x q IH]; intros [|y p] H; cbn in *; try done; try lia.
  rewrite IH by lia. done.
Qed.

Lemma parse_rule_printed n a k v :
  validActions a = true -> validKinds k = true -> v <> [] -> value_ok v ->
  parse_rule n (a ++ c_comma :: k ++ c_colon :: v) = Ok (mkRule a k v).
Proof.
  intros Ha Hk Hne (Hv & Ht & _). unfold parse_rule.
  assert (trimmed k /\ is_ascii k = true /\ k <> [] /\ (c_colon ∉ k) /\ ToLower (TrimSpace k) = k) as (Hk1&Hk2&Hk3&Hk4&Hk5).
  { apply validKinds_cases in Hk as [-> | [-> | ->]];
      (split_and!; [by split; vm_compute; intros ? [= <-]|done|done| |by vm_compute]);
      apply (bool_decide_unpack _); by vm_compute. }
  assert ((c_comma ∉ a) /\ ToLower (TrimSpace a) = a) as [Ha1 Ha2].
  { apply validActions_cases in Ha as [-> | [-> | ->]]; (split; [|by vm_compute]);
      apply (bool_decide_unpack _); by vm_compute. }
  rewrite Cut_app by done. cbn [negb]. rewrite Ha2, Ha. cbn [negb].
  rewrite TrimSpace_trimmed.
  - rewrite Cut_app by done. cbn [negb]. rewrite Hk5, Hk. cbn [negb].
    rewrite TrimSpace_trimmed by done. by destruct v.
  - by rewrite is_ascii_app, Hk2.
  - apply trimmed_app; [done|done|done|]. split; [by intros c [= <-]|]. intros d. destruct Ht as [_ Ht].
    rewrite last_cons. destruct (last v) eqn:E; [intros [= <-]; by apply Ht|by apply last_None in E].
Qed.

Lemma print_rule_parses n r rules :
  rule_ok r -> is_default r = false -> value_ok (Value r) ->
  parse_line n (print_rule r) rules = Ok (rules ++ [r]).
Proof.
  intros Hr Hd Hv. destruct (rule_line_text r Hr Hd Hv) as (p & E & Ha & Ht & Hne & _ & Hp1 & Hp2 & Hl).
  assert (Value r <> []) as Hvne.
  { destruct Hr as [_ [[Hk _]|[_ ?]]]; [|done]. by apply bool_decide_eq_false in Hd. }
  pose proof Hv as (Hva & Hvt & _).
  assert (is_ascii (print_rule r) = true) as Hpa by (rewrite E, is_ascii_app, Ha, Hva; done).
  unfold parse_line. rewrite TrimSpace_trimmed; [|done|by rewrite E; apply trimmed_app].
  rewrite E, HasPrefix_app_l, Hp2 by (cbn; lia).
  assert (is_empty (p ++ Value r) = false) as -> by (by destruct p). cbn [orb].
  unfold CutPrefix, ToLower. rewrite <- E, Hpa, E, map_app, HasPrefix_app_l by (rewrite length_map; cbn; lia).
  rewrite Hp1, <- E. unfold print_rule. rewrite Hd. destruct r as [a k v].
  destruct Hr as [Hact Hk]. cbn [Action Kind Value] in *. destruct Hk as [[-> _]|[Hk _]]; [done|].
  by rewrite parse_rule_printed.
Qed.

Lemma print_rules_parse rs n acc :
  Forall rule_ok rs -> Forall (fun r => value_ok (Value r)) rs -> one_default (acc ++ rs) ->
  parse_lines (map print_rule rs) n acc = Ok (acc ++ rs).
Proof.
  revert n acc. induction rs as [|r rs IH]; intros n acc Hr Hv H1; cbn [map parse_lines].
  { by rewrite app_nil_r. }
  inversion_clear Hr. inversion_clear Hv.
  assert (parse_line n (print_rule r) acc = Ok (acc ++ [r])) as ->.
  { destruct (is_default r) eqn:Hd; [|by apply print_rule_parses]. apply print_default_parses; [done..|].
    unfold one_default in H1. rewrite List.filter_app, length_app in H1. cbn in H1. rewrite Hd in H1. cbn in H1.
    apply not_true_iff_false. intros (x & Hx & Ex)%existsb_exists.
    assert (In x (List.filter is_default acc)) as Hin by (by apply filter_In).
    destruct (List.filter is_default acc); [done|cbn in H1; lia]. }
  cbn [res_bind]. rewrite IH; [by rewrite <- app_assoc|done..|by rewrite <- app_assoc].
Qed.

Lemma print_rule_line r :
  rule_ok r -> value_ok (Value r) -> c_newline ∉ print_rule r.
Proof.
  intros Hr Hv. destruct (is_default r) eqn:Hd.
  - unfold print_rule. rewrite Hd. destruct Hr as [Ha _].
    apply validActions_cases in Ha as [-> | [-> | ->]]; apply (bool_decide_unpack _); by vm_compute.
  - destruct (rule_line_text r Hr Hd Hv) as (p & -> & _ & _ & _ & Hn & _).
    destruct Hv as (_&_&?). apply not_elem_of_app. done.
Qed.

Lemma ParseRules_print rs :
  Forall rule_ok rs -> Forall (fun r => value_ok (Value r)) rs -> one_default rs ->
  ParseRules (print_rules rs) = Ok rs.
Proof.
  intros Hr Hv H1. destruct (decide (rs = [])) as [-> | Hne]; [by vm_compute|].
  unfold ParseRules, print_rules. rewrite Split_Join.
  - by rewrite print_rules_parse.
  - by destruct rs.
  - apply Forall_map. rewrite Forall_forall in Hr, Hv. apply Forall_forall. intros r Hin. cbn.
    apply print_rule_line; auto.
Qed.

(** A failure is at some line, after lines that parse, and names its number. *)
Lemma parse_lines_err lines n rules e :
  parse_lines lines n rules = Err e ->
  exists l1 raw l2 rs f, lines = l1 ++ raw :: l2 /\ parse_lines l1 n rules = Ok rs /\
    parse_line (n + len l1) raw rs = Err e /\ e = Errorf f [n + len l1].
Proof.
  revert n rules. induction lines as [|raw lines IH]; intros n rules H; [done|]. cbn in H.
  destruct (parse_line n raw rules) as [rs|e'|] eqn:E; try done.
  - destruct (IH _ _ H) as (l1 & raw' & l2 & rs' & f & -> & H1 & H2 & H3).
    exists (raw :: l1), raw', l2, rs', f. cbn [parse_lines app]. rewrite E. cbn [res_bind].
    replace (n + len (raw :: l1)) with (n + 1 + len l1) by solve_len. done.
  - injection H as ->. exists [], raw, lines, rules.
    assert (exists f, e = Errorf f [n]) as [f ->].
    { clear IH. unfold parse_line, parse_default, parse_rule in E. destruct (Cut _ c_comma) as [[? ?] ?].
      destruct (Cut _ c_colon) as [[? ?] ?]. go_cases; eauto. }
    exists f. replace (n + len (@nil bytes)) with n by (unfold len; cbn; lia). done.
Qed.

Lemma parse_lines_no_panic lines n rules : parse_lines lines n rules <> Panic.
Proof.
  revert n rules. induction lines as [|raw lines IH]; intros n rules; [done|]. cbn.
  apply res_bind_no_panic; [|done]. unfold parse_line, parse_default, parse_rule.
  destruct (Cut _ c_comma) as [[? ?] ?]. destruct (Cut _ c_colon) as [[? ?] ?]. intros H. go_cases.
Qed.

End Printing.

(** * Replacing the file *)

(** Readers of [path] see the old file until the rename, and a failed write
    leaves the file system as it was. *)
Theorem atomic_write_all_or_nothing (fail : option write_call) (partial : bytes) (now : Z)
    (tmpName path data : bytes) (fs : fsys)
    (Htmp : tmpName <> path) (Hfresh : fs !! tmpName = None) :
  let '(seen, fs', r) := atomicWriteFile fail partial now tmpName path data fs in
  Forall (fun f => f !! path = fs !! path) seen /\
  match fail with
  | None => r = Ok tt /\ fs' = <[path := mkFile data now true]> fs
  | Some _ => fs' = fs /\ exists e, r = Err e
  end.
Proof.
  assert (forall f f', <[tmpName := f']> (<[tmpName := f]> fs) = <[tmpName := f']> fs) as Hii
    by (intros; apply insert_insert_eq).
  assert (forall f, delete tmpName (<[tmpName := f]> fs) = fs) as Hdi by (intros; by apply delete_insert_id).
  assert (forall f, <[tmpName := f]> fs !! path = fs !! path) as Hl by (intros; by apply lookup_insert_ne).
  assert (forall f, delete tmpName (<[path := f]> fs) = <[path := f]> fs) as Hdp
    by (intros; rewrite delete_insert_ne, delete_id by done; done).
  unfold atomicWriteFile. cbv zeta.
  destruct fail as [[]|]; repeat (case_bool_decide; simplify_eq); rewrite ?Hii, ?Hdi, ?Hdp;
    (split; [repeat constructor; by rewrite ?Hl|eauto]).
Qed.

(** What the lines of a text say, apart from the parser: blank lines and comments
    say nothing, every other line one rule. *)
Definition line_meant {U : GoUnicode} (raw : bytes) : bool :=
  negb (is_empty (TrimSpace raw) || HasPrefix (TrimSpace raw) [c_hash]).

Definition line_says {U : GoUnicode} (raw : bytes) (r : Rule) : Prop :=
  let line := TrimSpace raw in
  (exists rest, ToLower line = default_prefix ++ rest /\ r = mkRule (ToLower (TrimSpace rest)) KindDefault []) \/
  HasPrefix (ToLower line) default_prefix = false /\
  exists action cond kind value,
    line = action ++ c_comma :: cond /\ (c_comma ∉ action) /\
    TrimSpace cond = kind ++ c_colon :: value /\ (c_colon ∉ kind) /\
    r = mkRule (ToLower (TrimSpace action)) (ToLower (TrimSpace kind)) (TrimSpace value).

Lemma parse_line_says {U : GoUnicode} n raw rules rules' :
  parse_line n raw rules = Ok rules' ->
  exists rs, rules' = rules ++ rs /\ Forall2 line_says (List.filter line_meant [raw]) rs.
Proof.
  unfold parse_line. cbn [List.filter]. intros H. unfold line_meant.
  destruct (is_empty _ || HasPrefix _ [c_hash]); cbn [negb]; [exists []; injection H as <-; by rewrite app_nil_r|].
  unfold CutPrefix in H. destruct (HasPrefix (ToLower _) _) eqn:Ep.
  - apply HasPrefix_app in Ep as [rest Er]. rewrite Er, drop_app_length in H. unfold parse_default in H.
    destruct (negb _); [done|]. destruct (existsb _ _); [done|]. injection H as <-. eexists. split; [done|].
    constructor; [|constructor]. left. by exists rest.
  - unfold parse_rule in H. destruct (Cut (TrimSpace raw) c_comma) as [[a c] ok] eqn:E1.
    destruct (Cut (TrimSpace c) c_colon) as [[k v] ok'] eqn:E2. destruct ok; [|done]. destruct ok'; [|by go_cases].
    assert (line_says raw (mkRule (ToLower (TrimSpace a)) (ToLower (TrimSpace k)) (TrimSpace v))) as Hs.
    { right. split; [done|]. apply Cut_found in E1 as [E1 N1]. apply Cut_found in E2 as [E2 N2]. exists a, c, k, v. by split_and!. }
    clear Ep. go_cases. eexists. split; [done|]. by constructor; [|constructor].
Qed.

Lemma parse_lines_says {U : GoUnicode} lines n rules rules' :
  parse_lines lines n rules = Ok rules' ->
  exists rs, rules' = rules ++ rs /\ Forall2 line_says (List.filter line_meant lines) rs.
Proof.
  revert n rules. induction lines as [|raw lines IH]; intros n rules H; cbn in H.
  { exists []. injection H as <-. by rewrite app_nil_r. }
  destruct (parse_line n raw rules) as [r1| |] eqn:E; try done.
  apply parse_line_says in E as (rs1 & -> & H1). apply IH in H as (rs2 & -> & H2).
  exists (rs1 ++ rs2). split; [by rewrite app_assoc|]. change (raw :: lines) with ([raw] ++ lines).
  rewrite List.filter_app. by apply Forall2_app.
Qed.

(** C37: [ParseRules] never panics.  The rules it returns are, in order, what the
    lines of the text say, one for each line that is neither blank nor a comment;
    they have a known action and either a known condition with a value or are the
    only [default:] line, and printing the rules of an ASCII text and parsing them
    again gives the same rules.  An error comes from the first line that does not parse and carries its number,
    counted from one. *)
Theorem rules_parser_exact {U : GoUnicode} (text : bytes) :
  match ParseRules text with
  | Ok rs =>
      Forall2 line_says (List.filter line_meant (Split text c_newline)) rs /\ Forall rule_ok rs /\ one_default rs /\
      (is_ascii text = true -> ParseRules (print_rules rs) = Ok rs)
  | Err e =>
      exists l1 raw l2 rs f,
        Split text c_newline = l1 ++ raw :: l2 /\
        parse_lines l1 1 [] = Ok rs /\ parse_line (1 + len l1) raw rs = Err e /\
        e = Errorf f [1 + len l1]
  | Panic => False
  end.
Proof.
  destruct (ParseRules text) as [rs|e|] eqn:E.
  - assert (Forall rule_ok rs /\ one_default rs) as [Hr H1].
    { eapply parse_lines_ok; [exact E|constructor|unfold one_default; cbn; lia]. }
    split_and!; [|done|done|].
    { by apply parse_lines_says in E as (rs' & -> & Hs). }
    intros Ha. apply ParseRules_print; [done| |done].
    eapply parse_lines_value; [|exact E|constructor]. apply Forall_forall. intros raw Hraw. split.
    + apply is_ascii_elem. intros x Hx. apply (proj1 (is_ascii_elem text) Ha). by eapply Split_elem.
    + pose proof (Split_no_sep text c_newline) as Hs. rewrite Forall_forall in Hs. by apply Hs.
  - by apply parse_lines_err in E.
  - by apply parse_lines_no_panic in E.
Qed.

(** The template that is written first, and a text with a bad third line. *)
Lemma rules_parser_exact_witness :
  let U := ascii_only_unicode in
  ParseRules DefaultRules = Ok
    [mkRule ActionReject KindGeoSite (bs "category-ads-all");
     mkRule ActionDirect KindGeoSite (bs "private"); mkRule ActionDirect KindGeoIP (bs "private");
     mkRule ActionProxy KindGeoSite (bs "google"); mkRule ActionProxy KindGeoIP (bs "google");
     mkRule ActionProxy KindGeoSite (bs "geolocation-!cn"); mkRule ActionProxy KindGeoIP (bs "telegram");
     mkRule ActionDirect KindGeoSite (bs "cn"); mkRule ActionDirect KindGeoIP (bs "cn")] /\
  exists rs, ParseRules (bs " proxy , domain: Example.com " ++ [c_newline] ++ bs "DEFAULT: direct") = Ok rs /\
    rs = [mkRule ActionProxy KindDomain (bs "Example.com"); mkRule ActionDirect KindDefault []] /\
    ParseRules (print_rules rs) = Ok rs.
Proof.
  intros U. split; [by vm_compute|].
  set (text := bs " proxy , domain: Example.com " ++ [c_newline] ++ bs "DEFAULT: direct").
  exists [mkRule ActionProxy KindDomain (bs "Example.com"); mkRule ActionDirect KindDefault []].
  assert (ParseRules text = Ok [mkRule ActionProxy KindDomain (bs "Example.com"); mkRule ActionDirect KindDefault []])
    as E by (by vm_compute).
  split; [exact E|]. split; [reflexivity|].
  pose proof (@rules_parser_exact U text) as H. rewrite E in H. destruct H as (_ & _ & _ & H).
  apply H. by vm_compute.
Defined.
