(* ===== verification/GeoData.v ===== *)
(** The geo databases of the route engine: internal/route/geoindex.go,
    geodata.go and builtin_cn.go.  The index of a geosite category, the
    conversion of the decoded files into maps by category, the binary search in
    sorted prefixes, and the built-in table used while no database is loaded.
    The protobuf decoder, the regular expressions and the sorting algorithm are
    parameters. *)

From Stdlib Require Import ZArith Lia Btauto Strings.Byte Sorting.Sorted.
From stdpp Require Import base numbers list gmap sorting.
From S2P Require Import Prelude GoStrings GoNet NetAddr RouteRules.

Local Open Scope Z_scope.
Local Open Scope go_scope.

(** * What the databases are decoded from *)

(** The fields of the messages of routercommon that the loader reads; the
    elements of the lists are pointers. *)
Record Domain : Type := mkDomain { d_Type : Z; d_Value : bytes }.
Record GeoSite : Type := mkGeoSite { site_CountryCode : bytes; site_Domain : list (option Domain) }.
Record CIDR : Type := mkCIDR { cidr_Ip : bytes; cidr_Prefix : Z }.
Record GeoIP : Type := mkGeoIP { ip_CountryCode : bytes; ip_Cidr : list (option CIDR) }.

Definition Domain_Plain : Z := 0.
Definition Domain_Regex : Z := 1.
Definition Domain_RootDomain : Z := 2.
Definition Domain_Full : Z := 3.

(** [proto.Unmarshal] into the two messages. *)
Class GeoProto := {
  unmarshal_GeoSiteList : bytes -> option (list (option GeoSite));
  unmarshal_GeoIPList : bytes -> option (list (option GeoIP));
}.

(** [regexp.Compile] and [MatchString]. *)
Class GoRegexp := {
  Regexp : Type;
  regexp_Compile : bytes -> option Regexp;
  MatchString : Regexp -> bytes -> bool;
}.

(** [sort.Slice]: some order of the elements in which no later one is less. *)
Class GoSort := {
  sort_Slice : forall {A}, (A -> A -> bool) -> list A -> list A;
}.

(** For a comparison that is a strict weak order. *)
Class GoSortOk `{Srt : GoSort} := {
  sort_Slice_perm : forall A (less : A -> A -> bool) (l : list A),
    Permutation l (sort_Slice less l);
  sort_Slice_sorted : forall A (less : A -> A -> bool) (l : list A),
    (forall x y, less x y = true -> less y x = false) ->
    (forall x y z, less y x = false -> less z y = false -> less z x = false) ->
    StronglySorted (fun x y => less y x = false) (sort_Slice less l);
}.

(** Indexing a slice: a panic out of range. *)
Definition elem_at {A} (l : list A) (i : Z) : res A :=
  if i <? 0 then Panic else match l !! Z.to_nat i with Some x => Ok x | None => Panic end.

(** [sort.Search(n, f)]; the distance of the bounds is the fuel. *)
Fixpoint search_loop (fuel : nat) (f : Z -> res bool) (i j : Z) : res Z :=
  match fuel with
  | O => Ok i
  | S fuel' =>
      if i <? j then
        let h := Z.shiftr (i + j) 1 in
        let! b := f h in
        if negb b then search_loop fuel' f (h + 1) j else search_loop fuel' f i h
      else Ok i
  end.

Definition sort_Search (n : Z) (f : Z -> res bool) : res Z := search_loop (Z.to_nat n) f 0 n.

(** * The index of a category *)

(** [domainSuffixMatch] of matcher.go: equal, or a suffix after a dot. *)
Definition domainSuffixMatch (suffix host : bytes) : res bool :=
  if len host <? len suffix then Ok false else
  if bool_decide (host = suffix) then Ok true else
  if negb (HasSuffix host suffix) then Ok false else
  let! c := index host (len host - len suffix - 1) in Ok (chr c_dot c).

Section Index.
Context {R : GoRegexp}.

Record geoIndex : Type := mkIndex {
  suffixes : gset bytes;
  exact : gset bytes;
  plains : list bytes;
  regexes : list Regexp;
}.

Definition index_domain (idx : geoIndex) (d : Domain) : geoIndex :=
  if d_Type d =? Domain_RootDomain then
    mkIndex ({[d_Value d]} ∪ suffixes idx) (exact idx) (plains idx) (regexes idx)
  else if d_Type d =? Domain_Full then
    mkIndex (suffixes idx) ({[d_Value d]} ∪ exact idx) (plains idx) (regexes idx)
  else if d_Type d =? Domain_Plain then
    mkIndex (suffixes idx) (exact idx) (plains idx ++ [d_Value d]) (regexes idx)
  else if d_Type d =? Domain_Regex then
    match regexp_Compile (d_Value d) with
    | Some re => mkIndex (suffixes idx) (exact idx) (plains idx) (regexes idx ++ [re])
    | None => idx
    end
  else idx.

Definition buildGeoIndex (domains : list Domain) : geoIndex :=
  foldl index_domain (mkIndex ∅ ∅ [] []) domains.

(** The loop over the dots of the host: what follows a dot is looked up. *)
Fixpoint match_suffixes (sfx : gset bytes) (host : bytes) : bool :=
  match host with
  | [] => false
  | c :: rest => (chr c_dot c && bool_decide (rest ∈ sfx)) || match_suffixes sfx rest
  end.

Definition index_match (idx : geoIndex) (host : bytes) : bool :=
  if bool_decide (host ∈ exact idx) then true else
  if bool_decide (host ∈ suffixes idx) then true else
  if match_suffixes (suffixes idx) host then true else
  if existsb (Contains host) (plains idx) then true else
  existsb (fun re => MatchString re host) (regexes idx).

Definition domainCount (idx : geoIndex) : Z :=
  Z.of_nat (size (suffixes idx)) + Z.of_nat (size (exact idx)) + len (plains idx) + len (regexes idx).

End Index.

(** * The databases *)

Section Databases.
Context {U : GoUnicode} {P : GeoProto} {R : GoRegexp} {Srt : GoSort}.

Record GeoSiteDB : Type := mkSiteDB {
  site_categories : gmap bytes geoIndex;
  site_path : bytes;
  site_loadedAt : Z;
}.

(** The domains of an entry that are kept, in lower case. *)
Definition entry_domains (ds : list (option Domain)) : list Domain :=
  omap (fun d => match d with
                 | Some d => if is_empty (d_Value d) then None
                             else Some (mkDomain (d_Type d) (ToLower (d_Value d)))
                 | None => None
                 end) ds.

Definition add_site (m : gmap bytes geoIndex) (entry : option GeoSite) : gmap bytes geoIndex :=
  match entry with
  | None => m
  | Some e =>
      if is_empty (site_CountryCode e) then m else
      let domains := entry_domains (site_Domain e) in
      match domains with
      | [] => m
      | _ => <[ToUpper (site_CountryCode e) := buildGeoIndex domains]> m
      end
  end.

Definition geoSiteFromBytes (data src : bytes) (now : Z) : res GeoSiteDB :=
  match unmarshal_GeoSiteList data with
  | None => Err (Errorf "geosite 数据 %s 不是有效的 v2ray protobuf（GeoSiteList）：%w" [])
  | Some list => Ok (mkSiteDB (foldl add_site ∅ list) src now)
  end.

Definition LoadGeoSite (fs : fsys) (path : bytes) (now : Z) : res GeoSiteDB :=
  match os_ReadFile fs path with
  | inr e => Err (Wrapf "读取 geosite 数据 %s 失败：%w" (os_err e))
  | inl data => geoSiteFromBytes data path now
  end.

Definition site_Lookup (db : GeoSiteDB) (name : bytes) : option geoIndex :=
  site_categories db !! ToUpper name.

Definition site_CategoryCount (db : GeoSiteDB) : Z := Z.of_nat (size (site_categories db)).

Record GeoIPDB : Type := mkIPDB {
  ip_categories : gmap bytes (list Prefix);
  ip_path : bytes;
  ip_loadedAt : Z;
}.

(** The prefixes of an entry that are kept, with the host bits cleared. *)
Definition entry_prefixes (cs : list (option CIDR)) : list Prefix :=
  omap (fun c => match c with
                 | Some c =>
                     if is_empty (cidr_Ip c) then None else
                     match AddrFromSlice (cidr_Ip c) with
                     | None => None
                     | Some addr =>
                         let p := PrefixFrom addr (cidr_Prefix c) in
                         if negb (prefix_valid p) then None else Some (Masked p)
                     end
                 | None => None
                 end) cs.

Definition addr_less (p q : Prefix) : bool := bool_decide (addr_compare (p_addr p) (p_addr q) = Lt).

Definition add_ip (m : gmap bytes (list Prefix)) (entry : option GeoIP) : gmap bytes (list Prefix) :=
  match entry with
  | None => m
  | Some e =>
      if is_empty (ip_CountryCode e) then m else
      let prefixes := entry_prefixes (ip_Cidr e) in
      match prefixes with
      | [] => m
      | _ => <[ToUpper (ip_CountryCode e) := sort_Slice addr_less prefixes]> m
      end
  end.

Definition geoIPFromBytes (data src : bytes) (now : Z) : res GeoIPDB :=
  match unmarshal_GeoIPList data with
  | None => Err (Errorf "geoip 数据 %s 不是有效的 v2ray protobuf（GeoIPList）：%w" [])
  | Some list => Ok (mkIPDB (foldl add_ip ∅ list) src now)
  end.

Definition LoadGeoIP (fs : fsys) (path : bytes) (now : Z) : res GeoIPDB :=
  match os_ReadFile fs path with
  | inr e => Err (Wrapf "读取 geoip 数据 %s 失败：%w" (os_err e))
  | inl data => geoIPFromBytes data path now
  end.

Definition ip_Lookup (db : GeoIPDB) (name : bytes) : option (list Prefix) :=
  ip_categories db !! ToUpper name.

(** The scan from position [j - 1] down. *)
Fixpoint scan_back (prefixes : list Prefix) (ip : Addr) (j : nat) : res bool :=
  match j with
  | O => Ok false
  | S j' =>
      let! p := elem_at prefixes (Z.of_nat j') in
      if prefix_contains p ip then Ok true else scan_back prefixes ip j'
  end.

Definition starts_after (prefixes : list Prefix) (ip : Addr) (i : Z) : res bool :=
  let! p := elem_at prefixes i in Ok (bool_decide (addr_compare (p_addr p) ip = Gt)).

Definition search_prefixes (prefixes : list Prefix) (ip : Addr) : res bool :=
  let! i := sort_Search (len prefixes) (starts_after prefixes ip) in
  scan_back prefixes ip (Z.to_nat i).

Definition ip_Contains (db : GeoIPDB) (name : bytes) (ip : Addr) : res bool :=
  match ip_Lookup db name with
  | None => Ok false
  | Some prefixes => search_prefixes prefixes ip
  end.

Definition ip_CategoryCount (db : GeoIPDB) : Z := Z.of_nat (size (ip_categories db)).

Definition ip_PrefixCount (db : GeoIPDB) : Z :=
  map_fold (fun _ ps n => n + len ps) 0 (ip_categories db).

End Databases.

(** * The built-in table *)

Definition builtinCNCIDR : list bytes := map bs [
  "58.32.0.0/13"; "58.48.0.0/13"; "58.192.0.0/11"; "59.32.0.0/13"; "59.64.0.0/12"; "60.0.0.0/11";
  "60.160.0.0/11"; "60.208.0.0/12"; "61.128.0.0/10"; "61.232.0.0/14"; "61.240.0.0/14"; "60.8.0.0/13";
  "60.16.0.0/12"; "60.100.0.0/13"; "60.128.0.0/11"; "101.64.0.0/12"; "101.80.0.0/12"; "101.132.0.0/14";
  "101.144.0.0/12"; "106.16.0.0/12"; "106.32.0.0/12"; "110.64.0.0/10"; "110.176.0.0/12"; "110.192.0.0/11";
  "110.240.0.0/12"; "111.0.0.0/10"; "111.64.0.0/11"; "111.128.0.0/11"; "111.192.0.0/12"; "112.0.0.0/10";
  "112.96.0.0/13"; "112.128.0.0/9"; "113.0.0.0/13"; "113.64.0.0/10"; "113.128.0.0/14"; "113.136.0.0/13";
  "113.204.0.0/14"; "113.224.0.0/12"; "114.80.0.0/12"; "114.104.0.0/13"; "114.112.0.0/14"; "114.216.0.0/13";
  "115.48.0.0/12"; "115.192.0.0/11"; "115.224.0.0/12"; "116.16.0.0/12"; "116.32.0.0/12"; "116.128.0.0/10";
  "116.192.0.0/12"; "116.248.0.0/13"; "117.8.0.0/13"; "117.32.0.0/11"; "117.64.0.0/11"; "117.80.0.0/12";
  "117.128.0.0/10"; "118.64.0.0/12"; "118.112.0.0/13"; "118.192.0.0/12"; "118.224.0.0/12"; "119.32.0.0/12";
  "119.64.0.0/13"; "119.88.0.0/13"; "119.96.0.0/13"; "119.128.0.0/12"; "119.160.0.0/11"; "120.0.0.0/12";
  "120.32.0.0/12"; "120.64.0.0/11"; "120.96.0.0/12"; "120.128.0.0/11"; "120.160.0.0/11"; "120.192.0.0/10";
  "121.8.0.0/13"; "121.32.0.0/12"; "121.60.0.0/14"; "121.64.0.0/12"; "121.204.0.0/14"; "121.224.0.0/12";
  "122.4.0.0/14"; "122.64.0.0/11"; "122.96.0.0/14"; "122.112.0.0/13"; "122.128.0.0/12"; "122.192.0.0/12";
  "122.224.0.0/12"; "123.4.0.0/14"; "123.8.0.0/13"; "123.64.0.0/11"; "123.96.0.0/13"; "123.112.0.0/12";
  "123.128.0.0/12"; "123.144.0.0/12"; "123.160.0.0/12"; "123.184.0.0/13"; "123.232.0.0/14"; "124.20.0.0/14";
  "124.64.0.0/15"; "124.68.0.0/14"; "124.72.0.0/13"; "124.88.0.0/13"; "124.112.0.0/13"; "124.128.0.0/12";
  "124.160.0.0/12"; "124.172.0.0/14"; "124.192.0.0/15"; "124.200.0.0/13"; "124.224.0.0/12"; "125.32.0.0/12";
  "125.40.0.0/13"; "125.64.0.0/11"; "125.104.0.0/12"; "125.112.0.0/12"; "125.208.0.0/12"; "39.64.0.0/11";
  "39.96.0.0/13"; "39.104.0.0/14"; "39.108.0.0/14"; "36.0.0.0/11"; "36.40.0.0/13"; "36.48.0.0/13";
  "36.96.0.0/11"; "36.128.0.0/10"; "39.128.0.0/10"; "39.192.0.0/11"; "111.132.0.0/14"; "112.64.0.0/11";
  "117.100.0.0/14"; "117.120.0.0/13"; "120.196.0.0/13"; "120.208.0.0/13"; "120.216.0.0/13"; "134.96.0.0/15";
  "139.9.0.0/16"; "139.196.0.0/14"; "139.208.0.0/12"; "139.224.0.0/12"; "150.115.0.0/16"; "150.120.0.0/14";
  "150.138.0.0/15"; "182.32.0.0/12"; "182.48.0.0/13"; "182.88.0.0/13"; "182.96.0.0/12"; "182.112.0.0/12";
  "182.128.0.0/11"; "182.144.0.0/12"; "182.200.0.0/13"; "182.240.0.0/13"; "183.0.0.0/10"; "183.64.0.0/13";
  "183.80.0.0/13"; "183.84.0.0/14"; "183.128.0.0/11"; "183.160.0.0/11"; "183.192.0.0/10"; "211.136.0.0/13";
  "218.200.0.0/13"; "218.204.0.0/14"; "221.130.0.0/15"; "221.176.0.0/13"; "223.0.0.0/12"; "223.64.0.0/11";
  "223.96.0.0/12"; "223.112.0.0/12"; "223.120.0.0/13"; "223.128.0.0/12"; "223.144.0.0/12"; "223.160.0.0/12";
  "223.176.0.0/12"; "223.192.0.0/12"; "223.208.0.0/12"; "223.224.0.0/12"; "223.240.0.0/13"; "223.248.0.0/14";
  "162.105.0.0/16"; "166.111.0.0/16"; "202.112.0.0/15"; "202.114.0.0/15"; "202.116.0.0/15"; "202.118.0.0/15";
  "202.119.0.0/15"; "202.120.0.0/13"; "202.192.0.0/12"; "210.28.0.0/14"; "210.32.0.0/12"; "100.64.0.0/10";
  "101.16.0.0/12"; "101.192.0.0/13"; "101.200.0.0/13"; "101.224.0.0/12"; "106.108.0.0/14"; "106.112.0.0/13";
  "106.120.0.0/13"; "116.24.0.0/13"; "118.24.0.0/13"; "118.80.0.0/13"; "119.0.0.0/15"; "119.144.0.0/13";
  "119.28.0.0/15"; "119.29.0.0/16"; "119.96.0.0/13"; "171.8.0.0/13"; "171.80.0.0/12"; "171.104.0.0/13";
  "171.112.0.0/12"; "171.208.0.0/12"; "171.224.0.0/11"; "175.16.0.0/13"; "175.48.0.0/12"; "175.64.0.0/11";
  "175.160.0.0/12"; "175.188.0.0/14"; "180.76.0.0/14"; "180.96.0.0/11"; "180.136.0.0/13"; "180.160.0.0/12";
  "180.184.0.0/14"; "180.200.0.0/13"; "192.144.0.0/14"; "202.96.0.0/16"; "202.97.0.0/16"; "202.98.0.0/16";
  "202.99.0.0/16"; "202.100.0.0/15"; "202.102.0.0/15"; "202.104.0.0/15"; "202.106.0.0/15"; "202.108.0.0/15";
  "202.110.0.0/15"; "203.86.0.0/16"; "203.93.0.0/16"; "203.135.96.0/19"; "210.12.0.0/15"; "210.21.0.0/16";
  "210.22.0.0/16"; "210.51.0.0/16"; "210.52.0.0/15"; "210.72.0.0/14"; "210.80.0.0/15"; "211.64.0.0/13";
  "211.80.0.0/12"; "211.96.0.0/13"; "211.144.0.0/12"; "218.0.0.0/14"; "218.16.0.0/14"; "218.56.0.0/13";
  "218.64.0.0/13"; "218.88.0.0/13"; "218.104.0.0/14"; "218.192.0.0/12"; "218.240.0.0/13"; "219.128.0.0/12";
  "219.216.0.0/13"; "219.232.0.0/13"; "219.248.0.0/13"; "220.112.0.0/13"; "220.160.0.0/11"; "220.192.0.0/12";
  "220.248.0.0/14"; "221.0.0.0/13"; "221.8.0.0/14"; "221.12.0.0/14"; "221.16.0.0/13"; "221.128.0.0/13";
  "221.144.0.0/12"; "221.192.0.0/13"; "221.208.0.0/12"; "221.224.0.0/12"; "222.16.0.0/12"; "222.32.0.0/11";
  "222.64.0.0/11"; "222.126.0.0/15"; "222.128.0.0/12"; "222.168.0.0/13"; "222.176.0.0/12"; "222.192.0.0/11"]%string.

Definition builtinCNPrefixes : list Prefix :=
  omap (fun c => match ParsePrefix c with Some p => Some (Masked p) | None => None end) builtinCNCIDR.

Definition builtinCNContains (ip : Addr) : bool :=
  if negb (IsValid ip) || negb (Is4 ip) then false
  else existsb (fun p => prefix_contains p ip) builtinCNPrefixes.

(** * The index against a linear scan *)

(** [suffix] is the host or follows a dot of it. *)
Definition label_suffix (suffix host : bytes) : bool :=
  bool_decide (host = suffix) || HasSuffix host (c_dot :: suffix).

Lemma domainSuffixMatch_ok suffix host :
  domainSuffixMatch suffix host = Ok (label_suffix suffix host).
Proof.
  unfold domainSuffixMatch, label_suffix. destruct (Z.ltb_spec (len host) (len suffix)) as [Hlt|Hge].
  { rewrite bool_decide_eq_false_2 by (intros ->; lia). cbn [orb]. f_equal. symmetry.
    apply not_true_iff_false. intros [t ->]%HasSuffix_app. solve_len. }
  case_bool_decide as Heq; [done|]. cbn [orb].
  destruct (HasSuffix host suffix) eqn:E; cbn [negb].
  - apply HasSuffix_app in E as [t ->]. destruct t as [|c t _] using rev_ind; [done|].
    replace (len ((t ++ [c]) ++ suffix) - len suffix - 1) with (len t) by solve_len.
    unfold index. rewrite <- app_assoc. cbn [app].
    replace (0 <=? len t) with true by (symmetry; apply Z.leb_le, len_nonneg).
    unfold len. rewrite Nat2Z.id, lookup_app_r, Nat.sub_diag by done. cbn. f_equal.
    destruct (chr c_dot c) eqn:Ec.
    + apply chr_true in Ec as <-. symmetry. apply HasSuffix_app. by exists t.
    + symmetry. apply not_true_iff_false. intros [t' E']%HasSuffix_app. apply chr_false in Ec.
      assert (length t = length t') as Hl by (apply (f_equal length) in E'; rewrite !length_app in E'; cbn in E'; lia).
      apply app_inj_1 in E' as [_ E']; [|done]. congruence.
  - f_equal. symmetry. apply not_true_iff_false. intros [t ->]%HasSuffix_app.
    apply not_true_iff_false in E. apply E, HasSuffix_app. exists (t ++ [c_dot]). by rewrite <- app_assoc.
Qed.

Lemma match_suffixes_spec sfx host :
  match_suffixes sfx host = true <-> exists a rest, host = a ++ c_dot :: rest /\ rest ∈ sfx.
Proof.
  induction host as [|c host IH]; cbn; [split; [done|]; by intros ([]&?&?&?)|].
  rewrite orb_true_iff, andb_true_iff, bool_decide_eq_true, chr_true, IH. split.
  - intros [[<- H]|(a & rest & -> & H)]; [by exists [], host|]. by exists (c :: a), rest.
  - intros ([|y a] & rest & E & H); simplify_eq/=; [by left|]. right. eauto.
Qed.

Section IndexFacts.
Context {R : GoRegexp}.

(** What a rule of a category means. *)
Definition domain_hit (host : bytes) (d : Domain) : bool :=
  if d_Type d =? Domain_RootDomain then label_suffix (d_Value d) host
  else if d_Type d =? Domain_Full then bool_decide (host = d_Value d)
  else if d_Type d =? Domain_Plain then Contains host (d_Value d)
  else if d_Type d =? Domain_Regex then
    match regexp_Compile (d_Value d) with Some re => MatchString re host | None => false end
  else false.

Lemma index_match_or idx host :
  index_match idx host =
  bool_decide (host ∈ exact idx) || (bool_decide (host ∈ suffixes idx) || match_suffixes (suffixes idx) host)
  || existsb (Contains host) (plains idx) || existsb (fun re => MatchString re host) (regexes idx).
Proof. unfold index_match. repeat case_match; rewrite ?orb_true_r; done. Qed.

Lemma suffix_added v sfx host :
  bool_decide (host ∈ ({[v]} ∪ sfx : gset bytes)) || match_suffixes ({[v]} ∪ sfx) host =
  (bool_decide (host ∈ sfx) || match_suffixes sfx host) || label_suffix v host.
Proof.
  apply eq_true_iff_eq. unfold label_suffix.
  rewrite !orb_true_iff, !bool_decide_eq_true, !match_suffixes_spec, HasSuffix_app.
  setoid_rewrite elem_of_union. setoid_rewrite elem_of_singleton.
  split; [intros [[->|?]|(?&?&->&[->|?])]|intros [[?|(?&?&->&?)]|[->|[t ->]]]]; eauto 10.
Qed.

Lemma index_domain_match idx d host :
  index_match (index_domain idx d) host = index_match idx host || domain_hit host d.
Proof.
  rewrite !index_match_or. unfold index_domain, domain_hit.
  destruct (d_Type d =? Domain_RootDomain); [|destruct (d_Type d =? Domain_Full);
    [|destruct (d_Type d =? Domain_Plain); [|destruct (d_Type d =? Domain_Regex);
       [destruct (regexp_Compile (d_Value d))|]]]]; cbn [suffixes exact plains regexes].
  - rewrite suffix_added. btauto.
  - assert (bool_decide (host ∈ ({[d_Value d]} ∪ exact idx : gset bytes)) =
            bool_decide (host = d_Value d) || bool_decide (host ∈ exact idx)) as ->
      by (apply eq_true_iff_eq; rewrite orb_true_iff, !bool_decide_eq_true; set_solver).
    btauto.
  - rewrite existsb_app. cbn [existsb]. btauto.
  - rewrite existsb_app. cbn [existsb]. btauto.
  - btauto.
  - btauto.
Qed.

Lemma buildGeoIndex_match ds host :
  index_match (buildGeoIndex ds) host = existsb (domain_hit host) ds.
Proof.
  unfold buildGeoIndex.
  assert (forall idx, index_match (foldl index_domain idx ds) host =
                      index_match idx host || existsb (domain_hit host) ds) as H.
  { induction ds as [|d ds IH]; intros idx; cbn [foldl existsb]; [by rewrite orb_false_r|].
    rewrite IH, index_domain_match. by rewrite orb_assoc. }
  rewrite H, index_match_or. cbn [exact suffixes plains regexes existsb].
  rewrite !bool_decide_eq_false_2 by apply not_elem_of_empty.
  assert (match_suffixes ∅ host = false) as ->; [|done].
  apply not_true_iff_false. rewrite match_suffixes_spec.
  intros (? & ? & _ & H'). by apply not_elem_of_empty in H'.
Qed.

End IndexFacts.

(** * Categories: the last entry of a name counts *)

(** The value of the last element that [f] maps to the key. *)
Definition last_of {E V} (f : E -> option (bytes * V)) (key : bytes) (l : list E) : option V :=
  foldl (fun acc e => match f e with
                      | Some (k, v) => if bool_decide (k = key) then Some v else acc
                      | None => acc
                      end) None l.

Lemma foldl_insert {E V} (f : E -> option (bytes * V)) (add : gmap bytes V -> E -> gmap bytes V) key l :
  (forall m e, add m e = match f e with Some (k, v) => <[k := v]> m | None => m end) ->
  foldl add ∅ l !! key = last_of f key l.
Proof.
  intros Hadd. unfold last_of. induction l as [|e l IH] using rev_ind; [done|].
  rewrite !foldl_app. cbn [foldl]. rewrite Hadd. destruct (f e) as [[k v]|]; [|done].
  case_bool_decide; [subst; by rewrite lookup_insert_eq|by rewrite lookup_insert_ne].
Qed.

(** * Binary search *)

(** The loop finds the border of a monotone predicate, whatever the fuel above
    the distance of its bounds. *)
Lemma search_loop_border (b : Z) (f : Z -> res bool) fuel i j :
  0 <= i -> i <= b <= j -> (Z.to_nat (j - i) <= fuel)%nat ->
  (forall k, i <= k < j -> f k = Ok (b <=? k)) ->
  search_loop fuel f i j = Ok b.
Proof.
  revert i j. induction fuel as [|fuel IH]; intros i j Hi Hb Hf Hk; cbn [search_loop]; [f_equal; lia|].
  destruct (Z.ltb_spec i j) as [Hij|Hij]; [|f_equal; lia]. cbv zeta.
  assert (i <= Z.shiftr (i + j) 1 < j) as Hh.
  { rewrite Z.shiftr_div_pow2 by lia. change (2 ^ 1) with 2.
    split; [apply Z.div_le_lower_bound; lia|apply Z.div_lt_upper_bound; lia]. }
  rewrite Hk by done. cbn [res_bind]. destruct (Z.leb_spec b (Z.shiftr (i + j) 1)); cbn [negb];
    (apply IH; [lia|lia|lia|intros k Hk'; apply Hk; lia]).
Qed.

Lemma sort_Search_border n f b :
  0 <= b <= n -> (forall k, 0 <= k < n -> f k = Ok (b <=? k)) -> sort_Search n f = Ok b.
Proof. intros Hb Hk. apply search_loop_border; [lia|done|lia|done]. Qed.

Lemma elem_at_ok {A} (l : list A) i x : l !! i = Some x -> elem_at l (Z.of_nat i) = Ok x.
Proof. intros H. unfold elem_at. destruct (Z.ltb_spec (Z.of_nat i) 0); [lia|]. by rewrite Nat2Z.id, H. Qed.

(** The prefixes of a category are cleared of host bits and have no zone. *)
Definition clean_prefix (p : Prefix) : Prop :=
  prefix_valid p = true /\ Masked p = p.

(** An address in a prefix is not before its start. *)
Lemma contains_start p ip :
  clean_prefix p -> prefix_contains p ip = true -> addr_compare (p_addr p) ip <> Gt.
Proof.
  intros [Hv Hm] H. unfold prefix_contains in H. rewrite !andb_true_iff in H.
  destruct H as [[[[_ Hz] _] Hb] Hx]. apply Z.eqb_eq in Hb, Hx. apply bool_decide_eq_true in Hz.
  unfold addr_compare. rewrite Hb, Z.compare_refl, Hz.
  assert (addr_zone (p_addr p) = []) as ->.
  { unfold prefix_valid in Hv. destruct (p_addr p); try done. cbn.
    apply andb_true_iff in Hv as [_ Hv]. by apply bool_decide_eq_true in Hv. }
  assert (addr_val (p_addr p) <= addr_val ip) as Hle.
  { set (k := BitLen ip - p_bits p) in *.
    assert (0 <= k) as Hk.
    { unfold k. rewrite <- Hb. unfold prefix_valid in Hv. destruct (p_addr p); cbn in *; lia. }
    rewrite Z.shiftr_lxor, Z.lxor_eq_0_iff in Hx.
    apply (f_equal p_addr), (f_equal addr_val) in Hm. cbn in Hm. rewrite Hb in Hm. fold k in Hm.
    assert (addr_val (p_addr p) = Z.shiftl (Z.shiftr (addr_val ip) k) k) as ->.
    { rewrite Hx. rewrite <- Hm at 1. unfold prefix_valid in Hv. by destruct (p_addr p). }
    rewrite Z.shiftl_mul_pow2, Z.shiftr_div_pow2 by done. rewrite Z.mul_comm.
    apply Z.mul_div_le. apply Z.pow_pos_nonneg; lia. }
  destruct (Z.compare_spec (addr_val (p_addr p)) (addr_val ip)); [done|done|lia].
Qed.

Lemma bytes_compare_gt a b c :
  bytes_compare a b = Gt -> bytes_compare c a <> Lt -> bytes_compare c b = Gt.
Proof.
  revert a b. induction c as [|z c IH]; intros [|x a] [|y b] H1 H2; cbn in *; try done.
  destruct (Z.compare_spec (b2z x) (b2z y)), (Z.compare_spec (b2z z) (b2z x));
    destruct (Z.compare_spec (b2z z) (b2z y)); try done; try lia. eauto.
Qed.

Lemma addr_compare_gt a b c :
  addr_compare a b = Gt -> addr_compare c a <> Lt -> addr_compare c b = Gt.
Proof.
  unfold addr_compare. intros H1 H2.
  destruct (Z.compare_spec (BitLen a) (BitLen b)), (Z.compare_spec (BitLen c) (BitLen a)),
    (Z.compare_spec (BitLen c) (BitLen b)); try done; try lia.
  destruct (Z.compare_spec (addr_val a) (addr_val b)), (Z.compare_spec (addr_val c) (addr_val a)),
    (Z.compare_spec (addr_val c) (addr_val b)); try done; try lia.
  by eapply bytes_compare_gt.
Qed.

Lemma bytes_compare_opp a b : bytes_compare b a = CompOpp (bytes_compare a b).
Proof.
  revert b. induction a as [|x a IH]; intros [|y b]; cbn; try done.
  rewrite (Z.compare_antisym (b2z x)). destruct (b2z x ?= b2z y); cbn; [apply IH|done..].
Qed.

Lemma addr_compare_opp a b : addr_compare b a = CompOpp (addr_compare a b).
Proof.
  unfold addr_compare. rewrite (Z.compare_antisym (BitLen a)). destruct (BitLen a ?= BitLen b); cbn; [|done..].
  rewrite (Z.compare_antisym (addr_val a)). destruct (addr_val a ?= addr_val b); cbn; [|done..].
  apply bytes_compare_opp.
Qed.

Lemma addr_less_asym p q : addr_less p q = true -> addr_less q p = false.
Proof.
  unfold addr_less. rewrite bool_decide_eq_true, bool_decide_eq_false, addr_compare_opp.
  intros H1 H2. by rewrite H2 in H1.
Qed.

Lemma addr_less_weak p q r : addr_less q p = false -> addr_less r q = false -> addr_less r p = false.
Proof.
  unfold addr_less. rewrite !bool_decide_eq_false. intros H1 H2 H3.
  pose proof (addr_compare_opp (p_addr r) (p_addr p)) as Ho. rewrite H3 in Ho. cbn in Ho.
  destruct (decide (addr_compare (p_addr q) (p_addr p) = Gt)) as [Hg|Hg].
  - pose proof (addr_compare_gt _ _ _ Hg H2). congruence.
  - assert (addr_compare (p_addr p) (p_addr r) = Gt -> addr_compare (p_addr q) (p_addr r) = Gt) as Hq
      by (intros; by eapply addr_compare_gt).
    specialize (Hq Ho). pose proof (addr_compare_opp (p_addr q) (p_addr r)) as Ho'. rewrite Hq in Ho'. done.
Qed.

(** * The search against a linear scan *)

Lemma border_exists {A} (g : A -> bool) l :
  StronglySorted (fun x y => g x = true -> g y = true) l ->
  exists b, (b <= length l)%nat /\ forall k x, l !! k = Some x -> g x = (Z.of_nat b <=? Z.of_nat k).
Proof.
  induction 1 as [|x l Hs (b & Hb & IH) Hx]; [by exists O|]. destruct (g x) eqn:Eg.
  - exists O. split; [lia|]. intros k y Hk. replace (Z.of_nat 0 <=? Z.of_nat k) with true by (symmetry; apply Z.leb_le; lia).
    destruct k; [by simplify_eq/=|]. rewrite Forall_forall in Hx. eapply Hx; [|done].
    by eapply list_elem_of_lookup_2.
  - exists (S b). split; [cbn; lia|]. intros [|k] y Hk; simplify_eq/=; [rewrite Eg; symmetry; apply Z.leb_gt; lia|].
    rewrite (IH k y Hk). destruct (Z.leb_spec (Z.of_nat b) (Z.of_nat k)); symmetry; [apply Z.leb_le|apply Z.leb_gt]; lia.
Qed.

Lemma scan_back_spec l ip j :
  (j <= length l)%nat -> scan_back l ip j = Ok (existsb (fun p => prefix_contains p ip) (take j l)).
Proof.
  induction j as [|j IH]; intros Hj; [done|]. cbn [scan_back].
  destruct (lookup_lt_is_Some_2 l j) as [p Hp]; [lia|]. rewrite (elem_at_ok _ _ _ Hp). cbn [res_bind].
  rewrite (take_S_r _ _ _ Hp), existsb_app, IH by lia. cbn [existsb].
  destruct (prefix_contains p ip); f_equal; by rewrite ?orb_true_r, ?orb_false_r.
Qed.

Lemma search_prefixes_exact l ip :
  Forall clean_prefix l -> StronglySorted (fun p q => addr_less q p = false) l ->
  search_prefixes l ip = Ok (existsb (fun p => prefix_contains p ip) l).
Proof.
  intros Hc Hs. set (g := fun p => bool_decide (addr_compare (p_addr p) ip = Gt)).
  destruct (border_exists g l) as (b & Hb & Hg).
  { clear Hc. induction Hs as [|p l Hs IH Hp]; constructor; [done|]. eapply Forall_impl; [exact Hp|].
    intros q Hpq%bool_decide_eq_false. unfold g. rewrite !bool_decide_eq_true. intros; by eapply addr_compare_gt. }
  unfold search_prefixes. rewrite (sort_Search_border _ _ (Z.of_nat b)).
  2: { unfold len. lia. }
  2: { intros k Hk. destruct (lookup_lt_is_Some_2 l (Z.to_nat k)) as [p Hp]; [unfold len in Hk; lia|].
       unfold starts_after. rewrite <- (Z2Nat.id k) by lia. rewrite (elem_at_ok _ _ _ Hp). cbn [res_bind].
       f_equal. by apply Hg. }
  cbn [res_bind]. rewrite Nat2Z.id, scan_back_spec by done. f_equal.
  rewrite <- (take_drop b l) at 2. rewrite existsb_app.
  assert (existsb (fun p => prefix_contains p ip) (drop b l) = false) as ->; [|by rewrite orb_false_r].
  apply not_true_iff_false. intros (p & Hin & Hp)%existsb_exists.
  apply list_elem_of_In, list_elem_of_lookup in Hin as [k Hk]. rewrite lookup_drop in Hk.
  apply contains_start in Hp; [|by eapply Forall_lookup_1]. apply Hp.
  specialize (Hg _ _ Hk). unfold g in Hg. apply (bool_decide_eq_true_1 _). rewrite Hg. apply Z.leb_le. lia.
Qed.

Section DatabaseFacts.
Context {U : GoUnicode} {P : GeoProto} {R : GoRegexp} {Srt : GoSort} {SrtOk : GoSortOk}.

(** The category and the kept contents of an entry; [None] if it is skipped. *)
Definition site_entry (e : option GeoSite) : option (bytes * list Domain) :=
  match e with
  | Some e => if is_empty (site_CountryCode e) || bool_decide (entry_domains (site_Domain e) = []) then None
              else Some (ToUpper (site_CountryCode e), entry_domains (site_Domain e))
  | None => None
  end.

Definition ip_entry (e : option GeoIP) : option (bytes * list Prefix) :=
  match e with
  | Some e => if is_empty (ip_CountryCode e) || bool_decide (entry_prefixes (ip_Cidr e) = []) then None
              else Some (ToUpper (ip_CountryCode e), entry_prefixes (ip_Cidr e))
  | None => None
  end.

Definition on_snd {A B} (f : A -> B) (x : bytes * A) : bytes * B := (fst x, f (snd x)).

Lemma last_of_map {E A B} (f : E -> option (bytes * A)) (g : A -> B) key l :
  last_of (fun e => on_snd g <$> f e) key l = g <$> last_of f key l.
Proof.
  unfold last_of. induction l as [|e l IH] using rev_ind; [done|]. rewrite !foldl_app. cbn [foldl].
  destruct (f e) as [[k a]|]; cbn; [|done]. by case_bool_decide.
Qed.

Lemma add_site_entry m e :
  add_site m e = match on_snd buildGeoIndex <$> site_entry e with Some (k, v) => <[k := v]> m | None => m end.
Proof.
  destruct e as [e|]; cbn; [|done]. destruct (is_empty _); cbn; [done|].
  case_bool_decide as Hd; [by rewrite Hd|]. by destruct (entry_domains _).
Qed.

Lemma add_ip_entry m e :
  add_ip m e = match on_snd (sort_Slice addr_less) <$> ip_entry e with Some (k, v) => <[k := v]> m | None => m end.
Proof.
  destruct e as [e|]; cbn; [|done]. destruct (is_empty _); cbn; [done|].
  case_bool_decide as Hd; [by rewrite Hd|]. by destruct (entry_prefixes _).
Qed.

Lemma entry_prefixes_clean cs : Forall clean_prefix (entry_prefixes cs).
Proof.
  apply Forall_forall. intros p (c & _ & Hc)%list_elem_of_omap.
  destruct c as [c|]; [|done]. destruct (is_empty _); [done|]. destruct (AddrFromSlice _) as [a|]; [|done].
  cbv zeta in Hc. set (q := PrefixFrom a (cidr_Prefix c)) in *.
  destruct (prefix_valid q) eqn:Hv; [|done]. cbn [negb] in Hc. injection Hc as <-.
  clearbody q. unfold clean_prefix.
  assert (0 <= BitLen (p_addr q) - p_bits q) as Hk.
  { unfold prefix_valid in Hv. destruct (p_addr q); cbn in *; lia. }
  assert (forall v, BitLen (with_val (p_addr q) v) = BitLen (p_addr q)) as Hb by (by intros; destruct (p_addr q)).
  split.
  - unfold prefix_valid in *. unfold Masked. cbn [p_addr p_bits].
    destruct (p_addr q); cbn [with_val]; done.
  - unfold Masked. cbn. rewrite Hb. f_equal. set (k := BitLen (p_addr q) - p_bits q) in *.
    assert (forall v, Z.shiftl (Z.shiftr (Z.shiftl (Z.shiftr v k) k) k) k = Z.shiftl (Z.shiftr v k) k) as Hs.
    { intros v. f_equal. rewrite Z.shiftr_shiftl_l, Z.sub_diag, Z.shiftl_0_r by lia. done. }
    destruct (p_addr q); cbn; by rewrite ?Hs.
Qed.

Lemma last_of_forall {E V} (f : E -> option (bytes * V)) (Q : V -> Prop) key l v :
  (forall e k w, f e = Some (k, w) -> Q w) -> last_of f key l = Some v -> Q v.
Proof.
  intros Hf. unfold last_of. revert v. induction l as [|e l IH] using rev_ind; [done|]. intros v.
  rewrite foldl_app. cbn [foldl]. destruct (f e) as [[k w]|] eqn:E'; [|apply IH].
  case_bool_decide; [intros [= <-]; by eapply Hf|apply IH].
Qed.

Lemma ip_entry_clean e k ps : ip_entry e = Some (k, ps) -> Forall clean_prefix ps.
Proof.
  destruct e as [e|]; cbn; [|done]. destruct (_ || _); [done|]. intros [= _ <-]. apply entry_prefixes_clean.
Qed.

Lemma existsb_perm {A} (f : A -> bool) l l' : Permutation l l' -> existsb f l = existsb f l'.
Proof. induction 1; cbn; btauto || congruence. Qed.

End DatabaseFacts.

(** * Instances for concrete runs *)

(** A merge sort keeps the contract of [sort.Slice]. *)
Definition merge_GoSort : GoSort := {|
  sort_Slice := fun A less l => 
    @merge_sort A (fun x y => less y x = false) (fun x y => decide (less y x = false)) l
|}.

Lemma merge_GoSortOk : @GoSortOk merge_GoSort.
Proof.
  split; cbn [sort_Slice merge_GoSort].
  - intros A less l. symmetry. apply merge_sort_Permutation.
  - intros A less l Hasym Htrans.
    assert (Total (fun x y : A => less y x = false)).
    { intros x y. destruct (less y x) eqn:E; [right; by apply Hasym|by left]. }
    assert (Transitive (fun x y : A => less y x = false)) by (intros x y z; apply Htrans).
    by apply StronglySorted_merge_sort.
Qed.

(** Every regular expression is read as a substring. *)
Definition plain_GoRegexp : GoRegexp := {|
  Regexp := bytes;
  regexp_Compile := fun s => if is_empty s then None else Some s;
  MatchString := fun re host => Contains host re;
|}.

(** A decoder that knows one file of each kind. *)
Definition sample_GeoProto : GeoProto := {|
  unmarshal_GeoSiteList := fun data =>
    if bool_decide (data = bs "site") then
      Some [Some (mkGeoSite (bs "google") [Some (mkDomain Domain_Full (bs "old.example"))]);
            None;
            Some (mkGeoSite (bs "Google")
              [Some (mkDomain Domain_RootDomain (bs "Google.com")); None;
               Some (mkDomain Domain_Full (bs "g.co")); Some (mkDomain Domain_Plain (bs "gstatic"))]);
            Some (mkGeoSite (bs "cn") [Some (mkDomain Domain_RootDomain (bs "cn"))])]
    else None;
  unmarshal_GeoIPList := fun data =>
    if bool_decide (data = bs "ip") then
      Some [Some (mkGeoIP (bs "private")
              [Some (mkCIDR (be_put 4 3232235777) 16); Some (mkCIDR (be_put 4 167772160) 8);
               Some (mkCIDR (be_put 16 (252 * 2 ^ 120)) 7); Some (mkCIDR (be_put 3 1) 8)]);
            Some (mkGeoIP (bs "cn") [Some (mkCIDR (be_put 4 16777216) 24)])]
    else None;
|}.

(** * Theorems *)

Section Theorems.
Context {U : GoUnicode} {P : GeoProto} {R : GoRegexp} {Srt : GoSort} {SrtOk : GoSortOk}.

Lemma site_Lookup_last data src now db list name :
  unmarshal_GeoSiteList data = Some list -> geoSiteFromBytes data src now = Ok db ->
  site_Lookup db name = buildGeoIndex <$> last_of site_entry (ToUpper name) list.
Proof.
  intros Hl Hdb. unfold geoSiteFromBytes in Hdb. rewrite Hl in Hdb. injection Hdb as <-.
  unfold site_Lookup. cbn [site_categories]. rewrite <- last_of_map. apply foldl_insert. apply add_site_entry.
Qed.

Lemma ip_Lookup_last data src now db list name :
  unmarshal_GeoIPList data = Some list -> geoIPFromBytes data src now = Ok db ->
  ip_Lookup db name = sort_Slice addr_less <$> last_of ip_entry (ToUpper name) list.
Proof.
  intros Hl Hdb. unfold geoIPFromBytes in Hdb. rewrite Hl in Hdb. injection Hdb as <-.
  unfold ip_Lookup. cbn [ip_categories]. rewrite <- last_of_map. apply foldl_insert. apply add_ip_entry.
Qed.

Lemma sorted_search ps ip :
  Forall clean_prefix ps ->
  search_prefixes (sort_Slice addr_less ps) ip = Ok (existsb (fun p => prefix_contains p ip) ps).
Proof.
  intros Hc. pose proof (sort_Slice_perm _ addr_less ps) as Hp.
  rewrite search_prefixes_exact.
  - f_equal. symmetry. by apply existsb_perm.
  - by rewrite <- Hp.
  - apply sort_Slice_sorted; [apply addr_less_asym|intros x y z; apply addr_less_weak].
Qed.

(** A category of a loaded geosite file is the last entry of that name, whatever
    the case of the name, that has a domain; its index matches a host exactly
    when some domain of the entry does by a linear scan: the host equal to or a
    subdomain of a root domain (what [domainSuffixMatch] decides), equal to a
    full one, containing a plain one or matching an expression that compiles. *)
Theorem geosite_index_exact (data src : bytes) (now : Z) (db : GeoSiteDB) (list : list (option GeoSite))
    (Hl : unmarshal_GeoSiteList data = Some list) (Hdb : geoSiteFromBytes data src now = Ok db)
    (name host : bytes) :
  (forall suffix, domainSuffixMatch suffix host = Ok (label_suffix suffix host)) /\
  match site_Lookup db name, last_of site_entry (ToUpper name) list with
  | Some idx, Some ds => index_match idx host = existsb (domain_hit host) ds
  | None, None => True
  | _, _ => False
  end.
Proof.
  split; [intros; apply domainSuffixMatch_ok|].
  rewrite (site_Lookup_last data src now db list name Hl Hdb).
  destruct (last_of _ _ _); cbn; [|done]. apply buildGeoIndex_match.
Qed.

(** [Contains] on a loaded geoip file never panics and answers whether some
    prefix of the last entry of that name contains the address: sorting, the
    binary search for the last start not after the address and the backward
    scan lose nothing, whichever order [sort.Slice] gives equal starts. *)
Theorem geoip_search_exact (data src : bytes) (now : Z) (db : GeoIPDB) (list : list (option GeoIP))
    (Hl : unmarshal_GeoIPList data = Some list) (Hdb : geoIPFromBytes data src now = Ok db)
    (name : bytes) (ip : Addr) :
  ip_Contains db name ip =
  Ok match last_of ip_entry (ToUpper name) list with
     | Some ps => existsb (fun p => prefix_contains p ip) ps
     | None => false
     end.
Proof.
  unfold ip_Contains. rewrite (ip_Lookup_last data src now db list name Hl Hdb).
  destruct (last_of ip_entry _ list) as [ps|] eqn:E; cbn; [|done]. apply sorted_search.
  eapply last_of_forall; [|exact E]. apply ip_entry_clean.
Qed.

End Theorems.

(** The second entry named google replaces the first. *)
Lemma geosite_index_exact_witness :
  exists db, @geoSiteFromBytes ascii_only_unicode sample_GeoProto plain_GoRegexp (bs "site") (bs "mem") 0 = Ok db /\
    match @site_Lookup ascii_only_unicode plain_GoRegexp db (bs "gOOgle") with
    | Some idx => index_match idx (bs "www.google.com") = true /\ index_match idx (bs "old.example") = false
    | None => False
    end.
Proof.
  eexists. split; [reflexivity|].
  pose proof (@geosite_index_exact ascii_only_unicode sample_GeoProto plain_GoRegexp
    (bs "site") (bs "mem") 0 _ _ eq_refl eq_refl (bs "gOOgle")) as H.
  destruct (site_Lookup _ _) as [idx|]; [|destruct (H []) as [_ H']; by vm_compute in H'].
  destruct (H (bs "www.google.com")) as [_ ->]. destruct (H (bs "old.example")) as [_ ->].
  split; by vm_compute.
Defined.

(** 192.168.7.7 is private, 11.0.0.1 and the mapped form of 10.0.0.1 are not. *)
Lemma geoip_search_exact_witness :
  exists db, @geoIPFromBytes ascii_only_unicode sample_GeoProto merge_GoSort (bs "ip") (bs "mem") 0 = Ok db /\
    @ip_Contains ascii_only_unicode db (bs "Private") (Addr4 3232237319) = Ok true /\
    @ip_Contains ascii_only_unicode db (bs "Private") (Addr4 184549377) = Ok false /\
    @ip_Contains ascii_only_unicode db (bs "Private") (Addr6 281470849646593 []) = Ok false.
Proof.
  eexists. split; [reflexivity|].
  pose proof (@geoip_search_exact ascii_only_unicode sample_GeoProto merge_GoSort merge_GoSortOk
    (bs "ip") (bs "mem") 0 _ _ eq_refl eq_refl (bs "Private")) as H.
  rewrite !H. split_and!; by vm_compute.
Defined.

(** * The built-in table *)

Lemma prefix_contains_Masked p ip :
  prefix_valid p = true -> prefix_contains (Masked p) ip = prefix_contains p ip.
Proof.
  intros Hv. unfold prefix_contains.
  assert (BitLen (p_addr (Masked p)) = BitLen (p_addr p)) as -> by (cbn; by destruct (p_addr p)).
  assert (prefix_valid (Masked p) = prefix_valid p) as ->.
  { unfold prefix_valid. cbn [p_addr p_bits Masked]. by destruct (p_addr p). }
  cbn [p_bits Masked p_addr].
  destruct (Z.eqb_spec (BitLen (p_addr p)) (BitLen ip)) as [Hb|Hb]; [|by rewrite !andb_false_r].
  f_equal. rewrite !Z.shiftr_lxor. set (k := BitLen ip - p_bits p).
  assert (0 <= k) as Hk.
  { unfold k. rewrite <- Hb. unfold prefix_valid in Hv. destruct (p_addr p); cbn in *; lia. }
  assert (addr_val (with_val (p_addr p) (Z.shiftl (Z.shiftr (addr_val (p_addr p)) (BitLen (p_addr p) - p_bits p)) (BitLen (p_addr p) - p_bits p)))
          = Z.shiftl (Z.shiftr (addr_val (p_addr p)) k) k) as ->.
  { rewrite Hb. fold k. unfold prefix_valid in Hv. by destruct (p_addr p). }
  rewrite Z.shiftr_shiftl_l, Z.sub_diag, Z.shiftl_0_r by lia. done.
Qed.

Lemma ParsePrefix_valid s p : ParsePrefix s = Some p -> prefix_valid p = true.
Proof.
  unfold ParsePrefix. intros H. destruct (_ <? 0); [done|].
  destruct (ParseAddr _) as [a|] eqn:Ea; [|done]. destruct (negb _); [done|]. destruct (match _ with [] => _ | _ => _ end); [done|].
  destruct (Atoi _) as [bits|]; [|done]. destruct (_ || _) eqn:Eb; [done|]. injection H as <-.
  apply orb_false_iff in Eb as [Eb1 Eb2]. unfold prefix_valid, PrefixFrom. cbn [p_addr p_bits].
  destruct a; cbn [BitLen] in Eb2.
  - unfold ParseAddr in Ea. exfalso. go_cases. unfold parseIPv6 in *. go_cases.
  - lia.
  - rewrite bool_decide_eq_true_2 by done. lia.
Qed.

(** A block whose address has bits beyond its length. *)
Definition has_host_bits (c : bytes) : bool :=
  match ParsePrefix c with
  | Some p => negb (addr_val (p_addr (Masked p)) =? addr_val (p_addr p))
  | None => false
  end.

(** Every line of the built-in table parses, an IPv4 address is in it when it is
    in some block of the table, and four blocks are written with host bits: they
    start before the address they name. *)
Theorem builtin_table_exact (ip : Addr) :
  (builtinCNContains ip = true <->
   Is4 ip = true /\
   exists c p, In c builtinCNCIDR /\ ParsePrefix c = Some p /\ prefix_contains p ip = true) /\
  forallb (fun c => bool_decide (is_Some (ParsePrefix c))) builtinCNCIDR = true /\
  List.filter has_host_bits builtinCNCIDR =
    map bs ["60.100.0.0/13"; "125.104.0.0/12"; "120.196.0.0/13"; "202.119.0.0/15"]%string.
Proof.
  split; [|split; by vm_compute]. unfold builtinCNContains, builtinCNPrefixes.
  destruct (Is4 ip) eqn:H4; [|rewrite orb_true_r; split; [done|by intros []]].
  assert (IsValid ip = true) as -> by (by destruct ip). cbn [negb orb].
  rewrite existsb_exists. split.
  - intros (q & Hin & Hq). split; [done|]. apply list_elem_of_In, list_elem_of_omap in Hin as (c & Hc & E).
    destruct (ParsePrefix c) as [p|] eqn:Ep; [|done]. injection E as <-. exists c, p.
    rewrite prefix_contains_Masked in Hq by (by eapply ParsePrefix_valid). by rewrite <- list_elem_of_In.
  - intros (_ & c & p & Hc & Ep & Hp). exists (Masked p). split.
    + apply list_elem_of_In, list_elem_of_omap. exists c. rewrite list_elem_of_In. by rewrite Ep.
    + by rewrite prefix_contains_Masked by (by eapply ParsePrefix_valid).
Qed.

