(* ===== verification/RouteEngine.v ===== *)
(** The route engine and its use by the client: internal/route/matcher.go and
    engine.go, and the runtime of internal/app/route.go (decisions, the map from
    addresses to sniffed names).  Rules are matched in order over the databases
    of [GeoData]; the rule file is reloaded by the watcher of [RouteRules].
    A lock region is one operation; a call that looks at the file system several
    times takes what each look sees. *)

From Stdlib Require Import ZArith Lia Strings.Byte.
From stdpp Require Import base numbers list gmap.
From S2P Require Import Prelude GoStrings GoNet NetAddr GoTime Crypto NonceCache RouteRules GeoData.

Local Open Scope Z_scope.
Local Open Scope go_scope.

(** [filepath.Clean] and [filepath.Join] on slash-separated paths. *)
Definition clean_step (rooted : bool) (stack : list bytes) (comp : bytes) : list bytes :=
  if is_empty comp || bool_decide (comp = bs ".") then stack else
  if bool_decide (comp = bs "..") then
    match stack with
    | [] => if rooted then [] else [comp]
    | top :: rest => if bool_decide (top = bs "..") then comp :: stack else rest
    end
  else comp :: stack.

Definition filepath_Clean (path : bytes) : bytes :=
  let rooted := HasPrefix path [c_slash] in
  let out := (if rooted then [c_slash] else []) ++
             Join (rev (foldl (clean_step rooted) [] (Split path c_slash))) c_slash in
  if is_empty out then bs "." else out.

Definition filepath_Join (dir name : bytes) : bytes :=
  if is_empty dir then filepath_Clean name else filepath_Clean (dir ++ c_slash :: name).

Definition isLANAddr (ip : Addr) : bool :=
  IsPrivate ip || IsUnspecified ip || IsLoopback ip || IsMulticast ip || IsLinkLocalUnicast ip.

Section Engine.
Context {U : GoUnicode} {P : GeoProto} {R : GoRegexp} {Srt : GoSort} {C : Crypto}.

(** The counters of [Stats]. *)
Record Stats : Type := mkStats {
  ProxyHits : Z;
  DirectHits : Z;
  RejectedHits : Z;
  Misses : Z;
}.

Record Engine : Type := mkEngine {
  e_rulesPath : bytes;
  e_geoDir : bytes;
  e_rules : list Rule;
  e_fallback : bytes;
  e_geoSite : option GeoSiteDB;
  e_geoIP : option GeoIPDB;
  e_watch : option watcher;
  e_stats : Stats;
}.

Definition set_stats (e : Engine) (s : Stats) : Engine :=
  mkEngine (e_rulesPath e) (e_geoDir e) (e_rules e) (e_fallback e) (e_geoSite e) (e_geoIP e) (e_watch e) s.

Definition set_watch (e : Engine) (w : option watcher) : Engine :=
  mkEngine (e_rulesPath e) (e_geoDir e) (e_rules e) (e_fallback e) (e_geoSite e) (e_geoIP e) w (e_stats e).

(** [atomic.Int64.Add(1)]. *)
Definition bump (c : Z) : Z := wrapS 64 (c + 1).

Definition count_hit (a : bytes) (s : Stats) : Stats :=
  if bool_decide (a = ActionProxy) then mkStats (bump (ProxyHits s)) (DirectHits s) (RejectedHits s) (Misses s)
  else if bool_decide (a = ActionReject) then mkStats (ProxyHits s) (DirectHits s) (bump (RejectedHits s)) (Misses s)
  else mkStats (ProxyHits s) (bump (DirectHits s)) (RejectedHits s) (Misses s).

Definition count_miss (s : Stats) : Stats :=
  mkStats (ProxyHits s) (DirectHits s) (RejectedHits s) (bump (Misses s)).

Definition hit (e : Engine) (r : Rule) : Engine * (bytes * Rule * bool) :=
  (set_stats e (count_hit (Action r) (e_stats e)), (Action r, r, true)).

(** The switch of [Match] for one rule. *)
Definition rule_hit (geoSite : option GeoSiteDB) (geoIP : option GeoIPDB) (host lowerHost : bytes) (ip : Addr)
    (r : Rule) : res bool :=
  if bool_decide (Kind r = KindGeoSite) then
    if is_empty host then Ok false else
    match geoSite with
    | None => Ok false
    | Some db => match site_Lookup db (Value r) with
                 | None => Ok false
                 | Some idx => Ok (index_match idx lowerHost)
                 end
    end
  else if bool_decide (Kind r = KindDomain) then
    if is_empty host then Ok false else domainSuffixMatch (ToLower (Value r)) lowerHost
  else if bool_decide (Kind r = KindGeoIP) then
    if negb (IsValid ip) then Ok false else
    if EqualFold (Value r) (bs "lan") then Ok (isLANAddr ip) else
    match geoIP with
    | Some db => ip_Contains db (Value r) ip
    | None => Ok (EqualFold (Value r) (bs "cn") && builtinCNContains ip)
    end
  else Ok false.

(** The loop of [Match]: the first rule that is hit. *)
Fixpoint first_hit (geoSite : option GeoSiteDB) (geoIP : option GeoIPDB) (host lowerHost : bytes) (ip : Addr)
    (rules : list Rule) : res (option Rule) :=
  match rules with
  | [] => Ok None
  | r :: rules' =>
      let! b := rule_hit geoSite geoIP host lowerHost ip r in
      if b then Ok (Some r) else first_hit geoSite geoIP host lowerHost ip rules'
  end.

(** The host and address that [Match] works with: without a final dot, an
    address literal moved into the address. *)
Definition split_target (host : bytes) (ip : Addr) : bytes * Addr :=
  let host := TrimSuffix host [c_dot] in
  match ParseAddr host with Some addr => ([], addr) | None => (host, ip) end.

Definition Match (e : Engine) (host : bytes) (ip : Addr) : Engine * res (bytes * Rule * bool) :=
  let '(host, ip) := split_target host ip in
  match first_hit (e_geoSite e) (e_geoIP e) host (ToLower host) ip (e_rules e) with
  | Ok (Some r) => let '(e', x) := hit e r in (e', Ok x)
  | Ok None =>
      let e' := set_stats e (count_miss (e_stats e)) in
      if is_empty (e_fallback e) then (e', Ok (ActionDirect, mkRule [] [] [], false))
      else (e', Ok (e_fallback e, mkRule (e_fallback e) KindDefault [], true))
  | Err er => (e, Err er)
  | Panic => (e, Panic)
  end.

(** * Loading and reloading *)

Definition fallback_of (rules : list Rule) : bytes :=
  match find is_default rules with Some r => Action r | None => [] end.

Definition applyRules (e : Engine) (rules : list Rule) : Engine :=
  mkEngine (e_rulesPath e) (e_geoDir e) rules (fallback_of rules) (e_geoSite e) (e_geoIP e) (e_watch e) (e_stats e).

Definition to_option {A} (m : res A) : option A := match m with Ok a => Some a | _ => None end.

Definition loadGeoDBs (fs : fsys) (now : Z) (e : Engine) : Engine :=
  mkEngine (e_rulesPath e) (e_geoDir e) (e_rules e) (e_fallback e)
    (to_option (LoadGeoSite fs (filepath_Join (e_geoDir e) (bs "geosite.dat")) now))
    (to_option (LoadGeoIP fs (filepath_Join (e_geoDir e) (bs "geoip-lite.dat")) now))
    (e_watch e) (e_stats e).

(** What the looks of [NewEngine] at the file system see after the template was
    written: at loading the rules, the databases, and at the two calls of the
    baseline. *)
Record looks : Type := mkLooks { at_load : fsys; at_geo : fsys; at_stat : fsys; at_read : fsys }.

Definition still (fs : fsys) : looks := mkLooks fs fs fs fs.

Definition NewEngine (fail : option write_call) (partial : bytes) (now : Z) (tmpName : bytes) (fs0 : fsys)
    (l : looks) (rulesPath geoDir : bytes) : res Engine :=
  let! _ := snd (EnsureRulesFile fail partial now tmpName rulesPath fs0) in
  let! rules := LoadRulesFile (at_load l) rulesPath in
  let e := mkEngine rulesPath geoDir [] [] None None None (mkStats 0 0 0 0) in
  let e := applyRules e rules in
  let e := loadGeoDBs (at_geo l) now e in
  let! w := watchRulesFile (at_stat l) (at_read l) rulesPath in
  Ok (set_watch e (Some w)).

(** A tick of the watcher goroutine and the callback given to it. *)
Definition tick (fs1 fs2 fs3 : fsys) (e : Engine) : Engine :=
  match e_watch e with
  | None => e
  | Some w =>
      let '(w', call) := watch_tick (e_rulesPath e) w fs1 fs2 fs3 in
      let e := set_watch e (Some w') in
      match call with Some (Ok rules) => applyRules e rules | _ => e end
  end.

Definition Rules (e : Engine) : list Rule := e_rules e.

Definition Reload (fs : fsys) (e : Engine) : Engine * res unit :=
  match LoadRulesFile fs (e_rulesPath e) with
  | Ok rules => (applyRules e rules, Ok tt)
  | Err er => (e, Err er)
  | Panic => (e, Panic)
  end.

Definition ReloadGeo (fs : fsys) (now : Z) (e : Engine) : Engine := loadGeoDBs fs now e.

(** [UpdateGeo] after the download: whether a file changed, or its error. *)
Definition UpdateGeo (download : res bool) (fs : fsys) (now : Z) (e : Engine) : Engine * res bool :=
  match download with
  | Ok updated => (if updated then loadGeoDBs fs now e else e, Ok updated)
  | r => (e, r)
  end.

(** [Close]: the watcher stops. *)
Definition engine_Close (e : Engine) : Engine := set_watch e None.

Record GeoStatus : Type := mkGeoStatus {
  SiteLoaded : bool; SiteCategories : Z; SitePath : bytes; SiteLoadedAt : Z;
  IPLoaded : bool; IPCategories : Z; IPPrefixes : Z; IPPath : bytes; IPLoadedAt : Z;
  RuleCount : Z; Fallback : bytes;
}.

Definition geoStatus (zero : Z) (e : Engine) : GeoStatus :=
  let '(sl, sc, sp, st) := match e_geoSite e with
    | Some db => (true, site_CategoryCount db, site_path db, site_loadedAt db)
    | None => (false, 0, [], zero) end in
  let '(il, ic, ipn, ipp, it) := match e_geoIP e with
    | Some db => (true, ip_CategoryCount db, ip_PrefixCount db, ip_path db, ip_loadedAt db)
    | None => (false, 0, 0, [], zero) end in
  mkGeoStatus sl sc sp st il ic ipn ipp it (len (e_rules e)) (e_fallback e).

End Engine.

(** * The runtime of the client *)

Definition addr_code (a : Addr) : option (Z + Z * bytes) :=
  match a with AddrZero => None | Addr4 v => Some (inl v) | Addr6 v z => Some (inr (v, z)) end.

Definition addr_decode (c : option (Z + Z * bytes)) : Addr :=
  match c with None => AddrZero | Some (inl v) => Addr4 v | Some (inr (v, z)) => Addr6 v z end.

#[export] Program Instance Addr_countable : Countable Addr :=
  inj_countable' addr_code addr_decode _.
Next Obligation. by intros []. Qed.

Definition dnsMapTTL : Z := 600 * Second.

Record dnsMapEntry : Type := mkDnsEntry { dm_domain : bytes; dm_expiry : Time }.

Inductive routeAction : Type := routeProxy | routeDirect | routeReject.

#[export] Instance routeAction_eq_dec : EqDecision routeAction.
Proof. solve_decision. Defined.

Section Runtime.
Context {U : GoUnicode} {R : GoRegexp}.

Record routeRuntime : Type := mkRuntime {
  rt_engine : option Engine;
  rt_dnsMap : gmap Addr dnsMapEntry;
}.

Definition setEngine (e : option Engine) (rt : routeRuntime) : routeRuntime := mkRuntime e (rt_dnsMap rt).

Definition remember (ip : Addr) (domain : bytes) (now : Time) (rt : routeRuntime) : routeRuntime :=
  if negb (IsValid ip) || is_empty domain then rt
  else mkRuntime (rt_engine rt) (<[Unmap ip := mkDnsEntry domain (Add now dnsMapTTL)]> (rt_dnsMap rt)).

Definition mappedHost (ip : Addr) (now : Time) (rt : routeRuntime) : option bytes :=
  match rt_dnsMap rt !! Unmap ip with
  | None => None
  | Some e => if After now (dm_expiry e) then None else Some (dm_domain e)
  end.

Definition resolveHostForRoute (host : bytes) (now : Time) (rt : routeRuntime) : bytes * Addr :=
  match ParseAddr host with
  | Some ip => match mappedHost ip now rt with Some domain => (domain, ip) | None => (host, ip) end
  | None => (host, AddrZero)
  end.

Definition rt_match (host : bytes) (ip : Addr) (rt : routeRuntime) : routeRuntime * res (bytes * bool) :=
  match rt_engine rt with
  | None => (rt, Ok (ActionProxy, false))
  | Some e =>
      let '(e', r) := Match e host ip in
      (setEngine (Some e') rt, let! x := r in let '(action, _, matched) := x in Ok (action, matched))
  end.

Definition decideForTarget (host : bytes) (ip : Addr) (rt : routeRuntime) : routeRuntime * res routeAction :=
  match rt_engine rt with
  | None => (rt, Ok routeProxy)
  | Some _ =>
      let '(rt', r) := rt_match host ip rt in
      (rt', let! x := r in let '(action, matched) := x in
            Ok (if negb matched then routeProxy
                else if bool_decide (action = ActionDirect) then routeDirect
                else if bool_decide (action = ActionReject) then routeReject
                else routeProxy))
  end.

Definition shouldTunnelDNS (host : bytes) (rt : routeRuntime) : routeRuntime * res bool :=
  match rt_engine rt with
  | None => (rt, Ok false)
  | Some _ =>
      let '(rt', r) := rt_match host AddrZero rt in
      (rt', let! x := r in let '(action, matched) := x in Ok (matched && bool_decide (action = ActionProxy)))
  end.

Definition socks5_scheme : bytes := bs "socks5://".

Fixpoint first_socks5 (parts : list bytes) : bytes :=
  match parts with
  | [] => []
  | raw :: parts' =>
      let trimmed := TrimSpace raw in
      if HasPrefix trimmed socks5_scheme then trimmed else first_socks5 parts'
  end.

Definition firstSOCKS5ListenAddr (listenAddr : bytes) : bytes := first_socks5 (Split listenAddr c_comma).

End Runtime.

(** * The meaning of a rule *)

Section Meaning.
Context {U : GoUnicode} {P : GeoProto} {R : GoRegexp} {Srt : GoSort} {SrtOk : GoSortOk}.

(** A database in memory comes from a decoded file, or is absent. *)
Definition site_loaded (db : option GeoSiteDB) (src : option (list (option GeoSite))) : Prop :=
  match db, src with
  | None, None => True
  | Some db, Some l => exists data path now, unmarshal_GeoSiteList data = Some l /\ geoSiteFromBytes data path now = Ok db
  | _, _ => False
  end.

Definition ip_loaded (db : option GeoIPDB) (src : option (list (option GeoIP))) : Prop :=
  match db, src with
  | None, None => True
  | Some db, Some l => exists data path now, unmarshal_GeoIPList data = Some l /\ geoIPFromBytes data path now = Ok db
  | _, _ => False
  end.

(** Does the rule cover a target: a domain (empty for an address literal) and an
    address (zero if unknown), by linear scans of the decoded files. *)
Definition rule_covers (sites : option (list (option GeoSite))) (ips : option (list (option GeoIP)))
    (host : bytes) (ip : Addr) (r : Rule) : bool :=
  if bool_decide (Kind r = KindGeoSite) then
    negb (is_empty host) &&
    match sites with
    | Some l => match last_of site_entry (ToUpper (Value r)) l with
                | Some ds => existsb (domain_hit (ToLower host)) ds
                | None => false
                end
    | None => false
    end
  else if bool_decide (Kind r = KindDomain) then
    negb (is_empty host) && label_suffix (ToLower (Value r)) (ToLower host)
  else if bool_decide (Kind r = KindGeoIP) then
    IsValid ip &&
    (if EqualFold (Value r) (bs "lan") then isLANAddr ip else
     match ips with
     | Some l => match last_of ip_entry (ToUpper (Value r)) l with
                 | Some ps => existsb (fun p => prefix_contains p ip) ps
                 | None => false
                 end
     | None => EqualFold (Value r) (bs "cn") && builtinCNContains ip
     end)
  else false.

Lemma rule_hit_covers db idb sites ips host ip r :
  site_loaded db sites -> ip_loaded idb ips ->
  rule_hit db idb host (ToLower host) ip r = Ok (rule_covers sites ips host ip r).
Proof.
  intros Hs Hi. unfold rule_hit, rule_covers.
  case_bool_decide; [|case_bool_decide; [|case_bool_decide; [|done]]].
  - destruct (is_empty host); [done|]. cbn [negb andb].
    destruct db as [db|], sites as [l|]; try done. destruct Hs as (data & path & now & Hl & Hdb).
    rewrite (site_Lookup_last data path now db l (Value r) Hl Hdb).
    destruct (last_of _ _ _); cbn; [|done]. by rewrite buildGeoIndex_match.
  - destruct (is_empty host); [done|]. apply domainSuffixMatch_ok.
  - destruct (IsValid ip); [|done]. cbn [negb andb]. destruct (EqualFold _ _); [done|].
    destruct idb as [idb|], ips as [l|]; try done. destruct Hi as (data & path & now & Hl & Hdb).
    unfold ip_Contains. rewrite (ip_Lookup_last data path now idb l (Value r) Hl Hdb).
    destruct (last_of ip_entry _ l) as [ps|] eqn:E; cbn; [|done]. apply sorted_search.
    eapply last_of_forall; [|exact E]. apply ip_entry_clean.
Qed.

Lemma first_hit_find db idb sites ips host ip rules :
  site_loaded db sites -> ip_loaded idb ips ->
  first_hit db idb host (ToLower host) ip rules = Ok (find (rule_covers sites ips host ip) rules).
Proof.
  intros Hs Hi. induction rules as [|r rules IH]; [done|]. cbn [first_hit find].
  rewrite (rule_hit_covers db idb sites ips) by done. cbn [res_bind].
  by destruct (rule_covers _ _ _ _ _).
Qed.

(** What [Match] answers for the rule that was found, if any. *)
Definition answer (e : Engine) (found : option Rule) : Engine * (bytes * Rule * bool) :=
  match found with
  | Some r => (set_stats e (count_hit (Action r) (e_stats e)), (Action r, r, true))
  | None =>
      (set_stats e (count_miss (e_stats e)),
       if is_empty (e_fallback e) then (ActionDirect, mkRule [] [] [], false)
       else (e_fallback e, mkRule (e_fallback e) KindDefault [], true))
  end.

Lemma Match_answer e sites ips host ip :
  site_loaded (e_geoSite e) sites -> ip_loaded (e_geoIP e) ips ->
  let '(h, a) := split_target host ip in
  Match e host ip = (let '(e', x) := answer e (find (rule_covers sites ips h a) (e_rules e)) in (e', Ok x)).
Proof.
  intros Hs Hi. unfold Match. destruct (split_target host ip) as [h a].
  rewrite (first_hit_find _ _ sites ips) by done. destruct (find _ _) as [r|]; cbn; [done|].
  by destruct (is_empty (e_fallback e)).
Qed.

End Meaning.

(** * Decisions *)

Lemma find_split {A} (f : A -> bool) l :
  match find f l with
  | Some x => exists l1 l2, l = l1 ++ x :: l2 /\ f x = true /\ Forall (fun y => f y = false) l1
  | None => Forall (fun y => f y = false) l
  end.
Proof.
  induction l as [|y l IH]; cbn; [constructor|]. destruct (f y) eqn:E; [by exists [], l|].
  destruct (find f l) as [x|]; [|by constructor]. destruct IH as (l1 & l2 & -> & Hx & Hl).
  exists (y :: l1), l2. split_and!; [done|done|by constructor].
Qed.

Section Decisions.
Context {U : GoUnicode} {P : GeoProto} {R : GoRegexp} {Srt : GoSort} {SrtOk : GoSortOk}.

Lemma is_default_kind r : is_default r = true <-> Kind r = KindDefault.
Proof. apply bool_decide_eq_true. Qed.

(** A [default:] line never covers a target. *)
Lemma default_covers_nothing sites ips host ip r :
  is_default r = true -> rule_covers sites ips host ip r = false.
Proof. intros H%is_default_kind. unfold rule_covers. by rewrite H. Qed.

Lemma fallback_empty rules :
  Forall rule_ok rules -> is_empty (fallback_of rules) = negb (existsb is_default rules).
Proof.
  intros H. unfold fallback_of. pose proof (find_split is_default rules) as Hf.
  destruct (find is_default rules) as [r|].
  - destruct Hf as (l1 & l2 & -> & Hr & _). rewrite existsb_app. cbn. rewrite Hr, orb_true_r.
    apply Forall_app in H as [_ H]. inversion_clear H as [|? ? [Ha _] _].
    by apply validActions_cases in Ha as [-> | [-> | ->]].
  - induction Hf as [|y l Hy _ IH]; [done|]. inversion_clear H. cbn. rewrite Hy. by apply IH.
Qed.

(** The rule that decides: the first that covers the target, or the [default:] line. *)
Definition deciding_rule (sites : option (list (option GeoSite))) (ips : option (list (option GeoIP)))
    (rules : list Rule) (host : bytes) (ip : Addr) : option Rule :=
  match find (rule_covers sites ips host ip) rules with
  | Some r => Some r
  | None => find is_default rules
  end.

Definition action_of (a : bytes) : routeAction :=
  if bool_decide (a = ActionDirect) then routeDirect
  else if bool_decide (a = ActionReject) then routeReject else routeProxy.

(** An engine whose rules were parsed and applied. *)
Definition engine_ok (e : Engine) : Prop :=
  Forall rule_ok (e_rules e) /\ e_fallback e = fallback_of (e_rules e).

Lemma rt_match_decides rt e sites ips host ip :
  rt_engine rt = Some e -> engine_ok e ->
  site_loaded (e_geoSite e) sites -> ip_loaded (e_geoIP e) ips ->
  let '(h, a) := split_target host ip in
  exists rt', rt_dnsMap rt' = rt_dnsMap rt /\
    rt_match host ip rt = (rt', Ok match deciding_rule sites ips (e_rules e) h a with
                                   | Some r => (Action r, true)
                                   | None => (ActionDirect, false)
                                   end).
Proof.
  intros He [Hok Hf] Hs Hi. pose proof (Match_answer e sites ips host ip Hs Hi) as HM.
  destruct (split_target host ip) as [h a]. unfold rt_match. rewrite He, HM. unfold answer, deciding_rule.
  destruct (find _ _) as [r|]; cbn [res_bind]; [by eexists; split; [|reflexivity]|].
  rewrite Hf, fallback_empty by done. unfold fallback_of. pose proof (find_split is_default (e_rules e)) as Hd.
  destruct (find is_default _) as [r|].
  - destruct Hd as (l1 & l2 & E & Hr & _). rewrite E, existsb_app. cbn. rewrite Hr, orb_true_r. by eexists; split; [|reflexivity].
  - assert (existsb is_default (e_rules e) = false) as ->; [|by eexists; split; [|reflexivity]].
    apply not_true_iff_false. intros (x & Hx & Ex)%existsb_exists. rewrite Forall_forall in Hd.
    rewrite (Hd x) in Ex; [done|]. by apply list_elem_of_In.
Qed.

End Decisions.

(** * Reloading *)

Section Reloading.
Context {U : GoUnicode} {P : GeoProto} {R : GoRegexp} {Srt : GoSort} {C : Crypto}.

(** The rule file is readable and holds [data]. *)
Definition holds (fs : fsys) (path data : bytes) : Prop :=
  exists m, fs !! path = Some (mkFile data m true).

(** Contents told apart by their digest. *)
Definition distinguished (contents : list bytes) : Prop :=
  forall a b, a ∈ contents -> b ∈ contents -> sha256 a = sha256 b -> a = b.

(** The watcher remembers contents whose rules, if they parse, are in force. *)
Definition in_step (contents : list bytes) (e : Engine) : Prop :=
  exists w c, e_watch e = Some w /\ c ∈ contents /\ w_hash w = hex_encode (sha256 c) /\
    forall rs, ParseRules c = Ok rs -> e_rules e = rs /\ e_fallback e = fallback_of rs.

(** A tick during which the file does not change; the file may be missing or
    unreadable. *)
Definition quiet_tick (e : Engine) (fs : fsys) : Engine := tick fs fs fs e.

Definition seen_in (contents : list bytes) (path : bytes) (fs : fsys) : Prop :=
  forall f, fs !! path = Some f -> f_data f ∈ contents.

Lemma quiet_tick_cases e fs w :
  e_watch e = Some w ->
  quiet_tick e fs = e \/
  exists f rs', fs !! e_rulesPath e = Some f /\ rs' = ParseRules (f_data f) /\
    quiet_tick e fs =
      (let e' := set_watch e (Some (mkWatcher (hex_encode (sha256 (f_data f))) (f_mtime f))) in
       match rs' with Ok rs => applyRules e' rs | _ => e' end).
Proof.
  intros Hw. unfold quiet_tick, tick, watch_tick, fileState, os_Stat, LoadRulesFile, os_ReadFile. rewrite Hw.
  assert (set_watch e (Some w) = e) as Hset by (destruct e; cbn in *; by rewrite Hw).
  destruct (fs !! e_rulesPath e) as [f|] eqn:Ef; [|left; exact Hset].
  destruct (f_readable f); [|left; exact Hset].
  destruct (bool_decide _ && _); [left; exact Hset|]. right. exists f, (ParseRules (f_data f)).
  split_and!; [done..|]. by destruct (ParseRules (f_data f)).
Qed.

Lemma quiet_tick_in_step contents e fs :
  in_step contents e -> seen_in contents (e_rulesPath e) fs ->
  in_step contents (quiet_tick e fs) /\ e_rulesPath (quiet_tick e fs) = e_rulesPath e.
Proof.
  intros (w & c & Hw & Hc & Hh & Hr) Hs.
  destruct (quiet_tick_cases e fs w Hw) as [-> | (f & rs & Hf & -> & ->)]; [split; [by exists w, c|done]|].
  cbv zeta. split; [|destruct (ParseRules (f_data f)); reflexivity].
  exists (mkWatcher (hex_encode (sha256 (f_data f))) (f_mtime f)), (f_data f).
  split; [destruct (ParseRules (f_data f)); reflexivity|]. split; [by apply Hs|]. split; [done|]. intros rs' E. by rewrite E.
Qed.

Lemma NewEngine_in_step fail partial now tmp fs0 l path geoDir data e contents :
  holds (at_load l) path data -> holds (at_read l) path data -> data ∈ contents ->
  NewEngine fail partial now tmp fs0 l path geoDir = Ok e ->
  in_step contents e /\ e_rulesPath e = path.
Proof.
  intros [m1 H1] [m2 H2] Hin. unfold NewEngine. destruct (snd _) as [b| |]; cbn [res_bind]; try done.
  unfold LoadRulesFile, watchRulesFile, fileState, os_Stat, os_ReadFile. rewrite H1, H2. cbn [f_readable f_data].
  destruct (ParseRules data) as [rules| |] eqn:E; cbn [res_map_err res_bind]; try done.
  destruct (at_stat l !! path) as [f|]; cbn [res_bind]; [|done]. intros [= <-]. split; [|done].
  eexists _, data. split_and!; [done|done|done|]. intros rs. rewrite E. by intros [= <-].
Qed.

Lemma quiet_ticks_in_step contents l e :
  in_step contents e -> Forall (seen_in contents (e_rulesPath e)) l ->
  in_step contents (foldl quiet_tick e l) /\ e_rulesPath (foldl quiet_tick e l) = e_rulesPath e.
Proof.
  revert e. induction l as [|fs l IH]; intros e He Hl; [done|]. inversion_clear Hl as [|? ? Hfs Hl']. cbn [foldl].
  destruct (quiet_tick_in_step contents e fs He Hfs) as [He' Hp].
  destruct (IH _ He') as [H1 H2]; [by rewrite Hp|]. by rewrite H2.
Qed.

(** After a tick on a file whose rules parse, they are in force. *)
Lemma quiet_tick_loads contents e fs data rs :
  distinguished contents -> in_step contents e -> data ∈ contents ->
  holds fs (e_rulesPath e) data -> ParseRules data = Ok rs ->
  e_rules (quiet_tick e fs) = rs /\ e_fallback (quiet_tick e fs) = fallback_of rs.
Proof.
  intros Hd (w & c & Hw & Hc & Hh & Hr) Hin [m Hm] E.
  unfold quiet_tick, tick, watch_tick, fileState, os_Stat, LoadRulesFile, os_ReadFile.
  rewrite Hw, Hm. cbn [f_readable f_data f_mtime]. destruct (bool_decide _ && _) eqn:Eq.
  - apply andb_true_iff in Eq as [Eq%bool_decide_eq_true _]. rewrite Hh in Eq. apply hex_encode_inj in Eq.
    apply Hd in Eq; [|done..]. subst c. cbn. by apply Hr.
  - by rewrite E.
Qed.

End Reloading.

(** * Theorems *)

Section EngineTheorems.
Context {U : GoUnicode} {P : GeoProto} {R : GoRegexp} {Srt : GoSort} {SrtOk : GoSortOk} {C : Crypto}.

(** C22: with rules that were parsed and databases that were loaded (or not), [Match]
    returns, and the first rule in file order that covers the target decides and
    is counted.  If none does, a miss is counted and the [default:] line
    decides, or the answer is unmatched [direct] when there is none.  The meaning
    of covering is the linear scan of the decoded files, label-wise suffixes for
    [domain:], the built-in classes for [geoip:lan] and the built-in table for
    [geoip:cn] without database; [geosite:] and [domain:] need a domain, [geoip:]
    an address. *)
Theorem match_first_rule (text : bytes) (rules : list Rule) (e : Engine)
    (sites : option (list (option GeoSite))) (ips : option (list (option GeoIP))) (host : bytes) (ip : Addr)
    (Hp : ParseRules text = Ok rules)
    (Hs : site_loaded (e_geoSite e) sites) (Hi : ip_loaded (e_geoIP e) ips) :
  let '(h, addr) := split_target host ip in
  let covers := rule_covers sites ips h addr in
  exists e' a r m,
    Match (applyRules e rules) host ip = (e', Ok (a, r, m)) /\ e_rules e' = rules /\ validActions a = true /\
    ((m = true /\ a = Action r /\ e_stats e' = count_hit a (e_stats e) /\
      exists l1 l2, rules = l1 ++ r :: l2 /\ covers r = true /\ Forall (fun x => covers x = false) l1) \/
     (Forall (fun x => covers x = false) rules /\ e_stats e' = count_miss (e_stats e) /\
      ((m = true /\ exists d, In d rules /\ is_default d = true /\ a = Action d) \/
       (m = false /\ a = ActionDirect /\ Forall (fun x => is_default x = false) rules)))).
Proof.
  assert (Forall rule_ok rules) as Hok.
  { eapply parse_lines_ok; [exact Hp|constructor|unfold one_default; cbn; lia]. }
  pose proof (Match_answer (applyRules e rules) sites ips host ip Hs Hi) as HM.
  destruct (split_target host ip) as [h addr]. cbv zeta. rewrite HM. unfold answer. cbn [e_rules applyRules e_fallback].
  pose proof (find_split (rule_covers sites ips h addr) rules) as Hf.
  destruct (find (rule_covers _ _ _ _) rules) as [r|].
  - destruct Hf as (l1 & l2 & E & Hr & Hl). eexists _, _, _, _. split; [reflexivity|]. split; [done|].
    split; [|left; split_and!; [done..|by exists l1, l2]].
    rewrite E in Hok. apply Forall_app in Hok as [_ Hok]. inversion_clear Hok as [|? ? [Ha _] _]. done.
  - rewrite fallback_empty by done. unfold fallback_of. pose proof (find_split is_default rules) as Hd.
    destruct (find is_default rules) as [d|].
    + destruct Hd as (l1 & l2 & E & Hr & _).
      assert (existsb is_default rules = true) as -> by (rewrite E, existsb_app; cbn; by rewrite Hr, orb_true_r).
      cbn [negb]. eexists _, _, _, _. split; [reflexivity|]. split; [done|].
      rewrite E in Hok. apply Forall_app in Hok as [_ Hok]. inversion_clear Hok as [|? ? [Ha _] _].
      split; [done|]. right. split_and!; [done..|]. left. split; [done|]. exists d. split; [|done].
      rewrite E. apply in_or_app. right. by left.
    + assert (existsb is_default rules = false) as ->.
      { apply not_true_iff_false. intros (x & Hx & Ex)%existsb_exists. rewrite Forall_forall in Hd.
        rewrite (Hd x) in Ex; [done|]. by apply list_elem_of_In. }
      eexists _, _, _, _. split; [reflexivity|]. split; [done|]. split; [done|]. right. split_and!; [done..|].
      right. done.
Qed.


(** C24: the watcher brings every edit into force.  Start the engine while the file is
    the same when the rules are loaded and when the baseline is read, then let
    the file change between ticks in any way (removed, unreadable, broken,
    replaced), up to contents that collide in the digest: one tick on a file
    whose rules parse puts those rules and their default in force, and a tick
    on anything else keeps rules that were in force before. *)
Theorem hot_reload_converges (fail : option write_call) (partial : bytes) (now : Z) (tmp : bytes) (fs0 : fsys)
    (l : looks) (path geoDir data0 : bytes) (e : Engine) (contents : list bytes) (edits : list fsys)
    (Hload : holds (at_load l) path data0) (Hread : holds (at_read l) path data0)
    (Hnew : NewEngine fail partial now tmp fs0 l path geoDir = Ok e)
    (Hin : data0 ∈ contents) (Hedits : Forall (seen_in contents path) edits)
    (Hdist : distinguished contents) (fs : fsys) :
  let e1 := foldl quiet_tick e edits in
  (forall data rs, data ∈ contents -> holds fs path data -> ParseRules data = Ok rs ->
     e_rules (quiet_tick e1 fs) = rs /\ e_fallback (quiet_tick e1 fs) = fallback_of rs) /\
  ((forall data rs, holds fs path data -> ParseRules data <> Ok rs) ->
     e_rules (quiet_tick e1 fs) = e_rules e1 /\ e_fallback (quiet_tick e1 fs) = e_fallback e1).
Proof.
  destruct (NewEngine_in_step fail partial now tmp fs0 l path geoDir data0 e contents) as [He Hpath]; [done..|].
  destruct (quiet_ticks_in_step contents edits e He) as [He1 Hp1]; [by rewrite Hpath|].
  rewrite Hpath in Hp1. cbv zeta. set (e1 := foldl quiet_tick e edits) in *. split.
  - intros data rs Hd Hh Hrs. eapply quiet_tick_loads; [done|exact He1|exact Hd|by rewrite Hp1|done].
  - intros Hno. destruct He1 as (w & c & Hw & _).
    unfold quiet_tick, tick, watch_tick, fileState, os_Stat, LoadRulesFile, os_ReadFile. rewrite Hw, Hp1.
    destruct (fs !! path) as [f|] eqn:Ef; [|done]. destruct (f_readable f) eqn:Er; [|done].
    destruct (bool_decide _ && _); [done|]. destruct (ParseRules (f_data f)) as [rs| |] eqn:E; try done.
    destruct (Hno (f_data f) rs); [|done]. exists (f_mtime f). rewrite Ef. destruct f; cbn in *. by rewrite Er.
Qed.

(** An edit made while the engine starts, after the rules were loaded and before
    the watcher read its baseline, is never taken up: as long as the file stays
    as it was then, every tick keeps the old rules, although the file holds
    others that parse. *)
Theorem startup_edit_lost (fail : option write_call) (partial : bytes) (now : Z) (tmp : bytes) (fs0 : fsys)
    (l : looks) (path geoDir data0 data1 : bytes) (e : Engine) (rs0 rs1 : list Rule) (n : nat)
    (Hload : holds (at_load l) path data0) (Hstat : at_stat l = at_read l) (Hread : holds (at_read l) path data1)
    (Hnew : NewEngine fail partial now tmp fs0 l path geoDir = Ok e)
    (H0 : ParseRules data0 = Ok rs0) (H1 : ParseRules data1 = Ok rs1) (Hne : rs0 <> rs1) :
  let e' := foldl quiet_tick e (replicate n (at_read l)) in
  e_rules e' = rs0 /\ LoadRulesFile (at_read l) path = Ok rs1 /\ e_rules e' <> rs1.
Proof.
  destruct Hload as [m0 Hl0], Hread as [m1 Hl1]. unfold NewEngine in Hnew.
  destruct (snd _) as [b| |]; cbn [res_bind] in Hnew; try done.
  unfold LoadRulesFile, watchRulesFile, fileState, os_Stat, os_ReadFile in *.
  rewrite Hl0, Hstat, Hl1 in Hnew. cbn [f_readable f_data f_mtime] in Hnew. rewrite H0 in Hnew.
  cbn [res_map_err res_bind] in Hnew. injection Hnew as <-. rewrite Hl1. cbn [f_readable f_data]. rewrite H1.
  set (e := set_watch _ _).
  assert (forall k, foldl quiet_tick e (replicate k (at_read l)) = e) as Hk.
  { induction k as [|k IH]; [done|]. cbn [replicate foldl].
    assert (quiet_tick e (at_read l) = e) as ->; [|done].
    unfold quiet_tick, tick, watch_tick, fileState, os_Stat, os_ReadFile. cbn [e e_watch set_watch e_rulesPath applyRules loadGeoDBs].
    rewrite Hl1. cbn [f_readable f_data f_mtime w_hash w_mtime]. rewrite bool_decide_eq_true_2, Z.eqb_refl by done. done. }
  cbv zeta. rewrite Hk. done.
Qed.

End EngineTheorems.

(** * A concrete engine *)

Definition sample_rules : bytes := bs "reject,domain:ads.example
direct,geoip:private
proxy,geosite:google
default:direct".

Definition other_rules : bytes := bs "proxy,domain:a.example".

Definition sample_fs (rules : bytes) : fsys :=
  <[bs "rules.txt" := mkFile rules 1 true]>
  (<[bs "geo/geosite.dat" := mkFile (bs "site") 1 true]>
  (<[bs "geo/geoip-lite.dat" := mkFile (bs "ip") 1 true]> ∅)).

Section Sample.
#[local] Instance sample_U : GoUnicode := ascii_only_unicode.
#[local] Instance sample_P : GeoProto := sample_GeoProto.
#[local] Instance sample_R : GoRegexp := plain_GoRegexp.
#[local] Instance sample_S : GoSort := merge_GoSort.

Definition sample_start (l : looks) : res Engine :=
  NewEngine None [] 1 (bs ".tmp") (sample_fs sample_rules) l (bs "rules.txt") (bs "geo").

Definition started (r : res Engine) : bool := match r with Ok _ => true | _ => false end.

Definition blank_engine : Engine :=
  mkEngine (bs "rules.txt") (bs "geo") [] [] None None None (mkStats 0 0 0 0).

Definition parsed_sample : list Rule :=
  [mkRule ActionReject KindDomain (bs "ads.example"); mkRule ActionDirect KindGeoIP (bs "private");
   mkRule ActionProxy KindGeoSite (bs "google"); mkRule ActionDirect KindDefault []].

Definition sample_sites : option (list (option GeoSite)) := unmarshal_GeoSiteList (bs "site").
Definition sample_ips : option (list (option GeoIP)) := unmarshal_GeoIPList (bs "ip").

Definition sample_engine : Engine := loadGeoDBs (sample_fs sample_rules) 1 blank_engine.

Lemma sample_site_loaded : site_loaded (e_geoSite sample_engine) sample_sites.
Proof. eexists (bs "site"), _, _. split; reflexivity. Qed.

Lemma sample_ip_loaded : ip_loaded (e_geoIP sample_engine) sample_ips.
Proof. eexists (bs "ip"), _, _. split; reflexivity. Qed.

(** www.google.com. is covered by the third rule. *)
Lemma match_first_rule_witness :
  exists e' a r m,
    Match (applyRules sample_engine parsed_sample) (bs "WWW.google.com.") AddrZero = (e', Ok (a, r, m)) /\
    a = ActionProxy /\ m = true /\ validActions a = true.
Proof.
  pose proof (@match_first_rule _ _ _ _ merge_GoSortOk sample_rules parsed_sample sample_engine sample_sites sample_ips
    (bs "WWW.google.com.") AddrZero eq_refl sample_site_loaded sample_ip_loaded) as H.
  destruct (split_target (bs "WWW.google.com.") AddrZero) as [h addr].
  destruct H as (e' & a & r & m & HM & _ & Ha & Hcase). exists e', a, r, m. split; [exact HM|].
  assert (a = ActionProxy /\ m = true) as [-> ->]; [|done].
  assert (snd (Match (applyRules sample_engine parsed_sample) (bs "WWW.google.com.") AddrZero) =
          Ok (ActionProxy, mkRule ActionProxy KindGeoSite (bs "google"), true)) as E by (by vm_compute).
  rewrite HM in E. cbn in E. by injection E as -> _ ->.
Defined.

Definition sample_runtime : routeRuntime := mkRuntime (Some (applyRules sample_engine parsed_sample)) ∅.


(** The file is replaced by a broken one, removed, then replaced again. *)
Lemma hot_reload_converges_witness :
  match sample_start (still (sample_fs sample_rules)) with
  | Ok e =>
      e_rules e = parsed_sample /\
      e_rules (quiet_tick (foldl quiet_tick e [sample_fs (bs "broken"); ∅]) (sample_fs other_rules)) =
      [mkRule ActionProxy KindDomain (bs "a.example")]
  | _ => False
  end.
Proof.
  assert (started (sample_start (still (sample_fs sample_rules))) = true) as Hst by (by vm_compute).
  destruct (sample_start (still (sample_fs sample_rules))) as [e| |] eqn:E; [|done..].
  split.
  { assert (match sample_start (still (sample_fs sample_rules)) with Ok e => e_rules e | _ => [] end = parsed_sample)
      as H by (by vm_compute). by rewrite E in H. }
  refine (proj1 (proj1 (hot_reload_converges None [] 1 (bs ".tmp") (sample_fs sample_rules) (still (sample_fs sample_rules))
    (bs "rules.txt") (bs "geo") sample_rules e [sample_rules; bs "broken"; other_rules] [sample_fs (bs "broken"); ∅]
    _ _ E _ _ _ (sample_fs other_rules)) other_rules _ _ _ _)).
  - by exists 1.
  - by exists 1.
  - by left.
  - constructor; [|constructor; [|constructor]]; intros f Hf; [|done]. assert (f = mkFile (bs "broken") 1 true) as ->.
    { enough (Some f = Some (mkFile (bs "broken") 1 true)) as [=] by done. by rewrite <- Hf. }
    right. by left.
  - intros a b Ha Hb. apply list_elem_of_In in Ha, Hb. cbn [In] in Ha, Hb.
    destruct Ha as [<-|[<-|[<-|[]]]], Hb as [<-|[<-|[<-|[]]]]; intros Eh; try reflexivity; exfalso; by vm_compute in Eh.
  - right. right. by left.
  - by exists 1.
  - by vm_compute.
Defined.

Lemma startup_edit_lost_witness :
  let l := mkLooks (sample_fs sample_rules) (sample_fs sample_rules) (sample_fs other_rules) (sample_fs other_rules) in
  match sample_start l with
  | Ok e => e_rules (foldl quiet_tick e (replicate 3 (sample_fs other_rules))) = parsed_sample
  | _ => False
  end.
Proof.
  intros l. assert (started (sample_start l) = true) as Hst by (by vm_compute).
  destruct (sample_start l) as [e| |] eqn:E; [|done..].
  refine (proj1 (startup_edit_lost None [] 1 (bs ".tmp") (sample_fs sample_rules) l (bs "rules.txt") (bs "geo")
    sample_rules other_rules e parsed_sample [mkRule ActionProxy KindDomain (bs "a.example")] 3 _ eq_refl _ E _ _ _)).
  - by exists 1.
  - by exists 1.
  - by vm_compute.
  - by vm_compute.
  - done.
Defined.

End Sample.

