(* ===== verification/Sniff.v ===== *)
(** The first-packet sniffers of the client: internal/app/snisniff.go (the server
    name of a TLS ClientHello) and internal/app/dnssniff.go (names and addresses
    of DNS messages).  Both walk untrusted bytes by offsets; every index and
    slice of the model panics out of range, so totality is a theorem. *)

From Stdlib Require Import ZArith Lia Strings.Byte.
From stdpp Require Import base numbers list.
From S2P Require Import Prelude GoStrings GoNet NetAddr.

Local Open Scope Z_scope.
Local Open Scope go_scope.

(** [binary.BigEndian.Uint16(b[off:off+2])] and [int(b[i])]. *)
Definition u16 (b : bytes) (off : Z) : res Z := let! s := slice b off (off + 2) in Ok (be_get s).

Definition byte_at (b : bytes) (i : Z) : res Z := let! c := index b i in Ok (b2z c).

(** * snisniff.go *)

Definition tlsRecordHandshake : Z := 22.
Definition tlsHandshakeClientHello : Z := 1.
Definition tlsExtServerName : Z := 0.
Definition tlsSNIHostName : Z := 0.

Definition c_dash : byte := z2b 45.

Definition is_letter (c : byte) : bool := is_lower c || is_upper c.

Definition sni_label_ok (label : bytes) : bool :=
  negb (is_empty label || (63 <? len label)) &&
  negb (bool_decide (head label = Some c_dash) || bool_decide (last label = Some c_dash)) &&
  forallb (fun c => is_letter c || is_digit c || chr c_dash c) label.

Definition isValidSNIHostname (host : bytes) : bool :=
  if is_empty host || (253 <? len host) then false else
  if bool_decide (last host = Some c_dot) then false else
  forallb sni_label_ok (Split host c_dot) && existsb (existsb is_letter) (Split host c_dot).

(** The loop over the names of the extension; a name takes at least three bytes. *)
Fixpoint names_loop (fuel : nat) (list : bytes) (off : Z) : res (option bytes) :=
  match fuel with
  | O => Panic
  | S fuel' =>
      if off <? len list then
        if len list <? off + 3 then Ok None else
        let! nameType := byte_at list off in
        let! nameLen := u16 list (off + 1) in
        let off := off + 3 in
        if len list <? off + nameLen then Ok None else
        if nameType =? tlsSNIHostName then
          let! host := slice list off (off + nameLen) in
          if isValidSNIHostname host then Ok (Some host) else Ok None
        else names_loop fuel' list (off + nameLen)
      else Ok None
  end.

Definition parseServerNameExt (data : bytes) : res (option bytes) :=
  if len data <? 2 then Ok None else
  let! listLen := u16 data 0 in
  if len data <? 2 + listLen then Ok None else
  let! list := slice data 2 (2 + listLen) in
  names_loop (S (length list)) list 0.

(** The loop over the extensions; an extension takes at least four bytes. *)
Fixpoint exts_loop (fuel : nat) (body : bytes) (off extEnd : Z) : res (option bytes) :=
  match fuel with
  | O => Panic
  | S fuel' =>
      if off + 4 <=? extEnd then
        let! extType := u16 body off in
        let! extLen := u16 body (off + 2) in
        let off := off + 4 in
        if extEnd <? off + extLen then Ok None else
        if extType =? tlsExtServerName then
          let! data := slice body off (off + extLen) in parseServerNameExt data
        else exts_loop fuel' body (off + extLen) extEnd
      else Ok None
  end.

Definition parseClientHelloSNI (body : bytes) : res (option bytes) :=
  let off := 2 + 32 in
  if len body <? off then Ok None else
  if len body <? off + 1 then Ok None else
  let! sidLen := byte_at body off in
  let off := off + (1 + sidLen) in
  if len body <? off then Ok None else
  if len body <? off + 2 then Ok None else
  let! csLen := u16 body off in
  let off := off + (2 + csLen) in
  if len body <? off then Ok None else
  if len body <? off + 1 then Ok None else
  let! cmLen := byte_at body off in
  let off := off + (1 + cmLen) in
  if len body <? off then Ok None else
  if len body <? off + 2 then Ok None else
  let! extTotal := u16 body off in
  let off := off + 2 in
  if len body <? off + extTotal then Ok None else
  exts_loop (S (length body)) body off (off + extTotal).

Definition sniffSNI (payload : bytes) : res (option bytes) :=
  if len payload <? 5 then Ok None else
  let! b0 := byte_at payload 0 in
  if negb (b0 =? tlsRecordHandshake) then Ok None else
  let! b1 := byte_at payload 1 in
  if negb (b1 =? 3) then Ok None else
  if len payload <? 9 then Ok None else
  let! b5 := byte_at payload 5 in
  if negb (b5 =? tlsHandshakeClientHello) then Ok None else
  let! b6 := byte_at payload 6 in
  let! b7 := byte_at payload 7 in
  let! b8 := byte_at payload 8 in
  let hsLen := Z.lor (Z.lor (Z.shiftl b6 16) (Z.shiftl b7 8)) b8 in
  if len payload <? 5 + 4 + hsLen then Ok None else
  let! body := slice payload 9 (9 + hsLen) in
  parseClientHelloSNI body.

(** * dnssniff.go *)

Definition dnsTypeA : Z := 1.
Definition dnsTypeAAAA : Z := 28.
Definition dnsHeaderLen : Z := 12.
Definition dnsFlagQR : Z := 32768.
Definition dnsRCodeMask : Z := 15.

(** The state of the loop of [parseDNSName]. *)
Record name_state : Type := mkNameState {
  ns_labels : list bytes;
  ns_pos : Z;
  ns_consumed : Z;
  ns_ptr : bool;
  ns_hops : Z;
}.

(** The loop body: go on with a state, or return. *)
Definition name_step (payload : bytes) (offset : Z) (s : name_state) : res (name_state + option (bytes * Z)) :=
  let pos := ns_pos s in
  if len payload <=? pos then Ok (inr None) else
  let! l := byte_at payload pos in
  if Z.land l 192 =? 192 then
    if len payload <=? pos + 1 then Ok (inr None) else
    let! lo := byte_at payload (pos + 1) in
    let target := Z.lor (Z.shiftl (Z.land l 63) 8) lo in
    let consumed := if ns_ptr s then ns_consumed s else pos + 2 - offset in
    Ok (inl (mkNameState (ns_labels s) target consumed true (ns_hops s + 1)))
  else if negb (Z.land l 192 =? 0) then Ok (inr None)
  else if l =? 0 then
    let consumed := if ns_ptr s then ns_consumed s else pos + 1 - offset in
    match ns_labels s with
    | [] => Ok (inr (Some (bs ".", consumed)))
    | labels => Ok (inr (Some (Join labels c_dot, consumed)))
    end
  else
    let pos := pos + 1 in
    if len payload <? pos + l then Ok (inr None) else
    let! label := slice payload pos (pos + l) in
    Ok (inl (mkNameState (ns_labels s ++ [label]) (pos + l) (ns_consumed s) (ns_ptr s) (ns_hops s))).

Fixpoint name_loop (fuel : nat) (payload : bytes) (offset : Z) (s : name_state) : res (option (bytes * Z)) :=
  match fuel with
  | O => Panic
  | S fuel' =>
      if ns_hops s <? 128 then
        let! r := name_step payload offset s in
        match r with
        | inl s' => name_loop fuel' payload offset s'
        | inr out => Ok out
        end
      else Ok None
  end.

(** Between two jumps the position grows, and there are at most 128 jumps. *)
Definition name_fuel (payload : bytes) : nat := 129 * S (length payload).

Definition parseDNSName (payload : bytes) (offset : Z) : res (option (bytes * Z)) :=
  if len payload <=? offset then Ok None else
  name_loop (name_fuel payload) payload offset (mkNameState [] offset 0 false 0).

Definition sniffDNSQuery (payload : bytes) : res (option bytes) :=
  if len payload <? dnsHeaderLen then Ok None else
  let! flags := u16 payload 2 in
  if negb (Z.land flags dnsFlagQR =? 0) then Ok None else
  let! qdcount := u16 payload 4 in
  if qdcount =? 0 then Ok None else
  let! r := parseDNSName payload dnsHeaderLen in
  match r with
  | None => Ok None
  | Some (name, _) =>
      let qname := TrimSuffix name [c_dot] in
      if is_empty qname || bool_decide (qname = bs ".") then Ok None else Ok (Some qname)
  end.

(** The questions: the offset after them and the first name; [None] when they
    are cut short. *)
Fixpoint questions_loop (n : nat) (first : bool) (payload : bytes) (off : Z) (qname : bytes) : res (option (Z * bytes)) :=
  match n with
  | O => Ok (Some (off, qname))
  | S n' =>
      let! r := parseDNSName payload off in
      match r with
      | None => Ok None
      | Some (name, consumed) =>
          let off := off + consumed in
          if len payload <? off + 4 then Ok None else
          let qname := if first then TrimSuffix name [c_dot] else qname in
          questions_loop n' false payload (off + 4) qname
      end
  end.

(** The answers: the addresses found until the records end or are cut short. *)
Fixpoint answers_loop (n : nat) (payload : bytes) (off : Z) (ips : list Addr) : res (list Addr) :=
  match n with
  | O => Ok ips
  | S n' =>
      let! r := parseDNSName payload off in
      match r with
      | None => Ok ips
      | Some (_, consumed) =>
          let off := off + consumed in
          if len payload <? off + 10 then Ok ips else
          let! rtype := u16 payload off in
          let! _ := u16 payload (off + 2) in
          let! _ := slice payload (off + 4) (off + 8) in
          let! rdlen := u16 payload (off + 8) in
          let off := off + 10 in
          if len payload <? off + rdlen then Ok ips else
          let! ips :=
            if ((rtype =? dnsTypeA) && (rdlen =? 4)) || ((rtype =? dnsTypeAAAA) && (rdlen =? 16)) then
              let! b := slice payload off (off + rdlen) in
              match AddrFromSlice b with Some ip => Ok (ips ++ [ip]) | None => Ok ips end
            else Ok ips in
          answers_loop n' payload (off + rdlen) ips
      end
  end.

Definition sniffDNSAnswers (payload : bytes) : res (bytes * list Addr) :=
  if len payload <? dnsHeaderLen then Ok ([], []) else
  let! flags := u16 payload 2 in
  if Z.land flags dnsFlagQR =? 0 then Ok ([], []) else
  if negb (Z.land flags dnsRCodeMask =? 0) then Ok ([], []) else
  let! qdcount := u16 payload 4 in
  let! q := questions_loop (Z.to_nat qdcount) true payload dnsHeaderLen [] in
  match q with
  | None => Ok ([], [])
  | Some (off, qname) =>
      let! ancount := u16 payload 6 in
      let! ips := answers_loop (Z.to_nat ancount) payload off [] in
      Ok (qname, ips)
  end.

(** * Reading at offsets *)

Lemma byte_at_ok b i : 0 <= i < len b -> exists v, byte_at b i = Ok v /\ 0 <= v < 256.
Proof.
  intros Hi. destruct (index_ok b i Hi) as [c Hc]. unfold byte_at. rewrite Hc. exists (b2z c).
  split; [done|apply b2z_range].
Qed.

Lemma slice_in b i j : 0 <= i -> i <= j <= len b -> exists s, slice b i j = Ok s /\ len s = j - i.
Proof.
  intros Hi Hj. destruct (slice b i j) as [s|e|] eqn:E.
  - exists s. split; [done|]. by apply len_slice in E.
  - unfold slice in E. by destruct (_ && _).
  - unfold slice in E. rewrite (proj2 (Z.leb_le 0 i)), (proj2 (Z.leb_le i j)), (proj2 (Z.leb_le j (len b))) in E by lia. done.
Qed.

Lemma u16_ok b i : 0 <= i -> i + 2 <= len b -> exists v, u16 b i = Ok v /\ 0 <= v < 65536.
Proof.
  intros Hi Hb. unfold u16. destruct (slice_in b i (i + 2)) as (s & -> & Hs); [lia|lia|]. exists (be_get s).
  split; [done|]. pose proof (be_get_range s) as H. rewrite Hs in H. replace (i + 2 - i) with 2 in H by lia. exact H.
Qed.

(** Reading behind a prefix. *)
Lemma slice_app_r a b i j : 0 <= i -> i <= j -> slice (a ++ b) (len a + i) (len a + j) = slice b i j.
Proof.
  intros Hi Hj. unfold slice. rewrite len_app. pose proof (len_nonneg a).
  rewrite (proj2 (Z.leb_le 0 (len a + i))), (proj2 (Z.leb_le 0 i)) by lia. cbn [andb].
  rewrite (proj2 (Z.leb_le (len a + i) (len a + j))), (proj2 (Z.leb_le i j)) by lia. cbn [andb].
  destruct (Z.leb_spec (len a + j) (len a + len b)), (Z.leb_spec j (len b)); try lia; [|done].
  do 2 f_equal; [f_equal; lia|]. unfold len in *. rewrite drop_app_ge by lia. f_equal. lia.
Qed.

Lemma slice_app_0 a b j : 0 <= j -> slice (a ++ b) (len a) (len a + j) = slice b 0 j.
Proof. intros. rewrite <- (slice_app_r a b 0 j) by lia. f_equal. lia. Qed.

Lemma index_app_r a b i : 0 <= i -> index (a ++ b) (len a + i) = index b i.
Proof.
  intros Hi. unfold index. pose proof (len_nonneg a).
  rewrite (proj2 (Z.leb_le 0 (len a + i))), (proj2 (Z.leb_le 0 i)) by lia.
  rewrite lookup_app_r by (unfold len in *; lia).
  by replace (Z.to_nat (len a + i) - length a)%nat with (Z.to_nat i) by (unfold len in *; lia).
Qed.

Lemma u16_app_r a b i : 0 <= i -> u16 (a ++ b) (len a + i) = u16 b i.
Proof. intros Hi. unfold u16. rewrite <- Z.add_assoc, slice_app_r by lia. done. Qed.

Lemma byte_at_app_r a b i : 0 <= i -> byte_at (a ++ b) (len a + i) = byte_at b i.
Proof. intros Hi. unfold byte_at. by rewrite index_app_r. Qed.

Lemma byte_at_mid a c b : byte_at (a ++ c :: b) (len a) = Ok (b2z c).
Proof. rewrite <- (Z.add_0_r (len a)), byte_at_app_r by lia. done. Qed.

Lemma u16_mid a b : u16 (a ++ b) (len a) = u16 b 0.
Proof. rewrite <- (Z.add_0_r (len a)), u16_app_r by lia. done. Qed.

Lemma slice_take a b : slice (a ++ b) 0 (len a) = Ok a.
Proof. apply slice_prefix. Qed.

Lemma u16_at_put v b : 0 <= v < 65536 -> u16 (be_put 2 v ++ b) 0 = Ok v.
Proof.
  intros Hv. unfold u16. change (0 + 2) with (len (be_put 2 v)). rewrite slice_take. cbn [res_bind].
  by rewrite be_get_put_small.
Qed.

(** * Encoders, to say what the sniffers accept *)

Definition vec8 (d : bytes) : bytes := z2b (len d) :: d.
Definition vec16 (d : bytes) : bytes := be_put 2 (len d) ++ d.

Definition enc_name (n : Z * bytes) : bytes := z2b (fst n) :: vec16 (snd n).
Definition enc_ext (x : Z * bytes) : bytes := be_put 2 (fst x) ++ vec16 (snd x).

Definition name_ok (n : Z * bytes) : Prop := 0 <= fst n < 256 /\ len (snd n) < 65536.
Definition ext_ok (x : Z * bytes) : Prop := 0 <= fst x < 65536 /\ len (snd x) < 65536.

Lemma len_vec16 d : len (vec16 d) = 2 + len d.
Proof. unfold vec16. rewrite len_app, len_be_put. lia. Qed.

Lemma len_enc_name n : len (enc_name n) = 3 + len (snd n).
Proof. unfold enc_name. rewrite len_cons, len_vec16. lia. Qed.

Lemma len_enc_ext x : len (enc_ext x) = 4 + len (snd x).
Proof. unfold enc_ext. rewrite len_app, len_be_put, len_vec16. lia. Qed.

Lemma vec16_split b : 2 <= len b -> exists v, u16 b 0 = Ok v /\ 0 <= v < 65536 /\
  (2 + v <= len b -> exists d rest, b = vec16 d ++ rest /\ len d = v).
Proof.
  intros Hb. destruct (u16_ok b 0) as (v & Hv & Hr); [lia|lia|]. exists v. split; [done|]. split; [done|].
  intros Hl. exists (take (Z.to_nat v) (drop 2 b)), (drop (Z.to_nat v) (drop 2 b)).
  assert (len (take (Z.to_nat v) (drop 2 b)) = v) as Hlen by (unfold len in *; rewrite length_take, length_drop; lia).
  split; [|done]. unfold vec16. rewrite Hlen. rewrite <- app_assoc, take_drop.
  unfold u16 in Hv. unfold slice in Hv. rewrite (proj2 (Z.leb_le (0 + 2) (len b))) in Hv by lia. cbn in Hv.
  injection Hv as <-. change (take (Z.to_nat (0 + 2 - 0)) (drop (Z.to_nat 0) b)) with (take 2 b).
  rewrite be_put_get' by (rewrite length_take; unfold len in Hb; lia). by rewrite take_drop.
Qed.

(** * Names of the extension *)

Lemma names_loop_step f pre n rest :
  name_ok n ->
  names_loop (S f) (pre ++ enc_name n ++ rest) (len pre) =
  if fst n =? tlsSNIHostName then Ok (if isValidSNIHostname (snd n) then Some (snd n) else None)
  else names_loop f (pre ++ enc_name n ++ rest) (len (pre ++ enc_name n)).
Proof.
  intros [Ht Hl]. destruct n as [t d]. cbn [fst snd] in *. cbn [names_loop].
  pose proof (len_nonneg d). pose proof (len_nonneg rest).
  assert (len (pre ++ enc_name (t, d) ++ rest) = len pre + 3 + len d + len rest) as Hlen
    by (rewrite !len_app, len_enc_name; cbn [snd]; lia).
  rewrite (proj2 (Z.ltb_lt _ _)), (proj2 (Z.ltb_ge _ _)) by lia.
  assert (byte_at (pre ++ enc_name (t, d) ++ rest) (len pre) = Ok t) as ->.
  { unfold enc_name. cbn [fst snd app]. rewrite byte_at_mid. by rewrite b2z_z2b_small. }
  cbn [res_bind].
  assert (u16 (pre ++ enc_name (t, d) ++ rest) (len pre + 1) = Ok (len d)) as ->.
  { rewrite u16_app_r by lia. unfold enc_name. cbn [fst snd app].
    change (z2b t :: vec16 d ++ rest) with ([z2b t] ++ (vec16 d ++ rest)). change 1 with (len [z2b t] + 0).
    rewrite u16_app_r by lia. unfold vec16. rewrite <- app_assoc. apply u16_at_put. lia. }
  cbn [res_bind]. rewrite (proj2 (Z.ltb_ge _ _)) by lia.
  destruct (t =? tlsSNIHostName).
  - replace (pre ++ enc_name (t, d) ++ rest) with ((pre ++ z2b t :: be_put 2 (len d)) ++ d ++ rest)
      by (unfold enc_name, vec16; cbn [fst snd app]; by rewrite <- !app_assoc).
    replace (len pre + 3) with (len (pre ++ z2b t :: be_put 2 (len d))) by (rewrite len_app, len_cons, len_be_put; lia).
    rewrite slice_app_0, slice_take by lia. cbn [res_bind]. by destruct (isValidSNIHostname d).
  - f_equal. rewrite len_app, len_enc_name. cbn [snd]. lia.
Qed.

(** What is left is empty, starts with a name, or ends the search. *)
Lemma names_loop_stuck f pre rest :
  (exists n rest', name_ok n /\ rest = enc_name n ++ rest') \/
  names_loop (S f) (pre ++ rest) (len pre) = Ok None.
Proof.
  cbn [names_loop]. pose proof (len_nonneg rest). rewrite len_app.
  destruct (Z.ltb_spec (len pre) (len pre + len rest)); [|by right].
  destruct (Z.ltb_spec (len pre + len rest) (len pre + 3)); [by right|].
  destruct rest as [|t rest]; [unfold len in *; cbn in *; lia|]. rewrite len_cons in *.
  destruct (vec16_split rest) as (v & Hv & Hr & Hsp); [lia|].
  rewrite byte_at_mid. cbn [res_bind]. rewrite u16_app_r by lia.
  change (t :: rest) with ([t] ++ rest). change 1 with (len [t] + 0) at 1. rewrite u16_app_r, Hv by lia. cbn [res_bind].
  destruct (Z.ltb_spec (len pre + (1 + len rest)) (len pre + 3 + v)); [by right|].
  left. destruct Hsp as (d & rest' & -> & Hd); [lia|].
  exists (b2z t, d), rest'. split; [split; cbn [fst snd]; [apply b2z_range|lia]|].
  unfold enc_name. cbn [fst snd]. by rewrite z2b_b2z.
Qed.

(** The names before the first host name are of other types; what follows it is
    not looked at. *)
Definition sni_names (rest host : bytes) : Prop :=
  exists others after,
    rest = concat (map enc_name others) ++ enc_name (tlsSNIHostName, host) ++ after /\
    Forall (fun n => name_ok n /\ fst n <> tlsSNIHostName) others /\
    len host < 65536 /\ isValidSNIHostname host = true.

Lemma names_loop_total f pre rest :
  (length rest < f)%nat -> names_loop f (pre ++ rest) (len pre) <> Panic.
Proof.
  revert pre rest. induction f as [|f IH]; intros pre rest Hf; [lia|].
  destruct (names_loop_stuck f pre rest) as [(n & rest' & Hn & ->)| ->]; [|done].
  rewrite names_loop_step by done. destruct (fst n =? _); [done|]. rewrite app_assoc. apply IH.
  pose proof (len_enc_name n) as Hl. unfold len in Hl. rewrite length_app in Hf. lia.
Qed.

Lemma names_loop_sound f pre rest h :
  names_loop f (pre ++ rest) (len pre) = Ok (Some h) -> sni_names rest h.
Proof.
  revert pre rest. induction f as [|f IH]; intros pre rest H; [done|].
  destruct (names_loop_stuck f pre rest) as [(n & rest' & Hn & ->)|E]; [|by rewrite E in H].
  rewrite names_loop_step in H by done. destruct (Z.eqb_spec (fst n) tlsSNIHostName) as [E|E].
  - destruct (isValidSNIHostname (snd n)) eqn:Ev; [|done]. injection H as <-. exists [], rest'. cbn [map concat app].
    split_and!; [|constructor|apply Hn|done]. rewrite <- E. by destruct n.
  - rewrite app_assoc in H. apply IH in H as (others & after & -> & Ho & Hh & Hv).
    exists (n :: others), after. cbn [map concat]. rewrite <- app_assoc. by split_and!; [|constructor|..].
Qed.

Lemma names_loop_complete f pre rest h :
  (length rest < f)%nat -> sni_names rest h -> names_loop f (pre ++ rest) (len pre) = Ok (Some h).
Proof.
  intros Hf (others & after & -> & Ho & Hh & Hv). revert f pre Hf. induction Ho as [|n others [Hn Hne] _ IH]; intros f pre Hf.
  - destruct f; [lia|]. cbn [map concat app]. rewrite names_loop_step by (split; cbn; [done|done]). cbn [fst snd]. by rewrite Hv.
  - destruct f; [lia|]. cbn [map concat]. rewrite <- (app_assoc (enc_name n)).
    rewrite names_loop_step by done. rewrite (proj2 (Z.eqb_neq _ _)) by done. rewrite app_assoc. apply IH.
    cbn [map concat] in Hf. rewrite !length_app in Hf. rewrite !length_app.
    pose proof (len_enc_name n) as Hl. unfold len in Hl. lia.
Qed.

Lemma slice_vec16 d rest : slice (vec16 d ++ rest) 2 (2 + len d) = Ok d.
Proof.
  unfold vec16. rewrite <- app_assoc. pose proof (len_nonneg d) as Hd.
  pose proof (slice_app_0 (be_put 2 (len d)) (d ++ rest) (len d)) as H. rewrite len_be_put in H. change (Z.of_nat 2) with 2 in H.
  rewrite H by lia. apply slice_take.
Qed.

(** The data of the extension: a list of names, maybe with bytes behind it. *)
Definition sni_data (data host : bytes) : Prop :=
  exists names tail, data = vec16 names ++ tail /\ len names < 65536 /\ sni_names names host.

Lemma parseServerNameExt_cases data :
  parseServerNameExt data = Ok None \/
  exists names tail, data = vec16 names ++ tail /\ len names < 65536 /\
    parseServerNameExt data = names_loop (S (length names)) names 0.
Proof.
  unfold parseServerNameExt. destruct (Z.ltb_spec (len data) 2); [by left|].
  destruct (vec16_split data) as (v & Hv & Hr & Hsp); [lia|]. rewrite Hv. cbn [res_bind].
  destruct (Z.ltb_spec (len data) (2 + v)); [by left|]. right.
  destruct Hsp as (d & rest & -> & Hd); [lia|]. exists d, rest. split_and!; [done|lia|].
  by rewrite <- Hd, slice_vec16.
Qed.

Lemma vec16_inj a b x y : len a < 65536 -> len b < 65536 -> vec16 a ++ x = vec16 b ++ y -> a = b /\ x = y.
Proof.
  intros Ha Hb E. pose proof (len_nonneg a). pose proof (len_nonneg b). unfold vec16 in E. rewrite <- !app_assoc in E.
  apply app_inj_1 in E as [E1 E2]; [|by rewrite !length_be_put].
  apply (f_equal be_get) in E1. rewrite !be_get_put_small in E1 by (change (256 ^ Z.of_nat 2) with 65536; lia).
  apply app_inj_1 in E2; [done|]. unfold len in E1. lia.
Qed.

Lemma parseServerNameExt_exact data :
  parseServerNameExt data <> Panic /\
  forall host, parseServerNameExt data = Ok (Some host) <-> sni_data data host.
Proof.
  destruct (parseServerNameExt_cases data) as [E|(names & tail & -> & Hl & E)]; rewrite E.
  - split; [done|]. intros host. split; [done|]. intros (names & tail & -> & Hl & Hn). exfalso.
    unfold parseServerNameExt in E. rewrite len_app, len_vec16 in E.
    pose proof (len_nonneg names). pose proof (len_nonneg tail).
    rewrite (proj2 (Z.ltb_ge _ _)) in E by lia.
    assert (u16 (vec16 names ++ tail) 0 = Ok (len names)) as Hu by (unfold vec16; rewrite <- app_assoc; apply u16_at_put; lia).
    rewrite Hu in E. cbn [res_bind] in E. rewrite (proj2 (Z.ltb_ge _ _)) in E by lia.
    rewrite slice_vec16 in E. cbn [res_bind] in E.
    pose proof (names_loop_complete (S (length names)) [] names host) as Hc. cbn [app] in Hc.
    change (len (@nil byte)) with 0 in Hc. rewrite Hc in E by (done || lia). done.
  - split; [by apply (names_loop_total _ [] names); lia|]. intros host. split.
    + intros H. apply (names_loop_sound _ [] names) in H. by exists names, tail.
    + intros (names' & tail' & E' & Hl' & Hn). apply vec16_inj in E' as [<- _]; [|done..].
      apply (names_loop_complete _ [] names); [lia|done].
Qed.

(** * Extensions *)

Lemma slice_mid a d b : slice (a ++ d ++ b) (len a) (len a + len d) = Ok d.
Proof. pose proof (len_nonneg d). rewrite slice_app_0 by lia. apply slice_take. Qed.

Lemma exts_loop_step f pre x rest tail :
  ext_ok x ->
  exts_loop (S f) (pre ++ (enc_ext x ++ rest) ++ tail) (len pre) (len pre + len (enc_ext x ++ rest)) =
  if fst x =? tlsExtServerName then parseServerNameExt (snd x)
  else exts_loop f ((pre ++ enc_ext x) ++ rest ++ tail) (len (pre ++ enc_ext x)) (len (pre ++ enc_ext x) + len rest).
Proof.
  intros [Ht Hl]. destruct x as [t d]. cbn [fst snd] in *. cbn [exts_loop].
  pose proof (len_nonneg d). pose proof (len_nonneg rest).
  rewrite (len_app (enc_ext (t, d)) rest), len_enc_ext. cbn [snd].
  rewrite (proj2 (Z.leb_le _ _)) by lia.
  rewrite u16_mid, u16_app_r by lia.
  assert (u16 ((enc_ext (t, d) ++ rest) ++ tail) 0 = Ok t) as ->
    by (unfold enc_ext; cbn [fst snd]; rewrite <- !app_assoc; by apply u16_at_put).
  assert (u16 ((enc_ext (t, d) ++ rest) ++ tail) 2 = Ok (len d)) as ->.
  { unfold enc_ext, vec16. cbn [fst snd]. rewrite <- !app_assoc.
    pose proof (u16_mid (be_put 2 t) (be_put 2 (len d) ++ d ++ rest ++ tail)) as Hm. rewrite len_be_put in Hm.
    change (Z.of_nat 2) with 2 in Hm. rewrite Hm. apply u16_at_put. lia. }
  cbn [res_bind]. rewrite (proj2 (Z.ltb_ge _ _)) by lia.
  assert (pre ++ (enc_ext (t, d) ++ rest) ++ tail = (pre ++ be_put 2 t ++ be_put 2 (len d)) ++ d ++ (rest ++ tail)) as E
    by (unfold enc_ext, vec16; cbn [fst snd]; by rewrite <- !app_assoc).
  assert (len (pre ++ be_put 2 t ++ be_put 2 (len d)) = len pre + 4) as E4 by (rewrite !len_app, !len_be_put; lia).
  destruct (t =? tlsExtServerName).
  - rewrite E, <- E4, slice_mid. done.
  - rewrite <- !app_assoc, len_app, len_enc_ext. cbn [snd]. f_equal; lia.
Qed.

Lemma u16_take b : 2 <= len b -> u16 b 0 = Ok (be_get (take 2 b)).
Proof. intros H. unfold u16, slice. rewrite (proj2 (Z.leb_le (0 + 2) (len b))) by lia. done. Qed.

Lemma u16_app_l b tail : 2 <= len b -> u16 (b ++ tail) 0 = u16 b 0.
Proof.
  intros H. pose proof (len_nonneg tail). rewrite !u16_take by (rewrite ?len_app; lia).
  rewrite take_app_le by (unfold len in *; lia). done.
Qed.

Lemma u16_head b t : 2 <= len b -> u16 b 0 = Ok t -> b = be_put 2 t ++ drop 2 b.
Proof.
  intros H. rewrite u16_take by done. intros [= <-].
  rewrite be_put_get' by (rewrite length_take; unfold len in *; lia). by rewrite take_drop.
Qed.

Lemma exts_loop_stuck f pre rest tail :
  (exists x rest', ext_ok x /\ rest = enc_ext x ++ rest') \/
  exts_loop (S f) (pre ++ rest ++ tail) (len pre) (len pre + len rest) = Ok None.
Proof.
  cbn [exts_loop]. destruct (Z.leb_spec (len pre + 4) (len pre + len rest)); [|by right].
  destruct (u16_ok rest 0) as (t & Ht & Hr); [lia|lia|].
  assert (rest = be_put 2 t ++ drop 2 rest) as E by (apply u16_head; [lia|done]).
  rewrite u16_mid, u16_app_l, Ht by lia. cbn [res_bind].
  set (r2 := drop 2 rest) in *. assert (len rest = 2 + len r2) as Hl by (rewrite E, len_app, len_be_put; lia).
  destruct (vec16_split r2) as (v & Hv & Hv' & Hsp); [lia|].
  assert (u16 (pre ++ rest ++ tail) (len pre + 2) = Ok v) as ->.
  { rewrite u16_app_r by lia. rewrite E, <- app_assoc. 
    pose proof (u16_mid (be_put 2 t) (r2 ++ tail)) as Hm. rewrite len_be_put in Hm. change (Z.of_nat 2) with 2 in Hm.
    rewrite Hm, u16_app_l by lia. done. }
  cbn [res_bind]. destruct (Z.ltb_spec (len pre + len rest) (len pre + 4 + v)); [by right|].
  left. destruct Hsp as (d & rest' & E' & Hd); [lia|]. exists (t, d), rest'.
  split; [split; cbn [fst snd]; lia|]. unfold enc_ext. cbn [fst snd]. by rewrite <- app_assoc, <- E'.
Qed.

Definition sni_exts (rest host : bytes) : Prop :=
  exists others data after,
    rest = concat (map enc_ext others) ++ enc_ext (tlsExtServerName, data) ++ after /\
    Forall (fun x => ext_ok x /\ fst x <> tlsExtServerName) others /\
    len data < 65536 /\ sni_data data host.

Lemma exts_loop_total f pre rest tail :
  (length rest < f)%nat -> exts_loop f (pre ++ rest ++ tail) (len pre) (len pre + len rest) <> Panic.
Proof.
  revert pre rest. induction f as [|f IH]; intros pre rest Hf; [lia|].
  destruct (exts_loop_stuck f pre rest tail) as [(x & rest' & Hx & ->)| ->]; [|done].
  rewrite exts_loop_step by done. destruct (fst x =? _); [apply parseServerNameExt_exact|]. apply IH.
  pose proof (len_enc_ext x) as Hl. unfold len in Hl. rewrite length_app in Hf. lia.
Qed.

Lemma exts_loop_sound f pre rest tail h :
  exts_loop f (pre ++ rest ++ tail) (len pre) (len pre + len rest) = Ok (Some h) -> sni_exts rest h.
Proof.
  revert pre rest. induction f as [|f IH]; intros pre rest H; [done|].
  destruct (exts_loop_stuck f pre rest tail) as [(x & rest' & Hx & ->)|E]; [|by rewrite E in H].
  rewrite exts_loop_step in H by done. destruct (Z.eqb_spec (fst x) tlsExtServerName) as [E|E].
  - apply parseServerNameExt_exact in H. exists [], (snd x), rest'. cbn [map concat app].
    split_and!; [|constructor|apply Hx|done]. rewrite <- E. by destruct x.
  - apply IH in H as (others & data & after & -> & Ho & Hd & Hs).
    exists (x :: others), data, after. cbn [map concat]. rewrite <- app_assoc. by split_and!; [|constructor|..].
Qed.

Lemma exts_loop_complete f pre rest tail h :
  (length rest < f)%nat -> sni_exts rest h ->
  exts_loop f (pre ++ rest ++ tail) (len pre) (len pre + len rest) = Ok (Some h).
Proof.
  intros Hf (others & data & after & -> & Ho & Hd & Hs). revert f pre Hf.
  induction Ho as [|x others [Hx Hne] _ IH]; intros f pre Hf; (destruct f; [lia|]); cbn [map concat].
  - cbn [app]. rewrite exts_loop_step by (split; cbn; [done|done]). cbn [fst snd]. by apply parseServerNameExt_exact.
  - rewrite <- (app_assoc (enc_ext x)). rewrite exts_loop_step by done.
    rewrite (proj2 (Z.eqb_neq _ _)) by done. apply IH.
    cbn [map concat] in Hf. rewrite !length_app in Hf. rewrite !length_app.
    pose proof (len_enc_ext x) as Hl. unfold len in Hl. lia.
Qed.

(** * The ClientHello *)

Lemma len_vec8 d : len (vec8 d) = 1 + len d.
Proof. apply len_cons. Qed.

Lemma read8 a d r : len d < 256 -> byte_at (a ++ vec8 d ++ r) (len a) = Ok (len d).
Proof.
  intros H. unfold vec8. cbn [app]. pose proof (len_nonneg d). by rewrite byte_at_mid, b2z_z2b_small by lia.
Qed.

Lemma read16 a d r : len d < 65536 -> u16 (a ++ vec16 d ++ r) (len a) = Ok (len d).
Proof.
  intros H. pose proof (len_nonneg d). rewrite u16_mid. unfold vec16. rewrite <- app_assoc. apply u16_at_put. lia.
Qed.

Lemma split8 a r : 1 <= len r -> exists v, byte_at (a ++ r) (len a) = Ok v /\ 0 <= v < 256 /\
  (1 + v <= len r -> exists d r', r = vec8 d ++ r' /\ len d = v).
Proof.
  intros H. destruct r as [|c r]; [unfold len in H; cbn in H; lia|]. exists (b2z c). rewrite byte_at_mid.
  pose proof (b2z_range c) as Hc. split; [done|]. split; [done|]. rewrite len_cons. intros Hv.
  exists (take (Z.to_nat (b2z c)) r), (drop (Z.to_nat (b2z c)) r).
  assert (len (take (Z.to_nat (b2z c)) r) = b2z c) as Hl by (unfold len in *; rewrite length_take; lia).
  split; [|done]. unfold vec8. rewrite Hl, z2b_b2z. cbn [app]. by rewrite take_drop.
Qed.

Lemma split16 a r : 2 <= len r -> exists v, u16 (a ++ r) (len a) = Ok v /\ 0 <= v < 65536 /\
  (2 + v <= len r -> exists d r', r = vec16 d ++ r' /\ len d = v).
Proof. intros H. rewrite u16_mid. by apply vec16_split. Qed.

(** The fields of the body of a ClientHello, [fixed] its version and random. *)
Record hello : Type := mkHello {
  h_fixed : bytes; h_sid : bytes; h_suites : bytes; h_comps : bytes; h_exts : bytes; h_tail : bytes;
}.

Definition hello_ok (h : hello) : Prop :=
  len (h_fixed h) = 34 /\ len (h_sid h) < 256 /\ len (h_suites h) < 65536 /\ len (h_comps h) < 256 /\
  len (h_exts h) < 65536.

Definition hello_head (h : hello) : bytes :=
  h_fixed h ++ vec8 (h_sid h) ++ vec16 (h_suites h) ++ vec8 (h_comps h) ++ be_put 2 (len (h_exts h)).

Definition hello_body (h : hello) : bytes := hello_head h ++ h_exts h ++ h_tail h.

Lemma parseClientHelloSNI_hello h :
  hello_ok h ->
  parseClientHelloSNI (hello_body h) =
  exts_loop (S (length (hello_body h))) (hello_head h ++ h_exts h ++ h_tail h) (len (hello_head h))
            (len (hello_head h) + len (h_exts h)).
Proof.
  destruct h as [fixed sid suites comps exts tail]. intros (Hf & Hs & Hu & Hc & He). cbn [h_fixed h_sid h_suites h_comps h_exts h_tail] in *.
  set (h := mkHello fixed sid suites comps exts tail).
  pose proof (len_nonneg sid). pose proof (len_nonneg suites). pose proof (len_nonneg comps).
  pose proof (len_nonneg exts). pose proof (len_nonneg tail).
  assert (len (hello_head h) = 40 + len sid + len suites + len comps) as Hh
    by (unfold hello_head; rewrite !len_app, !len_vec8, len_vec16, len_be_put; cbn [h h_fixed h_sid h_suites h_comps h_exts]; lia).
  assert (len (hello_body h) = 40 + len sid + len suites + len comps + len exts + len tail) as Hb
    by (unfold hello_body; rewrite !len_app, Hh; cbn [h h_exts h_tail]; lia).
  assert (hello_body h = fixed ++ vec8 sid ++ (vec16 suites ++ vec8 comps ++ vec16 exts ++ tail)) as E1
    by (unfold hello_body, hello_head, vec16; cbn [h h_fixed h_sid h_suites h_comps h_exts h_tail]; by rewrite <- !app_assoc).
  assert (hello_body h = (fixed ++ vec8 sid) ++ vec16 suites ++ (vec8 comps ++ vec16 exts ++ tail)) as E2 by (by rewrite E1, <- !app_assoc).
  assert (hello_body h = (fixed ++ vec8 sid ++ vec16 suites) ++ vec8 comps ++ (vec16 exts ++ tail)) as E3 by (by rewrite E1, <- !app_assoc).
  assert (hello_body h = (fixed ++ vec8 sid ++ vec16 suites ++ vec8 comps) ++ vec16 exts ++ tail) as E4 by (by rewrite E1, <- !app_assoc).
  pose proof (read8 fixed sid (vec16 suites ++ vec8 comps ++ vec16 exts ++ tail) Hs) as R1.
  pose proof (read16 (fixed ++ vec8 sid) suites (vec8 comps ++ vec16 exts ++ tail) Hu) as R2.
  pose proof (read8 (fixed ++ vec8 sid ++ vec16 suites) comps (vec16 exts ++ tail) Hc) as R3.
  pose proof (read16 (fixed ++ vec8 sid ++ vec16 suites ++ vec8 comps) exts tail He) as R4.
  rewrite <- E1, Hf in R1. rewrite <- E2, !len_app, len_vec8, Hf in R2. rewrite <- E3, !len_app, len_vec8, len_vec16, Hf in R3.
  rewrite <- E4, !len_app, !len_vec8, len_vec16, Hf in R4.
  unfold parseClientHelloSNI. cbv zeta. change (2 + 32) with 34. rewrite R1. cbn [res_bind]. rewrite R2. cbn [res_bind].
  replace (34 + (1 + len sid) + (2 + len suites)) with (34 + (1 + len sid + (2 + len suites))) by lia.
  rewrite R3. cbn [res_bind].
  replace (34 + (1 + len sid + (2 + len suites)) + (1 + len comps))
    with (34 + (1 + len sid + (2 + len suites + (1 + len comps)))) by lia.
  rewrite R4. cbn [res_bind].
  repeat (rewrite (proj2 (Z.ltb_ge (len (hello_body h)) _)) by lia).
  change (hello_head h ++ exts ++ tail) with (hello_body h). f_equal; lia.
Qed.

Lemma parseClientHelloSNI_cases body :
  parseClientHelloSNI body = Ok None \/ exists h, hello_ok h /\ body = hello_body h.
Proof.
  unfold parseClientHelloSNI. cbv zeta. change (2 + 32) with 34.
  destruct (Z.ltb_spec (len body) 34); [by left|]. destruct (Z.ltb_spec (len body) (34 + 1)); [by left|].
  assert (exists fixed r, body = fixed ++ r /\ len fixed = 34) as (fixed & r1 & -> & Hf).
  { exists (take 34 body), (drop 34 body). split; [by rewrite take_drop|]. unfold len in *. rewrite length_take. lia. }
  rewrite !len_app, <- Hf in *. destruct (split8 fixed r1) as (v1 & -> & Hv1 & S1); [lia|]. cbn [res_bind].
  destruct (Z.ltb_spec (len fixed + len r1) (len fixed + (1 + v1))); [by left|].
  destruct S1 as (sid & r2 & -> & Hsid); [lia|]. rewrite len_app, len_vec8 in *.
  destruct (Z.ltb_spec (len fixed + (1 + len sid + len r2)) (len fixed + (1 + v1) + 2)); [by left|].
  destruct (split16 (fixed ++ vec8 sid) r2) as (v2 & R2 & Hv2 & S2); [lia|].
  rewrite <- app_assoc, len_app, len_vec8 in R2. rewrite <- Hsid, R2. cbn [res_bind].
  destruct (Z.ltb_spec (len fixed + (1 + len sid + len r2)) (len fixed + (1 + len sid) + (2 + v2))); [by left|].
  destruct S2 as (suites & r3 & -> & Hsu); [lia|]. rewrite len_app, len_vec16 in *.
  destruct (Z.ltb_spec (len fixed + (1 + len sid + (2 + len suites + len r3))) (len fixed + (1 + len sid) + (2 + v2) + 1)); [by left|].
  destruct (split8 (fixed ++ vec8 sid ++ vec16 suites) r3) as (v3 & R3 & Hv3 & S3); [lia|].
  rewrite <- !app_assoc, !len_app, len_vec8, len_vec16 in R3. rewrite <- Hsu.
  replace (len fixed + (1 + len sid) + (2 + len suites)) with (len fixed + (1 + len sid + (2 + len suites))) by lia.
  rewrite R3. cbn [res_bind].
  destruct (Z.ltb_spec (len fixed + (1 + len sid + (2 + len suites + len r3))) (len fixed + (1 + len sid + (2 + len suites)) + (1 + v3))); [by left|].
  destruct S3 as (comps & r4 & -> & Hco); [lia|]. rewrite len_app, len_vec8 in *.
  destruct (Z.ltb_spec (len fixed + (1 + len sid + (2 + len suites + (1 + len comps + len r4))))
    (len fixed + (1 + len sid + (2 + len suites)) + (1 + v3) + 2)); [by left|].
  destruct (split16 (fixed ++ vec8 sid ++ vec16 suites ++ vec8 comps) r4) as (v4 & R4 & Hv4 & S4); [lia|].
  rewrite <- !app_assoc, !len_app, !len_vec8, len_vec16 in R4. rewrite <- Hco.
  replace (len fixed + (1 + len sid + (2 + len suites)) + (1 + len comps))
    with (len fixed + (1 + len sid + (2 + len suites + (1 + len comps)))) by lia.
  rewrite R4. cbn [res_bind].
  destruct (Z.ltb_spec (len fixed + (1 + len sid + (2 + len suites + (1 + len comps + len r4))))
    (len fixed + (1 + len sid + (2 + len suites + (1 + len comps))) + 2 + v4)); [by left|].
  right. destruct S4 as (exts & tail & -> & Hex); [lia|]. exists (mkHello fixed sid suites comps exts tail).
  split; [unfold hello_ok; cbn [h_fixed h_sid h_suites h_comps h_exts]; lia|].
  unfold hello_body, hello_head. cbn [h_fixed h_sid h_suites h_comps h_exts h_tail]. unfold vec16. by rewrite <- !app_assoc.
Qed.

Lemma parseClientHelloSNI_exact body :
  parseClientHelloSNI body <> Panic /\
  forall host, parseClientHelloSNI body = Ok (Some host) <->
    exists h, hello_ok h /\ body = hello_body h /\ sni_exts (h_exts h) host.
Proof.
  assert (forall h, (length (h_exts h) < S (length (hello_body h)))%nat) as Hfuel
    by (intros h; unfold hello_body; rewrite !length_app; lia).
  split.
  - destruct (parseClientHelloSNI_cases body) as [-> | (h & Hh & ->)]; [done|].
    rewrite parseClientHelloSNI_hello by done. by apply exts_loop_total.
  - intros host. split.
    + intros H. destruct (parseClientHelloSNI_cases body) as [E|(h & Hh & ->)]; [by rewrite E in H|].
      rewrite parseClientHelloSNI_hello in H by done. apply exts_loop_sound in H. eauto.
    + intros (h & Hh & -> & Hs). rewrite parseClientHelloSNI_hello by done. by apply exts_loop_complete.
Qed.

Lemma lor_shiftl_add k a b : 0 <= k -> 0 <= b < 2 ^ k -> Z.lor (Z.shiftl a k) b = a * 2 ^ k + b.
Proof.
  intros Hk Hb. assert (Z.land (Z.shiftl a k) b = 0) as Hl.
  { apply Z.bits_inj'. intros n Hn. rewrite Z.land_spec, Z.shiftl_spec, Z.bits_0 by done.
    destruct (Z.ltb_spec n k); [by rewrite Z.testbit_neg_r by lia|].
    rewrite <- (Z.mod_small b (2 ^ k)) by done. rewrite Z.mod_pow2_bits_high by lia. apply andb_false_r. }
  rewrite <- Z.lxor_lor, <- Z.add_nocarry_lxor by done. by rewrite Z.shiftl_mul_pow2.
Qed.

Lemma lor3 x y z : 0 <= x < 256 -> 0 <= y < 256 -> 0 <= z < 256 ->
  Z.lor (Z.lor (Z.shiftl x 16) (Z.shiftl y 8)) z = (x * 256 + y) * 256 + z.
Proof.
  intros Hx Hy Hz. assert (Z.lor (Z.shiftl x 16) (Z.shiftl y 8) = Z.shiftl (x * 256 + y) 8) as ->.
  { rewrite (Z.shiftl_mul_pow2 y), (lor_shiftl_add 16) by lia. rewrite Z.shiftl_mul_pow2 by lia. lia. }
  rewrite lor_shiftl_add by lia. lia.
Qed.

(** The first record: its type and version, whose minor byte and whose length
    are not looked at, the ClientHello and whatever follows. *)
Definition tls_record (ignored body trailing : bytes) : bytes :=
  z2b tlsRecordHandshake :: z2b 3 :: ignored ++ z2b tlsHandshakeClientHello :: be_put 3 (len body) ++ body ++ trailing.

Lemma be_put3_get a b c : be_put 3 ((b2z a * 256 + b2z b) * 256 + b2z c) = [a; b; c].
Proof.
  rewrite <- (be_put_get' 3 [a; b; c]) by done. reflexivity.
Qed.

Lemma sniffSNI_record ignored body trailing :
  length ignored = 3%nat -> len body < 2 ^ 24 ->
  sniffSNI (tls_record ignored body trailing) = parseClientHelloSNI body.
Proof.
  intros Hi Hb. destruct ignored as [|m [|l1 [|l2 [|? ?]]]]; try done. pose proof (len_nonneg body).
  pose proof (length_be_put 3 (len body)) as Hp. pose proof (be_get_put_small 3 (len body)) as Hg.
  destruct (be_put 3 (len body)) as [|x [|y [|z [|? ?]]]] eqn:Ep; try done.
  assert (len body = (b2z x * 256 + b2z y) * 256 + b2z z) as Hv.
  { rewrite <- Hg by (change (256 ^ Z.of_nat 3) with (2 ^ 24); lia). unfold be_get. cbn. lia. }
  unfold tls_record. rewrite Ep. cbn [app].
  set (head := [z2b tlsRecordHandshake; z2b 3; m; l1; l2; z2b tlsHandshakeClientHello; x; y; z]).
  change (sniffSNI (head ++ body ++ trailing) = parseClientHelloSNI body).
  assert (len (head ++ body ++ trailing) = 9 + len body + len trailing) as Hl by (rewrite !len_app; change (len head) with 9; lia).
  pose proof (len_nonneg trailing). unfold sniffSNI. rewrite !(proj2 (Z.ltb_ge (len (head ++ body ++ trailing)) _)) by lia.
  change (byte_at (head ++ body ++ trailing) 0) with (Ok tlsRecordHandshake).
  change (byte_at (head ++ body ++ trailing) 1) with (Ok 3).
  change (byte_at (head ++ body ++ trailing) 5) with (Ok tlsHandshakeClientHello).
  change (byte_at (head ++ body ++ trailing) 6) with (Ok (b2z x)).
  change (byte_at (head ++ body ++ trailing) 7) with (Ok (b2z y)).
  change (byte_at (head ++ body ++ trailing) 8) with (Ok (b2z z)).
  cbn [res_bind negb Z.eqb tlsRecordHandshake tlsHandshakeClientHello]. cbv zeta.
  rewrite lor3 by apply b2z_range. rewrite <- Hv. rewrite (proj2 (Z.ltb_ge _ _)) by lia.
  change 9 with (len head). rewrite slice_mid. done.
Qed.

Lemma sniffSNI_cases payload :
  sniffSNI payload = Ok None \/
  exists ignored body trailing, payload = tls_record ignored body trailing /\ length ignored = 3%nat /\ len body < 2 ^ 24.
Proof.
  unfold sniffSNI. destruct (Z.ltb_spec (len payload) 5); [by left|].
  destruct payload as [|b0 [|b1 [|m [|l1 [|l2 p]]]]]; try (unfold len in *; cbn in *; lia).
  change (byte_at (b0 :: b1 :: m :: l1 :: l2 :: p) 0) with (Ok (b2z b0)).
  change (byte_at (b0 :: b1 :: m :: l1 :: l2 :: p) 1) with (Ok (b2z b1)). cbn [res_bind].
  destruct (Z.eqb_spec (b2z b0) tlsRecordHandshake) as [E0|]; [|by left].
  destruct (Z.eqb_spec (b2z b1) 3) as [E1|]; [|by left]. cbn [negb].
  destruct (Z.ltb_spec (len (b0 :: b1 :: m :: l1 :: l2 :: p)) 9); [by left|].
  destruct p as [|b5 [|x [|y [|z p]]]]; try (unfold len in *; cbn in *; lia).
  set (all := b0 :: b1 :: m :: l1 :: l2 :: b5 :: x :: y :: z :: p) in *.
  change (byte_at all 5) with (Ok (b2z b5)). change (byte_at all 6) with (Ok (b2z x)).
  change (byte_at all 7) with (Ok (b2z y)). change (byte_at all 8) with (Ok (b2z z)). cbn [res_bind].
  destruct (Z.eqb_spec (b2z b5) tlsHandshakeClientHello) as [E5|]; [|by left]. cbn [negb]. cbv zeta.
  rewrite lor3 by apply b2z_range. set (n := (b2z x * 256 + b2z y) * 256 + b2z z).
  pose proof (b2z_range x). pose proof (b2z_range y). pose proof (b2z_range z).
  destruct (Z.ltb_spec (len all) (5 + 4 + n)) as [|Hn]; [by left|]. right.
  assert (len all = 9 + len p) as Hall by (unfold all, len; cbn; lia).
  exists [m; l1; l2], (take (Z.to_nat n) p), (drop (Z.to_nat n) p).
  assert (len (take (Z.to_nat n) p) = n) as Hl by (unfold len in *; rewrite length_take; lia).
  split; [|split; [done|rewrite Hl; unfold n; lia]]. unfold tls_record. rewrite Hl. unfold n. rewrite be_put3_get. cbn [app].
  fold n. rewrite take_drop. unfold all. rewrite <- E0, <- E1, <- E5, !z2b_b2z. done.
Qed.

(** [sniffSNI] never panics, and it finds a host exactly in a TLS handshake record
    of version 3.x that holds a complete ClientHello whose session id, cipher
    suites, compression methods and extensions are in place, whose first
    server_name extension lists names of which the first of type host_name is
    the host, and only if that is a valid host name with a letter in it.  Bytes
    after the parts it needs are not looked at. *)
Theorem sni_sniffer_exact (payload : bytes) :
  sniffSNI payload <> Panic /\
  forall host, sniffSNI payload = Ok (Some host) <->
    exists ignored h trailing,
      payload = tls_record ignored (hello_body h) trailing /\ length ignored = 3%nat /\
      hello_ok h /\ len (hello_body h) < 2 ^ 24 /\ sni_exts (h_exts h) host.
Proof.
  split.
  - destruct (sniffSNI_cases payload) as [-> | (ig & body & tr & -> & Hi & Hb)]; [done|].
    rewrite sniffSNI_record by done. apply parseClientHelloSNI_exact.
  - intros host. split.
    + intros H. destruct (sniffSNI_cases payload) as [E|(ig & body & tr & -> & Hi & Hb)]; [by rewrite E in H|].
      rewrite sniffSNI_record in H by done. apply parseClientHelloSNI_exact in H as (h & Hh & -> & Hs).
      exists ig, h, tr. done.
    + intros (ig & h & tr & -> & Hi & Hh & Hb & Hs). rewrite sniffSNI_record by done.
      apply parseClientHelloSNI_exact. eauto.
Qed.

(** A hello with a key share before its server name. *)
Definition sample_hello : hello :=
  mkHello (replicate 34 (z2b 7)) [] (be_put 2 4865) [z2b 0]
    (enc_ext (51, [z2b 1]) ++ enc_ext (0, vec16 (enc_name (0, bs "Www.Example.com"))) ++ enc_ext (16, [])) [].

Example sniff_sample :
  sniffSNI (tls_record (be_put 3 256) (hello_body sample_hello) (bs "more")) = Ok (Some (bs "Www.Example.com")) /\
  sniffSNI (take 60 (tls_record (be_put 3 256) (hello_body sample_hello) [])) = Ok None.
Proof. by vm_compute. Qed.

(** * DNS names *)

Section Names.
Context (payload : bytes) (offset : Z).

(** What holds of the loop state at offset [offset]. *)
Definition name_inv (s : name_state) : Prop :=
  0 <= offset /\ 0 <= ns_pos s /\ 0 <= ns_hops s <= 128 /\
  (ns_ptr s = false -> offset <= ns_pos s) /\
  (ns_ptr s = true -> 1 <= ns_consumed s <= len payload - offset).

(** Steps left: a jump resets the position, a label moves it. *)
Definition name_measure (s : name_state) : Z :=
  (128 - ns_hops s) * (len payload + 1) + Z.max 0 (len payload - ns_pos s).

Definition name_result_ok (out : option (bytes * Z)) : Prop :=
  forall n c, out = Some (n, c) -> 1 <= c <= len payload - offset.

Lemma name_step_ok s :
  name_inv s -> ns_hops s < 128 ->
  match name_step payload offset s with
  | Ok (inl s') => name_inv s' /\ name_measure s' < name_measure s
  | Ok (inr out) => name_result_ok out
  | _ => False
  end.
Proof.
  intros (Ho & Hp & Hh & Hf & Ht) Hlt. unfold name_step, name_result_ok. destruct (Z.leb_spec (len payload) (ns_pos s)); [done|].
  destruct (byte_at_ok payload (ns_pos s)) as (l & -> & Hl); [lia|]. cbn [res_bind].
  assert (ns_ptr s = true \/ ns_ptr s = false) as Hptr by (destruct (ns_ptr s); auto).
  destruct (Z.land l 192 =? 192).
  - destruct (Z.leb_spec (len payload) (ns_pos s + 1)); [done|].
    destruct (byte_at_ok payload (ns_pos s + 1)) as (lo & -> & Hlo); [lia|]. cbn [res_bind].
    assert (0 <= Z.lor (Z.shiftl (Z.land l 63) 8) lo) as Ht0.
    { apply Z.lor_nonneg. split; [|lia]. apply Z.shiftl_nonneg, Z.land_nonneg. lia. }
    unfold name_inv, name_measure. cbn [ns_pos ns_hops ns_ptr ns_consumed]. split; [|nia]. split_and!; try lia; try done.
    intros _. destruct Hptr as [E|E]; rewrite E; [by apply Ht|specialize (Hf E); lia].
  - destruct (Z.land l 192 =? 0); cbn [negb]; [|done]. destruct (Z.eqb_spec l 0) as [->|Hl0].
    + assert (1 <= (if ns_ptr s then ns_consumed s else ns_pos s + 1 - offset) <= len payload - offset) as Hc.
      { destruct Hptr as [E|E]; rewrite E; [by apply Ht|specialize (Hf E); lia]. }
      destruct (ns_labels s); intros n c [= _ <-]; done.
    + destruct (Z.ltb_spec (len payload) (ns_pos s + 1 + l)); [done|].
      destruct (slice_in payload (ns_pos s + 1) (ns_pos s + 1 + l)) as (lab & -> & _); [lia|lia|]. cbn [res_bind].
      unfold name_inv, name_measure. cbn [ns_pos ns_hops ns_ptr ns_consumed]. split; [|nia].
      split_and!; try lia; [intros E; specialize (Hf E); lia|done].
Qed.

Lemma name_loop_ok fuel s :
  name_inv s -> name_measure s < Z.of_nat fuel ->
  match name_loop fuel payload offset s with Ok out => name_result_ok out | _ => False end.
Proof.
  revert s. induction fuel as [|fuel IH]; intros s Hs Hm.
  { exfalso. destruct Hs as (_ & _ & Hh & _). unfold name_measure in Hm. pose proof (len_nonneg payload). nia. }
  cbn [name_loop]. destruct (Z.ltb_spec (ns_hops s) 128) as [Hh|Hh]; [|done].
  pose proof (name_step_ok s Hs Hh) as H. destruct (name_step payload offset s) as [[s'|out]| |]; cbn [res_bind]; try done.
  apply IH; [apply H|]. lia.
Qed.

End Names.

Lemma parseDNSName_ok payload offset :
  0 <= offset ->
  match parseDNSName payload offset with Ok out => name_result_ok payload offset out | _ => False end.
Proof.
  intros Ho. unfold parseDNSName. destruct (Z.leb_spec (len payload) offset); [done|]. apply name_loop_ok.
  - unfold name_inv. cbn. split_and!; try lia; done.
  - unfold name_measure, name_fuel. cbn [ns_hops ns_pos]. unfold len. lia.
Qed.

Lemma questions_loop_ok n first payload off qname :
  0 <= off ->
  match questions_loop n first payload off qname with
  | Ok (Some (off', _)) => off <= off'
  | Ok None => True
  | _ => False
  end.
Proof.
  revert first off qname. induction n as [|n IH]; intros first off qname Ho; cbn [questions_loop]; [lia|].
  pose proof (parseDNSName_ok payload off Ho) as H. destruct (parseDNSName payload off) as [[[name c]|]| |]; cbn [res_bind]; try done.
  specialize (H name c eq_refl). destruct (len payload <? off + c + 4); [done|].
  specialize (IH false (off + c + 4) (if first then TrimSuffix name [c_dot] else qname)).
  destruct (questions_loop _ _ _ _ _) as [[[off' q]|]| |]; try done; [|apply IH; lia..].
  assert (off + c + 4 <= off') by (apply IH; lia). lia.
Qed.

Lemma answers_loop_ok n payload off ips : 0 <= off -> exists r, answers_loop n payload off ips = Ok r.
Proof.
  revert off ips. induction n as [|n IH]; intros off ips Ho; cbn [answers_loop]; [eauto|].
  pose proof (parseDNSName_ok payload off Ho) as H. destruct (parseDNSName payload off) as [[[name c]|]| |]; cbn [res_bind]; try done; [|eauto].
  specialize (H name c eq_refl). destruct (Z.ltb_spec (len payload) (off + c + 10)); [eauto|].
  destruct (u16_ok payload (off + c)) as (t & -> & _); [lia|lia|]. destruct (u16_ok payload (off + c + 2)) as (cl & -> & _); [lia|lia|].
  destruct (slice_in payload (off + c + 4) (off + c + 8)) as (ttl & -> & _); [lia|lia|].
  destruct (u16_ok payload (off + c + 8)) as (rd & -> & Hrd); [lia|lia|]. cbn [res_bind].
  destruct (Z.ltb_spec (len payload) (off + c + 10 + rd)); [eauto|].
  destruct (_ || _).
  - destruct (slice_in payload (off + c + 10) (off + c + 10 + rd)) as (b & -> & _); [lia|lia|]. cbn [res_bind].
    destruct (AddrFromSlice b); cbn [res_bind]; apply IH; lia.
  - cbn [res_bind]. apply IH. lia.
Qed.

(** * DNS messages, to say what is found in them *)

Definition enc_qname (labels : list bytes) : bytes := concat (map vec8 labels) ++ [z2b 0].

Definition labels_ok (labels : list bytes) : Prop := Forall (fun l => 1 <= len l < 64) labels.

(** The text of a name; the root is a dot. *)
Definition name_text (labels : list bytes) : bytes :=
  match labels with [] => bs "." | _ => Join labels c_dot end.

(** [consumed] of the loop when it reaches the end of the name at [pos]. *)
Lemma name_loop_labels payload offset labels fuel pre rest acc consumed ptr hops :
  payload = pre ++ enc_qname labels ++ rest -> labels_ok labels -> (length labels < fuel)%nat -> hops < 128 ->
  name_loop fuel payload offset (mkNameState acc (len pre) consumed ptr hops) =
  Ok (Some (name_text (acc ++ labels),
            if ptr then consumed else len pre + len (enc_qname labels) - offset)).
Proof.
  intros Hp Hl. revert pre acc fuel Hp. induction Hl as [|l labels Hl Hls IH]; intros pre acc fuel Hp Hf Hh;
    (destruct fuel as [|fuel]; [lia|]); cbn [name_loop ns_hops]; rewrite (proj2 (Z.ltb_lt _ _)) by done.
  - unfold enc_qname in Hp. cbn [map concat app] in Hp. unfold name_step. cbn [ns_pos ns_labels ns_ptr ns_consumed].
    pose proof (len_nonneg rest).
    assert (len payload = len pre + (1 + len rest)) as Hlen by (rewrite Hp, len_app, len_cons; done).
    rewrite (proj2 (Z.leb_gt _ _)) by lia.
    assert (byte_at payload (len pre) = Ok 0) as -> by (rewrite Hp; apply byte_at_mid).
    cbn [res_bind Z.land Z.eqb negb]. rewrite app_nil_r. change (len (enc_qname [])) with 1. by destruct acc, ptr.
  - assert (enc_qname (l :: labels) = vec8 l ++ enc_qname labels) as E by (unfold enc_qname; cbn [map concat]; by rewrite <- app_assoc).
    rewrite E, <- app_assoc in Hp. unfold name_step. cbn [ns_pos ns_labels ns_ptr ns_consumed ns_hops].
    assert (1 <= len (enc_qname labels)) as Hq.
    { unfold enc_qname. rewrite len_app. pose proof (len_nonneg (concat (map vec8 labels))). change (len [z2b 0]) with 1. lia. }
    pose proof (len_nonneg rest).
    assert (len payload = len pre + (1 + len l + (len (enc_qname labels) + len rest))) as Hlen
      by (rewrite Hp, !len_app, len_vec8; lia).
    rewrite (proj2 (Z.leb_gt _ _)) by lia.
    assert (byte_at payload (len pre) = Ok (len l)) as -> by (rewrite Hp; apply read8; lia).
    cbn [res_bind].
    assert (Z.land (len l) 192 = 0) as ->.
    { apply Z.bits_inj'. intros n Hn. rewrite Z.land_spec, Z.bits_0. destruct (Z.ltb_spec n 6).
      - replace (Z.testbit 192 n) with false; [apply andb_false_r|].
        assert (n = 0 \/ n = 1 \/ n = 2 \/ n = 3 \/ n = 4 \/ n = 5) as Hn6 by lia.
        destruct Hn6 as [->|[->|[->|[->|[->| ->]]]]]; done.
      - rewrite <- (Z.mod_small (len l) (2 ^ 6)) by (change (2 ^ 6) with 64; lia). by rewrite Z.mod_pow2_bits_high by lia. }
    change (0 =? 192) with false. change (0 =? 0) with true. cbn [negb]. rewrite (proj2 (Z.eqb_neq _ _)) by lia.
    rewrite (proj2 (Z.ltb_ge _ _)) by lia.
    assert (payload = (pre ++ [z2b (len l)]) ++ l ++ (enc_qname labels ++ rest)) as Hp2
      by (rewrite Hp; unfold vec8; by rewrite <- app_assoc).
    assert (slice payload (len pre + 1) (len pre + 1 + len l) = Ok l) as ->.
    { rewrite Hp2. replace (len pre + 1) with (len (pre ++ [z2b (len l)])) by (rewrite len_app; done). apply slice_mid. }
    cbn [res_bind].
    replace (len pre + 1 + len l) with (len (pre ++ vec8 l)) by (rewrite len_app, len_vec8; lia).
    rewrite IH; [|by rewrite Hp, <- app_assoc|cbn in Hf; lia|done].
    rewrite <- app_assoc. cbn [app]. rewrite E, !len_app. destruct ptr; do 3 f_equal. lia.
Qed.

Lemma labels_count labels : labels_ok labels -> Z.of_nat (length labels) < len (enc_qname labels).
Proof.
  intros H. unfold enc_qname. rewrite len_app. change (len [z2b 0]) with 1.
  induction H as [|l labels Hl _ IH]; [by vm_compute|]. cbn [length map concat]. rewrite len_app, len_vec8. lia.
Qed.

(** A name written out. *)
Lemma parseDNSName_plain pre labels rest :
  labels_ok labels ->
  parseDNSName (pre ++ enc_qname labels ++ rest) (len pre) =
  Ok (Some (name_text labels, len (enc_qname labels))).
Proof.
  intros Hl. pose proof (labels_count labels Hl). pose proof (len_nonneg rest). pose proof (len_nonneg pre).
  assert (len (pre ++ enc_qname labels ++ rest) = len pre + (len (enc_qname labels) + len rest)) as Hlen by (by rewrite !len_app).
  unfold parseDNSName. rewrite (proj2 (Z.leb_gt _ _)) by lia.
  rewrite (name_loop_labels _ _ labels _ pre rest [] 0 false 0); [cbn [app]; do 3 f_equal; lia|done|done| |lia].
  unfold name_fuel. unfold len in *. lia.
Qed.

(** A pointer to the name after the header. *)
Lemma parseDNSName_pointer hdr labels mid rest :
  len hdr = 12 -> labels_ok labels ->
  parseDNSName (hdr ++ enc_qname labels ++ mid ++ be_put 2 49164 ++ rest) (len (hdr ++ enc_qname labels ++ mid)) =
  Ok (Some (name_text labels, 2)).
Proof.
  intros Hh Hl. pose proof (labels_count labels Hl) as Hc. pose proof (len_nonneg rest). pose proof (len_nonneg mid).
  set (pre := hdr ++ enc_qname labels ++ mid).
  assert (hdr ++ enc_qname labels ++ mid ++ be_put 2 49164 ++ rest = pre ++ z2b 192 :: z2b 12 :: rest) as E
    by (unfold pre; rewrite <- !app_assoc; done).
  set (payload := hdr ++ enc_qname labels ++ mid ++ be_put 2 49164 ++ rest) in *.
  assert (len payload = len pre + (2 + len rest)) as Hlen by (rewrite E, len_app, !len_cons; lia).
  unfold parseDNSName. rewrite (proj2 (Z.leb_gt _ _)) by lia.
  destruct (name_fuel payload) as [|fuel] eqn:Ef; [done|]. cbn [name_loop ns_hops]. change (0 <? 128) with true. cbn iota.
  unfold name_step. cbn [ns_pos ns_ptr ns_labels ns_hops ns_consumed]. rewrite (proj2 (Z.leb_gt _ _)) by lia.
  assert (byte_at payload (len pre) = Ok 192) as -> by (rewrite E; apply byte_at_mid). cbn [res_bind].
  change (Z.land 192 192 =? 192) with true. cbn iota. rewrite (proj2 (Z.leb_gt _ _)) by lia.
  assert (byte_at payload (len pre + 1) = Ok 12) as -> by (rewrite E, byte_at_app_r by lia; done). cbn [res_bind].
  change (Z.lor (Z.shiftl (Z.land 192 63) 8) 12) with 12. rewrite <- Hh.
  rewrite (name_loop_labels _ _ labels _ hdr (mid ++ be_put 2 49164 ++ rest) [] _ true (0 + 1)); [cbn [app]; do 3 f_equal; lia|done|done| |lia].
  unfold name_fuel in Ef. assert (Z.of_nat (length labels) < len payload).
  { unfold pre in Hlen. rewrite !len_app in Hlen. pose proof (len_nonneg hdr). lia. }
  unfold len in *. lia.
Qed.

(** A resource record; [None] as its name is a pointer to the question. *)
Record answer : Type := mkAnswer { a_name : option (list bytes); a_type : Z; a_class_ttl : bytes; a_data : bytes }.

Definition answer_ok (a : answer) : Prop :=
  match a_name a with Some labels => labels_ok labels | None => True end /\
  0 <= a_type a < 65536 /\ len (a_class_ttl a) = 6 /\ len (a_data a) < 65536.

Definition enc_answer_name (n : option (list bytes)) : bytes :=
  match n with None => be_put 2 49164 | Some labels => enc_qname labels end.

Definition enc_answer (a : answer) : bytes :=
  enc_answer_name (a_name a) ++ be_put 2 (a_type a) ++ a_class_ttl a ++ vec16 (a_data a).

(** The address a record gives, if it gives one. *)
Definition answer_ip (a : answer) : option Addr :=
  if ((a_type a =? dnsTypeA) && (len (a_data a) =? 4)) || ((a_type a =? dnsTypeAAAA) && (len (a_data a) =? 16))
  then AddrFromSlice (a_data a) else None.

(** A message with one question. *)
Definition dns_header (id flags ancount : Z) (counts : bytes) : bytes :=
  be_put 2 id ++ be_put 2 flags ++ be_put 2 1 ++ be_put 2 ancount ++ counts.

Definition dns_message (id flags : Z) (counts : bytes) (labels : list bytes) (qtype_class : bytes)
    (answers : list answer) (rest : bytes) : bytes :=
  dns_header id flags (len answers) counts ++ enc_qname labels ++ qtype_class ++ concat (map enc_answer answers) ++ rest.

Lemma answer_step n pre body labels a rest ips hdr mid :
  len hdr = 12 -> labels_ok labels -> answer_ok a -> pre = hdr ++ enc_qname labels ++ mid -> body = pre ++ enc_answer a ++ rest ->
  answers_loop (S n) body (len pre) ips =
  answers_loop n body (len (pre ++ enc_answer a)) (ips ++ match answer_ip a with Some ip => [ip] | None => [] end).
Proof.
  intros Hh Hl (Hn & Ht & Hc & Hd) Hpre Hbody. cbn [answers_loop].
  pose proof (len_nonneg rest). pose proof (len_nonneg (a_data a)).
  assert (exists t, parseDNSName body (len pre) = Ok (Some (t, len (enc_answer_name (a_name a))))) as [t ->].
  { rewrite Hbody. unfold enc_answer. rewrite <- !app_assoc. destruct (a_name a) as [ls|]; cbn [enc_answer_name].
    - eexists. by apply parseDNSName_plain.
    - exists (name_text labels). rewrite Hpre, <- !app_assoc. by apply parseDNSName_pointer. }
  cbn [res_bind]. set (nm := enc_answer_name (a_name a)) in *.
  assert (body = (pre ++ nm) ++ be_put 2 (a_type a) ++ a_class_ttl a ++ be_put 2 (len (a_data a)) ++ a_data a ++ rest) as E
    by (rewrite Hbody; unfold enc_answer, vec16; by rewrite <- !app_assoc).
  assert (len body = len (pre ++ nm) + 10 + len (a_data a) + len rest) as Hlen
    by (rewrite E, len_app; rewrite (len_app (be_put 2 _)), !len_app, !len_be_put; lia).
  rewrite <- len_app. rewrite !(proj2 (Z.ltb_ge (len body) _)) by lia.
  assert (u16 body (len (pre ++ nm)) = Ok (a_type a)) as -> by (rewrite E, u16_mid; by apply u16_at_put).
  destruct (u16_ok body (len (pre ++ nm) + 2)) as (cl & -> & _); [pose proof (len_nonneg (pre ++ nm)); lia|lia|].
  destruct (slice_in body (len (pre ++ nm) + 4) (len (pre ++ nm) + 8)) as (tl & -> & _); [pose proof (len_nonneg (pre ++ nm)); lia|lia|].
  assert (u16 body (len (pre ++ nm) + 8) = Ok (len (a_data a))) as ->.
  { rewrite E, u16_app_r by lia. rewrite app_assoc.
    pose proof (u16_mid (be_put 2 (a_type a) ++ a_class_ttl a) (be_put 2 (len (a_data a)) ++ a_data a ++ rest)) as Hm.
    rewrite len_app, len_be_put, Hc in Hm. change (Z.of_nat 2 + 6) with 8 in Hm. rewrite Hm. apply u16_at_put. lia. }
  cbn [res_bind]. rewrite (proj2 (Z.ltb_ge (len body) _)) by lia.
  assert (slice body (len (pre ++ nm) + 10) (len (pre ++ nm) + 10 + len (a_data a)) = Ok (a_data a)) as Hs.
  { assert (body = (pre ++ nm ++ be_put 2 (a_type a) ++ a_class_ttl a ++ be_put 2 (len (a_data a))) ++ a_data a ++ rest) as E2
      by (rewrite E, <- !app_assoc; done).
    rewrite E2. replace (len (pre ++ nm) + 10) with (len (pre ++ nm ++ be_put 2 (a_type a) ++ a_class_ttl a ++ be_put 2 (len (a_data a))))
      by (rewrite !len_app, !len_be_put; lia). apply slice_mid. }
  assert (len (pre ++ enc_answer a) = len (pre ++ nm) + 10 + len (a_data a)) as ->.
  { unfold enc_answer, vec16. fold nm. rewrite !len_app, !len_be_put. lia. }
  rewrite Hs. unfold answer_ip. destruct (_ || _); cbn [res_bind]; [|by rewrite app_nil_r].
  destruct (AddrFromSlice (a_data a)); cbn [res_bind]; by rewrite ?app_nil_r.
Qed.

Lemma answers_loop_all hdr labels answers mid rest body ips :
  len hdr = 12 -> labels_ok labels -> Forall answer_ok answers ->
  body = (hdr ++ enc_qname labels ++ mid) ++ concat (map enc_answer answers) ++ rest ->
  answers_loop (length answers) body (len (hdr ++ enc_qname labels ++ mid)) ips = Ok (ips ++ omap answer_ip answers).
Proof.
  intros Hh Hl Ha. revert mid ips. induction Ha as [|a answers Ha _ IH]; intros mid ips Hb; cbn [length].
  { cbn. by rewrite app_nil_r. }
  cbn [map concat] in Hb. rewrite <- (app_assoc (enc_answer a)) in Hb.
  rewrite (answer_step _ (hdr ++ enc_qname labels ++ mid) body labels a (concat (map enc_answer answers) ++ rest) ips hdr mid) by done.
  replace ((hdr ++ enc_qname labels ++ mid) ++ enc_answer a) with (hdr ++ enc_qname labels ++ (mid ++ enc_answer a)) by (by rewrite <- !app_assoc).
  rewrite IH by (rewrite Hb; by rewrite <- !app_assoc). rewrite <- app_assoc. cbn [omap list_omap]. by destruct (answer_ip a).
Qed.

Lemma header_fields id flags n counts rest :
  0 <= flags < 65536 -> 0 <= n < 65536 -> len counts = 4 ->
  let m := dns_header id flags n counts ++ rest in
  len (dns_header id flags n counts) = 12 /\ u16 m 2 = Ok flags /\ u16 m 4 = Ok 1 /\ u16 m 6 = Ok n.
Proof.
  intros Hf Hn Hc m. assert (len (dns_header id flags n counts) = 12) as Hl by (unfold dns_header; rewrite !len_app, !len_be_put; lia).
  split; [done|]. unfold m, dns_header. rewrite <- !app_assoc.
  pose proof (u16_mid (be_put 2 id) (be_put 2 flags ++ be_put 2 1 ++ be_put 2 n ++ counts ++ rest)) as H1.
  pose proof (u16_mid (be_put 2 id ++ be_put 2 flags) (be_put 2 1 ++ be_put 2 n ++ counts ++ rest)) as H2.
  pose proof (u16_mid (be_put 2 id ++ be_put 2 flags ++ be_put 2 1) (be_put 2 n ++ counts ++ rest)) as H3.
  rewrite !len_app, !len_be_put, <- !app_assoc in *.
  change (Z.of_nat 2) with 2 in *. change (2 + 2) with 4 in *. change (2 + (2 + 2)) with 6 in *. change (2 + 4) with 6 in *.
  rewrite H1, H2, H3. split_and!; apply u16_at_put; lia.
Qed.

(** The DNS sniffers return on every packet: no index is out of range and the walk
    over a name ends, compression pointers that loop included.  A name takes at
    least one byte and ends inside the packet. *)
Theorem dns_sniffers_total (payload : bytes) :
  (exists q, sniffDNSQuery payload = Ok q) /\
  (exists qname ips, sniffDNSAnswers payload = Ok (qname, ips)) /\
  forall offset, 0 <= offset -> exists out, parseDNSName payload offset = Ok out /\
    forall name consumed, out = Some (name, consumed) -> 1 <= consumed <= len payload - offset.
Proof.
  assert (forall offset, 0 <= offset -> exists out, parseDNSName payload offset = Ok out /\
    forall name consumed, out = Some (name, consumed) -> 1 <= consumed <= len payload - offset) as HN.
  { intros offset Ho. pose proof (parseDNSName_ok payload offset Ho) as H.
    destruct (parseDNSName payload offset) as [out| |]; try done. by exists out. }
  split_and!; [| |done].
  - unfold sniffDNSQuery. destruct (Z.ltb_spec (len payload) dnsHeaderLen) as [|Hl]; [eauto|]. unfold dnsHeaderLen in Hl.
    destruct (u16_ok payload 2) as (fl & -> & _); [lia|lia|]. destruct (u16_ok payload 4) as (qd & -> & _); [lia|lia|].
    cbn [res_bind]. destruct (negb _); [eauto|]. destruct (qd =? 0); [eauto|].
    destruct (HN dnsHeaderLen) as (out & -> & _); [done|]. cbn [res_bind]. destruct out as [[name c]|]; [|eauto].
    destruct (_ || _); eauto.
  - unfold sniffDNSAnswers. destruct (Z.ltb_spec (len payload) dnsHeaderLen) as [|Hl]; [eauto|]. unfold dnsHeaderLen in Hl.
    destruct (u16_ok payload 2) as (fl & -> & _); [lia|lia|]. destruct (u16_ok payload 4) as (qd & -> & _); [lia|lia|].
    destruct (u16_ok payload 6) as (an & -> & _); [lia|lia|].
    cbn [res_bind]. destruct (_ =? 0); [eauto|]. destruct (negb _); [eauto|].
    pose proof (questions_loop_ok (Z.to_nat qd) true payload dnsHeaderLen []) as Hq.
    destruct (questions_loop _ _ _ _ _) as [[[off q]|]| |]; cbn [res_bind]; [|eauto|by destruct Hq..].
    assert (dnsHeaderLen <= off) as Hoff by (by apply Hq). unfold dnsHeaderLen in Hoff.
    destruct (answers_loop_ok (Z.to_nat an) payload off []) as [ips ->]; [lia|]. cbn [res_bind]. eauto.
Qed.

(** From a message with one question the sniffers recover what was asked and
    answered.  A query gives its name without a final dot, unless that is empty;
    an error-free response gives the name and, in order, the addresses of the A
    and AAAA records of the right size among records of any type, with names
    written out or pointing to the question, whatever sections follow. *)
Theorem dns_messages_sniffed (id flags : Z) (counts : bytes) (labels : list bytes) (qtype_class : bytes)
    (answers : list answer) (rest : bytes)
    (Hf : 0 <= flags < 65536) (Hn : len answers < 65536) (Hc : len counts = 4) (Hq : len qtype_class = 4)
    (Hl : labels_ok labels) (Ha : Forall answer_ok answers) :
  let m := dns_message id flags counts labels qtype_class answers rest in
  let qname := TrimSuffix (name_text labels) [c_dot] in
  (Z.land flags dnsFlagQR = 0 ->
     sniffDNSQuery m = Ok (if is_empty qname || bool_decide (qname = bs ".") then None else Some qname)) /\
  (Z.land flags dnsFlagQR <> 0 -> Z.land flags dnsRCodeMask = 0 ->
     sniffDNSAnswers m = Ok (qname, omap answer_ip answers)).
Proof.
  intros m qname. pose proof (len_nonneg answers). pose proof (len_nonneg rest).
  set (hdr := dns_header id flags (len answers) counts).
  destruct (header_fields id flags (len answers) counts
    (enc_qname labels ++ qtype_class ++ concat (map enc_answer answers) ++ rest)) as (Hh & H2 & H4 & H6); [done|lia|done|].
  fold hdr in Hh. change (dns_header _ _ _ _ ++ _) with m in H2, H4, H6.
  pose proof (len_nonneg (concat (map enc_answer answers))). pose proof (labels_count labels Hl).
  assert (len m = 12 + (len (enc_qname labels) + (4 + (len (concat (map enc_answer answers)) + len rest)))) as Hm
    by (unfold m, dns_message; rewrite !len_app; fold hdr; rewrite Hh, Hq; done).
  assert (parseDNSName m dnsHeaderLen = Ok (Some (name_text labels, len (enc_qname labels)))) as HP.
  { unfold dnsHeaderLen. rewrite <- Hh. by apply parseDNSName_plain. }
  split.
  - intros Hqr. unfold sniffDNSQuery. rewrite (proj2 (Z.ltb_ge _ _)) by (unfold dnsHeaderLen; lia).
    rewrite H2. cbn [res_bind]. rewrite Hqr. cbn [negb Z.eqb]. rewrite H4. cbn [res_bind Z.eqb]. rewrite HP. cbn [res_bind].
    fold qname. by destruct (_ || _).
  - intros Hqr Hrc. unfold sniffDNSAnswers. rewrite (proj2 (Z.ltb_ge _ _)) by (unfold dnsHeaderLen; lia).
    rewrite H2. cbn [res_bind]. rewrite (proj2 (Z.eqb_neq _ 0)) by done. rewrite Hrc. cbn [negb Z.eqb]. rewrite H4. cbn [res_bind].
    change (Z.to_nat 1) with 1%nat. cbn [questions_loop]. rewrite HP. cbn [res_bind].
    rewrite (proj2 (Z.ltb_ge _ _)) by (unfold dnsHeaderLen; lia). cbn [res_bind]. rewrite H6. cbn [res_bind].
    replace (dnsHeaderLen + len (enc_qname labels) + 4) with (len (hdr ++ enc_qname labels ++ qtype_class))
      by (rewrite !len_app, Hh, Hq; unfold dnsHeaderLen; lia).
    unfold len at 1. rewrite Nat2Z.id. rewrite (answers_loop_all hdr labels answers qtype_class rest m []); [done|done|done|done|].
    unfold m, dns_message. fold hdr. by rewrite <- !app_assoc.
Qed.

(** example.com with an alias record, its address and an IPv6 address. *)
Lemma dns_messages_sniffed_witness :
  let labels := [bs "example"; bs "com"] in
  let answers := [mkAnswer None 5 (be_put 6 7) (vec8 (bs "alias") ++ [z2b 0]);
                  mkAnswer (Some [bs "alias"]) dnsTypeA (be_put 6 7) (be_put 4 16909060);
                  mkAnswer None dnsTypeAAAA (be_put 6 7) (be_put 16 1)] in
  sniffDNSAnswers (dns_message 7 33152 (be_put 4 0) labels (be_put 4 65537) answers []) =
  Ok (bs "example.com", [Addr4 16909060; Addr6 1 []]).
Proof.
  intros labels answers.
  assert (labels_ok labels) as Hl by (by repeat constructor).
  assert (Forall answer_ok answers) as Ha.
  { constructor; [|constructor; [|constructor; [|constructor]]]; (split; [|by vm_compute]); [done|by repeat constructor|done]. }
  destruct (dns_messages_sniffed 7 33152 (be_put 4 0) labels (be_put 4 65537) answers []
    ltac:(lia) ltac:(done) eq_refl eq_refl Hl Ha) as [_ H].
  rewrite H; [by vm_compute|done|done].
Defined.
