(* ===== verification/Socks5.v ===== *)
(** The SOCKS5 front end of the client, internal/app/local_socks5.go: method
    negotiation, user/password authentication, the request and the UDP frames.
    A connection is the bytes still to be read and a writer. *)

From Stdlib Require Import ZArith Lia Strings.Byte.
From stdpp Require Import base numbers list gmap.
From S2P Require Import Prelude GoStrings GoNet NetAddr GoTime Wire Crypto WireV2 WireV3 ReplayWindow CipherStream Policy Sniff.

Local Open Scope Z_scope.
Local Open Scope go_scope.

Definition c_at : byte := z2b 64.

(** [parseAuthAndAddr]: host, user and password. *)
Definition parseAuthAndAddr `{GoUnicode} (full : bytes) : res (bytes * bytes * bytes) :=
  let '(auth, rest, found) := Cut full c_at in
  let! r :=
    if found then
      let h := TrimSpace rest in
      let '(u, p, colon) := Cut auth c_colon in
      if is_empty auth || is_empty h || negb colon
      then Err (Errorf "认证格式必须是 user:pass@host:port" []) else
      if is_empty u || is_empty p then Err (Errorf "用户名和密码不能为空" []) else Ok (h, u, p)
    else Ok (full, [], []) in
  let '(h, u, p) := r in
  if is_empty (TrimSpace h) then Err (Errorf "地址不能为空" []) else Ok (h, u, p).

Record ProxyConfig : Type := mkProxyConfig { Username : bytes; Password : bytes; ProxyHost : bytes }.

Section Server.
Context {W : Type} `{HW : Writer W} `{U : GoUnicode}.

(** A connection: input to come and output. *)
Abbreviation conn := (bytes * W)%type.

Definition conn_read (n : nat) : io conn bytes :=
  fun '(i, w) => let '(i', r) := ReadFull n i in ((i', w), r).

Definition conn_write (b : bytes) : io conn unit :=
  fun '(i, w) => let '(w', r) := writeAll b w in ((i, w'), r).

Definition writeSOCKS5MethodSelection (method : Z) : io conn unit := conn_write [z2b 5; z2b method].

Definition writeSOCKS5UserPassReply (status : Z) : io conn unit := conn_write [z2b 1; z2b status].

Definition writeSOCKS5Reply (status : Z) : io conn unit :=
  conn_write [z2b 5; z2b status; z2b 0; z2b 1; z2b 0; z2b 0; z2b 0; z2b 0; z2b 0; z2b 0].

(** [writeSOCKS5UDPAssociateReply]; the address is the bytes of an IP and a port. *)
Definition writeSOCKS5UDPAssociateReply (addr : option (bytes * Z)) : io conn unit :=
  match addr with
  | None => io_err (Errorf "SOCKS5 UDP ASSOCIATE 响应地址为空" [])
  | Some (ip, port) =>
      if (port <=? 0) || (65535 <? port)
      then io_err (Errorf "SOCKS5 UDP ASSOCIATE 响应端口无效: %d" [port]) else
      do! a <- match To4 ip with
               | Some ip4 => io_ret (z2b 1 :: ip4)
               | None => match To16 ip with
                         | None => io_err (Errorf "SOCKS5 UDP ASSOCIATE 响应地址无效" [])
                         | Some ip16 => io_ret (z2b 4 :: ip16)
                         end
               end in
      conn_write ([z2b 5; z2b 0; z2b 0] ++ a ++ [z2b (Z.shiftr port 8); z2b port])
  end.

Definition handleSOCKS5UserPassAuth (cfgp : ProxyConfig) : io conn unit :=
  do! b <- conn_read 2 in
  do! ver <- io_lift (byte_at b 0) in
  if negb (ver =? 1) then
    writeSOCKS5UserPassReply 1 ;!
    io_err (Errorf "SOCKS5 用户名密码认证版本无效: %d" [ver])
  else
    do! ulen <- io_lift (byte_at b 1) in
    do! u <- conn_read (Z.to_nat ulen) in
    do! b <- conn_read 1 in
    do! plen <- io_lift (byte_at b 0) in
    do! p <- conn_read (Z.to_nat plen) in
    if bool_decide (u = Username cfgp) && bool_decide (p = Password cfgp)
    then writeSOCKS5UserPassReply 0
    else writeSOCKS5UserPassReply 1 ;! io_err (Errorf "认证失败" []).

Record localSOCKS5Request : Type := mkRequest { rq_command : Z; rq_atyp : Z; rq_target : bytes }.

Definition readLocalSOCKS5RequestHost (atyp : Z) : io conn bytes :=
  if atyp =? 1 then do! b <- conn_read 4 in io_ret (IPString b) else
  if atyp =? 3 then
    do! b <- conn_read 1 in
    do! l <- io_lift (byte_at b 0) in
    conn_read (Z.to_nat l) else
  if atyp =? 4 then do! b <- conn_read 16 in io_ret (IPString b) else
  io_err (Errorf "SOCKS5 地址类型不支持: %d" [atyp]).

(** The request, or the reply code with the error (zero for no reply). *)
Definition readLocalSOCKS5Request : io conn (localSOCKS5Request + Z * error) :=
  fun s =>
    let fail s code e := (s, Ok (inr (code, e))) in
    match conn_read 4 s with
    | (s, Ok head) =>
        match byte_at head 1, byte_at head 2, byte_at head 3 with
        | Ok command, Ok rsv, Ok atyp =>
            if negb (rsv =? 0) then fail s 1 (Errorf "SOCKS5 请求 RSV 必须为 0" []) else
            match readLocalSOCKS5RequestHost atyp s with
            | (s, Ok host) =>
                match conn_read 2 s with
                | (s, Ok pb) =>
                    let port := be_get pb in
                    if (command =? 1) && (port =? 0)
                    then fail s 4 (Errorf "SOCKS5 CONNECT 目标端口不能为 0" []) else
                    let target := JoinHostPort host (Itoa port) in
                    match (if command =? 1 then ValidateHostPort target else Ok tt) with
                    | Ok _ => (s, Ok (inl (mkRequest command atyp target)))
                    | Err e => fail s 4 (Wrapf "SOCKS5 CONNECT目标无效: %w" e)
                    | Panic => (s, Panic)
                    end
                | (s, Err e) => fail s 0 e
                | (s, Panic) => (s, Panic)
                end
            | (s, Err e) =>
                if negb (atyp =? 1) && negb (atyp =? 3) && negb (atyp =? 4) then fail s 8 e else fail s 0 e
            | (s, Panic) => (s, Panic)
            end
        | _, _, _ => (s, Panic)
        end
    | (s, Err e) => fail s 0 e
    | (s, Panic) => (s, Panic)
    end.

(** How the handler goes on. *)
Inductive socks_next : Type :=
  | SocksClosed
  | SocksConnect (target : bytes)
  | SocksUDP.

(** The choice of an authentication method and the authentication. *)
Definition negotiate (cfgp : ProxyConfig) (methods : bytes) : io conn unit :=
  if negb (is_empty (Username cfgp)) then
    if negb (existsb (chr (z2b 2)) methods)
    then writeSOCKS5MethodSelection 255 ;! io_err (Errorf "no acceptable method" [])
    else writeSOCKS5MethodSelection 2 ;! handleSOCKS5UserPassAuth cfgp
  else
    if negb (existsb (chr (z2b 0)) methods)
    then writeSOCKS5MethodSelection 255 ;! io_err (Errorf "no acceptable method" [])
    else writeSOCKS5MethodSelection 0.

(** The IP strategy refuses addresses of the other family; a domain that is an
    address literal counts as one. *)
Definition strategy_refuses (ipStrategy : Z) (req : localSOCKS5Request) : bool :=
  let host := match SplitHostPort (rq_target req) with Ok (h, _) => h | _ => [] end in
  let ip := ParseIP host in
  let is4 := match ip with Some b => bool_decide (is_Some (To4 b)) | None => false end in
  let is_ip := bool_decide (is_Some ip) in
  (rq_command req =? 1) &&
  (((ipStrategy =? IPStrategyIPv4Only) && ((rq_atyp req =? 4) || (is_ip && negb is4))) ||
   ((ipStrategy =? IPStrategyIPv6Only) && ((rq_atyp req =? 1) || (is_ip && is4)))).

Definition handleSOCKS5 (cfgp : ProxyConfig) (ipStrategy : Z) (s : conn) : conn * res socks_next :=
  let closed s := (s, Ok SocksClosed) in
  match conn_read 2 s with
  | (s, Ok buf) =>
      match byte_at buf 0, byte_at buf 1 with
      | Ok ver, Ok n =>
          if negb (ver =? 5) then closed s else
          match conn_read (Z.to_nat n) s with
          | (s, Ok methods) =>
              match negotiate cfgp methods s with
              | (s, Ok _) =>
                  match readLocalSOCKS5Request s with
                  | (s, Ok (inl req)) =>
                      if strategy_refuses ipStrategy req then closed (fst (writeSOCKS5Reply 2 s)) else
                      if rq_command req =? 1 then (s, Ok (SocksConnect (rq_target req))) else
                      if rq_command req =? 3 then (s, Ok SocksUDP) else
                      closed (fst (writeSOCKS5Reply 7 s))
                  | (s, Ok (inr (reply, _))) =>
                      if negb (reply =? 0) then closed (fst (writeSOCKS5Reply reply s)) else closed s
                  | (s, Err _) => closed s
                  | (s, Panic) => (s, Panic)
                  end
              | (s, Err _) => closed s
              | (s, Panic) => (s, Panic)
              end
          | (s, Err _) => closed s
          | (s, Panic) => (s, Panic)
          end
      | _, _ => (s, Panic)
      end
  | (s, Err _) => closed s
  | (s, Panic) => (s, Panic)
  end.

End Server.

(** * UDP frames *)

Definition parseSOCKS5AddrBytes (packet : bytes) (atyp : Z) (offset : Z) : res (bytes * Z) :=
  if atyp =? 1 then
    if len packet <? offset + 4 then Err (Errorf "IPv4地址长度过短" []) else
    let! b := slice packet offset (offset + 4) in Ok (IPString b, offset + 4)
  else if atyp =? 3 then
    if len packet <? offset + 1 then Err (Errorf "域名长度字段过短" []) else
    let! l := byte_at packet offset in
    if l =? 0 then Err (Errorf "域名不能为空" []) else
    let offset := offset + 1 in
    if len packet <? offset + l then Err (Errorf "域名长度不足" []) else
    let! b := slice packet offset (offset + l) in Ok (b, offset + l)
  else if atyp =? 4 then
    if len packet <? offset + 16 then Err (Errorf "IPv6地址长度过短" []) else
    let! b := slice packet offset (offset + 16) in Ok (IPString b, offset + 16)
  else Err (Errorf "地址类型无效: %d" [atyp]).

Section Frames.
Context `{U : GoUnicode}.

Definition parseSOCKS5UDPFrameAddr (packet : bytes) : res (bytes * Z) :=
  if len packet <? 4 then Err (Errorf "数据包过短" []) else
  let! b0 := byte_at packet 0 in
  let! b1 := byte_at packet 1 in
  let! b2 := byte_at packet 2 in
  if negb (b0 =? 0) || negb (b1 =? 0) || negb (b2 =? 0) then Err (Errorf "RSV/FRAG 字段必须为 0" []) else
  let! atyp := byte_at packet 3 in
  let! r := parseSOCKS5AddrBytes packet atyp 4 in
  let '(host, offset) := r in
  if len packet <? offset + 2 then Err (Errorf "端口字段过短" []) else
  let! hi := byte_at packet offset in
  let! lo := byte_at packet (offset + 1) in
  let port := Z.lor (Z.shiftl hi 8) lo in
  if port =? 0 then Err (Errorf "端口必须在 1-65535 之间" []) else
  let addr := JoinHostPort host (Itoa port) in
  let! _ := ValidateHostPort addr in
  Ok (addr, offset + 2).

Definition parseSOCKS5UDPPacket (b : bytes) : res (bytes * bytes) :=
  let! r := parseSOCKS5UDPFrameAddr b in
  let '(target, offset) := r in
  let! data := slice b offset (len b) in Ok (target, data).

Definition appendSOCKS5UDPAddr (buf h : bytes) (p : Z) : bytes :=
  let addr :=
    match ParseIP h with
    | Some ip => match To4 ip with
                 | Some ip4 => z2b 1 :: ip4
                 | None => z2b 4 :: match To16 ip with Some b => b | None => [] end
                 end
    | None => z2b 3 :: z2b (len h) :: h
    end in
  buf ++ addr ++ [z2b (Z.shiftr p 8); z2b p].

Definition appendSOCKS5UDPAddrChecked (buf h : bytes) (p : Z) : res bytes :=
  if is_empty h then Err (Errorf "域名不能为空" []) else
  if 255 <? len h then Err (Errorf "域名过长" []) else
  let! _ := ValidateHostnameOrIP h in Ok (appendSOCKS5UDPAddr buf h p).

Definition buildSOCKS5UDPPacket (h : bytes) (p : Z) (d : bytes) : res bytes :=
  if (p <=? 0) || (65535 <? p) then Err (Errorf "端口必须在 1-65535 之间" []) else
  let! buf := appendSOCKS5UDPAddrChecked [z2b 0; z2b 0; z2b 0] h p in Ok (buf ++ d).

End Frames.

(** * What a client sends *)

Inductive socks_addr : Type :=
  | SocksV4 (b : bytes)
  | SocksName (name : bytes)
  | SocksV6 (b : bytes).

Definition addr_ok (a : socks_addr) : Prop :=
  match a with SocksV4 b => length b = 4%nat | SocksName n => len n < 256 | SocksV6 b => length b = 16%nat end.

Definition addr_type (a : socks_addr) : Z :=
  match a with SocksV4 _ => 1 | SocksName _ => 3 | SocksV6 _ => 4 end.

Definition socks_addr_bytes (a : socks_addr) : bytes :=
  match a with SocksV4 b => b | SocksName n => vec8 n | SocksV6 b => b end.

Definition addr_text (a : socks_addr) : bytes :=
  match a with SocksV4 b => IPString b | SocksName n => n | SocksV6 b => IPString b end.

Definition greeting (methods : bytes) : bytes := z2b 5 :: vec8 methods.

Definition credentials (u p : bytes) : bytes := z2b 1 :: vec8 u ++ vec8 p.

(** The version byte of a request is not looked at. *)
Definition request (ver : byte) (command : Z) (a : socks_addr) (port : Z) : bytes :=
  [ver; z2b command; z2b 0; z2b (addr_type a)] ++ socks_addr_bytes a ++ be_put 2 port.

Section Conversation.
Context {W : Type} {HWr : Writer W} `{U : GoUnicode}.

Lemma conn_read_app n a i (w : W) : length a = n -> conn_read n (a ++ i, w) = ((i, w), Ok a).
Proof. intros H. unfold conn_read. by rewrite ReadFull_app. Qed.

Lemma conn_read_inv n i (w : W) s b :
  conn_read n (i, w) = (s, Ok b) -> exists i', s = (i', w) /\ i = b ++ i' /\ length b = n.
Proof.
  unfold conn_read. destruct (ReadFull n i) as [i' r] eqn:E. intros [= <- ->]. apply ReadFull_ok in E as [-> E].
  by exists i'.
Qed.

Lemma conn_read_no_panic n (s : bytes * W) s' : conn_read n s <> (s', Panic).
Proof.
  destruct s as [i w]. unfold conn_read. pose proof (ReadFull_total n i). destruct (ReadFull n i) as [i' r]. cbn in *.
  by intros [= _ ->].
Qed.

Lemma conn_write_ok (Hrel : reliable (W := W)) b i (w : W) : exists w', conn_write b (i, w) = ((i, w'), Ok tt).
Proof. unfold conn_write. destruct (writeAll_total Hrel b w) as [w' ->]. eauto. Qed.

Lemma read_vec8 (d i : bytes) (w : W) :
  len d < 256 ->
  exists c, vec8 d ++ i = [c] ++ d ++ i /\ b2z c = len d /\ length d = Z.to_nat (b2z c).
Proof.
  intros H. pose proof (len_nonneg d). exists (z2b (len d)). rewrite b2z_z2b_small by lia.
  split_and!; [done|done|]. unfold len. lia.
Qed.

Lemma single (b : bytes) : length b = 1%nat -> exists c, b = [c].
Proof. destruct b as [|c [|? ?]]; try done. eauto. Qed.

Lemma vec8_of (c : byte) (d : bytes) : length d = Z.to_nat (b2z c) -> c :: d = vec8 d /\ len d < 256.
Proof.
  intros H. pose proof (b2z_range c). assert (len d = b2z c) as E by (unfold len; lia).
  split; [unfold vec8; by rewrite E, z2b_b2z|lia].
Qed.

Lemma auth_sound cfgp i (w : W) s :
  handleSOCKS5UserPassAuth cfgp (i, w) = (s, Ok tt) ->
  exists i' w', s = (i', w') /\ i = credentials (Username cfgp) (Password cfgp) ++ i' /\
    len (Username cfgp) < 256 /\ len (Password cfgp) < 256.
Proof.
  unfold handleSOCKS5UserPassAuth, io_bind. destruct (conn_read 2 (i, w)) as [s1 [b| |]] eqn:E1; try done.
  apply conn_read_inv in E1 as (i1 & -> & -> & Hb). destruct b as [|v [|l [|? ?]]]; try done.
  change (io_lift (byte_at [v; l] 0) (i1, w)) with ((i1, w), Ok (b2z v)). cbn iota.
  destruct (Z.eqb_spec (b2z v) 1) as [Ev|]; cbn [negb]; cbn iota.
  2: { destruct (writeSOCKS5UserPassReply 1 (i1, w)) as [? []]; done. }
  change (io_lift (byte_at [v; l] 1) (i1, w)) with ((i1, w), Ok (b2z l)). cbn iota.
  destruct (conn_read (Z.to_nat (b2z l)) (i1, w)) as [s2 [u| |]] eqn:E2; try done.
  apply conn_read_inv in E2 as (i2 & -> & -> & Hu).
  destruct (conn_read 1 (i2, w)) as [s3 [b| |]] eqn:E3; try done.
  apply conn_read_inv in E3 as (i3 & -> & -> & Hb3). apply single in Hb3 as [c ->].
  change (io_lift (byte_at [c] 0) (i3, w)) with ((i3, w), Ok (b2z c)). cbn iota.
  destruct (conn_read (Z.to_nat (b2z c)) (i3, w)) as [s4 [p| |]] eqn:E4; try done.
  apply conn_read_inv in E4 as (i4 & -> & -> & Hp).
  destruct (bool_decide (u = Username cfgp) && bool_decide (p = Password cfgp)) eqn:Eb.
  - apply andb_true_iff in Eb as [->%bool_decide_eq_true ->%bool_decide_eq_true].
    unfold writeSOCKS5UserPassReply, conn_write. destruct (writeAll _ w) as [w' r]. intros [= <- _].
    destruct (vec8_of l (Username cfgp) Hu) as [El Hl]. destruct (vec8_of c (Password cfgp) Hp) as [Ec Hc].
    exists i4, w'. split_and!; [done| |done|done]. unfold credentials. rewrite <- El, <- Ec, <- Ev, z2b_b2z.
    cbn [app]. by rewrite <- !app_assoc.
  - destruct (writeSOCKS5UserPassReply 1 (i4, w)) as [? []]; done.
Qed.

Lemma auth_complete (Hrel : reliable (W := W)) cfgp i (w : W) :
  len (Username cfgp) < 256 -> len (Password cfgp) < 256 ->
  exists w', handleSOCKS5UserPassAuth cfgp (credentials (Username cfgp) (Password cfgp) ++ i, w) = ((i, w'), Ok tt).
Proof.
  intros Hu Hp. unfold handleSOCKS5UserPassAuth, io_bind, credentials.
  destruct (read_vec8 (Username cfgp) (vec8 (Password cfgp) ++ i) w Hu) as (l & El & Hl & Hlu).
  destruct (read_vec8 (Password cfgp) i w Hp) as (c & Ec & Hc & Hcp).
  replace ((z2b 1 :: vec8 (Username cfgp) ++ vec8 (Password cfgp)) ++ i) with ([z2b 1; l] ++ Username cfgp ++ [c] ++ Password cfgp ++ i)
    by (cbn [app]; rewrite <- app_assoc, El, Ec; done).
  rewrite conn_read_app by done. unfold io_lift. change (byte_at [z2b 1; l] 0) with (Ok 1). cbv beta iota.
  change (1 =? 1) with true. cbn [negb]. change (byte_at [z2b 1; l] 1) with (Ok (b2z l)). cbv beta iota.
  rewrite conn_read_app by done. rewrite conn_read_app by done. change (byte_at [c] 0) with (Ok (b2z c)). cbv beta iota.
  rewrite conn_read_app by done. rewrite !bool_decide_eq_true_2 by done. cbn [andb].
  unfold writeSOCKS5UserPassReply. apply conn_write_ok, Hrel.
Qed.

Lemma host_sound atyp i (w : W) s host :
  readLocalSOCKS5RequestHost atyp (i, w) = (s, Ok host) ->
  exists a i', addr_ok a /\ atyp = addr_type a /\ host = addr_text a /\ i = socks_addr_bytes a ++ i' /\ s = (i', w).
Proof.
  unfold readLocalSOCKS5RequestHost, io_bind, io_ret, io_err.
  destruct (Z.eqb_spec atyp 1) as [->|]; [|destruct (Z.eqb_spec atyp 3) as [->|]; [|destruct (Z.eqb_spec atyp 4) as [->|]; [|done]]].
  - destruct (conn_read 4 (i, w)) as [s1 [b| |]] eqn:E; try done. apply conn_read_inv in E as (i1 & -> & -> & Hb).
    intros [= <- <-]. by exists (SocksV4 b), i1.
  - destruct (conn_read 1 (i, w)) as [s1 [b| |]] eqn:E; try done. apply conn_read_inv in E as (i1 & -> & -> & Hb).
    apply single in Hb as [c ->]. unfold io_lift. change (byte_at [c] 0) with (Ok (b2z c)). cbv beta iota. intros E2.
    apply conn_read_inv in E2 as (i2 & -> & -> & Hh). destruct (vec8_of c host Hh) as [Ec Hc].
    exists (SocksName host), i2. split_and!; [done|done|done| |done]. cbn [socks_addr_bytes]. by rewrite <- Ec.
  - destruct (conn_read 16 (i, w)) as [s1 [b| |]] eqn:E; try done. apply conn_read_inv in E as (i1 & -> & -> & Hb).
    intros [= <- <-]. by exists (SocksV6 b), i1.
Qed.

Lemma host_complete a i (w : W) :
  addr_ok a -> readLocalSOCKS5RequestHost (addr_type a) (socks_addr_bytes a ++ i, w) = ((i, w), Ok (addr_text a)).
Proof.
  intros Ha. unfold readLocalSOCKS5RequestHost, io_bind, io_ret.
  destruct a as [b|n|b]; cbn [addr_type socks_addr_bytes addr_text addr_ok] in *.
  - change (1 =? 1) with true. cbv beta iota. by rewrite conn_read_app.
  - change (3 =? 1) with false. change (3 =? 3) with true. cbv beta iota.
    destruct (read_vec8 n i w Ha) as (c & -> & Hc & Hl). rewrite conn_read_app by done.
    unfold io_lift. change (byte_at [c] 0) with (Ok (b2z c)). cbv beta iota. by rewrite conn_read_app.
  - change (4 =? 1) with false. change (4 =? 3) with false. change (4 =? 4) with true. cbv beta iota. by rewrite conn_read_app.
Qed.

Lemma request_sound i (w : W) s req :
  readLocalSOCKS5Request (i, w) = (s, Ok (inl req)) ->
  exists ver a port i', i = request ver (rq_command req) a port ++ i' /\ s = (i', w) /\ addr_ok a /\
    0 <= port < 65536 /\ 0 <= rq_command req < 256 /\ rq_atyp req = addr_type a /\
    rq_target req = JoinHostPort (addr_text a) (Itoa port) /\
    (rq_command req = 1 -> port <> 0 /\ ValidateHostPort (rq_target req) = Ok tt).
Proof.
  unfold readLocalSOCKS5Request. destruct (conn_read 4 (i, w)) as [s1 [hd| |]] eqn:E1; try done.
  apply conn_read_inv in E1 as (i1 & -> & -> & Hh). destruct hd as [|ver [|cmd [|rsv [|at_ [|? ?]]]]]; try done.
  change (byte_at [ver; cmd; rsv; at_] 1) with (Ok (b2z cmd)). change (byte_at [ver; cmd; rsv; at_] 2) with (Ok (b2z rsv)).
  change (byte_at [ver; cmd; rsv; at_] 3) with (Ok (b2z at_)). cbv iota.
  destruct (Z.eqb_spec (b2z rsv) 0) as [Er|]; cbn [negb]; [|done].
  destruct (readLocalSOCKS5RequestHost (b2z at_) (i1, w)) as [s2 [host| |]] eqn:E2; try done.
  2: { by destruct (_ && _). }
  apply host_sound in E2 as (a & i2 & Ha & Hat & -> & -> & ->).
  destruct (conn_read 2 (i2, w)) as [s3 [pb| |]] eqn:E3; try done. apply conn_read_inv in E3 as (i3 & -> & -> & Hpb).
  pose proof (be_get_range pb) as Hr. unfold len in Hr. rewrite Hpb in Hr. change (256 ^ Z.of_nat 2) with 65536 in Hr.
  destruct ((b2z cmd =? 1) && (be_get pb =? 0)) eqn:Ep; [done|].
  destruct (if b2z cmd =? 1 then _ else _) as [[]| |] eqn:Ev; try done. intros [= <- <-]. cbn [rq_command rq_atyp rq_target].
  exists ver, a, (be_get pb), i3. split_and!; try done; try apply b2z_range.
  - unfold request. rewrite <- Hat, be_put_get' by done. change (z2b 0) with (z2b 0). rewrite <- Er, !z2b_b2z. cbn [app]. by rewrite <- !app_assoc.
  - lia.
  - lia.
  - intros Hc. rewrite Hc in Ep, Ev. split; [by apply Z.eqb_neq|done].
Qed.

Lemma request_complete ver command a port i (w : W) :
  addr_ok a -> 0 <= port < 65536 -> 0 <= command < 256 ->
  (command = 1 -> port <> 0 /\ ValidateHostPort (JoinHostPort (addr_text a) (Itoa port)) = Ok tt) ->
  readLocalSOCKS5Request (request ver command a port ++ i, w) =
  ((i, w), Ok (inl (mkRequest command (addr_type a) (JoinHostPort (addr_text a) (Itoa port))))).
Proof.
  intros Ha Hp Hc Hv. unfold readLocalSOCKS5Request, request. rewrite <- !app_assoc. rewrite conn_read_app by done.
  assert (0 <= addr_type a < 256) as Hat by (destruct a; cbn; lia).
  assert (byte_at [ver; z2b command; z2b 0; z2b (addr_type a)] 1 = Ok command) as -> by (unfold byte_at; cbn [index res_bind]; by rewrite <- (b2z_z2b_small command) at 2).
  change (byte_at [ver; z2b command; z2b 0; z2b (addr_type a)] 2) with (Ok 0).
  assert (byte_at [ver; z2b command; z2b 0; z2b (addr_type a)] 3 = Ok (addr_type a)) as -> by (by destruct a).
  cbv iota. change (0 =? 0) with true. cbn [negb]. rewrite host_complete by done. rewrite conn_read_app by apply length_be_put.
  rewrite be_get_put_small by done. cbv zeta.
  destruct (Z.eqb_spec command 1) as [->|Hne]; [|done]. destruct (Hv eq_refl) as [Hp0 ->].
  rewrite (proj2 (Z.eqb_neq _ _)) by done. done.
Qed.

(** The authentication that a configuration asks for. *)
Definition authenticated (cfgp : ProxyConfig) (methods auth : bytes) : Prop :=
  if is_empty (Username cfgp) then In (z2b 0) methods /\ auth = []
  else In (z2b 2) methods /\ auth = credentials (Username cfgp) (Password cfgp) /\
       len (Username cfgp) < 256 /\ len (Password cfgp) < 256.

Lemma existsb_chr c l : existsb (chr c) l = true <-> In c l.
Proof.
  rewrite existsb_exists. split; [intros (x & Hx & ->%chr_true); done|]. intros H. exists c. by rewrite chr_refl.
Qed.

Lemma negotiate_sound cfgp methods i (w : W) s :
  negotiate cfgp methods (i, w) = (s, Ok tt) ->
  exists auth i' w', s = (i', w') /\ i = auth ++ i' /\ authenticated cfgp methods auth.
Proof.
  unfold negotiate, authenticated, io_bind, io_err.
  destruct (is_empty (Username cfgp)); cbn [negb]; destruct (existsb _ _) eqn:Em; cbn [negb]; cbv beta;
    unfold writeSOCKS5MethodSelection, conn_write; destruct (writeAll _ w) as [w' [u| |]]; intros H; try done.
  - injection H as <- _. exists [], i, w'. apply existsb_chr in Em. done.
  - apply auth_sound in H as (i' & w2 & -> & -> & Hu & Hp). apply existsb_chr in Em.
    by exists (credentials (Username cfgp) (Password cfgp)), i', w2.
Qed.

Lemma negotiate_complete (Hrel : reliable (W := W)) cfgp methods auth i (w : W) :
  authenticated cfgp methods auth -> exists w', negotiate cfgp methods (auth ++ i, w) = ((i, w'), Ok tt).
Proof.
  unfold negotiate, authenticated, io_bind, writeSOCKS5MethodSelection. destruct (is_empty (Username cfgp)); cbn [negb].
  - intros [Hm ->]. apply existsb_chr in Hm. rewrite Hm. cbn [negb app]. apply conn_write_ok, Hrel.
  - intros (Hm & -> & Hu & Hp). apply existsb_chr in Hm. rewrite Hm. cbn [negb]. cbv beta.
    destruct (conn_write_ok Hrel [z2b 5; z2b 2] (credentials (Username cfgp) (Password cfgp) ++ i) w) as [w' ->].
    by apply auth_complete.
Qed.

Lemma handleSOCKS5_sound cfgp strat i (w : W) s t :
  handleSOCKS5 cfgp strat (i, w) = (s, Ok (SocksConnect t)) ->
  exists methods auth ver a port rest,
    i = greeting methods ++ auth ++ request ver 1 a port ++ rest /\ len methods < 256 /\
    authenticated cfgp methods auth /\ addr_ok a /\ 0 < port < 65536 /\
    t = JoinHostPort (addr_text a) (Itoa port) /\ ValidateHostPort t = Ok tt /\
    strategy_refuses strat (mkRequest 1 (addr_type a) t) = false.
Proof.
  unfold handleSOCKS5. destruct (conn_read 2 (i, w)) as [s1 [buf| |]] eqn:E1; try done.
  apply conn_read_inv in E1 as (i1 & -> & -> & Hb). destruct buf as [|v [|n [|? ?]]]; try done.
  change (byte_at [v; n] 0) with (Ok (b2z v)). change (byte_at [v; n] 1) with (Ok (b2z n)). cbv iota.
  destruct (Z.eqb_spec (b2z v) 5) as [Ev|]; cbn [negb]; [|done].
  destruct (conn_read (Z.to_nat (b2z n)) (i1, w)) as [s2 [methods| |]] eqn:E2; try done.
  apply conn_read_inv in E2 as (i2 & -> & -> & Hm). destruct (vec8_of n methods Hm) as [En Hn].
  destruct (negotiate cfgp methods (i2, w)) as [s3 [[]| |]] eqn:E3; try done.
  apply negotiate_sound in E3 as (auth & i3 & w3 & -> & -> & Ha).
  destruct (readLocalSOCKS5Request (i3, w3)) as [s4 [[req|[reply e]]| |]] eqn:E4; try done.
  2: { by destruct (negb _). }
  apply request_sound in E4 as (ver & a & port & i4 & -> & -> & Hok & Hp & Hc & Hat & Ht & Hv).
  destruct (strategy_refuses strat req) eqn:Es; [done|].
  destruct (Z.eqb_spec (rq_command req) 1) as [Ec|]; [|by destruct (_ =? 3)]. intros [= _ <-].
  destruct req as [command atyp target]. cbn [rq_command rq_atyp rq_target] in *. subst command atyp.
  destruct (Hv eq_refl) as [Hp0 Hval]. exists methods, auth, ver, a, port, i4. split_and!; try done; try lia.
  unfold greeting. rewrite <- En, <- Ev, z2b_b2z. done.
Qed.

Lemma handleSOCKS5_complete (Hrel : reliable (W := W)) cfgp strat methods auth ver a port rest (w : W) :
  let t := JoinHostPort (addr_text a) (Itoa port) in
  len methods < 256 -> authenticated cfgp methods auth -> addr_ok a -> 0 < port < 65536 ->
  ValidateHostPort t = Ok tt -> strategy_refuses strat (mkRequest 1 (addr_type a) t) = false ->
  exists w', handleSOCKS5 cfgp strat (greeting methods ++ auth ++ request ver 1 a port ++ rest, w) =
             ((rest, w'), Ok (SocksConnect t)).
Proof.
  intros t Hm Ha Hok Hp Hv Hs. unfold handleSOCKS5, greeting.
  destruct (read_vec8 methods (auth ++ request ver 1 a port ++ rest) w Hm) as (n & En & Hn & Hl).
  replace ((z2b 5 :: vec8 methods) ++ auth ++ request ver 1 a port ++ rest)
    with ([z2b 5; n] ++ methods ++ auth ++ request ver 1 a port ++ rest) by (cbn [app]; rewrite En; done).
  rewrite conn_read_app by done. change (byte_at [z2b 5; n] 0) with (Ok 5). change (byte_at [z2b 5; n] 1) with (Ok (b2z n)).
  cbv iota. change (5 =? 5) with true. cbn [negb]. rewrite conn_read_app by done.
  destruct (negotiate_complete Hrel cfgp methods auth (request ver 1 a port ++ rest) w Ha) as [w' ->].
  rewrite request_complete by (done || lia || (split; [lia|done])). fold t. rewrite Hs. by exists w'.
Qed.

End Conversation.

(** C25: the SOCKS5 server goes on to CONNECT exactly on a conversation that is a version 5
    greeting offering the configured method, the configured user name and password
    when a user name is set (and nothing of the kind when it is not), and a
    CONNECT request with an IPv4, domain or IPv6 address that is a valid target
    with a port that is not zero and that the IP strategy does not refuse.  In
    particular no client that does not know the password is connected. *)
Theorem socks5_admission {W : Type} {HWr : Writer W} {U : GoUnicode} (Hrel : reliable (W := W))
    (cfgp : ProxyConfig) (ipStrategy : Z) (input : bytes) (w : W) (t : bytes) :
  (exists s, handleSOCKS5 cfgp ipStrategy (input, w) = (s, Ok (SocksConnect t))) <->
  exists methods auth ver a port rest,
    input = greeting methods ++ auth ++ request ver 1 a port ++ rest /\ len methods < 256 /\
    authenticated cfgp methods auth /\ addr_ok a /\ 0 < port < 65536 /\
    t = JoinHostPort (addr_text a) (Itoa port) /\ ValidateHostPort t = Ok tt /\
    strategy_refuses ipStrategy (mkRequest 1 (addr_type a) t) = false.
Proof.
  split.
  - intros [s H]. by eapply handleSOCKS5_sound.
  - intros (methods & auth & ver & a & port & rest & -> & Hm & Ha & Hok & Hp & -> & Hv & Hs).
    destruct (handleSOCKS5_complete Hrel cfgp ipStrategy methods auth ver a port rest w Hm Ha Hok Hp Hv Hs) as [w' E]. eauto.
Qed.

(** * Validation never panics *)

Lemma IndexByte_bound s c : IndexByte s c < len s \/ s = [].
Proof.
  induction s as [|x s IH]; [by right|]. left. cbn [IndexByte]. rewrite len_cons. pose proof (len_nonneg s).
  destruct (chr c x); [lia|]. cbv zeta. destruct (Z.ltb_spec (IndexByte s c) 0); [lia|]. destruct IH as [IH| ->]; [lia|]. cbn in *. lia.
Qed.

Lemma LastIndexByte_bound s c : LastIndexByte s c < len s \/ s = [].
Proof.
  induction s as [|x s IH]; [by right|]. left. cbn [LastIndexByte]. rewrite len_cons. pose proof (len_nonneg s). cbv zeta.
  destruct (Z.leb_spec 0 (LastIndexByte s c)); [destruct IH as [IH| ->]; [lia|cbn in *; lia]|].
  destruct (chr c x); lia.
Qed.

Lemma SplitHostPort_no_panic s : SplitHostPort s <> Panic.
Proof.
  unfold SplitHostPort. destruct s as [|c s]; [done|]. set (v := c :: s). cbv zeta.
  destruct (LastIndexByte_bound v c_colon) as [Hi|]; [|done]. pose proof (LastIndexByte_lower v c_colon).
  destruct (IndexByte_bound v c_rbrack) as [He|]; [|done]. pose proof (IndexByte_lower v c_rbrack).
  destruct (Z.ltb_spec (LastIndexByte v c_colon) 0) as [|Hi0]; [done|].
  apply res_bind_no_panic.
  - destruct (chr c_lbrack c) eqn:Ec.
    + destruct (Z.ltb_spec (IndexByte v c_rbrack) 0) as [|He0]; [done|].
      assert (1 <= IndexByte v c_rbrack) as He1.
      { unfold v. cbn [IndexByte]. apply chr_true in Ec as <-. change (chr c_rbrack c_lbrack) with false. cbv iota zeta.
        pose proof (IndexByte_lower s c_rbrack). destruct (Z.ltb_spec (IndexByte s c_rbrack) 0) as [Hn|]; [|lia].
        exfalso. unfold v in He0. cbn [IndexByte] in He0. change (chr c_rbrack c_lbrack) with false in He0. cbv iota zeta in He0.
        rewrite (proj2 (Z.ltb_lt _ _)) in He0 by done. lia. }
      destruct (Z.eqb_spec (IndexByte v c_rbrack + 1) (len v)); [done|].
      destruct (_ =? _).
      * destruct (slice_in v 1 (IndexByte v c_rbrack)) as (x & -> & _); [lia|lia|]. done.
      * destruct (index_ok v (IndexByte v c_rbrack + 1)) as [x ->]; [lia|]. cbn. by destruct (chr c_colon x).
    + destruct (slice_in v 0 (LastIndexByte v c_colon)) as (x & -> & _); [lia|lia|]. cbn [res_bind]. by destruct (0 <=? _).
  - intros [[h j] k] _. destruct (0 <=? _); [done|]. destruct (0 <=? _); [done|].
    destruct (slice_in v (LastIndexByte v c_colon + 1) (len v)) as (x & -> & _); [lia|lia|]. done.
Qed.

Lemma ValidateHostPort_no_panic `{U : GoUnicode} v : ValidateHostPort v <> Panic.
Proof.
  unfold ValidateHostPort, ValidateHostPortValue, validateHostPortValue. destruct (ContainsAny _ _); [done|].
  apply res_bind_no_panic; [apply SplitHostPort_no_panic|]. intros [h p] _. destruct (_ && _); [done|].
  apply res_bind_no_panic.
  - destruct (negb _); [|done]. unfold ValidateHostnameOrIP. destruct (ParseIP h); [done|]. by destruct (ValidHostname _).
  - intros _ _. destruct (is_empty _); [done|]. cbv zeta. by destruct (match Atoi p with None => _ | Some _ => _ end).
Qed.

(** A host without brackets and white space is validated by itself. *)
Definition plain_host `{U : GoUnicode} (h : bytes) : Prop :=
  (forall c, c ∈ map z2b [32; 9; 13; 10; 91; 93] -> c ∉ h) /\ is_empty (TrimSpace h) = false.

Lemma ValidateHostPort_join `{U : GoUnicode} h p :
  plain_host h -> 1 <= p <= 65535 -> ValidateHostPort (JoinHostPort h (Itoa p)) = ValidateHostnameOrIP h.
Proof.
  intros [Hc Hne] Hp. unfold ValidateHostPort, ValidateHostPortValue, validateHostPortValue.
  assert (forall c, c ∈ map z2b [32; 9; 13; 10] -> c ∉ JoinHostPort h (Itoa p)) as Hw.
  { intros c Hin. assert (c ∉ h) as H1 by (apply Hc; cbn [map] in *; rewrite !elem_of_cons in *; tauto).
    assert (is_digit c = false /\ c <> c_colon /\ c <> c_lbrack /\ c <> c_rbrack) as (Hd & H2 & H3 & H4).
    { cbn [map] in Hin. rewrite !elem_of_cons, elem_of_nil in Hin. destruct Hin as [->|[->|[->|[->|[]]]]]; split_and!; by vm_compute. }
    pose proof (Itoa_not_elem p c ltac:(lia) Hd). unfold JoinHostPort.
    destruct (0 <=? _); rewrite ?elem_of_cons, elem_of_app, ?elem_of_cons; tauto. }
  rewrite ContainsAny_false by done. rewrite SplitHostPort_JoinHostPort.
  2: { apply Hc. apply (bool_decide_unpack _). by vm_compute. }
  2: { apply Hc. apply (bool_decide_unpack _). by vm_compute. }
  2-4: apply Itoa_not_elem; [lia|by vm_compute].
  cbn [res_bind]. rewrite Hne. cbn [negb andb]. rewrite Itoa_TrimSpace by lia.
  destruct (Itoa_ne p) as (c & t & Ec & _); [lia|]. rewrite (is_empty_false _ _ _ Ec), Atoi_Itoa by lia.
  destruct (ValidateHostnameOrIP h) as [[]| |]; cbn [res_bind]; try done.
  rewrite (proj2 (Z.ltb_ge p 1)), (proj2 (Z.ltb_ge 65535 p)) by lia. done.
Qed.

(** * UDP frames *)

Section FrameFacts.
Context `{U : GoUnicode}.

(** The address of a host as a frame carries it. *)
Definition frame_addr (h : bytes) : socks_addr :=
  match ParseIP h with
  | Some ip => match To4 ip with Some ip4 => SocksV4 ip4 | None => SocksV6 ip end
  | None => SocksName h
  end.

Lemma frame_addr_ok h : len h <= 255 -> addr_ok (frame_addr h).
Proof.
  intros Hh. unfold frame_addr. destruct (ParseIP h) as [ip|] eqn:E; [|cbn; lia]. apply ParseIP_length in E.
  unfold To4. rewrite E. change (16 =? 4)%nat with false. change (16 =? 16)%nat with true. cbn [andb].
  case_bool_decide; cbn [addr_ok]; [|done]. rewrite length_drop. lia.
Qed.

Lemma be_put2 p : be_put 2 p = [z2b (p / 256); z2b p].
Proof. cbn [be_put app]. change (256 ^ Z.of_nat 1) with 256. change (256 ^ Z.of_nat 0) with 1. by rewrite Z.div_1_r. Qed.

Lemma appendSOCKS5UDPAddr_bytes buf h p :
  appendSOCKS5UDPAddr buf h p = buf ++ z2b (addr_type (frame_addr h)) :: socks_addr_bytes (frame_addr h) ++ be_put 2 p.
Proof.
  assert ([z2b (Z.shiftr p 8); z2b p] = be_put 2 p) as Hp by (by rewrite be_put2, Z.shiftr_div_pow2 by lia).
  unfold appendSOCKS5UDPAddr, frame_addr. rewrite Hp. destruct (ParseIP h) as [ip|] eqn:E; [|done]. apply ParseIP_length in E.
  destruct (To4 ip) eqn:E4; [done|]. unfold To16. rewrite E. done.
Qed.

(** A frame with a well-formed address parses to its target, if that is valid. *)
Lemma frame_parses a port data :
  addr_ok a -> 0 < port < 65536 -> a <> SocksName [] ->
  parseSOCKS5UDPPacket ([z2b 0; z2b 0; z2b 0; z2b (addr_type a)] ++ socks_addr_bytes a ++ be_put 2 port ++ data) =
  (let t := JoinHostPort (addr_text a) (Itoa port) in let! _ := ValidateHostPort t in Ok (t, data)).
Proof.
  intros Ha Hp Hne. set (pre := [z2b 0; z2b 0; z2b 0; z2b (addr_type a)]). set (pkt := pre ++ socks_addr_bytes a ++ be_put 2 port ++ data).
  pose proof (len_nonneg (socks_addr_bytes a)). pose proof (len_nonneg data).
  assert (len pkt = 4 + len (socks_addr_bytes a) + 2 + len data) as Hlen
    by (unfold pkt; rewrite !len_app, len_be_put; change (len pre) with 4; lia).
  unfold parseSOCKS5UDPPacket, parseSOCKS5UDPFrameAddr. rewrite (proj2 (Z.ltb_ge _ _)) by lia.
  change (byte_at pkt 0) with (Ok 0). change (byte_at pkt 1) with (Ok 0). change (byte_at pkt 2) with (Ok 0).
  assert (byte_at pkt 3 = Ok (addr_type a)) as -> by (by destruct a). cbn [res_bind].
  change (negb (0 =? 0)) with false. cbn [orb].
  assert (parseSOCKS5AddrBytes pkt (addr_type a) 4 = Ok (addr_text a, 4 + len (socks_addr_bytes a))) as ->.
  { unfold parseSOCKS5AddrBytes. unfold pkt in *. destruct a as [b|n|b]; cbn [addr_type socks_addr_bytes addr_text addr_ok] in *.
    - change (1 =? 1) with true. cbv iota. assert (len b = 4) as Hb by (unfold len; lia).
      rewrite (proj2 (Z.ltb_ge _ _)) by lia. change 4 with (len pre) at 1 2. rewrite <- Hb, slice_mid. cbn [res_bind]. by rewrite Hb.
    - change (3 =? 1) with false. change (3 =? 3) with true. cbv iota. rewrite len_vec8 in *.
      assert (0 < len n) as Hn by (destruct n; [done|rewrite len_cons; pose proof (len_nonneg n); lia]).
      rewrite (proj2 (Z.ltb_ge _ (4 + 1))) by lia. change 4 with (len pre) at 1. rewrite read8 by done. cbn [res_bind].
      rewrite (proj2 (Z.eqb_neq _ _)) by lia. rewrite (proj2 (Z.ltb_ge _ _)) by lia.
      replace (pre ++ vec8 n ++ be_put 2 port ++ data) with ((pre ++ [z2b (len n)]) ++ n ++ (be_put 2 port ++ data))
        by (unfold vec8; by rewrite <- app_assoc).
      replace (4 + 1) with (len (pre ++ [z2b (len n)])) by (rewrite len_app; done). rewrite slice_mid. cbn [res_bind].
      rewrite len_app. change (len pre) with 4. change (len [z2b (len n)]) with 1. do 2 f_equal. lia.
    - change (4 =? 1) with false. change (4 =? 3) with false. change (4 =? 4) with true. cbv iota.
      assert (len b = 16) as Hb by (unfold len; lia).
      rewrite (proj2 (Z.ltb_ge _ _)) by lia. change 4 with (len pre) at 1 2. rewrite <- Hb, slice_mid. cbn [res_bind]. by rewrite Hb. }
  cbn [res_bind]. rewrite (proj2 (Z.ltb_ge _ _)) by lia.
  assert (4 + len (socks_addr_bytes a) = len (pre ++ socks_addr_bytes a)) as -> by (rewrite len_app; done).
  assert (pkt = (pre ++ socks_addr_bytes a) ++ z2b (port / 256) :: z2b port :: data) as E
    by (unfold pkt; rewrite be_put2, <- app_assoc; done).
  assert (byte_at pkt (len (pre ++ socks_addr_bytes a)) = Ok (port / 256)) as ->.
  { rewrite E, byte_at_mid, b2z_z2b_small; [done|]. split; [apply Z.div_pos; lia|apply Z.div_lt_upper_bound; lia]. }
  assert (byte_at pkt (len (pre ++ socks_addr_bytes a) + 1) = Ok (port mod 256)) as ->.
  { rewrite E, byte_at_app_r by lia. unfold byte_at. change (index (z2b (port / 256) :: z2b port :: data) 1) with (Ok (z2b port)).
    cbn [res_bind]. by rewrite b2z_z2b. }
  cbn [res_bind]. rewrite lor_shiftl_add by (lia || apply Z.mod_pos_bound; lia).
  replace (port / 256 * 2 ^ 8 + port mod 256) with port by (pose proof (Z.div_mod port 256); lia).
  rewrite (proj2 (Z.eqb_neq _ _)) by lia. cbv zeta. destruct (ValidateHostPort _) as [[]| |]; cbn [res_bind]; try done.
  assert (slice pkt (len (pre ++ socks_addr_bytes a) + 2) (len pkt) = Ok data) as ->; [|done].
  assert (pkt = (pre ++ socks_addr_bytes a ++ be_put 2 port) ++ data ++ []) as E2 by (unfold pkt; rewrite app_nil_r, <- !app_assoc; done).
  replace (len (pre ++ socks_addr_bytes a) + 2) with (len (pre ++ socks_addr_bytes a ++ be_put 2 port)) by (rewrite !len_app, len_be_put; lia).
  replace (len pkt) with (len (pre ++ socks_addr_bytes a ++ be_put 2 port) + len data) by (rewrite E2, app_nil_r, !len_app; lia).
  rewrite E2. apply slice_mid.
Qed.

End FrameFacts.

Lemma parseSOCKS5AddrBytes_ok packet atyp offset :
  0 <= offset ->
  match parseSOCKS5AddrBytes packet atyp offset with
  | Ok (_, offset') => offset <= offset'
  | Err _ => True
  | Panic => False
  end.
Proof.
  intros Ho. unfold parseSOCKS5AddrBytes. destruct (atyp =? 1); [|destruct (atyp =? 3); [|destruct (atyp =? 4); [|done]]].
  - destruct (Z.ltb_spec (len packet) (offset + 4)); [done|].
    destruct (slice_in packet offset (offset + 4)) as (b & -> & _); [lia|lia|]. cbn. lia.
  - destruct (Z.ltb_spec (len packet) (offset + 1)); [done|]. destruct (byte_at_ok packet offset) as (l & -> & Hl); [lia|].
    cbn [res_bind]. destruct (l =? 0); [done|]. cbv zeta. destruct (Z.ltb_spec (len packet) (offset + 1 + l)); [done|].
    destruct (slice_in packet (offset + 1) (offset + 1 + l)) as (b & -> & _); [lia|lia|]. cbn. lia.
  - destruct (Z.ltb_spec (len packet) (offset + 16)); [done|].
    destruct (slice_in packet offset (offset + 16)) as (b & -> & _); [lia|lia|]. cbn. lia.
Qed.

Lemma parseSOCKS5UDPPacket_total `{U : GoUnicode} b : parseSOCKS5UDPPacket b <> Panic.
Proof.
  unfold parseSOCKS5UDPPacket, parseSOCKS5UDPFrameAddr. destruct (Z.ltb_spec (len b) 4); [done|].
  destruct (byte_at_ok b 0) as (b0 & -> & _); [lia|]. destruct (byte_at_ok b 1) as (b1 & -> & _); [lia|].
  destruct (byte_at_ok b 2) as (b2 & -> & _); [lia|]. destruct (byte_at_ok b 3) as (b3 & -> & _); [lia|]. cbn [res_bind].
  destruct (_ || _); [done|]. pose proof (parseSOCKS5AddrBytes_ok b b3 4) as Ha.
  destruct (parseSOCKS5AddrBytes b b3 4) as [[h off]| |]; cbn [res_bind]; [|done|by destruct Ha].
  assert (4 <= off) as Hoff by (by apply Ha). destruct (Z.ltb_spec (len b) (off + 2)); [done|].
  destruct (byte_at_ok b off) as (hi & -> & _); [lia|]. destruct (byte_at_ok b (off + 1)) as (lo & -> & _); [lia|]. cbn [res_bind].
  destruct (_ =? 0); [done|]. pose proof (ValidateHostPort_no_panic (JoinHostPort h (Itoa (Z.lor (Z.shiftl hi 8) lo)))).
  destruct (ValidateHostPort _); cbn [res_bind]; [|done|done].
  destruct (slice_in b (off + 2) (len b)) as (d & -> & _); [lia|lia|]. done.
Qed.

(** A SOCKS5 UDP frame that the client builds for a host and port parses back to
    them and to its payload: the target is the host, an address in canonical
    form, joined with the port, provided that passes validation, which it does
    for every IPv4 address and every accepted name without white space or
    brackets.  Parsing never panics, whatever the packet. *)
Theorem udp_frames_roundtrip {U : GoUnicode} (h : bytes) (p : Z) (d pkt : bytes)
    (Hb : buildSOCKS5UDPPacket h p d = Ok pkt) :
  let t := JoinHostPort (addr_text (frame_addr h)) (Itoa p) in
  parseSOCKS5UDPPacket pkt = (let! _ := ValidateHostPort t in Ok (t, d)) /\
  (ParseIP h = None -> plain_host h -> parseSOCKS5UDPPacket pkt = Ok (JoinHostPort h (Itoa p), d)) /\
  (forall q, length q = 4%nat -> ParseIP h = Some (v4InV6Prefix ++ q) -> parseSOCKS5UDPPacket pkt = Ok (endpoint4 q p, d)) /\
  forall b, parseSOCKS5UDPPacket b <> Panic.
Proof.
  unfold buildSOCKS5UDPPacket, appendSOCKS5UDPAddrChecked in Hb.
  destruct ((p <=? 0) || (65535 <? p)) eqn:Ep; [done|]. apply orb_false_iff in Ep as [Ep1%Z.leb_gt Ep2%Z.ltb_ge].
  destruct (is_empty h) eqn:Eh; [done|]. destruct (Z.ltb_spec 255 (len h)); [done|].
  destruct (ValidateHostnameOrIP h) as [[]| |] eqn:Ev; cbn [res_bind] in Hb; try done. apply Ok_inj in Hb as <-. intros t.
  rewrite appendSOCKS5UDPAddr_bytes, <- app_assoc.
  assert (parseSOCKS5UDPPacket ([z2b 0; z2b 0; z2b 0] ++ (z2b (addr_type (frame_addr h)) :: socks_addr_bytes (frame_addr h) ++ be_put 2 p) ++ d)
          = (let! _ := ValidateHostPort t in Ok (t, d))) as Hparse.
  { rewrite <- (frame_parses (frame_addr h) p d).
    - cbn [app]. by rewrite <- app_assoc.
    - apply frame_addr_ok. lia.
    - lia.
    - unfold frame_addr. destruct (ParseIP h) as [ip|]; [by destruct (To4 ip)|]. intros [= ->]. done. }
  split; [done|]. rewrite Hparse. split_and!.
  - intros Hip Hplain. unfold t. assert (addr_text (frame_addr h) = h) as -> by (unfold frame_addr; by rewrite Hip).
    rewrite ValidateHostPort_join, Ev by (done || lia). done.
  - intros q Hq Hip. assert (t = endpoint4 q p) as ->.
    { unfold t, frame_addr, endpoint4. rewrite Hip. unfold To4. rewrite length_app, Hq. change (length v4InV6Prefix + 4)%nat with 16%nat.
      change (16 =? 4)%nat with false. change (16 =? 16)%nat with true. cbn [andb].
      rewrite bool_decide_eq_true_2 by (by rewrite take_app_length'). cbn [addr_text].
      rewrite drop_app_length' by done. unfold IPString, To4. rewrite Hq. done. }
    rewrite ValidateHostPort_endpoint4 by (done || lia). done.
  - intros b. apply parseSOCKS5UDPPacket_total.
Qed.

Lemma udp_frames_roundtrip_witness :
  let U := ascii_only_unicode in
  exists pkt, buildSOCKS5UDPPacket (bs "example.com") 53 (bs "query") = Ok pkt /\
    parseSOCKS5UDPPacket pkt = Ok (bs "example.com:53", bs "query").
Proof.
  intros U. eexists. split; [reflexivity|].
  destruct (@udp_frames_roundtrip U (bs "example.com") 53 (bs "query") _ eq_refl) as (_ & H & _).
  rewrite H; [by vm_compute|by vm_compute|]. split; [|by vm_compute].
  intros c Hc. cbn [map] in Hc. rewrite !elem_of_cons, elem_of_nil in Hc.
  destruct Hc as [->|[->|[->|[->|[->|[->|[]]]]]]]; apply (bool_decide_unpack _); by vm_compute.
Defined.

(** A client with the password, and the same bytes with another password. *)
Lemma socks5_admission_witness :
  let U := ascii_only_unicode in
  let cfgp := mkProxyConfig (bs "u") (bs "secret") [] in
  (exists s, handleSOCKS5 cfgp IPStrategyDefault
     (greeting [z2b 0; z2b 2] ++ credentials (bs "u") (bs "secret") ++ request (z2b 5) 1 (SocksName (bs "example.com")) 443, [])
     = (s, Ok (SocksConnect (bs "example.com:443")))) /\
  snd (handleSOCKS5 cfgp IPStrategyDefault
     (greeting [z2b 0; z2b 2] ++ credentials (bs "u") (bs "guess!") ++ request (z2b 5) 1 (SocksName (bs "example.com")) 443, []))
     = Ok SocksClosed.
Proof.
  intros U cfgp. split; [|by vm_compute].
  apply (@socks5_admission bytes buffer_writer U buffer_reliable cfgp IPStrategyDefault).
  exists [z2b 0; z2b 2], (credentials (bs "u") (bs "secret")), (z2b 5), (SocksName (bs "example.com")), 443, [].
  rewrite app_nil_r. split_and!; try done.
  split_and!; try done. right. by left.
Defined.

