(* ===== verification/Upstream.v ===== *)
(** The SOCKS5 upstream of the server: internal/app/upstream_socks5.go.  The
    client side of the handshake, of CONNECT and of UDP ASSOCIATE, and the UDP
    relay.  Connections are those of [Socks5]: input to come and a writer; the
    network is given by its answers. *)

From Stdlib Require Import ZArith Lia Strings.Byte.
From stdpp Require Import base numbers list gmap.
From S2P Require Import Prelude GoStrings GoNet NetAddr GoTime Wire Crypto WireV2 WireV3 ReplayWindow CipherStream Policy Sniff Socks5.

Local Open Scope Z_scope.
Local Open Scope go_scope.

Record SOCKS5Config : Type := mkSOCKS5Config { up_Host : bytes; up_Username : bytes; up_Password : bytes }.

Definition validateSOCKS5AuthLength (username password : bytes) : res unit :=
  if (255 <? len username) || (255 <? len password)
  then Err (Errorf "SOCKS5 用户名和密码长度必须不超过 255 字节" []) else Ok tt.

(** [parseSOCKS5Addr]; [strings.Contains] followed by [strings.SplitN] with 2 is
    [Cut]. *)
Definition parseSOCKS5Addr `{GoUnicode} (addr : bytes) : res SOCKS5Config :=
  let addr := TrimPrefix addr (bs "socks5://") in
  let '(auth, rest, found) := Cut addr c_at in
  if found then
    let host := TrimSpace rest in
    let '(username, password, colon) := Cut auth c_colon in
    if is_empty auth || is_empty host || negb colon
    then Err (Errorf "认证格式必须是 user:pass@host:port" []) else
    if is_empty username || is_empty password then Err (Errorf "用户名和密码不能为空" []) else
    let! _ := validateSOCKS5AuthLength username password in
    Ok (mkSOCKS5Config host username password)
  else Ok (mkSOCKS5Config (TrimSpace addr) [] []).

(** A [net.UDPAddr]: the bytes of an address and a port. *)
Abbreviation UDPAddr := (bytes * Z)%type.

(** [udpDatagramWriter]: the count and the error [WriteToUDP] answers with. *)
Abbreviation datagram_writer := (bytes -> UDPAddr -> Z * option error)%type.

Section Upstream.
Context {W : Type} `{HW : Writer W} `{U : GoUnicode}.

Abbreviation conn := (bytes * W)%type.

Definition socks5UserPassAuthSrv (username password : bytes) : io conn unit :=
  io_lift (validateSOCKS5AuthLength username password) ;!
  conn_write ([z2b 1; z2b (len username)] ++ username ++ [z2b (len password)] ++ password) ;!
  do! response <- conn_read 2 in
  do! ver <- io_lift (byte_at response 0) in
  do! status <- io_lift (byte_at response 1) in
  if negb (ver =? 1) then io_err (Errorf "SOCKS5 用户名密码认证响应版本错误: %d" [ver]) else
  if negb (status =? 0) then io_err (Errorf "认证失败" []) else io_ret tt.

(** The methods offered: one of them, by the configuration. *)
Definition offered (config : SOCKS5Config) : bytes :=
  if negb (is_empty (up_Username config)) && negb (is_empty (up_Password config)) then [z2b 2] else [z2b 0].

Definition socks5Handshake (config : SOCKS5Config) : io conn unit :=
  let methods := offered config in
  conn_write ([z2b 5; z2b (len methods)] ++ methods) ;!
  do! response <- conn_read 2 in
  do! ver <- io_lift (byte_at response 0) in
  do! method <- io_lift (byte_at response 1) in
  if negb (ver =? 5) then io_err (Errorf "SOCKS 版本错误: %d" [ver]) else
  if method =? 0 then
    if negb (existsb (chr (z2b 0)) methods)
    then io_err (Errorf "服务器选择了未提供的认证方法: %d" [method]) else io_ret tt
  else if method =? 2 then
    if negb (existsb (chr (z2b 2)) methods)
    then io_err (Errorf "服务器选择了未提供的认证方法: %d" [method])
    else socks5UserPassAuthSrv (up_Username config) (up_Password config)
  else if method =? 255 then io_err (Errorf "服务器不接受认证" [])
  else io_err (Errorf "认证方法错误: %d" [method]).

(** The CONNECT request of a validated [host:port]. *)
Definition connect_request (addr : bytes) : res bytes :=
  let! _ := ValidateHostPort addr in
  let! hp := SplitHostPort addr in
  let '(host, portStr) := hp in
  match Atoi portStr with
  | None => Err (Errorf "strconv.Atoi" [])
  | Some port =>
      let p := [z2b (Z.shiftr port 8); z2b port] in
      match ParseIP host with
      | Some ip =>
          match To4 ip with
          | Some ip4 => Ok ([z2b 5; z2b 1; z2b 0; z2b 1] ++ ip4 ++ p)
          | None => Ok ([z2b 5; z2b 1; z2b 0; z2b 4] ++ ip ++ p)
          end
      | None =>
          if 255 <? len host then Err (Errorf "域名过长" []) else
          Ok ([z2b 5; z2b 1; z2b 0; z2b 3] ++ [z2b (len host)] ++ host ++ p)
      end
  end.

(** The reply to CONNECT: its head, and the bound address, which is skipped. *)
Definition read_connect_reply : io conn unit :=
  do! response <- conn_read 4 in
  do! ver <- io_lift (byte_at response 0) in
  do! status <- io_lift (byte_at response 1) in
  do! rsv <- io_lift (byte_at response 2) in
  do! atyp <- io_lift (byte_at response 3) in
  if negb (ver =? 5) then io_err (Errorf "SOCKS5 CONNECT响应版本错误: %d" [ver]) else
  if negb (rsv =? 0) then io_err (Errorf "SOCKS5 CONNECT响应 RSV 必须为 0" []) else
  if negb (status =? 0) then io_err (Errorf "状态码: %d" [status]) else
  if atyp =? 1 then do! _ <- conn_read 6 in io_ret tt else
  if atyp =? 3 then
    do! lenBuf <- conn_read 1 in
    do! l <- io_lift (byte_at lenBuf 0) in
    do! _ <- conn_read (Z.to_nat (l + 2)) in io_ret tt else
  if atyp =? 4 then do! _ <- conn_read 18 in io_ret tt else
  io_err (Errorf "地址类型无效: %d" [atyp]).

Definition socks5Connect (addr : bytes) : io conn unit :=
  do! request <- io_lift (connect_request addr) in
  conn_write request ;!
  read_connect_reply.

(** A connection to the proxy that was opened, and whether it was closed again. *)
Record opened : Type := mkOpened { op_conn : conn; op_closed : bool }.

(** Runs a step of the set-up; a failure closes the connection. *)
Definition setup {A} (f : error -> error) (m : io conn A) (c : conn) : opened * res A :=
  let '(c, r) := m c in
  match r with
  | Ok a => (mkOpened c false, Ok a)
  | Err e => (mkOpened c true, Err (f e))
  | Panic => (mkOpened c false, Panic)
  end.

(** [dialViaSocks5]: [dial] is [net.DialTimeout].  Without a proxy the address
    is dialled itself. *)
Definition dialViaSocks5 (config : option SOCKS5Config) (dial : bytes -> bytes -> res conn)
    (network addr : bytes) : option opened * res unit :=
  match config with
  | None =>
      match dial network addr with
      | Ok c => (Some (mkOpened c false), Ok tt) | Err e => (None, Err e) | Panic => (None, Panic)
      end
  | Some config =>
      match dial (bs "tcp") (up_Host config) with
      | Err e => (None, Err (Wrapf "连接SOCKS5代理失败: %v" e))
      | Panic => (None, Panic)
      | Ok c =>
          match setup (Wrapf "SOCKS5握手失败: %v") (socks5Handshake config) c with
          | (o, Ok _) => let '(o, r) := setup (Wrapf "SOCKS5 CONNECT失败: %v") (socks5Connect addr) (op_conn o) in (Some o, r)
          | (o, r) => (Some o, r)
          end
      end
  end.

(** * The UDP relay *)

(** What was handed to the socket, and the result. *)
Definition writeUDPDatagram (w : option datagram_writer) (data : bytes) (addr : option UDPAddr)
    : list (bytes * UDPAddr) * (Z * option error) :=
  match w, addr with
  | None, _ => ([], (0, Some (Errorf "UDP writer 未初始化" [])))
  | _, None => ([], (0, Some (Errorf "UDP 目标地址为空" [])))
  | Some w, Some addr =>
      let '(n, err) := w data addr in
      ([(data, addr)],
       if len data <? n then (n, Some ErrShortWrite) else
       match err with
       | Some e => (n, Some e)
       | None => if negb (n =? len data) then (n, Some ErrShortWrite) else (n, None)
       end)
  end.

Record SOCKS5UDPRelay : Type := mkRelay {
  rl_udpConn : option datagram_writer;
  rl_relayAddr : option UDPAddr;
  rl_targetAddr : option UDPAddr;
  rl_closed : bool;
}.

Definition writeSOCKS5UDPAssociate : io conn unit :=
  conn_write [z2b 5; z2b 3; z2b 0; z2b 1; z2b 0; z2b 0; z2b 0; z2b 0; z2b 0; z2b 0].

(** The relay's address in the reply to UDP ASSOCIATE. *)
Definition read_associate_reply : io conn (bytes * Z) :=
  do! resp <- conn_read 4 in
  do! ver <- io_lift (byte_at resp 0) in
  do! status <- io_lift (byte_at resp 1) in
  do! rsv <- io_lift (byte_at resp 2) in
  do! atyp <- io_lift (byte_at resp 3) in
  if negb (ver =? 5) then io_err (Errorf "UDP ASSOCIATE响应版本错误: %d" [ver]) else
  if negb (rsv =? 0) then io_err (Errorf "UDP ASSOCIATE响应 RSV 必须为 0" []) else
  if negb (status =? 0) then io_err (Errorf "UDP ASSOCIATE拒绝: %d" [status]) else
  do! relayHost <-
    (if atyp =? 1 then do! b <- conn_read 4 in io_ret (IPString b) else
     if atyp =? 3 then
       do! lenBuf <- conn_read 1 in
       do! l <- io_lift (byte_at lenBuf 0) in
       if l =? 0 then io_err (Errorf "UDP ASSOCIATE域名不能为空" []) else
       conn_read (Z.to_nat l) else
     if atyp =? 4 then do! b <- conn_read 16 in io_ret (IPString b) else
     io_err (Errorf "UDP ASSOCIATE地址类型无效: %d" [atyp])) in
  do! pb <- conn_read 2 in
  do! hi <- io_lift (byte_at pb 0) in
  do! lo <- io_lift (byte_at pb 1) in
  let relayPort := Z.lor (Z.shiftl hi 8) lo in
  if relayPort =? 0 then io_err (Errorf "UDP ASSOCIATE端口必须在 1-65535 之间" []) else
  io_ret (relayHost, relayPort).

(** An unspecified address stands for the host of the proxy. *)
Definition relay_host (config : SOCKS5Config) (relayHost : bytes) : bytes :=
  if bool_decide (relayHost = bs "0.0.0.0") || bool_decide (relayHost = bs "::")
  then match SplitHostPort (up_Host config) with Ok (h, _) => h | _ => [] end
  else relayHost.

(** [resolve] is [net.ResolveUDPAddr], [listen] is [net.ListenUDP]. *)
Definition newSOCKS5UDPRelay (config : option SOCKS5Config) (dial : bytes -> bytes -> res conn)
    (resolve : bytes -> res UDPAddr) (listen : res datagram_writer) (targetAddr : bytes)
    : option opened * res SOCKS5UDPRelay :=
  match config with
  | None => (None, Err (Errorf "SOCKS5配置为空" []))
  | Some config =>
      match dial (bs "tcp") (up_Host config) with
      | Err e => (None, Err e)
      | Panic => (None, Panic)
      | Ok c =>
          let '(o, r) := setup (fun e => e)
            (socks5Handshake config ;!
             writeSOCKS5UDPAssociate ;!
             do! reply <- read_associate_reply in
             let '(relayHost, relayPort) := reply in
             do! rAddr <- io_lift (resolve (JoinHostPort (relay_host config relayHost) (Itoa relayPort))) in
             do! tAddr <- io_lift (resolve targetAddr) in
             do! localUDP <- io_lift listen in
             io_ret (mkRelay (Some localUDP) (Some rAddr) (Some tAddr) false)) c in
          (Some o, r)
      end
  end.

Definition buildSOCKS5UDPPacketData (target : UDPAddr) (data : bytes) : bytes :=
  appendSOCKS5UDPAddr [z2b 0; z2b 0; z2b 0] (IPString (fst target)) (snd target) ++ data.

Definition parseSOCKS5UDPResp (packet : bytes) : res (bytes * bytes) :=
  let! r := parseSOCKS5UDPFrameAddr packet in
  let '(addr, offset) := r in
  let! payload := slice packet offset (len packet) in Ok (addr, payload).

Definition relay_Write (r : option SOCKS5UDPRelay) (data : bytes) : list (bytes * UDPAddr) * (Z * option error) :=
  match r with
  | Some (mkRelay (Some w) (Some relay) (Some target) closed) =>
      if closed then ([], (0, Some (Errorf "closed" []))) else
      writeUDPDatagram (Some w) (buildSOCKS5UDPPacketData target data) (Some relay)
  | _ => ([], (0, Some (Errorf "SOCKS5 UDP relay 未初始化" [])))
  end.

(** [Read]: [incoming] is what [ReadFromUDP] put into the pooled buffer and
    [room] the length of the caller's buffer. *)
Definition relay_Read (r : option SOCKS5UDPRelay) (incoming : res bytes) (room : Z) : res (bytes * bytes) :=
  match r with
  | Some (mkRelay (Some w) _ _ closed) =>
      if closed then Err (Errorf "closed" []) else
      let! tmp := incoming in
      let! x := parseSOCKS5UDPResp tmp in
      let '(srcAddr, payload) := x in
      if room <? len payload
      then Err (Errorf "SOCKS5 UDP payload length %d exceeds buffer length %d" [len payload; room])
      else Ok (payload, srcAddr)
  | _ => Err (Errorf "SOCKS5 UDP relay 未初始化" [])
  end.

(** [Close]: the relay after it and whether the two sockets were closed by it. *)
Definition relay_Close (r : SOCKS5UDPRelay) : SOCKS5UDPRelay * bool :=
  if rl_closed r then (r, false)
  else (mkRelay (rl_udpConn r) (rl_relayAddr r) (rl_targetAddr r) true, true).

End Upstream.

(** * The conversation with the proxy *)

Section Exact.
Context `{U : GoUnicode}.

Lemma buffer_conn_write b i (w : bytes) : conn_write b (i, w) = ((i, w ++ b), Ok tt).
Proof. unfold conn_write. by rewrite buffer_writeAll. Qed.

Lemma z2b_of b v : b2z b = v -> b = z2b v.
Proof. intros <-. by rewrite z2b_b2z. Qed.

(** A configuration with both a user name and a password authenticates. *)
Definition with_auth (config : SOCKS5Config) : bool :=
  negb (is_empty (up_Username config)) && negb (is_empty (up_Password config)).

(** What the client says first, and the answers that let it go on. *)
Definition hello_sent (config : SOCKS5Config) : bytes :=
  if with_auth config then greeting [z2b 2] ++ credentials (up_Username config) (up_Password config)
  else greeting [z2b 0].

Definition hello_answer (config : SOCKS5Config) : bytes :=
  if with_auth config then [z2b 5; z2b 2; z2b 1; z2b 0] else [z2b 5; z2b 0].

Definition creds_fit (config : SOCKS5Config) : Prop :=
  with_auth config = true -> len (up_Username config) <= 255 /\ len (up_Password config) <= 255.

Lemma auth_bytes u p : [z2b 1; z2b (len u)] ++ u ++ [z2b (len p)] ++ p = credentials u p.
Proof. done. Qed.

Lemma userpass_exact u p i (w : bytes) i' w' :
  socks5UserPassAuthSrv u p (i, w) = ((i', w'), Ok tt) <->
  len u <= 255 /\ len p <= 255 /\ i = [z2b 1; z2b 0] ++ i' /\ w' = w ++ credentials u p.
Proof.
  unfold socks5UserPassAuthSrv, io_bind, io_lift, validateSOCKS5AuthLength.
  destruct (Z.ltb_spec 255 (len u)), (Z.ltb_spec 255 (len p)); cbn [orb]; cbv iota;
    try (split; [done|intros (?&?&?&?); lia]). rewrite buffer_conn_write, auth_bytes. split.
  - destruct (conn_read 2 (i, _)) as [s [r| |]] eqn:E; try done. apply conn_read_inv in E as (i1 & -> & -> & Hr).
    destruct r as [|v [|st [|? ?]]]; try done. change (byte_at [v; st] 0) with (Ok (b2z v)). change (byte_at [v; st] 1) with (Ok (b2z st)).
    cbv beta iota. destruct (Z.eqb_spec (b2z v) 1) as [->%z2b_of|]; cbn [negb]; [|done].
    destruct (Z.eqb_spec (b2z st) 0) as [->%z2b_of|]; cbn [negb]; [|done]. intros [= <- <-]. done.
  - intros (_ & _ & -> & ->). by rewrite conn_read_app.
Qed.

Lemma handshake_exact config i (w : bytes) i' w' :
  socks5Handshake config (i, w) = ((i', w'), Ok tt) <->
  creds_fit config /\ i = hello_answer config ++ i' /\ w' = w ++ hello_sent config.
Proof.
  unfold socks5Handshake, io_bind, io_lift, hello_answer, hello_sent, offered, creds_fit. fold (with_auth config).
  cbv beta zeta. rewrite buffer_conn_write. split.
  - destruct (conn_read 2 (i, _)) as [s [r| |]] eqn:E; try done. apply conn_read_inv in E as (i1 & -> & -> & Hr).
    destruct r as [|v [|m [|? ?]]]; try done. change (byte_at [v; m] 0) with (Ok (b2z v)). change (byte_at [v; m] 1) with (Ok (b2z m)).
    cbv beta iota. destruct (Z.eqb_spec (b2z v) 5) as [->%z2b_of|]; cbn [negb]; [|done].
    destruct (Z.eqb_spec (b2z m) 0) as [->%z2b_of|].
    { destruct (with_auth config); [done|]. intros [= <- <-]. done. }
    destruct (Z.eqb_spec (b2z m) 2) as [->%z2b_of|]; [|by destruct (_ =? 255)].
    destruct (with_auth config); [|done].
    change (negb (existsb (chr (z2b 2)) [z2b 2])) with false. cbv iota.
    intros (Hu & Hp & -> & ->)%userpass_exact. rewrite <- app_assoc. done.
  - intros (Hc & -> & ->). destruct (with_auth config); [|by rewrite conn_read_app].
    change ([z2b 5; z2b 2; z2b 1; z2b 0] ++ i') with ([z2b 5; z2b 2] ++ [z2b 1; z2b 0] ++ i'). rewrite conn_read_app by done.
    destruct (Hc eq_refl). apply userpass_exact. rewrite <- app_assoc. done.
Qed.

(** The target of an address, as the request carries it. *)
Definition connect_target (addr : bytes) (host : bytes) (port : Z) : Prop :=
  ValidateHostPort addr = Ok tt /\ exists ps, SplitHostPort addr = Ok (host, ps) /\ Atoi ps = Some port /\
  (ParseIP host = None -> len host <= 255).

Lemma connect_target_ok addr host port :
  connect_target addr host port -> addr_ok (frame_addr host) /\ 0 < port < 65536.
Proof.
  intros (Hv & ps & Hs & Ha & Hl). apply ValidateHostPort_ok in Hv as (h & q & p & Hs' & Ha' & Hp & _).
  assert (h = host /\ q = ps) as [-> ->] by (rewrite Hs in Hs'; by injection Hs'). assert (p = port) as -> by congruence.
  split; [|lia]. unfold frame_addr. destruct (ParseIP host) as [ip|] eqn:E; [|specialize (Hl eq_refl); cbn; lia].
  apply ParseIP_length in E. destruct (To4 ip) as [q|] eqn:E4; [by apply To4_length in E4|done].
Qed.

Lemma connect_request_exact addr r :
  connect_request addr = Ok r <->
  exists host port, connect_target addr host port /\ r = request (z2b 5) 1 (frame_addr host) port.
Proof.
  unfold connect_request, connect_target, request, frame_addr.
  assert (forall p, [z2b (Z.shiftr p 8); z2b p] = be_put 2 p) as Hbe by (intros p; by rewrite be_put2, Z.shiftr_div_pow2 by lia).
  destruct (ValidateHostPort addr) as [[]| |]; cbn [res_bind]; try (split; [done|by intros (?&?&(?&?)&?)]).
  destruct (SplitHostPort addr) as [[host ps]| |]; cbn [res_bind]; try (split; [done|by intros (?&?&(_&?&?&?)&?)]).
  destruct (Atoi ps) as [port|] eqn:Ea.
  2: { split; [done|]. intros (h & p & (_ & q & [= <- <-] & E & _) & _). congruence. }
  rewrite Hbe. split.
  - intros H. exists host, port. destruct (ParseIP host) as [ip|] eqn:Ei.
    + split; [split; [done|exists ps; split_and!; done]|]. destruct (To4 ip); by apply Ok_inj in H as <-.
    + destruct (Z.ltb_spec 255 (len host)); [done|]. apply Ok_inj in H as <-.
      split; [split; [done|exists ps; split_and!; done]|]. done.
  - intros (h & p & (_ & q & [= <- <-] & E & Hl) & ->). assert (p = port) as -> by congruence.
    destruct (ParseIP host) as [ip|]; [by destruct (To4 ip)|]. specialize (Hl eq_refl).
    destruct (Z.ltb_spec 255 (len host)); [lia|]. done.
Qed.

(** A reply of success, with a bound address that is not looked at. *)
Definition success_reply (b : socks_addr) (bport : bytes) : bytes :=
  [z2b 5; z2b 0; z2b 0; z2b (addr_type b)] ++ socks_addr_bytes b ++ bport.

Lemma skip_exact n m i (w : bytes) s :
  (do! _ <- conn_read (n + m) in io_ret tt) (i, w) = (s, Ok tt) <->
  exists a b i', length a = n /\ length b = m /\ i = a ++ b ++ i' /\ s = (i', w).
Proof.
  unfold io_bind, io_ret. split.
  - destruct (conn_read (n + m) (i, w)) as [s' [r| |]] eqn:E; try done. apply conn_read_inv in E as (i' & -> & -> & Hr).
    intros [= <-]. exists (take n r), (drop n r), i'. rewrite length_take, length_drop.
    split_and!; [lia|lia| |done]. by rewrite app_assoc, take_drop.
  - intros (a & b & i' & <- & <- & -> & ->). rewrite app_assoc, conn_read_app by (by rewrite length_app). done.
Qed.

Lemma connect_reply_exact i (w : bytes) s :
  read_connect_reply (i, w) = (s, Ok tt) <->
  exists b bport i', addr_ok b /\ length bport = 2%nat /\ i = success_reply b bport ++ i' /\ s = (i', w).
Proof.
  unfold read_connect_reply, success_reply. split.
  - unfold io_bind at 1. destruct (conn_read 4 (i, w)) as [s1 [r| |]] eqn:E; try done.
    apply conn_read_inv in E as (i1 & -> & -> & Hr). destruct r as [|v [|st [|rs [|at_ [|? ?]]]]]; try done.
    unfold io_bind at 1 2 3 4. unfold io_lift at 1 2 3 4.
    change (byte_at [v; st; rs; at_] 0) with (Ok (b2z v)). change (byte_at [v; st; rs; at_] 1) with (Ok (b2z st)).
    change (byte_at [v; st; rs; at_] 2) with (Ok (b2z rs)). change (byte_at [v; st; rs; at_] 3) with (Ok (b2z at_)).
    cbv beta iota. destruct (Z.eqb_spec (b2z v) 5) as [->%z2b_of|]; cbn [negb]; [|done].
    destruct (Z.eqb_spec (b2z rs) 0) as [->%z2b_of|]; cbn [negb]; [|done].
    destruct (Z.eqb_spec (b2z st) 0) as [->%z2b_of|]; cbn [negb]; [|done].
    destruct (Z.eqb_spec (b2z at_) 1) as [->%z2b_of|].
    { change 6%nat with (4 + 2)%nat. intros (a & p & i2 & Ha & Hp & -> & ->)%skip_exact.
      exists (SocksV4 a), p, i2. cbn [addr_ok addr_type socks_addr_bytes]. by rewrite <- !app_assoc. }
    destruct (Z.eqb_spec (b2z at_) 3) as [->%z2b_of|].
    { unfold io_bind at 1. destruct (conn_read 1 (i1, w)) as [s2 [lb| |]] eqn:E; try done.
      apply conn_read_inv in E as (i2 & -> & -> & Hl). apply single in Hl as [c ->].
      unfold io_bind at 1. unfold io_lift. change (byte_at [c] 0) with (Ok (b2z c)). cbv beta iota.
      pose proof (b2z_range c). replace (Z.to_nat (b2z c + 2)) with (Z.to_nat (b2z c) + 2)%nat by lia.
      intros (a & p & i3 & Ha & Hp & -> & ->)%skip_exact. destruct (vec8_of c a Ha) as [Ec Hlt].
      exists (SocksName a), p, i3. cbn [addr_ok addr_type socks_addr_bytes]. rewrite <- Ec.
      split_and!; [done|done| |done]. cbn [app]. by rewrite <- app_assoc. }
    destruct (Z.eqb_spec (b2z at_) 4) as [->%z2b_of|]; [|done].
    change 18%nat with (16 + 2)%nat. intros (a & p & i2 & Ha & Hp & -> & ->)%skip_exact.
    exists (SocksV6 a), p, i2. cbn [addr_ok addr_type socks_addr_bytes]. by rewrite <- !app_assoc.
  - intros (b & p & i' & Hb & Hp & -> & ->). unfold io_bind at 1. rewrite <- !app_assoc, conn_read_app by done.
    unfold io_bind at 1 2 3 4. unfold io_lift at 1 2 3 4. destruct b as [a|n|a]; cbn [addr_ok addr_type socks_addr_bytes] in *.
    + change 6%nat with (4 + 2)%nat. apply skip_exact. by exists a, p, i'.
    + destruct (read_vec8 n (p ++ i') w Hb) as (c & -> & Hc & Hl).
      pose proof (b2z_range c).
      assert ((do! _ <- conn_read (Z.to_nat (b2z c + 2)) in io_ret tt) (n ++ p ++ i', w) = ((i', w), Ok tt)) as E.
      { replace (Z.to_nat (b2z c + 2)) with (Z.to_nat (b2z c) + 2)%nat by lia. apply skip_exact. by exists n, p, i'. }
      exact E.
    + change 18%nat with (16 + 2)%nat. apply skip_exact. by exists a, p, i'.
Qed.

Lemma connect_exact addr i (w : bytes) i' w' :
  socks5Connect addr (i, w) = ((i', w'), Ok tt) <->
  exists host port b bport, connect_target addr host port /\ addr_ok b /\ length bport = 2%nat /\
    i = success_reply b bport ++ i' /\ w' = w ++ request (z2b 5) 1 (frame_addr host) port.
Proof.
  unfold socks5Connect, io_bind, io_lift. split.
  - destruct (connect_request addr) as [r| |] eqn:E; try done. apply connect_request_exact in E as (host & port & Ht & ->).
    rewrite buffer_conn_write. intros (b & p & i2 & Hb & Hp & -> & [= -> ->])%connect_reply_exact.
    by exists host, port, b, p.
  - intros (host & port & b & p & Ht & Hb & Hp & -> & ->).
    rewrite (proj2 (connect_request_exact addr (request (z2b 5) 1 (frame_addr host) port))) by eauto.
    rewrite buffer_conn_write. apply connect_reply_exact. by exists b, p, i'.
Qed.

Lemma setup_ok {A} f (m : io (bytes * bytes) A) c o a :
  setup f m c = (o, Ok a) <-> op_closed o = false /\ m c = (op_conn o, Ok a).
Proof.
  unfold setup. destruct (m c) as [c' [x| |]]; split; try (by intros [= <- <-]); try (by intros [_ ?]); try done.
  destruct o as [oc cl]; cbn. intros [-> [= -> ->]]. done.
Qed.

Lemma setup_err {A} f (m : io (bytes * bytes) A) c o e : setup f m c = (o, Err e) -> op_closed o = true.
Proof. unfold setup. destruct (m c) as [c' [x| |]]; try done. by intros [= <- <-]. Qed.

Lemma dial_accepts config dial network addr input :
  dial (bs "tcp") (up_Host config) = Ok (input, []) -> forall rest sent,
  dialViaSocks5 (Some config) dial network addr = (Some (mkOpened (rest, sent) false), Ok tt) <->
  creds_fit config /\ exists host port b bport, connect_target addr host port /\ addr_ok b /\ length bport = 2%nat /\
    input = hello_answer config ++ success_reply b bport ++ rest /\
    sent = hello_sent config ++ request (z2b 5) 1 (frame_addr host) port.
Proof.
  intros Hdial rest sent. unfold dialViaSocks5. rewrite Hdial. split.
  - destruct (setup _ (socks5Handshake config) _) as [o1 [[]| |]] eqn:E1; try done.
    apply setup_ok in E1 as [Hc1 E1]. destruct (op_conn o1) as [i1 w1]. apply handshake_exact in E1 as (Hf & -> & ->).
    destruct (setup _ (socks5Connect addr) _) as [o2 r] eqn:E2. intros [= -> ->].
    apply setup_ok in E2 as [_ E2]. cbn [op_conn] in E2. apply connect_exact in E2 as (h & p & b & bp & Ht & Hb & Hp & -> & ->).
    split; [done|]. by exists h, p, b, bp.
  - intros (Hf & h & p & b & bp & Ht & Hb & Hp & -> & ->).
    rewrite (proj2 (setup_ok _ _ _ (mkOpened (success_reply b bp ++ rest, hello_sent config) false) tt)).
    2: { split; [done|]. by apply handshake_exact. }
    cbn [op_conn].
    rewrite (proj2 (setup_ok _ _ _ (mkOpened (rest, hello_sent config ++ request (z2b 5) 1 (frame_addr h) p) false) tt)); [done|].
    split; [done|]. apply connect_exact. by exists h, p, b, bp.
Qed.

End Exact.

(** Dialling through a SOCKS5 upstream.  The connection is handed to the
    caller exactly when the target is valid and the proxy's answers are the
    ones asked for: the method the configuration offers (accepting the
    credentials when there are any) and a reply of success with a well-formed
    bound address.  Then the proxy was sent exactly the greeting, the
    credentials when both are set, and the CONNECT request for the target, and
    not one byte behind the reply was consumed.  In every other case that
    reaches the proxy and returns an error, the connection was closed. *)
Theorem upstream_dial_exact {U : GoUnicode} (config : SOCKS5Config) (dial : bytes -> bytes -> res (bytes * bytes))
    (network addr input : bytes) (Hdial : dial (bs "tcp") (up_Host config) = Ok (input, [])) :
  (forall rest sent,
    dialViaSocks5 (Some config) dial network addr = (Some (mkOpened (rest, sent) false), Ok tt) <->
    creds_fit config /\ exists host port b bport, connect_target addr host port /\ addr_ok b /\ length bport = 2%nat /\
      input = hello_answer config ++ success_reply b bport ++ rest /\
      sent = hello_sent config ++ request (z2b 5) 1 (frame_addr host) port) /\
  (forall o e, dialViaSocks5 (Some config) dial network addr = (o, Err e) -> exists c, o = Some c /\ op_closed c = true).
Proof.
  split; [by apply dial_accepts|]. unfold dialViaSocks5. rewrite Hdial.
  intros o e. destruct (setup _ (socks5Handshake config) _) as [o1 [[]| |]] eqn:E1; try done.
  - destruct (setup _ (socks5Connect addr) _) as [o2 r] eqn:E2. intros [= <- ->]. exists o2. split; [done|]. by eapply setup_err.
  - intros [= <- <-]. exists o1. split; [done|]. by eapply setup_err.
Qed.

(** * Against the local SOCKS5 server *)

Section Meet.
Context `{U : GoUnicode}.

Lemma auth_buffer cfgp u p i (w : bytes) :
  len u <= 255 -> len p <= 255 ->
  handleSOCKS5UserPassAuth cfgp (credentials u p ++ i, w) =
  if bool_decide (u = Username cfgp) && bool_decide (p = Password cfgp)
  then ((i, w ++ [z2b 1; z2b 0]), Ok tt) else ((i, w ++ [z2b 1; z2b 1]), Err (Errorf "认证失败" [])).
Proof.
  intros Hu Hp. unfold handleSOCKS5UserPassAuth, io_bind, credentials.
  destruct (read_vec8 u (vec8 p ++ i) w) as (l & El & Hl & Hlu); [lia|].
  destruct (read_vec8 p i w) as (c & Ec & Hc & Hcp); [lia|].
  replace ((z2b 1 :: vec8 u ++ vec8 p) ++ i) with ([z2b 1; l] ++ u ++ [c] ++ p ++ i)
    by (cbn [app]; rewrite <- app_assoc, El, Ec; done).
  rewrite conn_read_app by done. unfold io_lift. change (byte_at [z2b 1; l] 0) with (Ok 1). cbv beta iota.
  change (1 =? 1) with true. cbn [negb]. change (byte_at [z2b 1; l] 1) with (Ok (b2z l)). cbv beta iota.
  rewrite conn_read_app by done. rewrite conn_read_app by done. change (byte_at [c] 0) with (Ok (b2z c)). cbv beta iota.
  rewrite conn_read_app by done. unfold writeSOCKS5UserPassReply.
  destruct (_ && _); rewrite buffer_conn_write; done.
Qed.

(** The server reads the greeting and negotiates. *)
Lemma server_greets cfgp strat m i (w : bytes) :
  handleSOCKS5 cfgp strat (greeting [m] ++ i, w) =
  match negotiate cfgp [m] (i, w) with
  | (s, Ok _) => match readLocalSOCKS5Request s with
      | (s, Ok (inl req)) =>
          if strategy_refuses strat req then (fst (writeSOCKS5Reply 2 s), Ok SocksClosed) else
          if rq_command req =? 1 then (s, Ok (SocksConnect (rq_target req))) else
          if rq_command req =? 3 then (s, Ok SocksUDP) else (fst (writeSOCKS5Reply 7 s), Ok SocksClosed)
      | (s, Ok (inr (reply, _))) => if negb (reply =? 0) then (fst (writeSOCKS5Reply reply s), Ok SocksClosed) else (s, Ok SocksClosed)
      | (s, Err _) => (s, Ok SocksClosed)
      | (s, Panic) => (s, Panic)
      end
  | (s, Err _) => (s, Ok SocksClosed)
  | (s, Panic) => (s, Panic)
  end.
Proof.
  unfold handleSOCKS5. change (greeting [m] ++ i) with ([z2b 5; z2b 1] ++ [m] ++ i). rewrite conn_read_app by done.
  change (byte_at [z2b 5; z2b 1] 0) with (Ok 5). change (byte_at [z2b 5; z2b 1] 1) with (Ok 1). cbv iota.
  change (5 =? 5) with true. cbn [negb]. change (Z.to_nat 1) with 1%nat. by rewrite conn_read_app.
Qed.

Lemma negotiate_config config cfgp i (w : bytes) :
  creds_fit config -> (up_Username config = [] <-> up_Password config = []) ->
  Username cfgp = up_Username config -> Password cfgp = up_Password config ->
  exists m auth, hello_sent config = greeting [m] ++ auth /\
    negotiate cfgp [m] (auth ++ i, w) = ((i, w ++ hello_answer config), Ok tt).
Proof.
  intros Hfit Hboth Hu Hp. unfold hello_sent, hello_answer, creds_fit, with_auth, negotiate, io_bind in *. rewrite Hu in *.
  destruct (up_Username config) as [|c u] eqn:Eu; cbn [is_empty negb andb] in *.
  - exists (z2b 0), []. split; [done|]. change (negb (existsb _ _)) with false. cbv iota. apply buffer_conn_write.
  - destruct (up_Password config) as [|d p] eqn:Ep; [by pose proof (proj2 Hboth eq_refl)|]. cbn [is_empty negb andb] in *.
    exists (z2b 2), (credentials (c :: u) (d :: p)). split; [done|]. destruct (Hfit eq_refl).
    change (negb (existsb _ _)) with false. cbv iota beta. unfold writeSOCKS5MethodSelection. rewrite buffer_conn_write.
    rewrite auth_buffer by done. rewrite Hu, Hp, !bool_decide_eq_true_2 by done. cbn [andb]. by rewrite <- app_assoc.
Qed.

End Meet.

(** C31: the upstream client and the SOCKS5 server of the same program fit together.
    With the same credentials on both sides, or none on either, for a target that
    the server's own target check ([ValidateHostPort]) admits and whose address
    family its IP strategy does not refuse ([strategy_refuses]): what the client
    sends makes the server go on to CONNECT to that target, with an address in
    canonical form, and the server's answers, with its reply of success, let the
    client take over the connection.  With other credentials the server closes
    after its refusal, the client reports the failed authentication and closes its
    side, and no request is sent.  The client's credentials are both set or both
    empty, and fit the one-byte lengths of the authentication message. *)
Theorem upstream_meets_local {U : GoUnicode} (config : SOCKS5Config) (cfgp : ProxyConfig) (strat : Z)
    (addr host : bytes) (port : Z) (network more rest : bytes)
    (Hfit : creds_fit config) (Hboth : up_Username config = [] <-> up_Password config = [])
    (Htarget : connect_target addr host port) :
  let t := JoinHostPort (addr_text (frame_addr host)) (Itoa port) in
  let sent := hello_sent config ++ request (z2b 5) 1 (frame_addr host) port in
  let refusal := [z2b 5; z2b 2; z2b 1; z2b 1] in
  (Username cfgp = up_Username config -> Password cfgp = up_Password config -> ValidateHostPort t = Ok tt ->
   strategy_refuses strat (mkRequest 1 (addr_type (frame_addr host)) t) = false ->
   exists answers,
     handleSOCKS5 cfgp strat (sent ++ more, []) = ((more, answers), Ok (SocksConnect t)) /\
     dialViaSocks5 (Some config) (fun _ _ => Ok (snd (fst (writeSOCKS5Reply 0 ([] : bytes, answers))) ++ rest, [])) network addr
       = (Some (mkOpened (rest, sent) false), Ok tt)) /\
  (with_auth config = true -> Username cfgp <> [] ->
   (Username cfgp, Password cfgp) <> (up_Username config, up_Password config) ->
   handleSOCKS5 cfgp strat (hello_sent config ++ more, []) = ((more, refusal), Ok SocksClosed) /\
   dialViaSocks5 (Some config) (fun _ _ => Ok (refusal, [])) network addr
     = (Some (mkOpened ([], hello_sent config) true), Err (Wrapf "SOCKS5握手失败: %v" (Errorf "认证失败" [])))).
Proof.
  intros t sent refusal. destruct (connect_target_ok _ _ _ Htarget) as [Hok Hport]. split.
  - intros Hu Hp Hv Hs. exists (hello_answer config). split.
    + destruct (negotiate_config config cfgp (request (z2b 5) 1 (frame_addr host) port ++ more) []) as (m & auth & Eh & En); [done..|].
      unfold sent. rewrite Eh, <- !app_assoc, server_greets, En.
      rewrite request_complete by (done || lia || (split; [lia|done])). fold t. by rewrite Hs.
    + unfold writeSOCKS5Reply. rewrite buffer_conn_write. cbn [fst snd].
      eapply dial_accepts; [reflexivity|]. split; [done|].
      exists host, port, (SocksV4 (replicate 4 (z2b 0))), (replicate 2 (z2b 0)). split_and!; try done.
      by rewrite <- app_assoc.
  - intros Ha Hne Hd. unfold creds_fit in Hfit. destruct (Hfit Ha) as [Hu Hp]. unfold hello_sent. rewrite Ha. split.
    + rewrite <- app_assoc, server_greets. unfold negotiate, io_bind. destruct (Username cfgp) as [|c u] eqn:Eu; [done|].
      cbn [is_empty negb]. change (negb (existsb _ _)) with false. cbv iota beta. unfold writeSOCKS5MethodSelection.
      rewrite buffer_conn_write, auth_buffer by done. rewrite Eu. destruct (_ && _) eqn:E; [|done].
      apply andb_true_iff in E as [E1%bool_decide_eq_true E2%bool_decide_eq_true]. congruence.
    + unfold dialViaSocks5, setup, socks5Handshake, offered, io_bind. fold (with_auth config). rewrite Ha.
      cbv beta zeta. rewrite buffer_conn_write. change refusal with ([z2b 5; z2b 2] ++ [z2b 1; z2b 1]). rewrite conn_read_app by done.
      unfold io_lift. change (byte_at [z2b 5; z2b 2] 0) with (Ok 5). change (byte_at [z2b 5; z2b 2] 1) with (Ok 2). cbv beta iota.
      change (negb (5 =? 5)) with false. change (2 =? 0) with false. change (2 =? 2) with true.
      change (negb (existsb (chr (z2b 2)) [z2b 2])) with false. cbv beta iota.
      unfold socks5UserPassAuthSrv, io_bind, io_lift, validateSOCKS5AuthLength.
      rewrite (proj2 (Z.ltb_ge 255 _)), (proj2 (Z.ltb_ge 255 _)) by lia. cbn [orb]. cbv iota beta.
      rewrite buffer_conn_write, auth_bytes. rewrite <- (app_nil_r [z2b 1; z2b 1]), conn_read_app by done.
      cbv beta iota. by rewrite <- app_assoc.
Qed.

(** The datagrams of a relay.  While it is open, writing to an IPv4 target
    hands exactly one datagram to the socket, addressed to the proxy's relay,
    that parses back to the target and the data, and the same frame coming back
    is read as that data from that address if the buffer has room, and refused
    otherwise; the write succeeds only if the socket took the whole frame.
    After [Close] nothing is sent and nothing read, and a second [Close] does
    nothing. *)
Theorem relay_datagrams {U : GoUnicode} (w : datagram_writer) (relay target : UDPAddr) (q data : bytes) (room : Z)
    (Hq : To4 (fst target) = Some q) (Hp : 0 < snd target < 65536) :
  let r := mkRelay (Some w) (Some relay) (Some target) false in
  let t := endpoint4 q (snd target) in
  (exists pkt, fst (relay_Write (Some r) data) = [(pkt, relay)] /\ parseSOCKS5UDPPacket pkt = Ok (t, data) /\
    (len data <= room -> relay_Read (Some r) (Ok pkt) room = Ok (data, t)) /\
    (room < len data -> exists e, relay_Read (Some r) (Ok pkt) room = Err e) /\
    (snd (snd (relay_Write (Some r) data)) = None <-> w pkt relay = (len pkt, None))) /\
  let r' := fst (relay_Close r) in
  fst (relay_Write (Some r') data) = [] /\ snd (relay_Write (Some r') data) = (0, Some (Errorf "closed" [])) /\
  (forall incoming, relay_Read (Some r') incoming room = Err (Errorf "closed" [])) /\ relay_Close r' = (r', false).
Proof.
  intros r t. split; [|done]. pose proof (To4_length _ _ Hq) as Hlq.
  set (pkt := buildSOCKS5UDPPacketData target data). exists pkt.
  assert (parseSOCKS5UDPPacket pkt = Ok (t, data)) as Hparse.
  { unfold pkt, buildSOCKS5UDPPacketData, IPString. rewrite Hq, appendSOCKS5UDPAddr_bytes.
    assert (frame_addr (string4 q) = SocksV4 q) as ->.
    { unfold frame_addr. rewrite ParseIP_string4 by done. unfold To4. rewrite length_app, Hlq.
      change (length v4InV6Prefix + 4)%nat with 16%nat. change (16 =? 4)%nat with false. change (16 =? 16)%nat with true. cbn [andb].
      rewrite bool_decide_eq_true_2 by (by rewrite take_app_length'). by rewrite drop_app_length'. }
    transitivity (parseSOCKS5UDPPacket ([z2b 0; z2b 0; z2b 0; z2b (addr_type (SocksV4 q))] ++ socks_addr_bytes (SocksV4 q) ++ be_put 2 (snd target) ++ data)).
    { f_equal. cbn [app]. by rewrite <- !app_assoc. }
    rewrite frame_parses by done. cbn [addr_text]. unfold IPString, To4. rewrite Hlq. change (4 =? 4)%nat with true. cbv iota zeta.
    fold (endpoint4 q (snd target)). rewrite ValidateHostPort_endpoint4 by (done || lia). done. }
  assert (parseSOCKS5UDPResp pkt = Ok (t, data)) as Hresp by exact Hparse.
  unfold relay_Write, relay_Read, writeUDPDatagram, r. cbn [res_bind]. fold pkt. rewrite Hresp.
  destruct (w pkt relay) as [n err] eqn:Ew. cbn [fst snd res_bind]. split_and!; try done.
  - intros Hroom. by rewrite (proj2 (Z.ltb_ge _ _)) by lia.
  - intros Hroom. rewrite (proj2 (Z.ltb_lt _ _)) by lia. eauto.
  - destruct (Z.ltb_spec (len pkt) n); cbn [snd]; [split; [done|intros [= -> ->]; lia]|].
    destruct err; cbn [snd]; [by split|]. destruct (Z.eqb_spec n (len pkt)) as [->|]; cbn [negb snd]; [by split|].
    split; [done|]. by intros [= ->].
Qed.

Lemma sample_target : let U := ascii_only_unicode in connect_target (bs "example.com:443") (bs "example.com") 443.
Proof. intros U. split; [by vm_compute|]. exists (bs "443"). split_and!; [by vm_compute|by vm_compute|]. intros _. by vm_compute. Qed.

Lemma upstream_dial_exact_witness :
  let U := ascii_only_unicode in
  let config := mkSOCKS5Config (bs "proxy:1080") (bs "u") (bs "secret") in
  let dial := fun _ _ : bytes => Ok (hello_answer config ++ success_reply (SocksV4 (replicate 4 (z2b 0))) [z2b 0; z2b 0] ++ bs "data", []) in
  dialViaSocks5 (Some config) dial (bs "tcp") (bs "example.com:443") =
  (Some (mkOpened (bs "data", hello_sent config ++ request (z2b 5) 1 (SocksName (bs "example.com")) 443) false), Ok tt).
Proof.
  intros U config dial.
  apply (@upstream_dial_exact U config dial (bs "tcp") (bs "example.com:443") _ eq_refl). split; [by vm_compute|].
  exists (bs "example.com"), 443, (SocksV4 (replicate 4 (z2b 0))), [z2b 0; z2b 0]. split_and!; [apply sample_target|done..].
Defined.

Lemma upstream_meets_local_witness :
  let U := ascii_only_unicode in
  let config := mkSOCKS5Config (bs "proxy:1080") (bs "u") (bs "secret") in
  handleSOCKS5 (mkProxyConfig (bs "u") (bs "guess") []) IPStrategyDefault (hello_sent config ++ bs "more", [])
    = ((bs "more", [z2b 5; z2b 2; z2b 1; z2b 1]), Ok SocksClosed) /\
  exists answers,
    handleSOCKS5 (mkProxyConfig (bs "u") (bs "secret") []) IPStrategyDefault
      ((hello_sent config ++ request (z2b 5) 1 (SocksName (bs "example.com")) 443) ++ bs "more", [])
    = ((bs "more", answers), Ok (SocksConnect (bs "example.com:443"))).
Proof.
  intros U config. assert (creds_fit config) as Hfit by (by vm_compute).
  assert (up_Username config = [] <-> up_Password config = []) as Hboth by done. split.
  - destruct (@upstream_meets_local U config (mkProxyConfig (bs "u") (bs "guess") []) IPStrategyDefault
      _ _ _ [] (bs "more") [] Hfit Hboth sample_target) as [_ H]. by apply H.
  - destruct (@upstream_meets_local U config (mkProxyConfig (bs "u") (bs "secret") []) IPStrategyDefault
      _ _ _ [] (bs "more") [] Hfit Hboth sample_target) as [H _].
    destruct H as (answers & H & _); [done|done|by vm_compute|by vm_compute|]. exists answers. exact H.
Defined.

Lemma relay_datagrams_witness :
  let U := ascii_only_unicode in
  let r := mkRelay (Some (fun b _ => (len b, None))) (Some ([z2b 127; z2b 0; z2b 0; z2b 1], 1080))
             (Some ([z2b 192; z2b 0; z2b 2; z2b 7], 53)) false in
  exists pkt, parseSOCKS5UDPPacket pkt = Ok (bs "192.0.2.7:53", bs "query") /\
    fst (relay_Write (Some r) (bs "query")) = [(pkt, ([z2b 127; z2b 0; z2b 0; z2b 1], 1080))].
Proof.
  intros U r.
  destruct (@relay_datagrams U (fun b _ => (len b, None)) ([z2b 127; z2b 0; z2b 0; z2b 1], 1080)
    ([z2b 192; z2b 0; z2b 2; z2b 7], 53) [z2b 192; z2b 0; z2b 2; z2b 7] (bs "query") 100) as [(pkt & H1 & H2 & _) _]; [done|cbn; lia|].
  by exists pkt.
Defined.
