(* ===== verification/EchDns.v ===== *)
(** ECH configuration from DNS: internal/app/tls_ech_dns.go.  The HTTPS record
    query and its answer, the shared ECHConfigList with its retry loop, and the
    TLS configurations built from it.  DNS servers, certificate files and the
    certificate pool are given by their answers; base64 is that of
    encoding/base64. *)

From Stdlib Require Import ZArith Lia Strings.Byte.
From stdpp Require Import base numbers list gmap.
From S2P Require Import Prelude GoStrings GoNet NetAddr Sniff.

Local Open Scope Z_scope.
Local Open Scope go_scope.

(** * encoding/base64 *)

Definition std_alphabet : bytes := bs "ABCDEFGHIJKLMNOPQRSTUVWXYZabcdefghijklmnopqrstuvwxyz0123456789+/".
Definition url_alphabet : bytes := bs "ABCDEFGHIJKLMNOPQRSTUVWXYZabcdefghijklmnopqrstuvwxyz0123456789-_".

Definition c_equals : byte := z2b 61.

(** The character of a six-bit group at [shift] of [v]. *)
Definition group_char (alphabet : bytes) (v shift : Z) : byte :=
  match alphabet !! Z.to_nat (Z.land (Z.shiftr v shift) 63) with Some c => c | None => c_equals end.

(** [Encoding.EncodeToString], with or without padding. *)
Fixpoint EncodeToString (alphabet : bytes) (padding : bool) (b : bytes) : bytes :=
  match b with
  | x :: y :: z :: rest =>
      let v := b2z x * 65536 + b2z y * 256 + b2z z in
      map (group_char alphabet v) [18; 12; 6; 0] ++ EncodeToString alphabet padding rest
  | [x; y] =>
      let v := b2z x * 65536 + b2z y * 256 in
      map (group_char alphabet v) [18; 12; 6] ++ (if padding then [c_equals] else [])
  | [x] =>
      let v := b2z x * 65536 in
      map (group_char alphabet v) [18; 12] ++ (if padding then [c_equals; c_equals] else [])
  | [] => []
  end.

Definition StdEncoding : bytes -> bytes := EncodeToString std_alphabet true.
Definition RawURLEncoding : bytes -> bytes := EncodeToString url_alphabet false.

Definition char_value (alphabet : bytes) (c : byte) : option Z :=
  let i := IndexByte alphabet c in if i <? 0 then None else Some i.

(** Groups of four characters, the last one padded; the bits below the last byte
    are not looked at. *)
Fixpoint decode_groups (alphabet : bytes) (s : bytes) : option bytes :=
  match s with
  | [] => Some []
  | c1 :: c2 :: c3 :: c4 :: rest =>
      match char_value alphabet c1, char_value alphabet c2 with
      | Some v1, Some v2 =>
          let hi := v1 * 262144 + v2 * 4096 in
          match char_value alphabet c3, char_value alphabet c4 with
          | Some v3, Some v4 =>
              let v := hi + v3 * 64 + v4 in
              match decode_groups alphabet rest with
              | Some d => Some (z2b (Z.shiftr v 16) :: z2b (Z.shiftr v 8) :: z2b v :: d)
              | None => None
              end
          | Some v3, None =>
              let v := hi + v3 * 64 in
              if chr c_equals c4 && is_empty rest then Some [z2b (Z.shiftr v 16); z2b (Z.shiftr v 8)] else None
          | None, _ =>
              if chr c_equals c3 && chr c_equals c4 && is_empty rest then Some [z2b (Z.shiftr hi 16)] else None
          end
      | _, _ => None
      end
  | _ => None
  end.

(** [StdEncoding.DecodeString]: line breaks are skipped. *)
Definition DecodeString (s : bytes) : res bytes :=
  match decode_groups std_alphabet (List.filter (fun c => negb (chr (z2b 10) c || chr (z2b 13) c)) s) with
  | Some d => Ok d
  | None => Err (Errorf "illegal base64 data at input byte %d" [])
  end.

(** * Queries and answers *)

Definition typeHTTPS : Z := 65.
Definition maxDNSMessageSize : Z := 65535.

Definition dns_char (c : byte) : bool := is_lower c || is_digit c || chr c_dash c.

Definition validate_dns_label (label : bytes) : res unit :=
  match label with
  | [] => Err (Errorf "DNS 域名包含空标签" [])
  | c :: _ =>
      if 63 <? len label then Err (Errorf "DNS 标签 %q 过长" []) else
      if chr c_dash c || chr c_dash (List.last label c) then Err (Errorf "DNS 标签 %q 不能以连字符开头或结尾" []) else
      if forallb dns_char label then Ok tt else Err (Errorf "DNS 标签 %q 包含非法字符" [])
  end.

Fixpoint validate_dns_labels (labels : list bytes) : res unit :=
  match labels with
  | [] => Ok tt
  | label :: rest => let! _ := validate_dns_label label in validate_dns_labels rest
  end.

Definition validateDNSName (domain : bytes) : res unit :=
  if is_empty domain then Err (Errorf "DNS 域名不能为空" []) else
  if 253 <? len domain then Err (Errorf "DNS 域名过长" []) else
  validate_dns_labels (Split domain c_dot).

Definition normalizeDNSName `{GoUnicode} (domain : bytes) : bytes :=
  ToLower (TrimSuffix (TrimSpace domain) [c_dot]).

Definition buildDNSQuery `{GoUnicode} (domain : bytes) (qtype : Z) : res bytes :=
  let domain := normalizeDNSName domain in
  let! _ := validateDNSName domain in
  Ok (map z2b [0; 1; 1; 0; 0; 1; 0; 0; 0; 0; 0; 0] ++
      concat (map (fun label => z2b (len label) :: label) (Split domain c_dot)) ++
      [z2b 0] ++ [z2b (Z.shiftr qtype 8); z2b qtype; z2b 0; z2b 1]).

(** The walk over a name.  Every round adds an offset of the message to [seen],
    so one round more than its length is enough. *)
Fixpoint skip_loop (fuel : nat) (message : bytes) (offset next : Z) (seen : gset Z) : res Z :=
  match fuel with
  | O => Panic
  | S fuel =>
      if len message <=? offset then Err (Errorf "DNS 名称越界" []) else
      if bool_decide (offset ∈ seen) then Err (Errorf "DNS 压缩指针循环" []) else
      let seen := {[offset]} ∪ seen in
      let! length := byte_at message offset in
      let kind := Z.land length 192 in
      if kind =? 0 then
        if length =? 0 then Ok (if negb (next =? -1) then next else offset + 1) else
        let offset := offset + 1 in
        if len message <? offset + length then Err (Errorf "DNS 名称越界" []) else
        skip_loop fuel message (offset + length) next seen
      else if kind =? 192 then
        if len message <=? offset + 1 then Err (Errorf "DNS 压缩指针越界" []) else
        let! lo := byte_at message (offset + 1) in
        let pointer := Z.lor (Z.shiftl (Z.land length 63) 8) lo in
        if len message <=? pointer then Err (Errorf "DNS 压缩指针越界" []) else
        skip_loop fuel message pointer (if next =? -1 then offset + 2 else next) seen
      else Err (Errorf "DNS 名称标签类型无效" [])
  end.

Definition skipDNSName (message : bytes) (offset : Z) : res Z :=
  if (offset <? 0) || (len message <=? offset) then Err (Errorf "DNS 名称越界" []) else
  skip_loop (S (length message)) message offset (-1) ∅.

(** The parameters of a record: every round consumes four bytes. *)
Fixpoint params_loop (fuel : nat) (data : bytes) (offset : Z) : res bytes :=
  match fuel with
  | O => Panic
  | S fuel =>
      if offset + 4 <=? len data then
        let! key := u16 data offset in
        let! length := u16 data (offset + 2) in
        let offset := offset + 4 in
        if len data <? offset + length then Ok [] else
        let! value := slice data offset (offset + length) in
        if key =? 5 then Ok (StdEncoding value) else params_loop fuel data (offset + length)
      else Ok []
  end.

(** [""] stands for no ECH parameter. *)
Definition parseHTTPSRecord (data : bytes) : res bytes :=
  if len data <? 2 then Ok [] else
  match skipDNSName data 2 with
  | Ok next => params_loop (S (length data)) data next
  | Err _ => Ok []
  | Panic => Panic
  end.

Fixpoint https_answers (n : nat) (response : bytes) (offset : Z) : res bytes :=
  match n with
  | O => Ok []
  | S n =>
      if len response <=? offset then Err (Errorf "DNS 答案记录越界" []) else
      let! offset := skipDNSName response offset in
      if len response <? offset + 10 then Err (Errorf "DNS 答案记录越界" []) else
      let! rrType := u16 response offset in
      let offset := offset + 8 in
      let! dataLen := u16 response offset in
      let offset := offset + 2 in
      if len response <? offset + dataLen then Err (Errorf "DNS 答案数据越界" []) else
      let! data := slice response offset (offset + dataLen) in
      let offset := offset + dataLen in
      if rrType =? typeHTTPS then
        let! ech := parseHTTPSRecord data in
        if negb (is_empty ech) then Ok ech else https_answers n response offset
      else https_answers n response offset
  end.

Definition parseDNSResponse (response : bytes) : res bytes :=
  if len response <? 12 then Err (Errorf "响应过短" []) else
  let! id := u16 response 0 in
  if negb (id =? 1) then Err (Errorf "DNS 事务 ID 不匹配" []) else
  let! b2 := byte_at response 2 in
  if Z.land b2 128 =? 0 then Err (Errorf "DNS 消息不是响应" []) else
  let! b3 := byte_at response 3 in
  let rcode := Z.land b3 15 in
  if negb (rcode =? 0) then Err (Errorf "DNS 响应错误码: %d" [rcode]) else
  let! qdcount := u16 response 4 in
  if negb (qdcount =? 1) then Err (Errorf "DNS 问题数无效: %d" [qdcount]) else
  let! ancount := u16 response 6 in
  if ancount =? 0 then Err (Errorf "无答案记录" []) else
  let! offset := skipDNSName response 12 in
  if len response <? offset + 4 then Err (Errorf "DNS 问题区越界" []) else
  let! qtype := u16 response offset in
  let! qclass := u16 response (offset + 2) in
  if negb (qtype =? typeHTTPS) || negb (qclass =? 1) then Err (Errorf "DNS 问题区类型无效" []) else
  https_answers (Z.to_nat ancount) response (offset + 4).

(** * Asking for the configuration *)

(** How the network answers a UDP query: the dial, the write, and the packet
    read or the error of the read and whether it is a timeout. *)
Record udp_exchange : Type := mkExchange {
  x_dial : res unit;
  x_write : res unit;
  x_read : bytes + error * bool;
}.

Section Queries.
Context `{U : GoUnicode}.
(** The UDP exchange with a server, and the HTTP exchange of a DoH query: the URL
    and the value of its [dns] parameter give a status code and a body. *)
Variable udp : bytes -> bytes -> udp_exchange.
Variable http_get : bytes -> bytes -> res (Z * bytes).

Definition queryDNSUDP (domain dnsServer : bytes) : res bytes :=
  let dnsServer := if existsb (chr c_colon) dnsServer then dnsServer else dnsServer ++ bs ":53" in
  let! query := buildDNSQuery domain typeHTTPS in
  let x := udp dnsServer query in
  let! _ := res_map_err (Wrapf "连接 DNS 服务器失败: %v") (x_dial x) in
  let! _ := res_map_err (Wrapf "发送查询失败: %v") (x_write x) in
  match x_read x with
  | inr (e, timeout) => Err (if timeout : bool then Errorf "DNS 查询超时" [] else Wrapf "读取 DNS 响应失败: %v" e)
  | inl packet => parseDNSResponse (take (Z.to_nat maxDNSMessageSize) packet)
  end.

Definition queryDoH (domain dohURL : bytes) : res bytes :=
  let! query := buildDNSQuery domain typeHTTPS in
  let! resp := http_get dohURL (RawURLEncoding query) in
  let '(status, full) := resp in
  if negb (status =? 200) then Err (Errorf "DoH 状态码: %d" [status]) else
  let body := take (Z.to_nat (maxDNSMessageSize + 1)) full in
  if maxDNSMessageSize <? len body then Err (Errorf "DNS 响应过大" []) else parseDNSResponse body.

Definition queryHTTPSRecord (domain dnsServer : bytes) : res bytes :=
  if HasPrefix dnsServer (bs "http://") || HasPrefix dnsServer (bs "https://")
  then queryDoH domain dnsServer else queryDNSUDP domain dnsServer.

End Queries.

(** * The shared ECHConfigList *)

(** One round of [prepareECHContext]: the state of the context, what the query
    answers, and how the wait before the next round ends. *)
Record ech_round : Type := mkRound { r_ctx : option error; r_query : res bytes; r_wait : res unit }.

(** The loop over the rounds to come: [None] when they are used up, that is when
    it is still running.  The state is the shared list. *)
Fixpoint prepareECHContext (rounds : list ech_round) (echList : bytes) : bytes * option (res unit) :=
  match rounds with
  | [] => (echList, None)
  | r :: rest =>
      let retry :=
        match r_wait r with
        | Ok _ => prepareECHContext rest echList
        | Err e => (echList, Some (Err e))
        | Panic => (echList, Some Panic)
        end in
      match r_ctx r with
      | Some e => (echList, Some (Err e))
      | None =>
          match r_query r with
          | Panic => (echList, Some Panic)
          | Err _ => retry
          | Ok echBase64 =>
              if is_empty echBase64 then retry else
              match DecodeString echBase64 with
              | Ok raw => (raw, Some (Ok tt))
              | _ => retry
              end
          end
      end
  end.

Definition refreshECH (fallback : bool) (rounds : list ech_round) (echList : bytes) : bytes * option (res unit) :=
  if fallback then (echList, Some (Ok tt)) else prepareECHContext rounds echList.

(** [nil] in fallback mode. *)
Definition getECHList (fallback : bool) (echList : bytes) : res bytes :=
  if fallback then Ok [] else
  if is_empty echList then Err (Errorf "ECH 配置尚未加载" []) else Ok echList.

(** * TLS configurations *)

Definition VersionTLS13 : Z := 772.

Inductive ClientAuthType : Type := NoClientCert | RequireAndVerifyClientCert.

(** The fields of [tls.Config] that are set.  Pools and certificates are named by
    what they were loaded from. *)
Record TLSConfig : Type := mkTLS {
  MinVersion : Z;
  ServerName : bytes;
  EncryptedClientHelloConfigList : bytes;
  EncryptedClientHelloRejectionVerify : option error;
  RootCAs : bytes;
  InsecureSkipVerify : bool;
  Certificates : list (bytes * bytes);
  ClientAuth : ClientAuthType;
  ClientCAs : option bytes;
}.

Definition validateCertificatePair (certPath keyPath : bytes) : res unit :=
  if is_empty certPath && is_empty keyPath then Ok tt else
  if is_empty certPath || is_empty keyPath then Err (Errorf "证书和私钥必须同时配置" []) else Ok tt.

Section TLS.
(** [x509.SystemCertPool], [tls.LoadX509KeyPair], [os.ReadFile] and
    [CertPool.AppendCertsFromPEM]. *)
Variable system_pool : res bytes.
Variable load_key_pair : bytes -> bytes -> res unit.
Variable read_file : bytes -> res bytes.
Variable append_pem : bytes -> bool.

Definition applyClientCertificate (clientCertFile clientKeyFile : bytes) (c : TLSConfig) : res TLSConfig :=
  if is_empty clientCertFile && is_empty clientKeyFile then Ok c else
  let! _ := validateCertificatePair clientCertFile clientKeyFile in
  let! _ := res_map_err (Wrapf "加载客户端证书失败: %w") (load_key_pair clientCertFile clientKeyFile) in
  Ok (mkTLS (MinVersion c) (ServerName c) (EncryptedClientHelloConfigList c) (EncryptedClientHelloRejectionVerify c)
        (RootCAs c) (InsecureSkipVerify c) (Certificates c ++ [(clientCertFile, clientKeyFile)]) (ClientAuth c) (ClientCAs c)).

Definition buildTLSConfigWithECH (certFile keyFile serverName echList : bytes) : res TLSConfig :=
  let! roots := system_pool in
  applyClientCertificate certFile keyFile
    (mkTLS VersionTLS13 serverName echList (Some (Errorf "服务器拒绝 ECH" [])) roots false [] NoClientCert None).

Definition buildStandardTLSConfig (certFile keyFile : bytes) (insecure : bool) (serverName : bytes) : res TLSConfig :=
  let! roots := system_pool in
  applyClientCertificate certFile keyFile
    (mkTLS VersionTLS13 serverName [] None roots insecure [] NoClientCert None).

Definition buildUnifiedTLSConfig (certFile keyFile : bytes) (insecure fallback : bool) (echList serverName : bytes)
    : res TLSConfig :=
  if fallback then buildStandardTLSConfig certFile keyFile insecure serverName else
  let! ech := getECHList fallback echList in
  let! c := buildTLSConfigWithECH certFile keyFile serverName ech in
  Ok (mkTLS (MinVersion c) (ServerName c) (EncryptedClientHelloConfigList c) (EncryptedClientHelloRejectionVerify c)
        (RootCAs c) insecure (Certificates c) (ClientAuth c) (ClientCAs c)).

Definition loadCertPoolFromFile (path : bytes) : res bytes :=
  let! raw := read_file path in
  if append_pem raw then Ok raw else Err (Errorf "没有找到可用 PEM CA 证书" []).

Definition configureServerClientAuth (clientCAFile : bytes) (c : TLSConfig) : res TLSConfig :=
  if is_empty clientCAFile then Ok c else
  let! pool := loadCertPoolFromFile clientCAFile in
  Ok (mkTLS (MinVersion c) (ServerName c) (EncryptedClientHelloConfigList c) (EncryptedClientHelloRejectionVerify c)
        (RootCAs c) (InsecureSkipVerify c) (Certificates c) RequireAndVerifyClientCert (Some pool)).

End TLS.

(** * base64 *)

Lemma std_value d : 0 <= d < 64 ->
  exists c, std_alphabet !! Z.to_nat d = Some c /\ char_value std_alphabet c = Some d /\ c <> z2b 10 /\ c <> z2b 13.
Proof.
  intros Hd.
  assert (forallb (fun n => match std_alphabet !! n with
    | Some c => bool_decide (char_value std_alphabet c = Some (Z.of_nat n)) && negb (chr (z2b 10) c || chr (z2b 13) c)
    | None => false end) (seq 0 64) = true) as H by (by vm_compute).
  rewrite forallb_forall in H. specialize (H (Z.to_nat d)). rewrite in_seq in H.
  destruct (std_alphabet !! Z.to_nat d) as [c|]; [|specialize (H ltac:(lia)); done].
  specialize (H ltac:(lia)). rewrite andb_true_iff, bool_decide_eq_true, negb_true_iff, orb_false_iff in H.
  destruct H as (H1 & H2 & H3). exists c. rewrite H1, Z2Nat.id by lia. split_and!; try done; intros ->; by rewrite chr_refl in *.
Qed.

Lemma group_range v s : 0 <= Z.land (Z.shiftr v s) 63 < 64.
Proof. rewrite (Z.land_ones _ 6) by lia. apply Z.mod_pos_bound. lia. Qed.

Lemma group_char_value v s : char_value std_alphabet (group_char std_alphabet v s) = Some (Z.land (Z.shiftr v s) 63).
Proof. unfold group_char. by destruct (std_value _ (group_range v s)) as (c & -> & -> & _). Qed.

Lemma shiftr_land v s : 0 <= s -> Z.land (Z.shiftr v s) 63 = v / 2 ^ s mod 64.
Proof. intros Hs. rewrite (Z.land_ones _ 6) by lia. by rewrite Z.shiftr_div_pow2. Qed.

Lemma z2b_is v b : v mod 256 = b2z b -> z2b v = b.
Proof. intros H. rewrite <- (z2b_mod v), H. apply z2b_b2z. Qed.

(** The groups of a triple give its value back. *)
Lemma groups_value v : 0 <= v < 16777216 ->
  v / 2 ^ 18 mod 64 * 262144 + v / 2 ^ 12 mod 64 * 4096 + v / 2 ^ 6 mod 64 * 64 + v / 2 ^ 0 mod 64 = v.
Proof.
  intros Hv. change (2 ^ 18) with 262144. change (2 ^ 12) with 4096. change (2 ^ 6) with 64. change (2 ^ 0) with 1.
  rewrite Z.div_1_r. Z.to_euclidean_division_equations. lia.
Qed.

Lemma triple_ind (P : bytes -> Prop) :
  P [] -> (forall x, P [x]) -> (forall x y, P [x; y]) -> (forall x y z r, P r -> P (x :: y :: z :: r)) -> forall b, P b.
Proof.
  intros H0 H1 H2 H3 b. remember (length b) as n eqn:E. revert b E. induction n as [n IH] using lt_wf_ind. intros b ->.
  destruct b as [|x [|y [|z r]]]; auto. apply H3. eapply IH; [|reflexivity]. cbn. lia.
Qed.

Lemma top_byte a r : 0 <= r < 65536 -> z2b (Z.shiftr (b2z a * 65536 + r) 16) = a.
Proof.
  intros Hr. apply z2b_is. rewrite Z.shiftr_div_pow2 by lia. change (2 ^ 16) with 65536.
  rewrite Z.add_comm, Z.div_add, (Z.div_small r) by lia. apply Z.mod_small, b2z_range.
Qed.

Lemma mid_byte a b r : 0 <= r < 256 -> z2b (Z.shiftr (b2z a * 65536 + b2z b * 256 + r) 8) = b.
Proof.
  intros Hr. apply z2b_is. rewrite Z.shiftr_div_pow2 by lia. change (2 ^ 8) with 256.
  pose proof (b2z_range a). pose proof (b2z_range b). Z.to_euclidean_division_equations. lia.
Qed.

Lemma low_byte a b c : z2b (b2z a * 65536 + b2z b * 256 + b2z c) = c.
Proof. apply z2b_is. pose proof (b2z_range c). Z.to_euclidean_division_equations. lia. Qed.

Lemma pad_not_value : char_value std_alphabet c_equals = None.
Proof. by vm_compute. Qed.

Lemma decode_encode b : decode_groups std_alphabet (StdEncoding b) = Some b.
Proof.
  unfold StdEncoding. induction b as [|x|x y|x y z r IH] using triple_ind; cbn [EncodeToString map app decode_groups];
    [done|rewrite !group_char_value, ?pad_not_value, !shiftr_land by lia..].
  - pose proof (b2z_range x). pose proof (groups_value (b2z x * 65536)) as Hv.
    assert (b2z x * 65536 / 2 ^ 18 mod 64 * 262144 + b2z x * 65536 / 2 ^ 12 mod 64 * 4096 = b2z x * 65536 + 0) as ->.
    { rewrite <- Hv at 3 by lia. change (2 ^ 6) with 64. change (2 ^ 0) with 1. Z.to_euclidean_division_equations. lia. }
    by rewrite top_byte by lia.
  - pose proof (b2z_range x). pose proof (b2z_range y). set (v := b2z x * 65536 + b2z y * 256).
    pose proof (groups_value v) as Hv.
    assert (v / 2 ^ 18 mod 64 * 262144 + v / 2 ^ 12 mod 64 * 4096 + v / 2 ^ 6 mod 64 * 64 = v) as ->.
    { rewrite <- Hv at 4 by lia. unfold v. change (2 ^ 0) with 1. Z.to_euclidean_division_equations. lia. }
    unfold v. rewrite top_byte by lia. rewrite <- (Z.add_0_r (_ + _)), mid_byte by lia. done.
  - pose proof (b2z_range x). pose proof (b2z_range y). pose proof (b2z_range z).
    rewrite groups_value by lia. rewrite IH. rewrite low_byte, mid_byte by lia.
    rewrite <- Z.add_assoc, top_byte by lia. done.
Qed.

Lemma encoded_chars b : Forall (fun c => c <> z2b 10 /\ c <> z2b 13) (StdEncoding b).
Proof.
  assert (forall v s, group_char std_alphabet v s <> z2b 10 /\ group_char std_alphabet v s <> z2b 13) as Hg.
  { intros v s. unfold group_char. destruct (std_value _ (group_range v s)) as (c & -> & _ & H). done. }
  assert (c_equals <> z2b 10 /\ c_equals <> z2b 13) as He by done.
  unfold StdEncoding. induction b as [|x|x y|x y z r IH] using triple_ind; cbn [EncodeToString map app]; repeat (constructor; [done|]); done.
Qed.

Lemma DecodeString_StdEncoding b : DecodeString (StdEncoding b) = Ok b.
Proof.
  unfold DecodeString. assert (List.filter (fun c => negb (chr (z2b 10) c || chr (z2b 13) c)) (StdEncoding b) = StdEncoding b) as ->.
  { generalize (encoded_chars b). generalize (StdEncoding b). intros l Hl. induction Hl as [|c l [H1 H2] _ IH]; [done|]. cbn [List.filter].
    assert (chr (z2b 10) c = false) as -> by (apply bool_decide_eq_false_2; by intros <-).
    assert (chr (z2b 13) c = false) as -> by (apply bool_decide_eq_false_2; by intros <-). cbn [orb negb]. by rewrite IH. }
  by rewrite decode_encode.
Qed.

Lemma StdEncoding_empty b : is_empty (StdEncoding b) = is_empty b.
Proof. unfold StdEncoding. by destruct b as [|x [|y [|z r]]]. Qed.

(** * Walking over names *)

Lemma low_length l : 0 <= l < 64 -> Z.land l 192 = 0.
Proof.
  intros Hl. apply Z.bits_inj'. intros n Hn. rewrite Z.land_spec, Z.bits_0. destruct (Z.ltb_spec n 6).
  - replace (Z.testbit 192 n) with false; [apply andb_false_r|].
    assert (n = 0 \/ n = 1 \/ n = 2 \/ n = 3 \/ n = 4 \/ n = 5) as Hn6 by lia.
    destruct Hn6 as [->|[->|[->|[->|[->| ->]]]]]; done.
  - rewrite <- (Z.mod_small l (2 ^ 6)) by (change (2 ^ 6) with 64; lia). by rewrite Z.mod_pow2_bits_high by lia.
Qed.

Lemma enc_qname_cons l labels : enc_qname (l :: labels) = vec8 l ++ enc_qname labels.
Proof. unfold enc_qname. cbn [map concat]. by rewrite <- app_assoc. Qed.

Lemma skip_loop_labels message labels fuel pre rest next seen :
  message = pre ++ enc_qname labels ++ rest -> labels_ok labels -> (length labels < fuel)%nat ->
  (forall o, len pre <= o < len pre + len (enc_qname labels) -> o ∉ seen) ->
  skip_loop fuel message (len pre) next seen =
  Ok (if negb (next =? -1) then next else len pre + len (enc_qname labels)).
Proof.
  intros Hm Hl. revert pre fuel seen Hm. induction Hl as [|l labels Hl Hls IH]; intros pre fuel seen Hm Hf Hs;
    (destruct fuel as [|fuel]; [lia|]); cbn [skip_loop]; pose proof (len_nonneg rest).
  - unfold enc_qname in Hm. cbn [map concat app] in Hm. change (len (enc_qname [])) with 1 in *.
    rewrite (proj2 (Z.leb_gt _ _)) by (rewrite Hm, len_app, len_cons; lia).
    rewrite bool_decide_eq_false_2 by (apply Hs; lia).
    assert (byte_at message (len pre) = Ok 0) as -> by (rewrite Hm; apply byte_at_mid). done.
  - rewrite enc_qname_cons, <- app_assoc in Hm. rewrite enc_qname_cons, len_app, len_vec8 in *.
    pose proof (labels_count labels Hls) as Hc.
    assert (len message = len pre + (1 + len l + (len (enc_qname labels) + len rest))) as Hlen
      by (rewrite Hm, !len_app, len_vec8; lia).
    rewrite (proj2 (Z.leb_gt _ _)) by lia. rewrite bool_decide_eq_false_2 by (apply Hs; lia).
    assert (byte_at message (len pre) = Ok (len l)) as -> by (rewrite Hm; apply read8; lia). cbn [res_bind]. cbv zeta.
    rewrite low_length by lia. change (0 =? 0) with true. cbn iota. rewrite (proj2 (Z.eqb_neq _ _)) by lia.
    rewrite (proj2 (Z.ltb_ge _ _)) by lia.
    replace (len pre + 1 + len l) with (len (pre ++ vec8 l)) by (rewrite len_app, len_vec8; lia).
    rewrite IH; [|by rewrite Hm, <- app_assoc|cbn in Hf; lia|].
    + rewrite len_app, len_vec8. destruct (negb _); [done|]. f_equal. lia.
    + rewrite len_app, len_vec8. intros o Ho. rewrite elem_of_union, elem_of_singleton. intros [->|Hin]; [lia|]. apply (Hs o); [lia|done].
Qed.

Lemma skipDNSName_plain pre labels rest :
  labels_ok labels ->
  skipDNSName (pre ++ enc_qname labels ++ rest) (len pre) = Ok (len pre + len (enc_qname labels)).
Proof.
  intros Hl. pose proof (labels_count labels Hl). pose proof (len_nonneg rest). pose proof (len_nonneg pre).
  assert (len (pre ++ enc_qname labels ++ rest) = len pre + (len (enc_qname labels) + len rest)) as Hlen by (by rewrite !len_app).
  unfold skipDNSName. rewrite (proj2 (Z.ltb_ge _ _)), (proj2 (Z.leb_gt _ _)) by lia. cbn [orb].
  rewrite (skip_loop_labels _ labels _ pre rest); [done|done|done|unfold len in *; lia|]. intros o _. set_solver.
Qed.

Lemma skipDNSName_pointer hdr labels mid rest :
  len hdr = 12 -> labels_ok labels ->
  skipDNSName (hdr ++ enc_qname labels ++ mid ++ be_put 2 49164 ++ rest) (len (hdr ++ enc_qname labels ++ mid)) =
  Ok (len (hdr ++ enc_qname labels ++ mid) + 2).
Proof.
  intros Hh Hl. pose proof (labels_count labels Hl) as Hc. pose proof (len_nonneg rest). pose proof (len_nonneg mid).
  set (pre := hdr ++ enc_qname labels ++ mid).
  assert (hdr ++ enc_qname labels ++ mid ++ be_put 2 49164 ++ rest = pre ++ z2b 192 :: z2b 12 :: rest) as E
    by (unfold pre; rewrite <- !app_assoc; done).
  set (message := hdr ++ enc_qname labels ++ mid ++ be_put 2 49164 ++ rest) in *.
  assert (len message = len pre + (2 + len rest)) as Hlen by (rewrite E, len_app, !len_cons; lia).
  assert (len pre = 12 + (len (enc_qname labels) + len mid)) as Hpre by (unfold pre; rewrite !len_app; lia).
  unfold skipDNSName. rewrite (proj2 (Z.ltb_ge _ _)), (proj2 (Z.leb_gt _ _)) by lia. cbn [orb skip_loop].
  rewrite (proj2 (Z.leb_gt _ _)) by lia. rewrite bool_decide_eq_false_2 by set_solver.
  assert (byte_at message (len pre) = Ok 192) as -> by (rewrite E; apply byte_at_mid). cbn [res_bind]. cbv zeta.
  change (Z.land 192 192 =? 0) with false. change (Z.land 192 192 =? 192) with true. cbn iota.
  rewrite (proj2 (Z.leb_gt _ _)) by lia.
  assert (byte_at message (len pre + 1) = Ok 12) as -> by (rewrite E, byte_at_app_r by lia; done). cbn [res_bind].
  change (Z.lor (Z.shiftl (Z.land 192 63) 8) 12) with 12. rewrite (proj2 (Z.leb_gt _ _)) by lia.
  change (-1 =? -1) with true. cbn iota. rewrite <- Hh.
  rewrite (skip_loop_labels message labels _ hdr (mid ++ be_put 2 49164 ++ rest)); [|done|done|unfold len in *; lia|].
  - by rewrite (proj2 (Z.eqb_neq _ (-1))) by lia.
  - intros o Ho. rewrite elem_of_union, elem_of_singleton. intros [->|Hin]; [lia|set_solver].
Qed.

(** * Every message is parsed *)

(** The offsets of a message. *)
Definition offsets (message : bytes) : gset Z := list_to_set (map Z.of_nat (seq 0 (length message))).

Lemma elem_offsets message o : o ∈ offsets message <-> 0 <= o < len message.
Proof.
  unfold offsets. rewrite elem_of_list_to_set, list_elem_of_In, in_map_iff. unfold len. split.
  - intros (n & <- & H%in_seq). lia.
  - intros H. exists (Z.to_nat o). split; [lia|]. apply in_seq. lia.
Qed.

Lemma size_offsets message : (size (offsets message) <= length message)%nat.
Proof.
  unfold offsets. transitivity (length (map Z.of_nat (seq 0 (length message)))); [|by rewrite length_map, length_seq].
  induction (map Z.of_nat (seq 0 (length message))) as [|x l IH]; [done|]. cbn [list_to_set foldr length].
  pose proof (size_union_alt {[x]} (list_to_set l : gset Z)). pose proof (size_singleton (C := gset Z) x).
  assert (list_to_set l ∖ {[x]} ⊆ (list_to_set l : gset Z)) as Hsub by (by apply subseteq_difference_l).
  apply subseteq_size in Hsub. cbn in *. lia.
Qed.

(** [off0] is where the walk began. *)
Lemma skip_loop_total message off0 fuel offset next seen :
  0 <= off0 -> 0 <= offset -> seen ⊆ offsets message -> (length message < size seen + fuel)%nat ->
  (next = -1 /\ off0 <= offset \/ off0 < next <= len message) ->
  match skip_loop fuel message offset next seen with
  | Ok n => off0 < n <= len message
  | Err _ => True
  | Panic => False
  end.
Proof.
  intros H0. revert offset next seen. induction fuel as [|fuel IH]; intros offset next seen Ho Hs Hf Hn; cbn [skip_loop].
  { pose proof (subseteq_size _ _ Hs). pose proof (size_offsets message). lia. }
  destruct (Z.leb_spec (len message) offset); [done|]. case_bool_decide as Hin; [done|]. cbv zeta.
  assert ({[offset]} ∪ seen ⊆ offsets message) as Hs'.
  { apply union_subseteq. split; [|done]. apply singleton_subseteq_l, elem_offsets. lia. }
  assert (size ({[offset]} ∪ seen) = S (size seen)) as Hsz by (rewrite size_union by set_solver; by rewrite size_singleton).
  destruct (byte_at_ok message offset) as (l & -> & Hl); [lia|]. cbn [res_bind]. destruct (_ =? 0).
  - destruct (Z.eqb_spec l 0).
    + destruct (Z.eqb_spec next (-1)) as [->|]; cbn [negb]; lia.
    + destruct (Z.ltb_spec (len message) (offset + 1 + l)); [done|]. apply IH; [lia|done|lia|lia].
  - destruct (_ =? 192); [|done]. destruct (Z.leb_spec (len message) (offset + 1)); [done|].
    destruct (byte_at_ok message (offset + 1)) as (lo & -> & Hlo); [lia|]. cbn [res_bind].
    destruct (Z.leb_spec (len message) (Z.lor (Z.shiftl (Z.land l 63) 8) lo)); [done|]. apply IH; [|done|lia|].
    + apply Z.lor_nonneg. split; [|lia]. apply Z.shiftl_nonneg, Z.land_nonneg. lia.
    + destruct (Z.eqb_spec next (-1)) as [->|]; lia.
Qed.

Lemma skipDNSName_total message offset :
  match skipDNSName message offset with Ok n => offset < n <= len message | Err _ => True | Panic => False end.
Proof.
  unfold skipDNSName. destruct (Z.ltb_spec offset 0); [done|]. destruct (Z.leb_spec (len message) offset); [done|]. cbn [orb].
  apply skip_loop_total; [lia|lia|set_solver|rewrite size_empty; lia|lia].
Qed.

Lemma params_loop_total fuel data offset :
  0 <= offset <= len data -> len data < offset + Z.of_nat fuel -> exists b, params_loop fuel data offset = Ok b.
Proof.
  revert offset. induction fuel as [|fuel IH]; intros offset Ho Hf; [lia|]. cbn [params_loop].
  destruct (Z.leb_spec (offset + 4) (len data)); [|eauto].
  destruct (u16_ok data offset) as (k & -> & _); [lia|lia|]. destruct (u16_ok data (offset + 2)) as (l & -> & Hl); [lia|lia|].
  cbn [res_bind]. cbv zeta. destruct (Z.ltb_spec (len data) (offset + 4 + l)); [eauto|].
  destruct (slice_in data (offset + 4) (offset + 4 + l)) as (v & -> & _); [lia|lia|]. cbn [res_bind].
  destruct (k =? 5); [eauto|]. apply IH; lia.
Qed.

Lemma parseHTTPSRecord_total data : exists b, parseHTTPSRecord data = Ok b.
Proof.
  unfold parseHTTPSRecord. destruct (Z.ltb_spec (len data) 2); [eauto|]. pose proof (skipDNSName_total data 2) as Hs.
  destruct (skipDNSName data 2) as [n| |]; [|eauto|done]. apply params_loop_total; [lia|]. unfold len in *. lia.
Qed.

Lemma https_answers_total n response offset : 0 <= offset -> https_answers n response offset <> Panic.
Proof.
  revert offset. induction n as [|n IH]; intros offset Ho; cbn [https_answers]; [done|].
  destruct (Z.leb_spec (len response) offset); [done|]. pose proof (skipDNSName_total response offset) as Hs.
  destruct (skipDNSName response offset) as [o| |]; cbn [res_bind]; [|done|done]. cbv zeta.
  destruct (Z.ltb_spec (len response) (o + 10)); [done|].
  destruct (u16_ok response o) as (t & -> & _); [lia|lia|]. cbn [res_bind].
  destruct (u16_ok response (o + 8)) as (l & -> & Hl); [lia|lia|]. cbn [res_bind].
  destruct (Z.ltb_spec (len response) (o + 8 + 2 + l)); [done|].
  destruct (slice_in response (o + 8 + 2) (o + 8 + 2 + l)) as (d & -> & _); [lia|lia|]. cbn [res_bind].
  destruct (t =? typeHTTPS); [|apply IH; lia]. destruct (parseHTTPSRecord_total d) as [b ->]. cbn [res_bind].
  destruct (negb _); [done|]. apply IH. lia.
Qed.

(** The HTTPS record parser returns on every packet, with a value or an error:
    no index is out of range, and the walk over a name ends within as many
    rounds as the packet has bytes, pointers that form a loop included; a name
    that is skipped ends inside the packet. *)
Theorem ech_parser_total (response : bytes) (offset : Z) :
  parseDNSResponse response <> Panic /\ (exists b, parseHTTPSRecord response = Ok b) /\
  skipDNSName response offset <> Panic /\
  (forall n, skipDNSName response offset = Ok n -> offset < n <= len response).
Proof.
  pose proof (skipDNSName_total response offset) as Hs.
  split_and!; [|apply parseHTTPSRecord_total|by intros E; rewrite E in Hs|by intros n E; rewrite E in Hs].
  unfold parseDNSResponse. destruct (Z.ltb_spec (len response) 12); [done|].
  destruct (u16_ok response 0) as (id & -> & _); [lia|lia|]. destruct (byte_at_ok response 2) as (b2 & -> & _); [lia|].
  destruct (byte_at_ok response 3) as (b3 & -> & _); [lia|]. destruct (u16_ok response 4) as (qd & -> & _); [lia|lia|].
  destruct (u16_ok response 6) as (an & -> & _); [lia|lia|]. cbn [res_bind]. cbv zeta.
  destruct (negb (id =? 1)); [done|]. destruct (_ =? 0); [done|]. destruct (negb (_ =? 0)); [done|]. destruct (negb (qd =? 1)); [done|].
  destruct (an =? 0); [done|]. pose proof (skipDNSName_total response 12) as H12.
  destruct (skipDNSName response 12) as [o| |]; cbn [res_bind]; [|done|done].
  destruct (Z.ltb_spec (len response) (o + 4)); [done|].
  destruct (u16_ok response o) as (qt & -> & _); [lia|lia|]. destruct (u16_ok response (o + 2)) as (qc & -> & _); [lia|lia|].
  cbn [res_bind]. destruct (_ || _); [done|]. apply https_answers_total. lia.
Qed.

(** * The answer to a query *)

(** An HTTPS record: a priority, a target name, parameters, and fewer than four
    bytes behind them. *)
Record svc : Type := mkSvc { s_priority : Z; s_target : list bytes; s_params : list (Z * bytes); s_tail : bytes }.

Definition enc_svc (s : svc) : bytes :=
  be_put 2 (s_priority s) ++ enc_qname (s_target s) ++ concat (map enc_ext (s_params s)) ++ s_tail s.

Definition svc_ok (s : svc) : Prop :=
  labels_ok (s_target s) /\ Forall ext_ok (s_params s) /\ len (s_tail s) < 4 /\ len (enc_svc s) < 65536.

(** The value of the first parameter with key 5, or nothing. *)
Definition svc_ech (s : svc) : bytes :=
  match find (fun p => fst p =? 5) (s_params s) with Some p => snd p | None => [] end.

(** A record of the answer section: an HTTPS record, or one of another type. *)
Inductive rr : Type :=
  | HttpsRR (name : option (list bytes)) (class_ttl : bytes) (s : svc)
  | OtherRR (a : answer).

Definition rr_answer (r : rr) : answer :=
  match r with HttpsRR name ct s => mkAnswer name typeHTTPS ct (enc_svc s) | OtherRR a => a end.

Definition rr_ok (r : rr) : Prop :=
  answer_ok (rr_answer r) /\ match r with HttpsRR _ _ s => svc_ok s | OtherRR a => a_type a <> typeHTTPS end.

Definition rr_ech (r : rr) : bytes := match r with HttpsRR _ _ s => svc_ech s | OtherRR _ => [] end.

(** The first ECH configuration of the answers that is not empty. *)
Definition first_ech (rrs : list rr) : bytes :=
  match find (fun b => negb (is_empty b)) (map rr_ech rrs) with Some b => b | None => [] end.

Lemma params_loop_exact params fuel pre tail data :
  Forall ext_ok params -> len tail < 4 -> data = pre ++ concat (map enc_ext params) ++ tail -> (length params < fuel)%nat ->
  params_loop fuel data (len pre) = Ok (StdEncoding (match find (fun p => fst p =? 5) params with Some p => snd p | None => [] end)).
Proof.
  intros Hp Ht. revert pre fuel. induction Hp as [|[k v] params [Hk Hv] _ IH]; intros pre fuel Hd Hf;
    (destruct fuel as [|fuel]; [lia|]); cbn [params_loop].
  - cbn [map concat app] in Hd. rewrite (proj2 (Z.leb_gt _ _)); [done|]. rewrite Hd, len_app. lia.
  - cbn [map concat] in Hd. rewrite <- app_assoc in Hd. cbn [fst snd] in *.
    pose proof (len_nonneg v). pose proof (len_nonneg tail). pose proof (len_nonneg (concat (map enc_ext params))).
    assert (data = pre ++ be_put 2 k ++ be_put 2 (len v) ++ v ++ (concat (map enc_ext params) ++ tail)) as E
      by (rewrite Hd; unfold enc_ext, vec16; cbn [fst snd]; by rewrite <- !app_assoc).
    assert (len data = len pre + (4 + (len v + (len (concat (map enc_ext params)) + len tail)))) as Hlen
      by (rewrite E, !len_app, !len_be_put; lia).
    rewrite (proj2 (Z.leb_le _ _)) by lia.
    assert (u16 data (len pre) = Ok k) as -> by (rewrite E, u16_mid; by apply u16_at_put). cbn [res_bind].
    assert (u16 data (len pre + 2) = Ok (len v)) as ->.
    { rewrite E, u16_app_r by lia. pose proof (u16_mid (be_put 2 k) (be_put 2 (len v) ++ v ++ concat (map enc_ext params) ++ tail)) as Hm.
      rewrite len_be_put in Hm. change (Z.of_nat 2) with 2 in Hm. rewrite Hm. apply u16_at_put. lia. }
    cbn [res_bind]. cbv zeta. rewrite (proj2 (Z.ltb_ge _ _)) by lia.
    assert (data = (pre ++ be_put 2 k ++ be_put 2 (len v)) ++ v ++ concat (map enc_ext params) ++ tail) as E2
      by (rewrite E, <- !app_assoc; done).
    assert (slice data (len pre + 4) (len pre + 4 + len v) = Ok v) as ->.
    { rewrite E2. replace (len pre + 4) with (len (pre ++ be_put 2 k ++ be_put 2 (len v))) by (rewrite !len_app, !len_be_put; lia).
      apply slice_mid. }
    cbn [res_bind find fst]. destruct (k =? 5); [done|].
    replace (len pre + 4 + len v) with (len (pre ++ enc_ext (k, v)))
      by (unfold enc_ext, vec16; cbn [fst snd]; rewrite !len_app, !len_be_put; lia).
    apply IH; [by rewrite Hd, <- app_assoc|cbn in Hf; lia].
Qed.

Lemma params_count params : Forall ext_ok params -> Z.of_nat (length params) <= len (concat (map enc_ext params)).
Proof.
  induction 1 as [|[k v] params _ _ IH]; [done|]. cbn [map concat length]. rewrite len_app, len_enc_ext. cbn [snd].
  pose proof (len_nonneg v). lia.
Qed.

Lemma parseHTTPSRecord_svc s : svc_ok s -> parseHTTPSRecord (enc_svc s) = Ok (StdEncoding (svc_ech s)).
Proof.
  intros (Ht & Hp & Htl & _). unfold parseHTTPSRecord. pose proof (labels_count _ Ht) as Hlc. pose proof (params_count _ Hp).
  pose proof (len_nonneg (s_tail s)).
  assert (len (enc_svc s) = 2 + (len (enc_qname (s_target s)) + (len (concat (map enc_ext (s_params s))) + len (s_tail s)))) as Hlen
    by (unfold enc_svc; rewrite !len_app, len_be_put; lia).
  rewrite (proj2 (Z.ltb_ge _ _)) by lia.
  pose proof (skipDNSName_plain (be_put 2 (s_priority s)) (s_target s) (concat (map enc_ext (s_params s)) ++ s_tail s) Ht) as Hs.
  rewrite len_be_put in Hs. change (Z.of_nat 2) with 2 in Hs. fold (enc_svc s) in Hs. rewrite Hs.
  replace (2 + len (enc_qname (s_target s))) with (len (be_put 2 (s_priority s) ++ enc_qname (s_target s)))
    by (rewrite len_app, len_be_put; lia).
  apply (params_loop_exact _ _ _ (s_tail s)); [done|done|unfold enc_svc; by rewrite <- app_assoc|]. unfold len in *. lia.
Qed.

Lemma https_step n pre body labels a rest hdr mid :
  len hdr = 12 -> labels_ok labels -> answer_ok a -> pre = hdr ++ enc_qname labels ++ mid -> body = pre ++ enc_answer a ++ rest ->
  https_answers (S n) body (len pre) =
  let next := https_answers n body (len (pre ++ enc_answer a)) in
  if a_type a =? typeHTTPS then
    let! ech := parseHTTPSRecord (a_data a) in if negb (is_empty ech) then Ok ech else next
  else next.
Proof.
  intros Hh Hl (Hn & Ht & Hc & Hd) Hpre Hbody. cbn [https_answers].
  pose proof (len_nonneg rest). pose proof (len_nonneg (a_data a)).
  set (nm := enc_answer_name (a_name a)) in *.
  assert (body = (pre ++ nm) ++ be_put 2 (a_type a) ++ a_class_ttl a ++ be_put 2 (len (a_data a)) ++ a_data a ++ rest) as E
    by (rewrite Hbody; unfold enc_answer, vec16; by rewrite <- !app_assoc).
  assert (len body = len (pre ++ nm) + 10 + len (a_data a) + len rest) as Hlen
    by (rewrite E, len_app; rewrite (len_app (be_put 2 _)), !len_app, !len_be_put; lia).
  rewrite (proj2 (Z.leb_gt _ _)) by (rewrite Hlen, len_app; pose proof (len_nonneg nm); lia).
  assert (skipDNSName body (len pre) = Ok (len (pre ++ nm))) as ->.
  { rewrite Hbody. unfold enc_answer. fold nm. rewrite <- !app_assoc, len_app. unfold nm. destruct (a_name a) as [ls|]; cbn [enc_answer_name].
    - by apply skipDNSName_plain.
    - rewrite Hpre, <- !app_assoc. rewrite skipDNSName_pointer by done. by rewrite len_be_put. }
  cbn [res_bind]. cbv zeta. rewrite (proj2 (Z.ltb_ge (len body) _)) by lia.
  assert (u16 body (len (pre ++ nm)) = Ok (a_type a)) as -> by (rewrite E, u16_mid; by apply u16_at_put). cbn [res_bind].
  assert (u16 body (len (pre ++ nm) + 8) = Ok (len (a_data a))) as ->.
  { rewrite E, u16_app_r by lia. rewrite app_assoc.
    pose proof (u16_mid (be_put 2 (a_type a) ++ a_class_ttl a) (be_put 2 (len (a_data a)) ++ a_data a ++ rest)) as Hm.
    rewrite len_app, len_be_put, Hc in Hm. change (Z.of_nat 2 + 6) with 8 in Hm. rewrite Hm. apply u16_at_put. lia. }
  cbn [res_bind]. rewrite (proj2 (Z.ltb_ge (len body) _)) by lia.
  assert (slice body (len (pre ++ nm) + 8 + 2) (len (pre ++ nm) + 8 + 2 + len (a_data a)) = Ok (a_data a)) as ->.
  { assert (body = (pre ++ nm ++ be_put 2 (a_type a) ++ a_class_ttl a ++ be_put 2 (len (a_data a))) ++ a_data a ++ rest) as E2
      by (rewrite E, <- !app_assoc; done).
    rewrite E2. replace (len (pre ++ nm) + 8 + 2) with (len (pre ++ nm ++ be_put 2 (a_type a) ++ a_class_ttl a ++ be_put 2 (len (a_data a))))
      by (rewrite !len_app, !len_be_put; lia). apply slice_mid. }
  cbn [res_bind].
  assert (len (pre ++ nm) + 8 + 2 + len (a_data a) = len (pre ++ enc_answer a)) as ->; [|done].
  unfold enc_answer, vec16. fold nm. rewrite !len_app, !len_be_put. lia.
Qed.

Lemma https_answers_all hdr labels rrs mid rest body :
  len hdr = 12 -> labels_ok labels -> Forall rr_ok rrs ->
  body = (hdr ++ enc_qname labels ++ mid) ++ concat (map enc_answer (map rr_answer rrs)) ++ rest ->
  https_answers (length rrs) body (len (hdr ++ enc_qname labels ++ mid)) = Ok (StdEncoding (first_ech rrs)).
Proof.
  intros Hh Hl Ha. revert mid. induction Ha as [|r rrs [Ha Hr] _ IH]; intros mid Hb; cbn [length]; [done|].
  cbn [map concat] in Hb. rewrite <- (app_assoc (enc_answer (rr_answer r))) in Hb.
  rewrite (https_step _ (hdr ++ enc_qname labels ++ mid) body labels (rr_answer r) (concat (map enc_answer (map rr_answer rrs)) ++ rest) hdr mid) by done.
  cbv zeta.
  replace ((hdr ++ enc_qname labels ++ mid) ++ enc_answer (rr_answer r)) with (hdr ++ enc_qname labels ++ (mid ++ enc_answer (rr_answer r)))
    by (by rewrite <- !app_assoc).
  rewrite IH by (rewrite Hb; by rewrite <- !app_assoc). unfold first_ech. cbn [map find].
  destruct r as [nm ct s|a]; cbn [rr_answer rr_ech a_type a_data] in *.
  - change (typeHTTPS =? typeHTTPS) with true. cbn iota. rewrite parseHTTPSRecord_svc by done. cbn [res_bind].
    rewrite StdEncoding_empty. by destruct (negb (is_empty (svc_ech s))).
  - by rewrite (proj2 (Z.eqb_neq _ _)) by done.
Qed.

(** The labels of a name that was validated. *)
Lemma validate_labels_ok labels :
  validate_dns_labels labels = Ok tt -> labels_ok labels /\ Forall (fun l => c_dot ∉ l) labels.
Proof.
  induction labels as [|l labels IH]; cbn [validate_dns_labels]; [intros _; split; constructor|].
  destruct (validate_dns_label l) as [[]| |] eqn:E; cbn [res_bind]; try done. intros [H1 H2]%IH.
  unfold validate_dns_label in E. destruct l as [|c l]; [done|]. destruct (Z.ltb_spec 63 (len (c :: l))); [done|].
  destruct (_ || _); [done|]. destruct (forallb dns_char (c :: l)) eqn:Ef; [|done].
  split; constructor; try done.
  - rewrite len_cons in *. pose proof (len_nonneg l). lia.
  - intros Hin%list_elem_of_In. rewrite forallb_forall in Ef. by specialize (Ef _ Hin).
Qed.

Lemma buildDNSQuery_message `{U : GoUnicode} domain q :
  buildDNSQuery domain typeHTTPS = Ok q ->
  let labels := Split (normalizeDNSName domain) c_dot in
  labels_ok labels /\ name_text labels = normalizeDNSName domain /\
  q = dns_message 1 256 (be_put 4 0) labels (be_put 4 4259841) [] [].
Proof.
  intros H labels. unfold buildDNSQuery, validateDNSName in H. destruct (is_empty (normalizeDNSName domain)); [done|].
  destruct (253 <? _); [done|]. fold labels in H. destruct (validate_dns_labels labels) as [[]| |] eqn:E; cbn [res_bind] in H; try done.
  apply validate_labels_ok in E as [Hl _]. split; [done|]. split.
  - unfold name_text, labels. pose proof (Split_ne (normalizeDNSName domain) c_dot) as Hne.
    destruct (Split (normalizeDNSName domain) c_dot) as [|l ls] eqn:E2; [done|]. rewrite <- E2. apply Join_Split.
  - apply Ok_inj in H as <-. unfold dns_message, enc_qname. cbn [map concat app]. by rewrite <- !app_assoc.
Qed.

Lemma header_bytes id flags n counts rest :
  0 <= id < 65536 ->
  let m := dns_header id flags n counts ++ rest in
  u16 m 0 = Ok id /\ byte_at m 2 = Ok (flags / 256 mod 256) /\ byte_at m 3 = Ok (flags mod 256).
Proof.
  intros Hid m. unfold m, dns_header. rewrite <- !app_assoc. split_and!.
  - by apply u16_at_put.
  - unfold byte_at. cbn [be_put app]. change (index (_ :: _ :: ?x :: _) 2) with (Ok x). cbn [res_bind].
    change (256 ^ Z.of_nat 1) with 256. by rewrite b2z_z2b.
  - unfold byte_at. cbn [be_put app]. change (index (_ :: _ :: _ :: ?x :: _) 3) with (Ok x). cbn [res_bind].
    change (256 ^ Z.of_nat 0) with 1. by rewrite Z.div_1_r, b2z_z2b.
Qed.

Lemma parseDNSResponse_exact labels flags counts rrs rest :
  labels_ok labels -> 0 <= flags < 65536 -> Z.land (flags / 256) 128 <> 0 -> Z.land (flags mod 256) 15 = 0 ->
  len counts = 4 -> 0 < len rrs < 65536 -> Forall rr_ok rrs ->
  parseDNSResponse (dns_message 1 flags counts labels (be_put 4 4259841) (map rr_answer rrs) rest) =
  Ok (StdEncoding (first_ech rrs)).
Proof.
  intros Hl Hf Hqr Hrc Hc Hn Hrrs. set (response := dns_message _ _ _ _ _ _ _).
  set (hdr := dns_header 1 flags (len (map rr_answer rrs)) counts).
  assert (len (map rr_answer rrs) = len rrs) as Hlm by (unfold len; by rewrite length_map).
  set (body := enc_qname labels ++ be_put 4 4259841 ++ concat (map enc_answer (map rr_answer rrs)) ++ rest).
  destruct (header_fields 1 flags (len (map rr_answer rrs)) counts body) as (Hh & _ & H4 & H6); [done|lia|done|].
  destruct (header_bytes 1 flags (len (map rr_answer rrs)) counts body) as (H0 & H2 & H3); [lia|].
  change (dns_header _ _ _ _ ++ body) with response in *. fold hdr in Hh. rewrite Hlm in H6.
  pose proof (labels_count labels Hl). pose proof (len_nonneg rest). pose proof (len_nonneg (concat (map enc_answer (map rr_answer rrs)))).
  assert (len response = 12 + (len (enc_qname labels) + (4 + (len (concat (map enc_answer (map rr_answer rrs))) + len rest)))) as Hlen
    by (unfold response, dns_message; rewrite !len_app, len_be_put; fold hdr; rewrite Hh; lia).
  unfold parseDNSResponse. rewrite (proj2 (Z.ltb_ge _ _)) by lia. rewrite H0, H2, H3, H4, H6. cbn [res_bind]. cbv zeta.
  change (negb (1 =? 1)) with false. cbn iota. rewrite (Z.mod_small (flags / 256)) by (split; [apply Z.div_pos|apply Z.div_lt_upper_bound]; lia).
  rewrite (proj2 (Z.eqb_neq _ _)) by done. rewrite Hrc. change (negb (0 =? 0)) with false. cbn iota.
  rewrite (proj2 (Z.eqb_neq (len rrs) 0)) by lia.
  pose proof (skipDNSName_plain hdr labels (be_put 4 4259841 ++ concat (map enc_answer (map rr_answer rrs)) ++ rest) Hl) as Hs.
  change (hdr ++ _) with response in Hs. rewrite Hh in Hs. rewrite Hs. cbn [res_bind]. rewrite (proj2 (Z.ltb_ge _ _)) by lia.
  rewrite <- Hh, <- len_app.
  assert (response = (hdr ++ enc_qname labels) ++ be_put 2 65 ++ be_put 2 1 ++ concat (map enc_answer (map rr_answer rrs)) ++ rest) as Er
    by (unfold response, dns_message; fold hdr; rewrite <- !app_assoc; done).
  assert (u16 response (len (hdr ++ enc_qname labels)) = Ok 65) as -> by (rewrite Er, u16_mid; by apply u16_at_put).
  assert (u16 response (len (hdr ++ enc_qname labels) + 2) = Ok 1) as ->.
  { rewrite Er, u16_app_r by lia. pose proof (u16_mid (be_put 2 65) (be_put 2 1 ++ concat (map enc_answer (map rr_answer rrs)) ++ rest)) as Hx.
    rewrite len_be_put in Hx. change (Z.of_nat 2) with 2 in Hx. rewrite Hx. by apply u16_at_put. }
  cbn [res_bind]. change (negb (65 =? typeHTTPS) || negb (1 =? 1)) with false. cbn iota.
  replace (len (hdr ++ enc_qname labels) + 4) with (len (hdr ++ enc_qname labels ++ be_put 4 4259841)) by (rewrite !len_app, len_be_put; lia).
  unfold len at 1. rewrite Nat2Z.id. apply (https_answers_all hdr labels rrs (be_put 4 4259841) rest); [done..|].
  unfold response, dns_message. fold hdr. by rewrite <- !app_assoc.
Qed.

(** Asking for an ECH configuration.  A query that is built is the message with
    transaction 1 and one question, the normalised name with type HTTPS.  From a
    response to it (without error, of whatever further flags and sections, with
    records of any types and names written out or pointing to the question) the
    parser extracts the base64 text of the first ECH parameter that is not
    empty, in the order of the records, and the next round of the retry loop
    that sees it stores exactly its bytes and ends; when there is none it goes
    on waiting.  [flags] holds the response bit and a zero error code. *)
Theorem ech_query_answered {U : GoUnicode} (domain q : bytes) (flags : Z) (counts : bytes) (rrs : list rr) (rest : bytes)
    (Hq : buildDNSQuery domain typeHTTPS = Ok q)
    (Hf : 0 <= flags < 65536) (Hqr : Z.land (flags / 256) 128 <> 0) (Hrc : Z.land (flags mod 256) 15 = 0)
    (Hc : len counts = 4) (Hn : 0 < len rrs < 65536) (Hrrs : Forall rr_ok rrs) :
  let labels := Split (normalizeDNSName domain) c_dot in
  let response := dns_message 1 flags counts labels (be_put 4 4259841) (map rr_answer rrs) rest in
  q = dns_message 1 256 (be_put 4 0) labels (be_put 4 4259841) [] [] /\ labels_ok labels /\
  parseDNSResponse response = Ok (StdEncoding (first_ech rrs)) /\
  forall old wait rounds,
    prepareECHContext (mkRound None (parseDNSResponse response) wait :: rounds) old =
    if negb (is_empty (first_ech rrs)) then (first_ech rrs, Some (Ok tt)) else
    match wait with
    | Ok _ => prepareECHContext rounds old | Err e => (old, Some (Err e)) | Panic => (old, Some Panic)
    end.
Proof.
  intros labels response. destruct (buildDNSQuery_message domain q Hq) as (Hl & _ & Hm). fold labels in Hl.
  split; [exact Hm|]. split; [exact Hl|].
  assert (parseDNSResponse response = Ok (StdEncoding (first_ech rrs))) as Hparse by (by apply parseDNSResponse_exact).
  split; [exact Hparse|]. intros old wait rounds. cbn [prepareECHContext r_ctx r_query r_wait]. rewrite Hparse, StdEncoding_empty.
  destruct (is_empty (first_ech rrs)); cbn [negb]; [by destruct wait|]. by rewrite DecodeString_StdEncoding.
Qed.

(** ** What a query can answer *)

Lemma params_text fuel data offset text : params_loop fuel data offset = Ok text -> exists v, text = StdEncoding v.
Proof.
  revert offset. induction fuel as [|fuel IH]; intros offset; cbn [params_loop]; [done|].
  destruct (_ <=? _); [|intros [= <-]; by exists []]. destruct (u16 data offset); cbn [res_bind]; [|done..].
  destruct (u16 data (offset + 2)); cbn [res_bind]; [|done..]. destruct (_ <? _); [intros [= <-]; by exists []|].
  destruct (slice data _ _) as [v| |]; cbn [res_bind]; [|done..]. destruct (_ =? 5); [intros [= <-]; by exists v|apply IH].
Qed.

Lemma answers_text n response offset text : https_answers n response offset = Ok text -> exists v, text = StdEncoding v.
Proof.
  revert offset. induction n as [|n IH]; intros offset; cbn [https_answers]; [intros [= <-]; by exists []|].
  destruct (_ <=? _); [done|]. destruct (skipDNSName response offset) as [o| |]; cbn [res_bind]; [|done..].
  destruct (_ <? _); [done|]. destruct (u16 response o); cbn [res_bind]; [|done..].
  destruct (u16 response (o + 8)); cbn [res_bind]; [|done..]. destruct (_ <? _); [done|].
  destruct (slice response _ _) as [data| |]; cbn [res_bind]; [|done..]. destruct (_ =? typeHTTPS); [|apply IH].
  destruct (parseHTTPSRecord data) as [ech| |] eqn:Ep; cbn [res_bind]; [|done..]. destruct (negb _); [|apply IH]. intros [= <-].
  revert Ep. unfold parseHTTPSRecord. destruct (_ <? 2); [intros [= <-]; by exists []|].
  destruct (skipDNSName data 2); [apply params_text|intros [= <-]; by exists []|done].
Qed.

Lemma response_text response text : parseDNSResponse response = Ok text -> exists v, text = StdEncoding v.
Proof.
  unfold parseDNSResponse. intros H. repeat (case_match; try done);
    repeat match goal with
    | H : res_bind ?m _ = Ok _ |- _ => destruct m; cbn [res_bind] in H; try done
    | H : (if ?b then _ else _) = Ok _ |- _ => destruct b; try done
    end. by eapply answers_text.
Qed.

(** Whatever the name servers send, a query answers with the text of a list, or of
    none. *)
Lemma query_text `{U : GoUnicode} udp http_get domain dnsServer text :
  queryHTTPSRecord udp http_get domain dnsServer = Ok text -> exists v, text = StdEncoding v.
Proof.
  unfold queryHTTPSRecord, queryDoH, queryDNSUDP. destruct (_ || _); intros H;
    repeat match goal with
    | H : res_bind ?m _ = Ok _ |- _ => destruct m as [?| |]; cbn [res_bind] in H; try done
    end; repeat (case_match; try done); by eapply response_text.
Qed.

(** A round whose query is that of the code, with what the network answers in it. *)
Definition asks `{U : GoUnicode} (domain dnsServer : bytes) (r : ech_round) : Prop :=
  exists udp http_get, r_query r = queryHTTPSRecord udp http_get domain dnsServer.

(** The loop ends well exactly with a list, which some round was answered with; until
    then it keeps the one it had. *)
Lemma prepare_spec `{U : GoUnicode} domain dnsServer rounds old :
  Forall (asks domain dnsServer) rounds ->
  let '(l, r) := prepareECHContext rounds old in
  (r = Some (Ok tt) -> l <> [] /\ exists w pre post, rounds = pre ++ mkRound None (Ok (StdEncoding l)) w :: post) /\
  (r <> Some (Ok tt) -> l = old).
Proof.
  induction 1 as [|[ctx q w] rounds (udp & get & Hq) _ IH]; [done|]. cbn [prepareECHContext r_ctx r_query r_wait] in *.
  destruct ctx as [e|]; [done|].
  assert (let '(l, r) := match w with Ok _ => prepareECHContext rounds old | Err e => (old, Some (Err e)) | Panic => (old, Some Panic) end in
    (r = Some (Ok tt) -> l <> [] /\ exists w' pre post, mkRound None q w :: rounds = pre ++ mkRound None (Ok (StdEncoding l)) w' :: post) /\
    (r <> Some (Ok tt) -> l = old)) as Hretry.
  { destruct w as [u|e|]; [|done|done]. destruct (prepareECHContext rounds old) as [l r]. destruct IH as [IH1 IH2]. split; [|done].
    intros Hr. destruct (IH1 Hr) as (Hl & w' & pre & post & ->). split; [done|]. by exists w', (mkRound None q (Ok u) :: pre), post. }
  destruct q as [text|e|]; [|done|done]. destruct (query_text _ _ _ _ _ (eq_sym Hq)) as [v ->]. rewrite StdEncoding_empty.
  destruct (is_empty v) eqn:Ev; [exact Hretry|]. rewrite DecodeString_StdEncoding. split; [|done]. intros _.
  split; [by destruct v|]. by exists w, [], rounds.
Qed.

(** C35: TLS configurations keep ECH.  Outside fallback mode a configuration, as the
    WebSocket dial uses it, is built only once a list was loaded, and it carries
    that list, asks for TLS 1.3, fails when the server rejects ECH, and skips
    verification only as configured; without a list building it is an error; in
    fallback mode it carries no list.  The list itself changes only when a query,
    whatever the name servers send, is answered with one, and then to exactly the
    bytes of that answer, which are not empty: once loaded it is never lost, while
    the retry loop runs, when it is cancelled, and when an answer holds no list.
    (The QUIC dial drops the error of building and goes on without a
    configuration; that is [Pool.tls_error_dials_unverified].) *)
Theorem tls_config_keeps_ech `{U : GoUnicode} (pool : res bytes) (load_pair : bytes -> bytes -> res unit) (certFile keyFile : bytes)
    (insecure : bool) (echList serverName domain dnsServer : bytes) (rounds : list ech_round)
    (Hrounds : Forall (asks domain dnsServer) rounds) :
  let build fallback l := buildUnifiedTLSConfig pool load_pair certFile keyFile insecure fallback l serverName in
  (forall c, build false echList = Ok c ->
     EncryptedClientHelloConfigList c = echList /\ echList <> [] /\ MinVersion c = VersionTLS13 /\
     ServerName c = serverName /\ InsecureSkipVerify c = insecure /\
     EncryptedClientHelloRejectionVerify c = Some (Errorf "服务器拒绝 ECH" [])) /\
  (forall c, build true echList = Ok c -> EncryptedClientHelloConfigList c = [] /\ MinVersion c = VersionTLS13) /\
  (echList = [] -> exists e, build false echList = Err e) /\
  refreshECH true rounds echList = (echList, Some (Ok tt)) /\
  let '(l, r) := refreshECH false rounds echList in
  (r = Some (Ok tt) -> l <> [] /\ exists w pre post, rounds = pre ++ mkRound None (Ok (StdEncoding l)) w :: post) /\
  (r <> Some (Ok tt) -> l = echList) /\ (echList <> [] -> l <> []).
Proof.
  assert (forall c0 c, applyClientCertificate load_pair certFile keyFile c0 = Ok c ->
    MinVersion c = MinVersion c0 /\ ServerName c = ServerName c0 /\ EncryptedClientHelloConfigList c = EncryptedClientHelloConfigList c0 /\
    EncryptedClientHelloRejectionVerify c = EncryptedClientHelloRejectionVerify c0) as Happ.
  { intros c0 c. unfold applyClientCertificate. destruct (_ && _); [by intros [= <-]|].
    destruct (validateCertificatePair _ _) as [[]| |]; cbn [res_bind]; try done.
    destruct (load_pair certFile keyFile) as [[]| |]; cbn [res_bind res_map_err]; try done. by intros [= <-]. }
  intros build. split_and!.
  - intros c. unfold build, buildUnifiedTLSConfig, getECHList, buildTLSConfigWithECH. destruct echList as [|x l] eqn:El; [done|].
    cbn [is_empty res_bind]. destruct pool as [roots| |]; cbn [res_bind]; try done.
    destruct (applyClientCertificate _ _ _ _) as [c1| |] eqn:E; cbn [res_bind]; try done. intros [= <-].
    apply Happ in E as (H1 & H2 & H3 & H4). by cbn in *.
  - intros c. unfold build, buildUnifiedTLSConfig, buildStandardTLSConfig. destruct pool as [roots| |]; cbn [res_bind]; try done.
    intros (H1 & _ & H3 & _)%Happ. by rewrite H1, H3.
  - intros ->. by eexists.
  - done.
  - unfold refreshECH. pose proof (prepare_spec domain dnsServer rounds echList Hrounds) as Hs.
    destruct (prepareECHContext rounds echList) as [l r]. destruct Hs as [H1 H2]. split; [done|]. split; [done|]. intros Hold.
    destruct r as [[[]|e|]|]; [by apply H1|by rewrite H2..].
Qed.

(** A response with an alias, a record without ECH and one with it. *)
Definition sample_rrs : list rr :=
  [OtherRR (mkAnswer None 5 (be_put 6 7) (vec8 (bs "alias") ++ [z2b 0]));
   HttpsRR None (be_put 6 7) (mkSvc 1 [] [(1, bs "h3")] []);
   HttpsRR (Some [bs "alias"]) (be_put 6 7) (mkSvc 1 [bs "x"] [(1, bs "h2"); (5, bs "ECHCONFIG")] [])].

Lemma ech_query_answered_witness :
  let U := ascii_only_unicode in
  parseDNSResponse (dns_message 1 33152 (be_put 4 0) [bs "example"; bs "com"] (be_put 4 4259841) (map rr_answer sample_rrs) [])
  = Ok (bs "RUNIQ09ORklH").
Proof.
  intros U. assert (Forall rr_ok sample_rrs) as Hok.
  { constructor; [|constructor; [|constructor; [|constructor]]]; (split; [split; [|by vm_compute]|]); try done;
      try (by repeat constructor); try (split_and!; [by repeat constructor|by repeat constructor|by vm_compute|by vm_compute]). }
  destruct (@ech_query_answered U (bs "Example.COM.") _ 33152 (be_put 4 0) sample_rrs [] eq_refl) as (_ & _ & H & _);
    [lia|by vm_compute|by vm_compute|by vm_compute|by vm_compute|done|]. exact H.
Defined.

(** A server that answers without a list, and then with one: the loaded list stays
    until the new one is there. *)
Definition sample_dns : bytes -> bytes -> udp_exchange := fun _ _ =>
  mkExchange (Ok tt) (Ok tt)
    (inl (dns_message 1 33152 (be_put 4 0) [bs "example"; bs "com"] (be_put 4 4259841) (map rr_answer sample_rrs) [])).

Definition listless_dns : bytes -> bytes -> udp_exchange := fun _ _ =>
  mkExchange (Ok tt) (Ok tt)
    (inl (dns_message 1 33152 (be_put 4 0) [bs "example"; bs "com"] (be_put 4 4259841) (map rr_answer (take 2 sample_rrs)) [])).

Definition sample_query (udp : bytes -> bytes -> udp_exchange) : res bytes :=
  queryHTTPSRecord (U := ascii_only_unicode) udp (fun _ _ => Err EOF) (bs "example.com") (bs "192.0.2.53").

Definition sample_rounds : list ech_round :=
  [mkRound None (sample_query listless_dns) (Ok tt); mkRound None (sample_query sample_dns) (Ok tt)].

Lemma tls_config_keeps_ech_witness :
  sample_query listless_dns = Ok [] /\ prepareECHContext sample_rounds (bs "OLD") = (bs "ECHCONFIG", Some (Ok tt)) /\
  fst (prepareECHContext sample_rounds (bs "OLD")) <> [].
Proof.
  split; [vm_compute; reflexivity|]. split; [vm_compute; reflexivity|].
  destruct (tls_config_keeps_ech (U := ascii_only_unicode) (Ok (bs "roots")) (fun _ _ => Ok tt) [] [] false (bs "OLD") (bs "example.com")
    (bs "example.com") (bs "192.0.2.53") sample_rounds) as (_ & _ & _ & _ & H).
  - constructor; [by exists listless_dns, (fun _ _ => Err EOF)|]. constructor; [by exists sample_dns, (fun _ _ => Err EOF)|constructor].
  - unfold refreshECH in H. destruct (prepareECHContext sample_rounds (bs "OLD")) as [l r]. apply H. intros E. vm_compute in E. discriminate E.
Defined.
