(* ===== verification/Rotation.v ===== *)
(** Endpoint rotation and transport selection: internal/transport/rotation.go and
    selector.go.  [EndpointPool] chooses among the addresses of a server by
    turns and rests the ones that fail; [HostMemoryCache] remembers hosts on
    which QUIC failed, and [TransportSelector] falls back to TCP.  The clock is
    an argument of the calls that read it. *)

From Stdlib Require Import ZArith Lia Strings.Byte.
From stdpp Require Import base numbers list gmap.
From S2P Require Import Prelude GoStrings GoNet NetAddr GoTime.

Local Open Scope Z_scope.
Local Open Scope go_scope.

(** * The pool *)

Record Endpoint : Type := mkEndpoint {
  Address : bytes;
  ConsecutiveFails : Z;
  TotalSuccesses : Z;
  TotalFails : Z;
  LastFailTime : Time;
  LastRTT : Z;
  Healthy : bool;
}.

Record EndpointPool : Type := mkPool {
  endpoints : list Endpoint;
  currentIndex : Z;
  failThreshold : Z;
  cooldownPeriod : Z;
}.

Definition ErrNoAvailableEndpoints : error := Errorf "rotation: no available endpoints" [].

Definition new_endpoint (addr : bytes) : Endpoint := mkEndpoint addr 0 0 0 zeroTime 0 true.

Definition NewEndpointPool (addrs : list bytes) (failThreshold cooldown : Z) : EndpointPool :=
  mkPool (map new_endpoint (List.filter (fun a => negb (is_empty a)) addrs)) 0
    (if failThreshold <=? 0 then 3 else failThreshold)
    (if cooldown <=? 0 then 60 * Second else cooldown).

Definition AddEndpoint (addr : bytes) (p : EndpointPool) : EndpointPool :=
  if is_empty addr then p else
  if existsb (fun ep => bool_decide (Address ep = addr)) (endpoints p) then p else
  mkPool (endpoints p ++ [new_endpoint addr]) (currentIndex p) (failThreshold p) (cooldownPeriod p).

Definition set_healthy (h : bool) (ep : Endpoint) : Endpoint :=
  mkEndpoint (Address ep) (ConsecutiveFails ep) (TotalSuccesses ep) (TotalFails ep) (LastFailTime ep) (LastRTT ep) h.

Definition cooled (p : EndpointPool) (now : Time) (ep : Endpoint) : bool :=
  cooldownPeriod p <? Sub now (LastFailTime ep).

(** The first pass of [SelectNext], from its round [i] on, [k] rounds left.  The
    indices are not negative, so Go's remainder is [Z.rem]. *)
Fixpoint select_loop (k : nat) (i : Z) (now : Time) (p : EndpointPool) : res (option (EndpointPool * bytes)) :=
  match k with
  | O => Ok None
  | S k =>
      let n := len (endpoints p) in
      let idx := Z.rem (currentIndex p + i) n in
      match endpoints p !! Z.to_nat idx with
      | None => Panic
      | Some ep =>
          if negb (Healthy ep) && cooled p now ep then
            Ok (Some (mkPool (<[Z.to_nat idx := set_healthy true ep]> (endpoints p)) (Z.rem (idx + 1) n)
                        (failThreshold p) (cooldownPeriod p), Address ep))
          else if Healthy ep then
            Ok (Some (mkPool (endpoints p) (Z.rem (idx + 1) n) (failThreshold p) (cooldownPeriod p), Address ep))
          else select_loop k (i + 1) now p
      end
  end.

(** The endpoint that failed first among the ones seen. *)
Definition earlier (oldest : option Endpoint) (ep : Endpoint) : option Endpoint :=
  match oldest with
  | None => Some ep
  | Some o => if Before (LastFailTime ep) (LastFailTime o) then Some ep else Some o
  end.

Definition SelectNext (now : Time) (p : EndpointPool) : EndpointPool * res bytes :=
  match endpoints p with
  | [] => (p, Err ErrNoAvailableEndpoints)
  | _ =>
      match select_loop (length (endpoints p)) 0 now p with
      | Ok (Some (p', addr)) => (p', Ok addr)
      | Ok None =>
          (p, match foldl earlier None (endpoints p) with
              | Some oldest => Ok (Address oldest)
              | None => Err ErrNoAvailableEndpoints
              end)
      | Err e => (p, Err e)
      | Panic => (p, Panic)
      end
  end.

Definition record_endpoint (threshold : Z) (success : bool) (rtt : Z) (now : Time) (ep : Endpoint) : Endpoint :=
  if success then
    mkEndpoint (Address ep) 0 (wrapS 64 (TotalSuccesses ep + 1)) (TotalFails ep) (LastFailTime ep)
      (if 0 <? rtt then rtt else LastRTT ep) true
  else
    let fails := wrapS 64 (ConsecutiveFails ep + 1) in
    mkEndpoint (Address ep) fails (TotalSuccesses ep) (wrapS 64 (TotalFails ep + 1)) now (LastRTT ep)
      (if threshold <=? fails then false else Healthy ep).

(** The first endpoint with the address is updated. *)
Fixpoint update_first (addr : bytes) (f : Endpoint -> Endpoint) (l : list Endpoint) : list Endpoint :=
  match l with
  | [] => []
  | ep :: l => if bool_decide (Address ep = addr) then f ep :: l else ep :: update_first addr f l
  end.

Definition RecordResult (addr : bytes) (success : bool) (rtt : Z) (now : Time) (p : EndpointPool) : EndpointPool :=
  mkPool (update_first addr (record_endpoint (failThreshold p) success rtt now) (endpoints p))
    (currentIndex p) (failThreshold p) (cooldownPeriod p).

Definition HealthyCount (now : Time) (p : EndpointPool) : Z :=
  len (List.filter (fun ep => Healthy ep || cooled p now ep) (endpoints p)).

Definition Endpoints (p : EndpointPool) : list Endpoint := endpoints p.

(** * Selection *)

Definition DefaultQUICFallbackTimeout : Z := 1500 * Millisecond.
Definition DefaultHostCooldown : Z := 300 * Second.
Definition MaxConsecutiveFails : Z := 2.

Definition TransportTypeTCP : bytes := bs "tcp".
Definition TransportTypeQUIC : bytes := bs "quic".
Definition TransportTypeAuto : bytes := bs "auto".

Record HostStatus : Type := mkHostStatus { hs_LastFailTime : Time; hs_ConsecutiveFails : Z; hs_Preferred : bytes }.

Record HostMemoryCache : Type := mkHostCache { hosts : gmap bytes HostStatus; hc_cooldown : Z }.

Definition NewHostMemoryCache (cooldown : Z) : HostMemoryCache :=
  mkHostCache ∅ (if cooldown <=? 0 then DefaultHostCooldown else cooldown).

(** The host part that [url.Parse] finds, [None] on an error. *)
Class GoURL := { url_Host : bytes -> option bytes }.

Section Selector.
Context `{GoURL}.

Definition extractHost (rawAddr : bytes) : bytes :=
  let target :=
    if Contains rawAddr (bs "://") then
      match url_Host rawAddr with
      | Some h => if negb (is_empty h) then h else rawAddr
      | None => rawAddr
      end
    else rawAddr in
  match SplitHostPort target with Ok (host, _) => host | _ => target end.

(** [time.Since(t)] is the difference to a reading of the clock. *)
Definition ShouldTryQUIC (rawAddr : bytes) (now : Time) (c : HostMemoryCache) : bool :=
  match hosts c !! extractHost rawAddr with
  | None => true
  | Some status =>
      if MaxConsecutiveFails <=? hs_ConsecutiveFails status
      then negb (Sub now (hs_LastFailTime status) <? hc_cooldown c)
      else true
  end.

Definition status_of (host : bytes) (c : HostMemoryCache) : HostStatus :=
  match hosts c !! host with Some s => s | None => mkHostStatus zeroTime 0 [] end.

Definition RecordSuccess (rawAddr t : bytes) (c : HostMemoryCache) : HostMemoryCache :=
  let host := extractHost rawAddr in
  let status := status_of host c in
  mkHostCache (<[host := mkHostStatus (hs_LastFailTime status) 0 t]> (hosts c)) (hc_cooldown c).

Definition RecordFailure (rawAddr t : bytes) (now : Time) (c : HostMemoryCache) : HostMemoryCache :=
  let host := extractHost rawAddr in
  let status := status_of host c in
  let fails := wrapS 64 (hs_ConsecutiveFails status + 1) in
  mkHostCache (<[host := mkHostStatus now fails
                           (if MaxConsecutiveFails <=? fails then TransportTypeTCP else hs_Preferred status)]> (hosts c)) (hc_cooldown c).

(** The selector: its mode, its cache and its timeout.  The two transports are
    given by how a dial with a timeout ends. *)
Record TransportSelector : Type := mkSelector {
  ts_mode : bytes;
  ts_cache : HostMemoryCache;
  ts_fallbackTimeout : Z;
}.

Definition NewTransportSelector (mode : bytes) : TransportSelector :=
  mkSelector (if is_empty mode then TransportTypeAuto else mode) (NewHostMemoryCache DefaultHostCooldown) DefaultQUICFallbackTimeout.

Definition SetMode (mode : bytes) (s : TransportSelector) : TransportSelector :=
  mkSelector mode (ts_cache s) (ts_fallbackTimeout s).

Definition SetFallbackTimeout (d : Z) (s : TransportSelector) : TransportSelector :=
  if 0 <? d then mkSelector (ts_mode s) (ts_cache s) d else s.

(** A dial that was made: over QUIC or not, and with what timeout. *)
Record dial_call : Type := mkDial { d_quic : bool; d_timeout : Z }.

Section Dial.
Context {Session : Type} (tcp quic : bytes -> Z -> res Session).

(** [now] is read before the QUIC dial and [failed] when it has failed. *)
Definition dialAuto (addr : bytes) (timeout : Z) (now failed : Time) (s : TransportSelector)
    : TransportSelector * list dial_call * res Session :=
  let with_cache c := mkSelector (ts_mode s) c (ts_fallbackTimeout s) in
  if negb (ShouldTryQUIC addr now (ts_cache s)) then (s, [mkDial false timeout], tcp addr timeout) else
  let quicTimeout :=
    if (0 <? timeout) && (timeout <? ts_fallbackTimeout s) then timeout else ts_fallbackTimeout s in
  match quic addr quicTimeout with
  | Ok sess => (with_cache (RecordSuccess addr TransportTypeQUIC (ts_cache s)), [mkDial true quicTimeout], Ok sess)
  | Err _ =>
      (with_cache (RecordFailure addr TransportTypeQUIC failed (ts_cache s)),
       [mkDial true quicTimeout; mkDial false timeout], tcp addr timeout)
  | Panic => (s, [mkDial true quicTimeout], Panic)
  end.

Definition DialSession (addr : bytes) (timeout : Z) (now failed : Time) (s : TransportSelector)
    : TransportSelector * list dial_call * res Session :=
  if bool_decide (ts_mode s = TransportTypeTCP) then (s, [mkDial false timeout], tcp addr timeout) else
  if bool_decide (ts_mode s = TransportTypeQUIC) then (s, [mkDial true timeout], quic addr timeout) else
  if bool_decide (ts_mode s = TransportTypeAuto) then dialAuto addr timeout now failed s else
  (s, [], Err (Wrapf "%w: %s" (Errorf "transport: unsupported transport type" []))).

End Dial.
End Selector.

(** * What the pool promises *)

(** An endpoint that may be used now. *)
Definition usable (p : EndpointPool) (now : Time) (ep : Endpoint) : bool := Healthy ep || cooled p now ep.

(** The endpoint [off] places after the current one, in turn. *)
Definition at_turn (p : EndpointPool) (off : nat) : nat :=
  Z.to_nat (Z.rem (currentIndex p + Z.of_nat off) (len (endpoints p))).

Definition turn_usable (p : EndpointPool) (now : Time) (off : nat) : bool :=
  match endpoints p !! at_turn p off with Some ep => usable p now ep | None => false end.

(** The pool after the endpoint at [idx] was chosen. *)
Definition chosen (p : EndpointPool) (idx : nat) (ep : Endpoint) : EndpointPool :=
  mkPool (<[idx := set_healthy true ep]> (endpoints p)) (Z.rem (Z.of_nat idx + 1) (len (endpoints p)))
    (failThreshold p) (cooldownPeriod p).

Definition index_ok_pool (p : EndpointPool) : Prop :=
  0 <= currentIndex p < Z.max 1 (len (endpoints p)).

Lemma at_turn_lt p off : index_ok_pool p -> endpoints p <> [] -> (at_turn p off < length (endpoints p))%nat.
Proof.
  intros H0 Hne. unfold index_ok_pool in H0. unfold at_turn. assert (0 < len (endpoints p)) as Hn by (destruct (endpoints p); [done|rewrite len_cons; pose proof (len_nonneg l); lia]).
  pose proof (Z.rem_bound_pos (currentIndex p + Z.of_nat off) (len (endpoints p))). unfold len in *. lia.
Qed.

Lemma set_healthy_same ep : Healthy ep = true -> set_healthy true ep = ep.
Proof. destruct ep; cbn. by intros ->. Qed.

Lemma select_loop_spec k i now p :
  index_ok_pool p -> endpoints p <> [] ->
  select_loop k (Z.of_nat i) now p =
  Ok (match find (turn_usable p now) (seq i k) with
      | Some off => match endpoints p !! at_turn p off with
                    | Some ep => Some (chosen p (at_turn p off) ep, Address ep)
                    | None => None
                    end
      | None => None
      end).
Proof.
  intros Hi Hne. revert i. induction k as [|k IH]; intros i; cbn [select_loop seq find]; [done|].
  fold (at_turn p i). cbv zeta. pose proof (at_turn_lt p i Hi Hne) as Hlt.
  unfold turn_usable at 1. destruct (endpoints p !! at_turn p i) as [ep|] eqn:E; [|apply lookup_ge_None in E; lia].
  unfold usable.
  assert (Z.of_nat (at_turn p i) = Z.rem (currentIndex p + Z.of_nat i) (len (endpoints p))) as Hz.
  { unfold at_turn. rewrite Z2Nat.id; [done|]. apply Z.rem_nonneg; [destruct (endpoints p); [done|rewrite len_cons; pose proof (len_nonneg l); lia]|unfold index_ok_pool in Hi; lia]. }
  destruct (Healthy ep) eqn:Eh; cbn [negb andb orb].
  - rewrite E. unfold chosen. rewrite set_healthy_same, list_insert_id by done. by rewrite Hz.
  - destruct (cooled p now ep); [rewrite E; unfold chosen; by rewrite Hz|].
    rewrite <- (IH (S i)). f_equal. lia.
Qed.

(** How many places after the current one an index is. *)
Definition distance (p : EndpointPool) (i : nat) : nat := Z.to_nat ((Z.of_nat i - currentIndex p) mod len (endpoints p)).

Lemma distance_turn p i :
  index_ok_pool p -> (i < length (endpoints p))%nat ->
  (distance p i < length (endpoints p))%nat /\ at_turn p (distance p i) = i.
Proof.
  intros Hi Hlt. unfold index_ok_pool in Hi. unfold distance, at_turn. set (n := len (endpoints p)) in *.
  assert (Z.of_nat i < n) as Hz by (unfold n, len; lia). pose proof (Z.mod_pos_bound (Z.of_nat i - currentIndex p) n ltac:(lia)).
  split; [unfold n, len in *; lia|]. rewrite Z2Nat.id by lia.
  rewrite Z.rem_mod_nonneg by lia. rewrite Zplus_mod_idemp_r.
  replace (currentIndex p + (Z.of_nat i - currentIndex p)) with (Z.of_nat i) by lia. rewrite Z.mod_small by lia. lia.
Qed.

Lemma none_usable p now :
  index_ok_pool p -> find (turn_usable p now) (seq 0 (length (endpoints p))) = None ->
  Forall (fun ep => usable p now ep = false) (endpoints p).
Proof.
  intros Hi Hf. apply Forall_lookup. intros i ep Hl. pose proof (lookup_lt_Some _ _ _ Hl) as Hlt.
  destruct (distance_turn p i Hi Hlt) as [Hd Ht].
  pose proof (find_none _ _ Hf (distance p i) ltac:(apply in_seq; lia)) as Hn. unfold turn_usable in Hn. by rewrite Ht, Hl in Hn.
Qed.

(** [SelectNext] in one equation: the first usable endpoint in turn, or the one
    that failed first. *)
Lemma SelectNext_spec now p :
  index_ok_pool p ->
  SelectNext now p =
  match endpoints p with
  | [] => (p, Err ErrNoAvailableEndpoints)
  | _ => match find (turn_usable p now) (seq 0 (length (endpoints p))) with
         | Some off => match endpoints p !! at_turn p off with
                       | Some ep => (chosen p (at_turn p off) ep, Ok (Address ep))
                       | None => (p, Panic)
                       end
         | None => (p, match foldl earlier None (endpoints p) with
                       | Some oldest => Ok (Address oldest) | None => Err ErrNoAvailableEndpoints end)
         end
  end.
Proof.
  intros Hi. unfold SelectNext. destruct (endpoints p) as [|e l] eqn:El; [done|]. rewrite <- El.
  rewrite (select_loop_spec _ 0) by (done || by rewrite El). destruct (find _ _) as [off|] eqn:Ef; [|done].
  apply find_some in Ef as [_ Hu]. unfold turn_usable in Hu. by destruct (endpoints p !! at_turn p off).
Qed.

Lemma foldl_earlier l o : l <> [] \/ is_Some o -> exists ep, foldl earlier o l = Some ep /\ (ep ∈ l \/ o = Some ep).
Proof.
  revert o. induction l as [|e l IH]; intros o Ho; cbn [foldl].
  - destruct Ho as [|[ep ->]]; [done|]. exists ep. auto.
  - destruct (IH (earlier o e)) as (ep & -> & Hin); [right; destruct o as [o'|]; cbn; [destruct (Before _ _)|]; eauto|].
    exists ep. split; [done|]. rewrite elem_of_cons. destruct Hin as [|Hin]; [auto|].
    destruct o as [o'|]; cbn in Hin; [destruct (Before _ _)|]; injection Hin as <-; auto.
Qed.

(** ** Runs *)

Inductive pool_op : Type :=
  | PSelect (now : Time)
  | PRecord (addr : bytes) (success : bool) (rtt : Z) (now : Time)
  | PAdd (addr : bytes).

(** A step and what it returned. *)
Definition pool_step (p : EndpointPool) (op : pool_op) : EndpointPool * list (res bytes) :=
  match op with
  | PSelect now => let '(p', r) := SelectNext now p in (p', [r])
  | PRecord addr success rtt now => (RecordResult addr success rtt now p, [])
  | PAdd addr => (AddEndpoint addr p, [])
  end.

Fixpoint pool_run (ops : list pool_op) (p : EndpointPool) : EndpointPool * list (res bytes) :=
  match ops with
  | [] => (p, [])
  | op :: ops => let '(p1, out) := pool_step p op in let '(p2, outs) := pool_run ops p1 in (p2, out ++ outs)
  end.

(** The specification keeps, for every known address, the failures since its
    last success. *)
Definition count_step (m : gmap bytes Z) (op : pool_op) : gmap bytes Z :=
  match op with
  | PSelect _ => m
  | PRecord addr success _ _ => if success : bool then alter (fun _ => 0) addr m else alter (fun n => n + 1) addr m
  | PAdd addr => if is_empty addr then m else match m !! addr with Some _ => m | None => <[addr := 0]> m end
  end.

Definition known (addr : bytes) (l : list Endpoint) : option Endpoint :=
  find (fun ep => bool_decide (Address ep = addr)) l.

(** [k] bounds the failures recorded so far. *)
Definition endpoint_ok (threshold k : Z) (ep : Endpoint) : Prop :=
  Address ep <> [] /\ 0 <= ConsecutiveFails ep <= k /\ (Healthy ep = false -> threshold <= ConsecutiveFails ep).

Definition pool_refines (k : Z) (p : EndpointPool) (m : gmap bytes Z) : Prop :=
  index_ok_pool p /\ 0 < failThreshold p /\ Forall (endpoint_ok (failThreshold p) k) (endpoints p) /\
  forall addr, option_map ConsecutiveFails (known addr (endpoints p)) = m !! addr.

Lemma known_insert_health l i ep addr :
  l !! i = Some ep ->
  option_map ConsecutiveFails (known addr (<[i := set_healthy true ep]> l)) = option_map ConsecutiveFails (known addr l).
Proof.
  unfold known. revert i. induction l as [|e l IH]; intros [|i] Hi; try done; cbn [insert list_insert find].
  - injection Hi as ->. cbn [set_healthy Address]. by destruct (bool_decide _).
  - destruct (bool_decide _); [done|]. by apply IH.
Qed.

Lemma known_update_first l addr f a :
  (forall ep, Address (f ep) = Address ep) ->
  known a (update_first addr f l) = if bool_decide (addr = a) then option_map f (known a l) else known a l.
Proof.
  intros Hf. unfold known. induction l as [|e l IH]; cbn [update_first find]; [by case_bool_decide|].
  destruct (bool_decide (Address e = addr)) eqn:E.
  - apply bool_decide_eq_true in E. cbn [find]. rewrite Hf, E. repeat case_bool_decide; done.
  - cbn [find]. rewrite IH. apply bool_decide_eq_false in E. repeat case_bool_decide; congruence || done.
Qed.

Lemma length_update_first addr f l : length (update_first addr f l) = length l.
Proof. induction l as [|e l IH]; [done|]. cbn [update_first]. destruct (bool_decide _); cbn [length]; [done|]. by rewrite IH. Qed.

Lemma known_app a l1 l2 : known a (l1 ++ l2) = match known a l1 with Some ep => Some ep | None => known a l2 end.
Proof. unfold known. induction l1 as [|e l IH]; [done|]. cbn [app find]. by destruct (bool_decide _). Qed.

Lemma known_exists a l : existsb (fun ep => bool_decide (Address ep = a)) l = bool_decide (is_Some (known a l)).
Proof.
  unfold known. induction l as [|e l IH]; [done|]. cbn [existsb find]. destruct (bool_decide (Address e = a)); cbn [orb]; [|done].
  by rewrite bool_decide_eq_true_2 by eauto.
Qed.

Lemma endpoint_ok_mono th k k' ep : k <= k' -> endpoint_ok th k ep -> endpoint_ok th k' ep.
Proof. intros Hk (Ha & Hf & Hh). split_and!; [done|lia|lia|done]. Qed.

Lemma Forall_update_first (P : Endpoint -> Prop) addr f l :
  (forall ep, P ep -> P (f ep)) -> Forall P l -> Forall P (update_first addr f l).
Proof.
  intros Hf Hl. induction Hl as [|e l He Hl IH]; [constructor|]. cbn [update_first].
  destruct (bool_decide _); constructor; auto.
Qed.

Lemma index_ok_same p l : index_ok_pool p -> length l = length (endpoints p) ->
  index_ok_pool (mkPool l (currentIndex p) (failThreshold p) (cooldownPeriod p)).
Proof.
  unfold index_ok_pool, len. cbn [currentIndex endpoints]. by intros H ->.
Qed.

Lemma record_ok th k success rtt now ep :
  0 <= k < 2 ^ 62 -> endpoint_ok th k ep -> endpoint_ok th (k + 1) (record_endpoint th success rtt now ep).
Proof.
  intros Hk (Ha & Hf & Hh). unfold record_endpoint, endpoint_ok. destruct success; cbn [Address ConsecutiveFails Healthy].
  - split_and!; try lia; done.
  - rewrite wrapS_small by lia. split_and!; try lia; [done|]. destruct (Z.leb_spec th (ConsecutiveFails ep + 1)); [lia|].
    intros E. specialize (Hh E). lia.
Qed.

Lemma record_refines k p m addr success rtt now :
  0 <= k < 2 ^ 62 -> pool_refines k p m ->
  pool_refines (k + 1) (RecordResult addr success rtt now p) (count_step m (PRecord addr success rtt now)).
Proof.
  intros Hk (Hi & Hth & Hok & Hm). unfold RecordResult. split_and!; cbn [endpoints failThreshold].
  - apply index_ok_same; [done|apply length_update_first].
  - done.
  - clear Hm. induction Hok as [|e l He Hok IH]; [constructor|]. cbn [update_first]. destruct (bool_decide _); constructor.
    + by apply record_ok.
    + eapply Forall_impl; [exact Hok|]. intros x. apply endpoint_ok_mono. lia.
    + eapply endpoint_ok_mono; [|exact He]. lia.
    + done.
  - intros a. rewrite known_update_first by (intros ep; by destruct success). cbn [count_step].
    assert (option_map ConsecutiveFails (option_map (record_endpoint (failThreshold p) success rtt now) (known a (endpoints p))) =
            (if success then fun _ => 0 else fun n => n + 1) <$> option_map ConsecutiveFails (known a (endpoints p))) as Hrec.
    { destruct (known a (endpoints p)) as [ep|] eqn:E; [|by destruct success]. cbn. f_equal. unfold record_endpoint. destruct success; [done|].
      cbn [ConsecutiveFails]. apply find_some in E as [Hin _]. rewrite Forall_forall in Hok. apply list_elem_of_In in Hin.
      destruct (Hok _ Hin) as (_ & Hf & _). rewrite wrapS_small; lia. }
    case_bool_decide as Ea.
    + subst a. rewrite Hrec, Hm. by destruct success; rewrite lookup_alter_eq.
    + rewrite Hm. by destruct success; rewrite lookup_alter_ne.
Qed.

Lemma add_refines k p m addr :
  0 <= k -> pool_refines k p m -> pool_refines k (AddEndpoint addr p) (count_step m (PAdd addr)).
Proof.
  intros Hk (Hi & Hth & Hok & Hm). unfold AddEndpoint. cbn [count_step]. destruct addr as [|c addr]; [by split_and!|]. cbn [is_empty].
  rewrite known_exists. pose proof (Hm (c :: addr)) as Hmc. destruct (known (c :: addr) (endpoints p)) as [ep|] eqn:E; cbn in Hmc; rewrite <- Hmc.
  - rewrite bool_decide_eq_true_2 by eauto. by split_and!.
  - rewrite bool_decide_eq_false_2 by (by intros [? ?]). split_and!; cbn [endpoints failThreshold]; [|done| |].
    + unfold index_ok_pool in *. cbn [endpoints currentIndex]. rewrite len_app. change (len [_]) with 1.
      pose proof (len_nonneg (endpoints p)). lia.
    + apply Forall_app. split; [done|]. constructor; [|constructor]. split_and!; cbn; try done; lia.
    + intros a. rewrite known_app. specialize (Hm a). destruct (decide (a = c :: addr)) as [->|Hne].
      * rewrite E. cbn [known find new_endpoint Address]. rewrite bool_decide_eq_true_2 by done. by rewrite lookup_insert_eq.
      * rewrite lookup_insert_ne by done. rewrite <- Hm. destruct (known a (endpoints p)); [done|].
        unfold known. cbn [find new_endpoint Address]. by rewrite bool_decide_eq_false_2 by done.
Qed.

Lemma chosen_refines k p m i ep :
  endpoints p !! i = Some ep -> pool_refines k p m -> pool_refines k (chosen p i ep) m.
Proof.
  intros Hl (Hi & Hth & Hok & Hm). pose proof (lookup_lt_Some _ _ _ Hl) as Hlt. unfold chosen. split_and!; cbn [endpoints failThreshold].
  - unfold index_ok_pool, len. cbn [currentIndex endpoints]. rewrite length_insert.
    pose proof (Z.rem_bound_pos (Z.of_nat i + 1) (Z.of_nat (length (endpoints p)))). lia.
  - done.
  - apply Forall_insert; [done|]. eapply Forall_lookup_1 in Hok as (Ha & Hf & _); [|exact Hl]. split_and!; [done|cbn; lia|cbn; lia|done].
  - intros a. by rewrite known_insert_health.
Qed.

Lemma select_refines k p m now : pool_refines k p m -> pool_refines k (fst (SelectNext now p)) m.
Proof.
  intros H. pose proof H as (Hi & _). rewrite SelectNext_spec by done. destruct (endpoints p) as [|e l] eqn:El; [done|]. rewrite <- El.
  destruct (find _ _) as [off|]; [|done]. destruct (endpoints p !! at_turn p off) as [ep|] eqn:E; [|done]. by apply chosen_refines.
Qed.

Lemma run_refines ops k p m :
  0 <= k -> k + len ops < 2 ^ 62 -> pool_refines k p m ->
  pool_refines (k + len ops) (fst (pool_run ops p)) (foldl count_step m ops).
Proof.
  revert k p m. induction ops as [|op ops IH]; intros k p m Hk Hlt Hp; cbn [pool_run foldl].
  { replace (k + len []) with k by (unfold len; cbn; lia). done. }
  rewrite len_cons in *. pose proof (len_nonneg ops).
  assert (pool_refines (k + 1) (fst (pool_step p op)) (count_step m op)) as H1.
  { assert (forall p' m', pool_refines k p' m' -> pool_refines (k + 1) p' m') as Hmono.
    { intros p' m' (H1 & H2 & H3 & H4). split_and!; try done. eapply Forall_impl; [exact H3|]. intros ep. apply endpoint_ok_mono. lia. }
    destruct op as [now|addr success rtt now|addr]; cbn [pool_step].
    - apply Hmono. pose proof (select_refines k p m now Hp). by destruct (SelectNext now p).
    - apply record_refines; [lia|done].
    - apply Hmono. by apply add_refines. }
  destruct (pool_step p op) as [p1 out]. cbn [fst] in H1. specialize (IH (k + 1) p1 _ ltac:(lia) ltac:(lia) H1).
  destruct (pool_run ops p1) as [p2 outs]. cbn [fst] in *. replace (k + (1 + len ops)) with (k + 1 + len ops) by lia. done.
Qed.

(** The addresses a pool starts with. *)
Definition initial_counts (addrs : list bytes) : gmap bytes Z :=
  list_to_map (map (fun a => (a, 0)) (List.filter (fun a => negb (is_empty a)) addrs)).

Lemma new_refines addrs th cd : pool_refines 0 (NewEndpointPool addrs th cd) (initial_counts addrs).
Proof.
  unfold NewEndpointPool, initial_counts. split_and!; cbn [endpoints failThreshold].
  - unfold index_ok_pool. cbn [currentIndex]. lia.
  - destruct (Z.leb_spec th 0); lia.
  - apply Forall_forall. intros ep (a & -> & Ha)%list_elem_of_fmap. apply list_elem_of_In, filter_In in Ha as [_ Ha].
    split_and!; cbn; try done; try lia. by destruct a.
  - intros a. induction (List.filter _ addrs) as [|x l IH]; [done|]. cbn [map list_to_map foldr known find new_endpoint Address curry fst snd].
    unfold known in *. cbn [find new_endpoint Address]. case_bool_decide as Ex.
    + subst x. cbn [uncurry]. by rewrite lookup_insert_eq.
    + cbn [uncurry]. rewrite lookup_insert_ne by done. exact IH.
Qed.

(** The pool counts failures as documented.  Whatever sequence of selections,
    recorded results and additions (short of 2^62 of them), the count of every
    known address is the number of failures recorded for it since its last
    success, and an endpoint is out of use only with a count that has reached the
    threshold.  A selection never panics; it fails exactly when the pool is
    empty, returns an address of the pool, and if some endpoint is healthy or
    has cooled down it returns the first such in turn and puts it back into
    use. *)
Theorem pool_counts_failures (addrs : list bytes) (th cd : Z) (ops : list pool_op) (now : Time)
    (Hlen : len ops < 2 ^ 62) :
  let p := fst (pool_run ops (NewEndpointPool addrs th cd)) in
  (forall addr, option_map ConsecutiveFails (known addr (endpoints p)) = foldl count_step (initial_counts addrs) ops !! addr) /\
  (forall ep, ep ∈ endpoints p -> Healthy ep = false -> failThreshold p <= ConsecutiveFails ep) /\
  match snd (SelectNext now p) with
  | Ok addr => exists ep, ep ∈ endpoints p /\ Address ep = addr /\
      match find (turn_usable p now) (seq 0 (length (endpoints p))) with
      | Some off => endpoints p !! at_turn p off = Some ep /\
          endpoints (fst (SelectNext now p)) !! at_turn p off = Some (set_healthy true ep)
      | None => forall e, e ∈ endpoints p -> Healthy e = false /\ cooled p now e = false
      end
  | Err e => e = ErrNoAvailableEndpoints /\ endpoints p = []
  | Panic => False
  end.
Proof.
  intros p. pose proof (run_refines ops 0 _ _ ltac:(lia) ltac:(lia) (new_refines addrs th cd)) as (Hi & Hth & Hok & Hm). fold p in Hi, Hth, Hok, Hm.
  split; [done|]. split. { intros ep Hin. rewrite Forall_forall in Hok. by destruct (Hok _ Hin) as (_ & _ & ?). }
  rewrite SelectNext_spec by done. destruct (endpoints p) as [|e l] eqn:El; [done|]. rewrite <- El.
  destruct (find _ _) as [off|] eqn:Ef.
  - pose proof (at_turn_lt p off Hi) as Hlt. rewrite El in Hlt at 1. specialize (Hlt ltac:(done)).
    destruct (endpoints p !! at_turn p off) as [ep|] eqn:E; [|apply lookup_ge_None in E; lia]. cbn [snd fst].
    exists ep. split_and!; [by eapply list_elem_of_lookup_2|done|done|]. cbn [chosen endpoints]. by apply list_lookup_insert_eq.
  - destruct (foldl_earlier (endpoints p) None) as (ep & -> & Hin); [left; by rewrite El|]. cbn [snd]. exists ep.
    split_and!; [by destruct Hin|done|]. intros e' He. pose proof (none_usable p now Hi Ef) as Hu.
    rewrite Forall_forall in Hu. specialize (Hu _ He). by apply orb_false_iff in Hu.
Qed.

(** ** Turns *)

(** Operations that add nothing and record no failure of an address. *)
Definition spares (a : bytes) (op : pool_op) : Prop :=
  match op with PSelect _ => True | PRecord addr success _ _ => addr = a -> success = true | PAdd _ => False end.

Definition is_select (op : pool_op) : bool := match op with PSelect _ => true | _ => false end.

(** The endpoint at [j] is in use. *)
Definition in_use (p : EndpointPool) (j : nat) (a : bytes) : Prop :=
  index_ok_pool p /\ exists ep, endpoints p !! j = Some ep /\ Healthy ep = true /\ Address ep = a.

Lemma find_seq_first f d k i : (forall x, In x (seq i k) -> (x < d)%nat -> f x = false) -> In d (seq i k) -> f d = true -> find f (seq i k) = Some d.
Proof.
  revert i. induction k as [|k IH]; intros i Hlt Hin Hd; cbn [seq find] in *; [done|].
  destruct Hin as [->|Hin]; [by rewrite Hd|]. pose proof (proj1 (in_seq _ _ _) Hin).
  rewrite (Hlt i); [|by left|lia]. apply IH; [|done|done]. intros x Hx. apply Hlt. by right.
Qed.

Lemma find_seq_le f d k : (d < k)%nat -> f d = true -> exists o, find f (seq 0 k) = Some o /\ (o <= d)%nat.
Proof.
  intros Hd Hf. induction d as [d IH] using lt_wf_ind.
  destruct (existsb f (seq 0 d)) eqn:E.
  - apply existsb_exists in E as (x & Hx%in_seq & Hfx). destruct (IH x) as (o & Ho & Hle); [lia|lia|done|]. exists o. split; [done|lia].
  - exists d. split; [|lia]. apply find_seq_first; [|apply in_seq; lia|done]. intros x Hx Hlt.
    destruct (f x) eqn:Efx; [|done]. assert (existsb f (seq 0 d) = true); [|congruence]. apply existsb_exists. exists x. split; [apply in_seq; lia|done].
Qed.

Lemma distance_after p off j ep :
  index_ok_pool p -> (j < length (endpoints p))%nat -> (off < distance p j)%nat ->
  distance (chosen p (at_turn p off) ep) j = (distance p j - off - 1)%nat.
Proof.
  intros Hi Hj Hlt. unfold index_ok_pool in Hi. pose proof (distance_turn p j Hi Hj) as [Hd _].
  unfold distance, chosen, at_turn in *. cbn [currentIndex endpoints]. unfold len in *. rewrite length_insert.
  set (n := Z.of_nat (length (endpoints p))) in *. set (c := currentIndex p) in *.
  pose proof (Z.mod_pos_bound (Z.of_nat j - c) n ltac:(lia)) as Hm.
  rewrite (Z.rem_mod_nonneg (c + Z.of_nat off)) by lia. pose proof (Z.mod_pos_bound (c + Z.of_nat off) n ltac:(lia)).
  rewrite Z2Nat.id by lia. rewrite Z.rem_mod_nonneg by lia. rewrite Zminus_mod_idemp_r.
  assert ((Z.of_nat j - ((c + Z.of_nat off) mod n + 1)) mod n = ((Z.of_nat j - c) mod n - Z.of_nat off - 1) mod n) as ->.
  { replace (Z.of_nat j - ((c + Z.of_nat off) mod n + 1)) with ((Z.of_nat j - 1) - (c + Z.of_nat off) mod n) by lia.
    rewrite Zminus_mod_idemp_r. replace ((Z.of_nat j - c) mod n - Z.of_nat off - 1) with ((Z.of_nat j - c) mod n - (Z.of_nat off + 1)) by lia.
    rewrite Zminus_mod_idemp_l. f_equal. lia. }
  rewrite Z.mod_small by lia. lia.
Qed.

Lemma select_in_turn p j a now :
  in_use p j a ->
  let '(p', r) := SelectNext now p in
  length (endpoints p') = length (endpoints p) /\ in_use p' j a /\
  (r = Ok a \/ (distance p' j < distance p j)%nat).
Proof.
  intros (Hi & ep & Hl & Hh & Ha). pose proof (lookup_lt_Some _ _ _ Hl) as Hj. destruct (distance_turn p j Hi Hj) as [Hd Ht].
  rewrite SelectNext_spec by done. destruct (endpoints p) as [|e0 l0] eqn:El; [done|]. rewrite <- El in *.
  destruct (find_seq_le (turn_usable p now) (distance p j) (length (endpoints p)) Hd) as (off & -> & Hoff).
  { unfold turn_usable. rewrite Ht, Hl. unfold usable. by rewrite Hh. }
  assert (endpoints p <> []) as Hne by (by rewrite El). pose proof (at_turn_lt p off Hi Hne) as Hlt.
  destruct (endpoints p !! at_turn p off) as [ep'|] eqn:E; [|apply lookup_ge_None in E; lia].
  split_and!.
  - cbn [chosen endpoints]. by rewrite length_insert.
  - split.
    + unfold index_ok_pool, chosen, len. cbn [currentIndex endpoints]. rewrite length_insert.
      pose proof (Z.rem_bound_pos (Z.of_nat (at_turn p off) + 1) (Z.of_nat (length (endpoints p)))). lia.
    + cbn [chosen endpoints]. destruct (decide (at_turn p off = j)) as [Ej|Ej].
      * rewrite Ej in *. rewrite list_lookup_insert_eq by done. exists (set_healthy true ep'). assert (ep' = ep) as -> by congruence. done.
      * rewrite list_lookup_insert_ne by done. by exists ep.
  - destruct (decide (off = distance p j)) as [->|Hne2].
    + left. rewrite Ht in E. congruence.
    + right. rewrite distance_after by (done || lia). lia.
Qed.

Lemma record_keeps p j a addr success rtt now :
  in_use p j a -> (addr = a -> success = true) ->
  let p' := RecordResult addr success rtt now p in
  length (endpoints p') = length (endpoints p) /\ in_use p' j a /\ distance p' j = distance p j.
Proof.
  intros (Hi & ep & Hl & Hh & Ha) Hs p'. assert (length (endpoints p') = length (endpoints p)) as Hlen by apply length_update_first.
  split; [done|]. split; [|unfold distance, len; by rewrite Hlen]. split; [by apply index_ok_same|].
  unfold p', RecordResult. cbn [endpoints]. clear Hi p' Hlen. revert j Hl. induction (endpoints p) as [|e l IH]; intros [|j] Hl; try done; cbn [update_first].
  - injection Hl as ->. case_bool_decide as E; [|by exists ep]. eexists. split; [done|]. rewrite (Hs ltac:(congruence)). done.
  - case_bool_decide; [by exists ep|]. by apply IH.
Qed.

(** Turns are fair.  In a pool reached by any run, an endpoint that is in use and
    for which no failure is recorded meanwhile is returned within as many
    selections as the pool has endpoints, whatever is recorded for the others
    and whatever the clock does. *)
Theorem round_robin_fair (addrs : list bytes) (th cd : Z) (before ops : list pool_op) (j : nat) (ep : Endpoint)
    (Hlen : len before < 2 ^ 62) :
  let p := fst (pool_run before (NewEndpointPool addrs th cd)) in
  endpoints p !! j = Some ep -> Healthy ep = true -> Forall (spares (Address ep)) ops ->
  (length (endpoints p) <= length (List.filter is_select ops))%nat ->
  Ok (Address ep) ∈ snd (pool_run ops p).
Proof.
  intros p Hl Hh Hs Hn. pose proof (run_refines before 0 _ _ ltac:(lia) ltac:(lia) (new_refines addrs th cd)) as (Hi & _). fold p in Hi.
  destruct (distance_turn p j Hi (lookup_lt_Some _ _ _ Hl)) as [Hd _].
  assert (in_use p j (Address ep)) as Hu by (split; [done|by exists ep]).
  assert (distance p j < length (List.filter is_select ops))%nat as Hlt by lia. clear Hn Hd Hi Hl Hh. revert Hu Hlt. generalize p. clear p.
  induction Hs as [|op ops Hop _ IH]; intros p Hu Hlt; cbn [List.filter length] in Hlt; [lia|]. cbn [pool_run].
  destruct op as [now|addr success rtt now|addr]; cbn [pool_step is_select length] in *; [| |done].
  - pose proof (select_in_turn p j (Address ep) now Hu) as Hsel. destruct (SelectNext now p) as [p' r]. destruct Hsel as (Hl & Hu' & Hr).
    specialize (IH p' Hu'). destruct (pool_run ops p') as [p2 outs]. cbn [snd app] in *. rewrite elem_of_cons.
    destruct Hr as [->|Hd]; [by left|]. right. apply IH. lia.
  - destruct (record_keeps p j (Address ep) addr success rtt now Hu Hop) as (Hl & Hu' & Hd).
    specialize (IH _ Hu'). destruct (pool_run ops _) as [p2 outs]. cbn [snd app] in *. apply IH. lia.
Qed.

(** * What the selector promises *)

Section Fallback.
Context `{GoURL} {Session : Type}.

(** A call of [DialSession] in automatic mode: the clock and how the dials end. *)
Record auto_call : Type := mkCall {
  ac_addr : bytes;
  ac_timeout : Z;
  ac_now : Time;
  ac_failed : Time;
  ac_tcp : res Session;
  ac_quic : res Session;
}.

Definition perform (c : auto_call) (s : TransportSelector) : TransportSelector * list dial_call * res Session :=
  DialSession (fun _ _ => ac_tcp c) (fun _ _ => ac_quic c) (ac_addr c) (ac_timeout c) (ac_now c) (ac_failed c) s.

(** What happened to QUIC in a call: not tried, succeeded, or failed at a time. *)
Inductive quic_event : Type := NotTried | Succeeded | FailedAt (t : Time).

Definition event_of (c : auto_call) (dials : list dial_call) : bytes * quic_event :=
  (extractHost (ac_addr c),
   if existsb d_quic dials
   then match ac_quic c with Ok _ => Succeeded | Err _ => FailedAt (ac_failed c) | Panic => NotTried end
   else NotTried).

Fixpoint perform_all (calls : list auto_call) (s : TransportSelector) : TransportSelector * list (bytes * quic_event) :=
  match calls with
  | [] => (s, [])
  | c :: calls =>
      let '(s1, dials, _) := perform c s in
      let '(s2, events) := perform_all calls s1 in (s2, event_of c dials :: events)
  end.

(** The failures of a host since QUIC last succeeded on it, and the last one. *)
Definition note (host : bytes) (st : Z * option Time) (ev : bytes * quic_event) : Z * option Time :=
  if bool_decide (fst ev = host) then
    match snd ev with NotTried => st | Succeeded => (0, snd st) | FailedAt t => (fst st + 1, Some t) end
  else st.

Definition failures (host : bytes) (events : list (bytes * quic_event)) : Z * option Time := foldl (note host) (0, None) events.

(** The rule: QUIC rests on a host for the cool-down after two failures in a row. *)
Definition quic_allowed (cooldown : Z) (host : bytes) (now : Time) (events : list (bytes * quic_event)) : bool :=
  match failures host events with
  | (n, Some t) => negb ((2 <=? n) && (Sub now t <? cooldown))
  | (_, None) => true
  end.

Definition remembers (c : HostMemoryCache) (st : bytes -> Z * option Time) : Prop :=
  forall h, let s := status_of h c in
    hs_ConsecutiveFails s = fst (st h) /\ 0 <= fst (st h) /\
    match snd (st h) with Some t => hs_LastFailTime s = t | None => fst (st h) = 0 end.

Lemma should_try_remembers c st addr now :
  remembers c st ->
  ShouldTryQUIC addr now c =
  match st (extractHost addr) with
  | (n, Some t) => negb ((2 <=? n) && (Sub now t <? hc_cooldown c)) | (_, None) => true
  end.
Proof.
  intros Hr. specialize (Hr (extractHost addr)). unfold ShouldTryQUIC. unfold status_of in Hr. unfold MaxConsecutiveFails.
  destruct (st (extractHost addr)) as [n [t|]]; cbn [fst snd] in Hr; destruct (hosts c !! extractHost addr) as [s|]; cbn in Hr;
    destruct Hr as (E1 & Hn & E2); try done.
  - rewrite E1, E2. by destruct (2 <=? n).
  - by rewrite <- E1.
  - by rewrite E1, E2.
Qed.

Lemma status_of_insert h host x m cd :
  status_of h (mkHostCache (<[host := x]> m) cd) = if bool_decide (host = h) then x else status_of h (mkHostCache m cd).
Proof.
  unfold status_of. cbn [hosts]. case_bool_decide as E; [subst; by rewrite lookup_insert_eq|by rewrite lookup_insert_ne].
Qed.

Definition after_event (st : bytes -> Z * option Time) (ev : bytes * quic_event) : bytes -> Z * option Time :=
  fun h => note h (st h) ev.

Lemma perform_remembers c s st k :
  ts_mode s = TransportTypeAuto -> remembers (ts_cache s) st -> (forall h, fst (st h) <= k) -> 0 <= k < 2 ^ 62 ->
  let '(s', dials, r) := perform c s in
  ts_mode s' = TransportTypeAuto /\ hc_cooldown (ts_cache s') = hc_cooldown (ts_cache s) /\
  remembers (ts_cache s') (after_event st (event_of c dials)) /\
  (forall h, fst (after_event st (event_of c dials) h) <= k + 1) /\
  existsb d_quic dials = ShouldTryQUIC (ac_addr c) (ac_now c) (ts_cache s).
Proof.
  intros Hm Hr Hk Hb. unfold perform, DialSession. rewrite Hm. cbn [bool_decide]. rewrite !bool_decide_eq_false_2 by (by vm_compute).
  rewrite bool_decide_eq_true_2 by done. unfold dialAuto.
  assert (forall host (ev : quic_event), ev = NotTried -> remembers (ts_cache s) (after_event st (host, ev)) /\
            forall h, fst (after_event st (host, ev) h) <= k + 1) as Hnot.
  { intros host ev ->. split.
    - intros h. unfold after_event, note. cbn [fst snd]. specialize (Hr h). by destruct (bool_decide _).
    - intros h. unfold after_event, note. cbn [fst snd]. specialize (Hk h). destruct (bool_decide _); lia. }
  destruct (ShouldTryQUIC _ _ _) eqn:Es; cbn [negb]; [|split_and!; try done; by apply Hnot].
  set (host := extractHost (ac_addr c)).
  assert (mkHostCache (hosts (ts_cache s)) (hc_cooldown (ts_cache s)) = ts_cache s) as Heta by (by destruct (ts_cache s)).
  destruct (ac_quic c) as [sess|e|] eqn:Eq; (split_and!; [done|done| | |done]); unfold event_of; cbn [existsb d_quic orb]; rewrite ?Eq; fold host.
  - intros h. unfold RecordSuccess. cbn [ts_cache]. fold host. rewrite status_of_insert, Heta. unfold after_event, note. cbn [fst snd].
    specialize (Hr h). case_bool_decide as Eh; [|done]. subst h. cbn [hs_ConsecutiveFails hs_LastFailTime fst snd].
    destruct Hr as (E1 & Hn & E2). split_and!; [done|lia|]. by destruct (snd (st host)).
  - intros h. unfold after_event, note. cbn [fst snd]. specialize (Hk h). destruct (bool_decide _); cbn [fst]; lia.
  - intros h. unfold RecordFailure. cbn [ts_cache]. fold host. rewrite status_of_insert, Heta. unfold after_event, note. cbn [fst snd].
    specialize (Hr h). specialize (Hk h). case_bool_decide as Eh; [|done]. subst h. cbn [hs_ConsecutiveFails hs_LastFailTime fst snd].
    destruct Hr as (E1 & Hn & E2). rewrite E1, wrapS_small by lia. split_and!; [done|lia|done].
  - intros h. unfold after_event, note. cbn [fst snd]. specialize (Hk h). destruct (bool_decide _); cbn [fst]; lia.
  - by apply Hnot.
  - by apply Hnot.
Qed.

Lemma perform_all_remembers calls s st k :
  ts_mode s = TransportTypeAuto -> remembers (ts_cache s) st -> (forall h, fst (st h) <= k) -> 0 <= k -> k + len calls < 2 ^ 62 ->
  let '(s', events) := perform_all calls s in
  ts_mode s' = TransportTypeAuto /\ hc_cooldown (ts_cache s') = hc_cooldown (ts_cache s) /\
  remembers (ts_cache s') (fun h => foldl (note h) (st h) events).
Proof.
  revert s st k. induction calls as [|c calls IH]; intros s st k Hm Hr Hk H0 Hlt; cbn [perform_all]; [done|].
  rewrite len_cons in Hlt. pose proof (len_nonneg calls).
  pose proof (perform_remembers c s st k Hm Hr Hk ltac:(lia)) as Hp. destruct (perform c s) as [[s1 dials] r].
  destruct Hp as (Hm1 & Hc1 & Hr1 & Hk1 & _). specialize (IH s1 _ (k + 1) Hm1 Hr1 Hk1 ltac:(lia) ltac:(lia)).
  destruct (perform_all calls s1) as [s2 events]. destruct IH as (Hm2 & Hc2 & Hr2). split_and!; [done|congruence|exact Hr2].
Qed.

End Fallback.

(** Automatic transport selection.  After any sequence of dials, to any hosts, QUIC
    is tried for a host unless its last two attempts on that host, counted since
    it last succeeded there, have failed and the cool-down since the later one
    has not passed.  When QUIC is tried and succeeds its session is returned and
    TCP is not dialled; in every other case what the TCP dial returns is
    returned, so a failing QUIC never fails a dial by itself.  The QUIC attempt
    gets at most the fallback timeout. *)
Theorem quic_fallback {HU : GoURL} {Session : Type} (calls : list (auto_call (Session := Session))) (c : auto_call (Session := Session))
    (Hlen : len calls < 2 ^ 62) (Hquic : ac_quic c <> Panic) :
  let '(s, events) := perform_all calls (NewTransportSelector TransportTypeAuto) in
  let '(_, dials, r) := perform c s in
  let tried := quic_allowed DefaultHostCooldown (extractHost (ac_addr c)) (ac_now c) events in
  existsb d_quic dials = tried /\
  match ac_quic c with
  | Ok sess => if tried then dials = [mkDial true (d_timeout (hd (mkDial true 0) dials))] /\ r = Ok sess
               else dials = [mkDial false (ac_timeout c)] /\ r = ac_tcp c
  | _ => existsb (fun d => negb (d_quic d)) dials = true /\ r = ac_tcp c
  end /\
  Forall (fun d => d_quic d = true -> d_timeout d <= ts_fallbackTimeout s) dials.
Proof.
  pose proof (perform_all_remembers calls (NewTransportSelector TransportTypeAuto) (fun _ => (0, None)) 0 eq_refl) as Hall.
  destruct (perform_all calls _) as [s events]. destruct Hall as (Hm & Hc & Hr); [|done|lia|lia|].
  { intros h. cbv zeta. unfold status_of. change (hosts (ts_cache (NewTransportSelector TransportTypeAuto))) with (∅ : gmap bytes HostStatus). by rewrite lookup_empty. }
  unfold perform, DialSession. rewrite Hm. rewrite !bool_decide_eq_false_2 by (by vm_compute). rewrite bool_decide_eq_true_2 by done.
  unfold dialAuto. rewrite (should_try_remembers _ _ (ac_addr c) (ac_now c) Hr).
  change (foldl (note _) (0, None) events) with (failures (extractHost (ac_addr c)) events). rewrite Hc.
  change (hc_cooldown (ts_cache (NewTransportSelector TransportTypeAuto))) with DefaultHostCooldown.
  change (match failures _ _ with (n, Some t) => _ | (_, None) => _ end)
    with (quic_allowed DefaultHostCooldown (extractHost (ac_addr c)) (ac_now c) events).
  destruct (quic_allowed _ _ _ _); cbn [negb].
  - destruct (ac_quic c) as [sess|e|]; [| |done]; (split; [done|split; [done|]]); repeat constructor; cbn [d_quic d_timeout]; try done;
      intros _; destruct (_ && _) eqn:E; try lia; apply andb_true_iff in E as [_ E%Z.ltb_lt]; lia.
  - destruct (ac_quic c); (split; [done|split; [done|]]); repeat constructor; done.
Qed.

(** Two addresses; the first fails once with a threshold of one. *)
Definition sample_ops : list pool_op :=
  [PSelect (now_at 0 0); PRecord (bs "a:1") false 0 (now_at 10 10); PSelect (now_at 20 20)].

Definition sample_pool : EndpointPool := NewEndpointPool [bs "a:1"; []; bs "b:1"] 1 (60 * Second).

Lemma pool_counts_failures_witness :
  snd (SelectNext (now_at 30 30) (fst (pool_run sample_ops sample_pool))) = Ok (bs "b:1") /\
  option_map ConsecutiveFails (known (bs "a:1") (endpoints (fst (pool_run sample_ops sample_pool)))) = Some 1.
Proof.
  destruct (pool_counts_failures [bs "a:1"; []; bs "b:1"] 1 (60 * Second) sample_ops (now_at 30 30)) as (H1 & _ & _); [by vm_compute|].
  split; [by vm_compute|]. rewrite H1. by vm_compute.
Defined.

Lemma round_robin_fair_witness :
  Ok (bs "b:1") ∈ snd (pool_run [PSelect (now_at 30 30); PRecord (bs "a:1") false 0 (now_at 40 40); PSelect (now_at 50 50)] sample_pool).
Proof.
  apply (round_robin_fair [bs "a:1"; []; bs "b:1"] 1 (60 * Second) []
    [PSelect (now_at 30 30); PRecord (bs "a:1") false 0 (now_at 40 40); PSelect (now_at 50 50)] 1 (new_endpoint (bs "b:1")));
    [by vm_compute|done|done|repeat constructor; done|by vm_compute; lia].
Defined.

(** Two failures on a host: the third dial within the cool-down goes to TCP only. *)
Lemma quic_fallback_witness :
  let HU : GoURL := {| url_Host := fun _ => None |} in
  let failing t := mkCall (bs "h:443") 0 (now_at t t) (now_at (t + 1) (t + 1)) (Ok 1) (Err (Errorf "timeout" [])) in
  let c := mkCall (bs "h:443") 0 (now_at 9 9) (now_at 9 9) (Ok 1) (Ok 2) in
  snd (perform c (fst (perform_all [failing 1; failing 3] (NewTransportSelector TransportTypeAuto)))) = Ok 1.
Proof.
  intros HU failing c.
  pose proof (@quic_fallback HU Z [failing 1; failing 3] c ltac:(by vm_compute) ltac:(done)) as H.
  destruct (perform_all _ _) as [s events] eqn:E. cbn [fst].
  assert (events = [(bs "h", FailedAt (now_at 2 2)); (bs "h", FailedAt (now_at 4 4))]) as ->.
  { assert (snd (perform_all [failing 1; failing 3] (NewTransportSelector TransportTypeAuto)) = [(bs "h", FailedAt (now_at 2 2)); (bs "h", FailedAt (now_at 4 4))]) as E2 by (by vm_compute).
    by rewrite E in E2. }
  destruct (perform c s) as [[s' dials] r]. destruct H as (_ & H & _). cbn [ac_quic c] in H.
  assert (quic_allowed DefaultHostCooldown (extractHost (ac_addr c)) (ac_now c)
    [(bs "h", FailedAt (now_at 2 2)); (bs "h", FailedAt (now_at 4 4))] = false) as E3 by (by vm_compute).
  rewrite E3 in H. by destruct H as [_ ->].
Defined.
