(* ===== verification/DnsCache.v ===== *)
(** The resolver cache of the client: internal/app/dnscache.go.  Entries are
    shared objects that several calls hold at once, so the cache is a heap of
    entries and a map from hosts to addresses in it; a channel of a waiting call
    is a mailbox of one message.  Each critical section is one operation, the
    look-up between the two sections of [Resolve] is outside, each send to a
    waiting call after the second one is an operation of its own, and [dns_step]
    is the relation of all interleavings. *)

From Stdlib Require Import ZArith Lia Strings.Byte.
From stdpp Require Import base numbers list gmap relations.
From S2P Require Import Prelude GoStrings GoNet NetAddr GoTime.

Local Open Scope Z_scope.

(** [net.IPAddr]: the address and its zone. *)
Abbreviation IPAddr := (bytes * bytes)%type.

Record dnsCacheEntry : Type := mkEntry {
  e_ips : list IPAddr;
  e_rrIndex : Z;
  e_expires : Time;
  e_goodIP : option bytes;
  e_pending : bool;
  e_waiters : list nat;
}.

(** The cache, the mailboxes of the channels, and the next free names. *)
Record dnsCache : Type := mkCache {
  heap : gmap nat dnsCacheEntry;
  entries : gmap bytes nat;
  mail : gmap nat (option (list IPAddr));
  next_entry : nat;
  next_chan : nat;
}.

Definition empty_cache : dnsCache := mkCache ∅ ∅ ∅ 0 0.

Definition entry_of (host : bytes) (c : dnsCache) : option (nat * dnsCacheEntry) :=
  match entries c !! host with
  | Some l => match heap c !! l with Some e => Some (l, e) | None => None end
  | None => None
  end.

Definition set_entry (l : nat) (e : dnsCacheEntry) (c : dnsCache) : dnsCache :=
  mkCache (<[l := e]> (heap c)) (entries c) (mail c) (next_entry c) (next_chan c).

(** A new entry object in the map under [host]. *)
Definition new_entry (host : bytes) (e : dnsCacheEntry) (c : dnsCache) : dnsCache :=
  mkCache (<[next_entry c := e]> (heap c)) (<[host := next_entry c]> (entries c)) (mail c) (S (next_entry c)) (next_chan c).

Definition add_waiter (e : dnsCacheEntry) (ch : nat) : dnsCacheEntry :=
  mkEntry (e_ips e) (e_rrIndex e) (e_expires e) (e_goodIP e) (e_pending e) (e_waiters e ++ [ch]).

(** How a call of [Resolve] goes on after its first critical section: it has its
    answer, resolves without the cache, waits on a channel, or is the one that
    looks the host up. *)
Inductive resolving : Type :=
  | RDone (ips : list IPAddr)
  | RUncached
  | RWait (ch : nat)
  | RLookup (l : nat).

Definition Resolve_begin (ttl : Z) (host : bytes) (now : Time) (c : dnsCache) : dnsCache * resolving :=
  match ParseIP host with
  | Some ip => (c, RDone [(ip, [])])
  | None =>
      if ttl <=? 0 then (c, RUncached) else
      let lookup := (new_entry host (mkEntry [] 0 zeroTime None true []) c, RLookup (next_entry c)) in
      match entry_of host c with
      | Some (l, e) =>
          if Before now (e_expires e) then (c, RDone (e_ips e)) else
          if e_pending e then
            let ch := next_chan c in
            (mkCache (<[l := add_waiter e ch]> (heap c)) (entries c) (mail c) (next_entry c) (S ch), RWait ch)
          else lookup
      | None => lookup
      end
  end.

(** The second critical section: [result] is what the look-up returned, [None] for
    an error; the channels of the waiting calls are taken out of the entry. *)
Definition Resolve_settle (ttl : Z) (host : bytes) (l : nat) (result : option (list IPAddr)) (now : Time) (c : dnsCache)
    : dnsCache * list nat :=
  match heap c !! l with
  | None => (c, [])
  | Some e =>
      match result with
      | None =>
          (mkCache (<[l := mkEntry (e_ips e) (e_rrIndex e) (e_expires e) (e_goodIP e) false []]> (heap c))
             (delete host (entries c)) (mail c) (next_entry c) (next_chan c), e_waiters e)
      | Some ips =>
          (mkCache (<[l := mkEntry ips (e_rrIndex e) (Add now ttl) (e_goodIP e) false []]> (heap c))
             (entries c) (mail c) (next_entry c) (next_chan c), e_waiters e)
      end
  end.

(** A send to a waiter's channel, with room for one message, without the lock. *)
Definition Resolve_send (msg : option (list IPAddr)) (ch : nat) (c : dnsCache) : dnsCache :=
  mkCache (heap c) (entries c) (<[ch := msg]> (mail c)) (next_entry c) (next_chan c).

(** The two one after the other, with no other call between them. *)
Definition Resolve_finish (ttl : Z) (host : bytes) (l : nat) (result : option (list IPAddr)) (now : Time) (c : dnsCache) : dnsCache :=
  let '(c', waiters) := Resolve_settle ttl host l result now c in foldl (fun c ch => Resolve_send result ch c) c' waiters.

Definition GoodIP (host : bytes) (now : Time) (c : dnsCache) : option bytes :=
  match entry_of host c with
  | None => None
  | Some (_, e) => if After now (e_expires e) then None else e_goodIP e
  end.

Definition set_good (ip : option bytes) (e : dnsCacheEntry) : dnsCacheEntry :=
  mkEntry (e_ips e) (e_rrIndex e) (e_expires e) ip (e_pending e) (e_waiters e).

(** [now] is read for the comparison and again for the expiry. *)
Definition MarkGood (ttl : Z) (host : bytes) (ip : option bytes) (now now2 : Time) (c : dnsCache) : dnsCache :=
  match ip with
  | None => c
  | Some ip =>
      let fresh := new_entry host (mkEntry [(ip, [])] 0 (Add now2 ttl) (Some ip) false []) c in
      match entry_of host c with
      | Some (l, e) => if After now (e_expires e) then fresh else set_entry l (set_good (Some ip) e) c
      | None => fresh
      end
  end.

Definition ClearGood (host : bytes) (c : dnsCache) : dnsCache :=
  match entry_of host c with Some (l, e) => set_entry l (set_good None e) c | None => c end.

Definition set_index (i : Z) (e : dnsCacheEntry) : dnsCacheEntry :=
  mkEntry (e_ips e) i (e_expires e) (e_goodIP e) (e_pending e) (e_waiters e).

(** The choice itself, on the entry at [l]. *)
Definition take_candidate (l : nat) (e : dnsCacheEntry) (c : dnsCache) : dnsCache * res (option bytes) :=
  let i := if len (e_ips e) <=? e_rrIndex e then 0 else e_rrIndex e in
  match e_ips e !! Z.to_nat i with
  | Some (ip, _) => (set_entry l (set_index (Z.rem (i + 1) (len (e_ips e))) e) c, Ok (Some ip))
  | None => (c, Panic)
  end.

Definition NextCandidate (ttl : Z) (host : bytes) (ips : list IPAddr) (now now2 : Time) (c : dnsCache)
    : dnsCache * res (option bytes) :=
  match ips with
  | [] => (c, Ok None)
  | _ =>
      let e' := mkEntry ips 0 (Add now2 ttl) None false [] in
      let fresh := take_candidate (next_entry c) e' (new_entry host e' c) in
      match entry_of host c with
      | Some (l, e) => if After now (e_expires e) || (len (e_ips e) =? 0) then fresh else take_candidate l e c
      | None => fresh
      end
  end.

(** * All calls together *)

(** A call past its second critical section: its host, the result and the channels
    it still has to send it to. *)
Abbreviation delivery := (bytes * option (list IPAddr) * list nat)%type.

(** The look-ups in flight with the entries they will fill, the calls that wait on
    a channel, and the calls that answer them. *)
Record dns_state : Type := mkState {
  cache : dnsCache;
  flights : list (bytes * nat);
  waits : list (bytes * nat);
  sends : list delivery;
}.

Definition idle : dns_state := mkState empty_cache [] [] [].

Inductive dns_step (ttl : Z) : dns_state -> dns_state -> Prop :=
  | step_lookup c f w d h now c' l :
      Resolve_begin ttl h now c = (c', RLookup l) -> dns_step ttl (mkState c f w d) (mkState c' ((h, l) :: f) w d)
  | step_wait c f w d h now c' ch :
      Resolve_begin ttl h now c = (c', RWait ch) -> dns_step ttl (mkState c f w d) (mkState c' f ((h, ch) :: w) d)
  | step_settle c f1 f2 w d h l result now c' chans :
      Resolve_settle ttl h l result now c = (c', chans) ->
      dns_step ttl (mkState c (f1 ++ (h, l) :: f2) w d) (mkState c' (f1 ++ f2) w ((h, result, chans) :: d))
  | step_send c f w d1 d2 h msg ch chans :
      dns_step ttl (mkState c f w (d1 ++ (h, msg, ch :: chans) :: d2)) (mkState (Resolve_send msg ch c) f w (d1 ++ (h, msg, chans) :: d2))
  | step_receive c f w1 w2 d h ch msg :
      mail c !! ch = Some msg -> dns_step ttl (mkState c f (w1 ++ (h, ch) :: w2) d) (mkState c f (w1 ++ w2) d)
  | step_cancel c f w1 w2 d h ch :
      dns_step ttl (mkState c f (w1 ++ (h, ch) :: w2) d) (mkState c f (w1 ++ w2) d)
  | step_mark c f w d h ip now now2 : dns_step ttl (mkState c f w d) (mkState (MarkGood ttl h ip now now2 c) f w d)
  | step_clear c f w d h : dns_step ttl (mkState c f w d) (mkState (ClearGood h c) f w d)
  | step_next c f w d h ips now now2 : dns_step ttl (mkState c f w d) (mkState (fst (NextCandidate ttl h ips now now2 c)) f w d).

(** The channels that are still to be sent to. *)
Definition due (d : list delivery) : list nat := concat (map snd d).

(** The entries: names in use are below the next ones, hosts do not share an
    entry, and an entry is pending exactly while a look-up for it is in flight. *)
Record entries_ok (c : dnsCache) (f : list (bytes * nat)) : Prop := mkEntriesOk {
  ok_heap : forall l e, heap c !! l = Some e -> (l < next_entry c)%nat;
  ok_map : forall h l, entries c !! h = Some l -> is_Some (heap c !! l);
  ok_inj : forall h1 h2 l, entries c !! h1 = Some l -> entries c !! h2 = Some l -> h1 = h2;
  ok_flight : forall h l, (h, l) ∈ f -> exists e, heap c !! l = Some e /\ e_pending e = true;
  ok_nodup : NoDup (map snd f);
  ok_owner : forall h l e, entries c !! h = Some l -> heap c !! l = Some e -> e_pending e = true -> (h, l) ∈ f;
}.

(** The channels: a channel in a list of waiters is new and empty, in one list
    only and once, and the entry is pending; a channel that is still to be sent to is
    empty too, and in no list of waiters any more. *)
Record chans_ok (c : dnsCache) (d : list delivery) : Prop := mkChansOk {
  ok_waiter : forall l e ch, heap c !! l = Some e -> ch ∈ e_waiters e ->
    e_pending e = true /\ (ch < next_chan c)%nat /\ mail c !! ch = None;
  ok_once : forall l e, heap c !! l = Some e -> NoDup (e_waiters e);
  ok_one : forall l1 l2 e1 e2 ch, heap c !! l1 = Some e1 -> heap c !! l2 = Some e2 ->
    ch ∈ e_waiters e1 -> ch ∈ e_waiters e2 -> l1 = l2;
  ok_mail : forall ch, is_Some (mail c !! ch) -> (ch < next_chan c)%nat;
  ok_due : forall ch, ch ∈ due d -> (ch < next_chan c)%nat /\ mail c !! ch = None /\
    forall l e, heap c !! l = Some e -> ch ∉ e_waiters e;
  ok_due_once : NoDup (due d);
}.

(** A waiting call has its answer, or is registered with a look-up for its host, or
    the call that looked its host up is about to send it the result. *)
Definition answered_or_registered (s : dns_state) (h : bytes) (ch : nat) : Prop :=
  is_Some (mail (cache s) !! ch) \/
  (exists l e, (h, l) ∈ flights s /\ heap (cache s) !! l = Some e /\ ch ∈ e_waiters e) \/
  (exists msg chans, (h, msg, chans) ∈ sends s /\ ch ∈ chans).

Definition state_ok (s : dns_state) : Prop :=
  entries_ok (cache s) (flights s) /\ chans_ok (cache s) (sends s) /\
  forall h ch, (h, ch) ∈ waits s -> answered_or_registered s h ch.

Lemma entry_of_Some h c l e : entry_of h c = Some (l, e) -> entries c !! h = Some l /\ heap c !! l = Some e.
Proof. unfold entry_of. destruct (entries c !! h) as [l'|]; [|done]. destruct (heap c !! l') eqn:E; [|done]. by intros [= -> ->]. Qed.

(** Entries that differ in neither waiters nor state. *)
Definition alike (e1 e2 : dnsCacheEntry) : Prop := e_pending e1 = e_pending e2 /\ e_waiters e1 = e_waiters e2.

Lemma set_entry_ok s l e e' :
  state_ok s -> heap (cache s) !! l = Some e -> alike e e' ->
  state_ok (mkState (set_entry l e' (cache s)) (flights s) (waits s) (sends s)).
Proof.
  destruct s as [c f w d]. cbn [cache flights waits sends]. intros (He & Hc & Hw) Hl [Hp Hwt].
  assert (forall l0 e0, <[l := e']> (heap c) !! l0 = Some e0 ->
    exists e1, heap c !! l0 = Some e1 /\ e_pending e1 = e_pending e0 /\ e_waiters e1 = e_waiters e0) as Hback.
  { intros l0 e0. destruct (decide (l0 = l)) as [->|Hne]; [rewrite lookup_insert_eq|rewrite lookup_insert_ne by done; eauto].
    intros [= <-]. eauto. }
  assert (forall l0 e1, heap c !! l0 = Some e1 ->
    exists e0, <[l := e']> (heap c) !! l0 = Some e0 /\ e_pending e1 = e_pending e0 /\ e_waiters e1 = e_waiters e0) as Hforth.
  { intros l0 e1 H1. destruct (decide (l0 = l)) as [->|Hne]; [rewrite lookup_insert_eq|rewrite lookup_insert_ne by done; eauto].
    assert (e1 = e) as -> by congruence. eauto. }
  split_and!; [split|split|]; cbn [set_entry heap entries mail next_entry next_chan cache flights waits sends].
  - intros l0 e0 (e1 & H1 & _)%Hback. by eapply ok_heap.
  - intros h l0 Hm. destruct (ok_map _ _ He _ _ Hm) as [e1 (e0 & H0 & _)%Hforth]. eauto.
  - apply He.
  - intros h l0 Hf. destruct (ok_flight _ _ He _ _ Hf) as (e1 & (e0 & H0 & E & _)%Hforth & H1). exists e0. split; [done|congruence].
  - apply He.
  - intros h l0 e0 Hm (e1 & H1 & E & _)%Hback H0. eapply ok_owner; [done..|congruence].
  - intros l0 e0 ch (e1 & H1 & E & E2)%Hback H0. rewrite <- E2 in H0. rewrite <- E. by eapply ok_waiter.
  - intros l0 e0 (e1 & H1 & E & E2)%Hback. rewrite <- E2. by eapply ok_once.
  - intros l1 l2 e1 e2 ch (e3 & H3 & _ & E3)%Hback (e4 & H4 & _ & E4)%Hback. rewrite <- E3, <- E4. by eapply ok_one.
  - apply Hc.
  - intros ch (D1 & D2 & D3)%(ok_due _ _ Hc). split_and!; [done|done|]. intros l0 e0 (e1 & H1 & _ & <-)%Hback. by eapply D3.
  - apply Hc.
  - intros h ch Hin. destruct (Hw _ _ Hin) as [Hmail|[(l0 & e0 & Hf & (e1 & H1 & _ & E)%Hforth & Hch)|Hd]]; [by left| |by right; right].
    right; left. exists l0, e1. by rewrite <- E.
Qed.

(** A new entry without waiters in place of the one of a host; it is pending
    exactly if a look-up for it is started. *)
Lemma new_entry_ok s h e f' :
  state_ok s -> e_waiters e = [] -> f' = (if e_pending e then (h, next_entry (cache s)) :: flights s else flights s) ->
  state_ok (mkState (new_entry h e (cache s)) f' (waits s) (sends s)).
Proof.
  destruct s as [c f w d]. cbn [cache flights waits sends]. intros (He & Hc & Hw) Hwt ->. cbn [cache flights waits sends] in He, Hc, Hw.
  set (n := next_entry c).
  assert (heap c !! n = None) as Hn.
  { destruct (heap c !! n) eqn:E; [|done]. apply (ok_heap _ _ He) in E. unfold n in E. lia. }
  assert (forall l0 e0, <[n := e]> (heap c) !! l0 = Some e0 -> l0 = n /\ e0 = e \/ l0 <> n /\ heap c !! l0 = Some e0) as Hback.
  { intros l0 e0. destruct (decide (l0 = n)) as [->|Hne]; [rewrite lookup_insert_eq|rewrite lookup_insert_ne by done; auto]. intros [= <-]. auto. }
  assert (forall l0 e0, heap c !! l0 = Some e0 -> <[n := e]> (heap c) !! l0 = Some e0) as Hforth.
  { intros l0 e0 H0. rewrite lookup_insert_ne; [done|]. intros <-. congruence. }
  assert (forall h' l0, <[h := n]> (entries c) !! h' = Some l0 -> h' = h /\ l0 = n \/ h' <> h /\ entries c !! h' = Some l0 /\ l0 <> n) as Hent.
  { intros h' l0. destruct (decide (h' = h)) as [->|Hne]; [rewrite lookup_insert_eq; intros [= <-]; auto|].
    rewrite lookup_insert_ne by done. intros H0. right. split_and!; [done|done|]. intros ->. destruct (ok_map _ _ He _ _ H0). congruence. }
  assert (forall h' l', (h', l') ∈ (if e_pending e then (h, n) :: f else f) <-> (e_pending e = true /\ h' = h /\ l' = n) \/ (h', l') ∈ f) as Hfl.
  { intros h' l'. destruct (e_pending e); [rewrite elem_of_cons|].
    - split; [intros [[= -> ->]|H0]; auto|intros [(_ & -> & ->)|H0]; auto].
    - split; [auto|intros [[H0 _]|H0]; done]. }
  split_and!; [split|split|]; cbn [new_entry heap entries mail next_entry next_chan cache flights waits sends]; fold n.
  - intros l0 e0 [[-> _]|[_ H0%(ok_heap _ _ He)]]%Hback; unfold n in *; lia.
  - intros h' l0 [[-> ->]|(_ & H0 & _)]%Hent; [rewrite lookup_insert_eq; eauto|].
    destruct (ok_map _ _ He _ _ H0) as [e0 H1%Hforth]. eauto.
  - intros h1 h2 l0 [[-> ->]|(N1 & H1 & N1')]%Hent [[-> E]|(N2 & H2 & N2')]%Hent; try done. by eapply ok_inj.
  - intros h' l' [(Ep & -> & ->)|H0]%Hfl; [exists e; by rewrite lookup_insert_eq|].
    destruct (ok_flight _ _ He _ _ H0) as (e0 & H1%Hforth & H2). eauto.
  - pose proof (ok_nodup _ _ He). destruct (e_pending e); [|done]. cbn [map snd]. constructor; [|done].
    intros ([h' l'] & El & Hin)%list_elem_of_fmap. cbn in El. subst l'. destruct (ok_flight _ _ He _ _ Hin) as (e0 & H1 & _). congruence.
  - intros h' l' e0 [[-> ->]|(_ & H0 & N)]%Hent [[E1 ->]|[N' H1]]%Hback Hp; try done; apply Hfl; [by left|]. right. by eapply ok_owner.
  - intros l0 e0 ch [[-> ->]|[_ H0]]%Hback; [rewrite Hwt; intros Hx; by apply elem_of_nil in Hx|]. by eapply ok_waiter.
  - intros l0 e0 [[-> ->]|[_ H0]]%Hback; [rewrite Hwt; constructor|]. by eapply ok_once.
  - intros l1 l2 e1 e2 ch [[-> ->]|[_ H1]]%Hback [[-> ->]|[_ H2]]%Hback; rewrite ?Hwt; intros X1 X2;
      try (by apply elem_of_nil in X1); try (by apply elem_of_nil in X2). by eapply ok_one.
  - apply Hc.
  - intros ch (D1 & D2 & D3)%(ok_due _ _ Hc). split_and!; [done|done|].
    intros l0 e0 [[-> ->]|[_ H0]]%Hback; [rewrite Hwt; apply not_elem_of_nil|by eapply D3].
  - apply Hc.
  - intros h' ch Hin. destruct (Hw _ _ Hin) as [Hmail|[(l0 & e0 & Hf & H1%Hforth & Hch)|Hd]]; [by left| |by right; right].
    right; left. exists l0, e0. split_and!; [|done|done]. apply Hfl. by right.
Qed.

Lemma wait_ok s h l e :
  state_ok s -> entries (cache s) !! h = Some l -> heap (cache s) !! l = Some e -> e_pending e = true ->
  let ch := next_chan (cache s) in
  state_ok (mkState (mkCache (<[l := add_waiter e ch]> (heap (cache s))) (entries (cache s)) (mail (cache s)) (next_entry (cache s)) (S ch))
    (flights s) ((h, ch) :: waits s) (sends s)).
Proof.
  destruct s as [c f w d]. intros (He & Hc & Hw) Hm Hl Hp ch. cbn [cache flights waits sends] in *.
  assert (forall l0 e0, <[l := add_waiter e ch]> (heap c) !! l0 = Some e0 ->
    l0 = l /\ e0 = add_waiter e ch \/ l0 <> l /\ heap c !! l0 = Some e0) as Hback.
  { intros l0 e0. destruct (decide (l0 = l)) as [->|Hne]; [rewrite lookup_insert_eq|rewrite lookup_insert_ne by done; auto]. intros [= <-]. auto. }
  assert (forall l0 e1, heap c !! l0 = Some e1 -> exists e0, <[l := add_waiter e ch]> (heap c) !! l0 = Some e0 /\
    e_pending e0 = e_pending e1 /\ forall x, x ∈ e_waiters e1 -> x ∈ e_waiters e0) as Hforth.
  { intros l0 e1 H1. destruct (decide (l0 = l)) as [->|Hne]; [rewrite lookup_insert_eq|rewrite lookup_insert_ne by done; eauto].
    assert (e1 = e) as -> by congruence. eexists. split_and!; [done|done|]. intros x Hx. cbn [add_waiter e_waiters]. apply elem_of_app. auto. }
  assert (forall l0 e0, heap c !! l0 = Some e0 -> ch ∉ e_waiters e0) as Hnew.
  { intros l0 e0 H0 Hin. destruct (ok_waiter _ _ Hc _ _ _ H0 Hin) as (_ & Hlt & _). unfold ch in Hlt. lia. }
  assert (mail c !! ch = None) as Hmail.
  { destruct (mail c !! ch) eqn:E; [|done]. pose proof (ok_mail _ _ Hc ch ltac:(eauto)) as Hlt. unfold ch in Hlt. lia. }
  split_and!; [split|split|]; cbn [heap entries mail next_entry next_chan cache flights waits sends].
  - intros l0 e0 [[-> ->]|[_ H0]]%Hback; by eapply ok_heap.
  - intros h' l0 H0. destruct (ok_map _ _ He _ _ H0) as [e1 (e0 & H1 & _)%Hforth]. eauto.
  - apply He.
  - intros h' l0 Hf. destruct (ok_flight _ _ He _ _ Hf) as (e1 & (e0 & H0 & E & _)%Hforth & H1). exists e0. split; [done|congruence].
  - apply He.
  - intros h' l0 e0 Hm' [[-> ->]|[_ H0]]%Hback Hp'; by eapply ok_owner.
  - intros l0 e0 x [[-> ->]|[_ H0]]%Hback; cbn [add_waiter e_waiters e_pending].
    + rewrite elem_of_app, list_elem_of_singleton. intros [Hx| ->]; [|split_and!; [done|lia|done]].
      destruct (ok_waiter _ _ Hc _ _ _ Hl Hx) as (H1 & H2 & H3). split_and!; [done|unfold ch; lia|done].
    + intros Hx. destruct (ok_waiter _ _ Hc _ _ _ H0 Hx) as (H1 & H2 & H3). split_and!; [done|unfold ch; lia|done].
  - intros l0 e0 [[-> ->]|[_ H0]]%Hback; [|by eapply ok_once]. cbn [add_waiter e_waiters]. apply NoDup_app.
    split_and!; [by eapply ok_once| |apply NoDup_singleton]. intros x Hx ->%list_elem_of_singleton. by apply (Hnew _ _ Hl).
  - intros l1 l2 e1 e2 x [[-> ->]|[N1 H1]]%Hback [[-> ->]|[N2 H2]]%Hback; cbn [add_waiter e_waiters]; [done| | |by eapply ok_one].
    + rewrite elem_of_app, list_elem_of_singleton. intros [Hx| ->] Hy; [by eapply ok_one|by destruct (Hnew _ _ H2)].
    + rewrite elem_of_app, list_elem_of_singleton. intros Hx [Hy| ->]; [by eapply ok_one|by destruct (Hnew _ _ H1)].
  - intros x Hx. pose proof (ok_mail _ _ Hc x Hx). unfold ch. lia.
  - intros x (D1 & D2 & D3)%(ok_due _ _ Hc). split_and!; [unfold ch; lia|done|].
    intros l0 e0 [[-> ->]|[_ H0]]%Hback; [|by eapply D3]. cbn [add_waiter e_waiters].
    rewrite elem_of_app, list_elem_of_singleton. intros [Hx| ->]; [by eapply D3|unfold ch in D1; lia].
  - apply Hc.
  - intros h' x [[= -> ->]|Hin]%elem_of_cons.
    + right; left. exists l, (add_waiter e ch). split_and!; [by eapply ok_owner|cbn; by rewrite lookup_insert_eq|].
      cbn [add_waiter e_waiters]. apply elem_of_app. right. by apply list_elem_of_singleton.
    + destruct (Hw _ _ Hin) as [Hx|[(l0 & e0 & Hf & (e1 & H1 & _ & Hsub)%Hforth & Hch)|Hd]]; [by left| |by right; right]. right; left. exists l0, e1. auto.
Qed.

Lemma sends_cache msg chans c :
  foldl (fun c ch => Resolve_send msg ch c) c chans =
    mkCache (heap c) (entries c) (foldl (fun m ch => <[ch := msg]> m) (mail c) chans) (next_entry c) (next_chan c).
Proof. revert c. induction chans as [|x chans IH]; intros c; [by destruct c|]. cbn [foldl]. by rewrite IH. Qed.

Lemma sends_lookup msg chans (m : gmap nat (option (list IPAddr))) ch :
  foldl (fun m ch => <[ch := msg]> m) m chans !! ch = if bool_decide (ch ∈ chans) then Some msg else m !! ch.
Proof.
  revert m. induction chans as [|x chans IH]; intros m; cbn [foldl]; [done|]. rewrite IH.
  destruct (decide (ch ∈ chans)) as [Hin|Hnin].
  - rewrite !bool_decide_eq_true_2; [done|by right|done].
  - rewrite (bool_decide_eq_false_2 (ch ∈ chans)) by done. destruct (decide (ch = x)) as [->|Hne].
    + rewrite lookup_insert_eq, bool_decide_eq_true_2; [done|by left].
    + rewrite lookup_insert_ne by done. rewrite bool_decide_eq_false_2; [done|]. by intros [|]%elem_of_cons.
Qed.

Lemma due_app (d1 d2 : list delivery) : due (d1 ++ d2) = due d1 ++ due d2.
Proof. unfold due. by rewrite map_app, concat_app. Qed.

Lemma due_in (d : list delivery) h msg chans ch : (h, msg, chans) ∈ d -> ch ∈ chans -> ch ∈ due d.
Proof. intros (d1 & d2 & ->)%list_elem_of_split Hch. rewrite due_app. cbn [due map concat snd]. rewrite !elem_of_app. auto. Qed.

(** The look-ups in flight without one of them. *)
Lemma flights_without (f1 f2 : list (bytes * nat)) h l :
  NoDup (map snd (f1 ++ (h, l) :: f2)) ->
  (forall h' l', (h', l') ∈ f1 ++ f2 -> (h', l') ∈ f1 ++ (h, l) :: f2 /\ l' <> l) /\
  (forall h' l', (h', l') ∈ f1 ++ (h, l) :: f2 -> l' <> l -> (h', l') ∈ f1 ++ f2) /\
  NoDup (map snd (f1 ++ f2)).
Proof.
  rewrite !map_app. cbn [map snd]. intros (N1 & Hd & [Hn N2]%NoDup_cons)%NoDup_app. split_and!.
  - intros h' l' Hin. split; [rewrite elem_of_app, elem_of_cons in *; tauto|]. intros ->.
    apply elem_of_app in Hin as [Hin|Hin]; apply (list_elem_of_fmap_2 snd) in Hin; [|by apply Hn]. apply (Hd l Hin). by left.
  - intros h' l'. rewrite !elem_of_app, elem_of_cons. intros [H0|[[= -> ->]|H0]] Hne; tauto.
  - apply NoDup_app. split_and!; [done| |done]. intros x H1 H2. apply (Hd x H1). by right.
Qed.

Lemma flight_host (f : list (bytes * nat)) h1 h2 (l : nat) : NoDup (map snd f) -> (h1, l) ∈ f -> (h2, l) ∈ f -> h1 = h2.
Proof.
  intros Hnd (f1 & f2 & ->)%list_elem_of_split H2. destruct (flights_without _ _ _ _ Hnd) as (Hrest & _ & _).
  apply elem_of_app in H2 as [H2|[[= ->]|H2]%elem_of_cons]; [|done|]; by destruct (Hrest h2 l) as [_ []]; [apply elem_of_app; auto|].
Qed.

Lemma settle_ok ttl c f1 f2 w d h l result now c' chans :
  state_ok (mkState c (f1 ++ (h, l) :: f2) w d) -> Resolve_settle ttl h l result now c = (c', chans) ->
  state_ok (mkState c' (f1 ++ f2) w ((h, result, chans) :: d)).
Proof.
  intros (He & Hc & Hw) Hset. cbn [cache flights waits sends] in He, Hc, Hw.
  assert ((h, l) ∈ f1 ++ (h, l) :: f2) as Hfl by (apply elem_of_app; right; by left).
  destruct (ok_flight _ _ He _ _ Hfl) as (e & Hl & Hp).
  destruct (flights_without _ _ _ _ (ok_nodup _ _ He)) as (Hrest & Hkeep & Hnd).
  set (e' := match result with Some ips => mkEntry ips (e_rrIndex e) (Add now ttl) (e_goodIP e) false []
             | None => mkEntry (e_ips e) (e_rrIndex e) (e_expires e) (e_goodIP e) false [] end).
  assert (c' = mkCache (<[l := e']> (heap c)) (match result with Some _ => entries c | None => delete h (entries c) end)
      (mail c) (next_entry c) (next_chan c) /\ chans = e_waiters e) as [-> ->]
    by (revert Hset; unfold Resolve_settle; rewrite Hl; destruct result; by intros [= <- <-]).
  assert (e_pending e' = false /\ e_waiters e' = []) as [Hp' Hw'] by (by destruct result).
  assert (forall l0 e0, <[l := e']> (heap c) !! l0 = Some e0 -> l0 = l /\ e0 = e' \/ l0 <> l /\ heap c !! l0 = Some e0) as Hback.
  { intros l0 e0. destruct (decide (l0 = l)) as [->|Hne]; [rewrite lookup_insert_eq|rewrite lookup_insert_ne by done; auto]. intros [= <-]. auto. }
  assert (forall h' l0, match result with Some _ => entries c | None => delete h (entries c) end !! h' = Some l0 -> entries c !! h' = Some l0) as Hent.
  { intros h' l0. destruct result; [done|]. by intros [_ ?]%lookup_delete_Some. }
  split_and!; [split|split|]; cbn [heap entries mail next_entry next_chan cache flights waits sends].
  - intros l0 e0 [[-> ->]|[_ H0]]%Hback; by eapply ok_heap.
  - intros h' l0 H0%Hent%(ok_map _ _ He). destruct (decide (l0 = l)) as [->|Hne]; [rewrite lookup_insert_eq; eauto|by rewrite lookup_insert_ne].
  - intros h1 h2 l0 H1%Hent H2%Hent. by eapply ok_inj.
  - intros h' l0 [Hin Hne]%Hrest. rewrite lookup_insert_ne by done. by eapply ok_flight.
  - done.
  - intros h' l0 e0 Hm%Hent [[-> ->]|[Hne H0]]%Hback Hpe; [congruence|]. apply Hkeep; [by eapply ok_owner|done].
  - intros l0 e0 x [[-> ->]|[Hne H0]]%Hback Hx; [rewrite Hw' in Hx; by apply elem_of_nil in Hx|].
    by eapply ok_waiter.
  - intros l0 e0 [[-> ->]|[_ H0]]%Hback; [rewrite Hw'; constructor|by eapply ok_once].
  - intros l1 l2 e1 e2 x [[-> ->]|[_ H1]]%Hback [[-> ->]|[_ H2]]%Hback; rewrite ?Hw'; intros X1 X2;
      try (by apply elem_of_nil in X1); try (by apply elem_of_nil in X2). by eapply ok_one.
  - apply Hc.
  - intros x. cbn [due map concat snd]. rewrite elem_of_app. intros [Hx|(D1 & D2 & D3)%(ok_due _ _ Hc)].
    + destruct (ok_waiter _ _ Hc _ _ _ Hl Hx) as (_ & H2 & H3). split_and!; [done|done|].
      intros l0 e0 [[-> ->]|[Hne H0]]%Hback; [rewrite Hw'; apply not_elem_of_nil|]. intros Hx2. by apply Hne, (ok_one _ _ Hc l0 l e0 e x).
    + split_and!; [done|done|]. intros l0 e0 [[-> ->]|[Hne H0]]%Hback; [rewrite Hw'; apply not_elem_of_nil|by eapply D3].
  - cbn [due map concat snd]. apply NoDup_app. split_and!; [by eapply ok_once| |apply Hc]. intros x Hx (_ & _ & D3)%(ok_due _ _ Hc). by eapply D3.
  - intros h' x Hin. unfold answered_or_registered. cbn [heap mail cache flights sends].
    destruct (Hw _ _ Hin) as [Hm|[(l0 & e0 & Hf & H0 & Hch)|(msg & chans & Hd & Hx)]]; [by left| |right; right; exists msg, chans; split; [by right|done]].
    right. cbn [cache heap flights] in *. destruct (decide (l0 = l)) as [->|Hne].
    + right. exists result, (e_waiters e). assert (e0 = e) as -> by congruence. split; [|done].
      assert (h' = h) as -> by exact (flight_host _ _ _ _ (ok_nodup _ _ He) Hf Hfl). by left.
    + left. exists l0, e0. rewrite lookup_insert_ne by done. auto.
Qed.

Lemma send_ok c f w d1 d2 h msg ch chans :
  state_ok (mkState c f w (d1 ++ (h, msg, ch :: chans) :: d2)) ->
  state_ok (mkState (Resolve_send msg ch c) f w (d1 ++ (h, msg, chans) :: d2)).
Proof.
  intros (He & Hc & Hw). cbn [cache flights waits sends] in He, Hc, Hw.
  assert (due (d1 ++ (h, msg, ch :: chans) :: d2) ≡ₚ ch :: due (d1 ++ (h, msg, chans) :: d2)) as Hp.
  { rewrite !due_app. cbn [due map concat snd app]. by rewrite <- Permutation_middle. }
  pose proof (ok_due_once _ _ Hc) as Hnd. rewrite Hp in Hnd. apply NoDup_cons in Hnd as [Hnew Hnd].
  assert (ch ∈ due (d1 ++ (h, msg, ch :: chans) :: d2)) as Hch by (rewrite Hp; by left).
  destruct (ok_due _ _ Hc _ Hch) as (C1 & C2 & C3).
  split_and!; [by destruct He|split|]; cbn [Resolve_send heap entries mail next_entry next_chan cache flights waits sends].
  - intros l0 e0 x H0 Hx. destruct (ok_waiter _ _ Hc _ _ _ H0 Hx) as (H1 & H2 & H3). split_and!; [done|done|].
    rewrite lookup_insert_ne; [done|]. intros <-. by eapply C3.
  - apply Hc.
  - apply Hc.
  - intros x. destruct (decide (x = ch)) as [->|Hne]; [done|]. rewrite lookup_insert_ne by done. apply Hc.
  - intros x Hx. destruct (ok_due _ _ Hc x) as (D1 & D2 & D3); [rewrite Hp; by right|]. split_and!; [done| |done].
    rewrite lookup_insert_ne; [done|]. by intros <-.
  - done.
  - intros h' x Hin. unfold answered_or_registered. cbn [Resolve_send heap mail cache flights sends].
    destruct (decide (x = ch)) as [->|Hne]; [left; by rewrite lookup_insert_eq|]. rewrite lookup_insert_ne by done.
    destruct (Hw _ _ Hin) as [Hm|[Hr|(m & cs & Hd & Hx)]]; [by left|by right; left|]. right; right. cbn [sends] in Hd.
    apply elem_of_app in Hd as [Hd|[[= -> -> ->]|Hd]%elem_of_cons]; [exists m, cs|exists msg, chans|exists m, cs];
      (split; [apply elem_of_app; rewrite ?elem_of_cons; tauto|]); [done| |done].
    by apply elem_of_cons in Hx as [|].
Qed.

Lemma waits_sub c f w w' d : (forall x, x ∈ w' -> x ∈ w) -> state_ok (mkState c f w d) -> state_ok (mkState c f w' d).
Proof. intros Hsub (He & Hc & Hw). split_and!; [done|done|]. intros h ch Hin. by apply Hw, Hsub. Qed.

Lemma begin_cases ttl h now c c' r :
  Resolve_begin ttl h now c = (c', r) ->
  match r with
  | RLookup l => l = next_entry c /\ c' = new_entry h (mkEntry [] 0 zeroTime None true []) c
  | RWait ch => exists l e, entries c !! h = Some l /\ heap c !! l = Some e /\ e_pending e = true /\ ch = next_chan c /\
      c' = mkCache (<[l := add_waiter e ch]> (heap c)) (entries c) (mail c) (next_entry c) (S ch)
  | _ => c' = c
  end.
Proof.
  unfold Resolve_begin. destruct (ParseIP h); [by intros [= <- <-]|]. destruct (ttl <=? 0); [by intros [= <- <-]|].
  destruct (entry_of h c) as [[l e]|] eqn:E; [|by intros [= <- <-]]. apply entry_of_Some in E as [E1 E2].
  destruct (Before now _); [by intros [= <- <-]|]. destruct (e_pending e) eqn:Ep; [|by intros [= <- <-]].
  intros [= <- <-]. exists l, e. done.
Qed.

Lemma take_candidate_ok c f w d l e :
  state_ok (mkState c f w d) -> heap c !! l = Some e -> state_ok (mkState (fst (take_candidate l e c)) f w d).
Proof.
  intros Hs Hl. unfold take_candidate. cbv zeta. destruct (e_ips e !! _) as [[ip z]|]; [|done]. cbn [fst]. by eapply (set_entry_ok (mkState c f w d)).
Qed.

Lemma dns_step_ok ttl s s' : dns_step ttl s s' -> state_ok s -> state_ok s'.
Proof.
  intros Hstep Hs. destruct Hstep as [c f w d h now c' l Hb|c f w d h now c' ch Hb|c f1 f2 w d h l r now c' chans Hset|c f w d1 d2 h msg ch chans
    |c f w1 w2 d h ch msg _|c f w1 w2 d h ch|c f w d h ip now now2|c f w d h|c f w d h ips now now2].
  - apply begin_cases in Hb as [-> ->]. by apply (new_entry_ok (mkState c f w d)).
  - apply begin_cases in Hb as (l & e & Hm & Hl & Hp & -> & ->). by apply (wait_ok (mkState c f w d)).
  - by eapply settle_ok.
  - by apply send_ok.
  - eapply waits_sub; [|done]. intros x. rewrite !elem_of_app, elem_of_cons. tauto.
  - eapply waits_sub; [|done]. intros x. rewrite !elem_of_app, elem_of_cons. tauto.
  - unfold MarkGood. destruct ip as [ip|]; [|done]. cbv zeta. destruct (entry_of h c) as [[l e]|] eqn:E; [|by apply (new_entry_ok (mkState c f w d))].
    apply entry_of_Some in E as [_ E]. destruct (After now _); [by apply (new_entry_ok (mkState c f w d))|]. by eapply (set_entry_ok (mkState c f w d)).
  - unfold ClearGood. destruct (entry_of h c) as [[l e]|] eqn:E; [|done]. apply entry_of_Some in E as [_ E]. by eapply (set_entry_ok (mkState c f w d)).
  - unfold NextCandidate. destruct ips as [|i ips]; [done|]. cbv zeta.
    assert (forall e, e_pending e = false -> e_waiters e = [] -> state_ok (mkState (fst (take_candidate (next_entry c) e (new_entry h e c))) f w d)) as Hnew.
    { intros e E1 E2. apply take_candidate_ok; [|cbn; apply lookup_insert_eq]. apply (new_entry_ok (mkState c f w d)); [done|done|by rewrite E1]. }
    destruct (entry_of h c) as [[l e]|] eqn:E; [|by apply Hnew]. destruct (_ || _); [by apply Hnew|].
    apply entry_of_Some in E as [_ E]. by apply take_candidate_ok.
Qed.

Lemma idle_ok : state_ok idle.
Proof.
  split_and!; [split|split|]; cbn [idle empty_cache cache flights waits heap entries mail next_entry next_chan].
  all: try (intros *; rewrite lookup_empty; done).
  - intros h l Hin. by apply elem_of_nil in Hin.
  - constructor.
  - intros ch Hin. by apply elem_of_nil in Hin.
  - constructor.
  - intros h ch Hin. by apply elem_of_nil in Hin.
Qed.

Lemma reachable_ok_dns ttl s : rtc (dns_step ttl) idle s -> state_ok s.
Proof.
  enough (forall s0, rtc (dns_step ttl) s0 s -> state_ok s0 -> state_ok s) as H by (intros Hr; apply (H _ Hr idle_ok)).
  intros s0 Hr. induction Hr as [|s0 s1 s2 Hs _ IH]; [done|]. intros H0. apply IH. by eapply dns_step_ok.
Qed.

Lemma finish_mail ttl h l e result now c ch :
  heap c !! l = Some e -> ch ∈ e_waiters e -> mail (Resolve_finish ttl h l result now c) !! ch = Some result.
Proof.
  intros Hl Hch. unfold Resolve_finish, Resolve_settle. rewrite Hl.
  destruct result; rewrite sends_cache; cbn [mail]; rewrite sends_lookup; by rewrite bool_decide_eq_true_2.
Qed.

(** C32: no caller of [Resolve] is lost.  In every state that any interleaving of calls,
    answers, cancellations and updates of the cache can reach, the sends to the
    waiting calls made one by one after the lock is released: a call that waits has
    its answer in its channel, or is registered with a look-up in flight for its own
    host, or the call that looked its host up has the result and still sends it to
    that channel.  When the look-up ends, all calls registered with it are sent its
    result; a send finds its channel empty, so it never blocks, and puts the result
    there; without another call in between all of them have it at once.  The entry
    of a host is pending exactly while the look-up that will fill it is in flight,
    and then no further look-up is started for the host. *)
Theorem dns_waiters_answered (ttl : Z) (s : dns_state) (Hreach : rtc (dns_step ttl) idle s) :
  (forall h ch, (h, ch) ∈ waits s -> answered_or_registered s h ch) /\
  (forall h l e result now, (h, l) ∈ flights s -> heap (cache s) !! l = Some e ->
     snd (Resolve_settle ttl h l result now (cache s)) = e_waiters e /\
     forall ch, ch ∈ e_waiters e ->
       mail (cache s) !! ch = None /\ mail (Resolve_finish ttl h l result now (cache s)) !! ch = Some result) /\
  (forall h msg chans ch, (h, msg, chans) ∈ sends s -> ch ∈ chans ->
     mail (cache s) !! ch = None /\ mail (Resolve_send msg ch (cache s)) !! ch = Some msg) /\
  (forall h l e, entries (cache s) !! h = Some l -> heap (cache s) !! l = Some e -> (e_pending e = true <-> (h, l) ∈ flights s)) /\
  (forall h l now l', entries (cache s) !! h = Some l -> (h, l) ∈ flights s -> snd (Resolve_begin ttl h now (cache s)) <> RLookup l').
Proof.
  destruct (reachable_ok_dns ttl s Hreach) as (He & Hc & Hw). split; [done|split; [|split; [|split]]].
  - intros h l e result now Hf Hl. split; [unfold Resolve_settle; rewrite Hl; by destruct result|].
    intros ch Hch. destruct (ok_waiter _ _ Hc _ _ _ Hl Hch) as (_ & _ & Hm). split; [done|]. by eapply finish_mail.
  - intros h msg chans ch Hd Hch. destruct (ok_due _ _ Hc ch (due_in _ _ _ _ _ Hd Hch)) as (_ & Hm & _). split; [done|].
    cbn [Resolve_send mail]. apply lookup_insert_eq.
  - intros h l e Hm Hl. split; [by eapply ok_owner|]. intros Hf. destruct (ok_flight _ _ He _ _ Hf) as (e1 & H1 & H2). congruence.
  - intros h l now l' Hm Hf. destruct (ok_flight _ _ He _ _ Hf) as (e & Hl & Hp). unfold Resolve_begin.
    destruct (ParseIP h); [done|]. destruct (ttl <=? 0); [done|]. unfold entry_of. rewrite Hm, Hl. destruct (Before now _); [done|]. by rewrite Hp.
Qed.

Lemma entry_of_new h e c : entry_of h (new_entry h e c) = Some (next_entry c, e).
Proof. unfold entry_of, new_entry. cbn [entries heap]. by rewrite !lookup_insert_eq. Qed.

(** A look-up that fails takes away what was learned meanwhile.  If an address of
    the host is found good while a look-up for it is in flight, and the look-up
    then fails, the cache no longer knows the good address, although it was
    recorded with its full life time. *)
Theorem failed_lookup_forgets_good (ttl : Z) (h ip : bytes) (t0 t1 t2 t3 : Time) (c c' : dnsCache) (l : nat)
    (Hbegin : Resolve_begin ttl h t0 c = (c', RLookup l)) (Hlate : After t1 zeroTime = true) (Hfresh : After t2 (Add t1 ttl) = false) :
  let c1 := MarkGood ttl h (Some ip) t1 t1 c' in
  GoodIP h t2 c1 = Some ip /\ GoodIP h t2 (Resolve_finish ttl h l None t3 c1) = None.
Proof.
  apply begin_cases in Hbegin as [-> ->]. intros c1.
  assert (entry_of h c1 = Some (S (next_entry c), mkEntry [(ip, [])] 0 (Add t1 ttl) (Some ip) false [])) as E1.
  { unfold c1, MarkGood. cbv zeta. rewrite entry_of_new. cbn [e_expires]. rewrite Hlate. apply entry_of_new. }
  unfold GoodIP at 1. rewrite E1. cbn [e_expires e_goodIP]. rewrite Hfresh. split; [done|].
  unfold GoodIP, entry_of, Resolve_finish, Resolve_settle. destruct (heap c1 !! next_entry c) as [e|] eqn:El.
  - rewrite sends_cache. cbn [entries]. by rewrite lookup_delete_eq.
  - exfalso. unfold c1, MarkGood in El. cbv zeta in El.
    rewrite entry_of_new in El. cbn [e_expires] in El. rewrite Hlate in El. cbn [new_entry heap next_entry] in El.
    rewrite lookup_insert_ne in El by lia. by rewrite lookup_insert_eq in El.
Qed.

(** * Candidates *)

(** [n] calls of [NextCandidate], at the given readings of the clock. *)
Fixpoint candidates_of (ttl : Z) (host : bytes) (ips : list IPAddr) (clock : list Time) (c : dnsCache) : dnsCache * list (res (option bytes)) :=
  match clock with
  | [] => (c, [])
  | now :: clock =>
      let '(c1, r) := NextCandidate ttl host ips now now c in
      let '(c2, rs) := candidates_of ttl host ips clock c1 in (c2, r :: rs)
  end.

(** The addresses of a list, by turns from an index on. *)
Definition in_turn (ips : list IPAddr) (i : Z) (n : nat) : list (res (option bytes)) :=
  map (fun k => match ips !! Z.to_nat ((i + Z.of_nat k) mod len ips) with Some (ip, _) => Ok (Some ip) | None => Panic end) (seq 0 n).

Lemma in_turn_cons ips i n :
  0 <= i < len ips ->
  in_turn ips i (S n) = match ips !! Z.to_nat i with Some (ip, _) => Ok (Some ip) | None => Panic end :: in_turn ips ((i + 1) mod len ips) n.
Proof.
  intros Hi. unfold in_turn. cbn [seq map]. f_equal; [by rewrite Z.add_0_r, Z.mod_small by lia|].
  rewrite <- seq_shift, map_map. apply map_ext. intros k. rewrite Zplus_mod_idemp_l. by replace (i + Z.of_nat (S k)) with (i + 1 + Z.of_nat k) by lia.
Qed.

Lemma candidates_cached ttl host given clock c l e :
  entry_of host c = Some (l, e) -> given <> [] -> e_ips e <> [] -> 0 <= e_rrIndex e < len (e_ips e) ->
  Forall (fun now => After now (e_expires e) = false) clock ->
  snd (candidates_of ttl host given clock c) = in_turn (e_ips e) (e_rrIndex e) (length clock).
Proof.
  intros He Hg Hne Hi Hc. revert c e He Hne Hi Hc. induction clock as [|now clock IH]; intros c e He Hne Hi Hc; [done|].
  inversion_clear Hc as [|? ? Hnow Hc']. cbn [candidates_of length in_turn]. unfold NextCandidate. destruct given as [|g given]; [done|].
  cbv zeta. rewrite He, Hnow. rewrite (proj2 (Z.eqb_neq _ _)) by lia. cbn [orb]. unfold take_candidate.
  rewrite (proj2 (Z.leb_gt _ _)) by lia. destruct (lookup_lt_is_Some_2 (e_ips e) (Z.to_nat (e_rrIndex e))) as [[ip z] Hip]; [unfold len in Hi; lia|].
  rewrite Hip. set (c1 := set_entry _ _ _). set (i' := Z.rem (e_rrIndex e + 1) (len (e_ips e))).
  assert (entry_of host c1 = Some (l, set_index i' e)) as He1.
  { apply entry_of_Some in He as [E1 _]. unfold entry_of, c1, set_entry. cbn [entries heap]. by rewrite E1, lookup_insert_eq. }
  assert (i' = (e_rrIndex e + 1) mod len (e_ips e)) as Hi' by (unfold i'; rewrite Z.rem_mod_nonneg; lia).
  specialize (IH c1 (set_index i' e) He1 Hne). cbn [set_index e_ips e_rrIndex e_expires] in IH.
  destruct (candidates_of ttl host (g :: given) clock c1) as [c2 rs]. cbn [snd] in *.
  rewrite in_turn_cons by lia. rewrite Hip, <- Hi'. f_equal. apply IH; [|done]. rewrite Hi'. apply Z.mod_pos_bound. lia.
Qed.

Lemma in_turn_all ips n ip z : (length ips <= n)%nat -> (ip, z) ∈ ips -> Ok (Some ip) ∈ in_turn ips 0 n.
Proof.
  intros Hn [k Hk]%list_elem_of_lookup. pose proof (lookup_lt_Some _ _ _ Hk) as Hlt. unfold in_turn.
  apply list_elem_of_In, in_map_iff. exists k. split; [|apply in_seq; lia].
  rewrite Z.add_0_l, Z.mod_small by (unfold len; lia). by rewrite Nat2Z.id, Hk.
Qed.

(** Candidates are tried by turns.  For a host without a live entry, calls of
    [NextCandidate] return the given addresses in their order and start over
    after the last, as long as the entry made by the first call lives; so every
    address is returned within as many calls as there are addresses, and no call
    panics. *)
Theorem candidates_rotate (ttl : Z) (host : bytes) (ips : list IPAddr) (now : Time) (clock : list Time) (c : dnsCache)
    (Hne : ips <> [])
    (Hdead : match entry_of host c with Some (_, e) => After now (e_expires e) = true \/ e_ips e = [] | None => True end)
    (Hlive : Forall (fun t => After t (Add now ttl) = false) clock) :
  snd (candidates_of ttl host ips (now :: clock) c) = in_turn ips 0 (S (length clock)) /\
  ((length ips <= S (length clock))%nat ->
   forall ip z, (ip, z) ∈ ips -> Ok (Some ip) ∈ snd (candidates_of ttl host ips (now :: clock) c)).
Proof.
  assert (0 < len ips) as Hl by (destruct ips; [done|rewrite len_cons; pose proof (len_nonneg ips); lia]).
  assert (snd (candidates_of ttl host ips (now :: clock) c) = in_turn ips 0 (S (length clock))) as E.
  { cbn [candidates_of].
    set (e := mkEntry ips 0 (Add now ttl) None false []).
    assert (NextCandidate ttl host ips now now c = take_candidate (next_entry c) e (new_entry host e c)) as ->.
    { unfold NextCandidate. destruct ips as [|i ips]; [done|]. cbv zeta. destruct (entry_of host c) as [[l e0]|]; [|done].
      destruct Hdead as [->|E0]; [done|]. rewrite E0. by rewrite orb_true_r. }
    unfold take_candidate. cbn [e e_ips e_rrIndex]. rewrite (proj2 (Z.leb_gt _ _)) by lia.
    destruct (lookup_lt_is_Some_2 ips (Z.to_nat 0)) as [[ip z] Hip]; [unfold len in Hl; lia|]. rewrite Hip.
    set (c1 := set_entry _ _ _).
    assert (entry_of host c1 = Some (next_entry c, set_index (Z.rem (0 + 1) (len ips)) e)) as He.
    { unfold entry_of, c1, set_entry, new_entry. cbn [entries heap]. by rewrite lookup_insert_eq, lookup_insert_eq. }
    pose proof (candidates_cached ttl host ips clock c1 _ _ He Hne Hne) as Hc. cbn [set_index e e_ips e_rrIndex e_expires] in Hc.
    assert (Z.rem (0 + 1) (len ips) = (0 + 1) mod len ips) as Hr by (rewrite Z.rem_mod_nonneg; lia). rewrite Hr in Hc.
    destruct (candidates_of ttl host ips clock c1) as [c2 rs]. cbn [snd] in *. rewrite in_turn_cons by lia. rewrite Hip.
    rewrite Hc; [done|apply Z.mod_pos_bound; lia|done]. }
  split; [done|]. intros Hn ip z Hin. rewrite E. by eapply in_turn_all.
Qed.

(** Two calls wait for a look-up, which ends and has sent to the first of them: the
    first has its answer, the second one's send is due and finds its channel empty. *)
Lemma dns_waiters_answered_witness :
  let h := bs "example.com" in
  let result := Some [(bs "a", [])] in
  let c1 := fst (Resolve_begin 5 h (now_at 0 0) empty_cache) in
  let c2 := fst (Resolve_begin 5 h (now_at 1 1) c1) in
  let c3 := fst (Resolve_begin 5 h (now_at 1 1) c2) in
  let c4 := Resolve_send result 0 (fst (Resolve_settle 5 h 0 result (now_at 2 2) c3)) in
  let s := mkState c4 [] [(h, 1%nat); (h, 0%nat)] [(h, result, [1%nat])] in
  answered_or_registered s h 0 /\ answered_or_registered s h 1 /\ mail c4 !! 0%nat = Some result /\
  mail c4 !! 1%nat = None /\ mail (Resolve_send result 1 c4) !! 1%nat = Some result.
Proof.
  intros h result c1 c2 c3 c4 s.
  assert (rtc (dns_step 5) idle s) as Hr.
  { eapply rtc_l; [apply (step_lookup 5 empty_cache [] [] [] h (now_at 0 0) c1 0); by vm_compute|].
    eapply rtc_l; [apply (step_wait 5 c1 [(h, 0%nat)] [] [] h (now_at 1 1) c2 0); by vm_compute|].
    eapply rtc_l; [apply (step_wait 5 c2 [(h, 0%nat)] [(h, 0%nat)] [] h (now_at 1 1) c3 1); by vm_compute|].
    eapply rtc_l; [apply (step_settle 5 c3 [] [] [(h, 1%nat); (h, 0%nat)] [] h 0 result (now_at 2 2) (fst (Resolve_settle 5 h 0 result (now_at 2 2) c3)) [0%nat; 1%nat]);
      vm_compute; reflexivity|].
    eapply rtc_l; [apply (step_send 5 _ [] _ [] [] h result 0 [1%nat])|]. constructor. }
  destruct (dns_waiters_answered 5 s Hr) as (H1 & _ & H3 & _).
  split; [apply H1; right; by left|]. split; [apply H1; by left|]. split; [vm_compute; reflexivity|].
  apply (H3 h result [1%nat] 1%nat); by left.
Defined.

Lemma candidates_rotate_witness :
  snd (candidates_of 5 (bs "h") [(bs "a", []); (bs "b", [])] [now_at 0 0; now_at 1 1; now_at 2 2] empty_cache)
  = [Ok (Some (bs "a")); Ok (Some (bs "b")); Ok (Some (bs "a"))].
Proof.
  destruct (candidates_rotate 5 (bs "h") [(bs "a", []); (bs "b", [])] (now_at 0 0) [now_at 1 1; now_at 2 2] empty_cache) as [-> _];
    [done|by vm_compute|repeat constructor; by vm_compute|by vm_compute].
Defined.

Lemma failed_lookup_forgets_good_witness :
  let c' := fst (Resolve_begin 5 (bs "h") (now_at 0 0) empty_cache) in
  GoodIP (bs "h") (now_at 2 2) (Resolve_finish 5 (bs "h") 0 None (now_at 2 2) (MarkGood 5 (bs "h") (Some (bs "a")) (now_at 1 1) (now_at 1 1) c')) = None.
Proof.
  intros c'.
  apply (failed_lookup_forgets_good 5 (bs "h") (bs "a") (now_at 0 0) (now_at 1 1) (now_at 2 2) (now_at 2 2) empty_cache c' 0); by vm_compute.
Defined.
