(* ===== verification/Connect.v ===== *)
(** What follows an admitted CONNECT: the routing decision, the direct and the
    tunnelled exits, the sniffing of the server name behind a buffered reader and
    the copy loop that relays (internal/app/local_socks5.go, route.go,
    front_proxy.go and client.go).  A connection is what will arrive on it, piece
    by piece and with its failures, and a writer. *)

From Stdlib Require Import ZArith Lia Strings.Byte.
From stdpp Require Import base numbers list gmap.
From S2P Require Import Prelude GoStrings GoNet NetAddr GoTime Wire CipherStream Policy GeoData RouteRules RouteEngine Sniff Socks5 StreamOpen.

Local Open Scope Z_scope.
Local Open Scope go_scope.

(** * Connections *)

(** What the next [Read] of a connection meets: bytes of one segment, or an
    error such as an expired deadline.  After the last one there is [io.EOF]. *)
Inductive arrival : Type :=
  | Data (b : bytes)
  | Fail (e : error).

Definition conn_Read (n : nat) (src : list arrival) : list arrival * res bytes :=
  match src with
  | [] => ([], Err EOF)
  | Fail e :: src => (src, Err e)
  | Data b :: src => if (length b <=? n)%nat then (src, Ok b) else (Data (drop n b) :: src, Ok (take n b))
  end.

(** [bufio.Reader] with the default buffer: the bytes read and not yet consumed
    ([buf[r:w]]) and the error to be reported. *)
Record bufioReader : Type := mkReader { br_buf : bytes; br_err : option error }.

Definition defaultBufSize : nat := 4096.
Definition maxConsecutiveEmptyReads : nat := 100.
Definition ErrNoProgress : error := Errorf "multiple Read calls return no data or error" [].
Definition ErrBufferFull : error := Errorf "bufio: buffer full" [].

Definition newReader : bufioReader := mkReader [] None.

(** [fill]: reads behind the buffered bytes, which are at the front. *)
Fixpoint fill (tries : nat) (r : bufioReader) (src : list arrival) : bufioReader * list arrival :=
  match tries with
  | O => (mkReader (br_buf r) (Some ErrNoProgress), src)
  | S tries =>
      match conn_Read (defaultBufSize - length (br_buf r)) src with
      | (src, Ok []) => fill tries r src
      | (src, Ok b) => (mkReader (br_buf r ++ b) (br_err r), src)
      | (src, Err e) => (mkReader (br_buf r) (Some e), src)
      | (src, Panic) => (r, src)
      end
  end.

(** The loop of [Peek].  A round adds a byte or records an error. *)
Fixpoint peek_loop (fuel : nat) (n : Z) (r : bufioReader) (src : list arrival) : bufioReader * list arrival :=
  match fuel with
  | O => (r, src)
  | S fuel =>
      match br_err r with
      | None =>
          if (len (br_buf r) <? n) && (length (br_buf r) <? defaultBufSize)%nat
          then let '(r, src) := fill maxConsecutiveEmptyReads r src in peek_loop fuel n r src
          else (r, src)
      | Some _ => (r, src)
      end
  end.

(** [Peek]: the bytes and the error.  A pending error is reported once. *)
Definition Peek (n : Z) (r : bufioReader) (src : list arrival) : bufioReader * list arrival * (bytes * option error) :=
  if n <? 0 then (r, src, ([], Some (Errorf "bufio: negative count" []))) else
  let '(r, src) := peek_loop (S defaultBufSize) n r src in
  if Z.of_nat defaultBufSize <? n then (r, src, (br_buf r, Some ErrBufferFull)) else
  if len (br_buf r) <? n then
    (mkReader (br_buf r) None, src,
      (br_buf r, Some match br_err r with Some e => e | None => ErrBufferFull end))
  else (r, src, (take (Z.to_nat n) (br_buf r), None)).

(** A connection with or without a buffered reader in front: [bufferedConn]. *)
Record clientConn : Type := mkConn { cc_reader : option bufioReader; cc_src : list arrival }.

(** [bufferedConn.Read]; [bufio.Reader.Read] with bytes in its buffer copies
    them. *)
Definition bufferedConn_Read (n : nat) (c : clientConn) : clientConn * res bytes :=
  match cc_reader c with
  | Some (mkReader (x :: l) e) =>
      (mkConn (Some (mkReader (drop n (x :: l)) e)) (cc_src c), Ok (take n (x :: l)))
  | r => let '(src, b) := conn_Read n (cc_src c) in (mkConn r src, b)
  end.

(** * Sniffing the server name *)

Definition port443 : bytes := bs "443".

Definition sniCandidate (target : bytes) : bool :=
  match SplitHostPort target with
  | Ok (host, portStr) => bool_decide (portStr = port443) && bool_decide (is_Some (ParseIP host))
  | _ => false
  end.

(** [replay]: the connection with the bytes the reader holds put back. *)
Definition replay (r : bufioReader) (src : list arrival) : clientConn :=
  match br_buf r with [] => mkConn None src | _ => mkConn (Some r) src end.

(** The part of [sniffSNITarget] after the five bytes of the record header. *)
Definition sniff_record (target host head : bytes) (r : bufioReader) (src : list arrival) : res (bytes * clientConn) :=
  let! b0 := byte_at head 0 in
  if negb (b0 =? 22) then Ok (target, replay r src) else
  let! b3 := byte_at head 3 in
  let! b4 := byte_at head 4 in
  let recLen := Z.lor (Z.shiftl b3 8) b4 in
  if (recLen <=? 0) || (64 * 1024 <=? recLen) then Ok (target, replay r src) else
  let '(r, src, (payload, err)) := Peek (5 + recLen) r src in
  match err with
  | Some _ => Ok (target, replay r src)
  | None =>
      let! s := sniffSNI payload in
      match s with
      | Some sni =>
          if negb (bool_decide (sni = host))
          then Ok (JoinHostPort sni port443, mkConn (Some r) src)
          else Ok (target, replay r src)
      | None => Ok (target, replay r src)
      end
  end.

Definition sniffSNITarget (target : bytes) (src : list arrival) : res (bytes * clientConn) :=
  match SplitHostPort target with
  | Ok (host, portStr) =>
      if bool_decide (ParseIP host = None) || negb (bool_decide (portStr = port443))
      then Ok (target, mkConn None src) else
      let '(r, src, (head, err)) := Peek 5 newReader src in
      match err with
      | Some _ => Ok (target, replay r src)
      | None => sniff_record target host head r src
      end
  | Err _ => Ok (target, mkConn None src)
  | Panic => Panic
  end.

(** * Relaying *)

Section Relay.
Context {W : Type} `{HW : Writer W}.

(** [io.Copy] from a connection with a buffer of 32 KiB: the bytes written and
    the error, [None] after [io.EOF].  A write that accepts fewer bytes without
    an error is [io.ErrShortWrite]. *)
Fixpoint io_Copy (fuel : nat) (c : clientConn) (w : W) (written : Z) : option (clientConn * W * Z * option error) :=
  match fuel with
  | O => None
  | S fuel =>
      match bufferedConn_Read (Z.to_nat 32768) c with
      | (c, Ok []) => io_Copy fuel c w written
      | (c, Ok b) =>
          let '(w, n, ew) := w_write w b in
          if (length b <? n)%nat
          then Some (c, w, written, Some (default (Errorf "invalid write result" []) ew)) else
          let written := written + Z.of_nat n in
          match ew with
          | Some e => Some (c, w, written, Some e)
          | None => if (n <? length b)%nat then Some (c, w, written, Some ErrShortWrite)
                    else io_Copy fuel c w written
          end
      | (c, Err EOF) => Some (c, w, written, None)
      | (c, Err e) => Some (c, w, written, Some e)
      | (c, Panic) => None
      end
  end.

End Relay.

(** * CONNECT *)

(** The tunnel as the handlers use it: the stream that [openTCPStream] returns
    for a target, or its error. *)
Class Tunnel := { tunnel_open : bytes -> nat + openError }.

(** What a handler does, in order; a reply may fail to be written. *)
Inductive conn_event : Type :=
  | Reply (code : Z)
  | DialDirect (target : bytes)
  | OpenTunnel (target : bytes)
  | CloseStream (s : nat)
  | CloseConn.

(** How it ends: closed, or relaying between the client and a connection. *)
Inductive connect_end : Type :=
  | ConnClosed
  | RelayDirect (upstream : nat) (c : clientConn)
  | RelayTunnel (s : nat) (c : clientConn).

Section Connect.
Context {W : Type} `{HW : Writer W} {U : GoUnicode} {R : GoRegexp} {N : Net} {T : Tunnel}.

Record connectRun : Type := mkConnect { cr_w : W; cr_events : list conn_event; cr_end : connect_end }.

(** A reply on the client's connection. *)
Definition reply (code : Z) (w : W) : W * res unit :=
  let '((_, w), r) := writeSOCKS5Reply code ([], w) in (w, r).

Definition handleDirectConnect (target : bytes) (src : list arrival) (w : W) : connectRun :=
  match net_dial (bs "tcp") target with
  | Ok upstream =>
      match reply 0 w with
      | (w, Ok _) => mkConnect w [DialDirect target; Reply 0] (RelayDirect upstream (mkConn None src))
      | (w, _) => mkConnect w [DialDirect target; Reply 0; CloseStream upstream; CloseConn] ConnClosed
      end
  | _ => mkConnect (fst (reply 5 w)) [DialDirect target; Reply 5; CloseConn] ConnClosed
  end.

Definition handleSNIProxyConnect (target : bytes) (src : list arrival) (w : W) : res connectRun :=
  match reply 0 w with
  | (w, Ok _) =>
      let! r := sniffSNITarget target src in
      let '(target, conn) := r in
      Ok match tunnel_open target with
         | inl s => mkConnect w [Reply 0; OpenTunnel target] (RelayTunnel s conn)
         | inr _ => mkConnect w [Reply 0; OpenTunnel target; CloseConn] ConnClosed
         end
  | (w, _) => Ok (mkConnect w [Reply 0; CloseConn] ConnClosed)
  end.

(** The end of [handleSOCKS5Connect]: a stream for the target as it is. *)
Definition connect_tunnel (target : bytes) (src : list arrival) (w : W) : connectRun :=
  match tunnel_open target with
  | inl s =>
      match reply 0 w with
      | (w, Ok _) => mkConnect w [OpenTunnel target; Reply 0] (RelayTunnel s (mkConn None src))
      | (w, _) => mkConnect w [OpenTunnel target; Reply 0; CloseStream s; CloseConn] ConnClosed
      end
  | inr e =>
      let code := b2z (socks5ReplyForOpenError e) in
      mkConnect (fst (reply code w)) [OpenTunnel target; Reply code; CloseConn] ConnClosed
  end.

Definition handleSOCKS5Connect (sniSniff : bool) (target : bytes) (now : Time) (rt : routeRuntime)
    (src : list arrival) (w : W) : routeRuntime * res connectRun :=
  let host := match SplitHostPort target with Ok (h, _) => h | _ => [] end in
  let '(routeHost, routeIP) := resolveHostForRoute host now rt in
  let '(rt, decision) := decideForTarget routeHost routeIP rt in
  (rt,
   let! d := decision in
   match d with
   | routeDirect => Ok (handleDirectConnect target src w)
   | routeReject => Ok (mkConnect (fst (reply 2 w)) [Reply 2; CloseConn] ConnClosed)
   | routeProxy =>
       if sniSniff && sniCandidate target then handleSNIProxyConnect target src w
       else Ok (connect_tunnel target src w)
   end).

End Connect.

(** * What arrives *)

(** All the bytes, and the bytes before the first failure. *)
Definition all_data (src : list arrival) : bytes :=
  concat (map (fun a => match a with Data b => b | Fail _ => [] end) src).

Fixpoint until_fail (src : list arrival) : bytes :=
  match src with Data b :: src => b ++ until_fail src | _ => [] end.

(** A connection whose reads deliver at least one byte. *)
Definition progress (src : list arrival) : Prop := Forall (fun a => a <> Data []) src.

(** The bytes a connection delivers: what is put back and what arrives. *)
Definition buffered (c : clientConn) : bytes := match cc_reader c with Some r => br_buf r | None => [] end.

Lemma until_fail_prefix src : until_fail src `prefix_of` all_data src.
Proof.
  induction src as [|[b|e] src IH]; [done| |apply prefix_nil].
  cbn. by apply prefix_app.
Qed.

Lemma conn_Read_spec n src src' r :
  conn_Read n src = (src', r) -> progress src ->
  progress src' /\
  match r with
  | Ok b => all_data src = b ++ all_data src' /\ until_fail src = b ++ until_fail src' /\ (0 < n -> 0 < length b <= n)%nat
  | Err _ => all_data src = all_data src' /\ until_fail src = []
  | Panic => False
  end.
Proof.
  intros E Hp. destruct src as [|[b|e] src]; cbn in E.
  - by injection E as <- <-.
  - inversion Hp as [|? ? Hb Hp']; subst. destruct (Nat.leb_spec (length b) n).
    + injection E as <- <-. split_and!; [done..|]. destruct b; [done|]. cbn in *. lia.
    + injection E as <- <-. split; [constructor; [|done]; intros [= E]; apply (f_equal length) in E; rewrite length_drop in E; cbn in E; lia|].
      cbn. rewrite !app_assoc, take_drop. rewrite length_take. split_and!; [done..|]. lia.
  - inversion Hp; subst. by injection E as <- <-.
Qed.

(** * The buffered reader *)

(** No byte is lost or added; [ahead] may only grow, past a failure. *)
Definition ahead (r : bufioReader) (src : list arrival) : bytes := br_buf r ++ until_fail src.

Definition reader_ok (r : bufioReader) (src : list arrival) : Prop :=
  (length (br_buf r) <= defaultBufSize)%nat /\ progress src.

Definition kept (r : bufioReader) (src : list arrival) (r' : bufioReader) (src' : list arrival) : Prop :=
  reader_ok r' src' /\ br_buf r' ++ all_data src' = br_buf r ++ all_data src /\ ahead r src `prefix_of` ahead r' src'.

Lemma kept_trans r1 s1 r2 s2 r3 s3 : kept r1 s1 r2 s2 -> kept r2 s2 r3 s3 -> kept r1 s1 r3 s3.
Proof. intros (_ & H2 & H3) (H4 & H5 & H6). split_and!; [done|congruence|by etrans]. Qed.

Lemma fill_spec tries r src :
  (0 < tries)%nat -> br_err r = None -> reader_ok r src -> (length (br_buf r) < defaultBufSize)%nat ->
  exists r' src', fill tries r src = (r', src') /\ kept r src r' src' /\
    match br_err r' with
    | None => (length (br_buf r) < length (br_buf r'))%nat /\ ahead r' src' = ahead r src
    | Some _ => br_buf r' = br_buf r /\ ahead r src = br_buf r
    end.
Proof.
  intros Ht He [Hl Hp] Hroom. destruct tries as [|tries]; [lia|]. cbn [fill].
  destruct (conn_Read _ src) as [src' res] eqn:E. apply conn_Read_spec in E as [Hp' E]; [|done].
  unfold kept, ahead, reader_ok. destruct res as [b|e|]; [| |done].
  - destruct E as (Ea & Eu & Eb). specialize (Eb ltac:(lia)). destruct b as [|x b]; [cbn in Eb; lia|].
    eexists _, _. split; [reflexivity|]. cbn [br_buf br_err]. rewrite length_app, He, Ea, Eu, <- !app_assoc.
    split_and!; done || lia.
  - destruct E as (Ea & Eu). eexists _, _. split; [reflexivity|]. cbn [br_buf br_err]. rewrite Ea, Eu, app_nil_r.
    split_and!; try done. by apply prefix_app_r.
Qed.

Lemma peek_loop_spec fuel n r src :
  br_err r = None -> reader_ok r src -> (defaultBufSize < fuel + length (br_buf r))%nat ->
  exists r' src', peek_loop fuel n r src = (r', src') /\ kept r src r' src' /\
    match br_err r' with
    | None => (n <= len (br_buf r') \/ length (br_buf r') = defaultBufSize) /\ ahead r' src' = ahead r src
    | Some _ => ahead r src = br_buf r' /\ len (br_buf r') < n
    end.
Proof.
  revert r src. induction fuel as [|fuel IH]; intros r src He Hok Hf; [destruct Hok; lia|].
  cbn [peek_loop]. rewrite He. destruct ((len (br_buf r) <? n) && _) eqn:Ec.
  - apply andb_prop in Ec as [Hn%Z.ltb_lt Hr%Nat.ltb_lt].
    destruct (fill_spec maxConsecutiveEmptyReads r src) as (r1 & s1 & -> & Hk & Hc); [unfold maxConsecutiveEmptyReads; lia|done..|].
    destruct (br_err r1) as [e1|] eqn:He1.
    + exists r1, s1. destruct Hc as [-> Hc]. split; [|by rewrite He1].
      destruct fuel; [done|]. cbn [peek_loop]. by rewrite He1.
    + destruct Hc as [Hlt Ha]. destruct (IH r1 s1) as (r2 & s2 & -> & Hk2 & Hc2); [done|apply Hk|lia|].
      exists r2, s2. split; [done|]. split; [by eapply kept_trans|]. by rewrite <- Ha.
  - exists r, src. split; [done|]. rewrite He. split; [done|]. split; [|done].
    apply andb_false_iff in Ec as [H%Z.ltb_ge|H%Nat.ltb_ge]; [by left|right]. destruct Hok. lia.
Qed.

(** [Peek n] succeeds exactly when the buffer can hold [n] bytes and that many
    arrive before a failure, however they are cut into pieces. *)
Lemma Peek_spec n r src :
  0 <= n -> br_err r = None -> reader_ok r src ->
  exists r' src' b err, Peek n r src = (r', src', (b, err)) /\ kept r src r' src' /\
    if bool_decide (n <= Z.of_nat defaultBufSize /\ n <= len (ahead r src))
    then err = None /\ b = take (Z.to_nat n) (ahead r src) /\ br_err r' = None /\ ahead r' src' = ahead r src
    else err <> None.
Proof.
  intros Hn He Hok. unfold Peek. rewrite (proj2 (Z.ltb_ge n 0)) by done.
  destruct (peek_loop_spec (S defaultBufSize) n r src) as (r1 & s1 & -> & Hk & Hc); [done..|lia|].
  destruct (Z.ltb_spec (Z.of_nat defaultBufSize) n) as [Hbig|Hfit].
  { eexists _, _, _, _. split; [reflexivity|]. split; [done|]. by rewrite bool_decide_false by lia. }
  destruct (Z.ltb_spec (len (br_buf r1)) n) as [Hs|Hs].
  - eexists _, _, _, _. split; [reflexivity|]. split; [done|]. rewrite bool_decide_false; [done|].
    destruct (br_err r1) as [e|]; [destruct Hc as [-> ?]; lia|]. unfold len in *. destruct Hk as [[? ?] ?]. lia.
  - eexists _, _, _, _. split; [reflexivity|]. split; [done|].
    destruct (br_err r1) as [e|]; [destruct Hc; lia|]. destruct Hc as [_ Ha]. rewrite <- Ha. unfold ahead.
    rewrite bool_decide_true by (split; [lia|]; unfold len in *; rewrite length_app; lia).
    split_and!; [done| |done..]. rewrite take_app_le; [done|]. unfold len in *. lia.
Qed.

(** * Sniffing and relaying *)

(** The parsers return values only. *)
Definition errless {A} (m : res A) : Prop := match m with Err _ => False | _ => True end.

Lemma errless_bind {A B} (m : res A) (k : A -> res B) : errless m -> (forall a, errless (k a)) -> errless (res_bind m k).
Proof. destruct m; cbn; auto. Qed.

Lemma errless_index b i : errless (index b i).
Proof. unfold index. by repeat case_match. Qed.

Lemma errless_slice b i j : errless (slice b i j).
Proof. unfold slice. by case_match. Qed.

Ltac solve_errless :=
  repeat first
    [ exact I | assumption | apply errless_index | apply errless_slice
    | apply errless_bind; [|intros ?]
    | match goal with |- errless (if ?c then _ else _) => destruct c end ].

Lemma errless_byte_at b i : errless (byte_at b i).
Proof. unfold byte_at. solve_errless. Qed.

Lemma errless_u16 b i : errless (u16 b i).
Proof. unfold u16. solve_errless. Qed.

Lemma errless_names f l off : errless (names_loop f l off).
Proof.
  revert off. induction f as [|f IH]; intros off; [done|]. cbn [names_loop].
  pose proof (errless_byte_at l). pose proof (errless_u16 l). solve_errless; auto.
Qed.

Lemma errless_exts f b off e : errless (exts_loop f b off e).
Proof.
  revert off. induction f as [|f IH]; intros off; [done|]. cbn [exts_loop]. unfold parseServerNameExt.
  pose proof errless_u16. pose proof errless_names. solve_errless; auto.
Qed.

Lemma sniffSNI_total payload : exists s, sniffSNI payload = Ok s.
Proof.
  enough (errless (sniffSNI payload) /\ sniffSNI payload <> Panic) as [H1 H2] by (destruct (sniffSNI payload); [eauto|done|done]).
  split.
  - unfold sniffSNI, parseClientHelloSNI. pose proof errless_byte_at. pose proof errless_u16. pose proof errless_exts.
    cbv zeta. solve_errless; auto.
  - destruct (sniffSNI_cases payload) as [-> | (ig & body & tr & -> & Hi & Hb)]; [done|].
    rewrite sniffSNI_record by done. apply parseClientHelloSNI_exact.
Qed.

(** The first TLS record of a stream: a handshake record with a body that fits
    into the reader's buffer. *)
Definition first_record (stream record : bytes) : Prop :=
  exists version body, record = z2b 22 :: version ++ vec16 body /\ length version = 2%nat /\
    body <> [] /\ len record <= Z.of_nat defaultBufSize /\ record `prefix_of` stream.

(** The target a sniffed connection is rewritten to. *)
Definition rewrites (target stream target' : bytes) : Prop :=
  exists host record sni, SplitHostPort target = Ok (host, port443) /\ ParseIP host <> None /\
    first_record stream record /\ sniffSNI record = Ok (Some sni) /\ sni <> host /\ target' = JoinHostPort sni port443.

Lemma replay_buffered r src : buffered (replay r src) = br_buf r /\ cc_src (replay r src) = src.
Proof. unfold replay. destruct (br_buf r) eqn:E; [done|]. cbn. by rewrite E. Qed.

(** The connection returned still delivers what [src] would have. *)
Definition delivers (src : list arrival) (c : clientConn) : Prop :=
  progress (cc_src c) /\ buffered c ++ all_data (cc_src c) = all_data src /\
  until_fail src `prefix_of` buffered c ++ until_fail (cc_src c).

Lemma kept_delivers src r src' c :
  kept newReader src r src' -> buffered c = br_buf r -> cc_src c = src' -> delivers src c.
Proof. intros ([_ H1] & H2 & H3) Hb <-. unfold delivers. by rewrite Hb. Qed.

Lemma delivers_replay src r src' : kept newReader src r src' -> delivers src (replay r src').
Proof. intros H. destruct (replay_buffered r src'). by eapply kept_delivers. Qed.

(** The header of a record determines the record. *)
Lemma first_record_head stream record :
  first_record stream record ->
  exists b1 b2 b3 b4 rest, stream = z2b 22 :: b1 :: b2 :: b3 :: b4 :: rest /\
    let recLen := Z.lor (Z.shiftl (b2z b3) 8) (b2z b4) in
    0 < recLen < 64 * 1024 /\ 5 + recLen <= Z.of_nat defaultBufSize /\ 5 + recLen <= len stream /\
    record = take (Z.to_nat (5 + recLen)) stream.
Proof.
  intros (version & body & -> & Hv & Hne & Hsz & [rest ->]). destruct version as [|b1 [|b2 [|? ?]]]; try done.
  pose proof (length_be_put 2 (len body)) as Hp. pose proof (be_get_put 2 (len body)) as Hg.
  assert (Z.of_nat defaultBufSize = 4096) as Hbuf by done.
  assert (5 + len body <= 4096) as Hb by (unfold vec16 in Hsz; solve_len).
  unfold vec16 in *. destruct (be_put 2 (len body)) as [|b3 [|b4 [|? ?]]]; try done.
  exists b1, b2, b3, b4, (body ++ rest). split; [done|].
  assert (0 < len body) by (destruct body; [done|solve_len]).
  rewrite lor_shiftl_add by (try lia; apply b2z_range).
  rewrite Z.mod_small in Hg by lia. unfold be_get in Hg. cbn [be_get_acc] in Hg.
  replace (b2z b3 * 2 ^ 8 + b2z b4) with (len body) by lia. cbv zeta.
  split_and!; [lia..| |].
  - solve_len.
  - symmetry. apply take_app_length'. solve_len.
Qed.

Lemma head_first_record b1 b2 b3 b4 rest :
  let stream := z2b 22 :: b1 :: b2 :: b3 :: b4 :: rest in
  let recLen := Z.lor (Z.shiftl (b2z b3) 8) (b2z b4) in
  0 < recLen -> 5 + recLen <= Z.of_nat defaultBufSize -> 5 + recLen <= len stream ->
  first_record stream (take (Z.to_nat (5 + recLen)) stream).
Proof.
  intros stream recLen H0 Hsz Hl. subst recLen.
  rewrite lor_shiftl_add in * by (try lia; apply b2z_range). change (2 ^ 8) with 256 in *.
  set (n := b2z b3 * 256 + b2z b4) in *.
  assert (len (take (Z.to_nat n) rest) = n) as Hn by (subst stream; solve_len).
  exists [b1; b2], (take (Z.to_nat n) rest). split_and!; [|done| | |by apply prefix_take].
  - unfold vec16. rewrite Hn. replace (be_put 2 n) with [b3; b4].
    + replace (Z.to_nat (5 + n)) with (S (S (S (S (S (Z.to_nat n)))))) by lia. done.
    + symmetry. replace n with (be_get [b3; b4]) by (subst n; unfold be_get; cbn [be_get_acc]; lia). by apply be_put_get'.
  - intros E. rewrite E in Hn. change (len []) with 0 in Hn. lia.
  - subst stream. solve_len.
Qed.

(** What a rewritten target says of the stream. *)
Lemma rewrites_head target host port stream t :
  SplitHostPort target = Ok (host, port) -> rewrites target stream t ->
  port = port443 /\ ParseIP host <> None /\
  exists b1 b2 b3 b4 rest sni, stream = z2b 22 :: b1 :: b2 :: b3 :: b4 :: rest /\
    let recLen := Z.lor (Z.shiftl (b2z b3) 8) (b2z b4) in
    0 < recLen < 64 * 1024 /\ 5 + recLen <= Z.of_nat defaultBufSize /\ 5 + recLen <= len stream /\
    sniffSNI (take (Z.to_nat (5 + recLen)) stream) = Ok (Some sni) /\ sni <> host /\ t = JoinHostPort sni port443.
Proof.
  intros E (h & record & sni & E' & Hip & Hr & Hs & Hne & ->). rewrite E in E'. injection E' as -> ->.
  apply first_record_head in Hr as (b1 & b2 & b3 & b4 & rest & -> & H1 & H2 & H3 & ->).
  split_and!; [done..|]. exists b1, b2, b3, b4, rest, sni. done.
Qed.

(** The outcome of a sniff depends on the bytes, not on their pieces. *)
Definition sniff_outcome (target : bytes) (src : list arrival) (target' : bytes) (c : clientConn) : Prop :=
  delivers src c /\
  (rewrites target (until_fail src) target' \/
   target' = target /\ forall t, ~ rewrites target (until_fail src) t).

(** The target stays: one goal is left, that nothing rewrites it. *)
Ltac target_stays := eexists _, _; split; [done|]; split; [done|]; right; split; [done|]; intros t Ht.

Lemma rewrites_bytes target host b0 b1 b2 b3 b4 rest t :
  let stream := b0 :: b1 :: b2 :: b3 :: b4 :: rest in
  let recLen := Z.lor (Z.shiftl (b2z b3) 8) (b2z b4) in
  SplitHostPort target = Ok (host, port443) -> rewrites target stream t ->
  b2z b0 = 22 /\ 0 < recLen < 64 * 1024 /\ 5 + recLen <= Z.of_nat defaultBufSize /\ 5 + recLen <= len stream /\
  exists sni, sniffSNI (take (Z.to_nat (5 + recLen)) stream) = Ok (Some sni) /\ sni <> host.
Proof.
  intros stream recLen Et Ht. subst recLen.
  apply (rewrites_head _ _ _ _ _ Et) in Ht as (_ & _ & c1 & c2 & c3 & c4 & rest' & sni & E & H1 & H2 & H3 & H4 & H5 & _).
  injection E as -> -> -> -> -> ->. split_and!; [done|lia..|]. by exists sni.
Qed.

Lemma sniff_record_spec target host src r src' :
  SplitHostPort target = Ok (host, port443) -> ParseIP host <> None ->
  kept newReader src r src' -> br_err r = None -> ahead r src' = until_fail src -> 5 <= len (until_fail src) ->
  exists target' c, sniff_record target host (take 5 (until_fail src)) r src' = Ok (target', c) /\
    sniff_outcome target src target' c.
Proof.
  intros Et Hip Hk He Ha H5. pose proof (delivers_replay _ _ _ Hk) as Hd. unfold sniff_record, sniff_outcome.
  destruct (until_fail src) as [|b0 [|b1 [|b2 [|b3 [|b4 rest]]]]]; try (unfold len in H5; cbn in H5; lia).
  change (byte_at _ 0) with (Ok (b2z b0)). change (byte_at _ 3) with (Ok (b2z b3)). change (byte_at _ 4) with (Ok (b2z b4)).
  cbn [res_bind]. set (stream := b0 :: b1 :: b2 :: b3 :: b4 :: rest) in *.
  pose proof (fun t => rewrites_bytes target host b0 b1 b2 b3 b4 rest t Et) as Hhd. fold stream in Hhd. cbv zeta in Hhd.
  set (recLen := Z.lor (Z.shiftl (b2z b3) 8) (b2z b4)) in *.
  destruct (Z.eqb_spec (b2z b0) 22) as [E22|E22]; cbn [negb]; [|target_stays; by apply Hhd in Ht as [? _]].
  destruct ((recLen <=? 0) || (64 * 1024 <=? recLen)) eqn:Er; [target_stays; apply Hhd in Ht; lia|].
  destruct (Peek_spec (5 + recLen) r src') as (r2 & s2 & payload & err & -> & Hk2 & Hc); [lia|done|apply Hk|].
  assert (kept newReader src r2 s2) as Hk' by (by eapply kept_trans). pose proof (delivers_replay _ _ _ Hk') as Hd2.
  rewrite Ha in Hc. case_bool_decide as Hfit; [|destruct err; [|done]; target_stays; apply Hhd in Ht as (_ & _ & ? & ? & _); by apply Hfit].
  destruct Hc as (-> & -> & _ & _). destruct (sniffSNI_total (take (Z.to_nat (5 + recLen)) stream)) as [sn Esn].
  rewrite Esn in *. cbn [res_bind].
  destruct sn as [sni|]; [|target_stays; apply Hhd in Ht as (_ & _ & _ & _ & ? & ? & _); done].
  destruct (bool_decide_reflect (sni = host)) as [->|Hne]; cbn [negb].
  - target_stays. apply Hhd in Ht as (_ & _ & _ & _ & ? & ? & ?). congruence.
  - eexists _, _. split; [done|]. split; [by eapply kept_delivers|]. left.
    exists host, (take (Z.to_nat (5 + recLen)) stream), sni. split_and!; try done.
    assert (b0 = z2b 22) as -> by (by apply b2z_inj). destruct Hfit. apply head_first_record; [|done|done]. fold recLen. lia.
Qed.

Lemma sniffSNITarget_spec target src :
  progress src ->
  exists target' c, sniffSNITarget target src = Ok (target', c) /\ sniff_outcome target src target' c.
Proof.
  intros Hp. unfold sniffSNITarget, sniff_outcome.
  assert (delivers src (mkConn None src)) as Hself by (unfold delivers; done).
  destruct (SplitHostPort target) as [[host port]|e|] eqn:Et; cycle 1.
  { target_stays. destruct Ht as (h & ? & ? & E & _). by rewrite Et in E. }
  { by apply SplitHostPort_no_panic in Et. }
  destruct (bool_decide (ParseIP host = None) || _) eqn:Ec.
  { target_stays. apply (rewrites_head _ _ _ _ _ Et) in Ht as (-> & Hip & _).
    by apply orb_true_iff in Ec as [E%bool_decide_eq_true|E%negb_true_iff%bool_decide_eq_false]. }
  apply orb_false_iff in Ec as [Hip%bool_decide_eq_false Hport%negb_false_iff%bool_decide_eq_true]. subst port.
  destruct (Peek_spec 5 newReader src) as (r & s & head & err & -> & Hk & Hc); [done|done|split; [cbn; lia|done]|].
  change (ahead newReader src) with (until_fail src) in Hc. pose proof (delivers_replay _ _ _ Hk) as Hd.
  case_bool_decide as H5.
  - destruct Hc as (-> & -> & He & Ha). destruct H5. by apply sniff_record_spec.
  - destruct err; [|done]. target_stays. apply H5.
    apply (rewrites_head _ _ _ _ _ Et) in Ht as (_ & _ & ? & ? & ? & ? & ? & ? & _ & ? & ? & ? & _). lia.
Qed.

(** What [io.Copy] relays from a connection: everything up to a failure. *)
Definition relayed (c : clientConn) : bytes := buffered c ++ until_fail (cc_src c).

Lemma bufferedConn_Read_spec n c c' r :
  bufferedConn_Read n c = (c', r) -> progress (cc_src c) -> (0 < n)%nat ->
  progress (cc_src c') /\
  match r with
  | Ok b => b <> [] /\ relayed c = b ++ relayed c'
  | Err _ => relayed c = []
  | Panic => False
  end.
Proof.
  intros E Hp Hn. unfold bufferedConn_Read in E.
  assert (forall rd, buffered c = [] -> match rd with Some r => br_buf r = [] | None => True end ->
    (let '(src, b) := conn_Read n (cc_src c) in (mkConn rd src, b)) = (c', r) ->
    progress (cc_src c') /\ match r with Ok b => b <> [] /\ relayed c = b ++ relayed c' | Err _ => relayed c = [] | Panic => False end) as Hread.
  { intros rd Hb Hrd E'. unfold relayed. rewrite Hb. destruct (conn_Read n (cc_src c)) as [src' b] eqn:Er.
    apply conn_Read_spec in Er as [Hp' Er]; [|done]. injection E' as <- <-. split; [done|].
    destruct b as [b|e|]; [|by destruct Er|done]. destruct Er as (_ & -> & Hl). split.
    - intros ->. specialize (Hl Hn). cbn in Hl. lia.
    - unfold buffered. cbn. by destruct rd as [rd|]; [rewrite Hrd|]. }
  destruct (cc_reader c) as [[[|x l] e]|] eqn:Ec.
  - apply (Hread (Some (mkReader [] e))); [unfold buffered; by rewrite Ec|done|done].
  - injection E as <- <-. split; [done|]. split; [destruct n; [lia|done]|].
    unfold relayed, buffered. rewrite Ec. cbn [cc_reader cc_src br_buf]. by rewrite app_assoc, take_drop.
  - apply (Hread None); [unfold buffered; by rewrite Ec|done|done].
Qed.

Lemma io_Copy_spec {W} {HWr : Writer W} {HWo : WriterOk W} (Hrel : reliable (W := W)) fuel c (w : W) written :
  progress (cc_src c) -> (length (relayed c) < fuel)%nat ->
  exists c' w' e, io_Copy fuel c w written = Some (c', w', written + len (relayed c), e) /\
    sink w' = sink w ++ relayed c.
Proof.
  revert c w written. induction fuel as [|fuel IH]; intros c w written Hp Hf; [lia|]. cbn [io_Copy].
  destruct (bufferedConn_Read _ c) as [c1 r] eqn:Er. apply bufferedConn_Read_spec in Er as [Hp1 Er]; [|done|lia].
  destruct r as [b|e|]; [|rewrite Er in *|done].
  - destruct Er as [Hne Er]. rewrite Er in *. destruct b as [|x b]; [done|].
    destruct (Hrel w (x :: b)) as [w1 Hw]. rewrite Hw. rewrite Nat.ltb_irrefl.
    apply w_write_ok in Hw as (_ & Hs & _). rewrite firstn_all in Hs.
    destruct (IH c1 w1 (written + Z.of_nat (length (x :: b)))) as (c2 & w2 & e & -> & Hs2);
      [done|rewrite length_app in Hf; cbn in Hf; lia|].
    exists c2, w2, e. rewrite Hs2, Hs, <- app_assoc, len_app. split; [|done]. rewrite Z.add_assoc. done.
  - rewrite app_nil_r, Z.add_0_r. destruct e; eauto.
Qed.

(** C27: sniffing an IP:443 connection is transparent.  However the client's bytes
    are cut into segments, the target is rewritten exactly when the bytes that
    arrive before a failure start with a TLS handshake record of at most 4096
    bytes in which [sniffSNI] finds a name other than the literal, and then to
    that name and port 443; in every other case the target stays.  Whatever was
    read ahead is put back: the relay returns, and writes to the stream, in
    order, at least the bytes it would have written without the sniffing and
    nothing but what the client sent. *)
Theorem sni_rewrite_lossless {W} {HWr : Writer W} {HWo : WriterOk W} (Hrel : reliable (W := W))
    (target : bytes) (src : list arrival) (w : W) (Hp : progress src) :
  exists target' c, sniffSNITarget target src = Ok (target', c) /\
    (rewrites target (until_fail src) target' \/
     target' = target /\ forall t, ~ rewrites target (until_fail src) t) /\
    exists out c' w' e, io_Copy (S (length (all_data src))) c w 0 = Some (c', w', len out, e) /\
      sink w' = sink w ++ out /\ until_fail src `prefix_of` out /\ out `prefix_of` all_data src.
Proof.
  destruct (sniffSNITarget_spec target src Hp) as (target' & c & E & (Hc & Ha & Hu) & Ht).
  exists target', c. split_and!; [done..|].
  assert (relayed c `prefix_of` all_data src) as Hpre by (rewrite <- Ha; apply prefix_app, until_fail_prefix).
  destruct (io_Copy_spec Hrel (S (length (all_data src))) c w 0) as (c' & w' & e & Ec & Hs); [done| |].
  { apply prefix_length in Hpre. lia. }
  by exists (relayed c), c', w', e.
Qed.

(** * Outcomes of CONNECT *)

Definition replies (evs : list conn_event) : list Z :=
  omap (fun e => match e with Reply c => Some c | _ => None end) evs.

(** The targets contacted, directly or through the tunnel. *)
Definition contacts (evs : list conn_event) : list (bool * bytes) :=
  omap (fun e => match e with DialDirect t => Some (true, t) | OpenTunnel t => Some (false, t) | _ => None end) evs.

Definition socks_reply (code : Z) : bytes := [z2b 5; z2b code; z2b 0; z2b 1; z2b 0; z2b 0; z2b 0; z2b 0; z2b 0; z2b 0].

Section Outcome.
Context {W : Type} {HWr : Writer W} {HWo : WriterOk W} {U : GoUnicode} {R : GoRegexp} {N : Net} {T : Tunnel}.

(** The connection a contact gives. *)
Definition contact (ct : bool * bytes) : option nat :=
  if fst ct then match net_dial (bs "tcp") (snd ct) with Ok s => Some s | _ => None end
  else match tunnel_open (snd ct) with inl s => Some s | inr _ => None end.

Definition relay_of (e : connect_end) : option nat :=
  match e with ConnClosed => None | RelayDirect s _ | RelayTunnel s _ => Some s end.

(** A run relays between the client and its contact, or ends with the client's
    connection closed and nothing else left open. *)
Definition tidy (run : connectRun (W := W)) : Prop :=
  match cr_end run with
  | ConnClosed =>
      last (cr_events run) = Some CloseConn /\
      Forall (fun ct => forall s, contact ct = Some s -> CloseStream s ∈ cr_events run) (contacts (cr_events run))
  | e => exists ct, contacts (cr_events run) = [ct] /\ contact ct = relay_of e
  end.

Definition host_of (target : bytes) : bytes := match SplitHostPort target with Ok (h, _) => h | _ => [] end.

(** The target asked of the tunnel: as requested, or rewritten by a sniff. *)
Definition tunnelled (sniSniff : bool) (target : bytes) (src : list arrival) (t : bytes) : Prop :=
  if sniSniff && sniCandidate target
  then rewrites target (until_fail src) t \/ t = target /\ forall t', ~ rewrites target (until_fail src) t'
  else t = target.

Lemma reply_cases code w : exists w' r, reply code w = (w', r) /\ (reliable (W := W) -> r = Ok tt /\ sink w' = sink w ++ socks_reply code).
Proof.
  unfold reply, writeSOCKS5Reply, conn_write. destruct (writeAll _ w) as [w' r] eqn:E. exists w', r. split; [done|].
  intros Hrel. destruct (writeAll_total Hrel (socks_reply code) w) as [w2 E2].
  assert ((w', r) = (w2, Ok tt)) as [= -> ->] by (rewrite <- E; exact E2). split; [done|]. by apply writes_writeAll in E2.
Qed.

(** A run that contacts at most [ct] and replies [code] once; with a client that
    takes the reply, it contacts [ct] and relays exactly if that succeeds. *)
Definition run_ok (w : W) (run : connectRun) (ct : bool * bytes) (code : Z) : Prop :=
  tidy run /\ (contacts (cr_events run) = [] \/ contacts (cr_events run) = [ct]) /\ replies (cr_events run) = [code] /\
  (reliable (W := W) ->
   sink (cr_w run) = sink w ++ socks_reply code /\ contacts (cr_events run) = [ct] /\ relay_of (cr_end run) = contact ct).

(** [run_ok] of a concrete run: [Hct] evaluates the contact, [Hrel] the reply. *)
Ltac run_done Hct Hrel :=
  unfold run_ok, tidy; cbn [fst cr_end cr_events cr_w contacts replies omap list_omap relay_of];
  split; [|split; [auto|split; [done|intros Hr; destruct (Hrel Hr) as [? ?]; split_and!; congruence]]];
  first [by eexists; split; [reflexivity|]
        |split; [done|]; by apply Forall_nil
        |split; [done|]; apply Forall_singleton; intros ?; rewrite Hct; intros [= <-]; apply list_elem_of_In; cbn; tauto].

Lemma handleDirectConnect_ok target src w :
  run_ok w (handleDirectConnect target src w) (true, target) (match net_dial (bs "tcp") target with Ok _ => 0 | _ => 5 end).
Proof.
  unfold handleDirectConnect.
  assert (contact (true, target) = match net_dial (bs "tcp") target with Ok s => Some s | _ => None end) as Hct by done.
  destruct (net_dial _ target) as [up|e|].
  - destruct (reply_cases 0 w) as (w' & r & -> & Hrel). destruct r; run_done Hct Hrel.
  - destruct (reply_cases 5 w) as (w' & r & -> & Hrel). run_done Hct Hrel.
  - destruct (reply_cases 5 w) as (w' & r & -> & Hrel). run_done Hct Hrel.
Qed.

Lemma connect_tunnel_ok target src w :
  run_ok w (connect_tunnel target src w) (false, target)
    (match tunnel_open target with inl _ => 0 | inr e => b2z (socks5ReplyForOpenError e) end).
Proof.
  unfold connect_tunnel.
  assert (contact (false, target) = match tunnel_open target with inl s => Some s | inr _ => None end) as Hct by done.
  destruct (tunnel_open target) as [s|e].
  - destruct (reply_cases 0 w) as (w' & r & -> & Hrel). destruct r; run_done Hct Hrel.
  - cbv zeta. destruct (reply_cases (b2z (socks5ReplyForOpenError e)) w) as (w' & r & -> & Hrel). run_done Hct Hrel.
Qed.

Lemma handleSNIProxyConnect_ok target src w :
  progress src ->
  exists run t c, handleSNIProxyConnect target src w = Ok run /\ run_ok w run (false, t) 0 /\ sniff_outcome target src t c.
Proof.
  intros Hp. unfold handleSNIProxyConnect. destruct (sniffSNITarget_spec target src Hp) as (t & c & -> & Ho).
  destruct (reply_cases 0 w) as (w' & r & -> & Hrel).
  assert (contact (false, t) = match tunnel_open t with inl s => Some s | inr _ => None end) as Hct by done.
  destruct r; eexists _, t, c; (split; [reflexivity|]; split; [|done]); [|run_done Hct Hrel..].
  destruct (tunnel_open t); run_done Hct Hrel.
Qed.

(** The reply a decision leads to. *)
Definition reply_code (sniSniff : bool) (target : bytes) (d : routeAction) : Z :=
  match d with
  | routeReject => 2
  | routeDirect => match net_dial (bs "tcp") target with Ok _ => 0 | _ => 5 end
  | routeProxy =>
      if sniSniff && sniCandidate target then 0
      else match tunnel_open target with inl _ => 0 | inr e => b2z (socks5ReplyForOpenError e) end
  end.

(** C26: CONNECT follows the routing decision for its target (the name a sniffed
    DNS answer gives an address included).  A rejected target is contacted by no
    way, a direct one is only dialled, a proxied one is only asked of the tunnel:
    as requested, or, for IP:443 with sniffing on, by the name in the client's
    first record.  There is exactly one reply: 0 when the contact succeeded, and
    before it for a sniffed connection; otherwise the code of the failure.  Either
    the client is relayed to the contact, or the connection is closed with
    everything the handler had opened, also when the reply cannot be written. *)
Theorem connect_outcome (sniSniff : bool) (target : bytes) (now : Time) (rt rt' : routeRuntime)
    (src : list arrival) (w : W) (h : bytes) (ip : Addr) (d : routeAction)
    (Hp : progress src)
    (Hroute : resolveHostForRoute (host_of target) now rt = (h, ip))
    (Hdecide : decideForTarget h ip rt = (rt', Ok d)) :
  exists run, handleSOCKS5Connect sniSniff target now rt src w = (rt', Ok run) /\
    tidy run /\ replies (cr_events run) = [reply_code sniSniff target d] /\
    match d with
    | routeReject => contacts (cr_events run) = [] /\ cr_end run = ConnClosed
    | routeDirect => contacts (cr_events run) = [(true, target)]
    | routeProxy =>
        exists t, tunnelled sniSniff target src t /\
          (contacts (cr_events run) = [] \/ contacts (cr_events run) = [(false, t)])
    end /\
    (reliable (W := W) ->
     sink (cr_w run) = sink w ++ socks_reply (reply_code sniSniff target d) /\
     (d <> routeReject -> exists ct, contacts (cr_events run) = [ct] /\ relay_of (cr_end run) = contact ct)).
Proof.
  unfold handleSOCKS5Connect. fold (host_of target). rewrite Hroute, Hdecide. cbn [res_bind].
  destruct d; cbn [reply_code]; unfold tunnelled.
  - destruct (sniSniff && sniCandidate target).
    + destruct (handleSNIProxyConnect_ok target src w Hp) as (run & t & c & -> & (H1 & H2 & H3 & H4) & _ & Ho).
      exists run. split_and!; [done..|by exists t|]. intros Hr. destruct (H4 Hr) as (? & ? & ?). split; [done|]. intros _. by exists (false, t).
    + destruct (connect_tunnel_ok target src w) as (H1 & H2 & H3 & H4). eexists. split_and!; [done..|by exists target|].
      intros Hr. destruct (H4 Hr) as (? & ? & ?). split; [done|]. intros _. by exists (false, target).
  - destruct (handleDirectConnect_ok target src w) as (H1 & H2 & H3 & H4). eexists. split_and!; [done..| |].
    + unfold handleDirectConnect. by repeat case_match.
    + intros Hr. destruct (H4 Hr) as (? & ? & ?). split; [done|]. intros _. by exists (true, target).
  - destruct (reply_cases 2 w) as (w' & r & -> & Hrel). eexists. split_and!; [done| |done..|].
    + split; [done|]. by apply Forall_nil.
    + intros Hr. destruct (Hrel Hr) as [_ Hs]. by split.
Qed.

End Outcome.

(** * Witnesses *)

(** A ClientHello in two segments, with its server name. *)
Definition demo_record : bytes :=
  tls_record (z2b 1 :: be_put 2 (4 + len (hello_body sample_hello))) (hello_body sample_hello) [].

Definition demo_src : list arrival := [Data (take 3 demo_record); Data (drop 3 demo_record ++ bs "early"); Fail ErrClosedPipe].

Lemma demo_progress : progress demo_src.
Proof. repeat constructor; done. Qed.

Lemma bytes_reliable : reliable (W := bytes).
Proof. intros w b. by eexists. Qed.

Lemma sni_rewrite_lossless_witness :
  exists c out c' w' e, sniffSNITarget (bs "192.0.2.1:443") demo_src = Ok (bs "Www.Example.com:443", c) /\
    io_Copy (S (length (all_data demo_src))) c [] 0 = Some (c', w', len out, e) /\ sink w' = out /\
    demo_record ++ bs "early" `prefix_of` out.
Proof.
  destruct (sni_rewrite_lossless bytes_reliable (bs "192.0.2.1:443") demo_src [] demo_progress)
    as (t & c & E & _ & out & c' & w' & e & Ec & Hs & Hp & _).
  exists c, out, c', w', e. split_and!; [|done..].
  assert (match sniffSNITarget (bs "192.0.2.1:443") demo_src with Ok (t, _) => t = bs "Www.Example.com:443" | _ => False end) as H
    by (vm_compute; reflexivity).
  rewrite E in H. by rewrite E, H.
Defined.

(** The address was seen in a DNS answer for www.google.com, which is proxied. *)
Definition demo_runtime : routeRuntime (R := plain_GoRegexp) :=
  remember (match ParseAddr (bs "192.0.2.1") with Some a => a | None => AddrZero end) (bs "www.google.com") zeroTime sample_runtime.

Definition demo_tunnel : Tunnel := {| tunnel_open := fun _ => inl 7%nat |}.

Definition demo_decision : routeRuntime (R := plain_GoRegexp) * res routeAction :=
  decideForTarget (U := ascii_only_unicode) (R := plain_GoRegexp) (bs "www.google.com") (Addr4 3221225985) demo_runtime.

Lemma connect_outcome_witness :
  exists run, handleSOCKS5Connect (U := ascii_only_unicode) (R := plain_GoRegexp) (N := openNet) (T := demo_tunnel) true
      (bs "192.0.2.1:443") zeroTime demo_runtime demo_src ([] : bytes) = (fst demo_decision, Ok run) /\
    cr_w run = socks_reply 0 /\ relay_of (cr_end run) = Some 7%nat.
Proof.
  destruct (connect_outcome (U := ascii_only_unicode) (R := plain_GoRegexp) (N := openNet) (T := demo_tunnel) true
      (bs "192.0.2.1:443") zeroTime demo_runtime (fst demo_decision) demo_src ([] : bytes)
      (bs "www.google.com") (Addr4 3221225985) routeProxy demo_progress) as (run & E & _ & _ & (t & _ & Hc) & Hr).
  - by vm_compute.
  - assert (snd demo_decision = Ok routeProxy) as E by (by vm_compute).
    rewrite <- E. fold demo_decision. by destruct demo_decision.
  - exists run. split; [exact E|]. destruct (Hr bytes_reliable) as [Hs Hrel]. split; [exact Hs|].
    destruct Hrel as (ct & Hct & ->); [done|]. destruct Hc as [Hc|Hc]; rewrite Hct in Hc; [discriminate Hc|].
    injection Hc as ->. reflexivity.
Defined.
