(* ===== verification/UdpAssoc.v ===== *)
(** The UDP association of the SOCKS5 proxy: [UDPAssociation] of
    internal/app/local_socks5.go.  The association is shared by the loop that
    reads the client's datagrams, the readers of the tunnel stream and of the
    direct sockets, and the connection whose end closes it.  Each critical section
    is one operation, calls to the network are steps of their own, also the calls
    of [Close] after its critical section, and [udp_step] is the relation of all
    interleavings. *)

From Stdlib Require Import ZArith Lia Strings.Byte.
From stdpp Require Import base numbers list gmap relations.
From S2P Require Import Prelude GoStrings GoNet NetAddr GoTime Wire WireV3 Policy GeoData RouteRules RouteEngine Sniff Socks5 StreamOpen.

Local Open Scope Z_scope.
Local Open Scope go_scope.

Definition tunnelDNSHost : bytes := bs "1.1.1.1".
Definition directDNSHost : bytes := bs "223.5.5.5".
Definition port53 : bytes := bs "53".

(** * Filtering and routing of a datagram *)

Section Datagrams.
Context {U : GoUnicode} {R : GoRegexp}.

(** The checks of [loop] on a packet: the target and the payload to send. *)
Definition accept_packet (ipStrategy : Z) (udpBlockPorts : gset Z) (packet : bytes) : res (option (bytes * bytes)) :=
  match parseSOCKS5UDPPacket packet with
  | Ok (tgt, data) =>
      let '(h, ps) := match SplitHostPort tgt with Ok x => x | _ => ([], []) end in
      let refused :=
        match ParseIP h with
        | Some ip =>
            let is4 := bool_decide (is_Some (To4 ip)) in
            ((ipStrategy =? IPStrategyIPv4Only) && negb is4) || ((ipStrategy =? IPStrategyIPv6Only) && is4)
        | None => false
        end in
      if refused then Ok None else
      match Atoi ps with
      | None => Ok None
      | Some prt => if bool_decide (prt ∈ udpBlockPorts) then Ok None else Ok (Some (tgt, data))
      end
  | Err _ => Ok None
  | Panic => Panic
  end.

(** The rewriting of DNS queries in [send]: the target and its host. *)
Definition rewrite_dns (target data : bytes) (rt : routeRuntime) : routeRuntime * res (bytes * bytes) :=
  let '(host, portStr) := match SplitHostPort target with Ok x => x | _ => ([], []) end in
  if bool_decide (portStr = port53) && bool_decide (is_Some (rt_engine rt)) then
    match sniffDNSQuery data with
    | Ok (Some qname) =>
        let '(rt, tunnel) := shouldTunnelDNS qname rt in
        (rt,
         let! tunnel := tunnel in
         if (tunnel : bool) then
           let rewritten := JoinHostPort tunnelDNSHost port53 in
           if bool_decide (rewritten = target) then Ok (target, host) else Ok (rewritten, tunnelDNSHost)
         else if bool_decide (host = directDNSHost) then Ok (target, host)
         else Ok (JoinHostPort directDNSHost port53, directDNSHost))
    | Ok None => (rt, Ok (target, host))
    | Err e => (rt, Err e)
    | Panic => (rt, Panic)
    end
  else (rt, Ok (target, host)).

(** [send] up to its choice between the direct exit and the tunnel. *)
Definition route_datagram (target data : bytes) (now : Time) (rt : routeRuntime) : routeRuntime * res (bytes * bool) :=
  let '(rt, r) := rewrite_dns target data rt in
  match r with
  | Ok (target, host) =>
      let '(routeHost, routeIP) := resolveHostForRoute host now rt in
      let '(rt, d) := decideForTarget routeHost routeIP rt in
      (rt, let! d := d in Ok (target, bool_decide (d = routeDirect)))
  | Err e => (rt, Err e)
  | Panic => (rt, Panic)
  end.

(** The names of an answer are remembered for its addresses. *)
Definition remember_answers (data : bytes) (now : Time) (rt : routeRuntime) : res routeRuntime :=
  let! a := sniffDNSAnswers data in
  let '(qname, ips) := a in
  Ok (if is_empty qname then rt else foldl (fun rt ip => remember ip qname now rt) rt ips).

(** [handleUDPResponse] up to its critical section: the packet for the client. *)
Definition udp_response (addrStr data : bytes) (now : Time) (rt : routeRuntime) : routeRuntime * res (option bytes) :=
  match SplitHostPort addrStr with
  | Ok (host, portStr) =>
      match Atoi portStr with
      | Some port =>
          match (if bool_decide (is_Some (rt_engine rt)) && (port =? 53) then remember_answers data now rt else Ok rt) with
          | Ok rt => (rt, match buildSOCKS5UDPPacket host port data with Ok pkt => Ok (Some pkt) | Err _ => Ok None | Panic => Panic end)
          | Err e => (rt, Err e)
          | Panic => (rt, Panic)
          end
      | None => (rt, Ok None)
      end
  | Err _ => (rt, Ok None)
  | Panic => (rt, Panic)
  end.

(** The body of [directReadLoop] up to its critical section, for a datagram of at
    least one byte from the address [from]. *)
Definition direct_response (from : option (bytes * Z)) (payload : bytes) (now : Time) (rt : routeRuntime)
    : routeRuntime * res (option bytes) :=
  let '(host, port) := match from with Some (ip, port) => (IPString ip, port) | None => ([], 0) end in
  match (if bool_decide (is_Some from) && (port =? 53) then remember_answers payload now rt else Ok rt) with
  | Ok rt => (rt, match buildSOCKS5UDPPacket host port payload with Ok pkt => Ok (Some pkt) | Err _ => Ok None | Panic => Panic end)
  | Err e => (rt, Err e)
  | Panic => (rt, Panic)
  end.

End Datagrams.

(** * The association *)

(** [UDPAssociation]; the client's address is its text, streams and sockets are
    numbers. *)
Record UDPAssociation : Type := mkAssoc {
  clientUDPAddr : option bytes;
  closed : bool;
  receiving : bool;
  active : bool;
  channelID : Z;
  a_target : bytes;
  a_stream : option nat;
  directConn : option nat;
}.

Definition new_association : UDPAssociation := mkAssoc None false false true (-1) [] None None.

Definition pin_client (addr : bytes) (a : UDPAssociation) : UDPAssociation :=
  mkAssoc (Some addr) (closed a) (receiving a) (active a) (channelID a) (a_target a) (a_stream a) (directConn a).

(** The critical section of [loop]: the first sender is the client, and nobody
    else is heard. *)
Definition admit_client (addr : bytes) (a : UDPAssociation) : option UDPAssociation :=
  match clientUDPAddr a with
  | None => Some (pin_client addr a)
  | Some c => if bool_decide (c = addr) then Some a else None
  end.

(** The first critical section of [send]: [None] if closed, otherwise whether to
    open a stream, and the stream there is. *)
Definition send_begin (target : bytes) (a : UDPAssociation) : UDPAssociation * option (bool * option nat) :=
  if closed a then (a, None) else
  if receiving a then (a, Some (false, a_stream a)) else
  (mkAssoc (clientUDPAddr a) (closed a) true (active a) (channelID a) target (a_stream a) (directConn a), Some (true, a_stream a)).

(** The second one: the stream that was opened. *)
Definition send_opened (s : nat) (id : Z) (a : UDPAssociation) : UDPAssociation :=
  mkAssoc (clientUDPAddr a) (closed a) (receiving a) (active a) id (a_target a) (Some s) (directConn a).

(** The critical sections of [sendDirect]. *)
Definition direct_begin (target : bytes) (a : UDPAssociation) : option (bool * option nat) :=
  if closed a then None else
  Some (bool_decide (directConn a = None) || (negb (is_empty (a_target a)) && negb (bool_decide (a_target a = target))), directConn a).

Definition direct_bound (nc : nat) (a : UDPAssociation) : UDPAssociation :=
  mkAssoc (clientUDPAddr a) (closed a) (receiving a) (active a) (channelID a) (a_target a) (a_stream a) (Some nc).

(** The critical section of [Close]. *)
Definition close_mark (a : UDPAssociation) : UDPAssociation :=
  mkAssoc (clientUDPAddr a) true (receiving a) false (channelID a) (a_target a) None None.

(** The calls [Close] makes after its critical section, in their order: the count of
    associations, the stream (twice, as written), the direct socket, the listener
    and the client's connection. *)
Inductive close_call : Type :=
  | CCount
  | CStream (s : nat) (again : bool)
  | CSocket (c : nat)
  | CListener
  | CTcp.

#[export] Instance close_call_eq_dec : EqDecision close_call.
Proof. solve_decision. Defined.

Definition close_calls (a : UDPAssociation) : list close_call :=
  (if active a then [CCount] else []) ++
  match a_stream a with Some s => [CStream s false; CStream s true] | None => [] end ++
  match directConn a with Some c => [CSocket c] | None => [] end ++ [CListener; CTcp].

(** * All goroutines together *)

(** Where the loop is: between datagrams, on the way with one, or in a [Close] of its
    own. *)
Inductive loop_state : Type :=
  | LIdle
  | LRoute (target data : bytes)
  | LSend (target data : bytes)
  | LOpening (target data : bytes)
  | LOpened (s : nat) (id : Z) (target data : bytes)
  | LWrite (stream : option nat) (start : bool) (target data : bytes)
  | LDirect (target data : bytes)
  | LBind (target data : bytes)
  | LBound (nc : nat) (target data : bytes)
  | LDirectWrite (conn : option nat) (target data : bytes)
  | LClosing
  | LStopped
  | LPanic.

(** What passes through the association: the datagrams taken from the client,
    and what the network and the client see. *)
Inductive effect : Type :=
  | FromClient (addr packet : bytes)
  | Opened (s : nat) (target : bytes)
  | TunnelWrite (s : nat) (target data : bytes)
  | DirectWrite (conn : nat) (target data : bytes)
  | ToClient (addr pkt : bytes).

Section World.
Context {U : GoUnicode} {R : GoRegexp}.

(** Streams and sockets ever opened, with whether they still are; the reading
    goroutines; the count of active associations; the effects so far; the calls the
    one effective [Close] still has to make. *)
Record world : Type := mkWorld {
  w_assoc : UDPAssociation;
  w_loop : loop_state;
  w_rt : routeRuntime;
  w_streams : gmap nat bool;
  w_sockets : gmap nat bool;
  w_stream_readers : gset nat;
  w_direct_readers : gset nat;
  w_active : Z;
  w_listener : bool;
  w_tcp : bool;
  w_trace : list effect;
  w_closing : list close_call;
}.

Definition set_assoc (a : UDPAssociation) (w : world) : world :=
  mkWorld a (w_loop w) (w_rt w) (w_streams w) (w_sockets w) (w_stream_readers w) (w_direct_readers w) (w_active w) (w_listener w) (w_tcp w) (w_trace w) (w_closing w).
Definition goto (l : loop_state) (w : world) : world :=
  mkWorld (w_assoc w) l (w_rt w) (w_streams w) (w_sockets w) (w_stream_readers w) (w_direct_readers w) (w_active w) (w_listener w) (w_tcp w) (w_trace w) (w_closing w).
Definition set_rt (rt : routeRuntime) (w : world) : world :=
  mkWorld (w_assoc w) (w_loop w) rt (w_streams w) (w_sockets w) (w_stream_readers w) (w_direct_readers w) (w_active w) (w_listener w) (w_tcp w) (w_trace w) (w_closing w).
Definition set_streams (m : gmap nat bool) (w : world) : world :=
  mkWorld (w_assoc w) (w_loop w) (w_rt w) m (w_sockets w) (w_stream_readers w) (w_direct_readers w) (w_active w) (w_listener w) (w_tcp w) (w_trace w) (w_closing w).
Definition set_sockets (m : gmap nat bool) (w : world) : world :=
  mkWorld (w_assoc w) (w_loop w) (w_rt w) (w_streams w) m (w_stream_readers w) (w_direct_readers w) (w_active w) (w_listener w) (w_tcp w) (w_trace w) (w_closing w).
Definition set_readers (sr dr : gset nat) (w : world) : world :=
  mkWorld (w_assoc w) (w_loop w) (w_rt w) (w_streams w) (w_sockets w) sr dr (w_active w) (w_listener w) (w_tcp w) (w_trace w) (w_closing w).
Definition emit (e : effect) (w : world) : world :=
  mkWorld (w_assoc w) (w_loop w) (w_rt w) (w_streams w) (w_sockets w) (w_stream_readers w) (w_direct_readers w) (w_active w) (w_listener w) (w_tcp w) (w_trace w ++ [e]) (w_closing w).

(** Closing a stream or socket that is held; a second close changes nothing. *)
Definition close_in (held : option nat) (m : gmap nat bool) : gmap nat bool :=
  match held with Some s => <[s := false]> m | None => m end.

(** The critical section of [Close]: only the first one goes on. *)
Definition close_begin (w : world) : world :=
  let a := w_assoc w in
  if closed a then w else
  mkWorld (close_mark a) (w_loop w) (w_rt w) (w_streams w) (w_sockets w) (w_stream_readers w) (w_direct_readers w)
    (w_active w) (w_listener w) (w_tcp w) (w_trace w) (close_calls a).

(** The next call after it. *)
Definition close_next (w : world) : world :=
  match w_closing w with
  | [] => w
  | call :: rest =>
      mkWorld (w_assoc w) (w_loop w) (w_rt w)
        match call with CStream s _ => <[s := false]> (w_streams w) | _ => w_streams w end
        match call with CSocket c => <[c := false]> (w_sockets w) | _ => w_sockets w end
        (w_stream_readers w) (w_direct_readers w)
        match call with CCount => wrapU 64 (w_active w + (2 ^ 64 - 1)) | _ => w_active w end
        match call with CListener => false | _ => w_listener w end
        match call with CTcp => false | _ => w_tcp w end
        (w_trace w) rest
  end.

(** All of [Close], with nothing else in between. *)
Definition Close (w : world) : world :=
  if closed (w_assoc w) then w else Nat.iter (length (close_calls (w_assoc w))) close_next (close_begin w).

(** [Close] called by the loop, which goes on when the call returns: at once if the
    association is closed already. *)
Definition loop_close (w : world) : world :=
  if closed (w_assoc w) then goto LIdle w else goto LClosing (close_begin w).

Record udpConfig : Type := mkUdpConfig { uc_ipStrategy : Z; uc_blockPorts : gset Z }.

(** [loop] with a datagram from [addr]. *)
Definition loop_receive (cfg : udpConfig) (addr packet : bytes) (w : world) : world :=
  match admit_client addr (w_assoc w) with
  | None => w
  | Some a =>
      let w := emit (FromClient addr packet) (set_assoc a w) in
      match accept_packet (uc_ipStrategy cfg) (uc_blockPorts cfg) packet with
      | Ok (Some (tgt, data)) => goto (LRoute tgt data) w
      | Ok None | Err _ => w
      | Panic => goto LPanic w
      end
  end.

Definition send_route (target data : bytes) (now : Time) (w : world) : world :=
  let '(rt, r) := route_datagram target data now (w_rt w) in
  goto match r with
       | Ok (target, true) => LDirect target data
       | Ok (target, false) => LSend target data
       | _ => LPanic
       end (set_rt rt w).

Definition send_lock (target data : bytes) (w : world) : world :=
  let '(a, r) := send_begin target (w_assoc w) in
  goto match r with
       | None => LIdle
       | Some (true, _) => LOpening target data
       | Some (false, stream) => LWrite stream false target data
       end (set_assoc a w).

(** [openUDPStream] returned the stream [s], or an error. *)
Definition send_open (result : option (nat * Z)) (target data : bytes) (w : world) : world :=
  match result with
  | Some (s, id) => emit (Opened s target) (goto (LOpened s id target data) (set_streams (<[s := true]> (w_streams w)) w))
  | None => loop_close w
  end.

Definition send_start (s : nat) (id : Z) (target data : bytes) (w : world) : world :=
  goto (LWrite (Some s) true target data)
    (set_readers ({[s]} ∪ w_stream_readers w) (w_direct_readers w) (set_assoc (send_opened s id (w_assoc w)) w)).

(** The end of [send]; [ok] is whether [writeChunk] succeeds. *)
Definition send_write (ok : bool) (stream : option nat) (start : bool) (target data : bytes) (w : world) : world :=
  if negb start && negb (is_empty target) && negb (bool_decide (target = a_target (w_assoc w))) then goto LIdle w
  else match stream with
       | None => loop_close w
       | Some s => let w := emit (TunnelWrite s target data) w in if ok then goto LIdle w else loop_close w
       end.

Definition direct_lock (target data : bytes) (w : world) : world :=
  goto match direct_begin target (w_assoc w) with
       | None => LIdle
       | Some (true, _) => LBind target data
       | Some (false, conn) => LDirectWrite conn target data
       end w.

(** [ResolveUDPAddr] and [ListenUDP] gave the socket [nc], or an error. *)
Definition direct_bind (result : option nat) (target data : bytes) (w : world) : world :=
  match result with
  | Some nc => goto (LBound nc target data) (set_sockets (<[nc := true]> (w_sockets w)) w)
  | None => goto LIdle w
  end.

Definition direct_start (nc : nat) (target data : bytes) (w : world) : world :=
  let a := w_assoc w in
  let old := match directConn a with Some c => if bool_decide (c = nc) then None else Some c | None => None end in
  goto (LDirectWrite (Some nc) target data)
    (set_readers (w_stream_readers w) ({[nc]} ∪ w_direct_readers w)
      (set_sockets (close_in old (w_sockets w)) (set_assoc (direct_bound nc a) w))).

(** The end of [sendDirect]; [resolved] is whether the target resolves again. *)
Definition direct_write (resolved : bool) (conn : option nat) (target data : bytes) (w : world) : world :=
  goto LIdle
    match conn with
    | Some c => if resolved then emit (DirectWrite c target data) w else w
    | None => w
    end.

(** A packet for the client, if its socket is still open. *)
Definition to_client (addr : option bytes) (pkt : bytes) (w : world) : world :=
  match addr with
  | Some c => if w_listener w then emit (ToClient c pkt) w else w
  | None => w
  end.

(** A reply read from the tunnel stream: [handleUDPResponse]. *)
Definition handleUDPResponse (addrStr data : bytes) (now : Time) (w : world) : world :=
  let '(rt, r) := udp_response addrStr data now (w_rt w) in
  let w := set_rt rt w in
  match r with
  | Ok (Some pkt) => to_client (clientUDPAddr (w_assoc w)) pkt w
  | Ok None | Err _ => w
  | Panic => goto LPanic w
  end.

(** A datagram on the direct socket [c]: a round of [directReadLoop]. *)
Definition directReadLoop (c : nat) (from : option (bytes * Z)) (payload : bytes) (now : Time) (w : world) : world :=
  if is_empty payload then w else
  let '(rt, r) := direct_response from payload now (w_rt w) in
  let w := set_rt rt w in
  match r with
  | Ok (Some pkt) =>
      if closed (w_assoc w) || bool_decide (clientUDPAddr (w_assoc w) = None)
      then set_readers (w_stream_readers w) (w_direct_readers w ∖ {[c]}) w
      else to_client (clientUDPAddr (w_assoc w)) pkt w
  | Ok None | Err _ => w
  | Panic => goto LPanic w
  end.

Inductive udp_step (cfg : udpConfig) : world -> world -> Prop :=
  | st_receive w addr packet : w_loop w = LIdle -> w_listener w = true -> udp_step cfg w (loop_receive cfg addr packet w)
  | st_stop w : w_loop w = LIdle -> w_listener w = false -> udp_step cfg w (goto LStopped w)
  | st_route w t d now : w_loop w = LRoute t d -> udp_step cfg w (send_route t d now w)
  | st_send w t d : w_loop w = LSend t d -> udp_step cfg w (send_lock t d w)
  | st_open w t d s id : w_loop w = LOpening t d -> w_streams w !! s = None -> udp_step cfg w (send_open (Some (s, id)) t d w)
  | st_open_failed w t d : w_loop w = LOpening t d -> udp_step cfg w (send_open None t d w)
  | st_start w s id t d : w_loop w = LOpened s id t d -> udp_step cfg w (send_start s id t d w)
  | st_write w ok stream start t d : w_loop w = LWrite stream start t d -> udp_step cfg w (send_write ok stream start t d w)
  | st_direct w t d : w_loop w = LDirect t d -> udp_step cfg w (direct_lock t d w)
  | st_bind w t d nc : w_loop w = LBind t d -> w_sockets w !! nc = None -> udp_step cfg w (direct_bind (Some nc) t d w)
  | st_bind_failed w t d : w_loop w = LBind t d -> udp_step cfg w (direct_bind None t d w)
  | st_bound w nc t d : w_loop w = LBound nc t d -> udp_step cfg w (direct_start nc t d w)
  | st_direct_write w resolved conn t d :
      w_loop w = LDirectWrite conn t d -> udp_step cfg w (direct_write resolved conn t d w)
  | st_reply w s addrStr data now :
      s ∈ w_stream_readers w -> w_loop w <> LPanic -> udp_step cfg w (handleUDPResponse addrStr data now w)
  | st_reply_end w s :
      s ∈ w_stream_readers w -> udp_step cfg w (set_readers (w_stream_readers w ∖ {[s]}) (w_direct_readers w) (close_begin w))
  | st_direct_reply w c from data now :
      c ∈ w_direct_readers w -> w_loop w <> LPanic -> udp_step cfg w (directReadLoop c from data now w)
  | st_direct_end w c :
      c ∈ w_direct_readers w -> udp_step cfg w (set_readers (w_stream_readers w) (w_direct_readers w ∖ {[c]}) w)
  | st_client_gone w : udp_step cfg w (close_begin w)
  | st_close w : udp_step cfg w (close_next w)
  | st_closed w : w_loop w = LClosing -> w_closing w = [] -> udp_step cfg w (goto LIdle w).

(** [handleSOCKS5UDP] once the reply was written; [n] associations were active. *)
Definition associate (n : Z) (rt : routeRuntime) : world :=
  mkWorld new_association LIdle rt ∅ ∅ ∅ ∅ (wrapU 64 (n + 1)) true true [] [].

(** Everything before the loops: the listener, the reply with its address. *)
Definition handleSOCKS5UDP {W : Type} `{HWr : Writer W} (listen : option (option (bytes * Z))) (n : Z) (rt : routeRuntime)
    (s : bytes * W) : (bytes * W) * option world :=
  match listen with
  | None => (s, None)
  | Some None => (s, None)
  | Some (Some addr) =>
      match writeSOCKS5UDPAssociateReply (Some addr) s with
      | (s, Ok _) => (s, Some (associate n rt))
      | (s, _) => (s, None)
      end
  end.

End World.

(** * Invariants *)

Section Invariants.
Context {U : GoUnicode} {R : GoRegexp} (cfg : udpConfig).

(** Case analysis on a step, its operation unfolded up to the parts of [Close]. *)
Ltac step_ops H :=
  destruct H;
  unfold loop_receive, admit_client, send_route, send_lock, send_begin, send_open, send_start, send_write, direct_lock,
    direct_begin, direct_bind, direct_start, direct_write, handleUDPResponse, directReadLoop, to_client in *;
  repeat (case_match; simplify_eq/=).

Ltac step_cases H := step_ops H; unfold loop_close, close_begin, close_next in *; repeat (case_match; simplify_eq/=); simplify_eq/=.

(** The datagrams taken come from one address, and packets go to it. *)
Definition client_inv (w : world) : Prop :=
  forall addr pkt, FromClient addr pkt ∈ w_trace w \/ ToClient addr pkt ∈ w_trace w -> clientUDPAddr (w_assoc w) = Some addr.

Lemma client_inv_step w w' : udp_step cfg w w' -> client_inv w -> client_inv w'.
Proof.
  intros H Hi. unfold client_inv in *. step_cases H.
  all: try exact Hi; intros ad pk Hin; rewrite ?elem_of_app, ?list_elem_of_singleton in Hin; try exact (Hi _ _ Hin).
  all: repeat match goal with E : bool_decide _ = true |- _ => apply bool_decide_eq_true in E; subst end.
  all: destruct Hin as [Hin|Hin]; first [pose proof (Hi _ _ (or_introl Hin)) | pose proof (Hi _ _ (or_intror Hin)) |
    destruct Hin as [Hin|Hin]; simplify_eq; try first [pose proof (Hi _ _ (or_introl Hin)) | pose proof (Hi _ _ (or_intror Hin))]]; congruence.
Qed.

(** The streams opened, with their targets. *)
Definition opens (tr : list effect) : list (nat * bytes) :=
  omap (fun e => match e with Opened s t => Some (s, t) | _ => None end) tr.

#[local] Arguments opens : simpl never.

Lemma opens_app tr1 tr2 : opens (tr1 ++ tr2) = opens tr1 ++ opens tr2.
Proof. unfold opens. by rewrite omap_app. Qed.

Lemma JoinHostPort_nonempty h p : JoinHostPort h p <> [].
Proof. unfold JoinHostPort. case_match; [done|]. by destruct h. Qed.

Lemma parse_target packet t d : parseSOCKS5UDPPacket packet = Ok (t, d) -> t <> [].
Proof.
  unfold parseSOCKS5UDPPacket. intros ([t' off] & Hf & H)%res_bind_ok. apply res_bind_ok in H as (data & _ & [= <- <-]).
  unfold parseSOCKS5UDPFrameAddr in Hf. destruct (_ <? _); [done|].
  do 3 apply res_bind_ok in Hf as (? & _ & Hf). destruct (_ || _); [done|]. apply res_bind_ok in Hf as (? & _ & Hf).
  apply res_bind_ok in Hf as ([h o] & _ & Hf). destruct (_ <? _); [done|]. do 2 apply res_bind_ok in Hf as (? & _ & Hf).
  destruct (_ =? _); [done|]. apply res_bind_ok in Hf as (? & _ & [= <- _]). apply JoinHostPort_nonempty.
Qed.

Lemma accept_packet_inv ipS ports packet t d :
  accept_packet ipS ports packet = Ok (Some (t, d)) -> parseSOCKS5UDPPacket packet = Ok (t, d).
Proof. unfold accept_packet. intros H. repeat (case_match; simplify_eq/=; try done). Qed.

(** A datagram goes to its target, or a DNS query to one of the two resolvers. *)
Definition redirected (t0 t : bytes) : Prop :=
  t = t0 \/ (exists h, SplitHostPort t0 = Ok (h, port53)) /\ (t = JoinHostPort tunnelDNSHost port53 \/ t = JoinHostPort directDNSHost port53).

Lemma route_datagram_target t0 d now rt rt' t direct :
  route_datagram t0 d now rt = (rt', Ok (t, direct)) -> redirected t0 t.
Proof.
  unfold route_datagram. destruct (rewrite_dns t0 d rt) as [rt1 r] eqn:Er. intros H.
  destruct r as [[t1 h1]| |]; [|done|done]. destruct (resolveHostForRoute h1 now rt1) as [rh ri].
  destruct (decideForTarget rh ri rt1) as [rt2 dec]. injection H as _ H. apply res_bind_ok in H as (dd & _ & [= <- _]).
  unfold rewrite_dns in Er. unfold redirected. destruct (SplitHostPort t0) as [[h p]| |]; try (injection Er as _ <- _; by left).
  destruct (bool_decide (p = port53)) eqn:Ep; cbn [andb] in Er; [|injection Er as _ <- _; by left].
  apply bool_decide_eq_true in Ep as ->.
  repeat (case_match; simplify_eq/=; eauto 6).
  all: apply res_bind_ok in H3 as ([] & _ & [= <- _]); eauto 6.
Qed.

Lemma redirected_nonempty t0 t : t0 <> [] -> redirected t0 t -> t <> [].
Proof. intros H [-> |[_ [-> | ->]]]; [done|apply JoinHostPort_nonempty..]. Qed.

(** At most one stream is opened, for the target the association is bound to, and
    only datagrams to that target are written to it. *)
Definition tunnel_loop (l : loop_state) (a : UDPAssociation) (os : list (nat * bytes)) : Prop :=
  match l with
  | LRoute t _ | LSend t _ => t <> []
  | LOpening t _ => t <> [] /\ receiving a = true /\ a_target a = t /\ os = []
  | LOpened s _ t _ => t <> [] /\ receiving a = true /\ a_target a = t /\ os = [(s, t)]
  | LWrite stream start t _ =>
      receiving a = true /\ t <> [] /\ (start = true -> t = a_target a) /\ (forall s, stream = Some s -> os = [(s, a_target a)])
  | _ => True
  end.

Record tunnel_inv (w : world) : Prop := mkTunnelInv {
  ti_fresh : receiving (w_assoc w) = false -> opens (w_trace w) = [];
  ti_loop : tunnel_loop (w_loop w) (w_assoc w) (opens (w_trace w));
  ti_opens : opens (w_trace w) = [] \/ exists s, opens (w_trace w) = [(s, a_target (w_assoc w))];
  ti_stream : forall s, a_stream (w_assoc w) = Some s -> opens (w_trace w) = [(s, a_target (w_assoc w))];
  ti_writes : forall s t d, TunnelWrite s t d ∈ w_trace w -> opens (w_trace w) = [(s, a_target (w_assoc w))] /\ t = a_target (w_assoc w);
}.

(** What no part of [Close] changes. *)
Definition close_frame (w w' : world) : Prop :=
  w_trace w' = w_trace w /\ w_rt w' = w_rt w /\ receiving (w_assoc w') = receiving (w_assoc w) /\
  a_target (w_assoc w') = a_target (w_assoc w) /\ (forall s, a_stream (w_assoc w') = Some s -> a_stream (w_assoc w) = Some s).

Lemma close_begin_frame w : close_frame w (close_begin w) /\ w_loop (close_begin w) = w_loop w.
Proof. unfold close_begin. by destruct (closed (w_assoc w)). Qed.

Lemma close_next_frame w : close_frame w (close_next w) /\ w_loop (close_next w) = w_loop w.
Proof. unfold close_next. by destruct (w_closing w). Qed.

Lemma loop_close_frame w : close_frame w (loop_close w) /\ (w_loop (loop_close w) = LIdle \/ w_loop (loop_close w) = LClosing).
Proof.
  unfold loop_close. destruct (closed (w_assoc w)); [by split; [|left]|]. split; [apply (close_begin_frame w)|by right].
Qed.

Lemma tunnel_inv_frame w w' :
  close_frame w w' -> w_loop w' = w_loop w \/ w_loop w' = LIdle \/ w_loop w' = LClosing -> tunnel_inv w -> tunnel_inv w'.
Proof.
  intros (E2 & _ & E3 & E4 & E5) El [H1 H2 H3 H4 H5]. constructor; rewrite ?E2, ?E3, ?E4; try done.
  - destruct El as [->|[-> | ->]]; [|done..]. destruct (w_loop w); cbn in *; rewrite ?E3, ?E4; done.
  - intros s Hs%E5. auto.
Qed.

Lemma tunnel_inv_loop_close w : tunnel_inv w -> tunnel_inv (loop_close w).
Proof. destruct (loop_close_frame w) as [Hf Hl]. apply (tunnel_inv_frame _ _ Hf). tauto. Qed.

Lemma tunnel_inv_begin w : tunnel_inv w -> tunnel_inv (close_begin w).
Proof. destruct (close_begin_frame w) as [Hf Hl]. apply (tunnel_inv_frame _ _ Hf). tauto. Qed.

Lemma tunnel_inv_next w : tunnel_inv w -> tunnel_inv (close_next w).
Proof. destruct (close_next_frame w) as [Hf Hl]. apply (tunnel_inv_frame _ _ Hf). tauto. Qed.

(** A step that leaves the opened streams, their writes and the binding alone. *)
Lemma tunnel_inv_same w w' :
  tunnel_inv w ->
  opens (w_trace w') = opens (w_trace w) ->
  (forall s t d, TunnelWrite s t d ∈ w_trace w' -> TunnelWrite s t d ∈ w_trace w) ->
  receiving (w_assoc w') = receiving (w_assoc w) -> a_target (w_assoc w') = a_target (w_assoc w) ->
  a_stream (w_assoc w') = a_stream (w_assoc w) ->
  tunnel_loop (w_loop w') (w_assoc w) (opens (w_trace w)) -> tunnel_inv w'.
Proof.
  intros [H1 H2 H3 H4 H5] E1 Ew E2 E3 E4 Hl. constructor; rewrite ?E1, ?E2, ?E3, ?E4; try done.
  - destruct (w_loop w'); cbn in *; rewrite ?E2, ?E3; done.
  - intros s t d Hw. by apply (H5 s t d), Ew.
Qed.

Lemma tunnel_inv_idle w : tunnel_inv w -> tunnel_inv (goto LIdle w).
Proof. intros Hi. by apply (tunnel_inv_same w). Qed.

Lemma tunnel_inv_readers sr dr w : tunnel_inv w -> tunnel_inv (set_readers sr dr w).
Proof. intros Hi. apply (tunnel_inv_same w); try done. apply Hi. Qed.

Lemma tunnel_inv_write s start t d w :
  tunnel_inv w -> w_loop w = LWrite (Some s) start t d ->
  negb start && negb (is_empty t) && negb (bool_decide (t = a_target (w_assoc w))) = false ->
  tunnel_inv (emit (TunnelWrite s t d) w).
Proof.
  intros [H1 H2 H3 H4 H5] Hl Hc. pose proof H2 as Hw. rewrite Hl in Hw. destruct Hw as (Hr & Hne & Hs & Ho). specialize (Ho s eq_refl).
  assert (t = a_target (w_assoc w)) as Ht.
  { destruct start; [by apply Hs|]. destruct t; [done|]. cbn in Hc. by apply negb_false_iff, bool_decide_eq_true in Hc. }
  assert (opens (w_trace w ++ [TunnelWrite s t d]) = opens (w_trace w)) as E by (rewrite opens_app; apply app_nil_r).
  constructor; cbn; rewrite ?E; try done.
  intros s' t' d'. rewrite elem_of_app, list_elem_of_singleton. intros [Hin|[= -> -> _]]; [by apply (H5 s' t' d')|done].
Qed.

(** Steps that [tunnel_inv_same] covers. *)
Ltac tunnel_same Hi :=
  first
    [ done
    | eapply tunnel_inv_same;
      [ exact Hi
      | cbn; rewrite ?opens_app; cbn; rewrite ?app_nil_r; done
      | cbn; intros ? ? ?; rewrite ?elem_of_app, ?list_elem_of_singleton; try done; intros [?|?]; done
      | done | done | done
      | cbn; try done ] ].

Lemma tunnel_inv_step w w' : udp_step cfg w w' -> tunnel_inv w -> tunnel_inv w'.
Proof.
  intros H Hi. pose proof Hi as [H1 H2 H3 H4 H5]. step_ops H.
  all: try (tunnel_same Hi; fail).
  all: try (first [apply tunnel_inv_idle | apply tunnel_inv_readers]; apply tunnel_inv_begin; exact Hi).
  all: try first [by apply tunnel_inv_begin | by apply tunnel_inv_loop_close | by apply tunnel_inv_next].
  - tunnel_same Hi. by eapply parse_target, accept_packet_inv.
  - tunnel_same Hi. by eapply parse_target, accept_packet_inv.
  - tunnel_same Hi. rewrite H in H2. by eapply redirected_nonempty, route_datagram_target.
  - tunnel_same Hi. rewrite H in H2. split_and!; done.
  - constructor; cbn; try done.
    + rewrite H in H2. split_and!; [done..|]. by apply H1.
    + left. by apply H1.
    + intros s Hs. specialize (H1 ltac:(done)). rewrite (H4 s Hs) in H1. done.
    + intros s t' d' Hw. specialize (H1 ltac:(done)). destruct (H5 _ _ _ Hw) as [E _]. by rewrite E in H1.
  - rewrite H in H2. destruct H2 as (Hne & Hr & <- & Ho). constructor; cbn; rewrite ?opens_app, ?Ho; try done.
    + congruence.
    + right. by exists s.
    + intros s' Hs. apply H4 in Hs. congruence.
    + intros ? ? ?. rewrite elem_of_app, list_elem_of_singleton. intros [Hin|?]; [|done]. apply H5 in Hin as [? _]. congruence.
  - rewrite H in H2. destruct H2 as (Hne & Hr & <- & Ho). constructor; cbn; rewrite ?Ho; try done.
    + congruence.
    + split_and!; [done..|]. by intros s' [= <-].
    + right. by exists s.
    + by intros s' [= <-].
    + intros s' t' d' Hw. destruct (H5 _ _ _ Hw) as [E ->]. by rewrite Ho in E.
  - apply tunnel_inv_idle. by eapply tunnel_inv_write.
  - apply tunnel_inv_loop_close. by eapply tunnel_inv_write.
Qed.

(** Not undone yet: the association is open, or its [Close] still has this call to
    make. *)
Definition still (call : close_call) (w : world) : bool :=
  negb (closed (w_assoc w)) || bool_decide (call ∈ w_closing w).

(** The association is closed once: each thing [Close] undoes is there exactly until
    its call is made, which is made once. *)
Definition count_inv (n : Z) (w : world) : Prop :=
  active (w_assoc w) = negb (closed (w_assoc w)) /\ w_listener w = still CListener w /\ w_tcp w = still CTcp w /\
  w_active w = wrapU 64 (n + (if still CCount w then 1 else 0)) /\
  (closed (w_assoc w) = false -> w_closing w = []) /\ NoDup (w_closing w).

Lemma close_calls_nodup a : NoDup (close_calls a).
Proof.
  unfold close_calls. destruct (active a), (a_stream a), (directConn a); cbn [app];
    repeat (apply NoDup_cons; split; [rewrite ?elem_of_cons, ?elem_of_nil; intuition congruence|]); apply NoDup_nil_2.
Qed.

Lemma close_calls_in a : active a = true -> CCount ∈ close_calls a /\ CListener ∈ close_calls a /\ CTcp ∈ close_calls a.
Proof. intros H. unfold close_calls. rewrite H, !elem_of_app, !elem_of_cons. tauto. Qed.

(** Of the state, the invariant is about what [Close] changes. *)
Lemma count_inv_same n w w' :
  closed (w_assoc w') = closed (w_assoc w) -> active (w_assoc w') = active (w_assoc w) -> w_listener w' = w_listener w ->
  w_tcp w' = w_tcp w -> w_active w' = w_active w -> w_closing w' = w_closing w -> count_inv n w -> count_inv n w'.
Proof. unfold count_inv, still. by intros -> -> -> -> -> ->. Qed.

Lemma count_inv_begin n w : count_inv n w -> count_inv n (close_begin w).
Proof.
  unfold close_begin. destruct (closed (w_assoc w)) eqn:Hc; [done|]. unfold count_inv, still. cbn. rewrite Hc. cbn.
  intros (H1 & H2 & H3 & H4 & _ & _). destruct (close_calls_in _ H1) as (C1 & C2 & C3).
  rewrite !bool_decide_eq_true_2 by done. split_and!; [done..|apply close_calls_nodup].
Qed.

Lemma count_inv_next n w : count_inv n w -> count_inv n (close_next w).
Proof.
  unfold close_next. destruct (w_closing w) as [|call rest] eqn:Hl; [done|]. unfold count_inv, still. cbn. rewrite Hl.
  intros (H1 & H2 & H3 & H4 & H5 & [Hn Hr]%NoDup_cons). destruct (closed (w_assoc w)); [cbn in *|by specialize (H5 eq_refl)].
  assert (forall x, x <> call -> bool_decide (x ∈ call :: rest) = bool_decide (x ∈ rest)) as Hother.
  { intros x Hx. apply bool_decide_ext. rewrite elem_of_cons. tauto. }
  assert (bool_decide (call ∈ call :: rest) = true /\ bool_decide (call ∈ rest) = false) as [Hin Hout]
    by (split; [apply bool_decide_eq_true_2; by left|by apply bool_decide_eq_false_2]).
  rewrite H2, H3, H4. destruct call; rewrite ?Hin, ?Hout, ?Hother by done; split_and!; try done.
  unfold wrapU. rewrite Zplus_mod_idemp_l. replace (n + 1 + (2 ^ 64 - 1)) with (n + 0 + 1 * 2 ^ 64) by lia. by rewrite Z_mod_plus_full.
Qed.

Lemma count_inv_loop_close n w : count_inv n w -> count_inv n (loop_close w).
Proof.
  intros H. unfold loop_close. destruct (closed (w_assoc w)); [by apply (count_inv_same n w)|].
  by apply (count_inv_same n (close_begin w)), count_inv_begin.
Qed.

Lemma count_inv_step n w w' : udp_step cfg w w' -> count_inv n w -> count_inv n w'.
Proof.
  intros H Hi. step_ops H.
  all: try (by apply (count_inv_same n w)).
  all: try (apply count_inv_loop_close; by apply (count_inv_same n w)).
  - by apply (count_inv_same n (close_begin w)), count_inv_begin.
  - by apply count_inv_begin.
  - by apply count_inv_next.
Qed.

(** While the association is open, what is open is held by it, or by the loop
    that just opened it. *)
Definition held_inv (w : world) : Prop :=
  closed (w_assoc w) = false -> w_loop w <> LPanic ->
  (forall s, w_streams w !! s = Some true -> a_stream (w_assoc w) = Some s \/ exists id t d, w_loop w = LOpened s id t d) /\
  (forall c, w_sockets w !! c = Some true -> directConn (w_assoc w) = Some c \/ exists t d, w_loop w = LBound c t d).

Lemma held_inv_next w : held_inv w -> held_inv (close_next w).
Proof.
  unfold close_next. destruct (w_closing w) as [|call rest]; [done|]. intros Hi Hc Hp. destruct (Hi Hc Hp) as [Hs Hd]. split; cbn.
  - intros s Hx. apply Hs. destruct call; try done. by apply lookup_insert_Some in Hx as [[_ [=]]|[_ ?]].
  - intros c Hx. apply Hd. destruct call; try done. by apply lookup_insert_Some in Hx as [[_ [=]]|[_ ?]].
Qed.

Lemma held_inv_step w w' : udp_step cfg w w' -> tunnel_inv w -> held_inv w -> held_inv w'.
Proof.
  intros H Ht Hi. pose proof (held_inv_next w Hi) as Hn. step_ops H; try exact Hn; clear Hn.
  all: unfold held_inv, loop_close, close_begin in *; repeat (case_match; simplify_eq/=); simplify_eq/=.
  all: try done.
  all: intros Hc Hp; (destruct Hi as [Hs Hd]; [congruence..|]).
  all: try (split; intros x Hx; [destruct (Hs x Hx) as [?|(? & ? & ? & ?)] | destruct (Hd x Hx) as [?|(? & ? & ?)]]; solve [congruence | eauto 6]).
  1: split; intros x; [rewrite lookup_insert_Some; intros [[<- _]|[_ Hx]]; [by eauto 6|]|intros Hx].
  3: split; intros x Hx; [pose proof (ti_loop _ Ht) as Hl; rewrite H in Hl; destruct Hl as (_ & _ & _ & Ho);
       pose proof (ti_stream _ Ht x) as Hx'|].
  5: split; intros x; [intros Hx|rewrite lookup_insert_Some; intros [[<- _]|[_ Hx]]; [by eauto 6|]].
  7, 9: split; intros x Hx.
  11: split; intros x; [intros Hx|rewrite lookup_insert_Some; intros [[_ [=]]|[? Hx]]].
  all: left.
  all: repeat match goal with E : bool_decide _ = _ |- _ => first [apply bool_decide_eq_true in E | apply bool_decide_eq_false in E] end.
  all: first [destruct (Hs x Hx) as [?|(? & ? & ? & ?)] | destruct (Hd x Hx) as [?|(? & ? & ?)]]; try congruence.
  rewrite Hx' in Ho by done. congruence.
Qed.

(** A datagram is carried when the client sent it in an accepted packet, with its
    payload as it is and its target redirected at most to a resolver. *)
Definition carried (tr : list effect) (t d : bytes) : Prop :=
  exists addr packet t0, FromClient addr packet ∈ tr /\
    accept_packet (uc_ipStrategy cfg) (uc_blockPorts cfg) packet = Ok (Some (t0, d)) /\ redirected t0 t.

Definition carried_loop (l : loop_state) (tr : list effect) : Prop :=
  match l with
  | LRoute t d =>
      exists addr packet, FromClient addr packet ∈ tr /\
        accept_packet (uc_ipStrategy cfg) (uc_blockPorts cfg) packet = Ok (Some (t, d))
  | LSend t d | LOpening t d | LOpened _ _ t d | LWrite _ _ t d | LDirect t d | LBind t d | LBound _ t d | LDirectWrite _ t d =>
      carried tr t d
  | _ => True
  end.

Definition carried_inv (w : world) : Prop :=
  carried_loop (w_loop w) (w_trace w) /\
  forall s t d, TunnelWrite s t d ∈ w_trace w \/ DirectWrite s t d ∈ w_trace w -> carried (w_trace w) t d.

Lemma carried_mono tr e t d : carried tr t d -> carried (tr ++ [e]) t d.
Proof. intros (a & p & t0 & H & H2). exists a, p, t0. split; [|done]. rewrite elem_of_app. by left. Qed.

Lemma carried_loop_mono l tr e : carried_loop l tr -> carried_loop l (tr ++ [e]).
Proof.
  destruct l; try done; try apply carried_mono.
  intros (a & p & H & H2). exists a, p. split; [|done]. rewrite elem_of_app. by left.
Qed.

Lemma carried_inv_emit e w :
  carried_inv w -> (forall s t d, e = TunnelWrite s t d \/ e = DirectWrite s t d -> carried (w_trace w) t d) -> carried_inv (emit e w).
Proof.
  intros [Hl Hw] He. split; [by apply carried_loop_mono|]. intros s t d. cbn. rewrite !elem_of_app, !list_elem_of_singleton.
  intros [[H|H]|[H|H]]; apply carried_mono; eauto.
Qed.

Lemma carried_inv_goto l w : carried_inv w -> carried_loop l (w_trace w) -> carried_inv (goto l w).
Proof. by intros [_ Hw] Hl. Qed.

Lemma carried_inv_frame w w' :
  close_frame w w' -> w_loop w' = w_loop w \/ w_loop w' = LIdle \/ w_loop w' = LClosing -> carried_inv w -> carried_inv w'.
Proof. intros (E & _) El. unfold carried_inv. rewrite E. by destruct El as [->|[-> | ->]]; intros [Hl Hw]. Qed.

Lemma carried_inv_loop_close w : carried_inv w -> carried_inv (loop_close w).
Proof. destruct (loop_close_frame w) as [Hf Hl]. apply (carried_inv_frame _ _ Hf). tauto. Qed.

Lemma carried_inv_begin w : carried_inv w -> carried_inv (close_begin w).
Proof. destruct (close_begin_frame w) as [Hf Hl]. apply (carried_inv_frame _ _ Hf). tauto. Qed.

Lemma carried_inv_next w : carried_inv w -> carried_inv (close_next w).
Proof. destruct (close_next_frame w) as [Hf Hl]. apply (carried_inv_frame _ _ Hf). tauto. Qed.

Lemma carried_inv_step w w' : udp_step cfg w w' -> carried_inv w -> carried_inv w'.
Proof.
  intros H Hi. pose proof Hi as [Hl Hw]. step_ops H.
  all: try exact Hi.
  all: try rewrite H in Hl.
  all: repeat match goal with
    | |- carried_inv (loop_close _) => apply carried_inv_loop_close
    | |- carried_inv (close_next _) => apply carried_inv_next
    | |- carried_inv (close_begin _) => apply carried_inv_begin
    | |- carried_inv (goto _ _) => apply carried_inv_goto
    | |- carried_inv (emit _ _) => apply carried_inv_emit
    end.
  all: try exact Hi; try exact Hl; try done.
  all: try (intros ? ? ? [[=]|[=]]; by subst).
  all: try (eexists _, _; split; [|done]; cbn; rewrite elem_of_app, list_elem_of_singleton; by right).
  1, 2: destruct Hl as (addr & packet & Hin & Ha); exists addr, packet, t; split_and!; [done..|by eapply route_datagram_target].
  by apply (carried_inv_begin w).
Qed.

(** All of it holds in every state the association can reach. *)
Record assoc_inv (n : Z) (w : world) : Prop := mkAssocInv {
  ai_client : client_inv w;
  ai_tunnel : tunnel_inv w;
  ai_count : count_inv n w;
  ai_held : held_inv w;
  ai_carried : carried_inv w;
}.

Lemma assoc_inv_initial n rt : assoc_inv n (associate n rt).
Proof.
  constructor.
  - intros addr pkt [H|H]; inversion H.
  - constructor; cbn; try done; [by left|]. intros s t d H. inversion H.
  - split_and!; try done. apply NoDup_nil_2.
  - intros _ _. split; intros x Hx; cbn in Hx; by rewrite lookup_empty in Hx.
  - split; [done|]. intros s t d [H|H]; inversion H.
Qed.

Lemma assoc_inv_step n w w' : udp_step cfg w w' -> assoc_inv n w -> assoc_inv n w'.
Proof.
  intros H [H1 H2 H3 H4 H5]. constructor;
    [by eapply client_inv_step|by eapply tunnel_inv_step|by eapply count_inv_step|by eapply held_inv_step|by eapply carried_inv_step].
Qed.

Lemma assoc_inv_reachable n rt w : rtc (udp_step cfg) (associate n rt) w -> assoc_inv n w.
Proof.
  apply (rtc_ind_r (assoc_inv n) (associate n rt)); [apply assoc_inv_initial|]. intros y z _ Hs Hi. by eapply assoc_inv_step.
Qed.

(** * Closing *)

(** The loop is not between opening something and storing it. *)
Definition settled (l : loop_state) : Prop :=
  match l with LOpening _ _ | LOpened _ _ _ _ | LBind _ _ | LBound _ _ _ | LPanic => False | _ => True end.

(** What is open is what [Close] is still going to close. *)
Definition open_due (w : world) : Prop :=
  (forall s, w_streams w !! s = Some true -> CStream s false ∈ w_closing w) /\
  (forall c, w_sockets w !! c = Some true -> CSocket c ∈ w_closing w).

Definition all_closed (w : world) : Prop :=
  (forall s, w_streams w !! s <> Some true) /\ (forall c, w_sockets w !! c <> Some true).

Lemma open_due_end w : open_due w -> w_closing w = [] -> all_closed w.
Proof. intros [H1 H2] E. rewrite E in *. split; [intros s Hs%H1|intros c Hc%H2]; by apply elem_of_nil in Hs || by apply elem_of_nil in Hc. Qed.

Definition shut (w : world) : Prop := closed (w_assoc w) = true /\ (settled (w_loop w) \/ w_loop w = LPanic) /\ open_due w.

Lemma shut_next w : shut w -> shut (close_next w).
Proof.
  unfold close_next. destruct (w_closing w) as [|call rest] eqn:Hl; [done|]. unfold shut, open_due. cbn. rewrite Hl.
  intros (Hc & Hs & Ho1 & Ho2). split_and!; [done..| |].
  - intros s Hx. assert (w_streams w !! s = Some true) as Hw.
    { destruct call; try done. by apply lookup_insert_Some in Hx as [[_ [=]]|[_ ?]]. }
    apply Ho1, elem_of_cons in Hw as [<-|]; [|done]. by rewrite lookup_insert_eq in Hx.
  - intros c Hx. assert (w_sockets w !! c = Some true) as Hw.
    { destruct call; try done. by apply lookup_insert_Some in Hx as [[_ [=]]|[_ ?]]. }
    apply Ho2, elem_of_cons in Hw as [<-|]; [|done]. by rewrite lookup_insert_eq in Hx.
Qed.

Lemma shut_step w w' : udp_step cfg w w' -> shut w -> shut w'.
Proof.
  intros H Hs. assert (shut (close_next w)) as Hnext by by apply shut_next. revert Hnext. destruct Hs as (Hc & Hl & Ha).
  step_ops H; intros Hnext; unfold loop_close, close_begin in *; rewrite ?Hc; try exact Hnext; clear Hnext.
  all: unfold shut, open_due in *; repeat (case_match; simplify_eq/=); simplify_eq/=; rewrite ?H in *; cbn in *.
  all: try (split_and!; solve [done | by left | by right | apply Ha | tauto | congruence]).
  all: by destruct Hl.
Qed.

Lemma close_calls_stream a s : a_stream a = Some s -> CStream s false ∈ close_calls a.
Proof. intros E. unfold close_calls. rewrite E, !elem_of_app, !elem_of_cons. tauto. Qed.

Lemma close_calls_socket a c : directConn a = Some c -> CSocket c ∈ close_calls a.
Proof. intros E. unfold close_calls. rewrite E, !elem_of_app, !elem_of_cons. tauto. Qed.

Lemma close_begin_shut n w :
  assoc_inv n w -> closed (w_assoc w) = false -> settled (w_loop w) -> shut (close_begin w).
Proof.
  intros Hi Hc Hl. destruct (ai_held _ _ Hi Hc) as [Hs Hd]; [by intros E; rewrite E in Hl|].
  unfold shut, close_begin. rewrite Hc. split_and!; [done|by left|]. split; cbn.
  - intros s [?|(? & ? & ? & E)]%Hs; [by apply close_calls_stream|by rewrite E in Hl].
  - intros c [?|(? & ? & E)]%Hd; [by apply close_calls_socket|by rewrite E in Hl].
Qed.

(** The calls of [Close] never wait: they can be made one after the other. *)
Lemma close_next_steps k w : rtc (udp_step cfg) w (Nat.iter k close_next w).
Proof. induction k as [|k IH]; [done|]. cbn. eapply rtc_r; [exact IH|apply st_close]. Qed.

Lemma Close_rest w : rtc (udp_step cfg) (close_begin w) (Close w).
Proof. unfold Close. destruct (closed (w_assoc w)) eqn:E; [unfold close_begin; by rewrite E|apply close_next_steps]. Qed.

Lemma Close_steps w : rtc (udp_step cfg) w (Close w).
Proof. eapply rtc_l; [apply st_client_gone|apply Close_rest]. Qed.

Lemma close_next_closing k w : w_closing (Nat.iter k close_next w) = drop k (w_closing w).
Proof.
  assert (forall v, w_closing (close_next v) = drop 1 (w_closing v)) as H1 by (intros v; unfold close_next; by destruct (w_closing v) eqn:E).
  induction k as [|k IH]; [done|]. rewrite Nat.iter_succ, H1, IH, drop_drop. by rewrite Nat.add_comm.
Qed.

Lemma Close_closing w : closed (w_assoc w) = false -> w_closing (Close w) = [].
Proof.
  intros Hc. unfold Close. rewrite Hc, close_next_closing. unfold close_begin. rewrite Hc. cbn. apply drop_ge. lia.
Qed.

(** Once the loop has stopped and [Close] has returned, no step closes a stream. *)
Lemma stopped_keeps s w w' :
  udp_step cfg w w' ->
  closed (w_assoc w) = true /\ w_closing w = [] /\ (w_loop w = LStopped \/ w_loop w = LPanic) /\ w_streams w !! s = Some true ->
  closed (w_assoc w') = true /\ w_closing w' = [] /\ (w_loop w' = LStopped \/ w_loop w' = LPanic) /\ w_streams w' !! s = Some true.
Proof.
  intros H (Hc & Hz & Hl & Hs). step_cases H; rewrite ?H in *; cbn in *.
  all: split_and!; solve [done | by left | by right | tauto | destruct Hl; congruence].
Qed.

End Invariants.

Section Theorems.
Context {U : GoUnicode} {R : GoRegexp}.


(** Closing releases everything unless the loop is just opening something.
    If [Close] starts on an open association while the loop is not between opening
    a stream or socket and storing it, then, whatever else happens while it makes
    its calls and after, once they are made no stream and no socket is open, and the
    listener and the client's connection are closed; it makes them without waiting
    for anything. *)
Theorem udp_close_releases (cfg : udpConfig) (n : Z) (rt : routeRuntime) (w w' : world)
    (Hreach : rtc (udp_step cfg) (associate n rt) w) (Hopen : closed (w_assoc w) = false) (Hset : settled (w_loop w))
    (Hlater : rtc (udp_step cfg) (close_begin w) w') :
  (w_closing w' = [] -> all_closed w' /\ w_listener w' = false /\ w_tcp w' = false /\ w_active w' = wrapU 64 n) /\
  rtc (udp_step cfg) w' (Nat.iter (length (w_closing w')) close_next w') /\
  w_closing (Nat.iter (length (w_closing w')) close_next w') = [].
Proof.
  apply assoc_inv_reachable in Hreach as Hi.
  assert (shut w') as (Hc & _ & Ha).
  { revert Hlater. apply (rtc_ind_r shut); [by eapply close_begin_shut|]. intros y z _ Hs Hy. by eapply shut_step. }
  split; [|split; [apply close_next_steps|rewrite close_next_closing; by apply drop_ge]]. intros Hz.
  assert (assoc_inv cfg n w') as Hi'.
  { eapply assoc_inv_reachable. etrans; [exact Hreach|]. eapply rtc_l; [apply st_client_gone|exact Hlater]. }
  destruct (ai_count _ _ _ Hi') as (_ & H2 & H3 & H4 & _). unfold still in *. rewrite Hc, Hz in *.
  rewrite bool_decide_eq_false_2 in H2, H3, H4 by apply not_elem_of_nil. cbn in H4. rewrite Z.add_0_r in H4.
  split; [by apply open_due_end|done].
Qed.

End Theorems.

(** * Where datagrams go *)

Section Routing.
Context {U : GoUnicode} {P : GeoProto} {R : GoRegexp} {Srt : GoSort} {SrtOk : GoSortOk}.
Context (sites : option (list (option GeoSite))) (ips : option (list (option GeoIP))) (rules : list Rule).

(** An engine with these rules and databases. *)
Definition engine_with (rt : routeRuntime) : Prop :=
  exists e, rt_engine rt = Some e /\ engine_ok e /\ site_loaded (e_geoSite e) sites /\ ip_loaded (e_geoIP e) ips /\ e_rules e = rules.

Definition decides (h : bytes) (a : Addr) : option Rule :=
  let '(h, a) := split_target h a in deciding_rule sites ips rules h a.

Definition decision (h : bytes) (a : Addr) : routeAction :=
  match decides h a with Some r => action_of (Action r) | None => routeProxy end.

Definition tunnel_name (q : bytes) : bool :=
  match decides q AddrZero with Some r => bool_decide (Action r = ActionProxy) | None => false end.

(** Matching only counts. *)
Lemma rt_match_keeps host ip rt rt' r :
  rt_match host ip rt = (rt', r) -> engine_with rt -> engine_with rt' /\ rt_dnsMap rt' = rt_dnsMap rt.
Proof.
  unfold rt_match. intros H (e & He & Hok & Hs & Hi & Hr). rewrite He in H. destruct (Match e host ip) as [e' x] eqn:EM.
  injection H as <- _. split; [|done]. exists e'. split; [done|].
  unfold Match, hit in EM. destruct (split_target host ip) as [h a].
  repeat (case_match; simplify_eq/=; try done).
Qed.

Lemma rt_match_with host ip rt :
  engine_with rt ->
  exists rt', engine_with rt' /\ rt_dnsMap rt' = rt_dnsMap rt /\
    rt_match host ip rt = (rt', Ok match decides host ip with Some r => (Action r, true) | None => (ActionDirect, false) end).
Proof.
  intros Hw. pose proof Hw as (e & He & Hok & Hs & Hi & Hr).
  pose proof (rt_match_decides rt e sites ips host ip He Hok Hs Hi) as H. unfold decides.
  destruct (split_target host ip) as [h a]. destruct H as (rt' & _ & E). rewrite Hr in E.
  destruct (rt_match_keeps _ _ _ _ _ E Hw) as [Hw' Hm]. by exists rt'.
Qed.

Lemma decideForTarget_with host ip rt :
  engine_with rt ->
  exists rt', engine_with rt' /\ rt_dnsMap rt' = rt_dnsMap rt /\ decideForTarget host ip rt = (rt', Ok (decision host ip)).
Proof.
  intros Hw. destruct (rt_match_with host ip rt Hw) as (rt' & Hw' & Hm & E). exists rt'. split_and!; [done..|].
  unfold decideForTarget, decision. destruct Hw as (e & -> & _). rewrite E. by destruct (decides host ip).
Qed.

Lemma shouldTunnelDNS_with q rt :
  engine_with rt ->
  exists rt', engine_with rt' /\ rt_dnsMap rt' = rt_dnsMap rt /\ shouldTunnelDNS q rt = (rt', Ok (tunnel_name q)).
Proof.
  intros Hw. destruct (rt_match_with q AddrZero rt Hw) as (rt' & Hw' & Hm & E). exists rt'. split_and!; [done..|].
  unfold shouldTunnelDNS, tunnel_name. destruct Hw as (e & -> & _). rewrite E. by destruct (decides q AddrZero).
Qed.

Lemma resolve_same h now rt rt' : rt_dnsMap rt' = rt_dnsMap rt -> resolveHostForRoute h now rt' = resolveHostForRoute h now rt.
Proof. unfold resolveHostForRoute, mappedHost. by intros ->. Qed.

(** The host a datagram is sent to. *)
Definition sent_to (host port : bytes) (q : option bytes) : bytes :=
  match q with
  | Some name => if bool_decide (port = port53) then if tunnel_name name then tunnelDNSHost else directDNSHost else host
  | None => host
  end.

Lemma rewrite_dns_with rt host port data q :
  engine_with rt -> SplitHostPort (JoinHostPort host port) = Ok (host, port) -> sniffDNSQuery data = Ok q ->
  exists rt', engine_with rt' /\ rt_dnsMap rt' = rt_dnsMap rt /\
    rewrite_dns (JoinHostPort host port) data rt = (rt', Ok (JoinHostPort (sent_to host port q) port, sent_to host port q)).
Proof.
  intros Hrt Ht Hq. unfold rewrite_dns, sent_to. rewrite Ht, Hq.
  assert (is_Some (rt_engine rt)) as He by (by destruct Hrt as (e & -> & _)).
  rewrite (bool_decide_eq_true_2 _ He), andb_true_r.
  case_bool_decide as Ep; [subst port|by exists rt; destruct q]. destruct q as [name|]; [|by exists rt].
  destruct (shouldTunnelDNS_with name rt Hrt) as (rt1 & Hw1 & Hm1 & ->). exists rt1. split_and!; [done..|]. cbn [res_bind].
  destruct (tunnel_name name); case_bool_decide as Eh; try done; [|by subst].
  rewrite <- Eh in Ht. vm_compute in Ht. by injection Ht as <-.
Qed.

(** C29: where a datagram of the client goes when routing is on.  A DNS query (port
    53, a name that the sniffer reads) goes to the resolver of the tunnel if the
    rule that decides its name says proxy, and to the domestic resolver in every
    other case, also when no rule decides; any other datagram goes to its own
    target.  The exit is decided afterwards and for the new target: it is direct
    exactly if the rule that decides the target's host, or the name last seen for
    its address, says direct.  So a query for the domestic resolver leaves
    directly only if a rule covers that resolver. *)
Theorem udp_datagram_routed (rt : routeRuntime) (host port data : bytes) (q : option bytes) (now : Time)
    (Hrt : engine_with rt) (Ht : SplitHostPort (JoinHostPort host port) = Ok (host, port))
    (Hq : sniffDNSQuery data = Ok q) :
  let h := match q with
           | Some name => if bool_decide (port = port53) then if tunnel_name name then tunnelDNSHost else directDNSHost else host
           | None => host
           end in
  let '(routeHost, routeIP) := resolveHostForRoute h now rt in
  exists rt', rt_dnsMap rt' = rt_dnsMap rt /\
    route_datagram (JoinHostPort host port) data now rt =
      (rt', Ok (JoinHostPort h port, bool_decide (decision routeHost routeIP = routeDirect))).
Proof.
  intros h. change h with (sent_to host port q). clear h.
  destruct (rewrite_dns_with rt host port data q Hrt Ht Hq) as (rt1 & Hw1 & Hm1 & E).
  destruct (resolveHostForRoute (sent_to host port q) now rt) as [rh ri] eqn:Er.
  destruct (decideForTarget_with rh ri rt1 Hw1) as (rt2 & _ & Hm2 & Ed).
  exists rt2. split; [congruence|]. unfold route_datagram. by rewrite E, (resolve_same _ _ _ _ Hm1), Er, Ed.
Qed.

End Routing.

(** * A concrete association *)

Section Demo.
#[local] Instance demo_U : GoUnicode := ascii_only_unicode.
#[local] Instance demo_R : GoRegexp := plain_GoRegexp.

Definition demo_cfg : udpConfig := mkUdpConfig 0 {[443]}.
Definition demo_addr : bytes := bs "127.0.0.1:50000".
Definition demo_target : bytes := bs "192.0.2.1:53".
Definition demo_data : bytes := bs "hi".
Definition demo_packet : bytes := [z2b 0; z2b 0; z2b 0; z2b 1; z2b 192; z2b 0; z2b 2; z2b 1; z2b 0; z2b 53] ++ demo_data.

(** One datagram, up to the opening of its stream. *)
Definition demo_start : world := associate 4 (mkRuntime None ∅).
Definition demo_received : world := loop_receive demo_cfg demo_addr demo_packet demo_start.
Definition demo_routed : world := send_route demo_target demo_data zeroTime demo_received.
Definition demo_opening : world := send_lock demo_target demo_data demo_routed.

(** The rest of it, from a state in which the stream is being opened. *)
Definition demo_rest (w : world) : world :=
  send_write true (Some 7%nat) true demo_target demo_data
    (send_start 7 1 demo_target demo_data (send_open (Some (7%nat, 1)) demo_target demo_data w)).

Lemma demo_opening_reachable : rtc (udp_step demo_cfg) demo_start demo_opening.
Proof.
  eapply rtc_l; [apply (st_receive demo_cfg demo_start demo_addr demo_packet); by vm_compute|].
  eapply rtc_l; [apply (st_route demo_cfg demo_received demo_target demo_data zeroTime); by vm_compute|].
  eapply rtc_l; [apply (st_send demo_cfg demo_routed demo_target demo_data); by vm_compute|]. apply rtc_refl.
Qed.

Lemma demo_rest_reachable w :
  w_loop w = LOpening demo_target demo_data -> w_streams w !! 7%nat = None -> rtc (udp_step demo_cfg) w (demo_rest w).
Proof.
  intros Hl Hs. eapply rtc_l; [by apply (st_open demo_cfg w demo_target demo_data 7 1)|].
  eapply rtc_l; [by apply (st_start demo_cfg)|]. eapply rtc_l; [by apply (st_write demo_cfg _ true)|]. apply rtc_refl.
Qed.

Definition demo_sent : world := demo_rest demo_opening.

Lemma demo_sent_reachable : rtc (udp_step demo_cfg) demo_start demo_sent.
Proof. etrans; [exact demo_opening_reachable|]. apply demo_rest_reachable; by vm_compute. Qed.

(** A stream stored after [Close] is never closed: the client goes away while the
    stream of its first datagram is being opened, [send] stores the stream in the
    closed association, and from then on it stays open whatever happens,
    although the loop has ended, [Close] has returned and the connections are
    closed. *)
Theorem udp_close_race :
  exists w s, rtc (udp_step demo_cfg) demo_start w /\
    closed (w_assoc w) = true /\ w_closing w = [] /\ w_loop w = LStopped /\ w_listener w = false /\ w_tcp w = false /\
    forall w', rtc (udp_step demo_cfg) w w' -> w_streams w' !! s = Some true.
Proof.
  exists (goto LStopped (demo_rest (Close demo_opening))), 7%nat. split.
  { etrans; [exact demo_opening_reachable|]. etrans; [apply Close_steps|].
    etrans; [apply demo_rest_reachable; by vm_compute|]. eapply rtc_l; [apply st_stop; by vm_compute|]. apply rtc_refl. }
  split_and!; [by vm_compute..|]. intros w' Hw'.
  enough (closed (w_assoc w') = true /\ w_closing w' = [] /\ (w_loop w' = LStopped \/ w_loop w' = LPanic) /\ w_streams w' !! 7%nat = Some true) by tauto.
  revert Hw'. apply (rtc_ind_r (fun w => closed (w_assoc w) = true /\ w_closing w = [] /\ (w_loop w = LStopped \/ w_loop w = LPanic) /\ w_streams w !! 7%nat = Some true)).
  - split_and!; [by vm_compute|by vm_compute|by left|by vm_compute].
  - intros y z _ Hs Hy. by eapply stopped_keeps.
Qed.


Lemma udp_close_releases_witness :
  all_closed (Close demo_sent) /\ w_active (Close demo_sent) = 4 /\ w_streams demo_sent !! 7%nat = Some true.
Proof.
  destruct (udp_close_releases demo_cfg 4 (mkRuntime None ∅) demo_sent (Close demo_sent) demo_sent_reachable) as (H & _);
    [by vm_compute|by vm_compute|apply Close_rest|].
  destruct (H (Close_closing demo_sent ltac:(by vm_compute))) as (H1 & _ & _ & H4). split_and!; [exact H1|exact H4|by vm_compute].
Defined.

Definition google_query : bytes :=
  dns_header 7 256 0 [z2b 0; z2b 0; z2b 0; z2b 0] ++ enc_qname [bs "www"; bs "google"; bs "com"] ++ be_put 2 1 ++ be_put 2 1.

Lemma sample_engine_with :
  engine_with (P := sample_GeoProto) (Srt := merge_GoSort) sample_sites sample_ips parsed_sample sample_runtime.
Proof.
  eexists. split; [reflexivity|]. split_and!.
  - split; [|by vm_compute]. apply (bool_decide_unpack _). by vm_compute.
  - exact sample_site_loaded.
  - exact sample_ip_loaded.
  - done.
Qed.

(** A query for a proxied name, where [default:direct] decides 1.1.1.1: it is
    redirected to the resolver of the tunnel, and then sent past the tunnel. *)
Lemma udp_datagram_routed_witness :
  exists rt', route_datagram (bs "8.8.8.8:53") google_query zeroTime sample_runtime = (rt', Ok (bs "1.1.1.1:53", true)).
Proof.
  pose proof (udp_datagram_routed (SrtOk := merge_GoSortOk) sample_sites sample_ips parsed_sample sample_runtime (bs "8.8.8.8") port53 google_query
    (Some (bs "www.google.com")) zeroTime sample_engine_with) as H.
  specialize (H ltac:(by vm_compute) ltac:(by vm_compute)). cbv zeta in H.
  destruct (resolveHostForRoute _ zeroTime sample_runtime) as [rh ri] eqn:Er in H.
  vm_compute in Er. injection Er as <- <-. destruct H as (rt' & _ & H). exists rt'.
  change (bs "8.8.8.8:53") with (JoinHostPort (bs "8.8.8.8") port53). rewrite H. by vm_compute.
Defined.

End Demo.
