(* ===== verification/Config.v ===== *)
(** The configuration of internal/app/config.go: defaults, the fields of the
    configuration file over the flags, the checks before start-up, the delays
    between reconnections, and the form fields are rewritten to; with the checks
    of policy.go, front_proxy.go and local_http.go it calls.  [url.Parse],
    [time.ParseDuration] and the JSON decoder are parameters. *)

From Stdlib Require Import ZArith Lia Strings.Byte Floats.SpecFloat.
From stdpp Require Import base numbers list gmap.
From S2P Require Import Prelude GoStrings GoNet NetAddr GoTime Wire WireV3 Client Policy Sniff Socks5 Upstream EchDns.

Local Open Scope Z_scope.
Local Open Scope go_scope.

(** * Durations *)

(** Nanoseconds, as [time.Duration]. *)
Definition Second : Z := 1000000000.

Record GlobalConfig : Type := mkGlobal {
  DialTimeout : Z; WSHandshakeTimeout : Z; ReconnectDelay : Z; ReconnectMaxDelay : Z; ReconnectJitter : Z;
  RTTProbeTimeout : Z; DNSQueryTimeout : Z; ECHRetryDelay : Z; UDPReadTimeout : Z; ShutdownTimeout : Z;
  AuthSkew : Z; PreAuthTimeout : Z; DNSCacheTTL : Z; ReadBuf : Z;
}.

Definition defaultGlobalConfig : GlobalConfig := {|
  DialTimeout := 3 * Second; WSHandshakeTimeout := 5 * Second; ReconnectDelay := Second;
  ReconnectMaxDelay := 30 * Second; ReconnectJitter := 500 * 1000000; RTTProbeTimeout := 2 * Second;
  DNSQueryTimeout := 3 * Second; ECHRetryDelay := 2 * Second; UDPReadTimeout := Second;
  ShutdownTimeout := 5 * Second; AuthSkew := 300 * Second; PreAuthTimeout := 5 * Second;
  DNSCacheTTL := 300 * Second; ReadBuf := 64 * 1024 |}.

(** The loop of [baseReconnectDelay], [n] rounds from [delay]. *)
Fixpoint reconnect_loop (cfg : GlobalConfig) (n : nat) (delay : Z) : Z :=
  match n with
  | O => delay
  | S n =>
      if (0 <? ReconnectMaxDelay cfg) && (ReconnectMaxDelay cfg <=? delay) then ReconnectMaxDelay cfg else
      let delay := wrapS 64 (delay * 2) in
      if (0 <? ReconnectMaxDelay cfg) && (ReconnectMaxDelay cfg <? delay) then ReconnectMaxDelay cfg
      else reconnect_loop cfg n delay
  end.

Definition baseReconnectDelay (cfg : GlobalConfig) (attempt : Z) : Z :=
  if ReconnectDelay cfg <=? 0 then 0 else reconnect_loop cfg (Z.to_nat attempt) (ReconnectDelay cfg).

(** [randomDuration]: [draw] is what [rand.Int] returns below a limit. *)
Definition randomDuration (draw : Z -> option Z) (limit : Z) : Z :=
  if limit <=? 0 then 0 else default 0 (draw limit).

Definition reconnectDelay (cfg : GlobalConfig) (draw : Z -> option Z) (attempt : Z) : Z :=
  let delay := baseReconnectDelay cfg attempt in
  if (delay <=? 0) || (ReconnectJitter cfg <=? 0) then delay else
  let half := Z.quot delay 2 in
  let jitterLimit := if (0 <? half) && (half <? ReconnectJitter cfg) then half else ReconnectJitter cfg in
  wrapS 64 (delay + randomDuration draw jitterLimit).

(** * Front proxy *)

Record WebSocketFrontProxyConfig : Type := mkFrontProxy {
  fp_Enabled : bool; fp_Type : bytes; fp_Server : bytes; fp_ConnectHost : bytes; fp_Headers : gmap bytes bytes;
}.

Definition no_front_proxy : WebSocketFrontProxyConfig := mkFrontProxy false [] [] [] ∅.

Definition crlf : bytes := [z2b 13; z2b 10].

Definition containsHTTPHeaderLineBreak (value : bytes) : bool := ContainsAny value crlf.

Definition isHTTPHostHeaderValue (value : bytes) : bool :=
  negb (is_empty value) && negb (containsHTTPHeaderLineBreak value) &&
  forallb (fun c => negb ((b2z c <=? 32) || (b2z c =? 127)) && negb (chr (z2b 47) c || chr (z2b 92) c)) value.

Definition isHTTPToken (value : bytes) : bool :=
  negb (is_empty value) &&
  forallb (fun c => is_digit c || is_upper c || is_lower c || existsb (chr c) (bs "!#$%&'*+-.^_`|~")) value.

Section Checks.
Context `{U : GoUnicode}.

Definition validateHTTPConnectHeader (name value : bytes) : res unit :=
  if is_empty (TrimSpace name) then Err (Errorf "websocket_front_proxy.headers 包含空 header 名" []) else
  if negb (isHTTPToken name) then Err (Errorf "websocket_front_proxy.headers[%q] header 名无效" []) else
  if EqualFold name (bs "Host") then Err (Errorf "websocket_front_proxy.headers 不能设置 Host，请使用 connect_host" []) else
  if containsHTTPHeaderLineBreak value then Err (Errorf "websocket_front_proxy.headers[%q] 不能包含 CR/LF" []) else Ok tt.

(** The loop over the headers; their order is the map's. *)
Fixpoint validate_headers (headers : list (bytes * bytes)) : res unit :=
  match headers with
  | [] => Ok tt
  | (name, value) :: headers => let! _ := validateHTTPConnectHeader name value in validate_headers headers
  end.

Definition validateWebSocketFrontProxyConfig (config : WebSocketFrontProxyConfig) : res unit :=
  if negb (fp_Enabled config) then Ok tt else
  if negb (bool_decide (fp_Type config = bs "http_connect")) then Err (Errorf "websocket_front_proxy.type 仅支持 %q" []) else
  if is_empty (TrimSpace (fp_Server config)) then Err (Errorf "websocket_front_proxy.server 不能为空" []) else
  let! _ := res_map_err (Wrapf "websocket_front_proxy.server 无效: %w") (ValidateHostPort (fp_Server config)) in
  if negb (is_empty (fp_ConnectHost config)) && negb (isHTTPHostHeaderValue (fp_ConnectHost config))
  then Err (Errorf "websocket_front_proxy.connect_host 无效" []) else
  validate_headers (map_to_list (fp_Headers config)).

(** * Lists, tokens and addresses *)

Definition splitCommaList (raw : bytes) : list bytes :=
  filter (fun p => p <> []) (map TrimSpace (Split raw c_comma)).

Fixpoint parse_ports (parts : list bytes) (ports : gset Z) : res (gset Z) :=
  match parts with
  | [] => Ok ports
  | part :: parts =>
      match Atoi part with
      | Some port =>
          if (port <=? 0) || (65535 <? port) then Err (Errorf "端口 %q 必须是 1-65535 之间的整数" [])
          else parse_ports parts ({[port]} ∪ ports)
      | None => Err (Errorf "端口 %q 必须是 1-65535 之间的整数" [])
      end
  end.

Definition parseUDPBlockPorts (raw : bytes) : res (gset Z) := parse_ports (splitCommaList raw) ∅.

Definition validateToken (value : bytes) : res unit :=
  if existsb (fun r => (b2z r <? 32) || (b2z r =? 127)) value then Err (Errorf "token 不能包含控制字符" []) else Ok tt.

Definition validateDialIPOverride (value : bytes) : res unit :=
  let name v f := match ParseIP v with Some _ => Ok tt | None => res_map_err (Wrapf f) (validateDNSName v) end in
  match SplitHostPort value with
  | Ok (host, port) =>
      if is_empty (TrimSpace port) then Err (Errorf "port 不能为空" []) else
      match Atoi port with
      | Some p =>
          if (p <=? 0) || (65535 <? p) then Err (Errorf "port 必须在 1-65535 之间" [])
          else name host "host 必须是 IP 地址或合法主机名: %w"%string
      | None => Err (Errorf "port 必须在 1-65535 之间" [])
      end
  | _ => name value "必须是 IP 地址、IP:port 或合法主机名: %w"%string
  end.

Definition normalizeHTTPProxyAuthority (authority defaultPort : bytes) : res bytes :=
  let authority := TrimSpace authority in
  if is_empty authority then Err (Errorf "代理目标不能为空" []) else
  if ContainsAny authority [z2b 32; z2b 9; z2b 13; z2b 10] then Err (Errorf "代理目标包含非法字符" []) else
  match SplitHostPort authority with
  | Ok (host, port) =>
      if is_empty (TrimSpace host) then Err (Errorf "host 不能为空" []) else
      let! _ := ValidateHostnameOrIP host in
      match Atoi port with
      | Some p => if (p <=? 0) || (65535 <? p) then Err (Errorf "port 必须在 1-65535 之间" []) else Ok (JoinHostPort host port)
      | None => Err (Errorf "port 必须在 1-65535 之间" [])
      end
  | _ =>
      if HasPrefix authority [c_lbrack] then
        if negb (HasSuffix authority [c_rbrack]) then Err (Errorf "IPv6 地址格式无效" []) else
        let host := TrimSuffix (TrimPrefix authority [c_lbrack]) [c_rbrack] in
        match ParseIP host with
        | None => Err (Errorf "IPv6 地址格式无效" [])
        | Some _ => Ok (JoinHostPort host defaultPort)
        end
      else if existsb (chr c_colon) authority then Err (Errorf "代理目标地址无效" []) else
      let! _ := ValidateHostnameOrIP authority in
      Ok (JoinHostPort authority defaultPort)
  end.

Definition validateMTLSConfigValues (isServer : bool) (serverScheme cert key clientCA clientCert clientKey : bytes) : res unit :=
  let! _ := res_map_err (Wrapf "server cert/key: %w") (validateCertificatePair cert key) in
  let! _ := res_map_err (Wrapf "client cert/key: %w") (validateCertificatePair clientCert clientKey) in
  if isServer then
    if negb (is_empty clientCA) && negb (bool_decide (serverScheme = bs "wss"))
    then Err (Errorf "-client-ca 只能用于 wss 服务端" []) else
    if negb (is_empty clientCert) || negb (is_empty clientKey)
    then Err (Errorf "-client-cert/-client-key 只能用于客户端模式" []) else Ok tt
  else
    if negb (is_empty cert) || negb (is_empty key) then Err (Errorf "-cert/-key 只能用于服务端模式" []) else
    if negb (is_empty clientCA) then Err (Errorf "-client-ca 只能用于服务端模式" []) else Ok tt.

Fixpoint positive_durations (checks : list (String.string * Z)) : res unit :=
  match checks with
  | [] => Ok tt
  | (name, value) :: checks => if value <=? 0 then Err (Errorf (String.append name " 必须大于 0"%string) []) else positive_durations checks
  end.

Definition validateGlobalConfigValues (global : GlobalConfig) (maxClients maxStreams : Z) : res unit :=
  let! _ := positive_durations
    [("dial-timeout"%string, DialTimeout global); ("ws-handshake-timeout"%string, WSHandshakeTimeout global);
     ("reconnect-delay"%string, ReconnectDelay global); ("reconnect-max-delay"%string, ReconnectMaxDelay global);
     ("rtt-timeout"%string, RTTProbeTimeout global); ("dns-timeout"%string, DNSQueryTimeout global);
     ("ech-retry-delay"%string, ECHRetryDelay global); ("udp-read-timeout"%string, UDPReadTimeout global);
     ("shutdown-timeout"%string, ShutdownTimeout global); ("preauth-timeout"%string, PreAuthTimeout global)] in
  if ReconnectJitter global <? 0 then Err (Errorf "reconnect-jitter 不能小于 0" []) else
  if AuthSkew global <? 0 then Err (Errorf "auth-skew 不能小于 0" []) else
  if ReconnectMaxDelay global <? ReconnectDelay global then Err (Errorf "reconnect-max-delay 不能小于 reconnect-delay" []) else
  if maxClients <? 0 then Err (Errorf "max-clients 不能小于 0" []) else
  if maxStreams <? 0 then Err (Errorf "max-streams 不能小于 0" []) else Ok tt.

End Checks.

(** * The file and the values *)

(** The fields of [FileConfig], [None] when absent; numbers of JSON that are
    fractions are [float64]. *)
Record FileConfig : Type := mkFileConfig {
  fc_Listen : option bytes; fc_Forward : option bytes; fc_IP : option bytes; fc_Block : option bytes;
  fc_Cert : option bytes; fc_Key : option bytes;
  fc_ClientCA : option bytes; fc_ClientCert : option bytes; fc_ClientKey : option bytes;
  fc_ClientCAFlag : option bytes; fc_ClientCertFlag : option bytes; fc_ClientKeyFlag : option bytes;
  fc_Token : option bytes; fc_Metrics : option bytes; fc_CIDR : option bytes;
  fc_AllowTarget : option bytes; fc_DenyTarget : option bytes; fc_AllowHost : option bytes; fc_DenyHost : option bytes;
  fc_AllowTargetFlag : option bytes; fc_DenyTargetFlag : option bytes; fc_AllowHostFlag : option bytes; fc_DenyHostFlag : option bytes;
  fc_MaxClients : option Z; fc_MaxClientsFlag : option Z; fc_MaxStreams : option Z; fc_MaxStreamsFlag : option Z;
  fc_DNS : option bytes; fc_ECH : option bool; fc_ECHDomain : option bytes; fc_ECHDomainFlag : option bytes;
  fc_IPS : option bytes; fc_Connections : option Z; fc_Insecure : option bool; fc_Fallback : option bool;
  fc_CipherPref : option bytes; fc_CipherPrefFlag : option bytes;
  fc_PacingRateMbps : option spec_float; fc_PacingRateMbpsFlag : option spec_float;
  fc_ShapingCoalesceMs : option Z; fc_ShapingCoalesceMsFlag : option Z;
  fc_Transport : option bytes; fc_TransportFlag : option bytes; fc_QuicPort : option Z; fc_QuicPortFlag : option Z;
  fc_EnableDatagram : option bool; fc_EnableDatagramFlag : option bool; fc_CoverTraffic : option bool; fc_CoverTrafficFlag : option bool;
  fc_WebSocketFrontProxy : option WebSocketFrontProxyConfig;
  fc_DialTimeout : option bytes; fc_WSHandshakeTimeout : option bytes; fc_ReconnectDelay : option bytes;
  fc_ReconnectMaxDelay : option bytes; fc_ReconnectJitter : option bytes; fc_RTTProbeTimeout : option bytes;
  fc_DNSQueryTimeout : option bytes; fc_DNSCacheTTL : option bytes; fc_ECHRetryDelay : option bytes;
  fc_UDPReadTimeout : option bytes; fc_ShutdownTimeout : option bytes; fc_AuthSkew : option bytes; fc_PreAuthTimeout : option bytes;
  fc_RulesPath : option bytes; fc_GeoDir : option bytes; fc_RouteEnabled : option bool; fc_SNI : option bool;
}.

Record runtimeValues : Type := mkValues {
  v_ListenAddr : bytes; v_ForwardAddr : bytes; v_IPAddr : bytes; v_UDPBlockPortsStr : bytes;
  v_CertFile : bytes; v_KeyFile : bytes; v_ClientCAFile : bytes; v_ClientCertFile : bytes; v_ClientKeyFile : bytes;
  v_Token : bytes; v_MetricsAddr : bytes; v_CIDRs : bytes;
  v_TargetAllowCIDRs : bytes; v_TargetDenyCIDRs : bytes; v_TargetAllowHosts : bytes; v_TargetDenyHosts : bytes;
  v_MaxClientSessions : Z; v_MaxStreamsPerClient : Z; v_ConnectionNum : Z; v_Insecure : bool; v_IPS : bytes;
  v_DNSServer : bytes; v_EnableECH : bool; v_ECHDomain : bytes; v_Fallback : bool; v_CipherPref : bytes;
  v_PacingRateMbps : spec_float; v_ShapingCoalesceMs : Z; v_TransportMode : bytes; v_QuicPort : Z;
  v_EnableDatagram : bool; v_CoverTraffic : bool; v_Global : GlobalConfig; v_WebSocketFrontProxy : WebSocketFrontProxyConfig;
  v_RulesPath : bytes; v_GeoDir : bytes; v_RouteEnabled : bool; v_SNISniff : bool;
}.

Definition defaultRuntimeValues : runtimeValues := {|
  v_ListenAddr := []; v_ForwardAddr := []; v_IPAddr := []; v_UDPBlockPortsStr := bs "443";
  v_CertFile := []; v_KeyFile := []; v_ClientCAFile := []; v_ClientCertFile := []; v_ClientKeyFile := [];
  v_Token := []; v_MetricsAddr := []; v_CIDRs := bs "0.0.0.0/0,::/0";
  v_TargetAllowCIDRs := []; v_TargetDenyCIDRs := []; v_TargetAllowHosts := []; v_TargetDenyHosts := [];
  v_MaxClientSessions := 0; v_MaxStreamsPerClient := 0; v_ConnectionNum := 3; v_Insecure := false; v_IPS := [];
  v_DNSServer := bs "https://doh.pub/dns-query"; v_EnableECH := false; v_ECHDomain := bs "cloudflare-ech.com";
  v_Fallback := false; v_CipherPref := bs "1,2,3"; v_PacingRateMbps := S754_zero false; v_ShapingCoalesceMs := 0;
  v_TransportMode := bs "auto"; v_QuicPort := 0; v_EnableDatagram := true; v_CoverTraffic := false;
  v_Global := defaultGlobalConfig; v_WebSocketFrontProxy := no_front_proxy;
  v_RulesPath := []; v_GeoDir := []; v_RouteEnabled := false; v_SNISniff := true |}.

(** [url.URL]: the parts the code reads.  The password is optional. *)
Record URL : Type := mkURL { u_Scheme : bytes; u_User : option (bytes * option bytes); u_Host : bytes; u_Path : bytes }.

(** The decoder reads one object with known fields ([DisallowUnknownFields]), and
    then whatever follows: [io.EOF] for nothing. *)
Class ConfigLib := {
  url_Parse : bytes -> res URL;
  ParseDuration : bytes -> res Z;
  json_Decode : bytes -> res FileConfig;
  json_Decode_extra : bytes -> res unit;
}.

(** [singleStringConfigAlias] and its copies for the other types. *)
Definition single_alias {A} (primary alias : option A) : res (option A) :=
  match primary, alias with
  | Some _, Some _ => Err (Errorf "配置字段 %q 和 %q 不能同时设置" [])
  | Some _, None => Ok primary
  | None, _ => Ok alias
  end.

Definition singleStringConfigAlias : option bytes -> option bytes -> res (option bytes) := single_alias.
Definition singleIntConfigAlias : option Z -> option Z -> res (option Z) := single_alias.
Definition singleFloat64ConfigAlias : option spec_float -> option spec_float -> res (option spec_float) := single_alias.
Definition singleBoolConfigAlias : option bool -> option bool -> res (option bool) := single_alias.

Section File.
Context `{U : GoUnicode} {L : ConfigLib} (seen : bytes -> bool).

(** A field of the file is used unless its flag was given. *)
Definition apply_plain {A} (flagName : bytes) (value : option A) (target : A) : A :=
  match value with Some v => if seen flagName then target else v | None => target end.

Definition applyStringConfig : bytes -> option bytes -> bytes -> bytes := apply_plain.

Definition applyNonNegativeIntConfig (flagName : bytes) (value : option Z) (target : Z) : res Z :=
  match value with
  | None => Ok target
  | Some v => if seen flagName then Ok target else if v <? 0 then Err (Errorf "配置字段 %q 不能小于 0" []) else Ok v
  end.

Definition applyNonNegativeFloat64Config (flagName : bytes) (value : option spec_float) (target : spec_float) : res spec_float :=
  match value with
  | None => Ok target
  | Some v => if seen flagName then Ok target else if SFltb v (S754_zero false) then Err (Errorf "配置字段 %q 不能小于 0" []) else Ok v
  end.

Definition applyDurationConfig (flagName : bytes) (value : option bytes) (target : Z) : res Z :=
  match value with
  | None => Ok target
  | Some v =>
      if seen flagName then Ok target else
      let! parsed := res_map_err (Wrapf "配置字段 %q duration 无效: %w") (ParseDuration v) in
      if parsed <=? 0 then Err (Errorf "配置字段 %q 必须大于 0" []) else Ok parsed
  end.

Definition applyNonNegativeDurationConfig (flagName : bytes) (value : option bytes) (target : Z) : res Z :=
  match value with
  | None => Ok target
  | Some v =>
      if seen flagName then Ok target else
      let! parsed := res_map_err (Wrapf "配置字段 %q duration 无效: %w") (ParseDuration v) in
      if parsed <? 0 then Err (Errorf "配置字段 %q 不能小于 0" []) else Ok parsed
  end.

(** The durations of the file, in the order of the code. *)
Definition apply_durations (fc : FileConfig) (g : GlobalConfig) : res GlobalConfig :=
  let! dial := applyDurationConfig (bs "dial-timeout") (fc_DialTimeout fc) (DialTimeout g) in
  let! ws := applyDurationConfig (bs "ws-handshake-timeout") (fc_WSHandshakeTimeout fc) (WSHandshakeTimeout g) in
  let! rd := applyDurationConfig (bs "reconnect-delay") (fc_ReconnectDelay fc) (ReconnectDelay g) in
  let! rmax := applyDurationConfig (bs "reconnect-max-delay") (fc_ReconnectMaxDelay fc) (ReconnectMaxDelay g) in
  let! jitter := applyNonNegativeDurationConfig (bs "reconnect-jitter") (fc_ReconnectJitter fc) (ReconnectJitter g) in
  let! rtt := applyDurationConfig (bs "rtt-timeout") (fc_RTTProbeTimeout fc) (RTTProbeTimeout g) in
  let! dns := applyDurationConfig (bs "dns-timeout") (fc_DNSQueryTimeout fc) (DNSQueryTimeout g) in
  let! ttl := applyNonNegativeDurationConfig (bs "dns-cache-ttl") (fc_DNSCacheTTL fc) (DNSCacheTTL g) in
  let! ech := applyDurationConfig (bs "ech-retry-delay") (fc_ECHRetryDelay fc) (ECHRetryDelay g) in
  let! udp := applyDurationConfig (bs "udp-read-timeout") (fc_UDPReadTimeout fc) (UDPReadTimeout g) in
  let! shutdown := applyDurationConfig (bs "shutdown-timeout") (fc_ShutdownTimeout fc) (ShutdownTimeout g) in
  let! skew := applyNonNegativeDurationConfig (bs "auth-skew") (fc_AuthSkew fc) (AuthSkew g) in
  let! preauth := applyDurationConfig (bs "preauth-timeout") (fc_PreAuthTimeout fc) (PreAuthTimeout g) in
  Ok (mkGlobal dial ws rd rmax jitter rtt dns ech udp shutdown skew preauth ttl (ReadBuf g)).

(** The fields that have two names, each set at most once. *)
Record aliasValues : Type := mkAliases {
  al_allowTarget : option bytes; al_denyTarget : option bytes; al_allowHost : option bytes; al_denyHost : option bytes;
  al_maxClients : option Z; al_maxStreams : option Z; al_clientCA : option bytes; al_clientCert : option bytes;
  al_clientKey : option bytes; al_echDomain : option bytes; al_cipherPref : option bytes; al_pacingRate : option spec_float;
  al_shapingCoalesce : option Z; al_transport : option bytes; al_quicPort : option Z; al_enableDatagram : option bool;
  al_coverTraffic : option bool;
}.

Definition file_aliases (fc : FileConfig) : res aliasValues :=
  let! allowTarget := singleStringConfigAlias (fc_AllowTarget fc) (fc_AllowTargetFlag fc) in
  let! denyTarget := singleStringConfigAlias (fc_DenyTarget fc) (fc_DenyTargetFlag fc) in
  let! allowHost := singleStringConfigAlias (fc_AllowHost fc) (fc_AllowHostFlag fc) in
  let! denyHost := singleStringConfigAlias (fc_DenyHost fc) (fc_DenyHostFlag fc) in
  let! maxClients := singleIntConfigAlias (fc_MaxClients fc) (fc_MaxClientsFlag fc) in
  let! maxStreams := singleIntConfigAlias (fc_MaxStreams fc) (fc_MaxStreamsFlag fc) in
  let! clientCA := singleStringConfigAlias (fc_ClientCA fc) (fc_ClientCAFlag fc) in
  let! clientCert := singleStringConfigAlias (fc_ClientCert fc) (fc_ClientCertFlag fc) in
  let! clientKey := singleStringConfigAlias (fc_ClientKey fc) (fc_ClientKeyFlag fc) in
  let! echDomainVal := singleStringConfigAlias (fc_ECHDomain fc) (fc_ECHDomainFlag fc) in
  let! cipherPrefVal := singleStringConfigAlias (fc_CipherPref fc) (fc_CipherPrefFlag fc) in
  let! pacingRateVal := singleFloat64ConfigAlias (fc_PacingRateMbps fc) (fc_PacingRateMbpsFlag fc) in
  let! shapingCoalesceVal := singleIntConfigAlias (fc_ShapingCoalesceMs fc) (fc_ShapingCoalesceMsFlag fc) in
  let! transportVal := singleStringConfigAlias (fc_Transport fc) (fc_TransportFlag fc) in
  let! quicPortVal := singleIntConfigAlias (fc_QuicPort fc) (fc_QuicPortFlag fc) in
  let! enableDatagramVal := singleBoolConfigAlias (fc_EnableDatagram fc) (fc_EnableDatagramFlag fc) in
  let! coverTrafficVal := singleBoolConfigAlias (fc_CoverTraffic fc) (fc_CoverTrafficFlag fc) in
  Ok (mkAliases allowTarget denyTarget allowHost denyHost maxClients maxStreams clientCA clientCert clientKey
        echDomainVal cipherPrefVal pacingRateVal shapingCoalesceVal transportVal quicPortVal enableDatagramVal coverTrafficVal).

(** The values with the fields of the file, the checked ones in their order. *)
Definition apply_values (fc : FileConfig) (al : aliasValues) (v : runtimeValues) : res runtimeValues :=
  let! pacing := applyNonNegativeFloat64Config (bs "pacing-rate-mbps") (al_pacingRate al) (v_PacingRateMbps v) in
  let! shaping := applyNonNegativeIntConfig (bs "shaping-coalesce-ms") (al_shapingCoalesce al) (v_ShapingCoalesceMs v) in
  let! clients := applyNonNegativeIntConfig (bs "max-clients") (al_maxClients al) (v_MaxClientSessions v) in
  let! streams := applyNonNegativeIntConfig (bs "max-streams") (al_maxStreams al) (v_MaxStreamsPerClient v) in
  let! quic := applyNonNegativeIntConfig (bs "quic-port") (al_quicPort al) (v_QuicPort v) in
  let! global := apply_durations fc (v_Global v) in
  Ok {|
    v_ListenAddr := applyStringConfig (bs "l") (fc_Listen fc) (v_ListenAddr v);
    v_ForwardAddr := applyStringConfig (bs "f") (fc_Forward fc) (v_ForwardAddr v);
    v_IPAddr := applyStringConfig (bs "ip") (fc_IP fc) (v_IPAddr v);
    v_UDPBlockPortsStr := applyStringConfig (bs "block") (fc_Block fc) (v_UDPBlockPortsStr v);
    v_CertFile := applyStringConfig (bs "cert") (fc_Cert fc) (v_CertFile v);
    v_KeyFile := applyStringConfig (bs "key") (fc_Key fc) (v_KeyFile v);
    v_ClientCAFile := applyStringConfig (bs "client-ca") (al_clientCA al) (v_ClientCAFile v);
    v_ClientCertFile := applyStringConfig (bs "client-cert") (al_clientCert al) (v_ClientCertFile v);
    v_ClientKeyFile := applyStringConfig (bs "client-key") (al_clientKey al) (v_ClientKeyFile v);
    v_Token := applyStringConfig (bs "token") (fc_Token fc) (v_Token v);
    v_MetricsAddr := applyStringConfig (bs "metrics") (fc_Metrics fc) (v_MetricsAddr v);
    v_CIDRs := applyStringConfig (bs "cidr") (fc_CIDR fc) (v_CIDRs v);
    v_TargetAllowCIDRs := applyStringConfig (bs "allow-target") (al_allowTarget al) (v_TargetAllowCIDRs v);
    v_TargetDenyCIDRs := applyStringConfig (bs "deny-target") (al_denyTarget al) (v_TargetDenyCIDRs v);
    v_TargetAllowHosts := applyStringConfig (bs "allow-host") (al_allowHost al) (v_TargetAllowHosts v);
    v_TargetDenyHosts := applyStringConfig (bs "deny-host") (al_denyHost al) (v_TargetDenyHosts v);
    v_MaxClientSessions := clients;
    v_MaxStreamsPerClient := streams;
    v_ConnectionNum := apply_plain (bs "n") (fc_Connections fc) (v_ConnectionNum v);
    v_Insecure := apply_plain (bs "insecure") (fc_Insecure fc) (v_Insecure v);
    v_IPS := applyStringConfig (bs "ips") (fc_IPS fc) (v_IPS v);
    v_DNSServer := applyStringConfig (bs "dns") (fc_DNS fc) (v_DNSServer v);
    v_EnableECH := apply_plain (bs "ech") (fc_ECH fc) (v_EnableECH v);
    v_ECHDomain := applyStringConfig (bs "ech-domain") (al_echDomain al) (v_ECHDomain v);
    v_Fallback := apply_plain (bs "fallback") (fc_Fallback fc) (v_Fallback v);
    v_CipherPref := applyStringConfig (bs "cipher-pref") (al_cipherPref al) (v_CipherPref v);
    v_PacingRateMbps := pacing;
    v_ShapingCoalesceMs := shaping;
    v_TransportMode := applyStringConfig (bs "transport") (al_transport al) (v_TransportMode v);
    v_QuicPort := quic;
    v_EnableDatagram := apply_plain (bs "enable-datagram") (al_enableDatagram al) (v_EnableDatagram v);
    v_CoverTraffic := apply_plain (bs "cover-traffic") (al_coverTraffic al) (v_CoverTraffic v);
    v_Global := global;
    v_WebSocketFrontProxy := default no_front_proxy (fc_WebSocketFrontProxy fc);
    v_RulesPath := applyStringConfig (bs "rules-path") (fc_RulesPath fc) (v_RulesPath v);
    v_GeoDir := applyStringConfig (bs "geo-dir") (fc_GeoDir fc) (v_GeoDir v);
    v_RouteEnabled := apply_plain (bs "route-enabled") (fc_RouteEnabled fc) (v_RouteEnabled v);
    v_SNISniff := apply_plain (bs "sni") (fc_SNI fc) (v_SNISniff v) |}.

Definition applyConfigJSONToValues (raw : bytes) (v : runtimeValues) : res runtimeValues :=
  let! fc := json_Decode raw in
  match json_Decode_extra raw with
  | Err EOF => let! al := file_aliases fc in apply_values fc al v
  | Err e => Err e
  | Ok _ => Err (Errorf "配置文件只能包含一个 JSON 对象" [])
  | Panic => Panic
  end.

End File.

(** * Checks before start-up *)

Definition ws : bytes := bs "ws".
Definition wss : bytes := bs "wss".
Definition tcp : bytes := bs "tcp".

Record listenerStartupConfig : Type := mkListener { ls_Raw : bytes; ls_Scheme : bytes }.

Record clientStartupConfig : Type := mkClientStartup {
  cs_ForwardScheme : bytes; cs_Fallback : bool; cs_AutoFallback : bool; cs_UDPBlockPorts : gset Z; cs_EnableECH : bool;
  cs_CipherPref : bytes; cs_PacingRateMbps : spec_float; cs_ShapingCoalesceMs : Z;
}.

Record startupConfig : Type := mkStartup {
  st_Listeners : list listenerStartupConfig; st_IsServer : bool; st_ServerListen : bytes; st_ServerScheme : bytes;
  st_TargetIPs : list bytes; st_IPStrategy : Z; st_SourceCIDRs : list IPNet; st_TargetPolicy : option TargetPolicy;
  st_SOCKS5Config : option SOCKS5Config; st_Client : option clientStartupConfig;
}.

(** [normalizeURLScheme]: the text from the first colon on, which is not at the
    start, behind the scheme. *)
Definition normalizeURLScheme (raw scheme : bytes) : bytes :=
  let i := IndexByte raw c_colon in
  if (i <=? 0) || is_empty scheme then raw else scheme ++ drop (Z.to_nat i) raw.

Section Startup.
Context `{U : GoUnicode} {L : ConfigLib}.

Definition parseTCPForwardRule (rule : bytes) : res (bytes * bytes) :=
  let! u := url_Parse rule in
  let bad := Err (Errorf "格式必须是 tcp://listen_host:port/target_host:port" []) in
  if negb (bool_decide (ToLower (u_Scheme u) = tcp)) then bad else
  let listen := TrimSpace (u_Host u) in
  let target := TrimSpace (TrimPrefix (u_Path u) [c_slash]) in
  if is_empty listen || is_empty target || existsb (chr c_slash) target then bad else Ok (listen, target).

Definition validateListenRule (rule : bytes) : res unit :=
  let! u := url_Parse rule in
  let scheme := ToLower (u_Scheme u) in
  let socks := bool_decide (scheme = bs "socks5") in
  if bool_decide (scheme = ws) || bool_decide (scheme = wss) || socks || bool_decide (scheme = bs "http") then
    if is_empty (u_Host u) then Err (Errorf "必须包含 host:port" []) else
    let! _ :=
      match u_User u with
      | Some (username, password) =>
          if socks || bool_decide (scheme = bs "http") then
            match password with
            | Some password =>
                if is_empty username || is_empty password then Err (Errorf "认证格式必须是 user:pass@host:port" []) else
                if socks then validateSOCKS5AuthLength username password else Ok tt
            | None => Err (Errorf "认证格式必须是 user:pass@host:port" [])
            end
          else Ok tt
      | None => Ok tt
      end in
    ValidateListenHostPort (u_Host u)
  else if bool_decide (scheme = tcp) then
    let! r := parseTCPForwardRule rule in
    let '(listen, target) := r in
    let! _ := res_map_err (Wrapf "监听地址无效: %w") (ValidateListenHostPort listen) in
    res_map_err (Wrapf "目标地址无效: %w") (ValidateHostPort target)
  else Err (Errorf "不支持的监听协议 %q" []).

(** The loop of [classifyListeners]: the listeners and the last server among
    them, with their number. *)
Fixpoint classify (rules : list bytes) : res (list listenerStartupConfig * option (bytes * bytes) * nat) :=
  match rules with
  | [] => Ok ([], None, 0%nat)
  | l :: rules =>
      let! u := res_map_err (Wrapf "监听地址无效 %q: %w") (url_Parse l) in
      let scheme := ToLower (u_Scheme u) in
      let normalized := normalizeURLScheme l scheme in
      let! _ := res_map_err (Wrapf "监听地址无效 %q: %w") (validateListenRule normalized) in
      let! rest := classify rules in
      let '(listeners, server, n) := rest in
      let is_server := bool_decide (scheme = ws) || bool_decide (scheme = wss) in
      Ok (mkListener normalized scheme :: listeners,
          match server with Some s => Some s | None => if is_server then Some (normalized, scheme) else None end,
          if is_server then S n else n)
  end.

Definition classifyListeners (raw : bytes) : res (list listenerStartupConfig * option (bytes * bytes)) :=
  let listenerStrings := splitCommaList raw in
  if len listenerStrings =? 0 then Err (Errorf "至少需要一个监听地址" []) else
  let! r := classify listenerStrings in
  let '(listeners, server, n) := r in
  if bool_decide (is_Some server) && (negb (n =? 1)%nat || negb (len listeners =? 1))
  then Err (Errorf "服务端模式只能配置一个 ws:// 或 wss:// 监听地址，不能与客户端监听器混用" [])
  else Ok (listeners, server).

Definition validateServerStartupConfig (forward allowCIDRs denyCIDRs allowHosts denyHosts : bytes)
    : res (TargetPolicy * option SOCKS5Config) :=
  let! policy := res_map_err (Wrapf "目标访问策略无效: %w") (parseTargetPolicy allowCIDRs denyCIDRs allowHosts denyHosts) in
  if is_empty forward then Ok (policy, None) else
  let! config := res_map_err (Wrapf "解析SOCKS5代理地址失败: %w") (parseSOCKS5Addr forward) in
  let! _ := res_map_err (Wrapf "SOCKS5代理地址无效: %w") (ValidateHostPort (up_Host config)) in
  Ok (policy, Some config).

Definition validateClientStartupConfig (forward : bytes) (connections : Z) (clientCert clientKey : bytes)
    (insecureMode fallbackMode enableECHMode : bool) (blockPortsRaw : bytes) : res (bytes * bool * bool * gset Z) :=
  if is_empty forward then Err (Errorf "客户端模式必须指定服务地址 (-f ws:// 或 -f wss://)" []) else
  if connections <=? 0 then Err (Errorf "参数 -n 必须大于 0 (当前: %d)" [connections]) else
  let! forwardURL := res_map_err (Wrapf "无效的服务地址: %w") (url_Parse forward) in
  let scheme := ToLower (u_Scheme forwardURL) in
  if negb (bool_decide (scheme = wss)) && negb (bool_decide (scheme = ws))
  then Err (Errorf "仅支持 ws:// 或 wss:// 协议 (当前: %s)" []) else
  if is_empty (u_Host forwardURL) then Err (Errorf "服务地址必须包含 host:port" []) else
  if (negb (is_empty clientCert) || negb (is_empty clientKey)) && negb (bool_decide (scheme = wss))
  then Err (Errorf "-client-cert/-client-key 只能用于 wss:// 服务地址" []) else
  let! ports := res_map_err (Wrapf "-block 参数无效: %w") (parseUDPBlockPorts blockPortsRaw) in
  let fallback := if negb enableECHMode then true else fallbackMode in
  let auto := bool_decide (scheme = wss) && insecureMode && negb fallback in
  Ok (scheme, fallback || auto, auto, ports).

Fixpoint Contains_at (s sub : bytes) : bool :=
  HasPrefix s sub || match s with [] => false | _ :: s => Contains_at s sub end.

Definition validateECHLookupConfig (domain server : bytes) : res unit :=
  let! _ := res_map_err (Wrapf "ech 域名无效: %w") (buildDNSQuery domain typeHTTPS) in
  let server := TrimSpace server in
  if is_empty server then Err (Errorf "dns 服务器不能为空" []) else
  if HasPrefix server (bs "http://") || HasPrefix server (bs "https://") then
    let! u := res_map_err (Wrapf "dns DoH URL 无效: %w") (url_Parse server) in
    if is_empty (u_Host u) then Err (Errorf "dns DoH URL 必须包含 host" []) else
    if bool_decide (is_Some (u_User u)) then Err (Errorf "dns DoH URL 不能包含 userinfo" []) else
    let defaultPort := if EqualFold (u_Scheme u) (bs "http") then bs "80" else bs "443" in
    let! _ := res_map_err (Wrapf "dns DoH URL host 无效: %w") (normalizeHTTPProxyAuthority (u_Host u) defaultPort) in
    Ok tt
  else
    if Contains_at server (bs "://") then Err (Errorf "dns 只支持 http(s) DoH URL 或 UDP host[:port]" []) else
    let udpAddr := if existsb (chr c_colon) server then server else server ++ bs ":53" in
    res_map_err (Wrapf "dns UDP 地址无效: %w") (ValidateHostPort udpAddr).

Fixpoint validate_overrides (ips : list bytes) : res unit :=
  match ips with
  | [] => Ok tt
  | ip :: ips => let! _ := res_map_err (Wrapf "-ip 参数无效 %q: %w") (validateDialIPOverride ip) in validate_overrides ips
  end.

(** The client's half of [validateStartupConfigValues]. *)
Definition startup_client (v : runtimeValues) (cipherPref : bytes) : res clientStartupConfig :=
  let! c := validateClientStartupConfig (v_ForwardAddr v) (v_ConnectionNum v) (v_ClientCertFile v) (v_ClientKeyFile v)
              (v_Insecure v) (v_Fallback v) (v_EnableECH v) (v_UDPBlockPortsStr v) in
  let '(scheme, fallback, auto, ports) := c in
  let! _ := if bool_decide (scheme = wss) && negb fallback
            then res_map_err (Wrapf "ECH 查询配置无效: %w") (validateECHLookupConfig (v_ECHDomain v) (v_DNSServer v)) else Ok tt in
  let! _ := res_map_err (Wrapf "WebSocket 前置代理配置无效: %w") (validateWebSocketFrontProxyConfig (v_WebSocketFrontProxy v)) in
  Ok (mkClientStartup scheme fallback auto ports (v_EnableECH v) cipherPref (v_PacingRateMbps v) (v_ShapingCoalesceMs v)).

Definition validateStartupConfigValues (v : runtimeValues) : res startupConfig :=
  let! _ := res_map_err (Wrapf "token 无效: %w") (validateToken (v_Token v)) in
  let! _ := res_map_err (Wrapf "全局参数无效: %w")
              (validateGlobalConfigValues (v_Global v) (v_MaxClientSessions v) (v_MaxStreamsPerClient v)) in
  if SFltb (v_PacingRateMbps v) (S754_zero false) then Err (Errorf "-pacing-rate-mbps 不能小于 0" []) else
  if v_ShapingCoalesceMs v <? 0 then Err (Errorf "-shaping-coalesce-ms 不能小于 0" []) else
  if negb (bool_decide (ToLower (TrimSpace (v_TransportMode v)) ∈ [[]; bs "auto"; bs "quic"; tcp]))
  then Err (Errorf "无效的 transport 模式 %q，仅支持 auto/quic/tcp" []) else
  let! cipherPref := res_map_err (Wrapf "cipher 偏好无效: %w") (parseCipherPreference (v_CipherPref v)) in
  let! _ := if is_empty (v_MetricsAddr v) then Ok tt
            else res_map_err (Wrapf "metrics 地址无效: %w") (ValidateListenHostPortAllowZero (v_MetricsAddr v)) in
  let targetIPs := splitCommaList (v_IPAddr v) in
  let! _ := validate_overrides targetIPs in
  let! ipStrategyValue := res_map_err (Wrapf "-ips 参数无效: %w") (parseIPStrategyStrict (v_IPS v)) in
  let! r := classifyListeners (v_ListenAddr v) in
  let '(listeners, server) := r in
  let '(serverListen, serverScheme) := default ([], []) server in
  let isServer := bool_decide (is_Some server) in
  let! _ := res_map_err (Wrapf "mTLS 配置无效: %w")
              (validateMTLSConfigValues isServer serverScheme (v_CertFile v) (v_KeyFile v) (v_ClientCAFile v) (v_ClientCertFile v) (v_ClientKeyFile v)) in
  if isServer then
    let! sourceNets := res_map_err (Wrapf "source CIDR 配置无效: %w") (parseSourceCIDRs (v_CIDRs v)) in
    let! ps := validateServerStartupConfig (v_ForwardAddr v) (v_TargetAllowCIDRs v) (v_TargetDenyCIDRs v)
                 (v_TargetAllowHosts v) (v_TargetDenyHosts v) in
    Ok (mkStartup listeners true serverListen serverScheme targetIPs ipStrategyValue sourceNets (Some (fst ps)) (snd ps) None)
  else
    let! c := startup_client v cipherPref in
    Ok (mkStartup listeners false serverListen serverScheme targetIPs ipStrategyValue [] None None (Some c)).

(** [LoadConfig]; [file] is what reading the path gives, [None] for no path. *)
Definition LoadConfig (file : option (res bytes)) (seen : bytes -> bool) (values : runtimeValues) : res (runtimeValues * startupConfig) :=
  let! values := match file with
                 | None => Ok values
                 | Some raw => let! raw := raw in applyConfigJSONToValues seen raw values
                 end in
  if is_empty (TrimSpace (v_ListenAddr values)) then Err (Errorf "至少需要一个监听地址" []) else
  let! startup := validateStartupConfigValues values in
  Ok (values, startup).

Definition CheckConfigJSON (raw : bytes) : res unit :=
  let! values := applyConfigJSONToValues (fun _ => false) raw defaultRuntimeValues in
  if is_empty (TrimSpace (v_ListenAddr values)) then Err (Errorf "至少需要一个监听地址" []) else
  let! _ := validateStartupConfigValues values in Ok tt.

End Startup.

(** The names of [normalizeConfigFieldAliases]. *)
Definition config_aliases : list (bytes * bytes) :=
  [(bs "allow-target", bs "allow_target"); (bs "deny-target", bs "deny_target"); (bs "allow-host", bs "allow_host");
   (bs "deny-host", bs "deny_host"); (bs "max-clients", bs "max_clients"); (bs "max-streams", bs "max_streams");
   (bs "client-ca", bs "client_ca"); (bs "client-cert", bs "client_cert"); (bs "client-key", bs "client_key");
   (bs "ech-domain", bs "ech_domain"); (bs "cipher-pref", bs "cipher_pref"); (bs "pacing-rate-mbps", bs "pacing_rate_mbps");
   (bs "shaping-coalesce-ms", bs "shaping_coalesce_ms"); (bs "transport-mode", bs "transport"); (bs "quic-port", bs "quic_port");
   (bs "enable-datagram", bs "enable_datagram"); (bs "cover-traffic", bs "cover_traffic")].

(** A round of the loop over them; [range] visits them in any order. *)
Definition rename_alias (fields : gmap bytes bytes) (a : bytes * bytes) : gmap bytes bytes :=
  match fields !! a.1 with Some value => delete a.1 (<[a.2 := value]> fields) | None => fields end.

Definition normalizeConfigFieldAliases (order : list (bytes * bytes)) (fields : gmap bytes bytes) : gmap bytes bytes :=
  foldl rename_alias fields order.

(** * Reconnection delays *)

(** Reconnection is configured as [validateGlobalConfigValues] demands, with a
    maximum below 2^62 ns (146 years), so that doubling does not overflow. *)
Definition reconnect_ok (cfg : GlobalConfig) : Prop :=
  0 < ReconnectDelay cfg <= ReconnectMaxDelay cfg /\ ReconnectMaxDelay cfg <= 2 ^ 62 /\ 0 <= ReconnectJitter cfg < 2 ^ 62.

Lemma reconnect_loop_min cfg n delay :
  reconnect_ok cfg -> 0 < delay <= ReconnectMaxDelay cfg ->
  reconnect_loop cfg n delay = Z.min (delay * 2 ^ Z.of_nat n) (ReconnectMaxDelay cfg).
Proof.
  intros Hok. revert delay. induction n as [|n IH]; intros delay Hd; cbn [reconnect_loop].
  - change (2 ^ Z.of_nat 0) with 1. lia.
  - destruct Hok as (Hr & Hm & _). rewrite Nat2Z.inj_succ, Z.pow_succ_r by lia.
    assert (1 <= 2 ^ Z.of_nat n) as Hp by (pose proof (Z.pow_pos_nonneg 2 (Z.of_nat n)); lia).
    assert ((0 <? ReconnectMaxDelay cfg) = true) as -> by lia. cbn [andb].
    destruct (Z.leb_spec (ReconnectMaxDelay cfg) delay); [nia|].
    rewrite wrapS_small by lia. cbv zeta. destruct (Z.ltb_spec (ReconnectMaxDelay cfg) (delay * 2)); [nia|].
    rewrite IH by lia. f_equal. lia.
Qed.

(** The delay before a reconnection grows as configured.  Without jitter the
    [n]-th attempt waits [ReconnectDelay * 2^n], at most [ReconnectMaxDelay]; the
    random part added to it is less than the configured jitter and never more
    than half the delay, so every delay is positive and within one and a half
    times the maximum. *)
Theorem reconnect_delay_bounds (cfg : GlobalConfig) (draw : Z -> option Z) (attempt : Z)
    (Hok : reconnect_ok cfg) (Hdraw : forall limit r, 0 < limit -> draw limit = Some r -> 0 <= r < limit) (Ha : 0 <= attempt) :
  let base := Z.min (ReconnectDelay cfg * 2 ^ attempt) (ReconnectMaxDelay cfg) in
  baseReconnectDelay cfg attempt = base /\ 0 < base /\
  base <= reconnectDelay cfg draw attempt <= base + ReconnectJitter cfg /\
  (1 < base -> 2 * reconnectDelay cfg draw attempt <= 3 * base).
Proof.
  intros base. destruct Hok as (Hr & Hm & Hj).
  assert (baseReconnectDelay cfg attempt = base) as Eb.
  { unfold baseReconnectDelay. rewrite (proj2 (Z.leb_gt _ _)) by lia. rewrite reconnect_loop_min by (unfold reconnect_ok; lia).
    by rewrite Z2Nat.id. }
  assert (1 <= 2 ^ attempt) as Hp by (pose proof (Z.pow_pos_nonneg 2 attempt); lia).
  assert (0 < base <= 2 ^ 62) as Hb by (subst base; nia).
  assert (forall limit, 0 < limit -> 0 <= randomDuration draw limit < limit) as Hrand.
  { intros limit Hl. unfold randomDuration. rewrite (proj2 (Z.leb_gt _ _)) by lia.
    destruct (draw limit) as [r|] eqn:E; [by apply (Hdraw limit)|cbn; lia]. }
  split; [done|]. split; [lia|]. unfold reconnectDelay. rewrite Eb. cbv zeta.
  rewrite (proj2 (Z.leb_gt base 0)) by lia. cbn [orb]. destruct (Z.leb_spec (ReconnectJitter cfg) 0); [lia|].
  pose proof (Z.quot_div_nonneg base 2 ltac:(lia) ltac:(lia)) as Eq. rewrite Eq. pose proof (Z.div_mod base 2 ltac:(lia)) as Hdm.
  pose proof (Z.mod_pos_bound base 2 ltac:(lia)) as Hmod.
  set (half := base / 2) in *. set (jl := if _ && _ then half else ReconnectJitter cfg).
  assert (0 < jl <= ReconnectJitter cfg /\ (1 < base -> jl <= half)) as (Hjl & Hhalf).
  { subst jl. destruct ((0 <? half) && (half <? ReconnectJitter cfg)) eqn:E; lia. }
  pose proof (Hrand jl ltac:(lia)). rewrite wrapS_small by lia. lia.
Qed.

Lemma reconnect_delay_bounds_witness :
  baseReconnectDelay defaultGlobalConfig 3 = 8 * Second /\
  reconnectDelay defaultGlobalConfig (fun limit => Some (limit - 1)) 9 <= 30 * Second + 500 * 1000000.
Proof.
  pose proof (reconnect_delay_bounds defaultGlobalConfig (fun limit => Some (limit - 1))) as H. split.
  - destruct (H 3) as [E _]; [by vm_compute|intros limit r ? [= <-]; lia|lia|]. rewrite E. by vm_compute.
  - destruct (H 9) as (_ & _ & [_ E] & _); [by vm_compute|intros limit r ? [= <-]; lia|lia|].
    etrans; [exact E|]. by vm_compute.
Defined.

(** * Field names *)

(** No name stands twice on either side of the table. *)
Definition names_apart (l : list (bytes * bytes)) : Prop := NoDup (map fst l ++ map snd l).

(** What the field [k] is after renaming. *)
Definition renamed (l : list (bytes * bytes)) (fields : gmap bytes bytes) (k : bytes) : option bytes :=
  match find (fun p => bool_decide (p.1 = k)) l, find (fun p => bool_decide (p.2 = k)) l with
  | Some _, _ => None
  | None, Some p => match fields !! p.1 with Some v => Some v | None => fields !! k end
  | None, None => fields !! k
  end.

Lemma rename_alias_lookup fields a c k :
  a <> c ->
  rename_alias fields (a, c) !! k =
    if bool_decide (a = k) then None
    else if bool_decide (c = k) then match fields !! a with Some v => Some v | None => fields !! k end
    else fields !! k.
Proof.
  intros Hac. unfold rename_alias. cbn [fst snd]. destruct (fields !! a) as [v|] eqn:E; repeat case_bool_decide; subst; try done.
  - apply lookup_delete_eq.
  - rewrite lookup_delete_ne by done. apply lookup_insert_eq.
  - by rewrite lookup_delete_ne, lookup_insert_ne by done.
Qed.

Lemma find_none_notin {A} (f : A -> bytes) (l : list A) k :
  k ∉ map f l -> find (fun p => bool_decide (f p = k)) l = None.
Proof.
  induction l as [|x l IH]; intros H; [done|]. cbn in *. rewrite not_elem_of_cons in H. destruct H as [Hne H].
  rewrite bool_decide_eq_false_2 by congruence. by apply IH.
Qed.

Lemma find_in {A} (f : A -> bytes) (l : list A) k p :
  find (fun p => bool_decide (f p = k)) l = Some p -> p ∈ l /\ f p = k.
Proof. intros [H1 H2]%find_some. split; [by apply list_elem_of_In|]. by apply bool_decide_eq_true in H2. Qed.

Lemma normalize_lookup l fields k :
  names_apart l -> normalizeConfigFieldAliases l fields !! k = renamed l fields k.
Proof.
  unfold normalizeConfigFieldAliases, names_apart. revert fields. induction l as [|[a c] l IH]; intros fields Hn; [done|].
  cbn [foldl map app] in *. apply NoDup_cons in Hn as [Ha Hn]. rewrite elem_of_app, elem_of_cons in Ha.
  assert (NoDup (c :: (map fst l ++ map snd l))) as Hn' by (by rewrite Permutation_middle).
  apply NoDup_cons in Hn' as [Hc Hn']. rewrite elem_of_app in Hc.
  assert (a <> c) as Hac by tauto. rewrite IH by done. unfold renamed. cbn [find fst snd].
  rewrite !rename_alias_lookup by done. destruct (decide (a = k)) as [->|Hk].
  - rewrite (bool_decide_eq_true_2 (k = k)) by done. rewrite (find_none_notin fst), (find_none_notin snd) by tauto. done.
  - rewrite (bool_decide_eq_false_2 (a = k)) by done. destruct (find (fun p => bool_decide (p.1 = k)) l) as [p|] eqn:E1; [done|].
    destruct (decide (c = k)) as [->|Hck].
    + rewrite (bool_decide_eq_true_2 (k = k)) by done. by rewrite (find_none_notin snd) by tauto.
    + rewrite (bool_decide_eq_false_2 (c = k)) by done. destruct (find (fun p => bool_decide (p.2 = k)) l) as [p|] eqn:E2; [|done].
      apply find_in in E2 as [Hp <-]. rewrite rename_alias_lookup by done.
      assert (p.1 ∈ map fst l) as Hin by (by apply list_elem_of_fmap_2).
      rewrite !bool_decide_eq_false_2; [done|intros ->; tauto|intros ->; tauto].
Qed.

Lemma NoDup_map_inj {A} (f : A -> bytes) (l : list A) x y : NoDup (map f l) -> x ∈ l -> y ∈ l -> f x = f y -> x = y.
Proof.
  induction l as [|z l IH]; intros Hn Hx Hy E; [by inversion Hx|]. cbn in Hn. apply NoDup_cons in Hn as [Hz Hn].
  apply elem_of_cons in Hx as [->|Hx], Hy as [->|Hy]; try done; [| |by apply IH]; destruct Hz.
  - rewrite E. by apply list_elem_of_fmap_2.
  - rewrite <- E. by apply list_elem_of_fmap_2.
Qed.

Lemma renamed_pair l fields a c :
  names_apart l -> (a, c) ∈ l ->
  renamed l fields a = None /\ renamed l fields c = match fields !! a with Some v => Some v | None => fields !! c end.
Proof.
  unfold names_apart. rewrite NoDup_app. intros (H1 & Hd & H2) Hin. unfold renamed. split.
  - destruct (find (fun p => bool_decide (p.1 = a)) l) eqn:E; [done|].
    rewrite find_none in E. specialize (E _ Hin). cbn in E. by rewrite bool_decide_eq_true_2 in E.
  - rewrite (find_none_notin fst).
    + destruct (find (fun p => bool_decide (p.2 = c)) l) as [p|] eqn:E.
      * apply find_in in E as [Hp Ec]. by rewrite (NoDup_map_inj snd l p (a, c) H2 Hp Hin Ec).
      * rewrite find_none in E. specialize (E _ Hin). cbn in E. by rewrite bool_decide_eq_true_2 in E.
    + intros Hc. apply (Hd c Hc). apply (list_elem_of_fmap_2 snd l (a, c) Hin).
Qed.

(** Rewriting the aliases of a configuration does not depend on the order in
    which the map is visited: an alias is gone, a canonical name holds the value
    of its alias if that was set and its own otherwise, and every other field is
    as it was, [transport_mode] among them, which the decoder accepts as the
    second name of [transport]. *)
Theorem aliases_normalized (order : list (bytes * bytes)) (fields : gmap bytes bytes)
    (Horder : order ≡ₚ config_aliases) :
  (forall a c, (a, c) ∈ config_aliases ->
     normalizeConfigFieldAliases order fields !! a = None /\
     normalizeConfigFieldAliases order fields !! c = match fields !! a with Some v => Some v | None => fields !! c end) /\
  (forall k, k ∉ map fst config_aliases -> k ∉ map snd config_aliases -> normalizeConfigFieldAliases order fields !! k = fields !! k) /\
  (bs "transport_mode" ∉ map fst config_aliases) /\ (bs "transport_mode" ∉ map snd config_aliases).
Proof.
  assert (names_apart order) as Hn.
  { unfold names_apart. rewrite Horder. apply (bool_decide_unpack _). by vm_compute. }
  split_and!.
  - intros a c Hin. rewrite !normalize_lookup by done. apply renamed_pair; [done|]. by rewrite Horder.
  - intros k H1 H2. rewrite normalize_lookup by done. unfold renamed.
    by rewrite (find_none_notin fst), (find_none_notin snd) by (by rewrite Horder).
  - apply (bool_decide_unpack _). by vm_compute.
  - apply (bool_decide_unpack _). by vm_compute.
Qed.

Lemma aliases_normalized_witness :
  normalizeConfigFieldAliases (rev config_aliases) {[bs "ech-domain" := bs "e.example"; bs "listen" := bs "x"]} !! bs "ech_domain" =
    Some (bs "e.example").
Proof.
  assert (rev config_aliases ≡ₚ config_aliases) as Hp by (symmetry; apply Permutation_rev).
  destruct (aliases_normalized (rev config_aliases) {[bs "ech-domain" := bs "e.example"; bs "listen" := bs "x"]} Hp) as [H _].
  destruct (H (bs "ech-domain") (bs "ech_domain")) as [_ ->]; [apply (bool_decide_unpack _); by vm_compute|]. by vm_compute.
Defined.

(** * The file over the flags *)

(** The second name of a field is used when the first is not set. *)
Definition either {A} (primary alias : option A) : option A := match primary with Some _ => primary | None => alias end.

(** The fields by the name of their flag: where the file has them, where the
    values have them. *)
Definition string_fields : list (bytes * (FileConfig -> option bytes) * (runtimeValues -> bytes)) :=
  [(bs "l", fc_Listen, v_ListenAddr); (bs "f", fc_Forward, v_ForwardAddr); (bs "ip", fc_IP, v_IPAddr);
   (bs "block", fc_Block, v_UDPBlockPortsStr); (bs "cert", fc_Cert, v_CertFile); (bs "key", fc_Key, v_KeyFile);
   (bs "client-ca", fun f => either (fc_ClientCA f) (fc_ClientCAFlag f), v_ClientCAFile);
   (bs "client-cert", fun f => either (fc_ClientCert f) (fc_ClientCertFlag f), v_ClientCertFile);
   (bs "client-key", fun f => either (fc_ClientKey f) (fc_ClientKeyFlag f), v_ClientKeyFile);
   (bs "token", fc_Token, v_Token); (bs "metrics", fc_Metrics, v_MetricsAddr); (bs "cidr", fc_CIDR, v_CIDRs);
   (bs "allow-target", fun f => either (fc_AllowTarget f) (fc_AllowTargetFlag f), v_TargetAllowCIDRs);
   (bs "deny-target", fun f => either (fc_DenyTarget f) (fc_DenyTargetFlag f), v_TargetDenyCIDRs);
   (bs "allow-host", fun f => either (fc_AllowHost f) (fc_AllowHostFlag f), v_TargetAllowHosts);
   (bs "deny-host", fun f => either (fc_DenyHost f) (fc_DenyHostFlag f), v_TargetDenyHosts);
   (bs "dns", fc_DNS, v_DNSServer); (bs "ech-domain", fun f => either (fc_ECHDomain f) (fc_ECHDomainFlag f), v_ECHDomain);
   (bs "ips", fc_IPS, v_IPS); (bs "cipher-pref", fun f => either (fc_CipherPref f) (fc_CipherPrefFlag f), v_CipherPref);
   (bs "rules-path", fc_RulesPath, v_RulesPath); (bs "geo-dir", fc_GeoDir, v_GeoDir);
   (bs "transport", fun f => either (fc_Transport f) (fc_TransportFlag f), v_TransportMode)].

Definition bool_fields : list (bytes * (FileConfig -> option bool) * (runtimeValues -> bool)) :=
  [(bs "ech", fc_ECH, v_EnableECH); (bs "route-enabled", fc_RouteEnabled, v_RouteEnabled); (bs "sni", fc_SNI, v_SNISniff);
   (bs "insecure", fc_Insecure, v_Insecure); (bs "fallback", fc_Fallback, v_Fallback);
   (bs "enable-datagram", fun f => either (fc_EnableDatagram f) (fc_EnableDatagramFlag f), v_EnableDatagram);
   (bs "cover-traffic", fun f => either (fc_CoverTraffic f) (fc_CoverTrafficFlag f), v_CoverTraffic)].

(** With whether the value of the file must not be negative. *)
Definition int_fields : list (bytes * bool * (FileConfig -> option Z) * (runtimeValues -> Z)) :=
  [(bs "n", false, fc_Connections, v_ConnectionNum);
   (bs "max-clients", true, fun f => either (fc_MaxClients f) (fc_MaxClientsFlag f), v_MaxClientSessions);
   (bs "max-streams", true, fun f => either (fc_MaxStreams f) (fc_MaxStreamsFlag f), v_MaxStreamsPerClient);
   (bs "quic-port", true, fun f => either (fc_QuicPort f) (fc_QuicPortFlag f), v_QuicPort);
   (bs "shaping-coalesce-ms", true, fun f => either (fc_ShapingCoalesceMs f) (fc_ShapingCoalesceMsFlag f), v_ShapingCoalesceMs)].

(** With the least value a duration of the file may have. *)
Definition duration_fields : list (bytes * Z * (FileConfig -> option bytes) * (GlobalConfig -> Z)) :=
  [(bs "dial-timeout", 1, fc_DialTimeout, DialTimeout); (bs "ws-handshake-timeout", 1, fc_WSHandshakeTimeout, WSHandshakeTimeout);
   (bs "reconnect-delay", 1, fc_ReconnectDelay, ReconnectDelay); (bs "reconnect-max-delay", 1, fc_ReconnectMaxDelay, ReconnectMaxDelay);
   (bs "reconnect-jitter", 0, fc_ReconnectJitter, ReconnectJitter); (bs "rtt-timeout", 1, fc_RTTProbeTimeout, RTTProbeTimeout);
   (bs "dns-timeout", 1, fc_DNSQueryTimeout, DNSQueryTimeout); (bs "dns-cache-ttl", 0, fc_DNSCacheTTL, DNSCacheTTL);
   (bs "ech-retry-delay", 1, fc_ECHRetryDelay, ECHRetryDelay); (bs "udp-read-timeout", 1, fc_UDPReadTimeout, UDPReadTimeout);
   (bs "shutdown-timeout", 1, fc_ShutdownTimeout, ShutdownTimeout); (bs "auth-skew", 0, fc_AuthSkew, AuthSkew);
   (bs "preauth-timeout", 1, fc_PreAuthTimeout, PreAuthTimeout)].

Section FileTheorems.
Context `{U : GoUnicode} {L : ConfigLib} (seen : bytes -> bool).

(** The value after the file: the flag's if it was given, then the file's. *)
Definition chosen {A} (flag : bytes) (file : option A) (old : A) : A := if seen flag then old else default old file.

Definition duration_chosen (flag : bytes) (least : Z) (file : option bytes) (old new : Z) : Prop :=
  match file with
  | Some s => if seen flag then new = old else ParseDuration s = Ok new /\ least <= new
  | None => new = old
  end.

Lemma apply_plain_chosen {A} flag (file : option A) old : apply_plain seen flag file old = chosen flag file old.
Proof. unfold apply_plain, chosen. by destruct file, (seen flag). Qed.

Lemma single_alias_ok {A} (p a : option A) r : single_alias p a = Ok r -> r = either p a /\ (p = None \/ a = None).
Proof. unfold single_alias, either. destruct p, a; intros [= <-]; auto. Qed.

Lemma int_chosen flag file old new :
  applyNonNegativeIntConfig seen flag file old = Ok new ->
  new = chosen flag file old /\ (seen flag = false -> file <> None -> 0 <= new).
Proof.
  unfold applyNonNegativeIntConfig, chosen. destruct file as [v|]; [|by destruct (seen flag); intros [= <-]].
  destruct (seen flag); [by intros [= <-]|]. destruct (Z.ltb_spec v 0); [done|]. by intros [= <-].
Qed.

Lemma float_chosen flag file old new :
  applyNonNegativeFloat64Config seen flag file old = Ok new ->
  new = chosen flag file old /\ (seen flag = false -> file <> None -> SFltb new (S754_zero false) = false).
Proof.
  unfold applyNonNegativeFloat64Config, chosen. destruct file as [v|]; [|by destruct (seen flag); intros [= <-]].
  destruct (seen flag); [by intros [= <-]|]. destruct (SFltb v _) eqn:E; [done|]. by intros [= <-].
Qed.

Lemma duration_applied flag file old new :
  applyDurationConfig seen flag file old = Ok new -> duration_chosen flag 1 file old new.
Proof.
  unfold applyDurationConfig, duration_chosen. destruct file as [s|]; [|by intros [= <-]]. destruct (seen flag); [by intros [= <-]|].
  intros (d & Hd%res_map_err_ok & H)%res_bind_ok. destruct (Z.leb_spec d 0); [done|]. injection H as <-. split; [done|lia].
Qed.

Lemma nonneg_duration_applied flag file old new :
  applyNonNegativeDurationConfig seen flag file old = Ok new -> duration_chosen flag 0 file old new.
Proof.
  unfold applyNonNegativeDurationConfig, duration_chosen. destruct file as [s|]; [|by intros [= <-]]. destruct (seen flag); [by intros [= <-]|].
  intros (d & Hd%res_map_err_ok & H)%res_bind_ok. destruct (Z.ltb_spec d 0); [done|]. by injection H as <-.
Qed.

Lemma apply_durations_ok fc g g' :
  apply_durations seen fc g = Ok g' ->
  Forall (fun '(flag, least, file, get) => duration_chosen flag least (file fc) (get g) (get g')) duration_fields /\ ReadBuf g' = ReadBuf g.
Proof.
  unfold apply_durations. intros H.
  repeat match type of H with
  | res_bind (applyDurationConfig _ _ _ _) _ = Ok _ => apply res_bind_ok in H as (? & ?%duration_applied & H)
  | res_bind (applyNonNegativeDurationConfig _ _ _ _) _ = Ok _ => apply res_bind_ok in H as (? & ?%nonneg_duration_applied & H)
  end.
  injection H as <-. split; [|done]. unfold duration_fields. rewrite !Forall_cons. by split_and!.
Qed.

(** Both names of every field with two. *)
Definition set_twice (fc : FileConfig) : Prop :=
  (fc_AllowTarget fc <> None /\ fc_AllowTargetFlag fc <> None) \/ (fc_DenyTarget fc <> None /\ fc_DenyTargetFlag fc <> None) \/
  (fc_AllowHost fc <> None /\ fc_AllowHostFlag fc <> None) \/ (fc_DenyHost fc <> None /\ fc_DenyHostFlag fc <> None) \/
  (fc_MaxClients fc <> None /\ fc_MaxClientsFlag fc <> None) \/ (fc_MaxStreams fc <> None /\ fc_MaxStreamsFlag fc <> None) \/
  (fc_ClientCA fc <> None /\ fc_ClientCAFlag fc <> None) \/ (fc_ClientCert fc <> None /\ fc_ClientCertFlag fc <> None) \/
  (fc_ClientKey fc <> None /\ fc_ClientKeyFlag fc <> None) \/ (fc_ECHDomain fc <> None /\ fc_ECHDomainFlag fc <> None) \/
  (fc_CipherPref fc <> None /\ fc_CipherPrefFlag fc <> None) \/ (fc_PacingRateMbps fc <> None /\ fc_PacingRateMbpsFlag fc <> None) \/
  (fc_ShapingCoalesceMs fc <> None /\ fc_ShapingCoalesceMsFlag fc <> None) \/ (fc_Transport fc <> None /\ fc_TransportFlag fc <> None) \/
  (fc_QuicPort fc <> None /\ fc_QuicPortFlag fc <> None) \/ (fc_EnableDatagram fc <> None /\ fc_EnableDatagramFlag fc <> None) \/
  (fc_CoverTraffic fc <> None /\ fc_CoverTrafficFlag fc <> None).

Definition aliases_of (fc : FileConfig) : aliasValues :=
  mkAliases (either (fc_AllowTarget fc) (fc_AllowTargetFlag fc)) (either (fc_DenyTarget fc) (fc_DenyTargetFlag fc))
    (either (fc_AllowHost fc) (fc_AllowHostFlag fc)) (either (fc_DenyHost fc) (fc_DenyHostFlag fc))
    (either (fc_MaxClients fc) (fc_MaxClientsFlag fc)) (either (fc_MaxStreams fc) (fc_MaxStreamsFlag fc))
    (either (fc_ClientCA fc) (fc_ClientCAFlag fc)) (either (fc_ClientCert fc) (fc_ClientCertFlag fc))
    (either (fc_ClientKey fc) (fc_ClientKeyFlag fc)) (either (fc_ECHDomain fc) (fc_ECHDomainFlag fc))
    (either (fc_CipherPref fc) (fc_CipherPrefFlag fc)) (either (fc_PacingRateMbps fc) (fc_PacingRateMbpsFlag fc))
    (either (fc_ShapingCoalesceMs fc) (fc_ShapingCoalesceMsFlag fc)) (either (fc_Transport fc) (fc_TransportFlag fc))
    (either (fc_QuicPort fc) (fc_QuicPortFlag fc)) (either (fc_EnableDatagram fc) (fc_EnableDatagramFlag fc))
    (either (fc_CoverTraffic fc) (fc_CoverTrafficFlag fc)).

Lemma file_aliases_ok fc al : file_aliases fc = Ok al -> al = aliases_of fc /\ ~ set_twice fc.
Proof.
  unfold file_aliases, singleStringConfigAlias, singleIntConfigAlias, singleFloat64ConfigAlias, singleBoolConfigAlias. intros H.
  repeat match type of H with
  | res_bind (single_alias _ _) _ = Ok _ =>
      let E := fresh "E" in apply res_bind_ok in H as (? & E & H); apply single_alias_ok in E as [-> ?]
  end.
  injection H as <-. split; [done|]. unfold set_twice. intros Ht.
  repeat (destruct Ht as [Ht|Ht]); destruct Ht as [Hp Ha];
    match goal with E : ?p = None \/ ?a = None, Hp : ?p <> None |- _ => destruct E; contradiction end.
Qed.

(** The configuration file fills in what the command line left open.  When it
    is applied, it was one JSON object with known fields, no field under both of
    its names, and every value is the flag's if the flag was given, otherwise the
    file's if it has the field, otherwise the old one; limits, ports and sizes
    taken from the file are not negative, its time-outs parse and are positive
    (for jitter, cache time and clock skew: not negative).  The front proxy is the
    file's or none. *)
Theorem config_file_over_flags (raw : bytes) (v v' : runtimeValues)
    (Happly : applyConfigJSONToValues seen raw v = Ok v') :
  exists fc, json_Decode raw = Ok fc /\ json_Decode_extra raw = Err EOF /\ ~ set_twice fc /\
    Forall (fun '(flag, file, get) => get v' = chosen flag (file fc) (get v)) string_fields /\
    Forall (fun '(flag, file, get) => get v' = chosen flag (file fc) (get v)) bool_fields /\
    Forall (fun '(flag, checked, file, get) => get v' = chosen flag (file fc) (get v) /\
              (checked = true -> seen flag = false -> file fc <> None -> 0 <= get v')) int_fields /\
    Forall (fun '(flag, least, file, get) => duration_chosen flag least (file fc) (get (v_Global v)) (get (v_Global v'))) duration_fields /\
    (let file := either (fc_PacingRateMbps fc) (fc_PacingRateMbpsFlag fc) in
     v_PacingRateMbps v' = chosen (bs "pacing-rate-mbps") file (v_PacingRateMbps v) /\
     (seen (bs "pacing-rate-mbps") = false -> file <> None -> SFltb (v_PacingRateMbps v') (S754_zero false) = false)) /\
    v_WebSocketFrontProxy v' = default no_front_proxy (fc_WebSocketFrontProxy fc).
Proof.
  unfold applyConfigJSONToValues in Happly. apply res_bind_ok in Happly as (fc & Hfc & H). exists fc.
  destruct (json_Decode_extra raw) as [?|e|] eqn:Ex; [done| |done]. destruct e; try done.
  apply res_bind_ok in H as (al & [-> Htwice]%file_aliases_ok & H). unfold apply_values in H.
  apply res_bind_ok in H as (pacing & Hpace%float_chosen & H).
  do 4 (apply res_bind_ok in H as (? & ?%int_chosen & H)). apply res_bind_ok in H as (g & [Hg _]%apply_durations_ok & H).
  apply Ok_inj in H as <-. unfold string_fields, bool_fields, int_fields.
  split; [exact Hfc|]. split; [reflexivity|]. split; [exact Htwice|].
  split; [repeat (apply List.Forall_cons; [exact (apply_plain_chosen _ _ _)|]); apply List.Forall_nil|].
  split; [repeat (apply List.Forall_cons; [exact (apply_plain_chosen _ _ _)|]); apply List.Forall_nil|].
  split; [|by split_and!; [exact Hg|apply Hpace..|]].
  apply List.Forall_cons; [split; [apply apply_plain_chosen|done]|].
  repeat (apply List.Forall_cons; [split; [|intros _]; cbn -[chosen either]; tauto|]). apply List.Forall_nil.
Qed.

End FileTheorems.

(** * What start-up relies on *)

Definition global_ok (g : GlobalConfig) (maxClients maxStreams : Z) : Prop :=
  0 < DialTimeout g /\ 0 < WSHandshakeTimeout g /\ 0 < ReconnectDelay g <= ReconnectMaxDelay g /\ 0 < RTTProbeTimeout g /\
  0 < DNSQueryTimeout g /\ 0 < ECHRetryDelay g /\ 0 < UDPReadTimeout g /\ 0 < ShutdownTimeout g /\ 0 < PreAuthTimeout g /\
  0 <= ReconnectJitter g /\ 0 <= AuthSkew g /\ 0 <= maxClients /\ 0 <= maxStreams.

Lemma positive_durations_ok checks : positive_durations checks = Ok tt -> Forall (fun c => 0 < snd c) checks.
Proof.
  induction checks as [|[n d] checks IH]; intros H; [constructor|]. cbn in H. destruct (Z.leb_spec d 0); [done|]. by constructor; [|apply IH].
Qed.

Lemma validateGlobalConfigValues_ok g mc ms : validateGlobalConfigValues g mc ms = Ok tt -> global_ok g mc ms.
Proof.
  unfold validateGlobalConfigValues. intros ([] & Hp%positive_durations_ok & H)%res_bind_ok.
  rewrite !Forall_cons in Hp. cbn [snd] in Hp. unfold global_ok.
  repeat match type of H with (if ?b then _ else _) = _ => let E := fresh "E" in destruct b eqn:E; [done|] end. lia.
Qed.

Lemma validateToken_ok t : validateToken t = Ok tt -> Forall (fun c => 32 <= b2z c /\ b2z c <> 127) t.
Proof.
  unfold validateToken. destruct (existsb _ t) eqn:E; [done|]. intros _. apply Forall_forall. intros c Hc%list_elem_of_In.
  apply not_true_iff_false in E. rewrite existsb_exists in E. destruct (Z.ltb_spec (b2z c) 32), (Z.eqb_spec (b2z c) 127); try lia;
    destruct E; exists c; (split; [done|]); lia.
Qed.

Lemma parse_ports_ok parts acc ports :
  parse_ports parts acc = Ok ports -> (forall p, p ∈ acc -> 1 <= p <= 65535) -> forall p, p ∈ ports -> 1 <= p <= 65535.
Proof.
  revert acc. induction parts as [|part parts IH]; intros acc H Ha; cbn in H; [by injection H as <-|].
  destruct (Atoi part) as [n|]; [|done]. destruct ((n <=? 0) || (65535 <? n)) eqn:E; [done|].
  apply (IH _ H). intros p. rewrite elem_of_union, elem_of_singleton. intros [->|Hp]; [lia|by apply Ha].
Qed.

Section StartupTheorems.
Context `{U : GoUnicode} {L : ConfigLib}.

Lemma parse_cipher_ids_ok parts ids :
  parse_cipher_ids parts = Ok ids -> Forall (.∈ V3SupportedCiphers) ids /\ length ids = length parts.
Proof.
  revert ids. induction parts as [|part parts IH]; intros ids H; cbn in H; [by injection H as <-|].
  destruct (is_empty _); [done|]. destruct (ParseUint8 _) as [n|]; [|done]. case_bool_decide as Hin; [|done]. cbn in H.
  apply res_bind_ok in H as (rest & Hr & [= <-]). destruct (IH _ Hr) as [H1 H2]. split; [by constructor|]. cbn. by rewrite H2.
Qed.

Definition cipher_pref_ok (pref : bytes) : Prop := Forall (.∈ V3SupportedCiphers) pref /\ 1 <= len pref <= 8.

Lemma parseCipherPreference_ok raw pref : parseCipherPreference raw = Ok pref -> cipher_pref_ok pref.
Proof.
  unfold parseCipherPreference. destruct (is_empty _); [done|]. destruct (Z.ltb_spec 8 (len (Split (TrimSpace raw) c_comma))) as [|H8]; [done|].
  intros (r & [H1 H2]%parse_cipher_ids_ok & H)%res_bind_ok. destruct (Z.eqb_spec (len r) 0); [done|]. injection H as <-.
  split; [done|]. unfold len in *. lia.
Qed.

Definition server_scheme (scheme : bytes) : Prop := scheme = ws \/ scheme = wss.

#[local] Instance server_scheme_dec scheme : Decision (server_scheme scheme).
Proof. unfold server_scheme. apply _. Defined.

Lemma classify_ok rules ls srv n :
  classify rules = Ok (ls, srv, n) ->
  length ls = length rules /\ n = length (filter (fun l => server_scheme (ls_Scheme l)) ls) /\
  match srv with
  | Some (raw, scheme) => mkListener raw scheme ∈ ls /\ server_scheme scheme
  | None => n = 0%nat
  end.
Proof.
  revert ls srv n. induction rules as [|l rules IH]; intros ls srv n H; cbn [classify] in H; [by injection H as <- <- <-|].
  apply res_bind_ok in H as (u & _ & H). apply res_bind_ok in H as (? & _ & H). apply res_bind_ok in H as ([[ls0 srv0] n0] & Hr & H).
  destruct (IH _ _ _ Hr) as (E1 & E2 & E3). injection H as <- <- <-. cbn [length]. rewrite E1. split; [done|].
  rewrite filter_cons. cbn [ls_Scheme]. set (sch := ToLower (u_Scheme u)) in *.
  assert (bool_decide (sch = ws) || bool_decide (sch = wss) = bool_decide (server_scheme sch)) as ->.
  { unfold server_scheme. repeat case_bool_decide; done || tauto. }
  case_bool_decide as Hs; [rewrite decide_True by done|rewrite decide_False by done]; cbn [length]; rewrite <- E2; (split; [done|]).
  - destruct srv0 as [[raw sc]|]; [|split; [by apply elem_of_cons; left|done]]. destruct E3. split; [by apply elem_of_cons; right|done].
  - destruct srv0 as [[raw sc]|]; [|done]. destruct E3. split; [by apply elem_of_cons; right|done].
Qed.

(** The roles: one server listener alone, or client listeners only. *)
Lemma classifyListeners_ok raw ls srv :
  classifyListeners raw = Ok (ls, srv) ->
  match srv with
  | Some (r, scheme) => ls = [mkListener r scheme] /\ server_scheme scheme
  | None => ls <> [] /\ Forall (fun l => ~ server_scheme (ls_Scheme l)) ls
  end.
Proof.
  unfold classifyListeners. destruct (Z.eqb_spec (len (splitCommaList raw)) 0) as [|Hne]; [done|].
  intros ([[ls0 srv0] n] & (E1 & E2 & E3)%classify_ok & H)%res_bind_ok. destruct (bool_decide (is_Some srv0) && _) eqn:Eb; [done|].
  injection H as <- <-. destruct srv0 as [[r sc]|].
  - destruct E3 as [Hin Hsc]. cbn in Eb. apply orb_false_iff in Eb as [_ Hl%negb_false_iff%Z.eqb_eq].
    destruct ls0 as [|x [|? ?]]; try (unfold len in Hl; cbn in Hl; lia). apply list_elem_of_singleton in Hin as <-. done.
  - split; [intros ->; unfold len in Hne; cbn in E1; rewrite <- E1 in Hne; done|].
    rewrite E3 in E2. symmetry in E2. apply length_zero_iff_nil in E2. apply Forall_forall. intros l Hl Hs.
    assert (l ∈ filter (fun l => server_scheme (ls_Scheme l)) ls0) as Hf by (by apply list_elem_of_filter).
    rewrite E2 in Hf. by inversion Hf.
Qed.

Lemma validateMTLS_ok isServer scheme cert key ca ccert ckey :
  validateMTLSConfigValues isServer scheme cert key ca ccert ckey = Ok tt ->
  (cert = [] <-> key = []) /\ (ccert = [] <-> ckey = []) /\
  if isServer then ccert = [] /\ (ca <> [] -> scheme = wss) else cert = [] /\ ca = [].
Proof.
  unfold validateMTLSConfigValues, validateCertificatePair. intros H.
  destruct isServer, cert, key, ccert, ckey, ca; cbn in H; try done; try (by split_and!).
  all: case_bool_decide; [|done]; by split_and!.
Qed.

(** A client's start-up configuration. *)
Definition client_ok (v : runtimeValues) (c : clientStartupConfig) : Prop :=
  server_scheme (cs_ForwardScheme c) /\ 0 < v_ConnectionNum v /\
  (forall p, p ∈ cs_UDPBlockPorts c -> 1 <= p <= 65535) /\ cipher_pref_ok (cs_CipherPref c) /\
  (v_ClientCertFile v <> [] -> cs_ForwardScheme c = wss) /\
  (cs_ForwardScheme c = wss -> cs_Fallback c = false ->
   v_EnableECH v = true /\ v_Insecure v = false /\ exists q, buildDNSQuery (v_ECHDomain v) typeHTTPS = Ok q).

Lemma startup_client_ok v pref c : cipher_pref_ok pref -> startup_client v pref = Ok c -> client_ok v c.
Proof.
  unfold startup_client, validateClientStartupConfig. intros Hpref H. apply res_bind_ok in H as ([[[sch fb] auto] ports] & Hc & H).
  apply res_bind_ok in H as ([] & Hech & H). apply res_bind_ok in H as ([] & _ & [= <-]).
  destruct (is_empty _); [done|]. destruct (Z.leb_spec (v_ConnectionNum v) 0); [done|]. apply res_bind_ok in Hc as (u & _ & Hc).
  cbv zeta in Hc. set (s := ToLower (u_Scheme u)) in *.
  destruct (negb (bool_decide (s = wss)) && negb (bool_decide (s = ws))) eqn:Es; [done|].
  destruct (is_empty (u_Host u)); [done|]. destruct ((_ || _) && negb (bool_decide (s = wss))) eqn:Ecert; [done|].
  apply res_bind_ok in Hc as (ps & Hports%res_map_err_ok & [= <- <- <- <-]). unfold client_ok. cbn.
  split_and!; try done.
  - unfold server_scheme. destruct (bool_decide_reflect (s = wss)); [by right|]. left. by destruct (bool_decide_reflect (s = ws)).
  - eapply parse_ports_ok; [exact Hports|]. intros p Hp. by apply not_elem_of_empty in Hp.
  - intros Hcert. destruct (bool_decide_reflect (s = wss)); [done|]. destruct (v_ClientCertFile v); [done|]. done.
  - intros -> Hfb. rewrite bool_decide_eq_true_2 in * by done. cbn in Hfb, Hech. rewrite Hfb in Hech. cbn in Hech.
    apply res_map_err_ok in Hech. unfold validateECHLookupConfig in Hech. apply res_bind_ok in Hech as (q & Hq%res_map_err_ok & _).
    destruct (v_EnableECH v), (v_Insecure v), (v_Fallback v); try done. by split_and!; [..|exists q].
Qed.

(** C30: what a configuration that passes the checks guarantees to the rest.  It
    is either one ws/wss listener alone, with a target policy, and then
    a client CA only for wss; or client listeners only, with a ws/wss server, at
    least one connection, blocked ports that are ports, between one and eight
    supported ciphers, a client certificate only for wss, and, for wss without
    fallback, ECH switched on, verification not switched off and a domain that
    can be asked for.  Certificates and keys come in pairs, time-outs are
    positive, limits not negative, and the token has no control characters. *)
Theorem startup_checked (v : runtimeValues) (st : startupConfig) (Hst : validateStartupConfigValues v = Ok st) :
  (if st_IsServer st
   then st_Listeners st = [mkListener (st_ServerListen st) (st_ServerScheme st)] /\ server_scheme (st_ServerScheme st) /\
        st_Client st = None /\ is_Some (st_TargetPolicy st) /\
        v_ClientCertFile v = [] /\ (v_ClientCAFile v <> [] -> st_ServerScheme st = wss)
   else st_Listeners st <> [] /\ Forall (fun l => ~ server_scheme (ls_Scheme l)) (st_Listeners st) /\
        v_CertFile v = [] /\ v_ClientCAFile v = [] /\ exists c, st_Client st = Some c /\ client_ok v c) /\
  (v_CertFile v = [] <-> v_KeyFile v = []) /\ (v_ClientCertFile v = [] <-> v_ClientKeyFile v = []) /\
  global_ok (v_Global v) (v_MaxClientSessions v) (v_MaxStreamsPerClient v) /\
  Forall (fun c => 32 <= b2z c /\ b2z c <> 127) (v_Token v).
Proof.
  unfold validateStartupConfigValues in Hst. apply res_bind_ok in Hst as ([] & Htok%res_map_err_ok%validateToken_ok & H).
  apply res_bind_ok in H as ([] & Hg%res_map_err_ok%validateGlobalConfigValues_ok & H).
  destruct (SFltb _ _); [done|]. destruct (_ <? 0); [done|]. destruct (negb _); [done|].
  apply res_bind_ok in H as (pref & Hpref%res_map_err_ok%parseCipherPreference_ok & H). apply res_bind_ok in H as (? & _ & H).
  apply res_bind_ok in H as (? & _ & H). apply res_bind_ok in H as (strat & _ & H).
  apply res_bind_ok in H as ([ls srv] & Hls%classifyListeners_ok & H).
  destruct srv as [[raw sch]|]; cbn [default from_option id] in H; apply res_bind_ok in H as ([] & Hm%res_map_err_ok%validateMTLS_ok & H);
    destruct Hm as (Hm1 & Hm2 & Hm3).
  - rewrite bool_decide_eq_true_2 in H, Hm3 by (by eexists). apply res_bind_ok in H as (nets & _ & H).
    apply res_bind_ok in H as ([pol so] & _ & [= <-]). cbn. destruct Hls, Hm3. split_and!; try done; try apply Hm1; try apply Hm2.
  - rewrite bool_decide_eq_false_2 in H, Hm3 by (by intros [? ?]). apply res_bind_ok in H as (c & Hc%startup_client_ok & [= <-]); [|done].
    cbn. destruct Hls, Hm3. split_and!; try done; try apply Hm1; try apply Hm2. by exists c.
Qed.

End StartupTheorems.

(** * A concrete configuration *)

Definition empty_file : FileConfig := {|
  fc_Listen := None; fc_Forward := None; fc_IP := None; fc_Block := None; fc_Cert := None; fc_Key := None;
  fc_ClientCA := None; fc_ClientCert := None; fc_ClientKey := None; fc_ClientCAFlag := None;
  fc_ClientCertFlag := None; fc_ClientKeyFlag := None; fc_Token := None; fc_Metrics := None; fc_CIDR := None;
  fc_AllowTarget := None; fc_DenyTarget := None; fc_AllowHost := None; fc_DenyHost := None;
  fc_AllowTargetFlag := None; fc_DenyTargetFlag := None; fc_AllowHostFlag := None; fc_DenyHostFlag := None;
  fc_MaxClients := None; fc_MaxClientsFlag := None; fc_MaxStreams := None; fc_MaxStreamsFlag := None;
  fc_DNS := None; fc_ECH := None; fc_ECHDomain := None; fc_ECHDomainFlag := None; fc_IPS := None;
  fc_Connections := None; fc_Insecure := None; fc_Fallback := None; fc_CipherPref := None;
  fc_CipherPrefFlag := None; fc_PacingRateMbps := None; fc_PacingRateMbpsFlag := None;
  fc_ShapingCoalesceMs := None; fc_ShapingCoalesceMsFlag := None; fc_Transport := None; fc_TransportFlag := None;
  fc_QuicPort := None; fc_QuicPortFlag := None; fc_EnableDatagram := None; fc_EnableDatagramFlag := None;
  fc_CoverTraffic := None; fc_CoverTrafficFlag := None; fc_WebSocketFrontProxy := None; fc_DialTimeout := None;
  fc_WSHandshakeTimeout := None; fc_ReconnectDelay := None; fc_ReconnectMaxDelay := None;
  fc_ReconnectJitter := None; fc_RTTProbeTimeout := None; fc_DNSQueryTimeout := None; fc_DNSCacheTTL := None;
  fc_ECHRetryDelay := None; fc_UDPReadTimeout := None; fc_ShutdownTimeout := None; fc_AuthSkew := None;
  fc_PreAuthTimeout := None; fc_RulesPath := None; fc_GeoDir := None; fc_RouteEnabled := None; fc_SNI := None |}.

(** URLs of the form scheme://host[/path] and durations in whole seconds. *)
Definition plain_url (s : bytes) : res URL :=
  let i := IndexByte s c_colon in
  if (i <=? 0) || negb (HasPrefix (drop (Z.to_nat i) s) (bs "://")) then Err (Errorf "parse" []) else
  let rest := drop (Z.to_nat i + 3) s in
  let j := IndexByte rest c_slash in
  if j <? 0 then Ok (mkURL (take (Z.to_nat i) s) None rest [])
  else Ok (mkURL (take (Z.to_nat i) s) None (take (Z.to_nat j) rest) (drop (Z.to_nat j) rest)).

Definition plain_lib (fc : FileConfig) : ConfigLib := {|
  url_Parse := plain_url;
  ParseDuration := fun s => match Atoi s with Some n => Ok (n * Second) | None => Err (Errorf "duration" []) end;
  json_Decode := fun _ => Ok fc;
  json_Decode_extra := fun _ => Err EOF |}.

(** A file with a listener, a connection number and a second name; -n was given. *)
Definition sample_file : FileConfig :=
  let f := empty_file in
  mkFileConfig (Some (bs "socks5://127.0.0.1:1080")) (Some (bs "WSS://edge.example:443/tunnel")) None None
    (fc_Cert f) (fc_Key f) None None None None None None (Some (bs "secret")) None None
    None None None None None None None None None None None (Some 8)
    None None None (Some (bs "ech.example")) None (Some 7) None None None None None None None None None None None None None None None None
    None (Some (bs "2")) None None None None None None None None None None None None None None None None.

Definition sample_seen (flag : bytes) : bool := bool_decide (flag = bs "n").

Definition sample_values : runtimeValues :=
  match applyConfigJSONToValues (L := plain_lib sample_file) sample_seen [] defaultRuntimeValues with Ok v => v | _ => defaultRuntimeValues end.

Lemma config_file_over_flags_witness :
  v_ConnectionNum sample_values = 3 /\ v_MaxStreamsPerClient sample_values = 8 /\ v_ECHDomain sample_values = bs "ech.example" /\
  DialTimeout (v_Global sample_values) = 2 * Second /\ v_Token sample_values = bs "secret".
Proof.
  destruct (config_file_over_flags (L := plain_lib sample_file) sample_seen [] defaultRuntimeValues sample_values)
    as (fc & [= <-] & _ & _ & Hs & _ & Hi & Hd & _); [by vm_compute|].
  assert (forall flag file get, (flag, file, get) ∈ string_fields -> get sample_values = chosen sample_seen flag (file sample_file) (get defaultRuntimeValues)) as Hs'
    by (intros flag file get Hin; rewrite Forall_forall in Hs; exact (Hs _ Hin)).
  split_and!.
  - rewrite Forall_forall in Hi. destruct (Hi (bs "n", false, fc_Connections, v_ConnectionNum)) as [-> _]; [apply list_elem_of_In; by left|]. by vm_compute.
  - unfold int_fields in Hi. do 2 (apply Forall_cons in Hi as [_ Hi]). apply Forall_cons in Hi as [[-> _] _]. by vm_compute.
  - rewrite (Hs' (bs "ech-domain") (fun f => either (fc_ECHDomain f) (fc_ECHDomainFlag f)) v_ECHDomain); [by vm_compute|].
    apply list_elem_of_In. unfold string_fields. cbn. tauto.
  - unfold duration_fields in Hd. apply Forall_cons in Hd as [[Hd _] _]. apply (Ok_inj _ _ (eq_sym Hd)).
  - rewrite (Hs' (bs "token") fc_Token v_Token); [by vm_compute|]. apply list_elem_of_In. unfold string_fields. cbn. tauto.
Defined.

(** The sample is a client with ECH off. *)
Definition sample_startup : res startupConfig := validateStartupConfigValues (U := ascii_only_unicode) (L := plain_lib sample_file) sample_values.

Definition sample_startup_ok : bool :=
  match sample_startup with
  | Ok st => match st_IsServer st, st_Client st with
             | false, Some c => bool_decide (cs_ForwardScheme c = wss) && bool_decide (443 ∈ cs_UDPBlockPorts c)
             | _, _ => false
             end
  | _ => false
  end.

Lemma startup_checked_witness :
  exists st c, sample_startup = Ok st /\ st_IsServer st = false /\ st_Client st = Some c /\
    client_ok (U := ascii_only_unicode) sample_values c /\ cs_ForwardScheme c = wss /\ 443 ∈ cs_UDPBlockPorts c.
Proof.
  assert (sample_startup_ok = true) as Hv by (vm_compute; reflexivity). unfold sample_startup_ok in Hv.
  destruct sample_startup as [st| |] eqn:Hst; [|discriminate Hv|discriminate Hv]. exists st.
  pose proof (startup_checked (U := ascii_only_unicode) (L := plain_lib sample_file) sample_values st Hst) as [H _].
  destruct (st_IsServer st); [discriminate Hv|]. destruct H as (_ & _ & _ & _ & c & Ec & Hc). rewrite Ec in Hv.
  apply andb_prop in Hv as [H1%bool_decide_eq_true H2%bool_decide_eq_true]. exists c.
  split; [reflexivity|]. split; [reflexivity|]. split; [exact Ec|]. split; [exact Hc|]. split; [exact H1|exact H2].
Defined.
