(* ===== verification/Transports.v ===== *)
(** The transports: internal/transport/tcp_transport.go and quic_transport.go,
    internal/app/transport_ws.go and the address override of client.go.  A
    WebSocket is what its [NextReader] returns, message by message, and smux and
    quic-go are given by how their calls end. *)

From Stdlib Require Import ZArith Lia Strings.Byte.
From stdpp Require Import base numbers list.
From S2P Require Import Prelude GoStrings GoNet NetAddr GoTime Wire EchDns Rotation.

Local Open Scope Z_scope.
Local Open Scope go_scope.

(** * The address that is dialled *)

(** [strings.Trim(s, "[]")]. *)
Definition is_bracket (c : byte) : bool := chr c_lbrack c || chr c_rbrack c.

Fixpoint trim_left_brackets (s : bytes) : bytes :=
  match s with
  | c :: s' => if is_bracket c then trim_left_brackets s' else s
  | [] => []
  end.

Definition trim_brackets (s : bytes) : bytes := reverse (trim_left_brackets (reverse (trim_left_brackets s))).

(** What follows the first occurrence of [sep], if there is one: the second part
    of [strings.SplitN(s, sep, 2)]. *)
Fixpoint after_first (sep s : bytes) : option bytes :=
  if HasPrefix s sep then Some (drop (length sep) s) else
  match s with
  | [] => None
  | _ :: s => after_first sep s
  end.

Definition resolveDialTarget (addr targetIP : bytes) : bytes :=
  if is_empty targetIP then addr else
  match SplitHostPort targetIP with
  | Ok _ => targetIP
  | _ => match SplitHostPort addr with Ok (_, port) => JoinHostPort targetIP port | _ => targetIP end
  end.

Definition resolveWebSocketDialTarget (address ip : bytes) : res bytes :=
  if is_empty ip then Ok address else
  let! (_, port) := res_map_err (Wrapf "解析 WebSocket 目标地址失败 %q: %w") (SplitHostPort address) in
  match SplitHostPort ip with
  | Ok (host, overridePort) => Ok (JoinHostPort host overridePort)
  | _ => Ok (JoinHostPort ip port)
  end.

(** The part of a server address that names host and port. *)
Definition authority (rawAddr : bytes) : bytes :=
  let addr := default rawAddr (after_first (bs "://") rawAddr) in
  let i := IndexByte addr c_slash in
  if i =? -1 then addr else take (Z.to_nat i) addr.

Definition resolveQUICDialTarget (rawAddr targetIP : bytes) (quicPort : Z) : bytes * bytes :=
  let addr := authority rawAddr in
  let '(host, port) := match SplitHostPort addr with
                       | Ok hp => hp
                       | _ => (trim_brackets addr, bs "443")
                       end in
  let dialAddr := if 0 <? quicPort then JoinHostPort host (Itoa quicPort) else JoinHostPort host port in
  (resolveDialTarget dialAddr targetIP, host).

(** * Dialling QUIC *)

Definition DefaultALPN : bytes := bs "xtunnel-v3".

Record DialOptions : Type := mkDialOptions {
  do_TLS : option (TLSConfig * list bytes);
  do_ServerName : bytes; do_TargetIP : bytes; do_QUICPort : Z;
  do_Timeout : Z; do_KeepAlive : Z; do_MaxIdle : Z;
}.

(** What [quic.DialAddr] is called with. *)
Record quicDial : Type := mkQuicDial {
  qd_addr : bytes; qd_tls : TLSConfig; qd_protos : list bytes;
  qd_idle : Z; qd_keepAlive : Z; qd_handshake : Z;
}.

(** [&tls.Config{InsecureSkipVerify: true}]. *)
Definition insecureTLS : TLSConfig := mkTLS 0 [] [] None [] true [] NoClientCert None.

Definition with_name (c : TLSConfig) (name : bytes) : TLSConfig :=
  mkTLS (MinVersion c) name (EncryptedClientHelloConfigList c) (EncryptedClientHelloRejectionVerify c)
    (RootCAs c) (InsecureSkipVerify c) (Certificates c) (ClientAuth c) (ClientCAs c).

Definition positive_or (d fallback : Z) : Z := if d <=? 0 then fallback else d.

Definition quic_dial_config (rawAddr : bytes) (opts : DialOptions) : quicDial :=
  let '(conf, protos) := default (insecureTLS, []) (do_TLS opts) in
  let protos := match protos with [] => [DefaultALPN] | _ => protos end in
  let '(targetAddr, host) := resolveQUICDialTarget rawAddr (do_TargetIP opts) (do_QUICPort opts) in
  let conf := if is_empty (ServerName conf)
              then with_name conf (if is_empty (do_ServerName opts) then host else do_ServerName opts)
              else conf in
  mkQuicDial targetAddr conf protos (positive_or (do_MaxIdle opts) (30 * Second))
    (positive_or (do_KeepAlive opts) (10 * Second)) (positive_or (do_Timeout opts) (5 * Second)).

(** How the handshake ends: the connection is up, it died, or the context did. *)
Inductive handshake_end : Type := HandshakeUp | HandshakeDied (e : error) | HandshakeTimeout (e : error).

(** [QuicTransport.DialSession]: the session, and whether a connection that was
    made is closed again. *)
Definition quic_DialSession (dial : quicDial -> res nat) (finish : handshake_end) (rawAddr : bytes) (opts : DialOptions)
    : list nat * res nat :=
  match dial (quic_dial_config rawAddr opts) with
  | Ok conn =>
      match finish with
      | HandshakeUp => ([], Ok conn)
      | HandshakeDied e => ([conn], Err (Wrapf "quic handshake to %s failed: %w" e))
      | HandshakeTimeout e => ([conn], Err (Wrapf "quic handshake to %s timed out: %w" e))
      end
  | Err e => ([], Err (Wrapf "quic.DialAddr failed to %s: %w" e))
  | Panic => ([], Panic)
  end.

(** * Dialling WebSocket over smux *)

(** What the WebSocket dialer is called with: the server name its TLS
    configuration carries, and the address behind a host and port of the URL. *)
Record wsDial : Type := mkWsDial { wd_tls : option (TLSConfig * list bytes); wd_timeout : Z; wd_connect : bytes -> bytes }.

Definition ws_dial_config (opts : DialOptions) : wsDial :=
  mkWsDial
    match do_TLS opts with
    | Some (c, protos) => Some (if is_empty (do_ServerName opts) then c else with_name c (do_ServerName opts), protos)
    | None => None
    end
    (if do_Timeout opts =? 0 then 10 * Second else do_Timeout opts)
    (fun addr => resolveDialTarget addr (do_TargetIP opts)).

(** [TcpTransport.DialSession]; [parsed] is [url.Parse] of the address, [dial]
    the WebSocket dialer and [client] is [smux.Client].  The first component is
    the connections closed again. *)
Definition tcp_DialSession (parsed : res unit) (dial : wsDial -> res nat) (client : nat -> res nat) (opts : DialOptions)
    : list nat * res nat :=
  match parsed with
  | Ok _ =>
      match dial (ws_dial_config opts) with
      | Ok ws =>
          match client ws with
          | Ok sess => ([], Ok sess)
          | Err e => ([ws], Err (Wrapf "smux.Client failed: %w" e))
          | Panic => ([], Panic)
          end
      | Err e => ([], Err (Wrapf "websocket dial failed: %w" e))
      | Panic => ([], Panic)
      end
  | Err e => ([], Err (Wrapf "invalid URL %q: %w" e))
  | Panic => ([], Panic)
  end.

(** * Sessions over smux *)

Definition ErrSessionClosed : error := Errorf "transport: session closed" [].
Definition ErrDatagramNotSupported : error := Errorf "transport: datagram not supported" [].

(** Which of the two cases of the [select] is taken. *)
Inductive race : Type := CtxFirst (e : error) | ResultFirst.

(** [OpenStream] and [AcceptStream] of [TcpTransportSession]: the result, and the
    stream that the goroutine still obtains when the context ended first. *)
Definition tcp_stream_call (closed : bool) (r : race) (call : res nat) : res nat * option nat :=
  if closed then (Err ErrSessionClosed, None) else
  match r with
  | CtxFirst e => (Err e, match call with Ok st => Some st | _ => None end)
  | ResultFirst => (call, None)
  end.

Definition tcp_OpenStream := tcp_stream_call.
Definition tcp_AcceptStream := tcp_stream_call.

(** [SendDatagram] and [ReceiveDatagram] of the two sessions. *)
Definition tcp_SendDatagram (payload : bytes) : res unit := Err ErrDatagramNotSupported.
Definition tcp_ReceiveDatagram : res bytes := Err ErrDatagramNotSupported.
Definition quic_call {A} (closed : bool) (call : res A) : res A := if closed then Err ErrSessionClosed else call.

(** * WebSocket messages as a byte stream *)

Definition BinaryMessage : Z := 2.

(** One call of [Read] on the reader of a message: what there is to read and the
    error that comes with the last of it. *)
Record piece : Type := mkPiece { pc_data : bytes; pc_err : option error }.

Record ws_message : Type := mkMessage { m_type : Z; m_reads : list piece }.

Definition reader_Read (n : nat) (r : list piece) : list piece * bytes * option error :=
  match r with
  | [] => ([], [], Some EOF)
  | mkPiece d e :: r => if (length d <=? n)%nat then (r, d, e) else (mkPiece (drop n d) e :: r, take n d, None)
  end.

(** [wsNetConn] and [WSNetConn]: [wc_src] is what [NextReader] will return. *)
Record wsNetConn : Type := mkWs {
  wc_reader : option (list piece);
  wc_src : list (ws_message + error);
  wc_deadErr : option error;
  wc_dead : bool;
}.

Definition newWSNetConn (src : list (ws_message + error)) : wsNetConn := mkWs None src None false.

(** [errors.Is(err, io.EOF)]. *)
Fixpoint is_EOF (e : error) : bool :=
  match e with
  | EOF => true
  | Wrapf _ e => is_EOF e
  | _ => false
  end.

Module App.

(** internal/app/transport_ws.go: the first error is kept, the channel is closed
    once. *)
Definition signalDead (e : error) (c : wsNetConn) : wsNetConn :=
  mkWs (wc_reader c) (wc_src c) (match wc_deadErr c with None => Some e | d => d end) true.

(** [c.reader.Read(p)] and what follows it; [None] is [continue]. *)
Definition read_message (n : nat) (r : list piece) (c : wsNetConn) : wsNetConn * option (bytes * option error) :=
  let '(r, d, e) := reader_Read n r in
  match e with
  | Some e =>
      if is_EOF e then
        let c := mkWs None (wc_src c) (wc_deadErr c) (wc_dead c) in
        (c, match d with [] => None | _ => Some (d, None) end)
      else (signalDead e (mkWs (Some r) (wc_src c) (wc_deadErr c) (wc_dead c)), Some (d, Some e))
  | None => (mkWs (Some r) (wc_src c) (wc_deadErr c) (wc_dead c), Some (d, None))
  end.

Fixpoint Read (fuel n : nat) (c : wsNetConn) : option (wsNetConn * (bytes * option error)) :=
  match fuel with
  | O => None
  | S fuel =>
      let go r c :=
        match read_message n r c with
        | (c, Some out) => Some (c, out)
        | (c, None) => Read fuel n c
        end in
      match wc_reader c with
      | Some r => go r c
      | None =>
          match wc_src c with
          | [] => Some (signalDead EOF c, ([], Some EOF))
          | inr e :: src => Some (signalDead e (mkWs None src (wc_deadErr c) (wc_dead c)), ([], Some e))
          | inl m :: src =>
              let c := mkWs None src (wc_deadErr c) (wc_dead c) in
              if m_type m =? BinaryMessage then go (m_reads m) c else Read fuel n c
          end
      end
  end.

(** [Write] into the writer that [NextWriter] returned, or its error; [closing]
    is what closing that writer returns. *)
Definition Write {W : Type} `{HW : Writer W} (next : option error) (closing : option error) (p : bytes) (w : W)
    (c : wsNetConn) : wsNetConn * W * Z * option error :=
  match next with
  | Some e => (signalDead e c, w, 0, Some e)
  | None =>
      let '(w, (n, werr)) := writeAllCount w p in
      match werr, closing with
      | Some e, _ => (signalDead e c, w, n, Some e)
      | None, Some e => (signalDead e c, w, n, Some e)
      | None, None => (c, w, n, None)
      end
  end.

Definition Close (closing : option error) (c : wsNetConn) : wsNetConn * option error :=
  (signalDead (default EOF closing) c, closing).

End App.

Module Transport.

(** internal/transport/tcp_transport.go: everything happens once. *)
Definition signalDead (e : error) (c : wsNetConn) : wsNetConn :=
  if wc_dead c then c else mkWs (wc_reader c) (wc_src c) (Some e) true.

Fixpoint Read (fuel n : nat) (c : wsNetConn) : option (wsNetConn * (bytes * option error)) :=
  match fuel with
  | O => None
  | S fuel =>
      match wc_reader c with
      | Some r =>
          let '(r, d, e) := reader_Read n r in
          let with_reader r := mkWs r (wc_src c) (wc_deadErr c) (wc_dead c) in
          match e with
          | None => Some (with_reader (Some r), (d, None))
          | Some e =>
              if is_EOF e then
                match d with [] => Read fuel n (with_reader None) | _ => Some (with_reader None, (d, None)) end
              else Some (signalDead e (with_reader (Some r)), (d, Some e))
          end
      | None =>
          match wc_src c with
          | [] => Some (signalDead EOF c, ([], Some EOF))
          | inr e :: src => Some (signalDead e (mkWs None src (wc_deadErr c) (wc_dead c)), ([], Some e))
          | inl m :: src =>
              Read fuel n (mkWs (if m_type m =? BinaryMessage then Some (m_reads m) else None) src (wc_deadErr c) (wc_dead c))
          end
      end
  end.

(** [WriteMessage] sends all of [p] or fails. *)
Definition Write (sent : option error) (p : bytes) (c : wsNetConn) : wsNetConn * Z * option error :=
  match sent with
  | Some e => (signalDead e c, 0, Some e)
  | None => (c, len p, None)
  end.

Definition Close (closing : option error) (c : wsNetConn) : wsNetConn * option error :=
  (signalDead ErrClosedPipe c, closing).

End Transport.

(** * The byte stream of the messages *)

(** What is left to read: the bytes of the binary messages and the error after
    them.  A message ends with [io.EOF] or breaks off. *)
Fixpoint reader_rest (r : list piece) : bytes * option error :=
  match r with
  | [] => ([], None)
  | mkPiece d e :: r =>
      match e with
      | None => let '(b, f) := reader_rest r in (d ++ b, f)
      | Some e => (d, if is_EOF e then None else Some e)
      end
  end.

Definition then_rest (head : bytes * option error) (tail : bytes * error) : bytes * error :=
  match head with
  | (b, Some e) => (b, e)
  | (b, None) => (b ++ fst tail, snd tail)
  end.

Fixpoint src_rest (src : list (ws_message + error)) : bytes * error :=
  match src with
  | [] => ([], EOF)
  | inr e :: _ => ([], e)
  | inl m :: src => if m_type m =? BinaryMessage then then_rest (reader_rest (m_reads m)) (src_rest src) else src_rest src
  end.

Definition remaining (c : wsNetConn) : bytes * error :=
  then_rest (match wc_reader c with Some r => reader_rest r | None => ([], None) end) (src_rest (wc_src c)).

(** No read of a message returns nothing, neither bytes nor an error. *)
Definition busy (r : list piece) : Prop := Forall (fun p => pc_data p <> [] \/ pc_err p <> None) r.

Definition busy_conn (c : wsNetConn) : Prop :=
  match wc_reader c with Some r => busy r | None => True end /\
  Forall (fun x => match x with inl m => busy (m_reads m) | inr _ => True end) (wc_src c).

Definition dead_ok (c : wsNetConn) : Prop := wc_dead c = false <-> wc_deadErr c = None.

(** What a [Read] may return. *)
Definition read_ok (n : nat) (c c' : wsNetConn) (d : bytes) (e : option error) : Prop :=
  (length d <= n)%nat /\ dead_ok c' /\ (busy_conn c -> busy_conn c') /\
  match e with
  | None => remaining c = then_rest (d, None) (remaining c') /\ wc_dead c' = wc_dead c /\ wc_deadErr c' = wc_deadErr c /\
            (busy_conn c -> (0 < n)%nat -> d <> [])
  | Some e => remaining c = (d, e) /\ wc_dead c' = true /\ wc_deadErr c' = Some (default e (wc_deadErr c))
  end.

Lemma signalDead_same e c : dead_ok c -> App.signalDead e c = Transport.signalDead e c.
Proof.
  destruct c as [r s d b]. unfold dead_ok, App.signalDead, Transport.signalDead. cbn. intros [Ha Hb].
  destruct b, d; cbn; try done; [by specialize (Hb eq_refl)|by specialize (Ha eq_refl)].
Qed.

Lemma reader_Read_rest n r r' d e : reader_Read n r = (r', d, e) ->
  (length d <= n)%nat /\ (busy r -> busy r') /\
  match e with
  | None => reader_rest r = (d ++ fst (reader_rest r'), snd (reader_rest r')) /\ (busy r -> (0 < n)%nat -> d <> [])
  | Some e => reader_rest r = (d, if is_EOF e then None else Some e)
  end.
Proof.
  destruct r as [|[d0 e0] r]; cbn [reader_Read reader_rest]; [intros [= <- <- <-]; repeat split; cbn; try lia; done|].
  destruct (Nat.leb_spec (length d0) n) as [Hl|Hl]; intros [= <- <- <-].
  - split; [done|]. split; [by intros [_ H]%Forall_cons|]. destruct e0 as [e0|]; [done|]. split; [by destruct (reader_rest r)|].
    intros [[H|H] _]%Forall_cons _; done.
  - split; [rewrite length_take; lia|]. split.
    { intros [[H|H] Hr]%Forall_cons; constructor; try done; left; cbn; intros E;
        apply (f_equal length) in E; rewrite length_drop in E; cbn in E; lia. }
    cbn [reader_rest]. split.
    + destruct e0 as [e0|]; cbn [fst snd]; [by rewrite take_drop|]. destruct (reader_rest r). cbn. by rewrite app_assoc, take_drop.
    + intros _ Hn E. apply (f_equal length) in E. rewrite length_take in E. cbn in E. lia.
Qed.

Lemma then_rest_assoc d h t : then_rest (d, None) (then_rest h t) = then_rest (d ++ fst h, snd h) t.
Proof. destruct h as [b [e|]]; cbn; [done|]. by rewrite app_assoc. Qed.

Lemma read_ok_from n c0 c c' d e :
  remaining c = remaining c0 -> wc_dead c = wc_dead c0 -> wc_deadErr c = wc_deadErr c0 -> (busy_conn c -> busy_conn c0) ->
  read_ok n c0 c' d e -> read_ok n c c' d e.
Proof.
  intros Hr Hd Hde Hb (Hn & Hok & Hbusy & H). split; [done|]. split; [done|]. split; [by auto|].
  destruct e; rewrite Hr, ?Hd, Hde; [done|]. destruct H as (? & ? & ? & ?). split_and!; by auto.
Qed.

(** What both adapters return from a connection, with enough rounds for each. *)
Definition both_read (f1 f2 n : nat) (c : wsNetConn) : Prop :=
  exists c' d e, App.Read f1 n c = Some (c', (d, e)) /\ Transport.Read f2 n c = Some (c', (d, e)) /\ read_ok n c c' d e.

Lemma read_current f1 f2 n r src de b :
  dead_ok (mkWs (Some r) src de b) -> both_read f1 f2 n (mkWs None src de b) ->
  both_read (S f1) (S f2) n (mkWs (Some r) src de b).
Proof.
  intros Hd (c0' & d0 & e0 & H1 & H2 & H3). set (c := mkWs (Some r) src de b) in *.
  unfold both_read. cbn [App.Read Transport.Read wc_reader wc_src wc_deadErr wc_dead c]. unfold App.read_message.
  destruct (reader_Read n r) as [[r' d] e] eqn:Hr. apply reader_Read_rest in Hr as (Hn & Hb & Hrest).
  destruct e as [e|]; [destruct (is_EOF e) eqn:He|].
  - cbn [wc_src wc_deadErr wc_dead c]. destruct d as [|x d].
    + exists c0', d0, e0. split; [done|]. split; [done|].
      refine (read_ok_from n (mkWs None src de b) c _ _ _ _ eq_refl eq_refl _ H3); [|intros [_ ?]; by split].
      unfold remaining. cbn [wc_reader wc_src c]. by rewrite Hrest.
    + eexists _, _, _. split; [reflexivity|]. split; [reflexivity|]. split_and!; [done|done|intros [_ ?]; by split| |done|done|done].
      unfold remaining. cbn [wc_reader wc_src c]. rewrite Hrest. by destruct (src_rest src).
  - eexists _, _, _. split; [reflexivity|]. rewrite <- signalDead_same by done. split; [reflexivity|].
    assert (remaining c = (d, e)) as Hc by (unfold remaining; cbn [wc_reader wc_src c]; by rewrite Hrest).
    split; [done|]. split; [by unfold dead_ok, c in *; cbn; destruct de|]. split; [intros [H0 ?]; split; [exact (Hb H0)|done]|].
    split; [done|]. split; [done|]. unfold c. cbn. by destruct de.
  - eexists _, _, _. split; [reflexivity|]. split; [reflexivity|]. destruct Hrest as [Hrest Hne].
    split; [done|]. split; [done|]. split; [intros [H0 ?]; split; [exact (Hb H0)|done]|].
    split_and!; [|done|done|intros [H0 ?]; exact (Hne H0)].
    unfold remaining. cbn [wc_reader wc_src c]. rewrite Hrest, then_rest_assoc. done.
Qed.

Lemma read_next src : forall f1 f2 n de b,
  (length src < f1)%nat -> (2 * length src < f2)%nat -> dead_ok (mkWs None src de b) -> both_read f1 f2 n (mkWs None src de b).
Proof.
  induction src as [|x src IH]; intros [|f1] [|f2] n de b Hf1 Hf2 Hd; cbn [length] in *; try lia.
  { set (c := mkWs None [] de b) in *. exists (App.signalDead EOF c), [], (Some EOF). split; [reflexivity|].
    rewrite signalDead_same by done. split; [reflexivity|]. rewrite <- signalDead_same by done.
    split_and!; cbn; [lia|unfold dead_ok, c in *; cbn in *; by destruct de|done|done|done|by destruct de]. }
  destruct x as [m|e].
  - destruct (m_type m =? BinaryMessage) eqn:Hm.
    + destruct f2 as [|f2]; [lia|].
      destruct (read_current f1 f2 n (m_reads m) src de b Hd) as (c' & d & e & H1 & H2 & H3); [apply IH; by try lia|].
      exists c', d, e. cbn [App.Read Transport.Read wc_reader wc_src wc_deadErr wc_dead] in *. rewrite Hm.
      split; [exact H1|]. split; [exact H2|].
      refine (read_ok_from n (mkWs (Some (m_reads m)) src de b) (mkWs None (inl m :: src) de b) _ _ _ _ eq_refl eq_refl _ H3).
      * unfold remaining. cbn. rewrite Hm. by destruct (then_rest _ _).
      * intros [_ [? ?]%Forall_cons]. by split.
    + destruct (IH f1 f2 n de b) as (c' & d & e & H1 & H2 & H3); try lia; [done|].
      exists c', d, e. cbn [App.Read Transport.Read wc_reader wc_src wc_deadErr wc_dead]. rewrite Hm. split; [done|]. split; [done|].
      refine (read_ok_from n (mkWs None src de b) (mkWs None (inl m :: src) de b) _ _ _ _ eq_refl eq_refl _ H3).
      * unfold remaining. cbn. by rewrite Hm.
      * intros [_ [? ?]%Forall_cons]. by split.
  - set (c := mkWs None (inr e :: src) de b). set (c1 := mkWs None src de b) in *.
    exists (App.signalDead e c1), [], (Some e). split; [reflexivity|]. rewrite signalDead_same by done. split; [reflexivity|].
    rewrite <- signalDead_same by done.
    split; [cbn; lia|]. split; [unfold dead_ok, c1 in *; cbn in *; by destruct de|].
    split; [intros [_ [? ?]%Forall_cons]; by split|]. cbn. by destruct de.
Qed.

(** C19: the WebSocket connection is a byte stream.  Both adapters (the one of
    the application and the one of the transport package) return from every
    [Read], with the same result: bytes in the order of the binary messages,
    across message ends and skipping other messages, or the error that follows
    them once all of them were read, and then the connection is dead with the
    first error it met.  A read into a buffer makes progress when the messages
    do. *)
Theorem ws_byte_stream (n : nat) (c : wsNetConn) (Hdead : dead_ok c) :
  let rounds := (2 * length (wc_src c) + 2)%nat in
  exists c' d e, App.Read rounds n c = Some (c', (d, e)) /\ Transport.Read rounds n c = Some (c', (d, e)) /\
    (length d <= n)%nat /\ dead_ok c' /\
    match e with
    | None => remaining c = (d ++ fst (remaining c'), snd (remaining c')) /\ wc_dead c' = wc_dead c /\
              (busy_conn c -> (0 < n)%nat -> d <> [])
    | Some e => remaining c = (d, e) /\ wc_dead c' = true /\ wc_deadErr c' = Some (default e (wc_deadErr c))
    end.
Proof.
  assert (forall rounds, (2 * length (wc_src c) + 2 <= rounds)%nat -> both_read rounds rounds n c) as H.
  { destruct c as [[r|] src de b]; cbn [wc_src] in *; intros [|rounds] Hr; try lia.
    - apply read_current; [done|]. apply read_next; [lia|lia|done].
    - apply read_next; [lia|lia|done]. }
  intros rounds. destruct (H rounds) as (c' & d & e & H1 & H2 & Hn & Hok & _ & H3); [lia|].
  exists c', d, e. split_and!; [done|done|done|done|]. destruct e; [done|]. destruct H3 as (? & ? & ? & ?). done.
Qed.

(** * The address override *)

Definition host_clean (h : bytes) : Prop := (c_lbrack ∉ h) /\ (c_rbrack ∉ h) /\ (c_slash ∉ h).
Definition port_clean (p : bytes) : Prop := (c_colon ∉ p) /\ (c_lbrack ∉ p) /\ (c_rbrack ∉ p) /\ (c_slash ∉ p).

Lemma after_first_scheme scheme rest : c_colon ∉ scheme -> after_first (bs "://") (scheme ++ bs "://" ++ rest) = Some rest.
Proof.
  induction scheme as [|c scheme IH]; intros Hc; [done|]. apply not_elem_of_cons in Hc as [Hc Hs]. cbn [app after_first].
  assert (HasPrefix (c :: scheme ++ bs "://" ++ rest) (bs "://") = false) as ->; [|by apply IH].
  destruct (HasPrefix _ _) eqn:E; [|done]. apply HasPrefix_app in E as [t E]. injection E as E _. by destruct Hc.
Qed.

Lemma JoinHostPort_no_slash h p : host_clean h -> port_clean p -> c_slash ∉ JoinHostPort h p.
Proof.
  intros (_ & _ & Hh) (_ & _ & _ & Hp) H. unfold JoinHostPort in H.
  destruct (_ <=? _); rewrite ?elem_of_cons, ?elem_of_app, ?elem_of_cons in H;
    repeat match goal with H : _ \/ _ |- _ => destruct H | H : c_slash = _ |- _ => by vm_compute in H end; done.
Qed.

Lemma authority_url scheme h p path :
  c_colon ∉ scheme -> host_clean h -> port_clean p -> (path = [] \/ head path = Some c_slash) ->
  authority (scheme ++ bs "://" ++ JoinHostPort h p ++ path) = JoinHostPort h p.
Proof.
  intros Hs Hh Hp Hpath. pose proof (JoinHostPort_no_slash h p Hh Hp) as Hn.
  unfold authority. rewrite after_first_scheme by done. cbn [default from_option id].
  destruct Hpath as [->|Hpath].
  - rewrite app_nil_r. apply IndexByte_none in Hn. pose proof (IndexByte_lower (JoinHostPort h p) c_slash).
    destruct (Z.eqb_spec (IndexByte (JoinHostPort h p) c_slash) (-1)); [done|lia].
  - destruct path as [|c path]; [done|]. injection Hpath as ->. rewrite IndexByte_app by done.
    pose proof (len_nonneg (JoinHostPort h p)). destruct (Z.eqb_spec (len (JoinHostPort h p)) (-1)); [lia|].
    unfold len. by rewrite Nat2Z.id, take_app_length.
Qed.

Lemma split_join h p : host_clean h -> port_clean p -> SplitHostPort (JoinHostPort h p) = Ok (h, p).
Proof. intros (? & ? & _) (? & ? & ? & _). by apply SplitHostPort_JoinHostPort. Qed.

Lemma Itoa_clean z : 0 <= z -> port_clean (Itoa z).
Proof. intros Hz. split_and!; apply Itoa_not_elem; done. Qed.

(** The address override changes the address that is dialled and nothing
    else, in the same way on every path.  For a server at host [h] and port [p],
    the WebSocket dialer of the client, the one of the transport and QUIC dial
    the server itself without an override, the override as it is when it has a
    port, and the override with the server's port when it has none; QUIC puts
    its own port, if one is configured, in place of the server's port, and the
    name it gives to TLS is always [h]. *)
Theorem dial_override (scheme h p path ip : bytes) (quicPort : Z)
    (Hscheme : c_colon ∉ scheme) (Hh : host_clean h) (Hp : port_clean p) (Hpath : path = [] \/ head path = Some c_slash) :
  let addr := JoinHostPort h p in
  let quic := JoinHostPort h (if 0 <? quicPort then Itoa quicPort else p) in
  let url := scheme ++ bs "://" ++ addr ++ path in
  (ip = [] -> resolveDialTarget addr ip = addr /\ resolveWebSocketDialTarget addr ip = Ok addr /\
              resolveQUICDialTarget url ip quicPort = (quic, h)) /\
  (forall oh op, ip = JoinHostPort oh op -> SplitHostPort ip = Ok (oh, op) -> ip <> [] ->
     resolveDialTarget addr ip = ip /\ resolveWebSocketDialTarget addr ip = Ok ip /\
     resolveQUICDialTarget url ip quicPort = (ip, h)) /\
  (ip <> [] -> (exists e, SplitHostPort ip = Err e) ->
     resolveDialTarget addr ip = JoinHostPort ip p /\ resolveWebSocketDialTarget addr ip = Ok (JoinHostPort ip p) /\
     resolveQUICDialTarget url ip quicPort = (JoinHostPort ip (if 0 <? quicPort then Itoa quicPort else p), h)).
Proof.
  intros addr quic url. pose proof (split_join h p Hh Hp) as Hs. fold addr in Hs.
  assert (SplitHostPort quic = Ok (h, if 0 <? quicPort then Itoa quicPort else p)) as Hq.
  { apply split_join; [done|]. destruct (Z.ltb_spec 0 quicPort); [apply Itoa_clean; lia|done]. }
  assert (resolveQUICDialTarget url ip quicPort = (resolveDialTarget quic ip, h)) as HQ.
  { unfold resolveQUICDialTarget, url, addr. rewrite authority_url by done. fold addr. rewrite Hs.
    unfold quic. by destruct (0 <? quicPort). }
  rewrite HQ. unfold resolveDialTarget, resolveWebSocketDialTarget. split_and!.
  - by intros ->.
  - intros oh op Hip Hsp Hne. rewrite Hsp. destruct ip as [|x ip]; [done|]. cbn [is_empty]. rewrite Hs. cbn. by rewrite <- Hip.
  - intros Hne [e He]. rewrite He. destruct ip as [|x ip]; [done|]. cbn [is_empty]. rewrite Hs, Hq. done.
Qed.

(** A QUIC dial without a TLS configuration verifies nothing; with one it keeps
    its verification, its ECH list and its certificates. *)
Lemma quic_dial_verification (rawAddr : bytes) (opts : DialOptions) :
  let d := quic_dial_config rawAddr opts in
  match do_TLS opts with
  | None => InsecureSkipVerify (qd_tls d) = true /\ EncryptedClientHelloConfigList (qd_tls d) = []
  | Some (c, _) => InsecureSkipVerify (qd_tls d) = InsecureSkipVerify c /\
      EncryptedClientHelloConfigList (qd_tls d) = EncryptedClientHelloConfigList c /\ Certificates (qd_tls d) = Certificates c
  end.
Proof.
  unfold quic_dial_config. destruct (do_TLS opts) as [[c protos]|]; cbn [default from_option id];
    destruct (resolveQUICDialTarget _ _ _) as [a h]; cbn [qd_tls]; [by destruct (is_empty (ServerName c))|done].
Qed.

(** When the context ends before smux has answered, a stream that is opened
    afterwards stays with nobody. *)
Lemma abandoned_stream (e : error) (st : nat) :
  tcp_OpenStream false (CtxFirst e) (Ok st) = (Err e, Some st) /\ tcp_AcceptStream false (CtxFirst e) (Ok st) = (Err e, Some st).
Proof. done. Qed.

(** * Witnesses *)

Definition sample_ws : wsNetConn :=
  newWSNetConn [inl (mkMessage 1 [mkPiece (bs "text") None]);
                inl (mkMessage BinaryMessage [mkPiece (bs "hello ") None; mkPiece (bs "wor") (Some EOF)]);
                inl (mkMessage BinaryMessage []);
                inl (mkMessage BinaryMessage [mkPiece (bs "ld") None]); inr ErrClosedPipe].

Lemma ws_byte_stream_witness :
  let rounds := (2 * length (wc_src sample_ws) + 2)%nat in
  dead_ok sample_ws /\ remaining sample_ws = (bs "hello world", ErrClosedPipe) /\
  exists c' d e, App.Read rounds 4 sample_ws = Some (c', (d, e)) /\ Transport.Read rounds 4 sample_ws = Some (c', (d, e)) /\
    (length d <= 4)%nat /\ dead_ok c' /\
    match e with
    | None => remaining sample_ws = (d ++ fst (remaining c'), snd (remaining c')) /\ wc_dead c' = wc_dead sample_ws /\
              (busy_conn sample_ws -> (0 < 4)%nat -> d <> [])
    | Some e => remaining sample_ws = (d, e) /\ wc_dead c' = true /\ wc_deadErr c' = Some (default e (wc_deadErr sample_ws))
    end.
Proof.
  assert (dead_ok sample_ws) as H by done.
  split; [exact H|]. split; [vm_compute; reflexivity|]. exact (ws_byte_stream 4 sample_ws H).
Defined.

Lemma dial_override_witness :
  resolveDialTarget (bs "example.com:443") (bs "2001:db8::1") = bs "[2001:db8::1]:443" /\
  resolveQUICDialTarget (bs "wss://example.com:443/ws") (bs "2001:db8::1") 8443 = (bs "[2001:db8::1]:8443", bs "example.com").
Proof.
  pose proof (dial_override (bs "wss") (bs "example.com") (bs "443") (bs "/ws") (bs "2001:db8::1") 8443) as H.
  cbv zeta in H. change (JoinHostPort (bs "example.com") (bs "443")) with (bs "example.com:443") in H.
  destruct H as (_ & _ & H).
  - apply (bool_decide_unpack _). vm_compute. exact I.
  - split_and!; apply (bool_decide_unpack _); vm_compute; exact I.
  - split_and!; apply (bool_decide_unpack _); vm_compute; exact I.
  - by right.
  - destruct H as (H1 & _ & H3); [done|by eexists|].
    change (JoinHostPort (bs "2001:db8::1") (bs "443")) with (bs "[2001:db8::1]:443") in H1. split; [exact H1|exact H3].
Defined.
