(* ===== verification/TransportSession.v ===== *)
(** The interface [TransportSession] of internal/transport/transport.go as a class,
    with the sessions of tcp_transport.go (smux over WebSocket) and
    quic_transport.go as its instances, what a user of a session may rely on, the
    numbers of their streams, and [wrapV3DataStream] of internal/app/server.go. *)

From Stdlib Require Import ZArith Lia Strings.Byte.
From stdpp Require Import base numbers list gmap.
From S2P Require Import Prelude GoStrings Crypto Wire WireV3 CipherStream Sessions Transports.

Local Open Scope Z_scope.
Local Open Scope go_scope.

(** * The interface *)

(** What a session holds: the multiplexed session, the connection under it. *)
Inductive resource : Type := RSession | RConn.

(** The operations of a session in a state [S]; [call] is what the library under it
    answers if it is asked, [closing] what closing it gives.  [ts_broken] is the
    session after the library has found the connection dead, [ts_owned] what it
    holds and [ts_released] what it has closed; [ts_ok] and [ts_new] are its states
    and those before the first [Close]. *)
Class TransportSession (S : Type) := {
  ts_IsClosed : S -> bool;
  ts_OpenStream : race -> res nat -> S -> res nat;
  ts_AcceptStream : race -> res nat -> S -> res nat;
  ts_SendDatagram : res unit -> S -> res unit;
  ts_ReceiveDatagram : res bytes -> S -> res bytes;
  ts_Close : option error -> S -> S * option error;
  ts_broken : S -> S;
  ts_owned : S -> list resource;
  ts_released : S -> list resource;
  ts_ok : S -> Prop;
  ts_new : S -> Prop;
}.

Definition is_Err {A} (r : res A) : Prop := match r with Err _ => True | _ => False end.

(** What its users rely on: a closed session refuses every call without asking the
    library; the first [Close] closes it, releases what it holds and reports how
    that went; later ones do nothing; a connection that breaks closes it. *)
Class TransportSessionOk (S : Type) `{TransportSession S} : Prop := {
  refuses_streams : forall r call s, ts_IsClosed s = true ->
    ts_OpenStream r call s = Err ErrSessionClosed /\ ts_AcceptStream r call s = Err ErrSessionClosed;
  refuses_datagrams : forall u b s, ts_IsClosed s = true -> is_Err (ts_SendDatagram u s) /\ is_Err (ts_ReceiveDatagram b s);
  close_ok : forall e s, ts_ok s -> ts_ok (fst (ts_Close e s)) /\ ts_IsClosed (fst (ts_Close e s)) = true;
  close_first : forall e s, ts_new s -> snd (ts_Close e s) = e /\ ts_released (fst (ts_Close e s)) = ts_owned s /\ ~ ts_new (fst (ts_Close e s));
  close_again : forall e s, ts_ok s -> ~ ts_new s -> ts_Close e s = (s, None);
  broken_ok : forall s, ts_ok s -> ts_ok (ts_broken s) /\ ts_IsClosed (ts_broken s) = true;
  broken_same : forall s, ts_owned (ts_broken s) = ts_owned s /\ ts_released (ts_broken s) = ts_released s /\ (ts_new (ts_broken s) <-> ts_new s);
  new_dec : forall s, ts_ok s -> ts_new s \/ ~ ts_new s;
  new_ok : forall s, ts_new s -> ts_ok s /\ ts_released s = [];
}.

(** * The sessions *)

(** [TcpTransportSession]: the smux session, the connection under it if the
    session has one, [closeOnce], and what was closed. *)
Record TcpTransportSession : Type := mkTcpSession {
  tss_closed : bool; tss_underlying : bool; tss_once : bool; tss_released : list resource;
}.

Definition NewTcpTransportSession (underlying : bool) : TcpTransportSession := mkTcpSession false underlying false [].

Definition tcp_owned (s : TcpTransportSession) : list resource := RSession :: (if tss_underlying s then [RConn] else []).

Definition tcp_Close (closing : option error) (s : TcpTransportSession) : TcpTransportSession * option error :=
  if tss_once s then (s, None)
  else (mkTcpSession true (tss_underlying s) true (tss_released s ++ tcp_owned s), closing).

#[export] Instance tcp_session : TransportSession TcpTransportSession := {|
  ts_IsClosed := tss_closed;
  ts_OpenStream := fun r call s => fst (tcp_OpenStream (tss_closed s) r call);
  ts_AcceptStream := fun r call s => fst (tcp_AcceptStream (tss_closed s) r call);
  ts_SendDatagram := fun _ _ => tcp_SendDatagram [];
  ts_ReceiveDatagram := fun _ _ => tcp_ReceiveDatagram;
  ts_Close := tcp_Close;
  ts_broken := fun s => mkTcpSession true (tss_underlying s) (tss_once s) (tss_released s);
  ts_owned := tcp_owned;
  ts_released := tss_released;
  ts_ok := fun s => if tss_once s then tss_closed s = true else tss_released s = [];
  ts_new := fun s => tss_once s = false /\ tss_released s = [] |}.

(** [QuicTransportSession]: whether the context of the connection is over,
    [closeOnce], and what was closed. *)
Record QuicTransportSession : Type := mkQuicSession { qts_over : bool; qts_once : bool; qts_released : list resource }.

Definition NewQuicTransportSession : QuicTransportSession := mkQuicSession false false [].

Definition quic_Close (closing : option error) (s : QuicTransportSession) : QuicTransportSession * option error :=
  if qts_once s then (s, None) else (mkQuicSession true true (qts_released s ++ [RConn]), closing).

#[export] Instance quic_session : TransportSession QuicTransportSession := {|
  ts_IsClosed := qts_over;
  ts_OpenStream := fun _ call s => quic_call (qts_over s) call;
  ts_AcceptStream := fun _ call s => quic_call (qts_over s) call;
  ts_SendDatagram := fun u s => quic_call (qts_over s) u;
  ts_ReceiveDatagram := fun b s => quic_call (qts_over s) b;
  ts_Close := quic_Close;
  ts_broken := fun s => mkQuicSession true (qts_once s) (qts_released s);
  ts_owned := fun _ => [RConn];
  ts_released := qts_released;
  ts_ok := fun s => if qts_once s then qts_over s = true else qts_released s = [];
  ts_new := fun s => qts_once s = false /\ qts_released s = [] |}.

(** Both keep the promise. *)
#[export] Instance tcp_session_ok : TransportSessionOk TcpTransportSession.
Proof.
  split; cbn; try (intros ? ? s; unfold tcp_OpenStream, tcp_AcceptStream, tcp_stream_call; by intros ->).
  - done.
  - intros e s H. unfold tcp_Close. by destruct (tss_once s) eqn:E; cbn; [rewrite E|].
  - intros e s [H1 H2]. unfold tcp_Close. rewrite H1, H2. cbn. split_and!; [done|done|by intros [? _]].
  - intros e s H Hn. unfold tcp_Close. destruct (tss_once s); [done|]. by destruct Hn.
  - intros s H. by destruct (tss_once s).
  - done.
  - intros s H. destruct (tss_once s); [right; by intros [? _]|by left].
  - intros s [H1 H2]. by rewrite H1.
Qed.

#[export] Instance quic_session_ok : TransportSessionOk QuicTransportSession.
Proof.
  split; cbn; try (intros ? ? s; unfold quic_call; by intros ->).
  - intros e s H. unfold quic_Close. by destruct (qts_once s) eqn:E; cbn; [rewrite E|].
  - intros e s [H1 H2]. unfold quic_Close. rewrite H1, H2. cbn. split_and!; [done|done|by intros [? _]].
  - intros e s H Hn. unfold quic_Close. destruct (qts_once s); [done|]. by destruct Hn.
  - intros s H. by destruct (qts_once s).
  - done.
  - intros s H. destruct (qts_once s); [right; by intros [? _]|by left].
  - intros s [H1 H2]. by rewrite H1.
Qed.

(** * Using a session *)

(** What happens to a session, with the answers of the library, and what its
    user sees of it. *)
Inductive sessionOp : Type :=
  | SOpen (r : race) (call : res nat) | SAccept (r : race) (call : res nat)
  | SSend (u : res unit) | SReceive (b : res bytes) | SClose (e : option error) | SBreak.

Inductive sessionSeen : Type :=
  | SawStream (r : res nat) | SawSent (r : res unit) | SawDatagram (r : res bytes) | SawClosed (e : option error) | SawNothing.

Section Use.
Context {S : Type} {HS : TransportSession S} {HOk : TransportSessionOk S}.

Definition session_step (op : sessionOp) (s : S) : S * sessionSeen :=
  match op with
  | SOpen r call => (s, SawStream (ts_OpenStream r call s))
  | SAccept r call => (s, SawStream (ts_AcceptStream r call s))
  | SSend u => (s, SawSent (ts_SendDatagram u s))
  | SReceive b => (s, SawDatagram (ts_ReceiveDatagram b s))
  | SClose e => let '(s, r) := ts_Close e s in (s, SawClosed r)
  | SBreak => (ts_broken s, SawNothing)
  end.

Fixpoint session_run (ops : list sessionOp) (s : S) : S * list sessionSeen :=
  match ops with
  | [] => (s, [])
  | op :: ops => let '(s, x) := session_step op s in let '(s, xs) := session_run ops s in (s, x :: xs)
  end.

(** What a closed session shows. *)
Definition refused (x : sessionSeen) : Prop :=
  match x with
  | SawStream r => r = Err ErrSessionClosed
  | SawSent r => is_Err r
  | SawDatagram r => is_Err r
  | SawClosed e => e = None
  | SawNothing => True
  end.

Lemma step_owned op s : ts_ok s ->
  ts_new s -> ts_new (fst (session_step op s)) /\ ts_owned (fst (session_step op s)) = ts_owned s \/ exists e, op = SClose e.
Proof.
  intros H Hn. destruct op as [r call|r call|u|b|e|]; cbn; try (by left); [by right; eexists|].
  destruct (broken_same s) as (E1 & _ & E3). left. by rewrite E3.
Qed.

(** After a [Close] nothing changes and everything is refused. *)
Lemma after_close ops s : ts_ok s -> ~ ts_new s -> ts_IsClosed s = true ->
  Forall refused (snd (session_run ops s)) /\ ts_released (fst (session_run ops s)) = ts_released s /\
  ts_IsClosed (fst (session_run ops s)) = true.
Proof.
  revert s. induction ops as [|op ops IH]; intros s H Hn Hc; [by split_and!|]. cbn [session_run].
  assert (ts_ok (fst (session_step op s)) /\ ~ ts_new (fst (session_step op s)) /\ ts_IsClosed (fst (session_step op s)) = true /\
    ts_released (fst (session_step op s)) = ts_released s /\ refused (snd (session_step op s))) as (H1 & H2 & H3 & H4 & H5).
  { destruct op as [r call|r call|u|b|e|]; cbn; try (split_and!; try done; by apply refuses_streams).
    - split_and!; try done. by apply (refuses_datagrams u (Err EOF)).
    - split_and!; try done. by apply (refuses_datagrams (Err EOF) b).
    - by rewrite (close_again e s H Hn).
    - destruct (broken_ok s H), (broken_same s) as (_ & E2 & E3). by rewrite E3. }
  destruct (session_step op s) as [s1 x]. cbn in *. destruct (IH s1 H1 H2 H3) as (I1 & I2 & I3).
  destruct (session_run ops s1) as [s2 xs]. cbn in *. split_and!; [by constructor|congruence|done].
Qed.

Lemma before_close ops s : ts_new s -> (forall e, SClose e ∉ ops) ->
  ts_new (fst (session_run ops s)) /\ ts_owned (fst (session_run ops s)) = ts_owned s.
Proof.
  revert s. induction ops as [|op ops IH]; intros s Hn Hc; [done|]. cbn [session_run].
  destruct (step_owned op s (proj1 (new_ok s Hn)) Hn) as [[H1 H2]|[e ->]]; [|by destruct (Hc e); left].
  destruct (session_step op s) as [s1 x]. cbn in *. destruct (IH s1 H1) as [I1 I2]; [intros e He; destruct (Hc e); by right|].
  destruct (session_run ops s1) as [s2 xs]. cbn in *. split; [done|congruence].
Qed.

(** The first [Close] of a session, whatever its user and the network did before
    and do afterwards: it returns what closing gave, everything the session holds
    is released once, and from then on no call gets a stream or a datagram
    through, nor an error out of [Close]. *)
Theorem session_closed_for_good (before after : list sessionOp) (e : option error) (s s' : S) (seen : list sessionSeen)
    (Hnew : ts_new s) (Hbefore : forall e, SClose e ∉ before)
    (Hrun : session_run (before ++ SClose e :: after) s = (s', seen)) :
  ts_IsClosed s' = true /\ ts_released s' = ts_owned s /\
  seen !! length before = Some (SawClosed e) /\ Forall refused (drop (Datatypes.S (length before)) seen).
Proof.
  assert (forall a b (s : S), session_run (a ++ b) s =
    let '(s1, x1) := session_run a s in let '(s2, x2) := session_run b s1 in (s2, x1 ++ x2)) as Happ.
  { clear. induction a as [|op a IH]; intros b s; cbn [app session_run]; [by destruct (session_run b s)|].
    destruct (session_step op s) as [s1 x]. rewrite IH. destruct (session_run a s1) as [s2 xs]. by destruct (session_run b s2). }
  assert (forall a (s : S), length (snd (session_run a s)) = length a) as Hlen.
  { clear. induction a as [|op a IH]; intros s; [done|]. cbn [session_run]. destruct (session_step op s) as [s1 x].
    specialize (IH s1). destruct (session_run a s1). cbn in *. by rewrite IH. }
  rewrite Happ in Hrun. destruct (before_close before s Hnew Hbefore) as [Hn Ho]. specialize (Hlen before s).
  destruct (session_run before s) as [s1 x1]. cbn [fst snd session_run session_step] in *.
  destruct (close_first e s1 Hn) as (E1 & E2 & E3). destruct (close_ok e s1 (proj1 (new_ok s1 Hn))) as [O1 O2].
  destruct (ts_Close e s1) as [s2 r]. cbn in *. subst r. destruct (after_close after s2 O1 E3 O2) as (A1 & A2 & A3).
  destruct (session_run after s2) as [s3 xs]. cbn in *. injection Hrun as <- <-. rewrite <- Hlen. split_and!; [done|congruence| |].
  - by rewrite lookup_app_r, Nat.sub_diag by done.
  - rewrite drop_app_ge by lia. by replace (Datatypes.S (length x1) - length x1)%nat with 1%nat by lia.
Qed.

End Use.

(** * Streams *)

(** [ID] of a stream: smux numbers are 32 bits wide, QUIC's 62 bits and cut. *)
Definition tcp_ID (id : Z) : Z := id.
Definition quic_ID (id : Z) : Z := wrapU 32 id.

(** The number of the [k]th stream a QUIC client opens (RFC 9000, 2.1). *)
Definition quic_client_stream (k : Z) : Z := 4 * k.

(** The value handed to [wrapV3DataStream], by the first case of the type
    assertions that matches. *)
Inductive anyStream : Type := ATransportStream (id : Z) | ASmuxStream (id : Z) | AOtherStream (id : Z) | ANoStream.

Definition wrapV3DataStream (ch : WSChannel) (stream : anyStream) : res V3CipherStream :=
  match stream with
  | ATransportStream id | ASmuxStream id | AOtherStream id => NewV3CipherStream (ch_v3Keys ch) (ch_v3Cipher ch) id false
  | ANoStream => Err (Errorf "unsupported stream type: %T" [])
  end.

(** The streams of a QUIC connection have numbers of their own up to the first
    [2^30]; the next ones repeat them, and the server and the client then build
    the very same ciphers again, with the same keys and counters from zero. *)
Theorem quic_stream_numbers (ch : WSChannel) (keys : V3SessionKeys) (cipher : byte) (side : bool) :
  (forall j k, 0 <= j < 2 ^ 30 -> 0 <= k < 2 ^ 30 -> quic_ID (quic_client_stream j) = quic_ID (quic_client_stream k) -> j = k) /\
  (forall k, let first := quic_ID (quic_client_stream k) in let again := quic_ID (quic_client_stream (k + 2 ^ 30)) in
     NewV3CipherStream keys cipher again side = NewV3CipherStream keys cipher first side /\
     wrapV3DataStream ch (ATransportStream again) = wrapV3DataStream ch (ATransportStream first)).
Proof.
  unfold quic_ID, quic_client_stream. split.
  - intros j k Hj Hk E. rewrite !wrapU_small in E by lia. lia.
  - intros k. assert (wrapU 32 (4 * (k + 2 ^ 30)) = wrapU 32 (4 * k)) as ->; [|done]. unfold wrapU.
    replace (4 * (k + 2 ^ 30)) with (4 * k + 1 * 2 ^ 32) by lia. by rewrite Z_mod_plus_full.
Qed.

(** A WebSocket session that breaks before it is closed, and a QUIC session. *)
Example closed_sessions :
  let '(s, seen) := session_run [SOpen ResultFirst (Ok 1%nat); SBreak; SOpen ResultFirst (Ok 2%nat); SClose (Some EOF); SClose (Some EOF)]
    (NewTcpTransportSession true) in
  tss_released s = [RSession; RConn] /\
  seen = [SawStream (Ok 1%nat); SawNothing; SawStream (Err ErrSessionClosed); SawClosed (Some EOF); SawClosed None] /\
  snd (session_run [SSend (Ok tt); SClose None; SSend (Ok tt)] NewQuicTransportSession) =
    [SawSent (Ok tt); SawClosed None; SawSent (Err ErrSessionClosed)].
Proof. by vm_compute. Qed.
