(* ===== verification/Pool.v ===== *)
(** The client's pool of channels: [ECHPool] of internal/app/client.go.  Every
    channel has a goroutine that dials, negotiates, serves and reconnects
    ([dialAndServe]) and one that measures its round trips ([probeChannelRTT]).
    The sessions are objects of a heap that the network may close at any moment;
    [perform] executes one action of one goroutine, a critical section or a call
    that ends, and a run is any sequence of actions. *)

From Stdlib Require Import ZArith Lia Strings.Byte.
From stdpp Require Import base numbers list gmap.
From S2P Require Import Prelude GoStrings GoNet NetAddr GoTime Wire WireV3 CipherStream EchDns Rotation Transports StreamOpen.
From S2P Require Config.

Local Open Scope Z_scope.
Local Open Scope go_scope.

(** * Failed handshakes *)

Definition clientAuthHintThreshold : Z := 5.

(** The number in the hint, when there is one. *)
Definition clientAuthFailureHint (consecutiveFailures : Z) : option Z :=
  if (0 <? consecutiveFailures) && (Z.rem consecutiveFailures clientAuthHintThreshold =? 0)
  then Some consecutiveFailures else None.

Definition recordFailure (consecutive : Z) : Z * bool :=
  let consecutive := wrapS 64 (consecutive + 1) in (consecutive, Z.rem consecutive clientAuthHintThreshold =? 0).

Definition recordSuccess (consecutive : Z) : Z := 0.

(** * The pool *)

Definition zeroKeys : V3SessionKeys := mkSessionKeys [] [] [].

(** The settings a pool takes over from the globals. *)
Record poolOptions : Type := mkPoolOptions {
  po_coverTraffic : bool; po_tlsInsecure : bool; po_clientCert : bytes; po_clientKey : bytes;
  po_quicPort : Z; po_enableDatagram : bool;
}.

Record ECHPool : Type := mkECHPool {
  wsServerAddr : bytes;
  connectionNum : Z;
  targetIPs : list bytes;
  clientID : bytes;
  transportSessions : list (option nat);
  smuxConns : list (option nat);
  channelRTT : list Z;
  channelCaps : list Z;
  channelKeys : list V3SessionKeys;
  channelCiphers : list byte;
  selectCounter : Z;
  selector : TransportSelector;
  endpointPool : option EndpointPool;
  options : poolOptions;
}.

Section New.
Context `{U : GoUnicode}.

(** [make] panics for a negative length. *)
Definition NewECHPool (addr : bytes) (n : Z) (ips : list bytes) (clientID transportMode : bytes) (o : poolOptions)
    : res ECHPool :=
  let total := match ips with [] => n | _ => wrapS 64 (len ips * n) end in
  if total <? 0 then Panic else
  let k := Z.to_nat total in
  let mode := ToLower (TrimSpace transportMode) in
  Ok {| wsServerAddr := addr; connectionNum := n; targetIPs := ips; clientID := clientID;
        transportSessions := replicate k None; smuxConns := replicate k None; channelRTT := replicate k 0;
        channelCaps := replicate k 0; channelKeys := replicate k zeroKeys; channelCiphers := replicate k (z2b 0);
        selectCounter := 0;
        selector := NewTransportSelector (if is_empty mode then TransportTypeAuto else mode);
        endpointPool := match ips with [] => None | _ => Some (NewEndpointPool ips 3 (60 * Second)) end;
        options := o |}.

End New.

(** The address [Start] gives to the goroutine of slot [i]. *)
Definition start_ip (p : ECHPool) (i : nat) : bytes :=
  match targetIPs p with
  | [] => []
  | ips => let idx := Z.quot (Z.of_nat i) (connectionNum p) in default [] (ips !! Z.to_nat idx)
  end.

Definition channelV3Security (idx : Z) (p : ECHPool) : res (option (V3SessionKeys * byte)) :=
  if (idx <? 0) || (len (channelKeys p) <=? idx) then Ok None else
  match channelKeys p !! Z.to_nat idx, channelCiphers p !! Z.to_nat idx with
  | Some k, Some c => Ok (Some (k, c))
  | _, _ => Panic
  end.

(** * The slots *)

(** [l[i] = x], which panics out of range. *)
Definition put {A} (i : nat) (x : A) (l : list A) : option (list A) :=
  if (i <? length l)%nat then Some (<[i:=x]> l) else None.

Definition with_slots (p : ECHPool) (ts sm : list (option nat)) (rtt caps : list Z) (keys : list V3SessionKeys)
    (ciphers : list byte) : ECHPool :=
  {| wsServerAddr := wsServerAddr p; connectionNum := connectionNum p; targetIPs := targetIPs p; clientID := clientID p;
     transportSessions := ts; smuxConns := sm; channelRTT := rtt; channelCaps := caps; channelKeys := keys;
     channelCiphers := ciphers; selectCounter := selectCounter p; selector := selector p; endpointPool := endpointPool p;
     options := options p |}.

(** The critical section around a slot: the two session slices are updated when
    they are long enough, the others panic when they are not. *)
Definition set_slot (i : nat) (ts sm : option nat) (rtt caps : Z) (keys : V3SessionKeys) (cipher : byte) (p : ECHPool)
    : option ECHPool :=
  rtt' ← put i rtt (channelRTT p);
  caps' ← put i caps (channelCaps p);
  keys' ← put i keys (channelKeys p);
  ciphers' ← put i cipher (channelCiphers p);
  Some (with_slots p (<[i:=ts]> (transportSessions p)) (<[i:=sm]> (smuxConns p)) rtt' caps' keys' ciphers').

Definition install (i s : nat) (tcp : bool) (caps : Z) (keys : V3SessionKeys) (cipher : byte) : ECHPool -> option ECHPool :=
  set_slot i (Some s) (if tcp then Some s else None) 0 caps keys cipher.

Definition clear (i : nat) : ECHPool -> option ECHPool := set_slot i None None 0 0 zeroKeys (z2b 0).

(** [atomic.StoreInt64(&p.channelRTT[idx], rtt)]. *)
Definition store_rtt (i : nat) (rtt : Z) (p : ECHPool) : option ECHPool :=
  rtt' ← put i rtt (channelRTT p);
  Some (with_slots p (transportSessions p) (smuxConns p) rtt' (channelCaps p) (channelKeys p) (channelCiphers p)).

(** * Endpoints and dialling *)

Definition with_selection (p : ECHPool) (sel : TransportSelector) (ep : option EndpointPool) : ECHPool :=
  {| wsServerAddr := wsServerAddr p; connectionNum := connectionNum p; targetIPs := targetIPs p; clientID := clientID p;
     transportSessions := transportSessions p; smuxConns := smuxConns p; channelRTT := channelRTT p;
     channelCaps := channelCaps p; channelKeys := channelKeys p; channelCiphers := channelCiphers p;
     selectCounter := selectCounter p; selector := sel; endpointPool := ep; options := options p |}.

(** The address of this attempt; [None] is a panic. *)
Definition select_target (ip : bytes) (now : Time) (p : ECHPool) : option (ECHPool * bytes) :=
  match endpointPool p with
  | None => Some (p, ip)
  | Some ep =>
      match SelectNext now ep with
      | (ep, Ok nextIP) => Some (with_selection p (selector p) (Some ep), if is_empty nextIP then ip else nextIP)
      | (ep, Err _) => Some (with_selection p (selector p) (Some ep), ip)
      | (_, Panic) => None
      end
  end.

Definition record_result (targetIP : bytes) (success : bool) (rtt : Z) (now : Time) (p : ECHPool) : ECHPool :=
  match endpointPool p with
  | Some ep => if is_empty targetIP then p
               else with_selection p (selector p) (Some (RecordResult targetIP success rtt now ep))
  | None => p
  end.

Section Dial.
Context `{U : GoUnicode} `{L : GoURL}.

Definition isWSS (addr : bytes) : bool := HasPrefix (ToLower addr) (bs "wss://").

(** Whether the attempt goes through the selector. *)
Definition uses_selector (frontProxy : bool) (p : ECHPool) : bool :=
  isWSS (wsServerAddr p) &&
  (bool_decide (ts_mode (selector p) = TransportTypeAuto) || bool_decide (ts_mode (selector p) = TransportTypeQUIC)) &&
  negb frontProxy.

(** What the selector's transports are called with; an error of
    [buildUnifiedTLSConfig] is dropped and leaves [nil]. *)
Definition selector_options (p : ECHPool) (serverName targetIP : bytes) (built : res TLSConfig) (timeout : Z) : DialOptions :=
  mkDialOptions (match built with Ok c => Some (c, []) | _ => None end) serverName targetIP
    (po_quicPort (options p)) timeout (10 * Second) (30 * Second).

(** The dial of one attempt, given how the dials over WebSocket and QUIC end:
    whether the session is a [TcpTransportSession]. *)
Definition dial (frontProxy : bool) (tcp quic ws : res unit) (timeout : Z) (now failed : Time) (p : ECHPool)
    : ECHPool * res bool :=
  let session tcp (r : res unit) := let! _ := r in Ok tcp in
  if uses_selector frontProxy p then
    let '(sel, _, r) := DialSession (fun _ _ => session true tcp) (fun _ _ => session false quic)
                          (wsServerAddr p) timeout now failed (selector p) in
    (with_selection p sel (endpointPool p), r)
  else (p, session true ws).

End Dial.

(** * Probing a channel *)

Section Probe.
Context `{C : Crypto.Crypto} {W : Type} `{HW : Writer W}.

(** [probeChannelRTTOnce] on an open stream [sid]: the clock is read before the
    stream is opened and after the answer. *)
Definition probe_stream (keys : V3SessionKeys) (cipher : byte) (sid : Z) (start : Time) (startNano : Z) (finish : Time)
    : io (W * bytes) Z :=
  fun '(w, input) =>
    match NewV3CipherStream keys cipher sid true with
    | Ok _ =>
        match writeSmuxOpenHeader (z2b streamKindPing) (z2b 0) [] w with
        | (w, Ok _) =>
            let payload := be_put 8 (wrapU 64 startNano) in
            match writeAll payload w with
            | (w, Ok _) =>
                match ReadFull 8 input with
                | (input, Ok ack) =>
                    ((w, input),
                     if bool_decide (ack = payload)
                     then let rtt := Sub finish start in Ok (if rtt <=? 0 then 1 else rtt)
                     else Err (Errorf "ping ack mismatch" []))
                | (input, Err e) => ((w, input), Err e)
                | (input, Panic) => ((w, input), Panic)
                end
            | (w, Err e) => ((w, input), Err e)
            | (w, Panic) => ((w, input), Panic)
            end
        | (w, Err e) => ((w, input), Err e)
        | (w, Panic) => ((w, input), Panic)
        end
    | Err e => ((w, input), Err e)
    | Panic => ((w, input), Panic)
    end.

End Probe.

(** * The goroutines *)

(** A transport session: its kind, whether it is closed, and what the negotiation
    on it agreed on. *)
Record chanSession : Type := mkChanSession {
  s_tcp : bool; s_closed : bool; s_agreed : option (Z * V3SessionKeys * byte);
}.

(** [probeChannelRTT]: before a probe, within one, after a failed one, waiting
    for the ticker, and after sending on [done]. *)
Inductive prober : Type := ProbeStart | ProbeInFlight | ProbeFailed | ProbeWait | ProbeExited.

(** [dialAndServe]: where the goroutine is in its loop. *)
Inductive phase : Type :=
  | Head
  | Dialling (targetIP : bytes) (start : Time)
  | Negotiating (targetIP : bytes) (start : Time) (s : nat)
  | Agreed (targetIP : bytes) (start : Time) (s : nat) (caps : Z) (keys : V3SessionKeys) (cipher : byte)
  | FirstProbing (targetIP : bytes) (start : Time) (s : nat)
  | Serving (s : nat) (pr : prober)
  | Stopping (s : nat) (pr : prober)
  | Closing (s : nat)
  | Clearing (s : nat)
  | Cleared
  | Sleeping (delay : Z)
  | Returned.

Record worker : Type := mkWorker { wk_ip : bytes; wk_phase : phase; wk_attempt : Z; wk_fails : Z }.

(** The counters of the client, as the status shows them. *)
Record clientCounters : Type := mkClientCounters {
  clientReconnectSeq : Z; clientProtocolOKSeq : Z; clientProtocolFailureSeq : Z; clientRTTProbeFailureSeq : Z;
}.

Record world : Type := mkWorld {
  w_pool : ECHPool;
  w_heap : gmap nat chanSession;
  w_workers : list worker;
  w_cancelled : bool;
  w_counters : clientCounters;
}.

(** [Start]: one goroutine per slot. *)
Definition Start (p : ECHPool) : world :=
  mkWorld p ∅ (imap (fun i _ => mkWorker (start_ip p i) Head 0 0) (smuxConns p)) false (mkClientCounters 0 0 0 0).

(** What the goroutines run with: the timeouts, the front proxy and the random
    source of the delays. *)
Record poolEnv : Type := mkPoolEnv {
  pe_cfg : Config.GlobalConfig; pe_frontProxy : bool; pe_draw : Z -> option Z; pe_handshakeTimeout : Z; pe_probeTimeout : Z;
}.

Inductive action : Type :=
  | ACancel
  | APeerClose (s : nat)
  | AHead (i : nat) (now : Time)
  | ADial (i : nat) (tcp quic ws : res unit) (now failed recorded : Time)
  | ANegotiate (i : nat) (r : res (Z * V3SessionKeys * byte)) (now : Time)
  | AInstall (i : nat)
  | AFirstProbe (i : nat) (r : res Z) (now : Time)
  | AProbeOpen (i : nat)
  | AProbeEnd (i : nat) (r : res Z)
  | AProbeCheck (i : nat)
  | ATick (i : nat)
  | ACtxDone (i : nat)
  | AProbeDone (i : nat)
  | AClose (i : nat)
  | AClear (i : nat)
  | AAgain (i : nat)
  | AWake (i : nat) (fired : bool).

(** An action that is not possible now, a panic, or the next state. *)
Inductive outcome : Type := Stuck | Crash | Next (w : world).

Definition close_session (s : nat) (h : gmap nat chanSession) : gmap nat chanSession :=
  alter (fun x => mkChanSession (s_tcp x) true (s_agreed x)) s h.

Definition is_closed (s : nat) (h : gmap nat chanSession) : bool :=
  match h !! s with Some x => s_closed x | None => true end.

Definition set_agreed (s : nat) (r : Z * V3SessionKeys * byte) (h : gmap nat chanSession) : gmap nat chanSession :=
  alter (fun x => mkChanSession (s_tcp x) (s_closed x) (Some r)) s h.

Definition add64 (z : Z) : Z := wrapU 64 (z + 1).

Definition count_reconnect (c : clientCounters) : clientCounters :=
  mkClientCounters (add64 (clientReconnectSeq c)) (clientProtocolOKSeq c) (clientProtocolFailureSeq c) (clientRTTProbeFailureSeq c).
Definition count_ok (c : clientCounters) : clientCounters :=
  mkClientCounters (clientReconnectSeq c) (add64 (clientProtocolOKSeq c)) (clientProtocolFailureSeq c) (clientRTTProbeFailureSeq c).
Definition count_failure (c : clientCounters) : clientCounters :=
  mkClientCounters (clientReconnectSeq c) (clientProtocolOKSeq c) (add64 (clientProtocolFailureSeq c)) (clientRTTProbeFailureSeq c).
Definition count_probe_failure (c : clientCounters) : clientCounters :=
  mkClientCounters (clientReconnectSeq c) (clientProtocolOKSeq c) (clientProtocolFailureSeq c) (add64 (clientRTTProbeFailureSeq c)).

Section Run.
Context `{U : GoUnicode} `{L : GoURL} (env : poolEnv).

(** The worker of slot [i] moves on, with what else changes. *)
Definition move (i : nat) (wk : worker) (p : ECHPool) (h : gmap nat chanSession) (c : clientCounters) (w : world) : outcome :=
  Next (mkWorld p h (<[i:=wk]> (w_workers w)) (w_cancelled w) c).

Definition at_phase (wk : worker) (ph : phase) : worker := mkWorker (wk_ip wk) ph (wk_attempt wk) (wk_fails wk).

(** [sleepBeforeReconnect], up to the sleep. *)
Definition go_to_sleep (i : nat) (wk : worker) (p : ECHPool) (h : gmap nat chanSession) (c : clientCounters) (w : world) : outcome :=
  let delay := Config.reconnectDelay (pe_cfg env) (pe_draw env) (wk_attempt wk) in
  move i (mkWorker (wk_ip wk) (Sleeping delay) (wrapS 64 (wk_attempt wk + 1)) (wk_fails wk)) p h (count_reconnect c) w.

(** A failed probe of the prober: counted, and the channel gets the worst RTT. *)
Definition probe_failure (i : nat) (wk : worker) (with_prober : prober -> phase) (w : world) : outcome :=
  match store_rtt i (pe_probeTimeout env) (w_pool w) with
  | Some p => move i (at_phase wk (with_prober ProbeFailed)) p (w_heap w) (count_probe_failure (w_counters w)) w
  | None => Crash
  end.

(** The steps of the prober of channel [i] on session [s]. *)
Definition perform_prober (i : nat) (wk : worker) (s : nat) (pr : prober) (with_prober : prober -> phase) (a : action)
    (w : world) : outcome :=
  let stay pr := move i (at_phase wk (with_prober pr)) (w_pool w) (w_heap w) (w_counters w) w in
  match a, pr with
  | AProbeOpen _, ProbeStart => if is_closed s (w_heap w) then probe_failure i wk with_prober w else stay ProbeInFlight
  | AProbeEnd _ (Ok rtt), ProbeInFlight =>
      match store_rtt i rtt (w_pool w) with
      | Some p => move i (at_phase wk (with_prober ProbeWait)) p (w_heap w) (w_counters w) w
      | None => Crash
      end
  | AProbeEnd _ (Err _), ProbeInFlight => probe_failure i wk with_prober w
  | AProbeCheck _, ProbeFailed => stay (if is_closed s (w_heap w) then ProbeExited else ProbeWait)
  | ATick _, ProbeWait => stay ProbeStart
  | _, _ => Stuck
  end.

(** The steps of [dialAndServe] on channel [i].  [sleepWithContext] ends by its
    timer or by the context; without a delay it looks at the context only. *)
Definition perform_worker (i : nat) (wk : worker) (a : action) (w : world) : outcome :=
  let p := w_pool w in let h := w_heap w in let c := w_counters w in
  match a, wk_phase wk with
  | AHead _ now, Head =>
      if w_cancelled w then move i (at_phase wk Returned) p h c w else
      match select_target (wk_ip wk) now p with
      | Some (p, targetIP) => move i (at_phase wk (Dialling targetIP now)) p h c w
      | None => Crash
      end
  | ADial _ tcp quic ws now failed recorded, Dialling targetIP start =>
      match dial (pe_frontProxy env) tcp quic ws (pe_handshakeTimeout env) now failed p with
      | (p, Ok tcp) =>
          let s := fresh (dom h) in
          move i (at_phase wk (Negotiating targetIP start s)) p (<[s := mkChanSession tcp false None]> h) c w
      | (p, Err _) => go_to_sleep i wk (record_result targetIP false 0 recorded p) h c w
      | (_, Panic) => Stuck
      end
  | ANegotiate _ r now, Negotiating targetIP start s =>
      match r with
      | Ok (caps, keys, cipher) =>
          move i (mkWorker (wk_ip wk) (Agreed targetIP start s caps keys cipher) (wk_attempt wk) (recordSuccess (wk_fails wk)))
            p (set_agreed s (caps, keys, cipher) h) (count_ok c) w
      | Err _ =>
          let wk := mkWorker (wk_ip wk) (wk_phase wk) (wk_attempt wk) (fst (recordFailure (wk_fails wk))) in
          go_to_sleep i wk (record_result targetIP false 0 now p) (close_session s h) (count_failure c) w
      | Panic => Stuck
      end
  | AInstall _, Agreed targetIP start s caps keys cipher =>
      match install i s (match h !! s with Some x => s_tcp x | None => false end) caps keys cipher p with
      | Some p => move i (mkWorker (wk_ip wk) (FirstProbing targetIP start s) 0 (wk_fails wk)) p h c w
      | None => Crash
      end
  | AFirstProbe _ r now, FirstProbing targetIP start s =>
      let serve p c := move i (at_phase wk (Serving s ProbeStart)) p h c w in
      match r with
      | Ok rtt =>
          match store_rtt i rtt p with
          | Some p => serve (record_result targetIP true rtt now p) c
          | None => Crash
          end
      | Err _ => serve (record_result targetIP true (Sub now start) now p) (count_probe_failure c)
      | Panic => Stuck
      end
  | ACtxDone _, Serving s pr =>
      if w_cancelled w then move i (at_phase wk (Stopping s pr)) p (close_session s h) c w else Stuck
  | AProbeDone _, (Serving s ProbeExited | Stopping s ProbeExited) => move i (at_phase wk (Closing s)) p h c w
  | AClose _, Closing s => move i (at_phase wk (Clearing s)) p (close_session s h) c w
  | AClear _, Clearing s =>
      match clear i p with
      | Some p => move i (at_phase wk Cleared) p h c w
      | None => Crash
      end
  | AAgain _, Cleared => if w_cancelled w then move i (at_phase wk Returned) p h c w else go_to_sleep i wk p h c w
  | AWake _ true, Sleeping delay =>
      if (delay <=? 0) && w_cancelled w then Stuck else move i (at_phase wk Head) p h c w
  | AWake _ false, Sleeping _ => if w_cancelled w then move i (at_phase wk Returned) p h c w else Stuck
  | _, Serving s pr => perform_prober i wk s pr (Serving s) a w
  | _, Stopping s pr => perform_prober i wk s pr (Stopping s) a w
  | _, _ => Stuck
  end.

(** The channel an action belongs to. *)
Definition channel_of (a : action) : option nat :=
  match a with
  | ACancel | APeerClose _ => None
  | AHead i _ | ADial i _ _ _ _ _ _ | ANegotiate i _ _ | AInstall i | AFirstProbe i _ _ | AProbeOpen i | AProbeEnd i _
  | AProbeCheck i | ATick i | ACtxDone i | AProbeDone i | AClose i | AClear i | AAgain i | AWake i _ => Some i
  end.

Definition perform (a : action) (w : world) : outcome :=
  match a with
  | ACancel => Next (mkWorld (w_pool w) (w_heap w) (w_workers w) true (w_counters w))
  | APeerClose s => Next (mkWorld (w_pool w) (close_session s (w_heap w)) (w_workers w) (w_cancelled w) (w_counters w))
  | _ =>
      match channel_of a with
      | Some i => match w_workers w !! i with Some wk => perform_worker i wk a w | None => Stuck end
      | None => Stuck
      end
  end.

Fixpoint run (acts : list action) (w : world) : outcome :=
  match acts with
  | [] => Next w
  | a :: acts => match perform a w with Next w => run acts w | o => o end
  end.

End Run.

(** * Opening a stream *)

(** Whether the session in slot [i] is open, as [openBestStream] and the status
    look at it: the transport session first, then the smux session. *)
Definition slot_session (i : nat) (p : ECHPool) : option nat :=
  match transportSessions p !! i with
  | Some (Some s) => Some s
  | _ => match smuxConns p !! i with Some (Some s) => Some s | _ => None end
  end.

Definition slot_view (w : world) (i : nat) : poolSlot :=
  mkSlot (match slot_session i (w_pool w) with Some s => negb (is_closed s (w_heap w)) | None => false end)
    (default 0 (channelRTT (w_pool w) !! i)).

Definition totalSlots (p : ECHPool) : nat :=
  if (length (transportSessions p) <? length (smuxConns p))%nat then length (smuxConns p) else length (transportSessions p).

(** The part of [openBestStream] under the read lock: the session of the chosen
    slot with its capabilities, keys and cipher. *)
Record picked : Type := mkPicked { pk_slot : nat; pk_session : option nat; pk_caps : Z; pk_keys : V3SessionKeys; pk_cipher : byte }.

Definition pick_channel (probeTimeout : Z) (w : world) : world * res picked :=
  let p := w_pool w in
  let '(counter, r) := choose_channel (map (slot_view w) (seq 0 (totalSlots p))) probeTimeout (selectCounter p) in
  let p' := {| wsServerAddr := wsServerAddr p; connectionNum := connectionNum p; targetIPs := targetIPs p;
               clientID := clientID p; transportSessions := transportSessions p; smuxConns := smuxConns p;
               channelRTT := channelRTT p; channelCaps := channelCaps p; channelKeys := channelKeys p;
               channelCiphers := channelCiphers p; selectCounter := counter; selector := selector p;
               endpointPool := endpointPool p; options := options p |} in
  (mkWorld p' (w_heap w) (w_workers w) (w_cancelled w) (w_counters w),
   let! i := r in
   Ok (mkPicked i (slot_session i p) (default 0 (channelCaps p !! i)) (default zeroKeys (channelKeys p !! i))
         (default (z2b 0) (channelCiphers p !! i)))).

(** What follows the lock: [opened] is how [sess.OpenStream] ends.  The result is
    the stream, the channel's number, its capabilities, keys and cipher. *)
Definition open_picked (pk : picked) (opened : res nat) (w : world) : res (nat * nat * Z * V3SessionKeys * byte) :=
  match pk_session pk with
  | Some s =>
      if is_closed s (w_heap w) then Err (Errorf "通道不可用" []) else
      let! st := opened in Ok (st, S (pk_slot pk), pk_caps pk, pk_keys pk, pk_cipher pk)
  | None => Err (Errorf "通道不可用" [])
  end.

(** * Lemmas on slots *)

(** The six entries of a slot. *)
Definition chan_slot (p : ECHPool) (i : nat) :=
  (transportSessions p !! i, smuxConns p !! i, channelRTT p !! i, channelCaps p !! i, channelKeys p !! i, channelCiphers p !! i).

Definition sized (n : nat) (p : ECHPool) : Prop :=
  length (transportSessions p) = n /\ length (smuxConns p) = n /\ length (channelRTT p) = n /\
  length (channelCaps p) = n /\ length (channelKeys p) = n /\ length (channelCiphers p) = n.

(** The entries of a channel, and of a slot without one. *)
Definition filled (p : ECHPool) (i s : nat) (tcp : bool) (agreed : Z * V3SessionKeys * byte) : Prop :=
  exists rtt, chan_slot p i = (Some (Some s), Some (if tcp then Some s else None), Some rtt, Some agreed.1.1, Some agreed.1.2, Some agreed.2).

Definition wiped (p : ECHPool) (i : nat) : Prop :=
  chan_slot p i = (Some None, Some None, Some 0, Some 0, Some zeroKeys, Some (z2b 0)).

Lemma set_slot_ok n i ts sm rtt caps keys cipher p : sized n p -> (i < n)%nat ->
  exists p', set_slot i ts sm rtt caps keys cipher p = Some p' /\ sized n p' /\
    chan_slot p' i = (Some ts, Some sm, Some rtt, Some caps, Some keys, Some cipher) /\
    (forall j, j <> i -> chan_slot p' j = chan_slot p j) /\ endpointPool p' = endpointPool p.
Proof.
  intros (H1 & H2 & H3 & H4 & H5 & H6) Hi. unfold set_slot, put.
  rewrite H3, H4, H5, H6. replace (i <? n)%nat with true by (symmetry; by apply Nat.ltb_lt). cbn.
  eexists. split; [reflexivity|]. split; [by split_and!; cbn; rewrite length_insert|]. unfold chan_slot. cbn. split_and!; [|intros j Hj|done].
  - by rewrite !list_lookup_insert_eq by lia.
  - by rewrite !list_lookup_insert_ne by done.
Qed.

Lemma store_rtt_ok n i rtt p : sized n p -> (i < n)%nat ->
  exists p', store_rtt i rtt p = Some p' /\ sized n p' /\ (forall j, j <> i -> chan_slot p' j = chan_slot p j) /\
    (forall s tcp a, filled p i s tcp a -> filled p' i s tcp a) /\ endpointPool p' = endpointPool p.
Proof.
  intros (H1 & H2 & H3 & H4 & H5 & H6) Hi. unfold store_rtt, put. rewrite H3.
  replace (i <? n)%nat with true by (symmetry; by apply Nat.ltb_lt). cbn.
  eexists. split; [reflexivity|]. split; [by split_and!; cbn; rewrite ?length_insert|].
  unfold filled, chan_slot. cbn. split_and!; [intros j Hj; by rewrite !list_lookup_insert_ne by done| |done].
  intros s tcp a [r Hr]. exists rtt. rewrite list_lookup_insert_eq by lia. injection Hr as E1 E2 _ E4 E5 E6.
  by rewrite E1, E2, E4, E5, E6.
Qed.

Lemma SelectNext_ok now ep : index_ok_pool ep ->
  index_ok_pool (fst (SelectNext now ep)) /\ snd (SelectNext now ep) <> Panic.
Proof.
  intros Hi. rewrite SelectNext_spec by done. destruct (endpoints ep) as [|e l] eqn:El; [done|]. rewrite <- El.
  destruct (find _ _) as [off|] eqn:Hf.
  - pose proof (at_turn_lt ep off Hi ltac:(by rewrite El)) as Hlt.
    destruct (endpoints ep !! at_turn ep off) as [x|] eqn:Hx; [|apply lookup_ge_None in Hx; lia].
    split; [|done]. unfold index_ok_pool, chosen. cbn [fst currentIndex endpoints].
    assert (0 < len (endpoints ep)) by (rewrite El; solve_len).
    pose proof (Z.rem_bound_pos (Z.of_nat (at_turn ep off) + 1) (len (endpoints ep)) ltac:(lia) ltac:(lia)).
    unfold len in *. rewrite length_insert. lia.
  - split; [done|]. cbn. by destruct (foldl earlier None (endpoints ep)).
Qed.

Lemma update_first_length addr f l : length (update_first addr f l) = length l.
Proof. induction l as [|e l IH]; cbn; [done|]. destruct (bool_decide _); cbn; by rewrite ?IH. Qed.

Definition endpoints_ok (p : ECHPool) : Prop := match endpointPool p with Some ep => index_ok_pool ep | None => True end.

(** The operations that touch neither the slots nor their sizes. *)
Definition same_slots (p p' : ECHPool) : Prop := (forall i, chan_slot p' i = chan_slot p i) /\ forall n, sized n p -> sized n p'.

Lemma same_slots_selection p sel ep : same_slots p (with_selection p sel ep).
Proof. by split. Qed.

Lemma record_result_ok ip ok rtt now p : endpoints_ok p ->
  endpoints_ok (record_result ip ok rtt now p) /\ same_slots p (record_result ip ok rtt now p).
Proof.
  unfold record_result, endpoints_ok. destruct (endpointPool p) as [ep|] eqn:E; [|by rewrite E].
  destruct (is_empty ip); [by rewrite E|]. cbn. intros Hi. split; [|apply same_slots_selection].
  unfold index_ok_pool, RecordResult, len in *. cbn. by rewrite update_first_length.
Qed.

Lemma select_target_ok ip now p : endpoints_ok p ->
  exists p' t, select_target ip now p = Some (p', t) /\ endpoints_ok p' /\ same_slots p p'.
Proof.
  unfold select_target. intros H. destruct (endpointPool p) as [ep|] eqn:E; [|by exists p, ip].
  unfold endpoints_ok in H. rewrite E in H. pose proof (SelectNext_ok now ep H) as [H1 H2].
  destruct (SelectNext now ep) as [ep' [nip|e|]]; [| |done]; eexists _, _; (split; [reflexivity|]); by split.
Qed.

Lemma dial_ok `{U : GoUnicode} `{L : GoURL} fp tcp quic ws t now failed p : endpoints_ok p ->
  endpoints_ok (fst (dial fp tcp quic ws t now failed p)) /\ same_slots p (fst (dial fp tcp quic ws t now failed p)).
Proof.
  intros H. unfold dial. destruct (uses_selector fp p); [|done].
  destruct (DialSession _ _ _ _ _ _ _) as [[sel calls] r]. by split.
Qed.

(** * The invariant *)

Definition owner (ph : phase) : option nat :=
  match ph with
  | Negotiating _ _ s | Agreed _ _ s _ _ _ | FirstProbing _ _ s | Serving s _ | Stopping s _ | Closing s | Clearing s => Some s
  | _ => None
  end.

(** Slot [i] holds session [s] with what was agreed on it. *)
Definition serving (h : gmap nat chanSession) (p : ECHPool) (i s : nat) : Prop :=
  exists x a, h !! s = Some x /\ s_agreed x = Some a /\ filled p i s (s_tcp x) a.

Definition channel_ok (h : gmap nat chanSession) (p : ECHPool) (i : nat) (ph : phase) : Prop :=
  match ph with
  | Head | Dialling _ _ | Cleared | Sleeping _ | Returned => wiped p i
  | Negotiating _ _ s => wiped p i /\ exists x, h !! s = Some x /\ s_agreed x = None
  | Agreed _ _ s caps keys cipher => wiped p i /\ exists x, h !! s = Some x /\ s_agreed x = Some (caps, keys, cipher)
  | FirstProbing _ _ s | Serving s _ | Closing s => serving h p i s
  | Stopping s _ | Clearing s => serving h p i s /\ is_closed s h = true
  end.

Record pool_inv (n : nat) (w : world) : Prop := {
  inv_size : sized n (w_pool w);
  inv_workers : length (w_workers w) = n;
  inv_channels : forall i wk, w_workers w !! i = Some wk -> channel_ok (w_heap w) (w_pool w) i (wk_phase wk);
  inv_owned : forall s x, w_heap w !! s = Some x -> s_closed x = false ->
    exists i wk, w_workers w !! i = Some wk /\ owner (wk_phase wk) = Some s;
  inv_distinct : forall i j wi wj s, w_workers w !! i = Some wi -> w_workers w !! j = Some wj ->
    owner (wk_phase wi) = Some s -> owner (wk_phase wj) = Some s -> i = j;
  inv_endpoints : endpoints_ok (w_pool w);
}.

(** The heap moves on: sessions keep their kind and stay closed, and what was
    agreed on a session changes only by its owner [o]. *)
Definition heap_grows (o : option nat) (h h' : gmap nat chanSession) : Prop :=
  forall s x, h !! s = Some x -> exists x', h' !! s = Some x' /\ s_tcp x' = s_tcp x /\
    (s_closed x = true -> s_closed x' = true) /\ (o <> Some s -> s_agreed x' = s_agreed x).

Lemma heap_grows_refl o h : heap_grows o h h.
Proof. intros s x Hx. by exists x. Qed.

Lemma heap_grows_close o s h : heap_grows o h (close_session s h).
Proof.
  intros s' x Hx. unfold close_session. destruct (decide (s = s')) as [->|Hne].
  - rewrite lookup_alter, Hx, decide_True by done. cbn. eexists. by split_and!.
  - rewrite lookup_alter_ne by done. by exists x.
Qed.

Lemma is_closed_grows o h h' s : heap_grows o h h' -> is_Some (h !! s) -> is_closed s h = true -> is_closed s h' = true.
Proof.
  intros Hg [x Hx]. unfold is_closed. rewrite Hx. intros Hc. destruct (Hg s x Hx) as (x' & -> & _ & H & _). auto.
Qed.

Lemma channel_ok_other o h h' p p' i ph :
  heap_grows o h h' -> chan_slot p' i = chan_slot p i -> (forall s, owner ph = Some s -> o <> Some s) ->
  channel_ok h p i ph -> channel_ok h' p' i ph.
Proof.
  intros Hg Hs Ho.
  assert (wiped p i -> wiped p' i) as Hw by (unfold wiped; by rewrite Hs).
  assert (forall s, owner ph = Some s -> serving h p i s -> serving h' p' i s) as Hsv.
  { intros s Hos (x & a & Hx & Ha & Hf). destruct (Hg s x Hx) as (x' & Hx' & Ht & _ & Hag). exists x', a.
    rewrite Hag by auto. split_and!; [done|done|]. unfold filled in *. by rewrite Ht, Hs. }
  assert (forall s, serving h p i s -> is_Some (h !! s)) as Hin by (intros s (x & _ & Hx & _); eauto).
  destruct ph; cbn [channel_ok owner] in *; intros H; try (by auto).
  - destruct H as [H1 (x & Hx & Ha)]. destruct (Hg s x Hx) as (x' & Hx' & _ & _ & Hag). split; [auto|]. exists x'.
    rewrite Hag by auto. done.
  - destruct H as [H1 (x & Hx & Ha)]. destruct (Hg s x Hx) as (x' & Hx' & _ & _ & Hag). split; [auto|]. exists x'.
    rewrite Hag by auto. done.
  - destruct H as [H1 H2]. split; [auto|]. eapply is_closed_grows; eauto.
  - destruct H as [H1 H2]. split; [auto|]. eapply is_closed_grows; eauto.
Qed.

(** The worker of channel [i] moves on. *)
Lemma inv_move n i wk wk' p' h' c w : pool_inv n w -> w_workers w !! i = Some wk ->
  sized n p' -> endpoints_ok p' -> (forall j, j <> i -> chan_slot p' j = chan_slot (w_pool w) j) ->
  heap_grows (owner (wk_phase wk)) (w_heap w) h' -> channel_ok h' p' i (wk_phase wk') ->
  (forall s x', h' !! s = Some x' -> s_closed x' = false -> owner (wk_phase wk') = Some s \/
     (owner (wk_phase wk) <> Some s /\ exists x, w_heap w !! s = Some x /\ s_closed x = false)) ->
  (forall s, owner (wk_phase wk') = Some s -> owner (wk_phase wk) = Some s \/ w_heap w !! s = None) ->
  pool_inv n (mkWorld p' h' (<[i:=wk']> (w_workers w)) (w_cancelled w) c).
Proof.
  intros Hinv Hi Hsz Hep Hslot Hg Hch Hopen Hown. pose proof (lookup_lt_Some _ _ _ Hi) as Hlt.
  assert (forall j wj s, w_workers w !! j = Some wj -> owner (wk_phase wj) = Some s -> is_Some (w_heap w !! s)) as Hin.
  { intros j wj s Hj Ho. pose proof (inv_channels _ _ Hinv j wj Hj) as Hc.
    destruct (wk_phase wj); cbn [owner channel_ok] in *; simplify_eq;
      repeat match goal with H : _ /\ _ |- _ => destruct H | H : serving _ _ _ _ |- _ => destruct H as (? & ? & ? & _)
        | H : exists _, _ |- _ => destruct H end; eauto. }
  split; cbn [w_pool w_heap w_workers]; [done|by rewrite length_insert, (inv_workers _ _ Hinv)| | | |done].
  - intros j wj. destruct (decide (i = j)) as [<-|Hne].
    + rewrite list_lookup_insert_eq by done. by intros [= <-].
    + rewrite list_lookup_insert_ne by done. intros Hj. eapply channel_ok_other; [done|by apply Hslot| |by apply (inv_channels _ _ Hinv)].
      intros s Ho Ho'. apply Hne. by eapply (inv_distinct _ _ Hinv).
  - intros s x Hx Hc. destruct (Hopen s x Hx Hc) as [Ho|[Hno (x0 & Hx0 & Hc0)]].
    + exists i, wk'. by rewrite list_lookup_insert_eq by done.
    + destruct (inv_owned _ _ Hinv s x0 Hx0 Hc0) as (j & wj & Hj & Ho). exists j, wj.
      rewrite list_lookup_insert_ne; [done|]. intros ->. simplify_eq.
  - intros j k wj wk0 s. destruct (decide (i = j)) as [<-|Hj], (decide (i = k)) as [<-|Hk];
      rewrite ?list_lookup_insert_eq, ?list_lookup_insert_ne by done; try done.
    + intros [= <-] H2 H3 H4. destruct (Hown s H3) as [Ho|Hn]; [by eapply (inv_distinct _ _ Hinv)|].
      destruct (Hin _ _ _ H2 H4). congruence.
    + intros H1 [= <-] H3 H4. destruct (Hown s H4) as [Ho|Hn]; [by eapply (inv_distinct _ _ Hinv)|].
      destruct (Hin _ _ _ H1 H3). congruence.
    + intros H1 H2 H3 H4. by eapply (inv_distinct _ _ Hinv).
Qed.

(** The same heap and the same session. *)
Lemma inv_keep n i wk wk' p' c w : pool_inv n w -> w_workers w !! i = Some wk ->
  sized n p' -> endpoints_ok p' -> (forall j, j <> i -> chan_slot p' j = chan_slot (w_pool w) j) ->
  owner (wk_phase wk') = owner (wk_phase wk) -> channel_ok (w_heap w) p' i (wk_phase wk') ->
  pool_inv n (mkWorld p' (w_heap w) (<[i:=wk']> (w_workers w)) (w_cancelled w) c).
Proof.
  intros Hinv Hi Hsz Hep Hs Ho Hc. eapply (inv_move n i wk wk'); eauto using heap_grows_refl.
  - intros s x Hx Hx'. destruct (decide (owner (wk_phase wk) = Some s)); [left; congruence|right; eauto].
  - rewrite Ho. auto.
Qed.

(** The session is closed, and perhaps given up. *)
Lemma inv_close n i s wk wk' p' c w : pool_inv n w -> w_workers w !! i = Some wk ->
  sized n p' -> endpoints_ok p' -> (forall j, j <> i -> chan_slot p' j = chan_slot (w_pool w) j) ->
  owner (wk_phase wk) = Some s -> (owner (wk_phase wk') = Some s \/ owner (wk_phase wk') = None) ->
  channel_ok (close_session s (w_heap w)) p' i (wk_phase wk') ->
  pool_inv n (mkWorld p' (close_session s (w_heap w)) (<[i:=wk']> (w_workers w)) (w_cancelled w) c).
Proof.
  intros Hinv Hi Hsz Hep Hs Ho Ho' Hc. eapply (inv_move n i wk wk'); eauto using heap_grows_close.
  - intros s' x. unfold close_session. destruct (decide (s = s')) as [->|Hne].
    + rewrite lookup_alter, decide_True by done. destruct (w_heap w !! s'); cbn; [|done]. by intros [= <-].
    + rewrite lookup_alter_ne by done. intros Hx Hxc. right. split; [congruence|eauto].
  - intros s' E. left. destruct Ho'; congruence.
Qed.

Lemma is_closed_close s h : is_closed s (close_session s h) = true.
Proof. unfold is_closed, close_session. rewrite lookup_alter, decide_True by done. by destruct (h !! s). Qed.

Lemma serving_close h p i s s' : serving h p i s -> serving (close_session s' h) p i s.
Proof.
  intros (x & a & Hx & Ha & Hf). destruct (heap_grows_close None s' h s x Hx) as (x' & Hx' & Ht & _ & Hag).
  exists x', a. rewrite Hag by done. split_and!; [done|done|by rewrite Ht].
Qed.

Lemma serving_rtt n h p i s rtt : sized n p -> (i < n)%nat -> serving h p i s ->
  exists p', store_rtt i rtt p = Some p' /\ sized n p' /\ (forall j, j <> i -> chan_slot p' j = chan_slot p j) /\
    serving h p' i s /\ endpointPool p' = endpointPool p.
Proof.
  intros Hsz Hi (x & a & Hx & Ha & Hf). destruct (store_rtt_ok n i rtt p Hsz Hi) as (p' & H1 & H2 & H3 & H4 & H5).
  exists p'. split_and!; try done. exists x, a. auto.
Qed.

(** A call keeps the invariant and does not panic. *)
Definition keeps (n : nat) (o : outcome) : Prop :=
  match o with Stuck => True | Crash => False | Next w => pool_inv n w end.

Section Keeps.
Context `{U : GoUnicode} `{L : GoURL} (env : poolEnv).

Lemma slots_other p p' i : same_slots p p' -> forall j : nat, j <> i -> chan_slot p' j = chan_slot p j.
Proof. intros [H _] j _. apply H. Qed.

Lemma wiped_same p p' i : same_slots p p' -> wiped p i -> wiped p' i.
Proof. intros [H _]. unfold wiped. by rewrite H. Qed.

Lemma keeps_prober n i wk s pr (f : prober -> phase) a w : pool_inv n w -> w_workers w !! i = Some wk ->
  wk_phase wk = f pr -> f = Serving s \/ f = Stopping s -> keeps n (perform_prober env i wk s pr f a w).
Proof.
  intros Hinv Hi Hph Hf. pose proof (inv_channels _ _ Hinv i wk Hi) as Hc. pose proof (lookup_lt_Some _ _ _ Hi) as Hlt.
  rewrite (inv_workers _ _ Hinv) in Hlt. rewrite Hph in Hc.
  assert (serving (w_heap w) (w_pool w) i s) as Hs by (destruct Hf as [-> | ->]; [exact Hc|exact (proj1 Hc)]).
  assert (forall pr', owner (f pr') = owner (wk_phase wk)) as Ho by (intros; rewrite Hph; by destruct Hf as [-> | ->]).
  assert (forall p' pr', serving (w_heap w) p' i s -> channel_ok (w_heap w) p' i (f pr')) as Hok.
  { intros p' pr' Hs'. destruct Hf as [-> | ->]; [exact Hs'|exact (conj Hs' (proj2 Hc))]. }
  assert (forall pr', keeps n (move i (at_phase wk (f pr')) (w_pool w) (w_heap w) (w_counters w) w)) as Hstay.
  { intros pr'. apply (inv_keep n i wk); try done; [apply Hinv|apply Hinv|apply Ho|by apply Hok]. }
  assert (forall rtt c pr', keeps n (match store_rtt i rtt (w_pool w) with
            | Some p => move i (at_phase wk (f pr')) p (w_heap w) c w | None => Crash end)) as Hstore.
  { intros rtt c pr'. destruct (serving_rtt n _ _ _ _ rtt (inv_size _ _ Hinv) Hlt Hs) as (p' & -> & Hsz & Hsl & Hs' & He).
    apply (inv_keep n i wk); try done; [unfold endpoints_ok; rewrite He; apply Hinv|apply Ho|by apply Hok]. }
  unfold perform_prober, probe_failure.
  destruct a; try done; destruct pr; try done; try (by apply Hstay); try (by destruct r; first [apply Hstore|done]).
  destruct (is_closed _ _); [apply Hstore|apply Hstay].
Qed.

(** A dial that succeeded: the session is new. *)
Lemma keeps_dialled n i wk tip st b p' c w : pool_inv n w -> w_workers w !! i = Some wk -> owner (wk_phase wk) = None ->
  sized n p' -> endpoints_ok p' -> (forall j, j <> i -> chan_slot p' j = chan_slot (w_pool w) j) -> wiped p' i ->
  let s := fresh (dom (w_heap w)) in
  keeps n (move i (at_phase wk (Negotiating tip st s)) p' (<[s := mkChanSession b false None]> (w_heap w)) c w).
Proof.
  intros Hinv Hi Ho Hsz He Hsl Hw s.
  assert (w_heap w !! s = None) as Hs by (apply not_elem_of_dom, is_fresh).
  eapply (inv_move n i wk); eauto; cbn [at_phase wk_phase owner].
  - intros s' x Hx. exists x. rewrite lookup_insert_ne by congruence. done.
  - split; [done|]. eexists. rewrite lookup_insert, decide_True by done. done.
  - intros s' x'. destruct (decide (s = s')) as [->|Hne]; [by left|]. rewrite lookup_insert_ne by done. intros Hx Hc. right.
    split; [congruence|eauto].
  - intros s' [= <-]. by right.
Qed.

Lemma keeps_agreed n i wk tip st s caps keys cipher x w : pool_inv n w -> w_workers w !! i = Some wk ->
  wk_phase wk = Negotiating tip st s -> wiped (w_pool w) i -> w_heap w !! s = Some x ->
  forall a f c, keeps n (move i (mkWorker (wk_ip wk) (Agreed tip st s caps keys cipher) a f) (w_pool w)
                           (set_agreed s (caps, keys, cipher) (w_heap w)) c w).
Proof.
  intros Hinv Hi Hph Hw Hx a f c. unfold set_agreed. eapply (inv_move n i wk); eauto; try apply Hinv; cbn [wk_phase owner]; rewrite ?Hph; cbn [owner].
  - intros s' y Hy. destruct (decide (s = s')) as [->|Hne].
    + rewrite lookup_alter, decide_True, Hy by done. cbn. eexists. split_and!; try done.
    + rewrite lookup_alter_ne by done. by exists y.
  - split; [done|]. rewrite lookup_alter, decide_True, Hx by done. cbn. by eexists.
  - intros s' y. destruct (decide (s = s')) as [->|Hne]; [by left|]. rewrite lookup_alter_ne by done. intros Hy Hc. right.
    split; [congruence|eauto].
  - auto.
Qed.

(** A slot that was wiped: its session is closed already. *)
Lemma keeps_cleared n i wk s p' c w : pool_inv n w -> w_workers w !! i = Some wk -> owner (wk_phase wk) = Some s ->
  sized n p' -> endpoints_ok p' -> (forall j, j <> i -> chan_slot p' j = chan_slot (w_pool w) j) -> wiped p' i ->
  is_closed s (w_heap w) = true -> keeps n (move i (at_phase wk Cleared) p' (w_heap w) c w).
Proof.
  intros Hinv Hi Ho Hsz He Hsl Hw Hc. eapply (inv_move n i wk); eauto using heap_grows_refl; [|done].
  intros s' x Hx Hxc. right. split; [|eauto]. rewrite Ho. intros [= <-]. unfold is_closed in Hc. rewrite Hx in Hc. congruence.
Qed.

(** The slot is filled with what the handshake gave. *)
Lemma keeps_installing n i ip tip st s caps keys cipher att fails a w : pool_inv n w ->
  w_workers w !! i = Some (mkWorker ip (Agreed tip st s caps keys cipher) att fails) ->
  keeps n (perform_worker env i (mkWorker ip (Agreed tip st s caps keys cipher) att fails) a w).
Proof.
  intros Hinv Hi. pose proof (inv_channels _ _ Hinv i _ Hi) as Hc. pose proof (lookup_lt_Some _ _ _ Hi) as Hlt.
  rewrite (inv_workers _ _ Hinv) in Hlt. pose proof (inv_size _ _ Hinv) as Hsz. pose proof (inv_endpoints _ _ Hinv) as Hep.
  cbn [wk_phase] in Hc. unfold perform_worker. cbn [wk_phase wk_ip wk_attempt wk_fails].
  destruct a; try done; [|by case_match]. destruct Hc as [Hw (x & Hx & Ha)]. rewrite Hx. unfold install.
  destruct (set_slot_ok n i (Some s) (if s_tcp x then Some s else None) 0 caps keys cipher _ Hsz Hlt)
    as (p' & -> & Hsz' & Hsi & Hso & He).
  apply (inv_keep n i _ _ _ _ _ Hinv Hi); try done; [unfold endpoints_ok; by rewrite He|].
  exists x, (caps, keys, cipher). split_and!; [done|done|]. by exists 0.
Qed.

(** The first probe of a channel. *)
Lemma keeps_first_probe n i ip tip st s att fails a w : pool_inv n w ->
  w_workers w !! i = Some (mkWorker ip (FirstProbing tip st s) att fails) ->
  keeps n (perform_worker env i (mkWorker ip (FirstProbing tip st s) att fails) a w).
Proof.
  intros Hinv Hi. pose proof (inv_channels _ _ Hinv i _ Hi) as Hc. pose proof (lookup_lt_Some _ _ _ Hi) as Hlt.
  rewrite (inv_workers _ _ Hinv) in Hlt. pose proof (inv_size _ _ Hinv) as Hsz. pose proof (inv_endpoints _ _ Hinv) as Hep.
  cbn [wk_phase] in Hc. unfold perform_worker. cbn [wk_phase wk_ip wk_attempt wk_fails].
  destruct a as [| | | | | |j r now| | | | | | | | | |]; try done; [|by case_match]. destruct r as [rtt|e|]; [| |done].
  - destruct (serving_rtt n _ _ _ _ rtt Hsz Hlt Hc) as (p' & -> & Hsz' & Hso & Hs & He).
    assert (endpoints_ok p') as Hep' by (unfold endpoints_ok; by rewrite He).
    destruct (record_result_ok tip true rtt now p' Hep') as [He2 Hs2].
    apply (inv_keep n i _ _ _ _ _ Hinv Hi); try done; [by apply Hs2| |].
    + intros k Hk. rewrite (proj1 Hs2). by apply Hso.
    + destruct Hs as (x & a & Hx & Ha & Hf). exists x, a. split_and!; [done|done|]. unfold filled in *. by rewrite (proj1 Hs2).
  - destruct (record_result_ok tip true (Sub now st) now (w_pool w) Hep) as [He2 Hs2]. apply (inv_keep n i _ _ _ _ _ Hinv Hi); try done; [by apply Hs2|by apply slots_other|].
    eapply channel_ok_other; [apply (heap_grows_refl None)|by apply Hs2|done|done].
Qed.

Lemma keeps_worker n i wk a w : pool_inv n w -> w_workers w !! i = Some wk -> keeps n (perform_worker env i wk a w).
Proof.
  intros Hinv Hi. pose proof (inv_channels _ _ Hinv i wk Hi) as Hc. pose proof (lookup_lt_Some _ _ _ Hi) as Hlt.
  rewrite (inv_workers _ _ Hinv) in Hlt. pose proof (inv_size _ _ Hinv) as Hsz. pose proof (inv_endpoints _ _ Hinv) as Hep.
  (* the pool may change outside the slots, the session is kept *)
  assert (forall wk' p' c, same_slots (w_pool w) p' -> endpoints_ok p' -> owner (wk_phase wk') = owner (wk_phase wk) ->
            channel_ok (w_heap w) (w_pool w) i (wk_phase wk') -> keeps n (move i wk' p' (w_heap w) c w)) as Hkeep.
  { intros wk' p' c Hs He Ho Hc'. apply (inv_keep n i wk); try done; [by apply Hs|by apply slots_other|].
    eapply channel_ok_other; [apply (heap_grows_refl None)|by apply Hs|done|done]. }
  assert (same_slots (w_pool w) (w_pool w)) as Hrefl by done.
  destruct wk as [ip ph att fails]. cbn [wk_phase] in *. unfold perform_worker. cbn [wk_phase wk_ip wk_attempt wk_fails].
  destruct ph as [|tip st|tip st s|tip st s caps keys cipher|tip st s|s pr|s pr|s|s| |d|].
  - destruct a; try done; [|by case_match]. destruct (w_cancelled w); [by apply Hkeep|].
    destruct (select_target_ok ip now (w_pool w) Hep) as (p' & t & -> & He & Hs). by apply Hkeep.
  - destruct a; try done; [|by case_match].
    destruct (dial_ok (pe_frontProxy env) tcp quic ws (pe_handshakeTimeout env) now failed (w_pool w) Hep) as [He Hs].
    destruct (dial _ _ _ _ _ _ _ _) as [p' [b|e|]]; cbn [fst] in *; [| |done].
    + apply (keeps_dialled n i _ tip st b); try done; [by apply Hs|by apply slots_other|by eapply wiped_same].
    + destruct (record_result_ok tip false 0 recorded p' He) as [He' Hs'].
      unfold go_to_sleep. apply Hkeep; try done. destruct Hs, Hs'. split; [congruence|eauto].
  - destruct a as [| | | |j r now| | | | | | | | | | | |]; try done; [|by case_match].
    destruct Hc as [Hw (x & Hx & Hnone)]. destruct r as [[[caps keys] cipher]|e|]; [| |done].
    + exact (keeps_agreed n i _ tip st s caps keys cipher x w Hinv Hi eq_refl Hw Hx _ _ _).
    + destruct (record_result_ok tip false 0 now (w_pool w) Hep) as [He Hs].
      apply (inv_close n i s _ _ _ _ _ Hinv Hi); [by apply Hs|done|by apply slots_other|done|by right|by eapply wiped_same].
  - by eapply keeps_installing.
  - by eapply keeps_first_probe.
  - pose proof (fun a' => keeps_prober n i _ s pr (Serving s) a' w Hinv Hi eq_refl (or_introl eq_refl)) as Hp.
    destruct a; try apply Hp; [|destruct pr; try apply Hp; by apply Hkeep|by case_match; apply Hp].
    destruct (w_cancelled w); [|done].
    apply (inv_close n i s _ _ _ _ _ Hinv Hi); [done|done|done|done|by left|]. split; [by apply serving_close|apply is_closed_close].
  - pose proof (fun a' => keeps_prober n i _ s pr (Stopping s) a' w Hinv Hi eq_refl (or_intror eq_refl)) as Hp.
    destruct a; try apply Hp; [destruct pr; try apply Hp; apply Hkeep; try done; apply Hc|by case_match; apply Hp].
  - destruct a; try done; [|by case_match].
    apply (inv_close n i s _ _ _ _ _ Hinv Hi); [done|done|done|done|by left|]. split; [by apply serving_close|apply is_closed_close].
  - destruct a; try done; [|by case_match]. destruct Hc as [Hs Hcl]. unfold clear.
    destruct (set_slot_ok n i None None 0 0 zeroKeys (z2b 0) _ Hsz Hlt) as (p' & -> & Hsz' & Hsi & Hso & He).
    apply (keeps_cleared n i _ s p' _ w Hinv Hi); try done. unfold endpoints_ok; by rewrite He.
  - destruct a; try done; [|by case_match]. destruct (w_cancelled w); [by apply Hkeep|]. unfold go_to_sleep. by apply Hkeep.
  - destruct a as [| | | | | | | | | | | | | | | |j fired]; try done. destruct fired.
    + destruct (_ && _); [done|]. by apply Hkeep.
    + destruct (w_cancelled w); [|done]. by apply Hkeep.
  - destruct a; try done. by case_match.
Qed.

End Keeps.

(** * What the pool promises *)

Section Promises.
Context `{U : GoUnicode} `{L : GoURL} (env : poolEnv).

Lemma keeps_perform n a w : pool_inv n w -> keeps n (perform env a w).
Proof.
  intros Hinv.
  assert (forall i, keeps n (match w_workers w !! i with Some wk => perform_worker env i wk a w | None => Stuck end)) as Hw.
  { intros i. destruct (w_workers w !! i) as [wk|] eqn:Hi; [by apply keeps_worker|done]. }
  destruct a; try apply Hw.
  - by destruct Hinv.
  - destruct Hinv as [H1 H2 H3 H4 H5 H6]. split; cbn [w_pool w_heap w_workers w_cancelled]; try done.
    + intros i wk Hi. eapply channel_ok_other; [apply (heap_grows_close None)|done|done|by apply H3].
    + intros s' x. unfold close_session. destruct (decide (s = s')) as [->|Hne].
      * rewrite lookup_alter, decide_True by done. destruct (w_heap w !! s'); cbn; [|done]. by intros [= <-].
      * rewrite lookup_alter_ne by done. apply H4.
Qed.

Lemma keeps_run n acts : forall w, pool_inv n w -> keeps n (run env acts w).
Proof.
  induction acts as [|a acts IH]; intros w Hw; cbn [run]; [done|].
  pose proof (keeps_perform n a w Hw) as Ha. destruct (perform env a w); try done. by apply IH.
Qed.

Lemma Start_inv addr n ips cid mode o p : NewECHPool addr n ips cid mode o = Ok p ->
  pool_inv (length (smuxConns p)) (Start p).
Proof.
  unfold NewECHPool. destruct (_ <? 0); [done|]. intros [= <-]. cbn [smuxConns]. rewrite length_replicate.
  set (k := Z.to_nat _). split; cbn [Start w_pool w_heap w_workers smuxConns].
  - split_and!; apply length_replicate.
  - by rewrite length_imap, length_replicate.
  - intros i wk Hi. rewrite list_lookup_imap in Hi. apply fmap_Some in Hi as (x & Hx & ->). cbn.
    apply lookup_replicate in Hx as [_ Hlt]. unfold wiped, chan_slot. cbn. by rewrite !lookup_replicate_2.
  - intros s x. by rewrite lookup_empty.
  - intros i j wi wj s Hi _ Ho. rewrite list_lookup_imap in Hi. apply fmap_Some in Hi as (x & _ & ->). done.
  - unfold endpoints_ok. cbn [endpointPool]. destruct ips; [done|]. unfold index_ok_pool, NewEndpointPool. cbn [currentIndex]. lia.
Qed.

(** C11: the slots of the pool are exact, whatever the goroutines, the probes and
    the network do.  In every state that can be reached no further action
    panics; a slot with a session holds the capabilities, keys and cipher that
    were negotiated on that very session, and its goroutine is serving it; a
    slot without one holds no keys and no measurement; and every session that
    is still open belongs to exactly one goroutine that has not returned, so
    none is leaked. *)
Theorem pool_channels_sound (addr : bytes) (n : Z) (ips : list bytes) (cid mode : bytes) (o : poolOptions) (p : ECHPool)
    (acts : list action) (w : world)
    (Hnew : NewECHPool addr n ips cid mode o = Ok p) (Hrun : run env acts (Start p) = Next w) :
  (forall a, perform env a w <> Crash) /\
  (forall i ts, transportSessions (w_pool w) !! i = Some ts ->
     match ts with
     | Some s => exists x caps keys cipher wk, w_heap w !! s = Some x /\ s_agreed x = Some (caps, keys, cipher) /\
         channelCaps (w_pool w) !! i = Some caps /\ channelKeys (w_pool w) !! i = Some keys /\
         channelCiphers (w_pool w) !! i = Some cipher /\ w_workers w !! i = Some wk /\ owner (wk_phase wk) = Some s
     | None => smuxConns (w_pool w) !! i = Some None /\ channelRTT (w_pool w) !! i = Some 0 /\
         channelCaps (w_pool w) !! i = Some 0 /\ channelKeys (w_pool w) !! i = Some zeroKeys /\
         channelCiphers (w_pool w) !! i = Some (z2b 0)
     end) /\
  (forall s x, w_heap w !! s = Some x -> s_closed x = false ->
     exists! i, exists wk, w_workers w !! i = Some wk /\ owner (wk_phase wk) = Some s).
Proof.
  pose proof (keeps_run _ acts (Start p) (Start_inv _ _ _ _ _ _ _ Hnew)) as Hinv. rewrite Hrun in Hinv. cbn [keeps] in Hinv.
  split_and!.
  - intros a Ha. pose proof (keeps_perform _ a w Hinv) as Hk. by rewrite Ha in Hk.
  - intros i ts Hts. pose proof (lookup_lt_Some _ _ _ Hts) as Hlt. pose proof (inv_size _ _ Hinv) as Hsz.
    rewrite (proj1 Hsz), <- (inv_workers _ _ Hinv) in Hlt. apply lookup_lt_is_Some in Hlt as [wk Hwk].
    pose proof (inv_channels _ _ Hinv i wk Hwk) as Hc.
    assert (wiped (w_pool w) i \/ exists s, serving (w_heap w) (w_pool w) i s /\ owner (wk_phase wk) = Some s) as [Hw|(s & Hs & Ho)].
    { destruct (wk_phase wk); cbn [channel_ok owner] in *; try (by left); try (left; by apply Hc); right; eexists;
        (split; [first [exact Hc|apply Hc]|reflexivity]). }
    + unfold wiped, chan_slot in Hw. injection Hw as E1 E2 E3 E4 E5 E6. rewrite Hts in E1. by simplify_eq.
    + destruct Hs as (x & [[caps keys] cipher] & Hx & Ha & rtt & Hf). unfold chan_slot in Hf. injection Hf as E1 E2 E3 E4 E5 E6.
      rewrite Hts in E1. simplify_eq. by exists x, caps, keys, cipher, wk.
  - intros s x Hx Hc. destruct (inv_owned _ _ Hinv s x Hx Hc) as (i & wk & Hi & Ho). exists i. split; [eauto|].
    intros j (wj & Hj & Hoj). by eapply (inv_distinct _ _ Hinv).
Qed.

(** What was agreed on a session stays. *)
Definition agreed_stays (h h' : gmap nat chanSession) : Prop :=
  forall s x a, h !! s = Some x -> s_agreed x = Some a -> exists x', h' !! s = Some x' /\ s_agreed x' = Some a.

Definition outcome_stays (h : gmap nat chanSession) (o : outcome) : Prop :=
  match o with Next w => agreed_stays h (w_heap w) | _ => True end.

Lemma agreed_stays_grows h h' : heap_grows None h h' -> agreed_stays h h'.
Proof. intros Hg s x a Hx Ha. destruct (Hg s x Hx) as (x' & Hx' & _ & _ & Hag). exists x'. by rewrite Hag. Qed.

Lemma stays_move i wk p h h' c w : agreed_stays h h' -> outcome_stays h (move i wk p h' c w).
Proof. done. Qed.

Lemma stays_refl h : agreed_stays h h.
Proof. apply agreed_stays_grows, heap_grows_refl. Qed.

Lemma stays_close s h : agreed_stays h (close_session s h).
Proof. apply agreed_stays_grows, heap_grows_close. Qed.

Lemma stays_fresh h x : agreed_stays h (<[fresh (dom h) := x]> h).
Proof.
  intros s y a Hy Ha. exists y. rewrite lookup_insert_ne; [done|]. intros <-.
  apply elem_of_dom_2 in Hy. by apply is_fresh in Hy.
Qed.

Lemma stays_agreed h s r x : h !! s = Some x -> s_agreed x = None -> agreed_stays h (set_agreed s r h).
Proof.
  intros Hx Hn s' y a Hy Ha. unfold set_agreed. destruct (decide (s = s')) as [->|Hne]; [congruence|].
  rewrite lookup_alter_ne by done. eauto.
Qed.

Lemma stays_perform n a w : pool_inv n w -> outcome_stays (w_heap w) (perform env a w).
Proof.
  intros Hinv. pose proof stays_refl as Hr. pose proof stays_close as Hcl.
  assert (forall i wk s pr f, outcome_stays (w_heap w) (perform_prober env i wk s pr f a w)) as Hp.
  { intros. unfold perform_prober, probe_failure, move. repeat case_match; cbn [outcome_stays w_heap]; done || apply Hr. }
  assert (forall i, outcome_stays (w_heap w)
            (match w_workers w !! i with Some wk => perform_worker env i wk a w | None => Stuck end)) as Hw.
  { intros i. destruct (w_workers w !! i) as [wk|] eqn:Hi; [|done].
    pose proof (inv_channels _ _ Hinv i wk Hi) as Hc. unfold perform_worker, go_to_sleep, move.
    destruct a, (wk_phase wk); try done; try apply Hp; cbn [channel_ok] in Hc;
      repeat case_match; cbn [outcome_stays w_heap]; try done; try apply Hp; try apply Hr; try apply Hcl; try apply stays_fresh.
    destruct Hc as [_ (x & Hx & Hn)]. by eapply stays_agreed. }
  destruct a; try apply Hw; cbn; [apply Hr|apply Hcl].
Qed.

Lemma stays_run n acts : forall w, pool_inv n w -> outcome_stays (w_heap w) (run env acts w).
Proof.
  induction acts as [|a acts IH]; intros w Hw; cbn [run]; [apply stays_refl|].
  pose proof (keeps_perform n a w Hw) as Ha. pose proof (stays_perform n a w Hw) as Hs.
  destruct (perform env a w) as [| |w1]; try done. specialize (IH w1 Ha).
  destruct (run env acts w1) as [| |w2]; try done. intros s x b Hx Hb.
  destruct (Hs s x b Hx Hb) as (x1 & Hx1 & Hb1). by eapply IH.
Qed.

Lemma pick_inv n probe w : pool_inv n w -> pool_inv n (fst (pick_channel probe w)).
Proof.
  intros [H1 H2 H3 H4 H5 H6]. unfold pick_channel. destruct (choose_channel _ _ _) as [k r]. by split.
Qed.

(** The session of a slot is the one its goroutine serves. *)
Lemma slot_session_serving n w i s : pool_inv n w -> slot_session i (w_pool w) = Some s ->
  (i < n)%nat /\ serving (w_heap w) (w_pool w) i s.
Proof.
  intros Hinv Hs. pose proof (inv_size _ _ Hinv) as Hsz.
  assert (i < n)%nat as Hlt.
  { destruct (decide (i < n)%nat) as [|Hge]; [done|]. unfold slot_session in Hs.
    rewrite (proj2 (lookup_ge_None (transportSessions (w_pool w)) i)) in Hs by (rewrite (proj1 Hsz); lia).
    rewrite (proj2 (lookup_ge_None (smuxConns (w_pool w)) i)) in Hs by (rewrite (proj1 (proj2 Hsz)); lia). done. }
  split; [done|]. rewrite <- (inv_workers _ _ Hinv) in Hlt. apply lookup_lt_is_Some in Hlt as [wk Hwk].
  pose proof (inv_channels _ _ Hinv i wk Hwk) as Hc.
  assert (wiped (w_pool w) i -> False) as Hnw.
  { intros Hw. unfold wiped, chan_slot in Hw. injection Hw as E1 E2 _ _ _ _. unfold slot_session in Hs. by rewrite E1, E2 in Hs. }
  assert (forall s', serving (w_heap w) (w_pool w) i s' -> s' = s) as Heq.
  { intros s' (x & a & _ & _ & rtt & Hf). unfold chan_slot in Hf. injection Hf as E1 E2 _ _ _ _. unfold slot_session in Hs.
    rewrite E1 in Hs. congruence. }
  destruct (wk_phase wk); cbn [channel_ok] in Hc; try (by destruct Hnw); try (destruct Hc; by destruct Hnw).
  all: first [pose proof (Heq _ Hc)|pose proof (Heq _ (proj1 Hc)); destruct Hc as [Hc _]]; by subst.
Qed.

(** The round trip a slot competes with. *)
Definition slot_rtt (w : world) (i : nat) : Z := effective_rtt (pe_probeTimeout env) (slot_view w i).

(** A stream runs under the keys of its own session.  From every reachable
    state, [openBestStream] fails only if no slot has an open session, and
    otherwise picks an open one whose round trip is within ten milliseconds of
    the best; whatever happens between the choice and the opening of the
    stream (the channel may be closed, wiped and reconnected), a stream it
    returns belongs to a session that is open then, and the capabilities, keys
    and cipher it returns are the ones negotiated on that session. *)
Theorem pool_stream_bound (addr : bytes) (n : Z) (ips : list bytes) (cid mode : bytes) (o : poolOptions) (p : ECHPool)
    (acts : list action) (w : world)
    (Hnew : NewECHPool addr n ips cid mode o = Ok p) (Hrun : run env acts (Start p) = Next w)
    (Hcounter : 0 <= selectCounter (w_pool w) < 2 ^ 63) :
  match snd (pick_channel (pe_probeTimeout env) w) with
  | Ok pk => exists s, pk_session pk = Some s /\ is_closed s (w_heap w) = false /\
      (forall j s', slot_session j (w_pool w) = Some s' -> is_closed s' (w_heap w) = false ->
         slot_rtt w (pk_slot pk) <= slot_rtt w j + tieWindow) /\
      (forall later w' opened st ch caps keys cipher,
         run env later (fst (pick_channel (pe_probeTimeout env) w)) = Next w' ->
         open_picked pk opened w' = Ok (st, ch, caps, keys, cipher) ->
         ch = S (pk_slot pk) /\
         exists x, w_heap w' !! s = Some x /\ s_closed x = false /\ s_agreed x = Some (caps, keys, cipher))
  | Err _ => forall j s, slot_session j (w_pool w) = Some s -> is_closed s (w_heap w) = true
  | Panic => False
  end.
Proof.
  pose proof (keeps_run _ acts (Start p) (Start_inv _ _ _ _ _ _ _ Hnew)) as Hinv. rewrite Hrun in Hinv. cbn [keeps] in Hinv.
  set (k := length (smuxConns p)) in *. pose proof (pick_inv k (pe_probeTimeout env) w Hinv) as Hinv'.
  assert (totalSlots (w_pool w) = k) as Hk.
  { unfold totalSlots. pose proof (inv_size _ _ Hinv) as (-> & -> & _). by rewrite Nat.ltb_irrefl. }
  pose proof (channel_choice (map (slot_view w) (seq 0 k)) (pe_probeTimeout env) (selectCounter (w_pool w)) Hcounter) as Hchoice.
  assert (forall j, (j < k)%nat -> map (slot_view w) (seq 0 k) !! j = Some (slot_view w j)) as Hview.
  { intros j Hj. change (map ?f ?l) with (f <$> l). rewrite list_lookup_fmap, lookup_seq_lt by done. done. }
  assert (w_heap (fst (pick_channel (pe_probeTimeout env) w)) = w_heap w) as Hheap.
  { clear Hchoice. unfold pick_channel. by destruct (choose_channel _ _ _). }
  revert Hinv' Hheap. unfold pick_channel. rewrite Hk. destruct (choose_channel _ _ _) as [k' [i|e|]]; cbn [fst snd res_bind]; [| |done].
  - intros Hinv' Hheap. destruct Hchoice as [_ (v & Hv & Hopen & Hbest)].
    change (map ?f ?l) with (f <$> l) in Hv. rewrite list_lookup_fmap in Hv. apply fmap_Some in Hv as (i' & Hi' & ->).
    apply lookup_seq in Hi' as [-> Hlt]. cbn [Nat.add] in *.
    unfold slot_view in Hopen. cbn [sl_open] in Hopen. cbn [pk_session pk_slot].
    destruct (slot_session i (w_pool w)) as [s|] eqn:Hs; [|done]. exists s.
    destruct (slot_session_serving k w i s Hinv Hs) as (_ & x & a & Hx & Ha & rtt & Hf).
    unfold chan_slot in Hf. injection Hf as _ _ _ E4 E5 E6.
    split; [done|]. split; [by apply negb_true_iff|]. split.
    + intros j s' Hj Hc. destruct (slot_session_serving k w j s' Hinv Hj) as [Hjk _].
      apply (Hbest j); [by apply Hview|]. unfold slot_view. cbn [sl_open]. by rewrite Hj, Hc.
    + intros later w' opened st ch caps keys cipher Hlater Hop.
      pose proof (stays_run k later _ Hinv') as Hst. rewrite Hlater in Hst.
      destruct (Hst s x a Hx Ha) as (x' & Hx' & Ha'). unfold open_picked in Hop. cbn [pk_session pk_slot pk_caps pk_keys pk_cipher] in Hop.
      unfold is_closed in Hop. rewrite Hx' in Hop. destruct (s_closed x') eqn:Hc; [done|]. rewrite E4, E5, E6 in Hop.
      destruct opened; cbn in Hop; simplify_eq. split; [done|]. exists x'. by destruct a as [[? ?] ?].
  - intros _ _ j s Hj. destruct (slot_session_serving k w j s Hinv Hj) as [Hjk _]. destruct Hchoice as [_ Hnone].
    specialize (Hnone j _ (Hview j Hjk)). unfold slot_view in Hnone. cbn [sl_open] in Hnone. rewrite Hj in Hnone.
    by apply negb_false_iff.
Qed.

(** How far a goroutine is from returning once the context is cancelled. *)
Definition prober_weight (pr : prober) : nat :=
  match pr with ProbeInFlight => 4 | ProbeWait => 3 | ProbeStart => 2 | ProbeFailed => 1 | ProbeExited => 0 end.

Definition weight (ph : phase) : nat :=
  match ph with
  | Returned => 0 | Head => 1 | Sleeping _ => 2 | Cleared => 3 | Clearing _ => 4 | Closing _ => 5
  | Stopping _ pr => 6 + prober_weight pr
  | Serving _ _ => 11 | FirstProbing _ _ _ => 12 | Agreed _ _ _ _ _ _ => 13 | Negotiating _ _ _ => 14 | Dialling _ _ => 15
  end.

Definition total_weight (w : world) : nat := sum_list (map (fun wk => weight (wk_phase wk)) (w_workers w)).

(** The goroutine of a channel comes closer to returning, or its prober goes on
    probing while its [select] could see the context. *)
Definition advances (ph ph' : phase) : Prop :=
  (weight ph' < weight ph)%nat \/ exists s pr pr', ph = Serving s pr /\ ph' = Serving s pr'.

Definition stepped (i : nat) (w : world) (ph : phase) (o : outcome) : Prop :=
  match o with
  | Next w' => w_cancelled w' = true /\ exists wk', w_workers w' = <[i:=wk']> (w_workers w) /\ advances ph (wk_phase wk')
  | _ => True
  end.

Lemma stepped_move i wk' p h c w ph : w_cancelled w = true -> advances ph (wk_phase wk') -> stepped i w ph (move i wk' p h c w).
Proof. intros Hc Ha. split; [done|]. by exists wk'. Qed.

Lemma stepped_prober n i wk s pr (f : prober -> phase) a w : pool_inv n w -> w_workers w !! i = Some wk -> w_cancelled w = true ->
  wk_phase wk = f pr -> f = Serving s \/ f = Stopping s -> stepped i w (f pr) (perform_prober env i wk s pr f a w).
Proof.
  intros Hinv Hi Hc Hph Hf. pose proof (inv_channels _ _ Hinv i wk Hi) as Hok. rewrite Hph in Hok.
  assert (forall pr', (prober_weight pr' < prober_weight pr)%nat \/ f = Serving s -> advances (f pr) (f pr')) as Hadv.
  { intros pr' [H|H]; [destruct Hf as [-> | ->]; [right; eauto 10|left; cbn; lia]|subst; right; eauto 10]. }
  assert (forall rtt c pr', (prober_weight pr' < prober_weight pr)%nat \/ f = Serving s ->
            stepped i w (f pr) (match store_rtt i rtt (w_pool w) with
              | Some p => move i (at_phase wk (f pr')) p (w_heap w) c w | None => Crash end)) as Hstore.
  { intros. destruct (store_rtt _ _ _); [|done]. apply stepped_move; [done|]. by apply Hadv. }
  assert (f = Serving s \/ is_closed s (w_heap w) = true) as Hcl by (destruct Hf as [-> | ->]; [by left|right; apply Hok]).
  unfold perform_prober, probe_failure.
  destruct a; try done; destruct pr; try done; try (by destruct r; first [apply Hstore; left; cbn; lia|done]).
  - destruct (is_closed s (w_heap w)); [apply Hstore; left; cbn; lia|].
    apply stepped_move; [done|]. apply Hadv. destruct Hcl; [by right|done].
  - apply stepped_move; [done|]. apply Hadv. destruct (is_closed s (w_heap w)); [left; cbn; lia|destruct Hcl; [by right|done]].
  - apply stepped_move; [done|]. apply Hadv. left. cbn. lia.
Qed.

Lemma stepped_worker n i wk a w : pool_inv n w -> w_workers w !! i = Some wk -> w_cancelled w = true ->
  stepped i w (wk_phase wk) (perform_worker env i wk a w).
Proof.
  intros Hinv Hi Hc.
  assert (forall s pr, wk_phase wk = Serving s pr -> stepped i w (Serving s pr) (perform_prober env i wk s pr (Serving s) a w)) as Hp1.
  { intros s pr E. by eapply stepped_prober; eauto. }
  assert (forall s pr, wk_phase wk = Stopping s pr -> stepped i w (Stopping s pr) (perform_prober env i wk s pr (Stopping s) a w)) as Hp2.
  { intros s pr E. by eapply stepped_prober; eauto. }
  unfold perform_worker, go_to_sleep. rewrite Hc.
  destruct a, (wk_phase wk) eqn:E; try done; try (by apply Hp1); try (by apply Hp2);
    repeat (done || (apply stepped_move; [exact Hc|left; cbn; try destruct pr; cbn; lia]) || (by apply Hp1) || (by apply Hp2) || case_match).
Qed.

Lemma stepped_perform n a i w wk : pool_inv n w -> w_cancelled w = true -> channel_of a = Some i -> w_workers w !! i = Some wk ->
  stepped i w (wk_phase wk) (perform env a w).
Proof.
  intros Hinv Hc Ha Hi. destruct a; cbn in Ha; simplify_eq; cbn [perform channel_of]; rewrite Hi; by eapply stepped_worker.
Qed.

(** A dial that fails on every transport. *)
Lemma dial_fails fp t now failed p e : exists p' e', dial fp (Err e) (Err e) (Err e) t now failed p = (p', Err e').
Proof.
  unfold dial. destruct (uses_selector fp p); [|by eexists _, _].
  unfold DialSession, dialAuto. repeat case_match; simplify_eq/=; by eexists _, _.
Qed.

(** The action that takes a goroutine on when everything it waits for ends. *)
Definition next_action (i : nat) (ph : phase) : action :=
  match ph with
  | Head => AHead i zeroTime
  | Dialling _ _ => ADial i (Err EOF) (Err EOF) (Err EOF) zeroTime zeroTime zeroTime
  | Negotiating _ _ _ => ANegotiate i (Err EOF) zeroTime
  | Agreed _ _ _ _ _ _ => AInstall i
  | FirstProbing _ _ _ => AFirstProbe i (Err EOF) zeroTime
  | Serving _ _ => ACtxDone i
  | Stopping _ pr =>
      match pr with
      | ProbeStart => AProbeOpen i | ProbeInFlight => AProbeEnd i (Err EOF) | ProbeFailed => AProbeCheck i
      | ProbeWait => ATick i | ProbeExited => AProbeDone i
      end
  | Closing _ => AClose i
  | Clearing _ => AClear i
  | Cleared => AAgain i
  | Sleeping _ | Returned => AWake i false
  end.

Lemma next_action_possible n i w wk : pool_inv n w -> w_cancelled w = true -> w_workers w !! i = Some wk -> wk_phase wk <> Returned ->
  exists w' wk', perform env (next_action i (wk_phase wk)) w = Next w' /\ w_cancelled w' = true /\
    w_workers w' = <[i:=wk']> (w_workers w) /\ (weight (wk_phase wk') < weight (wk_phase wk))%nat.
Proof.
  intros Hinv Hc Hi Hr.
  assert (channel_of (next_action i (wk_phase wk)) = Some i) as Hch by (destruct (wk_phase wk) as [| | | | | |? []| | | | |]; done).
  pose proof (stepped_perform n _ i w wk Hinv Hc Hch Hi) as Hs. pose proof (keeps_perform n (next_action i (wk_phase wk)) w Hinv) as Hk.
  assert (perform env (next_action i (wk_phase wk)) w <> Stuck) as Hns.
  { destruct wk as [ip ph att fails]. cbn [wk_phase] in *.
    destruct (dial_fails (pe_frontProxy env) (pe_handshakeTimeout env) zeroTime zeroTime (w_pool w) EOF) as (p' & e' & Hd).
    destruct ph as [| | | | | |s []| | | | |]; cbn [next_action perform channel_of]; rewrite Hi;
      unfold perform_worker, perform_prober, probe_failure, go_to_sleep, move; cbn [wk_phase]; rewrite ?Hc, ?Hd; try done;
      repeat case_match; try done. }
  destruct (wk_phase wk) as [| | | | |s pr|s pr| | | | |] eqn:Hph;
    try (destruct (perform env _ w) as [| |w']; [done|done|]; destruct Hs as (Hc' & wk' & Hw' & [Hlt|(? & ? & ? & ? & _)]);
         [by exists w', wk'|done]).
  eexists _, _. split; [|split; [|split]]; [cbn [next_action perform channel_of]; rewrite Hi; unfold perform_worker, move;
    rewrite Hph, Hc; reflexivity|done|reflexivity|destruct pr; cbn; lia].
Qed.

Lemma total_weight_insert w w' i wk wk' : w_workers w !! i = Some wk -> w_workers w' = <[i:=wk']> (w_workers w) ->
  (total_weight w' + weight (wk_phase wk) = total_weight w + weight (wk_phase wk'))%nat.
Proof.
  unfold total_weight. intros Hi ->. revert i Hi. induction (w_workers w) as [|x l IH]; intros [|i] Hi; [done|done|cbn in *; simplify_eq; lia|].
  change (<[S i:=wk']> (x :: l)) with (x :: <[i:=wk']> l). specialize (IH i Hi). cbn [map sum_list]. lia.
Qed.

#[export] Instance returned_dec (ph : phase) : Decision (ph = Returned).
Proof. destruct ph; first [by left|by right]. Defined.

Definition all_returned (w : world) : Prop := Forall (fun wk => wk_phase wk = Returned) (w_workers w).

Lemma stops n : forall k w, total_weight w = k -> pool_inv n w -> w_cancelled w = true ->
  exists acts w', run env acts w = Next w' /\ (length acts <= k)%nat /\ all_returned w'.
Proof.
  intros k. induction (lt_wf k) as [k _ IH]. intros w Hk Hinv Hc.
  destruct (decide (Forall (fun wk => wk_phase wk = Returned) (w_workers w))) as [Hr|Hr]; [exists [], w; cbn; split; [done|split; [lia|done]]|].
  apply not_Forall_Exists, Exists_exists in Hr as (wk & Hin & Hwk); [|apply _]. apply list_elem_of_lookup in Hin as [i Hi].
  destruct (next_action_possible n i w wk Hinv Hc Hi Hwk) as (w1 & wk' & Hp & Hc1 & Hw1 & Hlt).
  pose proof (total_weight_insert w w1 i wk wk' Hi Hw1) as Ht.
  pose proof (keeps_perform n (next_action i (wk_phase wk)) w Hinv) as Hinv1. rewrite Hp in Hinv1.
  destruct (IH (total_weight w1) ltac:(lia) w1 eq_refl Hinv1 Hc1) as (acts & w' & Hrun & Hlen & Hall).
  exists (next_action i (wk_phase wk) :: acts), w'. cbn [run]. rewrite Hp. split; [done|]. split; [cbn; lia|done].
Qed.

(** C12: the pool stops.  Once its context is cancelled, every action of a
    goroutine brings it closer to its return, except the probes of a channel
    whose [select] has not looked at the context yet, and no other action takes
    it further away; from every reachable state all goroutines can return
    within 15 actions each; and when they have returned, every session is
    closed and every slot is empty, keys included. *)
Theorem pool_stops (addr : bytes) (n : Z) (ips : list bytes) (cid mode : bytes) (o : poolOptions) (p : ECHPool)
    (acts : list action) (w : world)
    (Hnew : NewECHPool addr n ips cid mode o = Ok p) (Hrun : run env acts (Start p) = Next w) (Hc : w_cancelled w = true) :
  (forall a w', perform env a w = Next w' -> w_cancelled w' = true /\
     forall i wk, w_workers w !! i = Some wk -> exists wk', w_workers w' !! i = Some wk' /\
       if bool_decide (channel_of a = Some i) then advances (wk_phase wk) (wk_phase wk') else wk' = wk) /\
  (exists more w', run env more w = Next w' /\ (length more <= 15 * length (w_workers w))%nat /\ all_returned w') /\
  (all_returned w -> (forall s x, w_heap w !! s = Some x -> s_closed x = true) /\
                     forall i, (i < length (w_workers w))%nat -> wiped (w_pool w) i).
Proof.
  pose proof (keeps_run _ acts (Start p) (Start_inv _ _ _ _ _ _ _ Hnew)) as Hinv. rewrite Hrun in Hinv. cbn [keeps] in Hinv.
  set (k := length (smuxConns p)) in *. split_and!.
  - intros a w' Ha. destruct (channel_of a) as [j|] eqn:Hch.
    + destruct (w_workers w !! j) as [wj|] eqn:Hj.
      2: { destruct a; cbn in Hch; simplify_eq; cbn [perform channel_of] in Ha; by rewrite Hj in Ha. }
      pose proof (stepped_perform k a j w wj Hinv Hc Hch Hj) as Hs. rewrite Ha in Hs. destruct Hs as (Hc' & wj' & -> & Hadv).
      split; [done|]. intros i wk Hi. pose proof (lookup_lt_Some _ _ _ Hj). destruct (decide (i = j)) as [->|Hne].
      * exists wj'. rewrite list_lookup_insert_eq, bool_decide_eq_true_2 by done. by simplify_eq.
      * exists wk. rewrite list_lookup_insert_ne, bool_decide_eq_false_2 by congruence. done.
    + assert (w_cancelled w' = true /\ w_workers w' = w_workers w) as [Hc' ->] by (destruct a; cbn in Hch, Ha; by simplify_eq).
      split; [done|]. intros i wk Hi. by exists wk.
  - destruct (stops k (total_weight w) w eq_refl Hinv Hc) as (more & w' & Hr & Hl & Hall). exists more, w'. split_and!; [done| |done].
    assert (total_weight w <= 15 * length (w_workers w))%nat; [|lia].
    unfold total_weight. clear. induction (w_workers w) as [|wk l IH]; cbn; [lia|].
    assert (weight (wk_phase wk) <= 15)%nat by (destruct (wk_phase wk) as [| | | | | |s []| | | | |]; cbn; lia). lia.
  - intros Hall. unfold all_returned in Hall. rewrite Forall_lookup in Hall. split.
    + intros s x Hx. destruct (s_closed x) eqn:Hcl; [done|].
      destruct (inv_owned _ _ Hinv s x Hx Hcl) as (i & wk & Hi & Ho). by rewrite (Hall i wk Hi) in Ho.
    + intros i Hi. apply lookup_lt_is_Some in Hi as [wk Hi]. pose proof (inv_channels _ _ Hinv i wk Hi) as Hok.
      by rewrite (Hall i wk Hi) in Hok.
Qed.

End Promises.

(** * Probing and dialling *)

(** A channel number or a slot out of range has no keys. *)
Lemma channelV3Security_range idx p : len (channelKeys p) = len (channelCiphers p) ->
  match channelV3Security idx p with
  | Ok (Some (k, c)) => 0 <= idx < len (channelKeys p) /\ channelKeys p !! Z.to_nat idx = Some k /\ channelCiphers p !! Z.to_nat idx = Some c
  | Ok None => idx < 0 \/ len (channelKeys p) <= idx
  | _ => False
  end.
Proof.
  intros Hl. unfold channelV3Security. destruct (Z.ltb_spec idx 0); [cbn; lia|]. destruct (Z.leb_spec (len (channelKeys p)) idx); cbn [orb]; [lia|].
  unfold len in *.
  destruct (channelKeys p !! Z.to_nat idx) eqn:E1; [|apply lookup_ge_None in E1; lia].
  destruct (channelCiphers p !! Z.to_nat idx) eqn:E2; [|apply lookup_ge_None in E2; lia]. by split.
Qed.

Section Ping.
Context `{U : GoUnicode} `{N : Net} `{E : ErrorText} `{C : Crypto.Crypto}.
Context {W : Type} {HWr : Writer W} {HWrOk : WriterOk W} {Wc : Type} {HWc : Writer Wc} {HWcOk : WriterOk Wc}.

(** A probe meets the server's handler: the answer is the payload, the probe
    succeeds and its round trip is positive. *)
Theorem ping_answered (cfg : relayConfig) (ch : Sessions.WSChannel) (sid : Z) (start finish : Time) (nano : Z) (wc : Wc) (w : W)
    (Hserver : is_ok (NewV3CipherStream (Sessions.ch_v3Keys ch) (Sessions.ch_v3Cipher ch) sid false) = true)
    (Hclient : is_ok (NewV3CipherStream (Sessions.ch_v3Keys ch) (Sessions.ch_v3Cipher ch) sid true) = true)
    (Hrel : reliable (W := W)) (Hrelc : reliable (W := Wc)) (Hstr : reliable_strings (W := Wc)) :
  exists request, forall rest,
    let r := handle_stream cfg ch sid (request ++ rest) w in
    exists answer, sink (run_w r) = sink w ++ answer /\ run_events r = [] /\
      forall more, exists wc' rtt, sink wc' = sink wc ++ request /\ 0 < rtt /\
        probe_stream (Sessions.ch_v3Keys ch) (Sessions.ch_v3Cipher ch) sid start nano finish (wc, answer ++ more) = ((wc', more), Ok rtt).
Proof.
  set (payload := be_put 8 (wrapU 64 nano)). set (header := enc_open_status_code (z2b streamKindPing) (z2b 0) []).
  exists (header ++ payload). intros rest r.
  assert (r = mkRun (fst (writeAll payload w)) [] [] EndClosed) as Hr.
  { unfold r, handle_stream. destruct (NewV3CipherStream _ _ sid false); [|done..]. rewrite <- app_assoc.
    assert (reads readSmuxOpenHeader header (z2b streamKindPing, z2b 0, [])) as Hread by by apply reads_open_status_code.
    rewrite (Hread (payload ++ rest)). cbn [negb isSupportedStreamKind].
    change (b2z (z2b streamKindPing)) with streamKindPing. change (isSupportedStreamKind streamKindPing) with true.
    cbn [negb]. rewrite Z.eqb_refl. rewrite ReadFull_app; [done|exact (length_be_put 8 _)]. }
  destruct (writeAll_total Hrel payload w) as [w' Hw]. rewrite Hr, Hw. exists payload. cbn [run_w run_events fst].
  split; [eapply writes_frame; [exact Hw|apply writes_writeAll]|]. split; [done|]. intros more.
  destruct (head_and_string_total Hrelc Hstr (Ok tt) (z2b streamKindPing :: z2b 0 :: be_put 2 (len (@nil byte))) [] wc eq_refl)
    as (wc1 & Hw1 & Hs1).
  destruct (writeAll_total Hrelc payload wc1) as [wc2 Hw2].
  assert (sink wc2 = sink wc1 ++ payload) as Hs2 by (eapply writes_frame; [exact Hw2|apply writes_writeAll]).
  exists wc2, (let rtt := Sub finish start in if rtt <=? 0 then 1 else rtt). split; [|split].
  - rewrite Hs2, Hs1. unfold header, enc_open_status_code. by rewrite !app_assoc.
  - cbn zeta. destruct (Z.leb_spec (Sub finish start) 0); lia.
  - unfold probe_stream. destruct (NewV3CipherStream _ _ sid true); [|done..].
    replace (writeSmuxOpenHeader (z2b streamKindPing) (z2b 0) [] wc) with (wc1, Ok tt) by (symmetry; exact Hw1).
    fold payload. rewrite Hw2, ReadFull_app by exact (length_be_put 8 _). by rewrite bool_decide_eq_true_2.
Qed.

End Ping.

(** When [buildUnifiedTLSConfig] fails, the selector dials anyway: QUIC without
    any verification of the server, although the pool was not told to skip it. *)
Theorem tls_error_dials_unverified (p : ECHPool) (serverName targetIP : bytes) (e : error) (timeout : Z) :
  let opts := selector_options p serverName targetIP (Err e) timeout in
  InsecureSkipVerify (qd_tls (quic_dial_config (wsServerAddr p) opts)) = true /\
  EncryptedClientHelloConfigList (qd_tls (quic_dial_config (wsServerAddr p) opts)) = [] /\
  wd_tls (ws_dial_config opts) = None.
Proof.
  intros opts. pose proof (quic_dial_verification (wsServerAddr p) opts) as [H1 H2]. done.
Qed.

(** * Witnesses *)

Definition no_host : GoURL := {| url_Host := fun _ => None |}.

Definition demo_env : poolEnv := mkPoolEnv Config.defaultGlobalConfig false (fun _ => None) (10 * Second) (2 * Second).

Definition demo_options : poolOptions := mkPoolOptions false false [] [] 0 true.

Definition demo_new : res ECHPool :=
  NewECHPool (U := ascii_only_unicode) (bs "wss://example.com/ws") 2 [bs "192.0.2.1"] (bs "id") (bs "auto") demo_options.

Definition demo_pool : ECHPool :=
  match demo_new with Ok p => p | _ => mkECHPool [] 0 [] [] [] [] [] [] [] [] 0 (NewTransportSelector []) None demo_options end.

(** Both channels dial; the first one is up over QUIC, the second one fails. *)
Definition demo_acts : list action :=
  [AHead 0 zeroTime; AHead 1 zeroTime; ADial 0 (Err EOF) (Ok tt) (Err EOF) zeroTime zeroTime zeroTime;
   ADial 1 (Err EOF) (Err EOF) (Err EOF) zeroTime zeroTime zeroTime;
   ANegotiate 0 (Ok (127, sampleKeys, z2b 1)) zeroTime; AInstall 0; AFirstProbe 0 (Ok 40000000) zeroTime; AProbeOpen 0].

Definition demo_run (acts : list action) : outcome := run (U := ascii_only_unicode) (L := no_host) demo_env acts (Start demo_pool).

Definition demo_world (acts : list action) : world := match demo_run acts with Next w => w | _ => Start demo_pool end.

Lemma pool_channels_sound_witness :
  let w := demo_world demo_acts in
  channelKeys (w_pool w) = [sampleKeys; zeroKeys] /\
  (forall s x, w_heap w !! s = Some x -> s_closed x = false ->
     exists! i, exists wk, w_workers w !! i = Some wk /\ owner (wk_phase wk) = Some s).
Proof.
  intros w. split; [vm_compute; reflexivity|].
  apply (pool_channels_sound (U := ascii_only_unicode) (L := no_host) demo_env (bs "wss://example.com/ws") 2 [bs "192.0.2.1"]
    (bs "id") (bs "auto") demo_options demo_pool demo_acts w); vm_compute; reflexivity.
Defined.

Lemma pool_stream_bound_witness :
  let w := demo_world demo_acts in
  match snd (pick_channel (pe_probeTimeout demo_env) w) with
  | Ok pk => pk_slot pk = 0%nat /\ exists s, pk_session pk = Some s /\ is_closed s (w_heap w) = false
  | _ => False
  end.
Proof.
  intros w.
  assert (0 <= selectCounter (w_pool w) < 2 ^ 63) as Hk by (vm_compute; split; congruence).
  pose proof (pool_stream_bound (U := ascii_only_unicode) (L := no_host) demo_env (bs "wss://example.com/ws") 2 [bs "192.0.2.1"]
    (bs "id") (bs "auto") demo_options demo_pool demo_acts w ltac:(vm_compute; reflexivity) ltac:(vm_compute; reflexivity) Hk) as H.
  destruct (snd (pick_channel _ w)) as [pk|e|] eqn:E; [|vm_compute in E; discriminate E|exact H].
  destruct H as (s & H1 & H2 & _). split; [vm_compute in E; injection E as <-; reflexivity|]. exists s. split; assumption.
Defined.

Lemma pool_stops_witness :
  let w := demo_world (demo_acts ++ [ACancel]) in
  exists more w', run (U := ascii_only_unicode) (L := no_host) demo_env more w = Next w' /\ (length more <= 30)%nat /\ all_returned w'.
Proof.
  intros w.
  apply (pool_stops (U := ascii_only_unicode) (L := no_host) demo_env (bs "wss://example.com/ws") 2 [bs "192.0.2.1"]
    (bs "id") (bs "auto") demo_options demo_pool (demo_acts ++ [ACancel]) w); vm_compute; reflexivity.
Defined.
