(* ===== verification/HttpProxy.v ===== *)
(** The HTTP proxy: internal/app/local_http.go and the direct exit of route.go.
    [http.ReadRequest] is given by its result, the request and what it left in
    its buffered reader; [Request.Write] is the class [GoHTTP].  Headers are maps
    from canonical names to values, as in net/http. *)

From Stdlib Require Import ZArith Lia Strings.Byte.
From stdpp Require Import base numbers list gmap.
From S2P Require Import Prelude GoStrings GoNet NetAddr GoTime Wire Policy GeoData RouteRules RouteEngine Socks5 StreamOpen EchDns Connect Transports.
From S2P Require Config.

Local Open Scope Z_scope.
Local Open Scope go_scope.

(** * Headers *)

Definition token_byte (c : byte) : bool := Config.isHTTPToken [c].

(** [textproto.CanonicalMIMEHeaderKey]: a name with a byte that no name may have
    is left alone. *)
Fixpoint canonical_from (upper : bool) (k : bytes) : bytes :=
  match k with
  | [] => []
  | c :: k => (if upper then upper_byte c else lower_byte c) :: canonical_from (b2z c =? 45) k
  end.

Definition canonical (k : bytes) : bytes := if forallb token_byte k then canonical_from true k else k.

Abbreviation Header := (gmap bytes (list bytes)).

Definition header_values (k : bytes) (h : Header) : list bytes := default [] (h !! canonical k).
Definition header_get (k : bytes) (h : Header) : bytes := match header_values k h with v :: _ => v | [] => [] end.
Definition header_del (k : bytes) (h : Header) : Header := delete (canonical k) h.
Definition header_add (k v : bytes) (h : Header) : Header := <[canonical k := header_values k h ++ [v]]> h.

(** The fields of [http.Request] that the proxy looks at. *)
Record httpRequest : Type := mkRequest {
  rq_Method : bytes; rq_Host : bytes; rq_URL : Config.URL; rq_RequestURI : bytes; rq_Header : Header; rq_Close : bool;
}.

(** [Request.Write]: what is sent and the error, when the body can still read the
    given bytes. *)
Class GoHTTP := { http_write : httpRequest -> bytes -> bytes * option error }.

Definition with_header (h : Header) (r : httpRequest) : httpRequest :=
  mkRequest (rq_Method r) (rq_Host r) (rq_URL r) (rq_RequestURI r) h (rq_Close r).
Definition keep_open (r : httpRequest) : httpRequest :=
  mkRequest (rq_Method r) (rq_Host r) (rq_URL r) (rq_RequestURI r) (rq_Header r) false.

Definition is_connect (r : httpRequest) : bool := bool_decide (rq_Method r = bs "CONNECT").

Section Proxy.
Context `{U : GoUnicode}.

Definition validHTTPProxyBasicAuth (auth username password : bytes) : bool :=
  match Fields auth with
  | [scheme; encoded] =>
      EqualFoldAny scheme (bs "Basic") &&
      match DecodeString encoded with
      | Ok decoded => bool_decide (decoded = username ++ c_colon :: password)
      | _ => false
      end
  | _ => false
  end.

Definition httpHopByHopHeaders : list bytes :=
  map bs ["Connection"; "Keep-Alive"; "Proxy-Authenticate"; "Proxy-Authorization"; "Proxy-Connection";
          "TE"; "Trailer"; "Transfer-Encoding"; "Upgrade"]%string.

(** The tokens of all [Connection] headers. *)
Definition connection_tokens (h : Header) : list bytes :=
  map TrimSpace (concat (map (fun v => Split v c_comma) (header_values (bs "Connection") h))).

Definition isHTTPUpgradeRequest (h : Header) : bool :=
  negb (is_empty (header_get (bs "Upgrade") h)) ||
  existsb (fun token => EqualFoldAny token (bs "upgrade")) (connection_tokens h).

(** The values are read before the first deletion. *)
Definition stripHTTPProxyHeaders (h : Header) : Header :=
  foldl (fun h name => header_del name h)
    (foldl (fun h token => if is_empty token then h else header_del token h) h (connection_tokens h))
    httpHopByHopHeaders.

Definition httpProxyViaValue : bytes := bs "1.1 x-tunnel".

Definition addHTTPProxyViaHeader (h : Header) : Header := header_add (bs "Via") httpProxyViaValue h.

Definition sanitizeHTTPProxyRequest (r : httpRequest) : httpRequest :=
  keep_open (with_header (stripHTTPProxyHeaders (rq_Header r)) r).

(** [readBufferedHTTPBytes]: everything the reader holds is taken out of it. *)
Definition readBufferedHTTPBytes (r : bufioReader) : bytes * bufioReader := (br_buf r, mkReader [] (br_err r)).

Definition httpHostOfTarget (target : bytes) : bytes :=
  match SplitHostPort target with
  | Ok (host, _) => host
  | _ => trim_brackets target
  end.

Definition httpProxyTarget (r : httpRequest) : res bytes :=
  let defaultPort := if is_connect r then bs "443" else bs "80" in
  let u := rq_URL r in
  if negb (is_connect r) && negb (is_empty (Config.u_Scheme u)) then
    if negb (EqualFoldAny (Config.u_Scheme u) (bs "http")) then Err (Errorf "不支持的代理 URL scheme: %s" []) else
    match Config.u_User u with
    | Some _ => Err (Errorf "代理目标不能包含 userinfo" [])
    | None =>
        let target := TrimSpace (Config.u_Host u) in
        if negb (is_empty (rq_Host r)) then
          let! hostTarget := Config.normalizeHTTPProxyAuthority (rq_Host r) defaultPort in
          let! urlTarget := Config.normalizeHTTPProxyAuthority target defaultPort in
          if negb (EqualFoldAny hostTarget urlTarget) then Err (Errorf "Host 与代理目标不一致" []) else Ok urlTarget
        else Config.normalizeHTTPProxyAuthority target defaultPort
    end
  else Config.normalizeHTTPProxyAuthority (TrimSpace (rq_Host r)) defaultPort.

(** What happens to the request before it is routed: the headers of an upgrade
    stay, but for the proxy's own; the request line becomes relative. *)
Definition rewrite_request (r : httpRequest) : httpRequest * bool :=
  let upgrade := isHTTPUpgradeRequest (rq_Header r) in
  (if upgrade
   then keep_open (with_header (header_del (bs "Proxy-Connection") (header_del (bs "Proxy-Authorization") (rq_Header r))) r)
   else sanitizeHTTPProxyRequest r, upgrade).

Definition make_relative (upgrade : bool) (r : httpRequest) : httpRequest :=
  if is_connect r then r else
  let h := if upgrade then rq_Header r else addHTTPProxyViaHeader (rq_Header r) in
  let u := rq_URL r in
  mkRequest (rq_Method r) (rq_Host r) (Config.mkURL [] (Config.u_User u) [] (Config.u_Path u)) [] h (rq_Close r).

(** * Responses *)

Definition quote : byte := z2b 34.
Definition no_content : bytes := bs "Content-Length: 0" ++ Config.crlf ++ Config.crlf.

Definition response407 : bytes :=
  bs "HTTP/1.1 407 Proxy Authentication Required" ++ Config.crlf ++
  bs "Proxy-Authenticate: Basic realm=" ++ [quote] ++ bs "代理" ++ [quote] ++ Config.crlf ++ no_content.
Definition response400 : bytes := bs "HTTP/1.1 400 Bad Request" ++ Config.crlf ++ no_content.
Definition response403 : bytes := bs "HTTP/1.1 403 Forbidden" ++ Config.crlf ++ no_content.
Definition response502 : bytes := bs "HTTP/1.1 502 Bad Gateway" ++ Config.crlf ++ no_content.
Definition response200 : bytes := bs "HTTP/1.1 200 Connection Established" ++ Config.crlf ++ Config.crlf.

(** The response to a stream that could not be opened. *)
Definition open_failure_response (e : openError) : bytes :=
  if httpStatusForOpenError e =? 403 then response403 else response502.

(** * The handler *)

(** What the handler does outside the client's connection. *)
Inductive http_event : Type :=
  | HDial (target : bytes)
  | HOpen (target : bytes)
  | HSend (conn : nat) (b : bytes)
  | HClose (conn : nat).

(** How it ends: closed, or relaying: what follows on the client's connection
    after a CONNECT, and what the reader of the body has left of it after another
    request. *)
Inductive http_end : Type :=
  | HClosed
  | HRelay (direct : bool) (conn : nat) (src : list arrival)
  | HRelayRest (direct : bool) (conn : nat).

Context {W : Type} `{HW : Writer W} {R : GoRegexp} {N : Net} {T : Tunnel} {H : GoHTTP}.
(** Whether a write on a connection to the target fails. *)
Variable send : nat -> bytes -> option error.

Record httpRun : Type := mkHttp { hr_w : W; hr_events : list http_event; hr_end : http_end }.

Definition writeHTTPProxyResponse (response : bytes) (w : W) : W * res unit := writeAll response w.

(** The last word to a client whose connection is then closed. *)
Definition refuse (response : bytes) (events : list http_event) (w : W) : httpRun :=
  mkHttp (fst (writeHTTPProxyResponse response w)) events HClosed.

(** What is sent on a connection of either exit, and the relay: [opened] is the
    event that made the connection. *)
Definition forward (direct : bool) (opened : http_event) (conn : nat) (r : httpRequest) (buffered : bytes)
    (src : list arrival) (w : W) : httpRun :=
  let closed w events := mkHttp w (opened :: events ++ [HClose conn]) HClosed in
  if is_connect r then
    match writeHTTPProxyResponse response200 w with
    | (w, Ok _) =>
        match buffered with
        | [] => mkHttp w [opened] (HRelay direct conn src)
        | _ => match send conn buffered with
               | None => mkHttp w [opened; HSend conn buffered] (HRelay direct conn src)
               | Some _ => closed w [HSend conn buffered]
               end
        end
    | (w, _) => closed w []
    end
  else
    let '(sent, err) := http_write r (until_fail src) in
    match err, send conn sent with
    | None, None => mkHttp w [opened; HSend conn sent] (HRelayRest direct conn)
    | _, _ => closed w [HSend conn sent]
    end.

Definition handleDirectHTTP (target : bytes) (r : httpRequest) (buffered : bytes) (src : list arrival) (w : W) : httpRun :=
  match net_dial (bs "tcp") target with
  | Ok upstream => forward true (HDial target) upstream r buffered src w
  | _ => refuse response502 [HDial target] w
  end.

(** The exit through the tunnel, at the end of [handleHTTP]. *)
Definition http_tunnel (target : bytes) (r : httpRequest) (buffered : bytes) (src : list arrival) (w : W) : httpRun :=
  match tunnel_open target with
  | inl s => forward false (HOpen target) s r buffered src w
  | inr e => refuse (open_failure_response e) [HOpen target] w
  end.

Definition handleHTTP (username password : bytes) (now : Time) (rt : routeRuntime)
    (parsed : res (httpRequest * bufioReader)) (src : list arrival) (w : W) : routeRuntime * res httpRun :=
  match parsed with
  | Ok (req, br) =>
      if negb (is_empty username) &&
         negb (validHTTPProxyBasicAuth (header_get (bs "Proxy-Authorization") (rq_Header req)) username password)
      then (rt, Ok (refuse response407 [] w)) else
      let '(req, upgrade) := rewrite_request req in
      match httpProxyTarget req with
      | Ok target =>
          let req := make_relative upgrade req in
          let '(buffered, _) := readBufferedHTTPBytes br in
          let '(routeHost, routeIP) := resolveHostForRoute (httpHostOfTarget target) now rt in
          let '(rt, decision) := decideForTarget routeHost routeIP rt in
          (rt,
           let! d := decision in
           Ok match d with
              | routeDirect => handleDirectHTTP target req buffered src w
              | routeReject => refuse response403 [] w
              | routeProxy => http_tunnel target req buffered src w
              end)
      | _ => (rt, Ok (refuse response400 [] w))
      end
  | _ => (rt, Ok (mkHttp w [] HClosed))
  end.

End Proxy.

(** * Lemmas on headers *)

Lemma header_del_lookup k k' h : header_del k h !! k' = if bool_decide (canonical k = k') then None else h !! k'.
Proof.
  unfold header_del. case_bool_decide as E; [subst; apply lookup_delete_eq|by apply lookup_delete_ne].
Qed.

Lemma foldl_del names h k :
  foldl (fun h name => header_del name h) h names !! k =
  if existsb (fun n => bool_decide (canonical n = k)) names then None else h !! k.
Proof.
  revert h. induction names as [|n names IH]; intros h; cbn [foldl existsb]; [done|]. rewrite IH, header_del_lookup.
  destruct (bool_decide (canonical n = k)); cbn [orb]; by destruct (existsb _ names).
Qed.

Lemma foldl_del_tokens tokens h k :
  foldl (fun h t => if is_empty t then h else header_del t h) h tokens !! k =
  if existsb (fun t => negb (is_empty t) && bool_decide (canonical t = k)) tokens then None else h !! k.
Proof.
  revert h. induction tokens as [|t tokens IH]; intros h; cbn [foldl existsb]; [done|]. rewrite IH.
  destruct (is_empty t); cbn [negb andb orb]; [done|]. rewrite header_del_lookup.
  destruct (bool_decide (canonical t = k)); cbn [orb]; by destruct (existsb _ tokens).
Qed.

Section HeaderClaims.
Context `{U : GoUnicode}.

(** A name that belongs to one hop: listed, or named by a [Connection] header. *)
Definition hop_by_hop (h : Header) (k : bytes) : bool :=
  existsb (fun n => bool_decide (canonical n = k)) httpHopByHopHeaders ||
  existsb (fun t => negb (is_empty t) && bool_decide (canonical t = k)) (connection_tokens h).

Lemma strip_lookup h k : stripHTTPProxyHeaders h !! k = if hop_by_hop h k then None else h !! k.
Proof.
  unfold stripHTTPProxyHeaders, hop_by_hop. rewrite foldl_del, foldl_del_tokens.
  by destruct (existsb _ httpHopByHopHeaders).
Qed.

(** The request that is forwarded. *)
Definition forwarded (r : httpRequest) : httpRequest := let '(r, upgrade) := rewrite_request r in make_relative upgrade r.

Definition via : bytes := bs "Via".

Lemma make_relative_lookup upgrade r k : is_connect r = false ->
  rq_Header (make_relative upgrade r) !! k =
  if negb upgrade && bool_decide (k = via) then Some (default [] (rq_Header r !! via) ++ [httpProxyViaValue]) else rq_Header r !! k.
Proof.
  intros Hc. unfold make_relative. rewrite Hc. cbn [rq_Header]. destruct upgrade; cbn [negb andb]; [done|].
  unfold addHTTPProxyViaHeader, header_add, header_values. change (canonical (bs "Via")) with via.
  case_bool_decide as E; [subst k; by rewrite lookup_insert_eq|by rewrite lookup_insert_ne].
Qed.

(** C18: what the proxy forwards of a request.  The credentials for the proxy never
    leave it.  A request that is no protocol upgrade loses exactly the headers
    that belong to one hop (the listed ones and those its [Connection] headers
    name), gets this proxy appended to [Via], and keeps every other header as it
    was; an upgrade keeps every header but the two meant for the proxy.  Method,
    host and path are kept, the request line becomes relative. *)
Theorem http_headers_forwarded (r : httpRequest) (Hmethod : is_connect r = false) :
  let f := forwarded r in
  rq_Header f !! bs "Proxy-Authorization" = None /\ rq_Header f !! bs "Proxy-Connection" = None /\
  (isHTTPUpgradeRequest (rq_Header r) = false -> forall k,
     rq_Header f !! k = if bool_decide (k = via) then Some ((if hop_by_hop (rq_Header r) via then [] else default [] (rq_Header r !! via)) ++ [httpProxyViaValue])
                        else if hop_by_hop (rq_Header r) k then None else rq_Header r !! k) /\
  (isHTTPUpgradeRequest (rq_Header r) = true -> forall k,
     k <> bs "Proxy-Authorization" -> k <> bs "Proxy-Connection" -> rq_Header f !! k = rq_Header r !! k) /\
  rq_Method f = rq_Method r /\ rq_Host f = rq_Host r /\ Config.u_Path (rq_URL f) = Config.u_Path (rq_URL r) /\
  Config.u_Scheme (rq_URL f) = [] /\ Config.u_Host (rq_URL f) = [] /\ rq_Close f = false.
Proof.
  intros f. unfold f, forwarded, rewrite_request.
  assert (forall k, hop_by_hop (rq_Header r) k = true \/
            existsb (fun n => bool_decide (canonical n = k)) httpHopByHopHeaders = false) as Hhop.
  { intros k. unfold hop_by_hop. destruct (existsb _ httpHopByHopHeaders); by auto. }
  destruct (isHTTPUpgradeRequest (rq_Header r)).
  - assert (forall k, rq_Header (make_relative true (keep_open (with_header (header_del (bs "Proxy-Connection")
              (header_del (bs "Proxy-Authorization") (rq_Header r))) r))) !! k =
              if bool_decide (bs "Proxy-Connection" = k) || bool_decide (bs "Proxy-Authorization" = k) then None else rq_Header r !! k) as Hk.
    { intros k. rewrite make_relative_lookup by done. cbn [negb andb keep_open with_header rq_Header]. rewrite !header_del_lookup.
      change (canonical (bs "Proxy-Connection")) with (bs "Proxy-Connection").
      change (canonical (bs "Proxy-Authorization")) with (bs "Proxy-Authorization").
      by destruct (bool_decide (bs "Proxy-Connection" = k)). }
    split; [by rewrite Hk|]. split; [by rewrite Hk|]. split; [done|]. split.
    + intros _ k H1 H2. rewrite Hk, !bool_decide_eq_false_2 by congruence. done.
    + unfold make_relative. change (is_connect (keep_open _)) with (is_connect r). by rewrite Hmethod.
  - assert (forall k, rq_Header (make_relative false (sanitizeHTTPProxyRequest r)) !! k =
              if bool_decide (k = via) then Some ((if hop_by_hop (rq_Header r) via then [] else default [] (rq_Header r !! via)) ++ [httpProxyViaValue])
              else if hop_by_hop (rq_Header r) k then None else rq_Header r !! k) as Hk.
    { intros k. rewrite make_relative_lookup by done. cbn [negb andb sanitizeHTTPProxyRequest keep_open with_header rq_Header].
      rewrite !strip_lookup. by destruct (hop_by_hop (rq_Header r) via). }
    split_and!; [| |by intros _|done|..].
    1,2: rewrite Hk, bool_decide_eq_false_2 by done;
      match goal with |- context [hop_by_hop _ ?k] => destruct (Hhop k) as [->|E]; [done|by vm_compute in E] end.
    all: unfold make_relative; change (is_connect (sanitizeHTTPProxyRequest r)) with (is_connect r); by rewrite Hmethod.
Qed.

End HeaderClaims.

(** * The outcome of a request *)

(** The targets that were contacted, over the direct exit or not; the connections
    that were closed; the bytes given to a connection, and those it took. *)
Definition http_contacts (evs : list http_event) : list (bool * bytes) :=
  omap (fun e => match e with HDial t => Some (true, t) | HOpen t => Some (false, t) | _ => None end) evs.
Definition http_closed (evs : list http_event) : list nat :=
  omap (fun e => match e with HClose c => Some c | _ => None end) evs.
Definition http_attempted (evs : list http_event) : bytes :=
  concat (omap (fun e => match e with HSend _ b => Some b | _ => None end) evs).
Definition http_sent (send : nat -> bytes -> option error) (evs : list http_event) : bytes :=
  concat (omap (fun e => match e with HSend c b => match send c b with None => Some b | Some _ => None end | _ => None end) evs).

(** A target that was normalised: a valid host with a port. *)
Definition target_ok `{U : GoUnicode} (t : bytes) : Prop :=
  exists h p n, t = JoinHostPort h p /\ (ValidateHostnameOrIP h = Ok tt \/ is_Some (ParseIP h)) /\ Atoi p = Some n /\ 1 <= n <= 65535.

Lemma normalize_ok `{U : GoUnicode} a d n t : Config.normalizeHTTPProxyAuthority a d = Ok t -> Atoi d = Some n -> 1 <= n <= 65535 -> target_ok t.
Proof.
  unfold Config.normalizeHTTPProxyAuthority. intros H Hd Hn.
  repeat (case_match; try done); simplify_eq/=;
    repeat match goal with
    | H : res_bind ?m _ = Ok _ |- _ => let E := fresh "E" in destruct m as [[]| |] eqn:E; cbn [res_bind] in H; try done
    end; repeat (case_match; try done); simplify_eq/=;
    match goal with |- target_ok (JoinHostPort ?h ?p) => exists h, p end;
    try (by exists n; eauto 6).
  match goal with H : Atoi ?p = Some ?m |- exists _, JoinHostPort _ ?p = _ /\ _ => exists m end.
  split; [done|]. split; [by left|]. split; [done|].
  match goal with H : (_ <=? _) || (_ <? _) = false |- _ => apply orb_false_iff in H as [?%Z.leb_gt ?%Z.ltb_ge] end. lia.
Qed.

Lemma httpProxyTarget_ok `{U : GoUnicode} r t : httpProxyTarget r = Ok t -> target_ok t.
Proof.
  unfold httpProxyTarget. set (d := if is_connect r then bs "443" else bs "80").
  assert (exists n, Atoi d = Some n /\ 1 <= n <= 65535) as (n & Hd & Hn).
  { unfold d. destruct (is_connect r); [exists 443|exists 80]; (split; [vm_compute; reflexivity|lia]). }
  destruct (_ && _); [|intros H; by eapply normalize_ok].
  destruct (EqualFoldAny _ _); cbn [negb]; [|done]. destruct (Config.u_User _); [done|].
  destruct (negb (is_empty (rq_Host r))); [|intros H; by eapply normalize_ok].
  destruct (Config.normalizeHTTPProxyAuthority (rq_Host r) d); cbn [res_bind]; [|done..].
  destruct (Config.normalizeHTTPProxyAuthority _ d) eqn:E; cbn [res_bind]; [|done..].
  destruct (EqualFoldAny _ _); cbn [negb]; [|done]. intros [= <-]. by eapply normalize_ok.
Qed.

Section Outcome.
Context `{U : GoUnicode} {W : Type} {HWr : Writer W} {HWrOk : WriterOk W} {R : GoRegexp} {N : Net} {T : Tunnel} {H : GoHTTP}.
Variable send : nat -> bytes -> option error.

(** What the target is owed before the relay: after a CONNECT what was read behind
    the request, otherwise the request as [Request.Write] renders it. *)
Definition owed (r : httpRequest) (buffered : bytes) (src : list arrival) : bytes * option error :=
  if is_connect r then (buffered, None) else http_write r (until_fail src).

Definition goes_through (c : nat) (r : httpRequest) (buffered : bytes) (src : list arrival) : bool :=
  match owed r buffered src with
  | (b, None) => (is_connect r && is_empty b) || match send c b with None => true | Some _ => false end
  | (_, Some _) => false
  end.

(** A run on one exit with the connection it obtained.  When what is owed goes
    through, all of it was taken by the connection, which is relayed and not
    closed; otherwise, and only then, both connections are closed. *)
Definition exit_ok (direct : bool) (r : httpRequest) (buffered : bytes) (src : list arrival) (c : nat) (w : W) (run : httpRun) : Prop :=
  sink (hr_w run) = sink w ++ (if is_connect r then response200 else []) /\
  if goes_through c r buffered src
  then hr_end run = (if is_connect r then HRelay direct c src else HRelayRest direct c) /\
       http_closed (hr_events run) = [] /\ http_sent send (hr_events run) = fst (owed r buffered src)
  else hr_end run = HClosed /\ http_closed (hr_events run) = [c].

Lemma refuse_sink response evs (w : W) : reliable (W := W) -> sink (hr_w (refuse response evs w)) = sink w ++ response.
Proof.
  intros Hrel. unfold refuse, writeHTTPProxyResponse. destruct (writeAll_total Hrel response w) as [w' Hw]. rewrite Hw. cbn.
  eapply writes_frame; [exact Hw|apply writes_writeAll].
Qed.

Lemma forward_ok direct opened conn r buffered src (w : W) :
  reliable (W := W) -> (forall c, opened <> HClose c) -> (forall c b, opened <> HSend c b) ->
  let run := forward send direct opened conn r buffered src w in
  exit_ok direct r buffered src conn w run /\ http_contacts (hr_events run) = http_contacts [opened].
Proof.
  intros Hrel Hc Hs. unfold forward, writeHTTPProxyResponse.
  assert (forall l, http_closed (opened :: l) = http_closed l) as Hc' by (intros; destruct opened; try done; by destruct (Hc conn0)).
  assert (forall l, http_sent send (opened :: l) = http_sent send l) as Hs' by (intros; destruct opened; try done; by destruct (Hs conn0 b)).
  assert (forall l, Forall (fun e => match e with HDial _ | HOpen _ => False | _ => True end) l ->
            http_contacts (opened :: l) = http_contacts [opened]) as Hn.
  { intros l Hl. assert (http_contacts l = []) as Hl0.
    { unfold http_contacts. induction Hl as [|e l He _ IH]; [done|]. cbn. destruct e; try done; exact IH. }
    unfold http_contacts in *. cbn. rewrite Hl0. by destruct opened. }
  unfold exit_ok, goes_through, owed. destruct (is_connect r) eqn:Hr.
  - destruct (writeAll_total Hrel response200 w) as [w' Hw]. rewrite Hw.
    assert (sink w' = sink w ++ response200) as Hsk by (eapply writes_frame; [exact Hw|apply writes_writeAll]).
    destruct buffered as [|b buf]; [|destruct (send conn (b :: buf)) eqn:He]; cbn [hr_end hr_events hr_w app is_empty andb orb fst];
      rewrite ?Hc', ?Hs', ?Hn by (repeat constructor); (split; [split; [done|]|done]); [done|done|].
    split_and!; [done|done|]. unfold http_sent. cbn [omap list_omap]. rewrite He. cbn. by rewrite app_nil_r.
  - destruct (http_write r (until_fail src)) as [sent err].
    destruct err, (send conn sent) eqn:He; cbn [hr_end hr_events hr_w app andb orb fst]; rewrite ?Hc', ?Hs', ?Hn by (repeat constructor);
      (split; [split; [by rewrite app_nil_r|]|done]); try done.
    split_and!; [done|done|]. unfold http_sent. cbn [omap list_omap]. rewrite He. cbn. by rewrite app_nil_r.
Qed.


End Outcome.

(** A body that arrived with the request is lost.  The bytes behind the head of
    the request are taken out of the buffered reader before the request is
    written, and only a CONNECT uses them: whatever the reader held, a request
    with a body of [n] bytes of which nothing more arrives is sent without its
    body, and the client's connection is closed without a response. *)
Theorem http_body_lost `{U : GoUnicode} {W : Type} {HWr : Writer W} {T : Tunnel} {H : GoHTTP}
    (send : nat -> bytes -> option error) (target head buffered : bytes) (r : httpRequest) (n c : nat) (e : error)
    (src : list arrival) (w : W)
    (Hmethod : is_connect r = false) (Hn : (0 < n)%nat)
    (Hbody : forall avail, http_write r avail =
       if (length avail <? n)%nat then (head ++ avail, Some e) else (head ++ take n avail, None))
    (Hnomore : until_fail src = []) (Hopen : tunnel_open target = inl c) :
  let run := http_tunnel send target r buffered src w in
  http_attempted (hr_events run) = head /\ hr_end run = HClosed /\ hr_w run = w.
Proof.
  unfold http_tunnel, forward. rewrite Hopen, Hmethod, Hbody, Hnomore.
  replace (length (@nil byte) <? n)%nat with true by (symmetry; by apply Nat.ltb_lt). cbn. by rewrite !app_nil_r.
Qed.

(** * The front proxy *)

(** The request that asks a front proxy for a tunnel: [URL.Opaque] is the target.
    [headers] are the configured ones in the order the map is walked. *)
Record connectRequest : Type := mkConnectRequest { cq_target : bytes; cq_Host : bytes; cq_Header : Header }.

Definition front_request (config : Config.WebSocketFrontProxyConfig) (headers : list (bytes * bytes)) (target : bytes) : connectRequest :=
  mkConnectRequest target (if is_empty (Config.fp_ConnectHost config) then target else Config.fp_ConnectHost config)
    (foldl (fun h '(name, value) => <[canonical name := [value]]> h) ∅ headers).

Inductive front_event : Type :=
  | FDial (server : bytes)
  | FWrite (conn : nat) (r : connectRequest)
  | FClose (conn : nat).

Section Front.
Context `{U : GoUnicode}.
(** The dial, [Request.Write] and [http.ReadResponse]: the status code and what
    the reader holds behind the response. *)
Variable dial : bytes -> res nat.
Variable write : nat -> connectRequest -> option error.
Variable answer : nat -> connectRequest -> res (Z * bufioReader).

(** The connection, and the reader in front of it when it holds something. *)
Definition dialWebSocketFrontProxy (config : Config.WebSocketFrontProxyConfig) (headers : list (bytes * bytes)) (target : bytes)
    : list front_event * res (nat * option bufioReader) :=
  if negb (Config.fp_Enabled config) then ([], Err (Errorf "websocket front proxy is disabled" [])) else
  match Config.validateWebSocketFrontProxyConfig config with
  | Ok _ =>
      if is_empty (TrimSpace target) then ([], Err (Errorf "websocket front proxy target is empty" [])) else
      match dial (Config.fp_Server config) with
      | Ok conn =>
          let req := front_request config headers target in
          let fail e := ([FDial (Config.fp_Server config); FWrite conn req; FClose conn], Err e) in
          match write conn req with
          | Some e => fail (Wrapf "write websocket front proxy CONNECT: %w" e)
          | None =>
              match answer conn req with
              | Ok (status, reader) =>
                  if negb (status =? 200) then fail (Errorf "websocket front proxy CONNECT %s returned status %s" []) else
                  ([FDial (Config.fp_Server config); FWrite conn req],
                   Ok (conn, if is_empty (br_buf reader) then None else Some reader))
              | Err e => fail (Wrapf "read websocket front proxy CONNECT response: %w" e)
              | Panic => fail EOF
              end
          end
      | Err e => ([FDial (Config.fp_Server config)], Err (Wrapf "dial websocket front proxy %s: %w" e))
      | Panic => ([FDial (Config.fp_Server config)], Panic)
      end
  | Err e => ([], Err e)
  | Panic => ([], Panic)
  end.

(** A tunnel through the front proxy: only the configured server is dialled,
    the CONNECT names the target, success means that the proxy answered 200 and
    nothing it sent behind its answer is lost, and a connection that is not
    returned is closed. *)
Theorem front_proxy_dial (config : Config.WebSocketFrontProxyConfig) (headers : list (bytes * bytes)) (target : bytes) :
  let '(evs, r) := dialWebSocketFrontProxy config headers target in
  Forall (fun e => match e with
    | FDial s => s = Config.fp_Server config
    | FWrite c q => dial (Config.fp_Server config) = Ok c /\ cq_target q = target /\
        cq_Host q = (if is_empty (Config.fp_ConnectHost config) then target else Config.fp_ConnectHost config)
    | FClose c => dial (Config.fp_Server config) = Ok c end) evs /\
  match r with
  | Ok (conn, reader) =>
      Config.fp_Enabled config = true /\ Config.validateWebSocketFrontProxyConfig config = Ok tt /\
      dial (Config.fp_Server config) = Ok conn /\ (forall c, FClose c ∉ evs) /\
      exists q br, answer conn q = Ok (200, br) /\
        forall src, relayed (mkConn reader src) = br_buf br ++ until_fail src
  | _ => forall conn, dial (Config.fp_Server config) = Ok conn -> evs <> [] -> FClose conn ∈ evs
  end.
Proof.
  unfold dialWebSocketFrontProxy. destruct (Config.fp_Enabled config); cbn [negb]; [|by split; [constructor|intros]].
  destruct (Config.validateWebSocketFrontProxyConfig config) as [[]|e|]; [|by split; [constructor|intros]..].
  destruct (is_empty (TrimSpace target)); [by split; [constructor|intros]|].
  destruct (dial (Config.fp_Server config)) as [conn|e|] eqn:Hd; [|by split; [repeat constructor|intros]..].
  set (q := front_request config headers target).
  assert (forall e : error, Forall (fun e => match e with
            | FDial s => s = Config.fp_Server config
            | FWrite c q => Ok conn = Ok c /\ cq_target q = target /\
                cq_Host q = (if is_empty (Config.fp_ConnectHost config) then target else Config.fp_ConnectHost config)
            | FClose c => Ok conn = Ok c end) [FDial (Config.fp_Server config); FWrite conn q; FClose conn] /\
          forall c, Ok conn = Ok c -> [FDial (Config.fp_Server config); FWrite conn q; FClose conn] <> [] ->
            FClose c ∈ [FDial (Config.fp_Server config); FWrite conn q; FClose conn]) as Hfail.
  { intros e. split; [by repeat constructor|]. intros c [= <-] _. do 2 right. left. }
  destruct (write conn q) as [e|]; [exact (Hfail e)|].
  destruct (answer conn q) as [[status br]|e|] eqn:Ha; [|exact (Hfail e)|exact (Hfail EOF)].
  destruct (Z.eqb_spec status 200) as [->|]; cbn [negb]; [|exact (Hfail EOF)].
  split; [by repeat constructor|]. split_and!; try done.
  - intros c Hc. rewrite !elem_of_cons, elem_of_nil in Hc. destruct Hc as [?|[?|?]]; done.
  - exists q, br. split; [done|]. intros src. unfold relayed, buffered. cbn [cc_reader cc_src].
    destruct (br_buf br) eqn:Eb; cbn [is_empty]; [done|by rewrite Eb].
Qed.

End Front.

(** * Examples *)

Definition demo_request : httpRequest :=
  mkRequest (bs "GET") (bs "www.google.com") (Config.mkURL (bs "http") None (bs "www.google.com") (bs "/a")) (bs "http://www.google.com/a")
    (<[bs "Connection" := [bs "keep-alive, x-secret"]]> (<[bs "X-Secret" := [bs "1"]]> (<[bs "Accept" := [bs "*/*"]]>
      (<[bs "Proxy-Authorization" := [bs "Basic dTpw"]]> ∅)))) false.

Lemma http_headers_forwarded_witness :
  let f := forwarded (U := ascii_only_unicode) demo_request in
  rq_Header f !! bs "Proxy-Authorization" = None /\ rq_Header f !! bs "X-Secret" = None /\
  rq_Header f !! bs "Accept" = Some [bs "*/*"] /\ rq_Header f !! bs "Via" = Some [httpProxyViaValue].
Proof.
  assert (is_connect demo_request = false) as Hm by (by vm_compute).
  destruct (http_headers_forwarded (U := ascii_only_unicode) demo_request Hm) as (Ha & _ & Hk & _).
  assert (isHTTPUpgradeRequest (U := ascii_only_unicode) (rq_Header demo_request) = false) as Hu by (by vm_compute).
  specialize (Hk Hu). split; [exact Ha|]. rewrite !Hk. by vm_compute.
Defined.

(** A [Request.Write] that sends the method alone. *)
Definition demo_http : GoHTTP := {| http_write := fun r _ => (rq_Method r, None) |}.

Definition demo_connect : httpRequest :=
  mkRequest (bs "CONNECT") (bs "www.google.com:443") (Config.mkURL [] None (bs "www.google.com:443") []) (bs "www.google.com:443")
    (<[bs "Proxy-Authorization" := [bs "Basic dTpw"]]> ∅) false.

Definition demo_handle : _ * res (httpRun (W := bytes)) :=
  handleHTTP (U := ascii_only_unicode) (R := plain_GoRegexp) (N := openNet) (T := demo_tunnel) (H := demo_http)
    (fun _ _ => None) (bs "u") (bs "p") zeroTime demo_runtime (Ok (demo_connect, mkReader (bs "early") None)) [] ([] : bytes).

