(* ===== verification/Engine.v ===== *)
(** The life of an [Engine]: internal/app/engine.go with the listeners of
    status.go.  [Start], [abortStart], [Close], [reportFatal], [finishWhenDone] and
    the goroutines of the listeners run concurrently; [engine_step] executes one
    critical section, one call or one communication of one of them, and a run is
    any sequence of such actions. *)

From Stdlib Require Import ZArith Lia Strings.Byte Floats.SpecFloat.
From stdpp Require Import base numbers list gmap.
From S2P Require Import Prelude GoStrings NetAddr.
From S2P Require Config.

Local Open Scope Z_scope.
Local Open Scope go_scope.

(** * What is started *)

(** The parts of [startRuntime] that can fail, in the order the code starts
    them. *)
Inductive stage : Type :=
  | StMetrics
  | StServer
  | StECH
  | StRoute
  | StPool
  | StListener (rule : Config.listenerStartupConfig)
  | StControl
  | StReadyFile.

Record RuntimeOptions : Type := mkOptions { ro_Version : bytes; ro_ControlAddr : bytes; ro_ReadyFile : bytes; ro_ControlTokenFile : bytes }.

(** [startControl]. *)
Definition startControl (o : RuntimeOptions) : list stage :=
  if is_empty (ro_ControlAddr o) then [] else
  StControl :: (if is_empty (ro_ReadyFile o) then [] else [StReadyFile]).

(** The listeners of the schemes the client knows; others are skipped. *)
Definition known_scheme (s : bytes) : bool :=
  bool_decide (s = bs "tcp") || bool_decide (s = bs "socks5") || bool_decide (s = bs "http").

(** The field [Client] of a start-up configuration: the zero value when it was
    not set. *)
Definition client_of (st : Config.startupConfig) : Config.clientStartupConfig :=
  default (Config.mkClientStartup [] false false ∅ false [] (S754_zero false) 0) (Config.st_Client st).

(** [startRuntime]: without a start-up configuration it fails at once. *)
Definition startRuntime (v : Config.runtimeValues) (startup : option Config.startupConfig) (o : RuntimeOptions) : res (list stage) :=
  match startup with
  | None => Err (Errorf "runtime config is missing startup state" [])
  | Some st =>
      let metrics := if is_empty (Config.v_MetricsAddr v) then [] else [StMetrics] in
      if Config.st_IsServer st then Ok (metrics ++ [StServer] ++ startControl o) else
      let c := client_of st in
      Ok (metrics ++
          (if bool_decide (Config.cs_ForwardScheme c = bs "wss") && negb (Config.cs_Fallback c) then [StECH] else []) ++
          (if Config.v_RouteEnabled v then [StRoute] else []) ++
          [StPool] ++
          map StListener (List.filter (fun l => known_scheme (Config.ls_Scheme l)) (Config.st_Listeners st)) ++
          startControl o)
  end.

(** The error [startRuntime] returns for a stage that failed with [e]. *)
Definition stage_error (s : stage) (canceled : bool) (e : error) : error :=
  match s with
  | StMetrics => Wrapf "listen.bind_failed: metrics: %w" e
  | StServer => Wrapf "listen.bind_failed: server: %w" e
  | StECH => if canceled then e else Wrapf "transport.ech_lookup_failed: %w" e
  | StRoute => Wrapf "route.init_failed: %w" e
  | StPool => e
  | StListener _ => Wrapf "listen.bind_failed: %s: %w" e
  | StControl => Wrapf "listen.bind_failed: control: %w" e
  | StReadyFile => Wrapf "ready_file.write_failed: %w" e
  end.

(** * Listeners *)

(** A [runtimeListener] with its goroutines: whether its socket was closed, the
    one that waits for the context, the one that serves ([l_done] is the channel
    it closes), and the engine's one that waits for [l_done]. *)
Record runtimeListener : Type := mkRL {
  l_State : bytes; l_LastError : option error; l_closing : bool; l_done : bool; l_ctxWaits : bool; l_tracked : bool;
}.

Definition newRuntimeListener : runtimeListener := mkRL (bs "started") None false false true false.

Definition listener_Close (l : runtimeListener) : runtimeListener :=
  mkRL (bs "stopping") (l_LastError l) true (l_done l) (l_ctxWaits l) (l_tracked l).

(** [finish], which happens once. *)
Definition finish (err : option error) (l : runtimeListener) : runtimeListener :=
  if l_done l then l
  else mkRL (bs "stopped") (match err with Some _ => err | None => l_LastError l end) (l_closing l) true (l_ctxWaits l) (l_tracked l).

Definition ctx_closes (l : runtimeListener) : runtimeListener :=
  let l := listener_Close l in mkRL (l_State l) (l_LastError l) (l_closing l) (l_done l) false (l_tracked l).

Definition track (b : bool) (l : runtimeListener) : runtimeListener :=
  mkRL (l_State l) (l_LastError l) (l_closing l) (l_done l) (l_ctxWaits l) b.

(** * The engine *)

Record Engine : Type := mkEngine {
  started : bool;
  closed : bool;
  ctx : option bool;
  done : bool;
  wg : Z;
  listeners : list nat;
  echPool : bool;
  logUndo : bool;
  fatalErr : option error;
  routeEngine : bool;
}.

(** [NewEngine]: the configuration was validated; [valid] is the result. *)
Definition newEngine : Engine := mkEngine false false None false 0 [] false false None false.

Definition NewEngine (valid : res unit) (o build : RuntimeOptions) : res (RuntimeOptions * Engine) :=
  let! _ := valid in
  let o := if is_empty (ro_Version o) then mkOptions (ro_Version build) (ro_ControlAddr o) (ro_ReadyFile o) (ro_ControlTokenFile o) else o in
  if is_empty (ro_ControlAddr o) && (negb (is_empty (ro_ReadyFile o)) || negb (is_empty (ro_ControlTokenFile o)))
  then Err (Errorf "-ready-file and -control-token-file require -control" [])
  else Ok (o, newEngine).

Definition set_started (cancelled : bool) (e : Engine) : Engine :=
  mkEngine true (closed e) (Some cancelled) (done e) (wg e) (listeners e) (echPool e) true (fatalErr e) (routeEngine e).
Definition set_closed (e : Engine) : Engine :=
  mkEngine (started e) true (ctx e) (done e) (wg e) (listeners e) (echPool e) (logUndo e) (fatalErr e) (routeEngine e).
Definition cancel (e : Engine) : Engine :=
  mkEngine (started e) (closed e) (option_map (fun _ => true) (ctx e)) (done e) (wg e) (listeners e) (echPool e) (logUndo e) (fatalErr e) (routeEngine e).
Definition set_done (e : Engine) : Engine :=
  mkEngine (started e) (closed e) (ctx e) true (wg e) (listeners e) (echPool e) (logUndo e) (fatalErr e) (routeEngine e).
Definition add_wg (d : Z) (e : Engine) : Engine :=
  mkEngine (started e) (closed e) (ctx e) (done e) (wg e + d) (listeners e) (echPool e) (logUndo e) (fatalErr e) (routeEngine e).
Definition add_listener (l : nat) (e : Engine) : Engine :=
  mkEngine (started e) (closed e) (ctx e) (done e) (wg e) (listeners e ++ [l]) (echPool e) (logUndo e) (fatalErr e) (routeEngine e).
Definition set_pool (e : Engine) : Engine :=
  mkEngine (started e) (closed e) (ctx e) (done e) (wg e) (listeners e) true (logUndo e) (fatalErr e) (routeEngine e).
Definition no_undo (e : Engine) : Engine :=
  mkEngine (started e) (closed e) (ctx e) (done e) (wg e) (listeners e) (echPool e) false (fatalErr e) (routeEngine e).
Definition set_fatal (err : error) (e : Engine) : Engine :=
  mkEngine (started e) (closed e) (ctx e) (done e) (wg e) (listeners e) (echPool e) (logUndo e)
    (match fatalErr e with None => Some err | f => f end) (routeEngine e).
Definition set_route (b : bool) (e : Engine) : Engine :=
  mkEngine (started e) (closed e) (ctx e) (done e) (wg e) (listeners e) (echPool e) (logUndo e) (fatalErr e) b.

(** Where the goroutine of [Start] is: in [startRuntime], in [trackListener]
    before and after its critical section, after a failure in [abortStart] (which
    carries the listeners and the undo function it took under the lock), before
    the last lines, or back with its result. *)
Inductive startPhase : Type :=
  | SIdle
  | SRun (plan : list stage)
  | STrack (l : nat) (plan : list stage)
  | SAdd (l : nat) (plan : list stage)
  | SFailed (e : error)
  | AbCancel (e : error) (ls : list nat) (undo : bool)
  | AbPool (e : error) (ls : list nat) (undo : bool)
  | AbListeners (e : error) (ls : list nat) (undo : bool)
  | AbWait (e : error) (undo : bool)
  | AbUndo (e : error) (undo : bool)
  | AbDone (e : error)
  | SUp
  | SReturned (r : option error).

(** A call of [Close]; [CWait] is its last [select]. *)
Inductive closePhase : Type :=
  | CCalled
  | CCancel (ls : list nat) (route : bool)
  | CPool (ls : list nat) (route : bool)
  | CRoute (ls : list nat) (route : bool)
  | CListeners (ls : list nat)
  | CWait
  | CReturned (ok : bool).

(** [finishWhenDone]: not started, in [wg.Wait], before the close, over. *)
Inductive finishPhase : Type := FNone | FWaiting | FClosing | FOver.

(** The goroutines of the pool. *)
Inductive poolPhase : Type := PNone | PUp | PGone.

Record engineWorld : Type := mkEW {
  ew_engine : Engine;
  ew_listeners : list runtimeListener;
  ew_start : startPhase;
  ew_finish : finishPhase;
  ew_ctxWaits : bool;
  ew_pool : poolPhase;
  ew_closes : list closePhase;
  ew_fatals : nat;
  ew_parent : bool;
  ew_logRing : bool;
  ew_routeRT : bool;
  ew_routeOpen : bool;
}.

Definition new_world : engineWorld := mkEW newEngine [] SIdle FNone false PNone [] 0 false false false false.

Definition put_engine (f : Engine -> Engine) (w : engineWorld) : engineWorld :=
  mkEW (f (ew_engine w)) (ew_listeners w) (ew_start w) (ew_finish w) (ew_ctxWaits w) (ew_pool w) (ew_closes w) (ew_fatals w)
    (ew_parent w) (ew_logRing w) (ew_routeRT w) (ew_routeOpen w).
Definition put_listeners (f : list runtimeListener -> list runtimeListener) (w : engineWorld) : engineWorld :=
  mkEW (ew_engine w) (f (ew_listeners w)) (ew_start w) (ew_finish w) (ew_ctxWaits w) (ew_pool w) (ew_closes w) (ew_fatals w)
    (ew_parent w) (ew_logRing w) (ew_routeRT w) (ew_routeOpen w).
Definition put_start (s : startPhase) (w : engineWorld) : engineWorld :=
  mkEW (ew_engine w) (ew_listeners w) s (ew_finish w) (ew_ctxWaits w) (ew_pool w) (ew_closes w) (ew_fatals w)
    (ew_parent w) (ew_logRing w) (ew_routeRT w) (ew_routeOpen w).
Definition put_finish (f : finishPhase) (w : engineWorld) : engineWorld :=
  mkEW (ew_engine w) (ew_listeners w) (ew_start w) f (ew_ctxWaits w) (ew_pool w) (ew_closes w) (ew_fatals w)
    (ew_parent w) (ew_logRing w) (ew_routeRT w) (ew_routeOpen w).
Definition put_ctxWaits (b : bool) (w : engineWorld) : engineWorld :=
  mkEW (ew_engine w) (ew_listeners w) (ew_start w) (ew_finish w) b (ew_pool w) (ew_closes w) (ew_fatals w)
    (ew_parent w) (ew_logRing w) (ew_routeRT w) (ew_routeOpen w).
Definition put_pool (p : poolPhase) (w : engineWorld) : engineWorld :=
  mkEW (ew_engine w) (ew_listeners w) (ew_start w) (ew_finish w) (ew_ctxWaits w) p (ew_closes w) (ew_fatals w)
    (ew_parent w) (ew_logRing w) (ew_routeRT w) (ew_routeOpen w).
Definition put_closes (f : list closePhase -> list closePhase) (w : engineWorld) : engineWorld :=
  mkEW (ew_engine w) (ew_listeners w) (ew_start w) (ew_finish w) (ew_ctxWaits w) (ew_pool w) (f (ew_closes w)) (ew_fatals w)
    (ew_parent w) (ew_logRing w) (ew_routeRT w) (ew_routeOpen w).
Definition put_fatals (n : nat) (w : engineWorld) : engineWorld :=
  mkEW (ew_engine w) (ew_listeners w) (ew_start w) (ew_finish w) (ew_ctxWaits w) (ew_pool w) (ew_closes w) n
    (ew_parent w) (ew_logRing w) (ew_routeRT w) (ew_routeOpen w).
Definition put_parent (w : engineWorld) : engineWorld :=
  mkEW (ew_engine w) (ew_listeners w) (ew_start w) (ew_finish w) (ew_ctxWaits w) (ew_pool w) (ew_closes w) (ew_fatals w)
    true (ew_logRing w) (ew_routeRT w) (ew_routeOpen w).
Definition put_logRing (b : bool) (w : engineWorld) : engineWorld :=
  mkEW (ew_engine w) (ew_listeners w) (ew_start w) (ew_finish w) (ew_ctxWaits w) (ew_pool w) (ew_closes w) (ew_fatals w)
    (ew_parent w) b (ew_routeRT w) (ew_routeOpen w).
Definition put_route (b : bool) (w : engineWorld) : engineWorld :=
  mkEW (ew_engine w) (ew_listeners w) (ew_start w) (ew_finish w) (ew_ctxWaits w) (ew_pool w) (ew_closes w) (ew_fatals w)
    (ew_parent w) (ew_logRing w) b b.

(** * Actions *)

(** [EStart] is a call of [Start] that gets through its first critical section.
    The timeouts are those of the contexts given to [Close] and [abortStart].  A
    server stops serving once it is closed ([EServeEnd]) or fails; the loop of a
    proxy's listener also ends at any error of [Accept] after the context is over
    ([EAcceptEnd]).  The last goroutine of the pool may end once the context is over
    ([EPoolGone]); nothing makes it. *)
Inductive engineAction : Type :=
  | EParent
  | EStart (plan : res (list stage))
  | EStage (r : option error) (canceled : bool)
  | ETrack
  | EAdd
  | EAbort (timeout : bool)
  | EUp
  | ECallClose
  | EClose (k : nat) (timeout : bool)
  | EFatal (err : error)
  | EFatalCancel
  | ECtxClose (l : nat)
  | EServeEnd (l : nat)
  | EServeFail (l : nat) (err : error)
  | EAcceptEnd (l : nat)
  | ETracked (l : nat)
  | ECtxWaits
  | EPoolGone
  | EFinish.

(** An action that is not possible now, a panic, or the next state. *)
Inductive engineOutcome : Type := EStuck | ECrash | ENext (w : engineWorld).

Definition cancelled (w : engineWorld) : bool := match ctx (ew_engine w) with Some true => true | _ => false end.

(** [close(e.done)] panics on a closed channel, [wg.Done] below zero. *)
Definition close_done (w : engineWorld) : engineOutcome :=
  if done (ew_engine w) then ECrash else ENext (put_engine set_done w).

Definition wg_Done (w : engineWorld) : engineOutcome :=
  if wg (ew_engine w) <=? 0 then ECrash else ENext (put_engine (add_wg (-1)) w).

Definition then_ (o : engineOutcome) (f : engineWorld -> engineWorld) : engineOutcome :=
  match o with ENext w => ENext (f w) | o => o end.

(** The first critical section of [Start]; one of a call that is refused changes
    nothing. *)
Definition start_begin (plan : res (list stage)) (w : engineWorld) : engineOutcome :=
  let e := ew_engine w in
  if started e || closed e then ENext w else
  let w := put_logRing true (put_engine (set_started (ew_parent w)) w) in
  match plan with
  | Ok plan => ENext (put_start (SRun plan) w)
  | Err err => ENext (put_start (SFailed err) w)
  | Panic => ECrash
  end.

(** A stage of [startRuntime] that succeeds.  [initRouteEngine] publishes the
    engine in the global [routeRT] and in [e.routeEngine]. *)
Definition stage_ok (s : stage) (plan : list stage) (w : engineWorld) : engineWorld :=
  match s with
  | StMetrics | StServer | StControl | StListener _ =>
      put_start (STrack (length (ew_listeners w)) plan) (put_listeners (fun ls => ls ++ [newRuntimeListener]) w)
  | StRoute => put_start (SRun plan) (put_route true (put_engine (set_route true) w))
  | StPool => put_start (SRun plan) (put_pool PUp (put_engine set_pool w))
  | StECH | StReadyFile => put_start (SRun plan) w
  end.

Definition pool_gone (w : engineWorld) : bool := match ew_pool w with PUp => false | _ => true end.

(** [abortStart] from its critical section on, one step at a time. *)
Definition abort_step (timeout : bool) (w : engineWorld) : engineOutcome :=
  let e := ew_engine w in
  match ew_start w with
  | SFailed err =>
      if closed e then ENext (put_start (SReturned (Some err)) w)
      else ENext (put_start (AbCancel err (listeners e) (logUndo e)) (put_engine (fun e => no_undo (set_closed e)) w))
  | AbCancel err ls undo => ENext (put_start (AbPool err ls undo) (put_engine cancel w))
  | AbPool err ls undo =>
      if negb (echPool e) || pool_gone w || timeout then ENext (put_start (AbListeners err ls undo) w) else EStuck
  | AbListeners err (l :: ls) undo => ENext (put_start (AbListeners err ls undo) (put_listeners (alter listener_Close l) w))
  | AbListeners err [] undo => ENext (put_start (AbWait err undo) w)
  | AbWait err undo => if (wg e =? 0) || timeout then ENext (put_start (AbUndo err undo) w) else EStuck
  | AbUndo err undo => ENext (put_start (AbDone err) (if undo then put_logRing false w else w))
  | AbDone err => then_ (close_done w) (put_start (SReturned (Some err)))
  | _ => EStuck
  end.

(** The call [k] of [Close], one step at a time. *)
Definition close_step (k : nat) (timeout : bool) (w : engineWorld) : engineOutcome :=
  let e := ew_engine w in
  let go p w := ENext (put_closes (fun cs => <[k := p]> cs) w) in
  match ew_closes w !! k with
  | Some CCalled =>
      if closed e then go CWait w
      else if negb (started e) then then_ (close_done (put_engine set_closed w)) (put_closes (fun cs => <[k := CReturned true]> cs))
      else go (CCancel (listeners e) (routeEngine e)) (put_engine (fun e => set_route false (set_closed e)) w)
  | Some (CCancel ls route) => go (CPool ls route) (put_engine cancel w)
  | Some (CPool ls route) => if negb (echPool e) || pool_gone w || timeout then go (CRoute ls route) w else EStuck
  | Some (CRoute ls route) => go (CListeners ls) (if route then put_route false w else w)
  | Some (CListeners (l :: ls)) => go (CListeners ls) (put_listeners (alter listener_Close l) w)
  | Some (CListeners []) => go CWait w
  | Some CWait => if done e then go (CReturned true) w else if timeout then go (CReturned false) w else EStuck
  | _ => EStuck
  end.

Definition finish_step (w : engineWorld) : engineOutcome :=
  let e := ew_engine w in
  match ew_finish w with
  | FWaiting =>
      if wg e =? 0 then ENext (put_finish FClosing (if logUndo e then put_logRing false (put_engine no_undo w) else w)) else EStuck
  | FClosing => then_ (close_done w) (put_finish FOver)
  | _ => EStuck
  end.

Definition engine_step (a : engineAction) (w : engineWorld) : engineOutcome :=
  let e := ew_engine w in
  match a with
  | EParent => ENext (put_engine cancel (put_parent w))
  | EStart plan => start_begin plan w
  | EStage r canceled =>
      match ew_start w, r with
      | SRun (s :: plan), None => ENext (stage_ok s plan w)
      | SRun (StPool :: _), Some _ => EStuck
      | SRun (s :: _), Some err => ENext (put_start (SFailed (stage_error s canceled err)) w)
      | SRun [], None => ENext (put_start SUp w)
      | _, _ => EStuck
      end
  | ETrack => match ew_start w with STrack l plan => ENext (put_start (SAdd l plan) (put_engine (add_listener l) w)) | _ => EStuck end
  | EAdd =>
      match ew_start w with
      | SAdd l plan => ENext (put_start (SRun plan) (put_listeners (alter (track true) l) (put_engine (add_wg 1) w)))
      | _ => EStuck
      end
  | EAbort timeout => abort_step timeout w
  | EUp =>
      match ew_start w with
      | SUp => ENext (put_start (SReturned None) (put_finish FWaiting (put_ctxWaits true (put_engine (add_wg 1) w))))
      | _ => EStuck
      end
  | ECallClose => ENext (put_closes (fun cs => cs ++ [CCalled]) w)
  | EClose k timeout => close_step k timeout w
  | EFatal err => if started e then ENext (put_fatals (S (ew_fatals w)) (put_engine (set_fatal err) w)) else EStuck
  | EFatalCancel => match ew_fatals w with S n => ENext (put_fatals n (put_engine cancel w)) | O => EStuck end
  | ECtxClose l =>
      match ew_listeners w !! l with
      | Some x => if cancelled w && l_ctxWaits x then ENext (put_listeners (alter ctx_closes l) w) else EStuck
      | None => EStuck
      end
  | EServeEnd l =>
      match ew_listeners w !! l with
      | Some x => if cancelled w && l_closing x && negb (l_done x) then ENext (put_listeners (alter (finish None) l) w) else EStuck
      | None => EStuck
      end
  | EServeFail l err =>
      match ew_listeners w !! l with
      | Some x => if l_done x then EStuck else ENext (put_listeners (alter (finish (Some err)) l) w)
      | None => EStuck
      end
  | EAcceptEnd l =>
      match ew_listeners w !! l with
      | Some x => if cancelled w && negb (l_done x) then ENext (put_listeners (alter (finish None) l) w) else EStuck
      | None => EStuck
      end
  | ETracked l =>
      match ew_listeners w !! l with
      | Some x => if l_tracked x && l_done x then then_ (wg_Done w) (put_listeners (alter (track false) l)) else EStuck
      | None => EStuck
      end
  | ECtxWaits => if ew_ctxWaits w && cancelled w then then_ (wg_Done w) (put_ctxWaits false) else EStuck
  | EPoolGone => match ew_pool w with PUp => if cancelled w then ENext (put_pool PGone w) else EStuck | _ => EStuck end
  | EFinish => finish_step w
  end.

Fixpoint engine_run (acts : list engineAction) (w : engineWorld) : engineOutcome :=
  match acts with
  | [] => ENext w
  | a :: acts => match engine_step a w with ENext w => engine_run acts w | o => o end
  end.

(** [Wait], once [done] is closed. *)
Definition Wait (w : engineWorld) : option (option error) := if done (ew_engine w) then Some (fatalErr (ew_engine w)) else None.

(** * The invariant *)

Definition flag (b : bool) : nat := if b then 1 else 0.

Lemma sum_alter_same {A} (f : A -> nat) (g : A -> A) i (l : list A) :
  (forall x, f (g x) = f x) -> sum_list_with f (alter g i l) = sum_list_with f l.
Proof. intros H. revert i. induction l as [|x l IH]; intros [|i]; csimpl; rewrite ?H, ?IH; done. Qed.

Lemma sum_alter {A} (f : A -> nat) (g : A -> A) i (l : list A) x :
  l !! i = Some x -> (sum_list_with f (alter g i l) + f x = sum_list_with f l + f (g x))%nat.
Proof.
  revert i. induction l as [|y l IH]; intros [|i] Hx; csimpl in *; simplify_eq; [lia|]. specialize (IH _ Hx). lia.
Qed.

Lemma sum_insert {A} (f : A -> nat) y i (l : list A) x :
  l !! i = Some x -> (sum_list_with f (<[i:=y]> l) + f x = sum_list_with f l + f y)%nat.
Proof. intros Hx. rewrite list_insert_alter. by apply sum_alter with (g := fun _ => y). Qed.

Lemma lookup_alter_Some {A} (P : A -> Prop) (g : A -> A) i (l : list A) :
  (forall j x, l !! j = Some x -> P x) -> (forall x, P x -> P (g x)) -> forall j x, alter g i l !! j = Some x -> P x.
Proof.
  intros Hl Hg j x. rewrite list_lookup_alter. destruct (decide _).
  - destruct (l !! i) eqn:E; cbn; [|done]. intros [= <-]. eauto.
  - eauto.
Qed.

Definition tracked_count (ls : list runtimeListener) : nat := sum_list_with (fun x => flag (l_tracked x)) ls.
Arguments tracked_count : simpl never.

(** A listener whose context goroutine is over was closed. *)
Definition listener_ok (x : runtimeListener) : Prop := l_ctxWaits x = false -> l_closing x = true.

Definition phase_ok (w : engineWorld) : Prop :=
  let e := ew_engine w in
  match ew_start w with
  | SIdle => started e = false /\ ctx e = None /\ ew_finish w = FNone /\ ew_ctxWaits w = false /\ closed e = done e /\
      ew_logRing w = false /\ ew_fatals w = O
  | SRun _ | STrack _ _ | SAdd _ _ | SFailed _ | SUp => started e = true /\ is_Some (ctx e) /\ ew_finish w = FNone /\ ew_ctxWaits w = false /\
      done e = false /\ logUndo e = true /\ ew_logRing w = true
  | AbCancel _ _ undo => started e = true /\ is_Some (ctx e) /\ ew_finish w = FNone /\ ew_ctxWaits w = false /\ closed e = true /\
      done e = false /\ undo = true /\ ew_logRing w = true
  | AbPool _ _ undo | AbListeners _ _ undo | AbWait _ undo | AbUndo _ undo => started e = true /\ ctx e = Some true /\
      ew_finish w = FNone /\ ew_ctxWaits w = false /\ closed e = true /\ done e = false /\ undo = true /\ ew_logRing w = true
  | AbDone _ => started e = true /\ ctx e = Some true /\ ew_finish w = FNone /\ ew_ctxWaits w = false /\ closed e = true /\
      done e = false /\ ew_logRing w = false
  | SReturned (Some _) => started e = true /\ is_Some (ctx e) /\ ew_finish w = FNone /\ ew_ctxWaits w = false /\ closed e = true /\
      (done e = true -> ctx e = Some true /\ ew_logRing w = false)
  | SReturned None => started e = true /\ is_Some (ctx e) /\
      match ew_finish w with
      | FNone => False
      | FWaiting => done e = false /\ logUndo e = true
      | FClosing => done e = false /\ ew_logRing w = false /\ wg e = 0
      | FOver => done e = true /\ ew_logRing w = false /\ wg e = 0
      end
  end.

Record engine_inv (w : engineWorld) : Prop := {
  ei_wg : wg (ew_engine w) = Z.of_nat (tracked_count (ew_listeners w) + flag (ew_ctxWaits w));
  ei_phase : phase_ok w;
  ei_listeners : forall l x, ew_listeners w !! l = Some x -> listener_ok x;
  ei_new : match ew_start w with
           | STrack l _ | SAdd l _ => exists x, ew_listeners w !! l = Some x /\ l_tracked x = false
           | _ => True
           end;
}.

Lemma new_inv : engine_inv new_world.
Proof. split; [reflexivity|by unfold phase_ok; cbn; split_and!| |done]. intros l x Hx. cbn in Hx. by rewrite lookup_nil in Hx. Qed.

Definition keeps_engine (o : engineOutcome) : Prop := match o with EStuck => True | ECrash => False | ENext w => engine_inv w end.

(** Changes that leave the phases alone. *)
Lemma inv_listeners w g i : engine_inv w -> (forall x, l_tracked (g x) = l_tracked x) ->
  (forall x, listener_ok x -> listener_ok (g x)) -> engine_inv (put_listeners (alter g i) w).
Proof.
  intros [H1 H2 H3 H4] Ht Hg. split; cbn.
  - unfold tracked_count. rewrite sum_alter_same by (intros; by rewrite Ht). exact H1.
  - exact H2.
  - by apply lookup_alter_Some.
  - destruct (ew_start w) as [| |l plan|l plan| | | | | | | | |]; try done;
      destruct H4 as (x & Hx & Hxt); rewrite list_lookup_alter; destruct (decide _) as [->|];
      rewrite ?Hx; cbn; eexists; (split; [reflexivity|]); by rewrite ?Ht.
Qed.

Lemma inv_closes w f : engine_inv w -> engine_inv (put_closes f w).
Proof. intros [H1 H2 H3 H4]. by split. Qed.

Lemma inv_cancel w : engine_inv w -> engine_inv (put_engine cancel w).
Proof.
  intros [H1 H2 H3 H4]. split; [exact H1| |exact H3|exact H4].
  unfold phase_ok in *. cbn in *. destruct (ew_start w) as [| | | | | | | | | | | |[?|]]; cbn in *; destruct_and?; split_and?;
    rewrite ?fmap_is_Some; try done;
    repeat match goal with H : ctx _ = _ |- _ => rewrite H; clear H | H : is_Some (ctx _) |- _ => destruct H as [? H]; rewrite H; clear H end; try done.
  all: match goal with H : done _ = true -> _ |- _ => intros Hd; by destruct (H Hd) end.
Qed.

(** Goals of the form "the invariant holds after a change of the phases". *)
Ltac inv_split H := destruct H as [Hwg Hph Hls Hnew]; unfold phase_ok in Hph; cbn in *.

Lemma keeps_start plan w : plan <> Panic -> engine_inv w -> keeps_engine (start_begin plan w).
Proof.
  intros Hp H. unfold start_begin. destruct (started _ || closed _) eqn:E; [exact H|].
  apply orb_false_iff in E as [Es Ec]. inv_split H.
  assert (ew_start w = SIdle) as Hi by (destruct (ew_start w) as [| | | | | | | | | | | |[?|]]; destruct_and?; congruence).
  rewrite Hi in Hph. destruct_and?.
  destruct plan; [| |done]; (split; cbn; [done| |done|done]); unfold phase_ok; cbn; split_and!; eauto; congruence.
Qed.

Lemma keeps_stage s plan w : ew_start w = SRun (s :: plan) -> engine_inv w -> engine_inv (stage_ok s plan w).
Proof.
  intros Hs H. inv_split H. rewrite Hs in Hph. destruct_and?.
  assert (forall ls, tracked_count (ls ++ [newRuntimeListener]) = tracked_count ls) as Ht.
  { intros. unfold tracked_count. rewrite sum_list_with_app. cbn. lia. }
  destruct s; (split; cbn; [by rewrite ?Ht|unfold phase_ok; cbn; by split_and!| |]); try done.
  all: try (intros l x Hx; rewrite lookup_app in Hx; destruct (ew_listeners w !! l) eqn:El; [simplify_eq; by eapply Hls|];
    rewrite list_lookup_singleton_Some in Hx; destruct Hx as [_ <-]; by intros [=]).
  all: eexists; (split; [by rewrite lookup_app_r, Nat.sub_diag by lia|done]).
Qed.

Lemma inv_closed w : engine_inv w -> started (ew_engine w) = true -> engine_inv (put_engine set_closed w).
Proof.
  intros H Hs. inv_split H. split; cbn; [done| |done|done]. unfold phase_ok. cbn.
  destruct (ew_start w) as [| | | | | | | | | | | |[?|]]; cbn in *; destruct_and?; split_and?; done || congruence.
Qed.

Lemma keeps_abort t w : engine_inv w -> keeps_engine (abort_step t w).
Proof.
  intros H. pose proof H as H0. inv_split H0. unfold abort_step.
  destruct (ew_start w) as [| | | |err|err ls u|err ls u|err ls u|err u|err u|err| |] eqn:Es; try done; destruct_and?.
  - destruct (closed (ew_engine w)) eqn:Ec; (split; cbn; [done| |done|done]); unfold phase_ok; cbn; split_and!; try done. congruence.
  - split; cbn; [done| |done|done]. unfold phase_ok. cbn. split_and!; try done.
    match goal with H : is_Some _ |- _ => destruct H as [? ->] end. done.
  - destruct (negb _ || _ || _); [|done]. split; cbn; [done| |done|done]. unfold phase_ok. cbn. by split_and!.
  - destruct ls as [|l ls].
    + split; cbn; [done| |done|done]. unfold phase_ok. cbn. by split_and!.
    + assert (engine_inv (put_listeners (alter listener_Close l) w)) as [J1 J2 J3 J4] by (by apply inv_listeners).
      split; cbn; [done| |done|done]. unfold phase_ok. cbn. by split_and!.
  - destruct ((_ =? 0) || t); [|done]. split; cbn; [done| |done|done]. unfold phase_ok. cbn. by split_and!.
  - subst u. split; cbn; [done| |done|done]. unfold phase_ok. cbn. by split_and!.
  - unfold close_done. match goal with H : done _ = false |- _ => rewrite H end. cbn.
    split; cbn; [done| |done|done]. unfold phase_ok. cbn. split_and!; eauto.
Qed.

Lemma keeps_close k t w : engine_inv w -> keeps_engine (close_step k t w).
Proof.
  intros H. unfold close_step. destruct (ew_closes w !! k) as [[|ls r|ls r|ls r|[|l ls]| |ok]|]; try done; cbn -[put_engine put_closes put_route].
  - destruct (closed (ew_engine w)) eqn:Ec; [by apply inv_closes|].
    destruct (started (ew_engine w)) eqn:Es; cbn -[put_engine put_closes].
    + apply inv_closes. apply (inv_closed w) in H as [H1 H2 H3 H4]; [|done]. by split.
    + inv_split H. assert (ew_start w = SIdle) as Hi by (destruct (ew_start w) as [| | | | | | | | | | | |[?|]]; destruct_and?; congruence).
      rewrite Hi in Hph. destruct_and?. unfold close_done. cbn. replace (done (ew_engine w)) with false by congruence.
      cbn. split; cbn; [done| |done|by rewrite Hi]. unfold phase_ok. cbn. rewrite Hi. cbn. by split_and!.
  - apply inv_closes. by apply inv_cancel.
  - destruct (negb _ || _ || _); [|done]. by apply inv_closes.
  - apply inv_closes. destruct r; [|done]. destruct H as [H1 H2 H3 H4]. by split.
  - by apply inv_closes.
  - apply inv_closes. by apply inv_listeners.
  - destruct (done _); [by apply inv_closes|]. destruct t; [by apply inv_closes|done].
Qed.

Lemma keeps_finish w : engine_inv w -> keeps_engine (finish_step w).
Proof.
  intros H. inv_split H. unfold finish_step.
  assert (ew_finish w <> FNone -> ew_start w = SReturned None) as Hret.
  { intros Hf. destruct (ew_start w) as [| | | | | | | | | | | |[?|]]; destruct_and?; done. }
  destruct (ew_finish w) eqn:Ef; try done; rewrite (Hret ltac:(done)) in Hph, Hnew; destruct_and?.
  - destruct (Z.eqb_spec (wg (ew_engine w)) 0); [|done].
    match goal with H : logUndo _ = true |- _ => rewrite H end. split; cbn; [done| |done|by rewrite Hret].
    unfold phase_ok. cbn. rewrite Hret by done. by split_and!.
  - unfold close_done. match goal with H : done _ = false |- _ => rewrite H end. cbn.
    split; cbn; [done| |done|by rewrite Hret]. unfold phase_ok. cbn. rewrite Hret by done. by split_and!.
Qed.

Lemma keeps_tracked l x w : engine_inv w -> ew_listeners w !! l = Some x -> l_tracked x = true -> l_done x = true ->
  keeps_engine (then_ (wg_Done w) (put_listeners (alter (track false) l))).
Proof.
  intros H Hx Ht Hd. inv_split H. unfold wg_Done.
  assert (tracked_count (alter (track false) l (ew_listeners w)) + 1 = tracked_count (ew_listeners w))%nat as Hsum.
  { pose proof (sum_alter (fun x => flag (l_tracked x)) (track false) l _ x Hx) as Hs. cbn in Hs. rewrite Ht in Hs. unfold tracked_count. cbn in *. lia. }
  replace (wg (ew_engine w) <=? 0) with false by (symmetry; apply Z.leb_gt; lia). cbn.
  split; cbn; [lia| | |].
  - unfold phase_ok. cbn. destruct (ew_start w) as [| | | | | | | | | | | |[?|]]; cbn in *; try done.
    destruct Hph as (? & ? & Hf). split_and!; try done. destruct (ew_finish w); try done; destruct_and?; lia.
  - apply lookup_alter_Some; [done|]. by intros.
  - destruct (ew_start w) as [| |l' plan|l' plan| | | | | | | | |]; try done;
      destruct Hnew as (y & Hy & Hyt); rewrite list_lookup_alter; destruct (decide _) as [->|]; simplify_eq; rewrite ?Hy; cbn; eauto.
Qed.

Lemma keeps_ctx_waits w : engine_inv w -> ew_ctxWaits w = true -> keeps_engine (then_ (wg_Done w) (put_ctxWaits false)).
Proof.
  intros H Hc. inv_split H. rewrite Hc in Hwg. cbn in Hwg. unfold wg_Done.
  replace (wg (ew_engine w) <=? 0) with false by (symmetry; apply Z.leb_gt; lia). cbn. split; cbn; [lia| |done|done].
  unfold phase_ok. cbn. destruct (ew_start w) as [| | | | | | | | | | | |[?|]]; cbn in *; destruct_and?; try congruence.
  split_and!; try done. destruct (ew_finish w); try done; destruct_and?; lia.
Qed.

(** The plan of a validated configuration. *)
Definition planned (a : engineAction) : Prop := match a with EStart plan => plan <> Panic | _ => True end.

Lemma inv_finish w err l : engine_inv w -> engine_inv (put_listeners (alter (finish err) l) w).
Proof. intros H. apply inv_listeners; [done|..]; intros x; unfold finish, listener_ok; by destruct (l_done x). Qed.

Lemma keeps_step a w : planned a -> engine_inv w -> keeps_engine (engine_step a w).
Proof.
  intros Ha H. destruct a as [|plan|r canceled| | |t| | |k t|err| |l|l|l err|l|l| | |]; cbn [engine_step].
  - apply inv_cancel. destruct H as [H1 H2 H3 H4]. by split.
  - by apply keeps_start.
  - destruct (ew_start w) as [|[|s plan]| | | | | | | | | | |] eqn:Es; try done.
    + destruct r; [done|]. inv_split H. rewrite Es in Hph. split; cbn; [done|exact Hph|done|done].
    + destruct r as [err|]; [|pose proof (keeps_stage s plan w Es H) as Hk; by destruct s].
      assert (engine_inv (put_start (SFailed (stage_error s canceled err)) w)) as Hf.
      { inv_split H. rewrite Es in Hph. split; cbn; [done|exact Hph|done|done]. }
      by destruct s.
  - destruct (ew_start w) as [| |l plan| | | | | | | | | |] eqn:Es; try done. inv_split H. rewrite Es in Hph, Hnew.
    split; cbn; [done|exact Hph|done|exact Hnew].
  - destruct (ew_start w) as [| | |l plan| | | | | | | | |] eqn:Es; try done. inv_split H. rewrite Es in Hph, Hnew.
    destruct Hnew as (x & Hx & Ht).
    assert (tracked_count (alter (track true) l (ew_listeners w)) = tracked_count (ew_listeners w) + 1)%nat as Hsum.
    { pose proof (sum_alter (fun x => flag (l_tracked x)) (track true) l _ x Hx) as Hs. cbn in Hs. rewrite Ht in Hs.
      unfold tracked_count. cbn in *. lia. }
    split; cbn; [lia|exact Hph| |done]. apply lookup_alter_Some; [done|]. by intros.
  - by apply keeps_abort.
  - destruct (ew_start w) eqn:Es; try done. inv_split H. rewrite Es in Hph. destruct_and?.
    match goal with H : ew_ctxWaits w = false |- _ => rewrite H in Hwg end. split; cbn in *; [lia| |done|done].
    unfold phase_ok. cbn. by split_and!.
  - by apply inv_closes.
  - by apply keeps_close.
  - destruct (started (ew_engine w)) eqn:Es; [|done]. inv_split H. split; cbn; [done| |done|done]. unfold phase_ok. cbn.
    destruct (ew_start w) as [| | | | | | | | | | | |[?|]]; cbn in *; destruct_and?; try done; congruence.
  - destruct (ew_fatals w) as [|n] eqn:Ef; [done|].
    assert (engine_inv (put_fatals n (put_engine cancel w))) as Hf; [|exact Hf].
    assert (ew_start w <> SIdle) as Hni by (inv_split H; intros E; rewrite E in Hph; destruct_and?; congruence).
    apply inv_cancel in H. inv_split H. split; cbn; [done| |done|done]. unfold phase_ok. cbn.
    by destruct (ew_start w) as [| | | | | | | | | | | |[?|]].
  - destruct (ew_listeners w !! l); [|done]. destruct (_ && _); [|done]. apply inv_listeners; [done|done|]. by intros x _.
  - destruct (ew_listeners w !! l); [|done]. destruct (_ && _); [|done]. by apply inv_finish.
  - destruct (ew_listeners w !! l) as [y|]; [|done]. destruct (l_done y); [done|]. by apply inv_finish.
  - destruct (ew_listeners w !! l); [|done]. destruct (_ && _); [|done]. by apply inv_finish.
  - destruct (ew_listeners w !! l) as [x|] eqn:Hx; [|done]. destruct (l_tracked x && l_done x) eqn:E; [|done].
    apply andb_true_iff in E as [Ht Hd]. by eapply keeps_tracked.
  - destruct (ew_ctxWaits w) eqn:E; [|done]. destruct (cancelled w); [|done]. by apply keeps_ctx_waits.
  - destruct (ew_pool w); try done. destruct (cancelled w); [|done]. destruct H as [H1 H2 H3 H4]. by split.
  - by apply keeps_finish.
Qed.

Lemma engine_keeps_run acts w : Forall planned acts -> engine_inv w -> keeps_engine (engine_run acts w).
Proof.
  intros Ha. revert w. induction Ha as [|a acts Hp _ IH]; intros w H; [exact H|]. cbn [engine_run].
  pose proof (keeps_step a w Hp H) as Hk. destruct (engine_step a w); [done|done|]. by apply IH.
Qed.

(** * Fatal errors *)

Definition fatal_of (a : engineAction) : option error := match a with EFatal err => Some err | _ => None end.

Lemma step_fatal a w w' : engine_step a w = ENext w' ->
  fatalErr (ew_engine w') = match fatalErr (ew_engine w), fatal_of a with Some e, _ => Some e | None, f => f end.
Proof.
  intros H. destruct a; cbn [engine_step fatal_of] in *;
    unfold start_begin, abort_step, close_step, finish_step, close_done, wg_Done, then_, stage_ok in H;
    repeat case_match; simplify_eq; cbn in *; try done; by repeat case_match.
Qed.

Lemma run_fatal acts w w' : engine_run acts w = ENext w' ->
  fatalErr (ew_engine w') = match fatalErr (ew_engine w) with Some e => Some e | None => head (omap fatal_of acts) end.
Proof.
  revert w. induction acts as [|a acts IH]; cbn [engine_run]; intros w H; [simplify_eq; by destruct (fatalErr _)|].
  destruct (engine_step a w) as [| |w1] eqn:E; try done. rewrite (IH _ H), (step_fatal _ _ _ E). csimpl.
  destruct (fatalErr (ew_engine w)); [done|]. by destruct (fatal_of a).
Qed.

(** C14: the engine never panics on its own channels and wait group, whatever the
    order in which [Start], [Close], failures of its servers and the end of the
    context interleave: [done] is closed at most once and the wait group never
    goes below zero.  [Wait] returns the first error that was reported. *)
Theorem engine_done_once (acts : list engineAction) (Hp : Forall planned acts) :
  match engine_run acts new_world with
  | ECrash => False
  | EStuck => True
  | ENext w => done (ew_engine w) = true -> Wait w = Some (head (omap fatal_of acts))
  end.
Proof.
  pose proof (engine_keeps_run acts new_world Hp new_inv) as H. destruct (engine_run acts new_world) as [| |w] eqn:E; [done|done|].
  intros Hd. unfold Wait. rewrite Hd. f_equal. by rewrite (run_fatal _ _ _ E).
Qed.

(** * Shutting down *)

(** The steps the engine takes on its own.  The context [abortStart] waits with is
    made by [Start] and has a deadline, so its end is one of them.  The end of the
    pool's goroutines is not (a dial in [refreshECH] may hold one of them, see
    [Dial.refresh_holds_dial]), nor is the end of a context given to [Close]. *)
Definition internal (a : engineAction) : bool :=
  match a with
  | EAbort _ | EClose _ false | EFatalCancel | ECtxClose _ | EServeEnd _ | ETracked _ | ECtxWaits | EFinish => true
  | _ => false
  end.

(** What may or may not happen while the engine shuts down. *)
Definition external (a : engineAction) : bool := match a with EPoolGone | EClose _ true => true | _ => false end.

(** [Start] was successful and the context is over, or it has failed and is
    cleaning up. *)
Definition down (w : engineWorld) : Prop :=
  match ew_start w with
  | SReturned None => cancelled w = true
  | AbCancel _ _ _ => True
  | AbPool _ _ _ | AbListeners _ _ _ | AbWait _ _ | AbUndo _ _ | AbDone _ => cancelled w = true
  | SReturned (Some _) => cancelled w = true /\ done (ew_engine w) = true
  | _ => False
  end.

Definition listener_work (x : runtimeListener) : nat := flag (l_ctxWaits x) + flag (negb (l_done x)) + flag (l_tracked x).

Definition start_work (s : startPhase) : nat :=
  match s with
  | AbCancel _ ls _ => 6 + length ls
  | AbPool _ ls _ => 5 + length ls
  | AbListeners _ ls _ => 4 + length ls
  | AbWait _ _ => 3
  | AbUndo _ _ => 2
  | AbDone _ => 1
  | _ => 0
  end.

Definition close_work (n : nat) (c : closePhase) : nat :=
  match c with
  | CCalled => 6 + n
  | CCancel ls _ => 5 + length ls
  | CPool ls _ => 4 + length ls
  | CRoute ls _ => 3 + length ls
  | CListeners ls => 2 + length ls
  | CWait => 1
  | CReturned _ => 0
  end.

Definition finish_work (f : finishPhase) : nat := match f with FWaiting => 2 | FClosing => 1 | _ => 0 end.

(** A bound on the steps that are left. *)
Definition work (w : engineWorld) : nat :=
  start_work (ew_start w) + finish_work (ew_finish w) + sum_list_with listener_work (ew_listeners w) + flag (ew_ctxWaits w) +
  (match ew_pool w with PUp => 1 | _ => 0 end) + sum_list_with (close_work (length (listeners (ew_engine w)))) (ew_closes w) + ew_fatals w.

(** What is left of a stopped engine: a call of [Close] has returned, or it waits
    for a pool that still runs, and the end of its context would let it go on. *)
Definition stopped (w : engineWorld) : Prop :=
  done (ew_engine w) = true /\ ew_logRing w = false /\ Forall (fun l => l_done l = true) (ew_listeners w) /\
  forall k c, ew_closes w !! k = Some c ->
    (exists ok, c = CReturned ok) \/
    ew_pool w = PUp /\ exists ls route w', c = CPool ls route /\ engine_step (EClose k true) w = ENext w'.

Lemma cancelled_ctx w : cancelled w = true <-> ctx (ew_engine w) = Some true.
Proof. unfold cancelled. by destruct (ctx _) as [[]|]. Qed.

Lemma down_same w w' : down w -> ew_start w' = ew_start w -> (cancelled w = true -> cancelled w' = true) ->
  (done (ew_engine w) = true -> done (ew_engine w') = true) -> down w'.
Proof. unfold down. intros H -> Hc Hd. destruct (ew_start w) as [| | | | | | | | | | | |[?|]]; intuition. Qed.

Lemma cancel_cancelled w : is_Some (ctx (ew_engine w)) -> cancelled (put_engine cancel w) = true.
Proof. intros [b E]. unfold cancelled. cbn. by rewrite E. Qed.

Lemma inv_ctx w : engine_inv w -> down w -> is_Some (ctx (ew_engine w)) /\ started (ew_engine w) = true.
Proof.
  intros H Hd. inv_split H. unfold down in Hd. destruct (ew_start w) as [| | | | | | | | | | | |[?|]]; destruct_and?; try done;
    match goal with H : ctx _ = Some _ |- _ => rewrite H | _ => idtac end; eauto.
Qed.

Lemma work_abort t w w' : engine_inv w -> down w -> abort_step t w = ENext w' -> (work w' < work w)%nat /\ down w'.
Proof.
  intros H Hd E. destruct (inv_ctx w H Hd) as [Hc _]. unfold abort_step in E. unfold down in Hd. unfold work.
  destruct (ew_start w) as [| | | |err|err ls u|err ls u|err [|l ls] u|err u|err u|err| |] eqn:Es; try done; simplify_eq;
    try (destruct (negb _ || _ || _); [|done]); try (destruct (_ || t); [|done]); simplify_eq; unfold down; cbn; try (split; [lia|done]).
  - split; [lia|]. by apply cancel_cancelled.
  - rewrite sum_alter_same by done. split; [lia|done].
  - destruct u; cbn; (split; [lia|done]).
  - unfold close_done in E. destruct (done _); [done|]. cbn in E. simplify_eq. cbn. split; [lia|done].
Qed.

Lemma work_close k t w w' : engine_inv w -> down w -> close_step k t w = ENext w' -> (work w' < work w)%nat /\ down w'.
Proof.
  intros H Hd E. destruct (inv_ctx w H Hd) as [Hc Hs]. unfold close_step in E. unfold work.
  destruct (ew_closes w !! k) as [c|] eqn:Ek; [|done].
  assert (forall c', (close_work (length (listeners (ew_engine w))) c' < close_work (length (listeners (ew_engine w))) c)%nat ->
    (sum_list_with (close_work (length (listeners (ew_engine w)))) (<[k:=c']> (ew_closes w)) <
     sum_list_with (close_work (length (listeners (ew_engine w)))) (ew_closes w))%nat) as Hk.
  { intros c' Hlt. pose proof (sum_insert (close_work (length (listeners (ew_engine w)))) c' k _ c Ek). lia. }
  destruct c as [|ls r|ls r|ls r|[|l ls]| |ok]; try done.
  - rewrite Hs in E. destruct (closed (ew_engine w)); cbn [negb] in E; simplify_eq; cbn.
    + specialize (Hk CWait ltac:(cbn; lia)). split; [lia|]. by eapply down_same.
    + specialize (Hk (CCancel (listeners (ew_engine w)) (routeEngine (ew_engine w))) ltac:(cbn; lia)). split; [lia|]. by eapply down_same.
  - simplify_eq. cbn. specialize (Hk (CPool ls r) ltac:(cbn; lia)). split; [lia|]. eapply down_same; [done|done| |done].
    intros _. by apply cancel_cancelled.
  - destruct (negb _ || _ || _); [|done]. simplify_eq. cbn. specialize (Hk (CRoute ls r) ltac:(cbn; lia)). split; [lia|]. by eapply down_same.
  - simplify_eq. specialize (Hk (CListeners ls) ltac:(cbn; lia)). destruct r; cbn; (split; [lia|]); by eapply down_same.
  - simplify_eq. cbn. specialize (Hk CWait ltac:(cbn; lia)). split; [lia|]. by eapply down_same.
  - simplify_eq. cbn. specialize (Hk (CListeners ls) ltac:(cbn; lia)). rewrite sum_alter_same by done. split; [lia|]. by eapply down_same.
  - assert (forall ok, (sum_list_with (close_work (length (listeners (ew_engine w)))) (<[k:=CReturned ok]> (ew_closes w)) <
     sum_list_with (close_work (length (listeners (ew_engine w)))) (ew_closes w))%nat) as Hr by (intros; apply Hk; cbn; lia).
    destruct (done _); [|destruct t; [|done]]; simplify_eq; cbn;
      [pose proof (Hr true)|pose proof (Hr false)]; (split; [lia|]); by eapply down_same.
Qed.

Lemma work_step a w w' : internal a || external a = true -> engine_inv w -> down w -> engine_step a w = ENext w' -> (work w' < work w)%nat /\ down w'.
Proof.
  intros Hi H Hd E. destruct (inv_ctx w H Hd) as [Hc Hs].
  destruct a as [|plan|r canceled| | |t| | |k t|err| |l|l|l err|l|l| | |]; try done; cbn [engine_step] in E.
  - by eapply work_abort.
  - by eapply work_close.
  - unfold work. destruct (ew_fatals w) as [|n] eqn:Ef; [done|]. simplify_eq. cbn. split; [lia|]. eapply down_same; [done|done| |done].
    intros _. by apply cancel_cancelled.
  - unfold work. destruct (ew_listeners w !! l) as [x|] eqn:Hx; [|done]. destruct (cancelled w && l_ctxWaits x) eqn:Eb; [|done].
    apply andb_true_iff in Eb as [Ec Ew]. simplify_eq. cbn. pose proof (sum_alter listener_work ctx_closes l _ x Hx) as Hsum.
    unfold listener_work in Hsum at 2 4. cbn in Hsum. rewrite Ew in Hsum. cbn in Hsum. split; [lia|]. by eapply down_same.
  - unfold work. destruct (ew_listeners w !! l) as [x|] eqn:Hx; [|done]. destruct (cancelled w && l_closing x && negb (l_done x)) eqn:Eb; [|done].
    apply andb_true_iff in Eb as [_ Ew%negb_true_iff]. simplify_eq. cbn. pose proof (sum_alter listener_work (finish None) l _ x Hx) as Hsum.
    unfold listener_work in Hsum at 2 4. unfold finish in Hsum at 2 3 4. rewrite Ew in Hsum. cbn in Hsum. split; [lia|]. by eapply down_same.
  - unfold work. destruct (ew_listeners w !! l) as [x|] eqn:Hx; [|done]. destruct (l_tracked x && l_done x) eqn:Eb; [|done].
    apply andb_true_iff in Eb as [Et _]. unfold wg_Done in E. destruct (_ <=? 0); [done|]. cbn in E. simplify_eq. cbn.
    pose proof (sum_alter listener_work (track false) l _ x Hx) as Hsum. unfold listener_work in Hsum at 2 4. cbn in Hsum. rewrite Et in Hsum.
    cbn in Hsum. split; [lia|]. by eapply down_same.
  - unfold work. destruct (ew_ctxWaits w) eqn:Ew; [|done]. cbn in E. destruct (cancelled w); [|done]. unfold wg_Done in E.
    destruct (_ <=? 0); [done|]. cbn in E. simplify_eq. cbn. split; [lia|]. by eapply down_same.
  - unfold work. destruct (ew_pool w); try done. destruct (cancelled w); [|done]. simplify_eq. cbn. split; [lia|]. by eapply down_same.
  - unfold work, finish_step in *. destruct (ew_finish w) eqn:Ef; try done.
    + destruct (_ =? 0); [|done]. simplify_eq. destruct (logUndo _); cbn; (split; [lia|]); by eapply down_same.
    + unfold close_done in E. destruct (done _); [done|]. cbn in E. simplify_eq. cbn. split; [lia|]. by eapply down_same.
Qed.

Lemma work_run acts w w' : Forall (fun a => internal a || external a = true) acts -> engine_inv w -> down w -> engine_run acts w = ENext w' ->
  (length acts + work w' <= work w)%nat /\ engine_inv w' /\ down w'.
Proof.
  intros Ha. revert w. induction Ha as [|a acts Hi _ IH]; cbn [engine_run length]; intros w H Hd E; [simplify_eq; split; [lia|done]|].
  pose proof (keeps_step a w ltac:(by destruct a) H) as Hk. destruct (engine_step a w) as [| |w1] eqn:E1; try done.
  destruct (work_step a w w1 Hi H Hd E1) as [Hlt Hd1]. destruct (IH w1 Hk Hd1 E) as [Hle Hr]. split; [lia|done].
Qed.

Lemma then_stuck o f : then_ o f = EStuck -> o = EStuck.
Proof. by destruct o. Qed.

Lemma idle_listener w l x : engine_inv w -> cancelled w = true -> (forall a, internal a = true -> engine_step a w = EStuck) ->
  ew_listeners w !! l = Some x -> l_done x = true /\ l_tracked x = false.
Proof.
  intros H Hc Hidle Hx.
  pose proof (Hidle (ECtxClose l) eq_refl) as H1. pose proof (Hidle (EServeEnd l) eq_refl) as H2. pose proof (Hidle (ETracked l) eq_refl) as H3.
  cbn [engine_step] in H1, H2, H3. rewrite Hx in H1, H2, H3. rewrite Hc in H1, H2. cbn in H1, H2.
  destruct (l_ctxWaits x) eqn:Ew; [done|]. rewrite (ei_listeners w H l x Hx Ew) in H2. destruct (l_done x); [|done].
  split; [done|]. destruct (l_tracked x); [|done]. cbn in H3. apply then_stuck in H3. unfold wg_Done in H3. by destruct (_ <=? 0).
Qed.

Lemma tracked_none ls : (forall l x, ls !! l = Some x -> l_tracked x = false) -> tracked_count ls = 0%nat.
Proof.
  unfold tracked_count. induction ls as [|x ls IH]; intros H; [done|]. cbn. rewrite (H 0%nat x eq_refl). apply IH. intros l y Hy. by apply (H (S l)).
Qed.

Lemma idle_stopped w : engine_inv w -> down w -> (forall a, internal a = true -> engine_step a w = EStuck) -> stopped w.
Proof.
  intros H Hd Hidle. destruct (inv_ctx w H Hd) as [_ Hs].
  pose proof (Hidle (EAbort true) eq_refl) as Ha. cbn [engine_step] in Ha. unfold abort_step in Ha.
  assert (cancelled w = true /\ exists r, ew_start w = SReturned r) as (Hc & r & Hr).
  { unfold down in Hd. destruct (ew_start w) as [| | | |err|err ls u|err ls u|err [|l ls] u|err u|err u|err| |[err|]] eqn:Es; try done;
      rewrite ?orb_true_r in Ha; try done; [|by destruct Hd; eauto|by eauto].
    apply then_stuck in Ha. unfold close_done in Ha. by destruct (done _). }
  assert (ew_ctxWaits w = false) as Hcw.
  { destruct (ew_ctxWaits w) eqn:E; [|done]. pose proof (Hidle ECtxWaits eq_refl) as Hx. cbn [engine_step] in Hx. rewrite E, Hc in Hx.
    apply then_stuck in Hx. unfold wg_Done in Hx. by destruct (_ <=? 0). }
  assert (wg (ew_engine w) = 0) as Hwg.
  { rewrite (ei_wg w H), Hcw, tracked_none; [done|]. intros l x Hx. by eapply idle_listener. }
  assert (done (ew_engine w) = true /\ ew_logRing w = false) as [Hdone Hlog].
  { pose proof (Hidle EFinish eq_refl) as Hf. pose proof (ei_phase w H) as Hph. cbn [engine_step] in Hf.
    unfold finish_step in Hf. unfold phase_ok in Hph. unfold down in Hd. rewrite Hr in Hph, Hd. destruct r; [by destruct_and?; intuition|].
    destruct Hph as (_ & _ & Hph). destruct (ew_finish w); [done| | |by destruct_and?].
    - rewrite Hwg in Hf. done.
    - apply then_stuck in Hf. unfold close_done in Hf. by destruct (done _). }
  split_and!; [done|done| |].
  - apply Forall_lookup. intros l x Hx. by eapply idle_listener.
  - intros k c Hk. pose proof (Hidle (EClose k false) eq_refl) as Hcl. cbn [engine_step] in Hcl. unfold close_step in Hcl.
    rewrite Hk, Hdone, Hs in Hcl. cbn [negb] in Hcl. destruct c as [|ls r'|ls r'|ls r'|[|l ls]| |ok]; try done; [by destruct (closed _)| |by left; eauto].
    right. split; [unfold pool_gone in Hcl; destruct (ew_pool w); rewrite ?orb_true_r in Hcl; by cbn in Hcl|].
    eexists ls, r', _. split; [done|]. cbn [engine_step]. unfold close_step. rewrite Hk, orb_true_r. reflexivity.
Qed.

(** C13: the engine stops, whether or not its pool does.  Once it is up and its
    context is over (by a [Close], the end of the parent, or a fatal error), and
    also when a failed start cleans up, every order of its goroutines' steps ends
    after at most [work w] of them, the end of the pool and of the contexts given
    to [Close] among them or not.  When the engine has none left to take on its
    own, [done] is closed, so that [Wait] returns, the log output is the old one
    and every listener has stopped; and every call of [Close] has returned, except
    those that still wait for a pool that has not ended ([WaitDone]), which go on
    when their context does. *)
Theorem engine_stops (acts : list engineAction) (w : engineWorld) (Hp : Forall planned acts)
    (Hw : engine_run acts new_world = ENext w) (Hdown : down w) :
  forall more w', Forall (fun a => internal a || external a = true) more -> engine_run more w = ENext w' ->
  (length more <= work w)%nat /\ ((forall a, internal a = true -> engine_step a w' = EStuck) -> stopped w').
Proof.
  intros more w' Hm E. pose proof (engine_keeps_run acts new_world Hp new_inv) as H. rewrite Hw in H. cbn in H.
  destruct (work_run more w w' Hm H Hdown E) as (Hle & Hi & Hd). split; [lia|]. by apply idle_stopped.
Qed.

(** * A [Close] during a start that fails *)

(** [Start] came back with an error after a [Close] had set [closed]. *)
Definition abandoned (w : engineWorld) : Prop :=
  started (ew_engine w) = true /\ closed (ew_engine w) = true /\ done (ew_engine w) = false /\ ew_finish w = FNone /\
  ew_logRing w = true /\ exists e, ew_start w = SReturned (Some e).

Lemma abandoned_step a w w' : abandoned w -> engine_step a w = ENext w' -> abandoned w'.
Proof.
  unfold abandoned. intros (H1 & H2 & H3 & H4 & H5 & e & H6) E.
  assert (forall c, close_done c = (if done (ew_engine c) then ECrash else ENext (put_engine set_done c))) as Hcd by done.
  destruct a; cbn [engine_step] in E;
    unfold start_begin, abort_step, close_step, finish_step, wg_Done, then_, stage_ok in E; rewrite ?H1, ?H2, ?H3, ?H4, ?H6 in E;
    cbn [orb negb] in E; repeat case_match; simplify_eq; cbn; try done; by split_and!; eauto.
Qed.

Lemma abandoned_run acts w w' : abandoned w -> engine_run acts w = ENext w' -> abandoned w'.
Proof.
  revert w. induction acts as [|a acts IH]; cbn [engine_run]; intros w H E; [by simplify_eq|].
  destruct (engine_step a w) as [| |w1] eqn:E1; try done. eapply IH; [|done]. by eapply abandoned_step.
Qed.

(** A [Close] that overtakes a start which then fails leaves the engine hanging:
    [abortStart] returns early because [closed] is set, and nobody is left to close
    [done].  From then on no sequence of steps lets [Wait] return, and the log
    output stays redirected. *)
Definition close_during_start (err : error) : list engineAction :=
  [EStart (Ok [StPool; StControl]); EStage None false; ECallClose; EClose 0 false; EStage (Some err) false; EAbort false].

Theorem close_during_failed_start_hangs (err : error) :
  exists w, engine_run (close_during_start err) new_world = ENext w /\
    forall acts w', engine_run acts w = ENext w' -> Wait w' = None /\ ew_logRing w' = true.
Proof.
  eexists. split; [vm_compute; reflexivity|]. intros acts w' E. eapply abandoned_run in E.
  - destruct E as (_ & _ & Hd & _ & Hl & _). unfold Wait. by rewrite Hd.
  - unfold abandoned. cbn. split_and!; eauto.
Qed.

(** A start that fails after the route engine was set up leaves it behind: the
    global [routeRT] still uses it and its watcher still runs. *)
Theorem failed_start_keeps_route (err : error) :
  exists w, engine_run ([EStart (Ok [StRoute; StPool; StControl]); EStage None false; EStage None false; EStage (Some err) false] ++
      [EAbort false; EAbort false; EAbort true; EAbort false; EAbort false; EAbort false; EAbort false]) new_world = ENext w /\
    done (ew_engine w) = true /\ ew_routeRT w = true /\ ew_routeOpen w = true.
Proof. eexists. split; [vm_compute; reflexivity|]. done. Qed.

(** [startRuntime] never panics; with a start-up configuration it has a plan, in
    which the ready file comes last and after the control server, so it is
    written only when every listener is bound. *)
Theorem startRuntime_planned (v : Config.runtimeValues) (st : Config.startupConfig) (o : RuntimeOptions) : exists plan : list stage,
  startRuntime v (Some st) o = Ok plan /\
  forall before after, plan = before ++ StReadyFile :: after -> after = [] /\ last before = Some StControl.
Proof.
  assert (forall p, StReadyFile ∉ p -> forall before after, p ++ startControl o = before ++ StReadyFile :: after ->
    after = [] /\ last before = Some StControl) as Hlast.
  { intros p Hp before after E. unfold startControl in E.
    assert (forall q, p ++ q = before ++ StReadyFile :: after -> exists k, before = p ++ k /\ q = k ++ StReadyFile :: after) as Hk.
    { clear E. revert before. induction p as [|x p IH]; intros before q E; cbn in E; [by exists before|].
      apply not_elem_of_cons in Hp as [Hx Hp]. destruct before as [|y before]; injection E as -> E2; [done|].
      destruct (IH Hp _ _ E2) as (k & -> & ->). by exists k. }
    destruct (Hk _ E) as (k & -> & E'). clear E. rename E' into E. destruct (is_empty _); [by destruct k|].
    destruct k as [|y k]; simplify_eq/=. destruct (is_empty _); [by destruct k|].
    destruct k as [|y k]; simplify_eq/=; [|by destruct k]. split; [done|]. by rewrite last_snoc. }
  assert (forall ls, StReadyFile ∉ map StListener ls) as Hm.
  { intros ls Hin. apply list_elem_of_fmap in Hin as (x & ? & _). done. }
  unfold startRuntime. destruct (Config.st_IsServer st); eexists; (split; [reflexivity|]); intros before after E;
    rewrite ?(assoc_L (++)) in E; refine (Hlast _ _ before after E); clear - Hm;
    rewrite ?not_elem_of_app; split_and?; try apply Hm;
    repeat match goal with |- context [if ?b then _ else _] => destruct b end; rewrite ?not_elem_of_cons; split_and?; first [apply not_elem_of_nil|done].
Qed.

(** * Examples *)

(** A client with one listener comes up, its server fails, and the engine stops. *)
Definition demo_up : list engineAction :=
  [EStart (Ok [StPool; StListener (Config.mkListener (bs "http://127.0.0.1:8080") (bs "http"))]); EStage None false; EStage None false;
   ETrack; EAdd; EStage None false; EUp; ECallClose; EFatal (Errorf "first" []); EFatal (Errorf "second" []); EFatalCancel].

Definition demo_down : list engineAction :=
  [EClose 0 false; EClose 0 false; EFatalCancel; ECtxClose 0; EServeEnd 0; ETracked 0; ECtxWaits; EFinish; EFinish].

Lemma demo_planned : Forall planned (demo_up ++ demo_down).
Proof. repeat constructor. by intros [=]. Qed.

Lemma engine_done_once_witness :
  match engine_run (demo_up ++ demo_down) new_world with
  | ENext w => Wait w = Some (Some (Errorf "first" []))
  | _ => False
  end.
Proof.
  pose proof (engine_done_once (demo_up ++ demo_down) demo_planned) as H.
  assert (match engine_run (demo_up ++ demo_down) new_world with ENext w => done (ew_engine w) = true | _ => False end) as E by (vm_compute; reflexivity).
  destruct (engine_run (demo_up ++ demo_down) new_world); [done|done|]. exact (H E).
Defined.

(** The pool never ends: the engine stops all the same, and the call of [Close]
    waits for the end of its context. *)
Lemma engine_stops_witness :
  match engine_run (demo_up ++ demo_down) new_world with
  | ENext w' => stopped w' /\ ew_pool w' = PUp /\ ew_closes w' = [CPool [0%nat] false]
  | _ => False
  end.
Proof.
  destruct (engine_run demo_up new_world) as [| |w] eqn:E; [by vm_compute in E|by vm_compute in E|].
  assert (match engine_run demo_up new_world with ENext w => down w | _ => False end) as Hd by (vm_compute; reflexivity).
  rewrite E in Hd.
  assert (exists w', engine_run demo_down w = ENext w' /\ engine_run (demo_up ++ demo_down) new_world = ENext w' /\
            ew_pool w' = PUp /\ ew_closes w' = [CPool [0%nat] false] /\
            (forall a, internal a = true -> engine_step a w' = EStuck)) as (w' & Hw' & Hall & Hpool & Hcl & Hidle).
  { vm_compute in E. injection E as <-. eexists. split; [vm_compute; reflexivity|]. split; [vm_compute; reflexivity|].
    split; [reflexivity|]. split; [reflexivity|]. intros [|plan|r canceled| | |t| | |[|k] [|]|err| |[|l]|[|l]|[|l] err|[|l]|[|l]| | |]; done. }
  rewrite Hall. split; [|by split].
  destruct (engine_stops demo_up w (proj1 (proj1 (Forall_app _ _ _) demo_planned)) E Hd demo_down w') as [_ H]; [repeat constructor|done|].
  exact (H Hidle).
Defined.
