(* ===== verification/LogRing.v ===== *)
(** The log ring: internal/app/logring.go, the redaction of status.go and the log
    stream of control.go.  The ring keeps the last entries in a slice that is
    written round and round; [contents] is what it holds, oldest first. *)

From Stdlib Require Import ZArith Lia Strings.Byte.
From stdpp Require Import base numbers list sorting.
From S2P Require Import Prelude GoStrings GoNet NetAddr GoTime Policy.

Local Open Scope Z_scope.
Local Open Scope go_scope.

(** * Redaction *)

(** [url.Parse] of a text, as far as the redaction looks at it, and the text with
    another user: [None] when it is no URL or has no user, else whether the user
    has a password. *)
Class GoUserInfo := {
  url_userinfo : bytes -> option bool;
  url_with_user : bytes -> bytes * option bytes -> bytes;
}.

Section Redact.
Context `{U : GoUnicode} {I : GoUserInfo}.

Definition redacted : bytes := bs "redacted".

Definition redactURLUserInfo (value : bytes) : bytes :=
  match url_userinfo value with
  | None => value
  | Some true => url_with_user value (redacted, Some redacted)
  | Some false => url_with_user value (redacted, None)
  end.

Definition redactConfigValue (value : bytes) : bytes :=
  if is_empty value then value
  else Join (map (fun part => redactURLUserInfo (TrimSpace part)) (Split value c_comma)) c_comma.

(** * The ring *)

Record LogEntry : Type := mkEntry {
  le_ID : Z; le_Time : Time; le_Level : bytes; le_Component : bytes; le_Message : bytes;
}.

Definition zeroEntry : LogEntry := mkEntry 0 zeroTime [] [] [].

Record LogRing : Type := mkRing { r_entries : list LogEntry; r_next : Z; r_full : bool; r_seq : Z }.

Definition NewLogRing (limit : Z) : LogRing :=
  let limit := if limit <=? 0 then 256 else limit in
  mkRing (replicate (Z.to_nat limit) zeroEntry) 0 false 0.

(** What stands in brackets at the start of a message. *)
Definition component_of (message : bytes) : bytes :=
  if HasPrefix message (bs "[") then
    let end_ := IndexByte message c_rbrack in
    if 1 <? end_ then take (Z.to_nat end_ - 1) (drop 1 message) else []
  else [].

(** [now] is the clock, read when an entry is made. *)
Definition new_entry (now : Z -> Time) (id : Z) (message : bytes) : LogEntry :=
  let text := redactConfigValue message in mkEntry id (now id) (bs "info") (component_of text) text.

Definition ring_Add (now : Z -> Time) (message : bytes) (r : LogRing) : res LogRing :=
  let message := TrimSpace message in
  if is_empty message then Ok r else
  let seq := wrapU 64 (r_seq r + 1) in
  if (0 <=? r_next r) && (r_next r <? len (r_entries r)) then
    let next := Z.rem (r_next r + 1) (len (r_entries r)) in
    Ok (mkRing (<[Z.to_nat (r_next r) := new_entry now seq message]> (r_entries r)) next (r_full r || (next =? 0)) seq)
  else Panic.

(** The number of entries and the first one. *)
Definition ring_window (r : LogRing) : Z * Z := if r_full r then (len (r_entries r), r_next r) else (r_next r, 0).

Definition ring_get (r : LogRing) (start i : Z) : res LogEntry :=
  match r_entries r !! Z.to_nat (Z.rem (start + i) (len (r_entries r))) with Some e => Ok e | None => Panic end.

Fixpoint ring_range (r : LogRing) (start i : Z) (n : nat) : res (list LogEntry) :=
  match n with
  | O => Ok []
  | S n => let! e := ring_get r start i in let! es := ring_range r start (i + 1) n in Ok (e :: es)
  end.

Definition Entries (limit : Z) (r : LogRing) : res (list LogEntry) :=
  let '(count, start) := ring_window r in
  let limit := if (limit <=? 0) || (count <? limit) then count else limit in
  ring_range r start (count - limit) (Z.to_nat limit).

(** The last [n] of a list. *)
Definition last_n {A} (n : nat) (l : list A) : list A := drop (length l - n) l.

Definition EntriesSince (after limit : Z) (r : LogRing) : res (list LogEntry) :=
  let '(count, start) := ring_window r in
  let! es := ring_range r start 0 (Z.to_nat count) in
  let out := List.filter (fun e => after <? le_ID e) es in
  Ok (if (0 <? limit) && (limit <? len out) then last_n (Z.to_nat limit) out else out).

(** * The writer behind [log.SetOutput] *)

Record logRingWriter : Type := mkRingWriter {
  lw_ring : LogRing; lw_buf : bytes; lw_next : bytes; lw_sink : list bytes;
}.

Definition newline : byte := z2b 10.

(** [buf.ReadString('\n')] until it fails: the lines with their newlines, and
    what goes back into the buffer. *)
Fixpoint read_lines (line buf : bytes) : list bytes * bytes :=
  match buf with
  | [] => ([], reverse line)
  | c :: buf =>
      if chr newline c then let '(ls, rest) := read_lines [] buf in (reverse (c :: line) :: ls, rest)
      else read_lines (c :: line) buf
  end.

Fixpoint add_lines (now : Z -> Time) (ls : list bytes) (r : LogRing) : res LogRing :=
  match ls with
  | [] => Ok r
  | l :: ls => let! r := ring_Add now l r in add_lines now ls r
  end.

Definition ring_Write (now : Z -> Time) (p : bytes) (w : logRingWriter) : res (logRingWriter * Z) :=
  let '(ls, rest) := read_lines [] (lw_buf w ++ p) in
  let! r := add_lines now ls (lw_ring w) in
  Ok (mkRingWriter r rest (lw_next w ++ p) (lw_sink w ++ List.filter (fun l => negb (is_empty l)) (map TrimSpace ls)), len p).

Fixpoint ring_Writes (now : Z -> Time) (ps : list bytes) (w : logRingWriter) : res logRingWriter :=
  match ps with
  | [] => Ok w
  | p :: ps => let! (w, _) := ring_Write now p w in ring_Writes now ps w
  end.

(** * The log stream of the control server *)

(** [sendEntries] of [handleLogsStream]: the cursor and what is sent; an entry
    that cannot be encoded is skipped. *)
Fixpoint send_loop (marshal : LogEntry -> option bytes) (cursor : Z) (es : list LogEntry) : Z * list (Z * bytes) :=
  match es with
  | [] => (cursor, [])
  | e :: es =>
      let '(c, sent) := send_loop marshal (le_ID e) es in
      (c, match marshal e with Some data => (le_ID e, data) :: sent | None => sent end)
  end.

Definition sendEntries (marshal : LogEntry -> option bytes) (cursor limit : Z) (r : LogRing) : res (Z * list (Z * bytes)) :=
  let! es := EntriesSince cursor limit r in Ok (send_loop marshal cursor es).

(** The stream over the rings it meets, at first and at every tick. *)
Fixpoint log_stream (marshal : LogEntry -> option bytes) (cursor limit : Z) (rs : list LogRing) : res (list (Z * bytes)) :=
  match rs with
  | [] => Ok []
  | r :: rs =>
      let! (cursor, sent) := sendEntries marshal cursor limit r in
      let! more := log_stream marshal cursor limit rs in
      Ok (sent ++ more)
  end.

(** The query parameters of [handleLogsStream] and [handleLogs]. *)
Definition ParseUint64 (s : bytes) : option Z :=
  if is_empty s then None else
  match atoi_digits s 0 with
  | Some z => if z <? 2 ^ 64 then Some z else None
  | None => None
  end.

Definition stream_cursor (raw : bytes) : Z := default 0 (ParseUint64 raw).
Definition stream_limit (raw : bytes) : Z :=
  match Atoi raw with Some n => if (0 <? n) && (n <=? 1000) then n else 200 | None => 200 end.
Definition logs_limit (raw : bytes) : Z := match Atoi raw with Some n => if 0 <? n then n else 100 | None => 100 end.

End Redact.

(** * The ring as a list *)

(** What the ring holds, oldest first. *)
Definition contents (r : LogRing) : list LogEntry :=
  let k := Z.to_nat (r_next r) in
  if r_full r then drop k (r_entries r) ++ take k (r_entries r) else take k (r_entries r).

(** A ring of [n] places with an index in range. *)
Definition ring_ok (n : nat) (r : LogRing) : Prop := length (r_entries r) = n /\ 0 <= r_next r < Z.of_nat n.

Lemma last_n_all {A} n (l : list A) : (length l <= n)%nat -> last_n n l = l.
Proof. intros. unfold last_n. by replace (length l - n)%nat with 0%nat by lia. Qed.

Lemma last_n_length {A} n (l : list A) : length (last_n n l) = (length l `min` n)%nat.
Proof. unfold last_n. rewrite length_drop. lia. Qed.

Lemma last_n_last_n {A} m n (l : list A) : last_n m (last_n n l) = last_n (m `min` n) l.
Proof. unfold last_n. rewrite drop_drop, length_drop. f_equal. lia. Qed.

Lemma last_n_app {A} n (l hs : list A) : last_n n (last_n n l ++ hs) = last_n n (l ++ hs).
Proof.
  unfold last_n. rewrite !length_app, length_drop, !drop_app, drop_drop, length_drop.
  assert (length l - n + (length l - (length l - n) + length hs - n) = length l + length hs - n)%nat as -> by lia.
  by replace (length l - (length l - n) + length hs - n - (length l - (length l - n)))%nat with (length l + length hs - n - length l)%nat by lia.
Qed.

Lemma contents_length n r : ring_ok n r -> length (contents r) = if r_full r then n else Z.to_nat (r_next r).
Proof. intros [H1 H2]. unfold contents. destruct (r_full r); rewrite ?length_app, ?length_drop, ?length_take; lia. Qed.

(** The entries the loops visit are those of [contents]. *)
Lemma ring_get_contents n r i : ring_ok n r -> (i < length (contents r))%nat ->
  ring_get r (snd (ring_window r)) (Z.of_nat i) = match contents r !! i with Some e => Ok e | None => Panic end.
Proof.
  intros Hok Hi. pose proof (contents_length n r Hok) as Hl. destruct Hok as [H1 H2].
  unfold ring_get, ring_window, contents, len in *. rewrite H1.
  destruct (r_full r); cbn [snd].
  - rewrite Hl in Hi. destruct (decide (r_next r + Z.of_nat i < Z.of_nat n)).
    + rewrite Z.rem_small, lookup_app_l, lookup_drop by (rewrite ?length_drop; lia). by replace (Z.to_nat (r_next r) + i)%nat with (Z.to_nat (r_next r + Z.of_nat i)) by lia.
    + assert (Z.rem (r_next r + Z.of_nat i) (Z.of_nat n) = r_next r + Z.of_nat i - Z.of_nat n) as ->.
      { rewrite Z.rem_mod_nonneg by lia. symmetry. apply (Z.mod_unique _ _ 1); lia. }
      rewrite lookup_app_r, length_drop, lookup_take_lt by (rewrite ?length_drop; lia). by replace (Z.to_nat (r_next r + Z.of_nat i - Z.of_nat n)) with (i - (length (r_entries r) - Z.to_nat (r_next r)))%nat by lia.
  - rewrite Hl in Hi. rewrite Z.add_0_l, Z.rem_small, lookup_take_lt by lia. by rewrite Nat2Z.id.
Qed.

Lemma ring_range_contents n r i k : ring_ok n r -> (i + k <= length (contents r))%nat ->
  ring_range r (snd (ring_window r)) (Z.of_nat i) k = Ok (take k (drop i (contents r))).
Proof.
  intros Hok. revert i. induction k as [|k IH]; intros i Hi; cbn [ring_range]; [done|].
  rewrite (ring_get_contents n) by (done || lia). destruct (lookup_lt_is_Some_2 (contents r) i) as [e He]; [lia|]. rewrite He. cbn [res_bind].
  replace (Z.of_nat i + 1) with (Z.of_nat (S i)) by lia. rewrite IH by lia. cbn [res_bind]. by rewrite (drop_S _ _ _ He).
Qed.

Lemma window_count n r : ring_ok n r -> fst (ring_window r) = Z.of_nat (length (contents r)).
Proof. intros H. rewrite (contents_length n) by done. destruct H. unfold ring_window, len. destruct (r_full r); cbn; lia. Qed.

Lemma Entries_contents n limit r : ring_ok n r ->
  Entries limit r = Ok (last_n (if limit <=? 0 then length (contents r) else Z.to_nat limit) (contents r)).
Proof.
  intros Hok. unfold Entries. pose proof (window_count n r Hok) as Hc. pose proof (ring_range_contents n r) as Hr.
  destruct (ring_window r) as [count start]. cbn [fst snd] in *. subst count.
  set (m := length (contents r)) in *.
  assert (forall k, (k <= m)%nat -> ring_range r start (Z.of_nat m - Z.of_nat k) k = Ok (last_n k (contents r))) as Hk.
  { intros k Hk. replace (Z.of_nat m - Z.of_nat k) with (Z.of_nat (m - k)) by lia. rewrite Hr by (done || lia).
    f_equal. unfold last_n. fold m. apply take_ge. rewrite length_drop. fold m. lia. }
  destruct (Z.leb_spec limit 0); cbn [orb]; [by rewrite Nat2Z.id, Hk|].
  destruct (Z.ltb_spec (Z.of_nat m) limit); [|by rewrite <- Hk by lia; f_equal; lia].
  rewrite Nat2Z.id, Hk by lia. by rewrite !last_n_all by (unfold m in *; lia).
Qed.

Lemma EntriesSince_contents n after limit r : ring_ok n r ->
  EntriesSince after limit r =
  Ok (let out := List.filter (fun e => after <? le_ID e) (contents r) in if 0 <? limit then last_n (Z.to_nat limit) out else out).
Proof.
  intros Hok. unfold EntriesSince. pose proof (window_count n r Hok) as Hc. pose proof (ring_range_contents n r 0) as Hr.
  destruct (ring_window r) as [count start]. cbn [fst snd] in *. subst count. rewrite Nat2Z.id, Hr by (done || lia). cbn [res_bind].
  rewrite drop_0, take_ge by lia. f_equal. destruct (Z.ltb_spec 0 limit); cbn [andb]; [|done].
  destruct (Z.ltb_spec limit (len (List.filter (fun e => after <? le_ID e) (contents r)))); [done|].
  symmetry. apply last_n_all. unfold len in *. lia.
Qed.

Section RingClaims.
Context `{U : GoUnicode} {I : GoUserInfo}.

Lemma contents_put n r e : ring_ok n r ->
  let next := Z.rem (r_next r + 1) (len (r_entries r)) in
  let r' := mkRing (<[Z.to_nat (r_next r) := e]> (r_entries r)) next (r_full r || (next =? 0)) (r_seq r) in
  ring_ok n r' /\ contents r' = last_n n (contents r ++ [e]).
Proof.
  intros Hok next r'. pose proof (contents_length n r Hok) as Hl. destruct Hok as [H1 H2].
  set (k := Z.to_nat (r_next r)) in *.
  assert (take (S k) (<[k := e]> (r_entries r)) = take k (r_entries r) ++ [e]) as Htake.
  { rewrite (take_S_r _ _ e) by (apply list_lookup_insert_eq; lia). by rewrite take_insert_ge by lia. }
  assert (ring_ok n r') as Hok'.
  { unfold ring_ok, r'. cbn. rewrite length_insert. unfold next, len. rewrite H1. pose proof (Z.rem_bound_pos (r_next r + 1) (Z.of_nat n)). lia. }
  split; [done|]. unfold last_n. rewrite length_app, Hl. cbn [length].
  assert (next = if decide (r_next r + 1 = Z.of_nat n) then 0 else r_next r + 1) as Hnext.
  { unfold next, len. rewrite H1. destruct (decide _) as [->|]; [apply Z.rem_same; lia|apply Z.rem_small; lia]. }
  unfold contents, r'. cbn [r_next r_full r_entries]. rewrite Hnext. destruct (decide (r_next r + 1 = Z.of_nat n)) as [E|E].
  - rewrite Z.eqb_refl, orb_true_r. change (Z.to_nat 0) with 0%nat. rewrite drop_0, take_0, app_nil_r.
    rewrite <- (take_ge (<[k:=e]> (r_entries r)) (S k)), Htake by (rewrite length_insert; lia).
    destruct (r_full r).
    + rewrite drop_app_le by (rewrite length_app, length_drop, length_take; lia). f_equal. replace (n + 1 - n)%nat with 1%nat by lia.
      rewrite drop_app_ge by (rewrite length_drop; lia). rewrite length_drop. by replace (1 - (length (r_entries r) - Z.to_nat (r_next r)))%nat with 0%nat by lia.
    + fold k; by replace (k + 1 - n)%nat with 0%nat by lia.
  - replace (r_next r + 1 =? 0) with false by (symmetry; apply Z.eqb_neq; lia). rewrite orb_false_r.
    replace (Z.to_nat (r_next r + 1)) with (S k) by lia. rewrite Htake. destruct (r_full r).
    + rewrite drop_insert_lt by lia. replace (n + 1 - n)%nat with 1%nat by lia. rewrite app_assoc. rewrite !drop_app_le by (rewrite ?length_app, ?length_drop; lia).
      rewrite drop_drop. fold k. by replace (k + 1)%nat with (S k) by lia.
    + fold k; by replace (k + 1 - n)%nat with 0%nat by lia.
Qed.

(** The messages that are kept, and the whole history of a log. *)
Definition texts (ms : list bytes) : list bytes := List.filter (fun m => negb (is_empty m)) (map TrimSpace ms).

Definition history_from (now : Z -> Time) (k : Z) (ms : list bytes) : list LogEntry :=
  imap (fun i m => new_entry now (k + Z.of_nat i + 1) m) (texts ms).

Definition history (now : Z -> Time) (ms : list bytes) : list LogEntry := history_from now 0 ms.

Lemma texts_cons m ms : texts (m :: ms) = if is_empty (TrimSpace m) then texts ms else TrimSpace m :: texts ms.
Proof. unfold texts. cbn. by destruct (is_empty (TrimSpace m)). Qed.

Lemma history_from_cons now k m ms : history_from now k (m :: ms) =
  if is_empty (TrimSpace m) then history_from now k ms else new_entry now (k + 1) (TrimSpace m) :: history_from now (k + 1) ms.
Proof.
  unfold history_from. rewrite texts_cons. destruct (is_empty (TrimSpace m)); [done|]. rewrite imap_cons. f_equal.
  - f_equal. lia.
  - apply imap_ext. intros i x _. cbn. f_equal. lia.
Qed.

Lemma history_from_app now k ms ms' : history_from now k (ms ++ ms') =
  history_from now k ms ++ history_from now (k + len (history_from now k ms)) ms'.
Proof.
  revert k. induction ms as [|m ms IH]; intros k; cbn [app].
  - unfold history_from at 2 4. cbn. by rewrite Z.add_0_r.
  - rewrite !history_from_cons. destruct (is_empty (TrimSpace m)); [apply IH|]. rewrite IH. cbn [app]. do 3 f_equal. solve_len.
Qed.

(** The ring after more messages holds the last of what it held and they. *)
Lemma add_lines_spec n now ms r : ring_ok n r -> (0 < n)%nat -> 0 <= r_seq r -> r_seq r + len ms < 2 ^ 64 ->
  exists r', add_lines now ms r = Ok r' /\ ring_ok n r' /\ r_seq r' = r_seq r + len (history_from now (r_seq r) ms) /\
    contents r' = last_n n (contents r ++ history_from now (r_seq r) ms).
Proof.
  intros Hok Hn Hs. revert r Hok Hs. induction ms as [|m ms IH]; intros r Hok Hs Hlt; cbn [add_lines].
  - exists r. change (history_from now (r_seq r) []) with (@nil LogEntry).
    split_and!; [done|done|unfold len; cbn [length]; lia|]. rewrite app_nil_r, last_n_all; [done|]. rewrite (contents_length n) by done.
    destruct Hok. destruct (r_full r); lia.
  - unfold ring_Add. rewrite history_from_cons. destruct (is_empty (TrimSpace m)).
    + cbn [res_bind]. destruct (IH r Hok Hs) as (r' & H); [revert Hlt; solve_len|]. by exists r'.
    + replace (0 <=? r_next r) with true by (symmetry; apply Z.leb_le; destruct Hok; lia).
      replace (r_next r <? len (r_entries r)) with true by (symmetry; apply Z.ltb_lt; destruct Hok as [Hl ?]; unfold len; lia). cbn [andb res_bind].
      assert (wrapU 64 (r_seq r + 1) = r_seq r + 1) as -> by (apply wrapU_small; revert Hlt; solve_len).
      destruct (contents_put n r (new_entry now (r_seq r + 1) (TrimSpace m)) Hok) as [Hok1 Hc1].
      set (r1 := mkRing _ _ _ (r_seq r + 1)).
      assert (contents r1 = last_n n (contents r ++ [new_entry now (r_seq r + 1) (TrimSpace m)])) as Hc by exact Hc1.
      destruct (IH r1 Hok1) as (r' & H1 & H2 & H3 & H4); [cbn; lia|cbn; revert Hlt; solve_len|].
      exists r'. change (r_seq r1) with (r_seq r + 1) in *. split_and!; [done|done|rewrite H3; solve_len|].
      by rewrite H4, Hc, last_n_app, <- app_assoc.
Qed.

(** The number of places of a new ring. *)
Definition ring_size (limit : Z) : nat := Z.to_nat (if limit <=? 0 then 256 else limit).

Lemma NewLogRing_ok limit : ring_ok (ring_size limit) (NewLogRing limit) /\ (0 < ring_size limit)%nat.
Proof. unfold ring_ok, NewLogRing, ring_size. cbn. rewrite length_replicate. destruct (Z.leb_spec limit 0); lia. Qed.

(** C34: the ring is the end of the log.  After any messages, [Entries] returns
    the last [k] entries of the whole history (all messages but the blank ones,
    trimmed, redacted and numbered from 1), as far as the ring reaches, and
    [EntriesSince] those of them behind a number; no index is out of range. *)
Theorem log_ring_refines (now : Z -> Time) (limit : Z) (ms : list bytes) (Hms : len ms < 2 ^ 64) :
  let n := ring_size limit in
  exists r, add_lines now ms (NewLogRing limit) = Ok r /\
    (forall k, Entries k r = Ok (last_n (if k <=? 0 then n else Z.to_nat k `min` n) (history now ms))) /\
    (forall after k, EntriesSince after k r =
       Ok (let out := List.filter (fun e => after <? le_ID e) (last_n n (history now ms)) in if 0 <? k then last_n (Z.to_nat k) out else out)).
Proof.
  intros n. destruct (NewLogRing_ok limit) as [Hok Hn]. fold n in Hok, Hn.
  destruct (add_lines_spec n now ms _ Hok Hn ltac:(done) ltac:(cbn; lia)) as (r & H1 & H2 & _ & H4).
  exists r. split; [done|]. cbn [NewLogRing r_seq] in H4. fold (history now ms) in H4.
  replace (contents (NewLogRing limit)) with (@nil LogEntry) in H4 by done. cbn [app] in H4. split.
  - intros k. rewrite (Entries_contents n) by done. rewrite H4. f_equal. destruct (k <=? 0); [|by rewrite last_n_last_n].
    apply last_n_all. lia.
  - intros after k. rewrite (EntriesSince_contents n) by done. by rewrite H4.
Qed.

(** * The writer *)

Lemma read_lines_rest line buf : newline ∉ line -> newline ∉ snd (read_lines line buf).
Proof.
  revert line. induction buf as [|c buf IH]; intros line Hl; cbn [read_lines snd]; [by rewrite elem_of_reverse|].
  destruct (chr newline c) eqn:E.
  - specialize (IH [] ltac:(apply not_elem_of_nil)). by destruct (read_lines [] buf).
  - apply IH. rewrite elem_of_cons. apply chr_false in E. intros [?|?]; done.
Qed.

Lemma read_lines_app line a b : newline ∉ line ->
  read_lines line (a ++ b) =
  let '(l1, rest) := read_lines line a in let '(l2, rest) := read_lines (reverse rest) b in (l1 ++ l2, rest).
Proof.
  revert line. induction a as [|c a IH]; intros line Hl; cbn [read_lines app].
  - rewrite reverse_involutive. by destruct (read_lines line b).
  - destruct (chr newline c) eqn:E.
    + rewrite IH by apply not_elem_of_nil. destruct (read_lines [] a) as [l1 rest]. by destruct (read_lines (reverse rest) b).
    + apply IH. rewrite elem_of_cons. apply chr_false in E. intros [?|?]; done.
Qed.

Lemma read_lines_plain line s b : newline ∉ s -> read_lines line (s ++ b) = read_lines (reverse s ++ line) b.
Proof.
  revert line. induction s as [|c s IH]; intros line Hs; [done|]. rewrite elem_of_cons in Hs. cbn [read_lines app].
  replace (chr newline c) with false by (symmetry; apply chr_false; intros E; auto).
  rewrite IH by auto. f_equal. by rewrite reverse_cons, <- app_assoc.
Qed.

Lemma add_lines_app now l1 l2 r : add_lines now (l1 ++ l2) r = let! r := add_lines now l1 r in add_lines now l2 r.
Proof. revert r. induction l1 as [|l l1 IH]; intros r; cbn [add_lines app res_bind]; [done|]. destruct (ring_Add now l r); cbn [res_bind]; [apply IH|done..]. Qed.

Definition writer_ok (w : logRingWriter) : Prop := newline ∉ lw_buf w.

Lemma ring_Write_ok now p w w' n : ring_Write now p w = Ok (w', n) -> writer_ok w' /\ n = len p.
Proof.
  unfold ring_Write. intros H. pose proof (read_lines_rest [] (lw_buf w ++ p) ltac:(apply not_elem_of_nil)) as Hr.
  destruct (read_lines [] (lw_buf w ++ p)) as [ls rest]. destruct (add_lines now ls (lw_ring w)); cbn [res_bind] in H; [|done..]. by simplify_eq.
Qed.

Lemma ring_Write_app now p q w : writer_ok w ->
  ring_Write now (p ++ q) w = let! (w1, n) := ring_Write now p w in let! (w2, m) := ring_Write now q w1 in Ok (w2, n + m).
Proof.
  intros Hw. unfold ring_Write at 1 2. rewrite app_assoc, read_lines_app by apply not_elem_of_nil.
  pose proof (read_lines_rest [] (lw_buf w ++ p) ltac:(apply not_elem_of_nil)) as Hr.
  destruct (read_lines [] (lw_buf w ++ p)) as [l1 rest]. cbn [snd] in Hr.
  assert (read_lines [] (rest ++ q) = read_lines (reverse rest) q) as Hq by (rewrite read_lines_plain by done; by rewrite app_nil_r).
  destruct (read_lines (reverse rest) q) as [l2 rest2] eqn:E2. rewrite add_lines_app.
  destruct (add_lines now l1 (lw_ring w)) as [r1| |]; cbn [res_bind]; [|done..]. unfold ring_Write. cbn [lw_buf lw_ring lw_next lw_sink]. rewrite Hq.
  destruct (add_lines now l2 r1); cbn [res_bind]; [|done..]. do 3 f_equal; [by rewrite app_assoc|by rewrite map_app, List.filter_app, app_assoc|solve_len].
Qed.

(** How the log text is cut into writes does not matter: any sequence of
    writes leaves the ring, the partial line, the bytes passed on and the lines
    given to the sink as one write of all the bytes does. *)
Theorem log_writer_chunks (now : Z -> Time) (ps : list bytes) (w : logRingWriter) (Hw : newline ∉ lw_buf w) :
  ring_Writes now ps w = let! (w', _) := ring_Write now (concat ps) w in Ok w'.
Proof.
  revert w Hw. induction ps as [|p ps IH]; intros w Hw; cbn [ring_Writes concat].
  - unfold ring_Write. assert (read_lines [] (lw_buf w ++ []) = ([], lw_buf w)) as ->.
    { rewrite read_lines_plain by done. cbn. by rewrite app_nil_r, reverse_involutive. }
    cbn. rewrite !app_nil_r. by destruct w.
  - rewrite ring_Write_app by done. destruct (ring_Write now p w) as [[w1 n]| |] eqn:E; cbn [res_bind]; [|done..].
    apply ring_Write_ok in E as [Hw1 _]. rewrite IH by done. by destruct (ring_Write now (concat ps) w1) as [[? ?]| |].
Qed.

(** * The stream *)

(** The rings a stream meets: between two looks the messages of a batch arrive. *)
Fixpoint ring_states (now : Z -> Time) (r : LogRing) (batches : list (list bytes)) : res (list LogRing) :=
  match batches with
  | [] => Ok [r]
  | b :: bs => let! r' := add_lines now b r in let! rs := ring_states now r' bs in Ok (r :: rs)
  end.

(** Entries numbered one after the other from [k + 1] on. *)
Definition consecutive (k : Z) (es : list LogEntry) : Prop := forall i e, es !! i = Some e -> le_ID e = k + Z.of_nat i + 1.

Lemma consecutive_history now k ms : consecutive k (history_from now k ms).
Proof. intros i e. unfold history_from. rewrite list_lookup_imap. destruct (texts ms !! i); cbn; [|done]. by intros [= <-]. Qed.

Lemma consecutive_drop k m es : consecutive k es -> consecutive (k + Z.of_nat m) (drop m es).
Proof. intros H i e. rewrite lookup_drop. intros Hi. rewrite (H _ _ Hi). lia. Qed.

Lemma consecutive_filter k c es : consecutive k es -> List.filter (fun e => c <? le_ID e) es = drop (Z.to_nat (c - k)) es.
Proof.
  revert k. induction es as [|e es IH]; intros k H; cbn; [by rewrite drop_nil|].
  assert (consecutive (k + 1) es) as H' by (intros i x Hx; rewrite (H (S i) x Hx); lia).
  rewrite (IH _ H'), (H 0%nat e eq_refl). destruct (Z.ltb_spec c (k + Z.of_nat 0 + 1)).
  - replace (Z.to_nat (c - k)) with 0%nat by lia. by replace (Z.to_nat (c - (k + 1))) with 0%nat by lia.
  - by replace (Z.to_nat (c - k)) with (S (Z.to_nat (c - (k + 1)))) by lia.
Qed.

(** What the client gets of entries. *)
Definition encoded (marshal : LogEntry -> option bytes) (es : list LogEntry) : list (Z * bytes) :=
  omap (fun e => data ← marshal e; Some (le_ID e, data)) es.

Lemma send_loop_spec marshal cursor es : send_loop marshal cursor es = (default cursor (le_ID <$> last es), encoded marshal es).
Proof.
  revert cursor. induction es as [|e es IH]; intros cursor; cbn [send_loop]; [done|]. rewrite IH. f_equal.
  - destruct es as [|e' es]; [done|]. rewrite last_cons_cons. destruct (last (e' :: es)) eqn:E; [done|]. by apply last_None in E.
  - unfold encoded. cbn. by destruct (marshal e).
Qed.

(** A look at a ring that still holds everything new. *)
Lemma sendEntries_spec n marshal now limit cursor ms r : ring_ok n r -> contents r = last_n n (history now ms) ->
  0 <= cursor -> len (history now ms) - cursor <= Z.of_nat n -> 0 < limit -> len (history now ms) - cursor <= limit ->
  sendEntries marshal cursor limit r =
  Ok (Z.max cursor (len (history now ms)), encoded marshal (drop (Z.to_nat cursor) (history now ms))).
Proof.
  intros Hok Hc H0 Hn Hl1 Hl. unfold sendEntries. rewrite (EntriesSince_contents n), Hc by done. cbn [res_bind].
  pose proof (consecutive_history now 0 ms) as Hcon. fold (history now ms) in Hcon. set (h := history now ms) in *.
  unfold len in *. replace (0 <? limit) with true by (symmetry; by apply Z.ltb_lt).
  rewrite (consecutive_filter (0 + Z.of_nat (length h - n)) cursor (last_n n h)) by (by apply consecutive_drop).
  assert (drop (Z.to_nat (cursor - (0 + Z.of_nat (length h - n)))) (last_n n h) = drop (Z.to_nat cursor) h) as ->.
  { unfold last_n. rewrite drop_drop. destruct (decide (Z.of_nat (length h) <= cursor)).
    - rewrite !drop_ge by lia. done.
    - f_equal. lia. }
  rewrite last_n_all by (rewrite length_drop; lia). rewrite send_loop_spec. do 2 f_equal.
  destruct (decide (Z.of_nat (length h) <= cursor)).
  - rewrite drop_ge by lia. cbn. lia.
  - rewrite last_lookup, lookup_drop, length_drop. destruct (lookup_lt_is_Some_2 h (pred (length h))) as [e He]; [lia|].
    replace (Z.to_nat cursor + pred (length h - Z.to_nat cursor))%nat with (pred (length h)) by lia.
    rewrite He. cbn. rewrite (Hcon _ _ He). lia.
Qed.

(** The log stream loses and repeats nothing.  If no more messages arrive
    between two looks than a look may send and the ring can hold, what the client
    gets over the whole stream is exactly the entries behind its cursor, in order
    and each once. *)
Theorem log_stream_exact (marshal : LogEntry -> option bytes) (now : Z -> Time) (size limit cursor : Z)
    (ms : list bytes) (batches : list (list bytes)) (r : LogRing) (rs : list LogRing)
    (Hr : add_lines now ms (NewLogRing size) = Ok r) (Hrs : ring_states now r batches = Ok rs)
    (Hlen : len (ms ++ concat batches) < 2 ^ 64) (Hc : 0 <= cursor) (Hl : 0 < limit)
    (Hfirst : len (history now ms) - cursor <= limit `min` Z.of_nat (ring_size size))
    (Hbatch : Forall (fun b => len b <= limit `min` Z.of_nat (ring_size size)) batches) :
  log_stream marshal cursor limit rs =
  Ok (encoded marshal (List.filter (fun e => cursor <? le_ID e) (history now (ms ++ concat batches)))).
Proof.
  set (n := ring_size size) in *. destruct (NewLogRing_ok size) as [Hok Hn]. fold n in Hok, Hn.
  assert (forall ms' r', ms `prefix_of` ms' -> len ms' < 2 ^ 64 -> add_lines now ms' (NewLogRing size) = Ok r' ->
            ring_ok n r' /\ contents r' = last_n n (history now ms')) as Hstate.
  { intros ms' r' _ Hlt E. destruct (add_lines_spec n now ms' _ Hok Hn ltac:(done) ltac:(cbn; lia)) as (r1 & E1 & H2 & _ & H4). rewrite E in E1. injection E1 as <-. split; [exact H2|exact H4]. }
  rewrite (consecutive_filter 0) by apply consecutive_history. rewrite Z.sub_0_r.
  revert ms r rs cursor Hr Hrs Hlen Hc Hfirst Hstate. induction Hbatch as [|b bs Hb _ IH]; intros ms r rs cursor Hr Hrs Hlen Hc Hfirst Hstate;
    cbn [ring_states concat] in *.
  - simplify_eq. rewrite app_nil_r in *. destruct (Hstate ms r) as [Hok1 Hc1]; [done|done|done|]. cbn [log_stream].
    rewrite (sendEntries_spec n marshal now limit cursor ms r) by (done || lia). cbn [res_bind]. by rewrite app_nil_r.
  - destruct (add_lines now b r) as [r1| |] eqn:Eb; cbn [res_bind] in Hrs; [|done..].
    destruct (ring_states now r1 bs) as [rs1| |] eqn:Ers; cbn [res_bind] in Hrs; [|done..]. simplify_eq. cbn [log_stream].
    destruct (Hstate ms r) as [Hok1 Hc1]; [done|revert Hlen; solve_len|done|].
    rewrite (sendEntries_spec n marshal now limit cursor ms r) by (done || lia). cbn [res_bind].
    assert (add_lines now (ms ++ b) (NewLogRing size) = Ok r1) as Hr1 by (by rewrite add_lines_app, Hr).
    assert (history now (ms ++ b) = history now ms ++ history_from now (len (history now ms)) b) as Hh by apply history_from_app.
    assert (len (history_from now (len (history now ms)) b) <= len b) as Hbl.
    { unfold history_from, texts, len. rewrite length_imap. pose proof (List.filter_length_le (fun m => negb (is_empty m)) (map TrimSpace b)).
      rewrite length_map in H. lia. }
    rewrite (IH (ms ++ b) r1 rs1 (Z.max cursor (len (history now ms)))); try done.
    + cbn [res_bind]. rewrite <- app_assoc. unfold encoded. rewrite <- omap_app. do 2 f_equal.
      unfold history at 1 3 4. rewrite history_from_app. fold (history now ms). rewrite !drop_app. unfold len in *.
      set (rest := history_from now _ (b ++ concat bs)). clear. rewrite (drop_ge (history now ms) (Z.to_nat (Z.max _ _))) by lia. cbn [app].
      by replace (Z.to_nat (Z.max cursor (Z.of_nat (length (history now ms)))) - length (history now ms))%nat with (Z.to_nat cursor - length (history now ms))%nat by lia.
    + by rewrite <- app_assoc.
    + lia.
    + rewrite Hh. revert Hbl. solve_len.
    + intros ms' r' Hp. apply Hstate. etrans; [|exact Hp]. by exists b.
Qed.

(** The redaction treats a log message as a list of URLs.  A message of this
    program starts with its component in brackets, and such a text is no URL with
    a user; so, unless it has commas, it is kept as it is, credentials included. *)
Theorem bracketed_message_not_redacted (now : Z -> Time) (id : Z) (m : bytes)
    (Hurl : forall s, HasPrefix s (bs "[") = true -> url_userinfo s = None)
    (Hm : c_comma ∉ m) (Hb : HasPrefix (TrimSpace m) (bs "[") = true) :
  le_Message (new_entry now id m) = TrimSpace m.
Proof.
  unfold new_entry, redactConfigValue. cbn [le_Message]. destruct (is_empty m) eqn:E.
  - destruct m; [done|done].
  - rewrite Split_single by done. cbn. unfold redactURLUserInfo. by rewrite Hurl.
Qed.

End RingClaims.

(** * Examples *)

#[local] Instance no_userinfo : GoUserInfo := {| url_userinfo := fun _ => None; url_with_user := fun s _ => s |}.
#[local] Existing Instance ascii_only_unicode.

Definition demo_clock : Z -> Time := fun _ => zeroTime.
Definition demo_lines : list bytes := [bs "[a] one"; bs "  "; bs "two"; bs "three"].

Lemma log_ring_refines_witness :
  exists r, add_lines demo_clock demo_lines (NewLogRing 2) = Ok r /\
    Entries 5 r = Ok [new_entry demo_clock 2 (bs "two"); new_entry demo_clock 3 (bs "three")].
Proof.
  destruct (log_ring_refines demo_clock 2 demo_lines ltac:(vm_compute; reflexivity)) as (r & H1 & H2 & _).
  exists r. split; [exact H1|]. rewrite H2. vm_compute. reflexivity.
Defined.

Definition demo_writer : logRingWriter := mkRingWriter (NewLogRing 2) (bs "on") [] [].

Lemma log_writer_chunks_witness :
  ring_Writes demo_clock [bs "e" ++ [newline]; bs "tw"; bs "o" ++ [newline] ++ bs "thr"] demo_writer =
  let! (w', _) := ring_Write demo_clock (bs "e" ++ [newline] ++ bs "two" ++ [newline] ++ bs "thr") demo_writer in Ok w'.
Proof.
  rewrite (log_writer_chunks demo_clock _ demo_writer); [vm_compute; reflexivity|].
  apply (bool_decide_eq_true_1 (newline ∉ lw_buf demo_writer)). vm_compute. reflexivity.
Defined.

Lemma log_stream_exact_witness :
  exists r rs, add_lines demo_clock demo_lines (NewLogRing 4) = Ok r /\ ring_states demo_clock r [[bs "four"]; [bs "five"; bs "six"]] = Ok rs /\
    log_stream (fun e => Some (le_Message e)) 2 3 rs = Ok [(3, bs "three"); (4, bs "four"); (5, bs "five"); (6, bs "six")].
Proof.
  destruct (add_lines demo_clock demo_lines (NewLogRing 4)) as [r| |] eqn:Er; [|by vm_compute in Er..].
  destruct (ring_states demo_clock r [[bs "four"]; [bs "five"; bs "six"]]) as [rs| |] eqn:Ers;
    [|by vm_compute in Er; injection Er as <-; vm_compute in Ers..].
  exists r, rs. split; [done|]. split; [done|].
  rewrite (log_stream_exact (fun e => Some (le_Message e)) demo_clock 4 3 2 demo_lines [[bs "four"]; [bs "five"; bs "six"]] r rs);
    try done; repeat constructor; vm_compute; by intros.
Defined.
