(* ===== verification/Server.v ===== *)
(** The server around a channel: internal/app/server.go.  The listeners of
    [startWebSocketServer] (TLS, source addresses, the names that the handshake
    binds), the accept loop of a channel, the loops that relay UDP, the copying of
    [proxyConnStream] and [proxyConnDuplex], and the QUIC datagrams. *)

From Stdlib Require Import ZArith Lia Strings.Byte.
From stdpp Require Import base numbers list gmap.
From S2P Require Import Prelude GoStrings GoNet NetAddr GoTime Wire WireV3 CipherStream Datagram Policy Sessions StreamOpen EchDns.
From S2P Require Config.

Local Open Scope Z_scope.
Local Open Scope go_scope.

(** * The names of the endpoint *)

(** [URL.Hostname]: the host without a port of digits and without brackets. *)
Definition valid_optional_port (p : bytes) : bool :=
  match p with
  | [] => true
  | c :: ds => chr c_colon c && forallb is_digit ds
  end.

Definition strip_brackets (h : bytes) : bytes :=
  match h with
  | c :: t => if chr c_lbrack c && match last t with Some d => chr c_rbrack d | None => false end then removelast t else h
  | [] => h
  end.

Definition Hostname (host : bytes) : bytes :=
  let i := LastIndexByte host c_colon in
  strip_brackets (if negb (i =? -1) && valid_optional_port (drop (Z.to_nat i) host) then take (Z.to_nat i) host else host).

Section Names.
Context `{U : GoUnicode}.

(** The client's side, given [url.Parse] of the server address. *)
Definition protocolAuthEndpoint (parsed : res Config.URL) : res (bytes * bytes) :=
  let! u := parsed in
  let serverName := ToLower (TrimSpace (Hostname (Config.u_Host u))) in
  if is_empty serverName then Err (Errorf "server name is empty" []) else
  Ok (serverName, if is_empty (Config.u_Path u) then bs "/" else Config.u_Path u).

(** The server's side of a WebSocket: the host of the request. *)
Definition requestServerName (host : bytes) : bytes :=
  let host := match SplitHostPort host with Ok (h, _) => h | _ => host end in
  ToLower (TrimSpace host).

(** The server's side of a QUIC session: the host of its own listen address. *)
Definition quicServerName (listen : Config.URL) : bytes :=
  let h := Hostname (Config.u_Host listen) in if is_empty h then Config.u_Host listen else h.

Definition quicClientIP (remote : option bytes) : bytes :=
  match remote with
  | Some ra => match SplitHostPort ra with Ok (h, _) => h | _ => bs "-" end
  | None => bs "-"
  end.

(** The UDP address QUIC listens on. *)
Definition quicListenAddr (host : bytes) (quicPort : Z) : bytes :=
  if 0 <? quicPort then
    match SplitHostPort host with
    | Ok (h, _) => JoinHostPort h (Itoa quicPort)
    | _ => JoinHostPort host (Itoa quicPort)
    end
  else host.

(** * Sessions that are let in *)

Definition source_allowed (allowed : list IPNet) (clientIP : bytes) : bool :=
  existsb (fun n => net_contains n (default [] (ParseIP clientIP))) allowed.

(** What becomes of a request to the path of the tunnel; an accepted one goes to
    [handlePreAuthWebSocketChannel] with the client's address and the name. *)
Inductive ws_end : Type :=
  | WSBadRequest
  | WSForbidden
  | WSNoUpgrade
  | WSAccepted (clientIP serverName path : bytes).

(** The handler of the path: how many source rejections it counts, and the end. *)
Definition handle_ws_request (allowed : list IPNet) (path remoteAddr host : bytes) (upgraded : bool) : Z * ws_end :=
  match SplitHostPort remoteAddr with
  | Ok (clientIP, _) =>
      if negb (source_allowed allowed clientIP) then (1, WSForbidden)
      else if upgraded then (0, WSAccepted clientIP (requestServerName host) path) else (0, WSNoUpgrade)
  | _ => (0, WSBadRequest)
  end.

(** A QUIC session goes to [handlePreAuthTransportSession] at once. *)
Definition handle_quic_session (listen : Config.URL) (path : bytes) (remote : option bytes) : ws_end :=
  WSAccepted (quicClientIP remote) (quicServerName listen) path.

End Names.

(** * Starting the listeners *)

Record serverStart : Type := mkServerStart {
  ss_scheme : bytes; ss_host : bytes; ss_path : bytes; ss_tls : option TLSConfig; ss_quic : option bytes;
}.

Section Start.
(** As in [EchDns]: [tls.LoadX509KeyPair], [os.ReadFile] and
    [CertPool.AppendCertsFromPEM]. *)
Variable load_key_pair : bytes -> bytes -> res unit.
Variable read_file : bytes -> res bytes.
Variable append_pem : bytes -> bool.

(** [selfSigned] is how [generateSelfSignedCert] ends; its certificate has no
    files. *)
Definition server_tls (certFile keyFile clientCAFile : bytes) (selfSigned : res unit) : res TLSConfig :=
  let base cert := mkTLS VersionTLS13 [] [] None [] false [cert] NoClientCert None in
  let! c := if negb (is_empty certFile) && negb (is_empty keyFile)
            then let! _ := res_map_err (Wrapf "[服务端] TLS 证书加载失败: %w") (load_key_pair certFile keyFile) in Ok (certFile, keyFile)
            else let! _ := res_map_err (Wrapf "[服务端] 生成自签名证书失败: %w") selfSigned in Ok ([], []) in
  res_map_err (Wrapf "[服务端] mTLS 配置失败: %w") (configureServerClientAuth read_file append_pem clientCAFile (base c)).

(** [listen] is how [net.Listen] ends, and [quicUp] whether QUIC can listen,
    which is not fatal. *)
Definition startWebSocketServer (parsed : res Config.URL) (certFile keyFile clientCAFile : bytes) (quicPort : Z)
    (selfSigned : res unit) (listen : bytes -> res unit) (quicUp : bytes -> bool) : res serverStart :=
  let! u := res_map_err (Wrapf "[服务端] WS 地址无效: %w") parsed in
  let path := if is_empty (Config.u_Path u) then bs "/" else Config.u_Path u in
  let wss := bool_decide (Config.u_Scheme u = bs "wss") in
  let! tls := if wss then let! c := server_tls certFile keyFile clientCAFile selfSigned in Ok (Some c) else Ok None in
  let! _ := listen (Config.u_Host u) in
  let quicAddr := quicListenAddr (Config.u_Host u) quicPort in
  Ok (mkServerStart (Config.u_Scheme u) (Config.u_Host u) path tls (if wss && quicUp quicAddr then Some quicAddr else None)).

End Start.

(** * The accept loop *)

(** [handleAuthenticatedTransportSession]: the streams that arrive, until
    [AcceptStream] fails; [ended] are the handlers that end meanwhile, before the
    stream is looked at.  A refused stream is answered at once, the others get a
    handler. *)
Record arrival_stream : Type := mkArrival { as_id : nat; as_ended : nat }.

Definition acceptLoop (maxStreams : Z) (p : nat) : list arrival_stream -> sessionTable -> option (sessionTable * list nat * list nat) :=
  fix loop streams t :=
    match streams with
    | [] => Some (t, [], [])
    | s :: streams =>
        t ← Nat.iter (as_ended s) (fun t => t ≫= releaseStream p) (Some t);
        '(t, (_, ok)) ← tryAcquireStream maxStreams p t;
        '(t, handled, refused) ← loop streams t;
        Some (t, if ok : bool then as_id s :: handled else handled, if ok then refused else as_id s :: refused)
    end.

(** The end of the loop: the connection is closed and the channel taken out. *)
Definition handleAuthenticatedTransportSession (maxStreams : Z) (p : nat) (id : Z) (current : nat) (conn : option nat)
    (streams : list arrival_stream) (t : sessionTable) : option (sessionTable * list nat * list nat) :=
  '(t, handled, refused) ← acceptLoop maxStreams p streams t;
  let t := close_all t (match conn with Some c => [ResConn c] | None => [] end) in
  t ← removeChannel p id current t;
  Some (t, handled, refused).

(** * The UDP loops of a stream *)

(** The goroutine that reads packets from the stream: the calls of [relay.Write] it
    makes, the last of which may have failed.  [write] is how a call ends; empty
    packets are dropped. *)
Fixpoint udp_uplink (fuel : nat) (write : bytes -> option error) (input : bytes) : option (list bytes) :=
  match fuel with
  | O => None
  | S fuel =>
      match readChunk input with
      | (rest, Ok packet) =>
          if is_empty packet then udp_uplink fuel write rest else
          match write packet with
          | None => packets ← udp_uplink fuel write rest; Some (packet :: packets)
          | Some _ => Some [packet]
          end
      | _ => Some []
      end
  end.

(** How a read of the relay ends: a packet with its sender, a timeout (when the
    other loop may be over), or another error. *)
Inductive relay_read : Type :=
  | RelayPacket (addr payload : bytes)
  | RelayTimeout (uplinkDone : bool)
  | RelayError.

(** The loop that answers; [None] when the reads given end before it does. *)
Fixpoint udp_downlink {W} `{Writer W} `{U : GoUnicode} (reads : list relay_read) (w : W) : W * option (list (bytes * bytes)) :=
  match reads with
  | [] => (w, None)
  | RelayPacket addr payload :: reads =>
      match writeUDPReply addr payload w with
      | (w, Ok _) => let '(w, sent) := udp_downlink reads w in (w, sent ← sent; Some ((addr, payload) :: sent))
      | (w, _) => (w, Some [])
      end
  | RelayTimeout done :: reads => if done : bool then (w, Some []) else udp_downlink reads w
  | RelayError :: _ => (w, Some [])
  end.

(** * Copying both ways *)

(** [proxyConnStream] and [proxyConnDuplex].  A direction copies until its
    source ends, an error occurs, or one of its ends is closed; the first to end
    makes the function close both sides, and it returns when both have ended.
    [dx_in] is what the source still delivers, [dx_out] what was written. *)
Record direction : Type := mkDir { dx_in : bytes; dx_out : bytes; dx_ended : bool }.

Record duplex : Type := mkDuplex {
  dp_up : direction; dp_down : direction; dp_closed : bool; dp_sent : Z; dp_received : Z; dp_returned : bool;
}.

Definition count_bytes (n : nat) (c : Z) : Z := if (0 <? n)%nat then wrapU 64 (c + Z.of_nat n) else c.

(** The steps: [n] more bytes are copied, a direction ends, both sides are
    closed, the function returns. *)
Inductive dup_step : duplex -> duplex -> Prop :=
  | Dup_copy_up d n : dx_ended (dp_up d) = false -> dp_closed d = false -> (n <= length (dx_in (dp_up d)))%nat ->
      dup_step d (mkDuplex (mkDir (drop n (dx_in (dp_up d))) (dx_out (dp_up d) ++ take n (dx_in (dp_up d))) false)
                  (dp_down d) false (dp_sent d) (dp_received d) (dp_returned d))
  | Dup_copy_down d n : dx_ended (dp_down d) = false -> dp_closed d = false -> (n <= length (dx_in (dp_down d)))%nat ->
      dup_step d (mkDuplex (dp_up d) (mkDir (drop n (dx_in (dp_down d))) (dx_out (dp_down d) ++ take n (dx_in (dp_down d))) false)
                  false (dp_sent d) (dp_received d) (dp_returned d))
  | Dup_end_up d : dx_ended (dp_up d) = false ->
      dup_step d (mkDuplex (mkDir (dx_in (dp_up d)) (dx_out (dp_up d)) true) (dp_down d) (dp_closed d)
                  (count_bytes (length (dx_out (dp_up d))) (dp_sent d)) (dp_received d) (dp_returned d))
  | Dup_end_down d : dx_ended (dp_down d) = false ->
      dup_step d (mkDuplex (dp_up d) (mkDir (dx_in (dp_down d)) (dx_out (dp_down d)) true) (dp_closed d)
                  (dp_sent d) (count_bytes (length (dx_out (dp_down d))) (dp_received d)) (dp_returned d))
  | Dup_close d : dx_ended (dp_up d) || dx_ended (dp_down d) = true -> dp_closed d = false ->
      dup_step d (mkDuplex (dp_up d) (dp_down d) true (dp_sent d) (dp_received d) (dp_returned d))
  | Dup_return d : dp_closed d = true -> dx_ended (dp_up d) = true -> dx_ended (dp_down d) = true -> dp_returned d = false ->
      dup_step d (mkDuplex (dp_up d) (dp_down d) true (dp_sent d) (dp_received d) true).

Definition duplex_start (up down : bytes) (sent received : Z) : duplex :=
  mkDuplex (mkDir up [] false) (mkDir down [] false) false sent received false.

(** * QUIC datagrams *)

(** A relay of an association: its socket, the address it sends to, and whether
    the goroutine that reads the answers still runs. *)
Record quicRelay : Type := mkQuicRelay { qr_sock : nat; qr_ip : bytes; qr_port : Z; qr_reading : bool }.

Record quicState : Type := mkQuicState { qs_reassembler : DatagramReassembler; qs_relayers : gmap Z quicRelay }.

Definition quic_start : quicState := mkQuicState (NewDatagramReassembler (5 * Second) 1024) ∅.

(** What happens: a datagram arrives, a packet arrives at the socket of a relay, or
    its read ends with an error, a timeout for one. *)
Inductive quic_event : Type :=
  | QDatagram (raw : bytes) (now created : Time)
  | QAnswer (assoc : Z) (from packet : bytes)
  | QReadFailed (assoc : Z).

(** What is done: a call of the network, a packet sent from a socket, or a
    datagram sent back. *)
Inductive quic_output : Type :=
  | QCall (e : event)
  | QSend (sock : nat) (ip : bytes) (port : Z) (payload : bytes)
  | QReply (assoc : Z) (raw : bytes).

(** [fmt.Sprintf("%s:%d", TargetAddr, TargetPort)]. *)
Definition datagram_target (f : DatagramFrame) : bytes := d_addr f ++ c_colon :: Itoa (d_port f).

(** The buffer of the goroutine that reads the answers: of a longer packet a read
    of the socket gives what fits and drops the rest. *)
Definition answer_buffer : nat := 2048.

(** The frame that carries an answer back. *)
Definition answer_frame (assoc : Z) (from payload : bytes) : DatagramFrame :=
  let '(host, port) := match SplitHostPort from with
                       | Ok (h, p) => (h, default 0 (Atoi p))
                       | _ => (from, 0)
                       end in
  let addrType := match ParseIP host with
                  | Some ip => match To4 ip with Some _ => AddrTypeIPv4 | None => AddrTypeIPv6 end
                  | None => AddrTypeDomain
                  end in
  mkFrame assoc 0 0 0 0 addrType host (wrapU 16 port) payload.

Section Datagrams.
Context {N : Net}.

(** The relay of an association; a new one is made for the first target. *)
Definition relay_for (f : DatagramFrame) (m : gmap Z quicRelay) : list event * option (gmap Z quicRelay * quicRelay) :=
  match m !! d_assoc f with
  | Some r => ([], Some (m, r))
  | None =>
      match net_bind (resolveUDPWithStrategy (datagram_target f) IPStrategyPv4Pv6) (fun '(ip, port) =>
              net_bind (call EvListen net_listen_udp) (fun sock => ([], Ok (mkQuicRelay sock ip port true)))) with
      | (es, Ok r) => (es, Some (<[d_assoc f := r]> m, r))
      | (es, _) => (es, None)
      end
  end.

(** One step of [handleQuicDatagrams]; [None] when the event cannot happen. *)
Definition quic_step (e : quic_event) (s : quicState) : option (quicState * list quic_output) :=
  match e with
  | QDatagram raw now created =>
      Some match DecodeDatagram raw with
           | Ok frame =>
               match ReassemblerAdd frame now created (qs_reassembler s) with
               | (ra, Ok (Some full)) =>
                   match relay_for full (qs_relayers s) with
                   | (es, Some (m, r)) => (mkQuicState ra m, map QCall es ++ [QSend (qr_sock r) (qr_ip r) (qr_port r) (d_payload full)])
                   | (es, None) => (mkQuicState ra (qs_relayers s), map QCall es)
                   end
               | (ra, _) => (mkQuicState ra (qs_relayers s), [])
               end
           | _ => (s, [])
           end
  | QAnswer assoc from packet =>
      match qs_relayers s !! assoc with
      | Some r =>
          if qr_reading r then
            Some (s, match EncodeDatagram (answer_frame assoc from (take answer_buffer packet)) with
                     | Ok raw => [QReply assoc raw] | _ => [] end)
          else None
      | None => None
      end
  | QReadFailed assoc =>
      match qs_relayers s !! assoc with
      | Some r => if qr_reading r
                  then Some (mkQuicState (qs_reassembler s) (<[assoc := mkQuicRelay (qr_sock r) (qr_ip r) (qr_port r) false]> (qs_relayers s)), [])
                  else None
      | None => None
      end
  end.

Fixpoint handleQuicDatagrams (es : list quic_event) (s : quicState) : option (quicState * list quic_output) :=
  match es with
  | [] => Some (s, [])
  | e :: es =>
      '(s, out) ← quic_step e s;
      '(s, more) ← handleQuicDatagrams es s;
      Some (s, out ++ more)
  end.

End Datagrams.

(** * Theorems: who is let in *)

Lemma ParseAddr_nonzero s a : ParseAddr s = Some a -> BitLen a = 32 \/ BitLen a = 128.
Proof.
  unfold ParseAddr, parseIPv6. intros H. destruct a; [|by left|by right]. exfalso. repeat (case_match; try done).
Qed.

Lemma ParseCIDR_ok s n : ParseCIDR s = Some n -> exists nn m, networkNumberAndMask n = Some (nn, m) /\ (0 < length nn)%nat.
Proof.
  unfold ParseCIDR. destruct (Cut s c_slash) as [[a m] ok]. destruct ok; cbn [negb]; [|done].
  destruct (ParseAddr a) as [addr|] eqn:Ea; [|done]. destruct (bool_decide _); [done|]. destruct m as [|c m]; [done|].
  destruct (atoi_digits _ _) as [k|]; [|done]. destruct (_ <? k); [done|]. intros [= <-].
  pose proof (ParseAddr_nonzero _ _ Ea) as Hb. unfold networkNumberAndMask, CIDRMask. cbn [net_ip net_mask].
  set (L := Z.to_nat (BitLen addr / 8)). assert (L = 4%nat \/ L = 16%nat) as HL by (unfold L; destruct Hb as [-> | ->]; [left|right]; reflexivity).
  assert (forall x y, length (and_bytes (be_put L x) (be_put L y)) = L) as Hlen.
  { intros. unfold and_bytes. rewrite length_zip_with, !length_be_put. lia. }
  match goal with |- context [To4 ?ip] => pose proof (Hlen (addr_val addr) (2 ^ BitLen addr - 2 ^ (BitLen addr - k))) as Hip; set (x := ip) in * end.
  rewrite length_be_put. destruct (To4 x) as [q|] eqn:E4.
  - rewrite (To4_length _ _ E4). destruct HL as [-> | ->]; cbn; eexists _, _; (split; [reflexivity|]); rewrite (To4_length _ _ E4); lia.
  - rewrite Hip. destruct HL as [HL|HL]; rewrite HL in *; cbn.
    + unfold To4 in E4. rewrite Hip in E4. done.
    + rewrite Hip. cbn. eexists _, _. split; [reflexivity|lia].
Qed.

Lemma source_nets `{U : GoUnicode} raw nets : parseSourceCIDRs raw = Ok nets -> nets <> [] /\ Forall (fun n => net_contains n [] = false) nets.
Proof.
  unfold parseSourceCIDRs. destruct (is_empty _); [done|].
  assert (forall parts nets, parse_source_cidrs parts = Ok nets -> length nets = length parts /\ Forall (fun n => net_contains n [] = false) nets) as Hp.
  { clear. induction parts as [|x parts IH]; intros nets; cbn [parse_source_cidrs]; [intros [= <-]; by split|].
    destruct (is_empty _); [done|]. destruct (ParseCIDR _) as [n|] eqn:E; [|done].
    destruct (parse_source_cidrs parts) as [ns| |] eqn:En; cbn [res_bind]; [|done..]. intros [= <-]. destruct (IH ns eq_refl) as [Hl Hf].
    split; [cbn; lia|]. constructor; [|done]. unfold net_contains. cbn.
    destruct (ParseCIDR_ok _ _ E) as (nn & m & -> & Hnn). destruct nn; [cbn in Hnn; lia|done]. }
  intros H. destruct (Hp _ _ H) as [Hl Hf]. split; [|done]. intros ->. by destruct (Split raw c_comma) eqn:E; [apply Split_ne in E|].
Qed.

(** C15: only clients from the configured networks get to the handshake over
    WebSocket.  With networks that were parsed from the configuration, a request
    is let in exactly when its address is well formed, its host parses as an IP
    and one of the networks contains it, and the connection can be upgraded; a
    well-formed address that is refused counts one rejection. *)
Theorem source_filter `{U : GoUnicode} (raw : bytes) (allowed : list IPNet) (path remote host : bytes) (upgraded : bool)
    (Hnets : parseSourceCIDRs raw = Ok allowed) :
  let '(rejections, e) := handle_ws_request allowed path remote host upgraded in
  ((exists ip name p, e = WSAccepted ip name p) <->
     upgraded = true /\ exists h port ip n, SplitHostPort remote = Ok (h, port) /\ ParseIP h = Some ip /\ n ∈ allowed /\ net_contains n ip = true) /\
  (rejections = 1 <-> e = WSForbidden) /\ (e = WSForbidden -> exists h port, SplitHostPort remote = Ok (h, port)).
Proof.
  destruct (source_nets _ _ Hnets) as [_ Hf]. unfold handle_ws_request. destruct (SplitHostPort remote) as [[h port]| |] eqn:Es.
  2,3: split; [split; [by intros (? & ? & ? & ?)|by intros [_ (? & ? & ? & ? & ? & _)]]|by split].
  assert (source_allowed allowed h = true <-> exists ip n, ParseIP h = Some ip /\ n ∈ allowed /\ net_contains n ip = true) as Ha.
  { unfold source_allowed. rewrite existsb_exists. split.
    - intros (n & Hn%list_elem_of_In & Hc). destruct (ParseIP h) as [ip|] eqn:E; [by exists ip, n|]. cbn in Hc.
      rewrite (proj1 (Forall_forall _ _) Hf n Hn) in Hc. done.
    - intros (ip & n & -> & Hn & Hc). exists n. split; [by apply list_elem_of_In|done]. }
  destruct (source_allowed allowed h); cbn [negb]; [destruct upgraded|].
  - split; [|by split]. split; [intros _|by eauto]. split; [done|]. destruct (proj1 Ha eq_refl) as (ip & n & H1 & H2 & H3). by exists h, port, ip, n.
  - split; [|by split]. split; [by intros (? & ? & ? & ?)|by intros [? _]].
  - split; [|by split; eauto]. split; [by intros (? & ? & ? & ?)|]. intros [_ (h' & p' & ip & n & [= <- <-] & H2 & H3 & H4)].
    assert (false = true) by (apply Ha; by exists ip, n). done.
Qed.

(** Over QUIC nobody looks at the client's address. *)
Theorem quic_source_unfiltered `{U : GoUnicode} (listen : Config.URL) (path remote : bytes) (allowed : list IPNet)
    (Hrefused : forall host upgraded, snd (handle_ws_request allowed path remote host upgraded) = WSForbidden) :
  exists ip, handle_quic_session listen path (Some remote) = WSAccepted ip (quicServerName listen) path /\
    source_allowed allowed ip = false.
Proof.
  specialize (Hrefused [] true). unfold handle_ws_request in Hrefused. unfold handle_quic_session, quicClientIP.
  destruct (SplitHostPort remote) as [[h p]| |]; [|done..]. exists h. split; [done|]. by destruct (source_allowed allowed h).
Qed.

(** * Theorems: the names in the handshake *)

Section NameClaims.
Context `{U : GoUnicode}.

Lemma digits_port p : forallb is_digit p = true -> (c_colon ∉ p) /\ (c_lbrack ∉ p) /\ (c_rbrack ∉ p).
Proof.
  intros H. assert (forall c, is_digit c = false -> c ∉ p) as Hc.
  { intros c Hd Hin. rewrite forallb_forall in H. rewrite (H c) in Hd by (by apply list_elem_of_In). done. }
  split_and!; apply Hc; reflexivity.
Qed.

Lemma strip_plain h : c_lbrack ∉ h -> strip_brackets h = h.
Proof.
  destruct h as [|c t]; [done|]. intros H. unfold strip_brackets. replace (chr c_lbrack c) with false; [done|].
  symmetry. apply chr_false. intros E. apply H. rewrite E. by left.
Qed.

Lemma LastIndexByte_absent h c : c ∉ h -> LastIndexByte h c = -1.
Proof.
  induction h as [|x h IH]; cbn; intros Hc; [done|]. rewrite elem_of_cons in Hc. rewrite IH by auto. cbn.
  replace (chr c x) with false; [done|]. symmetry. apply chr_false. intros E. auto.
Qed.

Lemma Hostname_plain h : c_colon ∉ h -> c_lbrack ∉ h -> Hostname h = h.
Proof. intros Hc Hb. unfold Hostname. rewrite LastIndexByte_absent by done. by apply strip_plain. Qed.

Lemma Hostname_join h p : c_lbrack ∉ h -> c_rbrack ∉ h -> forallb is_digit p = true -> Hostname (JoinHostPort h p) = h.
Proof.
  intros Hl Hr Hp. destruct (digits_port p Hp) as [Hc _]. unfold Hostname, JoinHostPort.
  assert (forall a, strip_brackets (if negb (LastIndexByte (a ++ c_colon :: p) c_colon =? -1) &&
            valid_optional_port (drop (Z.to_nat (LastIndexByte (a ++ c_colon :: p) c_colon)) (a ++ c_colon :: p))
            then take (Z.to_nat (LastIndexByte (a ++ c_colon :: p) c_colon)) (a ++ c_colon :: p) else a ++ c_colon :: p) = strip_brackets a) as Hs.
  { intros a. rewrite LastIndexByte_app by done. replace (len a =? -1) with false by (symmetry; apply Z.eqb_neq; pose proof (len_nonneg a); lia).
    unfold len. rewrite Nat2Z.id, drop_app_length, take_app_length. cbn [valid_optional_port]. by rewrite chr_refl, Hp. }
  destruct (0 <=? IndexByte h c_colon).
  - change (c_lbrack :: h ++ c_rbrack :: c_colon :: p) with ((c_lbrack :: h) ++ [c_rbrack] ++ c_colon :: p). rewrite (app_assoc (c_lbrack :: h)).
    rewrite Hs. cbn [app strip_brackets]. rewrite last_snoc, !chr_refl. cbn [andb]. by rewrite removelast_last.
  - rewrite Hs. by apply strip_plain.
Qed.

(** C16: both ends of a WebSocket bind the same endpoint.  For a server address
    whose host is a name, or a name or an IP literal with a port, the name the
    client puts into the proof is the one the server takes from the host of the
    request, and the path is the one the server serves. *)
Theorem endpoint_names_agree (u listen : Config.URL) (h p name path : bytes)
    (Hhost : (c_lbrack ∉ h) /\ (c_rbrack ∉ h)) (Hu : Config.u_Host u = h /\ (c_colon ∉ h) \/ Config.u_Host u = JoinHostPort h p /\ forallb is_digit p = true)
    (Hclient : protocolAuthEndpoint (Ok u) = Ok (name, path)) (Hpath : Config.u_Path listen = Config.u_Path u) :
  name = requestServerName (Config.u_Host u) /\
  path = (if is_empty (Config.u_Path listen) then bs "/" else Config.u_Path listen).
Proof.
  unfold protocolAuthEndpoint in Hclient. cbn [res_bind] in Hclient. destruct (is_empty (ToLower _)); [done|]. rewrite Hpath.
  injection Hclient as <- <-. split; [|done]. destruct Hhost as [Hl Hr]. unfold requestServerName. destruct Hu as [[-> Hc]|[-> Hp]].
  - rewrite Hostname_plain by done. destruct (SplitHostPort h) as [[h' p']| |] eqn:E; [|done..]. exfalso.
    unfold SplitHostPort in E. by rewrite LastIndexByte_absent in E by done.
  - destruct (digits_port p Hp) as (H1 & H2 & H3). by rewrite Hostname_join, SplitHostPort_JoinHostPort by done.
Qed.

(** Over QUIC the server takes its name from its own listen address: unless that
    has the client's name for its host, the names differ, and with them the
    proofs; listening on all addresses is such a case. *)
Theorem quic_names_differ :
  let listen := Config.mkURL (bs "wss") None (bs "0.0.0.0:443") (bs "/tunnel") in
  let client := Config.mkURL (bs "wss") None (bs "tunnel.example.com:443") (bs "/tunnel") in
  quicServerName listen = bs "0.0.0.0" /\
  protocolAuthEndpoint (Ok client) = Ok (bs "tunnel.example.com", bs "/tunnel").
Proof. split; vm_compute; reflexivity. Qed.

(** An IPv6 literal without a port keeps its brackets on the server only. *)
Theorem ipv6_names_differ :
  let u := Config.mkURL (bs "wss") None (bs "[2001:db8::1]") [] in
  protocolAuthEndpoint (Ok u) = Ok (bs "2001:db8::1", bs "/") /\ requestServerName (Config.u_Host u) = bs "[2001:db8::1]".
Proof. split; vm_compute; reflexivity. Qed.

End NameClaims.

(** * Theorems: UDP over a stream *)

Definition nonempty (b : bytes) : bool := negb (is_empty b).

(** The packets among the reads of a relay. *)
Definition packets_of (reads : list relay_read) : list (bytes * bytes) :=
  omap (fun r => match r with RelayPacket addr payload => Some (addr, payload) | _ => None end) reads.

(** The first [n] replies of a stream, as the client reads them. *)
Fixpoint take_replies `{U : GoUnicode} (n : nat) (input : bytes) : option (list (bytes * bytes)) :=
  match n with
  | O => Some []
  | S n => match readUDPReply input with (rest, Ok r) => rs ← take_replies n rest; Some (r :: rs) | _ => None end
  end.

Lemma udp_uplink_S fuel write input : udp_uplink (S fuel) write input =
  match readChunk input with
  | (rest, Ok packet) =>
      if is_empty packet then udp_uplink fuel write rest else
      match write packet with
      | None => packets ← udp_uplink fuel write rest; Some (packet :: packets)
      | Some _ => Some [packet]
      end
  | _ => Some []
  end.
Proof. reflexivity. Qed.

Lemma uplink_spec write packets : Forall (fun b => len b <= 65535) packets ->
  exists calls, udp_uplink (S (length packets)) write (concat (map enc_chunk packets)) = Some calls /\
    (Forall (fun b => write b = None) calls /\ calls = List.filter nonempty packets \/
     exists a b c, List.filter nonempty packets = a ++ b :: c /\ calls = a ++ [b] /\
       Forall (fun b => write b = None) a /\ write b <> None).
Proof.
  intros Hp. induction Hp as [|b packets Hb _ IH]; cbn [length map concat]; [exists []; split; [done|]; by left|].
  rewrite udp_uplink_S, reads_chunk by done. cbn [List.filter].
  assert (nonempty b = negb (is_empty b)) as -> by done. destruct (is_empty b); cbn [negb]; [exact IH|].
  destruct IH as (calls & -> & Hcases). destruct (write b) eqn:Ew.
  - exists [b]. split; [done|]. right. exists [], b, (List.filter nonempty packets). split_and!; [done|done|constructor|congruence].
  - exists (b :: calls). split; [done|]. destruct Hcases as [[Hf ->]|(a & x & c & -> & -> & Hf & Hx)].
    + left. split; [by constructor|done].
    + right. exists (b :: a), x, c. split_and!; [done|done|by constructor|done].
Qed.

(** The reads up to the one that ends the loop, and whether there is one. *)
Fixpoint reads_live (reads : list relay_read) : list relay_read :=
  match reads with
  | RelayError :: _ | RelayTimeout true :: _ | [] => []
  | r :: reads => r :: reads_live reads
  end.

Definition ends_loop (r : relay_read) : bool := match r with RelayError | RelayTimeout true => true | _ => false end.

Section Downlink.
Context `{U : GoUnicode} {W : Type} {HWr : Writer W} {HOk : WriterOk W}.

Lemma writeUDPReply_ok addr payload w w' : writeUDPReply addr payload w = (w', Ok tt) ->
  sink w' = sink w ++ enc_udp_reply addr payload /\ reads readUDPReply (enc_udp_reply addr payload) (addr, payload).
Proof.
  intros [H1 [H2 [H3 Hw]%lift_bind_ok]%lift_bind_ok]%lift_bind_ok. apply res_map_err_ok in H1, H2, H3.
  apply validateProtocolFieldLen_ok in H1, H3. split; [by eapply writes_frame; eauto with wire|by apply reads_udp_reply].
Qed.

Definition replies (sent : list (bytes * bytes)) : bytes := concat (map (fun '(addr, payload) => enc_udp_reply addr payload) sent).

Lemma downlink_spec reads w : existsb ends_loop reads = true ->
  exists w' w1 sent, udp_downlink reads w = (w', Some sent) /\
    sink w1 = sink w ++ replies sent /\ (forall more, take_replies (length sent) (replies sent ++ more) = Some sent) /\
    (packets_of (reads_live reads) = sent /\ w' = w1 \/
     exists addr payload rest r, packets_of (reads_live reads) = sent ++ (addr, payload) :: rest /\
       writeUDPReply addr payload w1 = (w', r) /\ r <> Ok tt).
Proof.
  revert w. induction reads as [|r reads IH]; intros w He; cbn [existsb] in He; [done|].
  assert (sink w = sink w ++ replies []) as Hnil by (cbn; by rewrite app_nil_r).
  destruct r as [addr payload|d|]; cbn [udp_downlink ends_loop orb] in *.
  - destruct (writeUDPReply addr payload w) as [w1 [[]|e|]] eqn:Ew.
    2,3: exists w1, w, []; split; [done|]; split; [done|]; split; [done|]; right;
      eexists addr, payload, (packets_of (reads_live reads)), _; split; [done|]; (split; [exact Ew|done]).
    destruct (IH w1 He) as (w2 & w3 & sent & -> & Hs & Ht & Hc). destruct (writeUDPReply_ok _ _ _ _ Ew) as [Hs1 Hr].
    exists w2, w3, ((addr, payload) :: sent). split; [done|]. split; [unfold replies in *; cbn [map concat]; by rewrite Hs, Hs1, <- app_assoc|].
    split; [|destruct Hc as [[Hc ->]|(a & p & rest & e & Hc & Hw & Hn)]].
    + intros more. unfold replies. cbn [map concat length take_replies]. rewrite <- app_assoc, Hr. fold (replies sent). by rewrite Ht.
    + left. split; [unfold packets_of in *; cbn; by rewrite Hc|done].
    + right. exists a, p, rest, e. split; [unfold packets_of in *; cbn; by rewrite Hc|done].
  - destruct d; cbn [orb] in He; [exists w, w, []; split; [done|]; split; [done|]; split; [done|]; by left|]. by apply IH.
  - exists w, w, []. split; [done|]. split; [done|]. split; [done|]. by left.
Qed.

(** C20: UDP over a stream.  The packets a client writes into the stream are
    written to the relay whole, in order and without the empty ones: all of them
    when the relay refuses none, and otherwise exactly those before the first one
    it refuses and that one, after which the loop is over.  The other loop, once
    its reads of the relay come to an end, has written back what the relay
    delivered until then, in order and each with its sender, as the client reads
    them: all of it, unless writing a reply failed, and then exactly the ones
    before it. *)
Theorem udp_relay_faithful (packets : list bytes) (write : bytes -> option error) (Hp : Forall (fun b => len b <= 65535) packets) :
  (exists calls, udp_uplink (S (length packets)) write (concat (map enc_chunk packets)) = Some calls /\
     (Forall (fun b => write b = None) calls /\ calls = List.filter nonempty packets \/
      exists a b c, List.filter nonempty packets = a ++ b :: c /\ calls = a ++ [b] /\
        Forall (fun b => write b = None) a /\ write b <> None)) /\
  (forall reads (w : W), existsb ends_loop reads = true ->
     exists w' w1 sent, udp_downlink reads w = (w', Some sent) /\
       sink w1 = sink w ++ replies sent /\ (forall more, take_replies (length sent) (replies sent ++ more) = Some sent) /\
       (packets_of (reads_live reads) = sent /\ w' = w1 \/
        exists addr payload rest r, packets_of (reads_live reads) = sent ++ (addr, payload) :: rest /\
          writeUDPReply addr payload w1 = (w', r) /\ r <> Ok tt)).
Proof. split; [by apply uplink_spec|]. intros reads w. apply downlink_spec. Qed.

End Downlink.

(** * Theorems: copying both ways *)

Definition dir_ok (src : bytes) (d : direction) : Prop := dx_out d ++ dx_in d = src.

Definition counted (d : direction) (start now : Z) : Prop := now = if dx_ended d then count_bytes (length (dx_out d)) start else start.

Definition duplex_ok (up down : bytes) (s r : Z) (d : duplex) : Prop :=
  dir_ok up (dp_up d) /\ dir_ok down (dp_down d) /\ counted (dp_up d) s (dp_sent d) /\ counted (dp_down d) r (dp_received d) /\
  (dp_closed d = true -> dx_ended (dp_up d) || dx_ended (dp_down d) = true) /\
  (dp_returned d = true -> dp_closed d = true /\ dx_ended (dp_up d) = true /\ dx_ended (dp_down d) = true).

Lemma duplex_ok_step up down s r d d' : duplex_ok up down s r d -> dup_step d d' -> duplex_ok up down s r d'.
Proof.
  unfold duplex_ok, dir_ok, counted. intros (H1 & H2 & H3 & H4 & H5 & H6) Hs.
  destruct Hs as [d n He Hc Hn|d n He Hc Hn|d He|d He|d He Hc|d Hc He1 He2 Hr]; cbn.
  - rewrite <- app_assoc, take_drop. rewrite He in *. split_and!; try done. intros Hr. apply H6 in Hr as [? _]. congruence.
  - rewrite <- app_assoc, take_drop. rewrite He in *. split_and!; try done. intros Hr. apply H6 in Hr as [? _]. congruence.
  - rewrite He in *. subst. split_and!; try done. intros Hr. apply H6 in Hr as (_ & ? & _). congruence.
  - rewrite He in *. subst. split_and!; try done; [by rewrite orb_true_r|]. intros Hr. apply H6 in Hr as (_ & _ & ?). congruence.
  - split_and!; try done. intros Hr. apply H6 in Hr as (? & _). congruence.
  - split_and!; try done. by rewrite He1.
Qed.

(** From a state in which one direction is over, three steps lead to the return. *)
Lemma duplex_returns d : dx_ended (dp_up d) || dx_ended (dp_down d) = true -> dp_returned d = false ->
  exists n d', nsteps dup_step n d d' /\ (n <= 3)%nat /\ dp_returned d' = true /\
    dx_out (dp_up d') = dx_out (dp_up d) /\ dx_out (dp_down d') = dx_out (dp_down d).
Proof.
  destruct d as [[ui uo ue] [di do_ de] c s r ret]. cbn. intros He ->.
  assert (forall s r, exists n d', nsteps dup_step n (mkDuplex (mkDir ui uo true) (mkDir di do_ true) c s r false) d' /\ (n <= 2)%nat /\
            dp_returned d' = true /\ dx_out (dp_up d') = uo /\ dx_out (dp_down d') = do_) as Hboth.
  { intros s' r'. destruct c.
    - eexists 1%nat, _. split; [eapply nsteps_once, Dup_return; done|]. cbn. by split_and!; [lia|..].
    - eexists 2%nat, _. split; [eapply nsteps_l; [by apply Dup_close|eapply nsteps_once, Dup_return; done]|]. cbn. by split_and!. }
  assert (forall d0 d1, dup_step d0 d1 -> (exists n d', nsteps dup_step n d1 d' /\ (n <= 2)%nat /\
            dp_returned d' = true /\ dx_out (dp_up d') = uo /\ dx_out (dp_down d') = do_) ->
          exists n d', nsteps dup_step n d0 d' /\ (n <= 3)%nat /\ dp_returned d' = true /\ dx_out (dp_up d') = uo /\ dx_out (dp_down d') = do_) as Hstep.
  { intros d0 d1 Hs (n & d' & Hn & Hle & Hr). exists (S n), d'. split; [by eapply nsteps_l|]. by split; [lia|]. }
  destruct ue, de; [|eapply Hstep; [by apply Dup_end_down|apply Hboth]|eapply Hstep; [by apply Dup_end_up|apply Hboth]|done].
  destruct (Hboth s r) as (n & d' & Hn & Hle & Hr). exists n, d'. split; [done|]. by split; [lia|].
Qed.

(** A proxied connection.  At any moment each side has got a prefix of what
    the other one sent; the counters of a direction are raised once, when it ends,
    by exactly the bytes it delivered; and as soon as one direction is over the
    function can return in three steps without another byte from either side. *)
Theorem duplex_copies (up down : bytes) (s r : Z) (d : duplex) (Hd : rtc dup_step (duplex_start up down s r) d) :
  dx_out (dp_up d) `prefix_of` up /\ dx_out (dp_down d) `prefix_of` down /\
  counted (dp_up d) s (dp_sent d) /\ counted (dp_down d) r (dp_received d) /\
  (dp_returned d = true -> dx_ended (dp_up d) = true /\ dx_ended (dp_down d) = true) /\
  (dx_ended (dp_up d) || dx_ended (dp_down d) = true -> dp_returned d = false ->
     exists n d', nsteps dup_step n d d' /\ (n <= 3)%nat /\ dp_returned d' = true /\
       dx_out (dp_up d') = dx_out (dp_up d) /\ dx_out (dp_down d') = dx_out (dp_down d)).
Proof.
  assert (duplex_ok up down s r d) as (H1 & H2 & H3 & H4 & _ & H6).
  { remember (duplex_start up down s r) as d0 eqn:E. assert (duplex_ok up down s r d0) as H0 by (subst; by unfold duplex_ok, dir_ok, counted; cbn).
    clear E. induction Hd as [|d0 d1 d2 Hs _ IH]; [done|]. apply IH. by eapply duplex_ok_step. }
  split_and!; try done; [by exists (dx_in (dp_up d))|by exists (dx_in (dp_down d))| |apply duplex_returns].
  intros Hr. by destruct (H6 Hr) as (_ & ? & ?).
Qed.

(** * Theorems: QUIC datagrams *)

Section DatagramClaims.
Context {N : Net}.

Lemma quic_step_whole f raw s now created : frame_typed f -> EncodeDatagram f = Ok raw -> d_frag_total f <= 1 ->
  quic_step (QDatagram raw now created) s = Some
    match relay_for (canonical f) (qs_relayers s) with
    | (es, Some (m, r)) => (mkQuicState (qs_reassembler s) m, map QCall es ++ [QSend (qr_sock r) (qr_ip r) (qr_port r) (d_payload f)])
    | (es, None) => (mkQuicState (qs_reassembler s) (qs_relayers s), map QCall es)
    end.
Proof.
  intros Hf Hraw Hone. unfold quic_step. rewrite (decode_encode_datagram f raw Hf Hraw). unfold ReassemblerAdd. cbn [canonical d_frag_total].
  destruct Hf as (_ & _ & Ht & _). assert (((if d_frag_total f =? 0 then 1 else d_frag_total f) <=? 1) = true) as ->; [|done].
  destruct (Z.eqb_spec (d_frag_total f) 0); apply Z.leb_le; lia.
Qed.

Lemma answer_typed assoc from payload : 0 <= assoc < 65536 -> len payload <= 65535 -> frame_typed (answer_frame assoc from payload).
Proof.
  intros H1 H2. unfold answer_frame. destruct (match SplitHostPort from with Ok (h, p) => _ | _ => _ end) as [h p].
  pose proof (wrapU_range 16 p ltac:(lia)). change (2 ^ 16) with 65536 in *. unfold frame_typed. cbn.
  split_and!; try lia; destruct (ParseIP h) as [ip|]; try destruct (To4 ip); done.
Qed.

Lemma answer_roundtrip assoc from payload h p ip n : 0 <= assoc < 65536 -> len payload <= 65535 ->
  SplitHostPort from = Ok (h, p) -> ParseIP h = Some ip -> Atoi p = Some n -> 0 <= n < 65536 ->
  exists raw g, EncodeDatagram (answer_frame assoc from payload) = Ok raw /\ DecodeDatagram raw = Ok g /\
    d_assoc g = assoc /\ d_addr g = IPString ip /\ d_port g = n /\ d_payload g = payload.
Proof.
  intros Ha Hl Hs Hp Hn Hr. pose proof (answer_typed assoc from payload Ha Hl) as Ht.
  pose proof (ParseIP_length _ _ Hp) as Hlen.
  assert (exists ab, addr_bytes (answer_frame assoc from payload) = Ok ab /\ IPString ab = IPString ip) as (ab & Hab & Hip).
  { unfold answer_frame. rewrite Hs, Hp. unfold addr_bytes. cbn [d_addr_type d_addr]. destruct (To4 ip) as [q|] eqn:E4.
    - rewrite Z.eqb_refl, Hp. cbn. rewrite E4. exists q. split; [done|]. unfold IPString at 1 2. rewrite E4.
      assert (To4 q = Some q) as ->; [|done]. unfold To4. by rewrite (To4_length _ _ E4).
    - cbn [AddrTypeIPv4 AddrTypeIPv6 AddrTypeDomain]. rewrite Hp. cbn. assert (To16 ip = Some ip) as Eip by (unfold To16; by rewrite Hlen).
      rewrite Eip. by exists ip. }
  assert (exists raw, EncodeDatagram (answer_frame assoc from payload) = Ok raw) as [raw Hraw].
  { unfold EncodeDatagram. rewrite Hab. cbn [res_bind]. eauto. }
  exists raw, (canonical (answer_frame assoc from payload)). split; [done|]. split; [by apply decode_encode_datagram|].
  unfold answer_frame in *. rewrite Hs, Hn in *. cbn [default from_option id] in *. split_and!; try done.
  - cbn [canonical d_addr]. unfold canonical_addr. rewrite Hab, Hip. cbn [d_addr_type]. rewrite Hp. by destruct (To4 ip).
  - cbn. apply wrapU_small. change (2 ^ 16) with 65536. lia.
Qed.

(** C21: what the code does with a datagram over QUIC, which is not what is
    documented of it.  An unfragmented datagram as the peer encodes it is sent
    once, with its payload, from the socket of its association.  A new association
    gets a socket that sends to what the target of this first datagram resolves
    to, and nothing is sent when that fails; an existing one sends to the address
    it has, whatever target the datagram names.  The target policy is consulted in
    neither case, although the documentation says the server's policy decides what
    may be reached and that a datagram carries its own target.  A packet that comes
    back from an IP address is returned as a datagram that decodes to the
    association, the sender and the first 2048 bytes of the packet: the rest of a
    longer one is lost. *)
Theorem quic_datagram_relayed (f : DatagramFrame) (raw : bytes) (s : quicState) (now created : Time)
    (Hf : frame_typed f) (Hraw : EncodeDatagram f = Ok raw) (Hone : d_frag_total f <= 1) :
  (exists s' es out, quic_step (QDatagram raw now created) s = Some (s', map QCall es ++ out) /\
     qs_reassembler s' = qs_reassembler s /\
     match qs_relayers s !! d_assoc f, snd (resolveUDPWithStrategy (datagram_target (canonical f)) IPStrategyPv4Pv6), net_listen_udp with
     | Some r, _, _ => es = [] /\ qs_relayers s' = qs_relayers s /\ out = [QSend (qr_sock r) (qr_ip r) (qr_port r) (d_payload f)]
     | None, Ok (ip, port), Ok sock =>
         qs_relayers s' = <[d_assoc f := mkQuicRelay sock ip port true]> (qs_relayers s) /\ out = [QSend sock ip port (d_payload f)]
     | _, _, _ => qs_relayers s' = qs_relayers s /\ out = []
     end) /\
  (forall r from packet h p ip n, qs_relayers s !! d_assoc f = Some r -> qr_reading r = true ->
     SplitHostPort from = Ok (h, p) -> ParseIP h = Some ip -> Atoi p = Some n -> 0 <= n < 65536 ->
     exists raw' g, quic_step (QAnswer (d_assoc f) from packet) s = Some (s, [QReply (d_assoc f) raw']) /\ DecodeDatagram raw' = Ok g /\
       d_assoc g = d_assoc f /\ d_addr g = IPString ip /\ d_port g = n /\ d_payload g = take (Z.to_nat 2048) packet).
Proof.
  split.
  - rewrite (quic_step_whole f raw s now created Hf Hraw Hone). unfold relay_for. cbn [canonical d_assoc].
    destruct (qs_relayers s !! d_assoc f) as [r|]; [by eexists _, [], _|].
    destruct (resolveUDPWithStrategy _ _) as [es [[ip port]|e|]]; cbn [snd net_bind];
      [|eexists _, es, []; rewrite app_nil_r; split; [reflexivity|done]..].
    unfold call. destruct net_listen_udp as [sock|e|]; cbn;
      [by eexists _, _, _|eexists _, (es ++ [EvListen]), []; rewrite app_nil_r; split; [reflexivity|done]..].
  - intros r from packet h p ip n Hr Hrd Hs Hp Hn Hrange. destruct Hf as (Ha & _).
    destruct (answer_roundtrip (d_assoc f) from (take answer_buffer packet) h p ip n) as (raw' & g & He & Hd & Hg); [done| |done..|].
    { unfold len. rewrite length_take. pose proof (Nat.le_min_l answer_buffer (length packet)). change answer_buffer with (Z.to_nat 2048) in *. lia. }
    exists raw', g. unfold quic_step. rewrite Hr, Hrd, He. done.
Qed.

(** The reading goroutine of an association ends with its first failed read, a
    timeout included.  From then on no answer comes back, while datagrams are
    still accepted and sent. *)
Theorem quic_answers_stop (es : list quic_event) (s s' : quicState) (out : list quic_output) (a : Z) (r : quicRelay)
    (Hr : qs_relayers s !! a = Some r) (Hread : qr_reading r = false) (Hrun : handleQuicDatagrams es s = Some (s', out)) :
  (forall raw, QReply a raw ∉ out) /\ qs_relayers s' !! a = Some r.
Proof.
  revert s s' out Hr Hrun. induction es as [|e es IH]; intros s s' out Hr; cbn [handleQuicDatagrams].
  - intros [= <- <-]. split; [intros raw; apply not_elem_of_nil|done].
  - destruct (quic_step e s) as [[s1 o1]|] eqn:E; cbn; [|done].
    destruct (handleQuicDatagrams es s1) as [[s2 o2]|] eqn:E2; cbn; [|done]. intros [= <- <-].
    assert ((forall raw, QReply a raw ∉ o1) /\ qs_relayers s1 !! a = Some r) as [Ho Hr1].
    { clear IH E2. assert (forall raw l, QReply a raw ∉ map QCall l) as Hcall.
      { intros raw l (? & ? & _)%list_elem_of_fmap. done. }
      destruct e as [raw now created|b from payload|b]; cbn [quic_step] in E.
      - destruct (DecodeDatagram raw) as [f| |]; [|injection E as <- <-; split; [intros; apply not_elem_of_nil|done]..].
        destruct (ReassemblerAdd f now created (qs_reassembler s)) as [ra [[full|]| |]];
          [|injection E as <- <-; split; [intros; apply not_elem_of_nil|done]..].
        unfold relay_for in E. destruct (qs_relayers s !! d_assoc full) as [r0|] eqn:Em.
        + injection E as <- <-. split; [|done]. intros raw'. by rewrite list_elem_of_singleton.
        + destruct (net_bind _ _) as [ns [r0| |]]; injection E as <- <-; (split; [intros raw'; rewrite ?elem_of_app, ?list_elem_of_singleton|]); try (by apply Hcall).
          * intros [H|H]; [by apply Hcall in H|done].
          * cbn. rewrite lookup_insert_ne; [done|]. intros E. by rewrite E, Hr in Em.
          * done.
          * done.
      - destruct (qs_relayers s !! b) as [r0|] eqn:Eb; [|done]. destruct (qr_reading r0) eqn:Erd; [|done]. injection E as <- <-. split; [|done].
        intros raw'. destruct (EncodeDatagram _); [rewrite list_elem_of_singleton; intros [= -> _]; congruence|apply not_elem_of_nil..].
      - destruct (qs_relayers s !! b) as [r0|] eqn:Eb; [|done]. destruct (qr_reading r0) eqn:Erd; [|done]. injection E as <- <-.
        split; [intros; apply not_elem_of_nil|]. cbn. rewrite lookup_insert_ne; [done|]. intros ->. congruence. }
    destruct (IH s1 s2 o2 Hr1 E2) as [Ho2 Hr2]. split; [|done]. intros raw. rewrite elem_of_app. intros [H|H]; [by apply Ho in H|by apply Ho2 in H].
Qed.

(** Datagrams to an IPv6 address are dropped: the target text lacks brackets, and
    an address that does not split into host and port does not resolve. *)
Theorem quic_ipv6_dropped (s : quicState) (raw : bytes) (now created : Time)
    (Hres : forall network a, (forall h p, SplitHostPort a <> Ok (h, p)) -> exists e, net_resolve_udp network a = Err e)
    (Hraw : EncodeDatagram (mkFrame 7 0 0 0 0 AddrTypeIPv6 (bs "2001:db8::1") 53 (bs "query")) = Ok raw)
    (Hnew : qs_relayers s !! 7 = None) :
  exists es, quic_step (QDatagram raw now created) s = Some (s, map QCall es).
Proof.
  set (f := mkFrame _ _ _ _ _ _ _ _ _) in Hraw.
  assert (frame_typed f) as Hf by (unfold frame_typed; by split_and!; vm_compute).
  rewrite (quic_step_whole f raw s now created Hf Hraw ltac:(cbn; lia)). unfold relay_for. cbn [canonical d_assoc f]. rewrite Hnew.
  assert (datagram_target (canonical f) = bs "2001:db8::1:53") as -> by (vm_compute; reflexivity).
  unfold resolveUDPWithStrategy. assert (SplitHostPort (bs "2001:db8::1:53") = Err tooManyColons) as E by (vm_compute; reflexivity).
  rewrite E. destruct (Hres (bs "udp") (bs "2001:db8::1:53")) as [e He]; [by rewrite E|]. exists [EvResolve (bs "udp") (bs "2001:db8::1:53")].
  unfold call. rewrite He. by destruct s.
Qed.

End DatagramClaims.

(** The target policy of the server does not apply to datagrams: with a policy
    that denies the loopback network a UDP stream to it is refused, and a datagram
    is sent. *)
Definition loopback_frame : DatagramFrame := mkFrame 7 0 0 0 0 AddrTypeIPv4 (bs "127.0.0.1") 53 (bs "query").

Theorem quic_datagram_unchecked :
  (exists reason, ensureTargetAllowed (U := ascii_only_unicode) (so_policy denyLocal) (bs "127.0.0.1:53") = inr reason) /\
  match EncodeDatagram loopback_frame with
  | Ok raw =>
      match quic_step (N := openNet) (QDatagram raw zeroTime zeroTime) quic_start with
      | Some (_, out) => match last out with
                         | Some (QSend _ ip port payload) => IPString ip = bs "127.0.0.1" /\ port = 53 /\ payload = bs "query"
                         | _ => False
                         end
      | None => False
      end
  | _ => False
  end.
Proof. split; [eexists; vm_compute; reflexivity|vm_compute; done]. Qed.

(** * Theorems: the accept loop *)

(** Every stream that arrives is handled or refused, each once and in order, and
    when the loop ends the connection is closed. *)
Theorem accept_loop_partition (maxStreams id : Z) (p current : nat) (conn : option nat) (streams : list arrival_stream)
    (t t' : sessionTable) (handled refused : list nat)
    (H : handleAuthenticatedTransportSession maxStreams p id current conn streams t = Some (t', handled, refused)) :
  handled ++ refused ≡ₚ map as_id streams /\ sublist handled (map as_id streams) /\ sublist refused (map as_id streams).
Proof.
  unfold handleAuthenticatedTransportSession in H. destruct (acceptLoop maxStreams p streams t) as [[[t1 h] r]|] eqn:E; cbn in H; [|done].
  destruct (removeChannel _ _ _ _); cbn in H; [|done]. injection H as _ <- <-. clear -E.
  revert t t1 h r E. induction streams as [|s streams IH]; intros t t1 h r; cbn [acceptLoop map].
  - intros [= _ <- <-]. split; [done|]. split; apply sublist_nil_l.
  - destruct (Nat.iter _ _ _) as [t2|]; cbn; [|done]. destruct (tryAcquireStream maxStreams p t2) as [[t3 [n ok]]|]; cbn; [|done].
    destruct (acceptLoop maxStreams p streams t3) as [[[t4 h'] r']|] eqn:El; cbn; [|done]. intros [= _ <- <-].
    destruct (IH _ _ _ _ El) as (H1 & H2 & H3). destruct ok; cbn.
    + split; [by constructor|]. split; [by constructor|by constructor].
    + split; [by rewrite <- Permutation_middle; constructor|]. split; by constructor.
Qed.

(** * Examples *)

Definition demo_nets : list IPNet := match parseSourceCIDRs (U := ascii_only_unicode) (bs "203.0.113.0/24") with Ok l => l | _ => [] end.

Lemma source_filter_witness :
  handle_ws_request (U := ascii_only_unicode) demo_nets (bs "/tunnel") (bs "203.0.113.9:4711") (bs "example.com") true =
    (0, WSAccepted (bs "203.0.113.9") (bs "example.com") (bs "/tunnel")) /\
  exists n ip, n ∈ demo_nets /\ net_contains n ip = true.
Proof.
  assert (parseSourceCIDRs (U := ascii_only_unicode) (bs "203.0.113.0/24") = Ok demo_nets) as E by (vm_compute; reflexivity).
  pose proof (source_filter (U := ascii_only_unicode) (bs "203.0.113.0/24") demo_nets (bs "/tunnel") (bs "203.0.113.9:4711") (bs "example.com") true E) as H.
  assert (handle_ws_request (U := ascii_only_unicode) demo_nets (bs "/tunnel") (bs "203.0.113.9:4711") (bs "example.com") true =
    (0, WSAccepted (bs "203.0.113.9") (bs "example.com") (bs "/tunnel"))) as Eh by (vm_compute; reflexivity).
  rewrite Eh in H. split; [exact Eh|]. destruct H as (H & _ & _).
  destruct (proj1 H) as (_ & h & port & ip & n & _ & _ & Hn & Hc); [by eexists _, _, _|]. exists n, ip. exact (conj Hn Hc).
Defined.

Lemma endpoint_names_agree_witness :
  bs "tunnel.example.com" = requestServerName (U := ascii_only_unicode) (bs "Tunnel.example.com:8443").
Proof.
  set (u := Config.mkURL (bs "wss") None (bs "Tunnel.example.com:8443") (bs "/t")).
  destruct (endpoint_names_agree (U := ascii_only_unicode) u u (bs "Tunnel.example.com") (bs "8443") (bs "tunnel.example.com") (bs "/t")) as [H _].
  - split; refine (bool_decide_eq_true_1 _ _); vm_compute; reflexivity.
  - right. split; vm_compute; reflexivity.
  - vm_compute. reflexivity.
  - reflexivity.
  - exact H.
Defined.

(** The relay refuses the second packet; of the answers, the one that comes after
    the uplink is over and the read timed out is not waited for. *)
Lemma udp_relay_faithful_witness :
  let refuses := fun b => if bool_decide (b = bs "two") then Some EOF else None in
  udp_uplink 5 refuses (concat (map enc_chunk [bs "one"; []; bs "two"; bs "three"])) = Some [bs "one"; bs "two"] /\
  exists w', udp_downlink (U := ascii_only_unicode) (W := bytes)
      [RelayPacket (bs "192.0.2.7:53") (bs "a"); RelayTimeout false; RelayTimeout true; RelayPacket (bs "192.0.2.7:53") (bs "b")] [] =
    (w', Some [(bs "192.0.2.7:53", bs "a")]).
Proof.
  intros refuses.
  destruct (udp_relay_faithful (U := ascii_only_unicode) (W := bytes) [bs "one"; []; bs "two"; bs "three"] refuses)
    as [(calls & E & Hc) Hdown].
  - repeat constructor; vm_compute; by intros.
  - split.
    + cbn [length] in E. rewrite E. f_equal. vm_compute in E. by injection E as <-.
    + destruct (Hdown [RelayPacket (bs "192.0.2.7:53") (bs "a"); RelayTimeout false; RelayTimeout true; RelayPacket (bs "192.0.2.7:53") (bs "b")] [])
        as (w' & w1 & sent & Ed & _ & _ & Hs); [reflexivity|].
      exists w'. rewrite Ed. do 2 f_equal. destruct Hs as [[<- _]|(a & p & rest & r & Hq & _ & _)]; [reflexivity|].
      vm_compute in Ed. by injection Ed as _ <-.
Defined.

Lemma duplex_copies_witness :
  exists d, rtc dup_step (duplex_start (bs "hello") (bs "world") 5 0) d /\ dx_out (dp_up d) = bs "he" /\
    counted (dp_up d) 5 (dp_sent d) /\ dp_sent d = 7.
Proof.
  assert (rtc dup_step (duplex_start (bs "hello") (bs "world") 5 0)
            (mkDuplex (mkDir (bs "llo") (bs "he") true) (mkDir (bs "world") [] false) false 7 0 false)) as H.
  { eapply rtc_l; [apply (Dup_copy_up _ 2); cbn; [done|done|lia]|]. eapply rtc_l; [by apply Dup_end_up|]. apply rtc_refl. }
  eexists. split; [exact H|]. split; [done|]. destruct (duplex_copies _ _ _ _ _ H) as (_ & _ & Hc & _). split; [exact Hc|done].
Defined.

(** A first datagram, to a target that a policy denies to streams, and in an
    association that has a relay a packet of 3000 bytes that comes back. *)
Definition busy_quic : quicState := mkQuicState (qs_reassembler quic_start) {[ 7 := mkQuicRelay 1 (map z2b [192; 0; 2; 7]) 53 true ]}.

Lemma quic_datagram_relayed_witness :
  exists raw s' es out, EncodeDatagram loopback_frame = Ok raw /\
    quic_step (N := openNet) (QDatagram raw zeroTime zeroTime) quic_start = Some (s', map QCall es ++ out) /\ length out = 1%nat /\
    exists raw' g, quic_step (N := openNet) (QAnswer 7 (bs "192.0.2.7:53") (replicate 3000 x61)) busy_quic = Some (busy_quic, [QReply 7 raw']) /\
      DecodeDatagram raw' = Ok g /\ length (d_payload g) = 2048%nat.
Proof.
  destruct (EncodeDatagram loopback_frame) as [raw| |] eqn:E; [|by vm_compute in E..].
  assert (frame_typed loopback_frame) as Ht by (unfold frame_typed; by split_and!; vm_compute).
  assert (d_frag_total loopback_frame <= 1) as Hone by (by vm_compute).
  destruct (quic_datagram_relayed (N := openNet) loopback_frame raw quic_start zeroTime zeroTime Ht E Hone) as [(s' & es & out & H1 & _ & H3) _].
  destruct (quic_datagram_relayed (N := openNet) loopback_frame raw busy_quic zeroTime zeroTime Ht E Hone) as [_ Ha].
  assert (exists ip, ParseIP (bs "192.0.2.7") = Some ip) as [ip Hip] by (eexists; vm_compute; reflexivity).
  assert (qs_relayers busy_quic !! 7 = Some (mkQuicRelay 1 (map z2b [192; 0; 2; 7]) 53 true)) as Hq7 by (vm_compute; reflexivity).
  assert (SplitHostPort (bs "192.0.2.7:53") = Ok (bs "192.0.2.7", bs "53") /\ Atoi (bs "53") = Some 53) as [Hsp Hat] by (split; vm_compute; reflexivity).
  destruct (Ha _ (bs "192.0.2.7:53") (replicate 3000 x61) _ _ ip 53 Hq7 eq_refl Hsp Hip Hat ltac:(lia))
    as (raw' & g & Hq & Hd & _ & _ & _ & Hp).
  exists raw, s', es, out. split; [done|]. split; [done|]. split.
  - assert (snd (resolveUDPWithStrategy (N := openNet) (datagram_target (canonical loopback_frame)) IPStrategyPv4Pv6) =
              Ok (default [] (ParseIP (bs "127.0.0.1")), 53)) as Er by (vm_compute; reflexivity).
    rewrite Er in H3. cbn in H3. by destruct H3 as [_ ->].
  - exists raw', g. split; [exact Hq|]. split; [exact Hd|]. by rewrite Hp, length_take, length_replicate.
Defined.
