(* ===== verification/Dial.v ===== *)
(** Dialling the server over WebSocket: [dialWebSocketWithECH] of
    internal/app/client.go with its retries, and the header and the address it
    dials.  A dial is given by how it ends; the TLS configurations and the shared
    ECH list are those of [EchDns]. *)

From Stdlib Require Import ZArith Lia Strings.Byte.
From stdpp Require Import base numbers list.
From S2P Require Import Prelude GoStrings GoNet NetAddr EchDns StreamOpen Transports Server.
From S2P Require Config.

Local Open Scope Z_scope.
Local Open Scope go_scope.

(** [webSocketRequestHeader]. *)
Definition defaultWebSocketUserAgent : bytes := bs "Mozilla/5.0".

Definition webSocketRequestHeader : list (bytes * bytes) :=
  [(bs "User-Agent", defaultWebSocketUserAgent); (bs "Accept-Language", bs "en-US,en;q=0.9");
   (bs "Cache-Control", bs "no-cache"); (bs "Pragma", bs "no-cache")].

(** What [NetDialContext] connects to: the address itself when it is not set,
    else the target, directly or by the front proxy. *)
Inductive tcpDial : Type :=
  | DialAddress (address : bytes)
  | DialDirect (target : bytes)
  | DialFrontProxy (target : bytes).

Definition net_dial (frontProxy : bool) (ip address : bytes) : res tcpDial :=
  if is_empty ip && negb frontProxy then Ok (DialAddress address) else
  let! target := resolveWebSocketDialTarget address ip in
  Ok (if frontProxy then DialFrontProxy target else DialDirect target).

(** How [dialer.Dial] ends: a connection, or an error with the status of the
    response if there was one. *)
Inductive dialEnd : Type :=
  | DialOK (conn : nat)
  | DialErr (status : option Z) (e : error).

(** An attempt: its dial, and the rounds of the refresh that follows it. *)
Record dialRound : Type := mkDialRound { dr_dial : dialEnd; dr_refresh : list ech_round }.

Section Dial.
Context `{U : GoUnicode} {X : ErrorText}.
Variable pool : res bytes.
Variable load_pair : bytes -> bytes -> res unit.
Variables certFile keyFile : bytes.
Variables insecure fallback : bool.

Definition auth_failed (status : option Z) : bool := bool_decide (status = Some 401).

Definition names_ech (e : error) : bool := Contains (error_text e) (bs "ECH") || Contains (error_text e) (bs "ech").

(** The refresh before another attempt; its result does not matter. *)
Definition refresh_and (k : bytes -> bytes * list TLSConfig * option (res nat)) (rounds : list ech_round) (echList : bytes)
    : bytes * list TLSConfig * option (res nat) :=
  match refreshECH fallback rounds echList with
  | (echList, None) => (echList, [], None)
  | (echList, Some Panic) => (echList, [], Some Panic)
  | (echList, Some _) => k echList
  end.

(** The loop over the attempts, [more] of them to go: the list, the TLS
    configurations dialled with, and the result, [None] while it is still
    refreshing. *)
Fixpoint wss_attempts (more : nat) (rounds : nat -> dialRound) (serverName echList : bytes) : bytes * list TLSConfig * option (res nat) :=
  match more with
  | O => (echList, [], Some (Err (Errorf "连接失败" [])))
  | S more =>
      let r := rounds O in
      let again := refresh_and (wss_attempts more (fun i => rounds (S i)) serverName) (dr_refresh r) echList in
      match buildUnifiedTLSConfig pool load_pair certFile keyFile insecure fallback echList serverName with
      | Err e => if (0 <? Z.of_nat more) then again else (echList, [], Some (Err e))
      | Panic => (echList, [], Some Panic)
      | Ok tlsCfg =>
          match dr_dial r with
          | DialOK conn => (echList, [tlsCfg], Some (Ok conn))
          | DialErr status e =>
              if auth_failed status then (echList, [tlsCfg], Some (Err (Errorf "认证失败" []))) else
              if negb fallback && names_ech e && (0 <? Z.of_nat more) then
                let '(echList, cfgs, res) := again in (echList, tlsCfg :: cfgs, res)
              else (echList, [tlsCfg], Some (Err e))
          end
      end
  end.

(** [dialWebSocketWithECH]; a dial without TLS is [None] in the trace. *)
Definition dialWebSocketWithECH (parsed : res Config.URL) (retries : Z) (rounds : nat -> dialRound) (echList : bytes)
    : bytes * list (option TLSConfig) * option (res nat) :=
  match parsed with
  | Err e => (echList, [], Some (Err e))
  | Panic => (echList, [], Some Panic)
  | Ok u =>
      let scheme := ToLower (Config.u_Scheme u) in
      if negb (bool_decide (scheme = bs "wss")) && negb (bool_decide (scheme = bs "ws"))
      then (echList, [], Some (Err (Errorf "仅支持 ws:// 或 wss:// (当前: %s)" []))) else
      if bool_decide (scheme = bs "ws") then
        (echList, [None],
         Some (match dr_dial (rounds O) with
               | DialOK conn => Ok conn
               | DialErr status e => if auth_failed status then Err (Errorf "认证失败" []) else Err e
               end))
      else
        let '(l, cfgs, r) := wss_attempts (Z.to_nat retries) rounds (Hostname (Config.u_Host u)) echList in
        (l, map Some cfgs, r)
  end.

(** * What is dialled *)

(** The configurations the attempts use. *)
Definition dial_config (serverName : bytes) (c : TLSConfig) : Prop :=
  MinVersion c = VersionTLS13 /\ ServerName c = serverName /\
  (fallback = false -> EncryptedClientHelloConfigList c <> [] /\ InsecureSkipVerify c = insecure /\
     EncryptedClientHelloRejectionVerify c = Some (Errorf "服务器拒绝 ECH" [])).

Lemma certificate_keeps c0 c : applyClientCertificate load_pair certFile keyFile c0 = Ok c ->
  MinVersion c = MinVersion c0 /\ ServerName c = ServerName c0 /\ EncryptedClientHelloConfigList c = EncryptedClientHelloConfigList c0 /\
  EncryptedClientHelloRejectionVerify c = EncryptedClientHelloRejectionVerify c0.
Proof.
  unfold applyClientCertificate. destruct (_ && _); [by intros [= <-]|].
  destruct (validateCertificatePair _ _) as [[]| |]; cbn [res_bind]; try done.
  destruct (load_pair certFile keyFile) as [[]| |]; cbn [res_bind res_map_err]; try done. by intros [= <-].
Qed.

Lemma built_config echList serverName c :
  buildUnifiedTLSConfig pool load_pair certFile keyFile insecure fallback echList serverName = Ok c -> dial_config serverName c.
Proof.
  unfold buildUnifiedTLSConfig, dial_config. destruct fallback.
  - unfold buildStandardTLSConfig. destruct pool as [roots| |]; cbn [res_bind]; try done.
    intros H%certificate_keeps. cbn in H. destruct H as (-> & -> & _). done.
  - unfold getECHList. destruct echList as [|x l]; [done|]. cbn [is_empty res_bind]. unfold buildTLSConfigWithECH.
    destruct pool as [roots| |]; cbn [res_bind]; try done.
    destruct (applyClientCertificate _ _ _ _) as [c1| |] eqn:E; cbn [res_bind]; try done. intros [= <-].
    apply certificate_keeps in E as (E1 & E2 & E3 & E4). cbn in *. rewrite E1, E2, E3, E4. done.
Qed.

Lemma wss_attempts_spec more rounds serverName echList :
  let '(_, cfgs, r) := wss_attempts more rounds serverName echList in
  Forall (dial_config serverName) cfgs /\ (length cfgs <= more)%nat /\
  (forall conn, r = Some (Ok conn) -> exists i, (i < more)%nat /\ dr_dial (rounds i) = DialOK conn /\ cfgs <> []).
Proof.
  revert rounds echList. induction more as [|more IH]; intros rounds echList; cbn [wss_attempts]; [by split_and!|].
  set (again := refresh_and _ _ _).
  assert (let '(_, cfgs, r) := again in Forall (dial_config serverName) cfgs /\ (length cfgs <= more)%nat /\
    (forall conn, r = Some (Ok conn) -> exists i, (i < S more)%nat /\ dr_dial (rounds i) = DialOK conn /\ cfgs <> [])) as Hag.
  { subst again. unfold refresh_and. destruct (refreshECH fallback (dr_refresh (rounds 0%nat)) echList) as [l [[u|e|]|]];
      [| |split_and!; [constructor|cbn; lia|done]|split_and!; [constructor|cbn; lia|done]].
    all: specialize (IH (fun i => rounds (S i)) l); destruct (wss_attempts more _ serverName l) as [[l' cfgs] r];
      destruct IH as (H1 & H2 & H3); split_and!; [done|done|]; intros conn Hc; destruct (H3 conn Hc) as (i & Hi & Hd & Hn);
      exists (S i); split_and!; [lia|done|done]. }
  clearbody again. destruct again as [[l cfgs] r]. destruct Hag as (H1 & H2 & H3).
  destruct (buildUnifiedTLSConfig _ _ _ _ _ _ _ _) as [c|e|] eqn:Eb.
  - apply built_config in Eb. destruct (dr_dial (rounds 0%nat)) as [conn|status e] eqn:Ed.
    { split_and!; [by apply Forall_singleton|cbn; lia|]. intros conn' [= ->]. exists 0%nat. split_and!; [lia|done|done]. }
    destruct (auth_failed status); [split_and!; [by apply Forall_singleton|cbn; lia|done]|].
    destruct (negb fallback && names_ech e && _); [|split_and!; [by apply Forall_singleton|cbn; lia|done]].
    split_and!; [by apply Forall_cons|cbn; lia|]. intros conn Hc. destruct (H3 conn Hc) as (i & Hi & Hd & _). by exists i.
  - destruct (0 <? Z.of_nat more); [split_and!; [done|lia|done]|split_and!; [constructor|cbn; lia|done]].
  - split_and!; [constructor|cbn; lia|done].
Qed.

(** A secure address is never dialled without TLS 1.3 and, unless fallback was
    chosen, never without ECH: every dial of a [wss] address uses the host of
    the URL as the server name and a configuration with the list loaded last,
    which fails when the server rejects ECH; there are at most [retries] dials,
    and a connection returned is that of one of them.  Only a [ws] address is
    dialled in the clear, once. *)
Theorem ws_dial_secure (u : Config.URL) (retries : Z) (rounds : nat -> dialRound) (echList : bytes) :
  let '(_, dials, r) := dialWebSocketWithECH (Ok u) retries rounds echList in
  (ToLower (Config.u_Scheme u) <> bs "ws" -> exists cfgs, dials = map Some cfgs /\
     Forall (dial_config (Hostname (Config.u_Host u))) cfgs) /\
  (ToLower (Config.u_Scheme u) = bs "ws" -> dials = [None]) /\
  (ToLower (Config.u_Scheme u) = bs "wss" -> Z.of_nat (length dials) <= Z.max 0 retries) /\
  (forall conn, r = Some (Ok conn) -> dials <> [] /\ exists i, dr_dial (rounds i) = DialOK conn).
Proof.
  unfold dialWebSocketWithECH. destruct (negb _ && negb _) eqn:Es.
  { apply andb_prop in Es as [E1%negb_true_iff%bool_decide_eq_false E2%negb_true_iff%bool_decide_eq_false].
    cbv beta iota. split_and!; [intros _; by exists []|done|cbn; lia|done]. }
  clear Es. case_bool_decide as Hws.
  { cbv beta iota. split_and!; [done|done|intros H; rewrite H in Hws; done|]. intros conn. destruct (dr_dial (rounds 0%nat)) as [c|status e] eqn:Ed.
    - intros [= ->]. split; [done|by exists 0%nat].
    - by destruct (auth_failed status). }
  pose proof (wss_attempts_spec (Z.to_nat retries) rounds (Hostname (Config.u_Host u)) echList) as H.
  destruct (wss_attempts _ _ _ _) as [[l cfgs] r]. destruct H as (H1 & H2 & H3). split_and!.
  - intros _. by exists cfgs.
  - intros H. by rewrite H in Hws.
  - intros _. rewrite length_map. lia.
  - intros conn Hc. destruct (H3 conn Hc) as (i & _ & Hd & Hn). split; [by destruct cfgs|by exists i].
Qed.

(** The refresh between two attempts has no context of the engine: once a dial
    has failed for ECH and while the name servers do not answer with a list, the
    call does not return, whatever has happened to the engine. *)
Theorem refresh_holds_dial (u : Config.URL) (retries : Z) (rounds : nat -> dialRound) (echList : bytes) (c : TLSConfig) (status : option Z) (e : error)
    (Hwss : ToLower (Config.u_Scheme u) = bs "wss") (Hretries : 1 < retries) (Hfallback : fallback = false)
    (Hbuilt : buildUnifiedTLSConfig pool load_pair certFile keyFile insecure fallback echList (Hostname (Config.u_Host u)) = Ok c)
    (Hdial : dr_dial (rounds O) = DialErr status e) (Hech : names_ech e = true) (Hstatus : auth_failed status = false)
    (Hquery : Forall (fun r => r_ctx r = None /\ (exists e, r_query r = Err e) /\ r_wait r = Ok tt) (dr_refresh (rounds O))) :
  dialWebSocketWithECH (Ok u) retries rounds echList = (echList, [Some c], None).
Proof.
  assert (forall k, refresh_and k (dr_refresh (rounds O)) echList = (echList, [], None)) as Hr.
  { intros k. unfold refresh_and, refreshECH. rewrite Hfallback.
    assert (prepareECHContext (dr_refresh (rounds O)) echList = (echList, None)) as E; [|by rewrite E].
    induction Hquery as [|r rs (H1 & [e' H2] & H3) _ IH]; [done|]. cbn [prepareECHContext]. by rewrite H1, H2, H3. }
  unfold dialWebSocketWithECH. rewrite Hwss. rewrite bool_decide_true by done. cbn [negb andb].
  rewrite bool_decide_false by done. destruct (Z.to_nat retries) as [|[|more]] eqn:Er; [lia|lia|].
  set (m := S more). cbn [wss_attempts]. rewrite Hr, Hbuilt, Hdial, Hstatus, Hech. rewrite Hfallback at 1. cbn [negb andb].
  destruct (Z.ltb_spec 0 (Z.of_nat m)); [done|lia].
Qed.

End Dial.

(** * Examples *)

Definition demo_texts : ErrorText :=
  {| error_text := fun e => match e with Errorf f _ => bs f | _ => bs "other" end;
     target_text := fun t _ => t; reason_text := fun t _ => t |}.

(** The server rejects ECH, the refresh gets a new list, the second dial works. *)
Definition demo_rounds (i : nat) : dialRound :=
  match i with
  | O => mkDialRound (DialErr None (Errorf "服务器拒绝 ECH" [])) [mkRound None (Err EOF) (Ok tt); mkRound None (Ok (StdEncoding (bs "new"))) (Ok tt)]
  | _ => mkDialRound (DialOK 7) []
  end.

Example demo_dial :
  let '(l, dials, r) := dialWebSocketWithECH (U := ascii_only_unicode) (X := demo_texts) (Ok (bs "roots")) (fun _ _ => Ok tt) [] [] false false
    (Ok (Config.mkURL (bs "WSS") None (bs "tunnel.example:443") (bs "/ws"))) 3 demo_rounds (bs "old") in
  l = bs "new" /\ map (option_map EncryptedClientHelloConfigList) dials = [Some (bs "old"); Some (bs "new")] /\
  map (option_map ServerName) dials = [Some (bs "tunnel.example"); Some (bs "tunnel.example")] /\ r = Some (Ok 7%nat).
Proof. vm_compute. done. Qed.
