(* ===== verification/Download.v ===== *)
(** Updating the databases: internal/route/download.go, [UpdateGeo] of engine.go
    and [initRouteEngine] of internal/app/route.go.  A request of an HTTP client
    is given by how it ends; files are those of [RouteRules]. *)

From Stdlib Require Import ZArith Lia Strings.Byte.
From stdpp Require Import base numbers list gmap.
From S2P Require Import Prelude GoStrings GoNet NetAddr Crypto RouteRules GeoData Server.
From S2P Require Config RouteEngine.

Local Open Scope Z_scope.
Local Open Scope go_scope.

(** * Requests *)

Definition DefaultGeoSiteURL : bytes := bs "https://github.com/MetaCubeX/meta-rules-dat/releases/download/latest/geosite.dat".
Definition DefaultGeoIPURL : bytes := bs "https://github.com/MetaCubeX/meta-rules-dat/releases/download/latest/geoip-lite.dat".
Definition geoMirrors : list bytes := [bs "https://gh-proxy.org/"; bs "https://gh-proxy.com/"].
Definition geoMaxBytes : Z := 256 * 2 ^ 20.

(** The client of the mirrors and the one a proxy may be set for. *)
Inductive httpClient : Type := directHTTPClient | updateHTTPClient.

(** How a request ends: it cannot be made, it fails, or an answer comes with a
    status and a body that may break off. *)
Inductive fetchEnd : Type :=
  | BadRequest (e : error)
  | DoFailed (e : error)
  | Answered (status : Z) (body : bytes + error).

Definition fetch (o : fetchEnd) : bytes + error :=
  match o with
  | BadRequest e => inr (Wrapf "构造下载请求 %s 失败：%w" e)
  | DoFailed e => inr (Wrapf "下载 %s 失败：%w" e)
  | Answered status body =>
      if negb (status =? 200) then inr (Errorf "下载 %s 失败：HTTP %s" []) else
      match body with
      | inl data => inl (take (Z.to_nat geoMaxBytes) data)
      | inr e => inr (Wrapf "读取 %s 响应体失败：%w" e)
      end
  end.

Section Download.
Context {U : GoUnicode} {P : GeoProto}.

(** [url.Parse] and SHA-1. *)
Context (parse : bytes -> res Config.URL) (sha1 : bytes -> bytes).

Definition isLocalDownloadURL (rawURL : bytes) : bool :=
  match parse rawURL with
  | Ok u =>
      let host := Hostname (Config.u_Host u) in
      bool_decide (host = bs "localhost") || match ParseIP host with Some ip => ip_IsLoopback ip | None => false end
  | _ => false
  end.

(** The requests made, in order, and the outcome; [net] answers a request. *)
Abbreviation network := (httpClient -> bytes -> fetchEnd).

Fixpoint try_mirrors (net : network) (rawURL : bytes) (mirrors : list bytes) (lastErr : option error)
    : list (httpClient * bytes) * (bytes + option error) :=
  match mirrors with
  | [] => ([], inr lastErr)
  | m :: mirrors =>
      if is_empty m then try_mirrors net rawURL mirrors lastErr else
      match fetch (net directHTTPClient (m ++ rawURL)) with
      | inl data => ([(directHTTPClient, m ++ rawURL)], inl data)
      | inr e => let '(reqs, r) := try_mirrors net rawURL mirrors (Some e) in ((directHTTPClient, m ++ rawURL) :: reqs, r)
      end
  end.

Definition downloadWithMirrors (net : network) (rawURL : bytes) : list (httpClient * bytes) * (bytes + error) :=
  if isLocalDownloadURL rawURL then ([(directHTTPClient, rawURL)], fetch (net directHTTPClient rawURL)) else
  match try_mirrors net rawURL geoMirrors None with
  | (reqs, inl data) => (reqs, inl data)
  | (reqs, inr lastErr) =>
      (reqs ++ [(updateHTTPClient, rawURL)],
       match fetch (net updateHTTPClient rawURL), lastErr with
       | inr e, Some _ => inr (Wrapf "%w（镜像亦失败：%v）" e)
       | r, _ => r
       end)
  end.

(** * Files *)

(** What happens around the update of one file: the network, and the call of the
    write that fails with what it has left, the clock, and the temporary name. *)
Record updateEnv : Type := mkUpdate {
  ue_net : network; ue_fail : option write_call; ue_partial : bytes; ue_now : Z; ue_tmp : bytes;
}.

Definition validateGeoSite (data : bytes) : res unit :=
  match unmarshal_GeoSiteList data with Some _ => Ok tt | None => Err (Errorf "不是有效的 v2ray protobuf（GeoSiteList）：%w" []) end.

Definition validateGeoIP (data : bytes) : res unit :=
  match unmarshal_GeoIPList data with Some _ => Ok tt | None => Err (Errorf "不是有效的 v2ray protobuf（GeoIPList）：%w" []) end.

Definition validateRules (data : bytes) : res unit :=
  match ParseRules data with
  | Ok _ => Ok tt
  | Err e => Err (Wrapf "不是有效的规则文本：%w" e)
  | Panic => Panic
  end.

(** [updateOne]: the file systems a reader can see on the way, the last one, and
    whether the file was written. *)
Definition updateOne (env : updateEnv) (url dst : bytes) (validate : bytes -> res unit) (fs : fsys) : list fsys * fsys * res bool :=
  match snd (downloadWithMirrors (ue_net env) url) with
  | inl data =>
      let write :=
        match validate data with
        | Ok _ =>
            let '(seen, fs', r) := atomicWriteFile (ue_fail env) (ue_partial env) (ue_now env) (ue_tmp env) dst data fs in
            (seen, fs', match r with Ok _ => Ok true | Err e => Err (Wrapf "写入 GEO 文件 %s 失败：%w" e) | Panic => Panic end)
        | Err e => ([], fs, Err (Wrapf "下载的 %s 校验失败：%w" e))
        | Panic => ([], fs, Panic)
        end in
      match os_ReadFile fs dst with
      | inl existing => if bool_decide (sha1 existing = sha1 data) then ([], fs, Ok false) else write
      | inr ErrNotExist => write
      | inr e => ([], fs, Err (Wrapf "读取现有 GEO 文件 %s 失败：%w" (os_err e)))
      end
  | inr e => ([], fs, Err e)
  end.

Definition sitePath (geoDir : bytes) : bytes := RouteEngine.filepath_Join geoDir (bs "geosite.dat").
Definition ipPath (geoDir : bytes) : bytes := RouteEngine.filepath_Join geoDir (bs "geoip-lite.dat").

(** [UpdateGeoData]: the pair it returns is whether a file was written and the
    error, which may come together. *)
Definition UpdateGeoData (mkdir : option error) (env1 env2 : updateEnv) (geoDir siteURL ipURL : bytes) (fs : fsys)
    : list fsys * fsys * res (bool * option error) :=
  match mkdir with
  | Some e => ([], fs, Ok (false, Some (Wrapf "创建 GEO 目录 %s 失败：%w" e)))
  | None =>
      let '(seen1, fs1, r1) :=
        if is_empty siteURL then ([], fs, Ok false) else updateOne env1 siteURL (sitePath geoDir) validateGeoSite fs in
      match r1 with
      | Ok updated =>
          let '(seen2, fs2, r2) :=
            if is_empty ipURL then ([], fs1, Ok false) else updateOne env2 ipURL (ipPath geoDir) validateGeoIP fs1 in
          (seen1 ++ fs1 :: seen2, fs2,
           match r2 with
           | Ok ok => Ok (updated || ok, None)
           | Err e => Ok (updated, Some e)
           | Panic => Panic
           end)
      | Err e => (seen1, fs1, Ok (false, Some e))
      | Panic => (seen1, fs1, Panic)
      end
  end.

Definition DownloadDefaultRules (mkdir : option error) (env : updateEnv) (path url : bytes) (fs : fsys) : list fsys * fsys * res bool :=
  if is_empty url then ([], fs, Err (Errorf "默认规则下载地址为空" [])) else
  match mkdir with
  | Some e => ([], fs, Err (Wrapf "创建规则目录失败：%w" e))
  | None => updateOne env url path validateRules fs
  end.

(** * The engine *)

Context {R : GoRegexp} {Srt : GoSort} {C : Crypto}.

(** [UpdateGeo] with its download: the files, the engine, the two results. *)
Definition Engine_UpdateGeo (mkdir : option error) (env1 env2 : updateEnv) (now : Z) (fs : fsys) (e : RouteEngine.Engine)
    : fsys * RouteEngine.Engine * res (bool * option error) :=
  let '(_, fs', r) := UpdateGeoData mkdir env1 env2 (RouteEngine.e_geoDir e) DefaultGeoSiteURL DefaultGeoIPURL fs in
  (fs', match r with
        | Ok (updated, None) => fst (RouteEngine.UpdateGeo (Ok updated) fs' now e)
        | _ => e
        end, r).

(** [initRouteEngine]: the engine, and the address of the proxy for downloads
    when a SOCKS5 listener is configured.  [newEngine] is [route.NewEngine]. *)
Definition rules_path (v : Config.runtimeValues) : bytes :=
  if is_empty (Config.v_RulesPath v) then bs "rules.txt" else Config.v_RulesPath v.
Definition geo_dir (v : Config.runtimeValues) : bytes :=
  if is_empty (Config.v_GeoDir v) then bs "geo" else Config.v_GeoDir v.

Definition initRouteEngine (newEngine : bytes -> bytes -> res RouteEngine.Engine) (v : Config.runtimeValues)
    : res (RouteEngine.Engine * option bytes) :=
  let! e := newEngine (rules_path v) (geo_dir v) in
  let proxyURL := RouteEngine.firstSOCKS5ListenAddr (Config.v_ListenAddr v) in
  Ok (e, if is_empty proxyURL then None else match parse proxyURL with Ok u => Some (Config.u_Host u) | _ => None end).

(** The goroutine it starts: three updates at most, until one has no error or
    the context is done.  [tries] and [stops] tell what happens at each. *)
Record attemptEnv : Type := mkAttempt { at_mkdir : option error; at_site : updateEnv; at_ip : updateEnv; at_now : Z; at_stop : bool }.

Definition geo_attempts : nat := 3.

Fixpoint first_download (n : nat) (tries : list attemptEnv) (fs : fsys) (e : RouteEngine.Engine) : fsys * RouteEngine.Engine * nat :=
  match n, tries with
  | S n, t :: tries =>
      let '(fs, e, r) := Engine_UpdateGeo (at_mkdir t) (at_site t) (at_ip t) (at_now t) fs e in
      match r with
      | Ok (_, None) | Panic => (fs, e, 1%nat)
      | _ => if at_stop t then (fs, e, 1%nat) else let '(fs, e, k) := first_download n tries fs e in (fs, e, S k)
      end
  | _, _ => (fs, e, O)
  end.

End Download.

(** * Which source is asked *)

Section Theorems.
Context {U : GoUnicode} {P : GeoProto} (parse : bytes -> res Config.URL) (sha1 : bytes -> bytes).

Lemma try_mirrors_spec net rawURL mirrors lastErr : Forall (fun m => m <> []) mirrors ->
  match try_mirrors net rawURL mirrors lastErr with
  | (reqs, inl data) => exists before m after, mirrors = before ++ m :: after /\
      reqs = map (fun m => (directHTTPClient, m ++ rawURL)) (before ++ [m]) /\
      Forall (fun m => exists e, fetch (net directHTTPClient (m ++ rawURL)) = inr e) before /\
      fetch (net directHTTPClient (m ++ rawURL)) = inl data
  | (reqs, inr last) => reqs = map (fun m => (directHTTPClient, m ++ rawURL)) mirrors /\
      Forall (fun m => exists e, fetch (net directHTTPClient (m ++ rawURL)) = inr e) mirrors /\
      (mirrors <> [] -> is_Some last)
  end.
Proof.
  intros Hne. revert lastErr. induction mirrors as [|m mirrors IH]; intros lastErr; cbn [try_mirrors]; [by split_and!|].
  apply Forall_cons in Hne as [Hm Hms]. destruct m as [|c m]; [done|]. cbn [is_empty]. set (x := c :: m) in *.
  destruct (fetch (net directHTTPClient (x ++ rawURL))) as [data|e] eqn:Ef.
  - exists [], x, mirrors. by split_and!.
  - specialize (IH Hms (Some e)). destruct (try_mirrors net rawURL mirrors (Some e)) as [reqs [data|last]] eqn:Et.
    + destruct IH as (before & y & after & -> & -> & Hb & Hy). exists (x :: before), y, after. split_and!; try done. constructor; eauto.
    + destruct IH as (-> & Hall & Hl). split_and!; [done|constructor; eauto|]. intros _. destruct mirrors; [|by apply Hl].
      cbn in Et. by injection Et as <-.
Qed.

(** The mirrors are asked first, directly and in order, and the client with the
    proxy only when all of them have failed; the first answer is taken, and a
    local address is asked directly and nothing else. *)
Theorem mirrors_first (net : httpClient -> bytes -> fetchEnd) (rawURL : bytes) :
  let '(reqs, r) := downloadWithMirrors parse net rawURL in
  let asked ms := map (fun m => (directHTTPClient, m ++ rawURL)) ms in
  let failed ms := Forall (fun m => exists e, fetch (net directHTTPClient (m ++ rawURL)) = inr e) ms in
  if isLocalDownloadURL parse rawURL then reqs = [(directHTTPClient, rawURL)] /\ r = fetch (net directHTTPClient rawURL)
  else (exists before m after data, geoMirrors = before ++ m :: after /\ reqs = asked (before ++ [m]) /\ failed before /\
          fetch (net directHTTPClient (m ++ rawURL)) = inl data /\ r = inl data) \/
       (reqs = asked geoMirrors ++ [(updateHTTPClient, rawURL)] /\ failed geoMirrors /\
          match fetch (net updateHTTPClient rawURL) with inl data => r = inl data | inr _ => exists e, r = inr e end).
Proof.
  unfold downloadWithMirrors. destruct (isLocalDownloadURL parse rawURL); [done|].
  pose proof (try_mirrors_spec net rawURL geoMirrors None ltac:(by repeat constructor)) as H.
  destruct (try_mirrors net rawURL geoMirrors None) as [reqs [data|last]].
  - destruct H as (before & m & after & E & -> & Hb & Hm). left. by exists before, m, after, data.
  - destruct H as (-> & Hall & _). right. split_and!; [done|done|]. destruct (fetch _) as [|e]; [done|]. destruct last; eauto.
Qed.

(** * What is on disk *)

(** The update of one file replaces it whole, with data that was checked, or
    leaves everything as it was. *)
Lemma updateOne_spec env url dst validate fs : ue_tmp env <> dst -> fs !! ue_tmp env = None ->
  let '(seen, fs', r) := updateOne parse sha1 env url dst validate fs in
  Forall (fun f => f !! dst = fs !! dst /\ forall q, q <> dst -> q <> ue_tmp env -> f !! q = fs !! q) seen /\
  match r with
  | Ok true => exists data, snd (downloadWithMirrors parse (ue_net env) url) = inl data /\ validate data = Ok tt /\
      fs' = <[dst := mkFile data (ue_now env) true]> fs
  | Ok false => fs' = fs /\ exists data old, snd (downloadWithMirrors parse (ue_net env) url) = inl data /\
      os_ReadFile fs dst = inl old /\ sha1 old = sha1 data
  | _ => fs' = fs
  end.
Proof.
  intros Htmp Hfresh. unfold updateOne. destruct (snd (downloadWithMirrors parse (ue_net env) url)) as [data|e]; [|done].
  pose proof (atomic_write_all_or_nothing (ue_fail env) (ue_partial env) (ue_now env) (ue_tmp env) dst data fs Htmp Hfresh) as Hw.
  assert (forall f : fsys, f ∈ fst (fst (atomicWriteFile (ue_fail env) (ue_partial env) (ue_now env) (ue_tmp env) dst data fs)) ->
    forall q, q <> ue_tmp env -> f !! q = fs !! q) as Hq.
  { intros f Hf q Hne. unfold atomicWriteFile in Hf. cbv zeta in Hf.
    repeat (case_bool_decide; cbn [fst] in Hf); rewrite ?elem_of_cons, ?elem_of_nil in Hf; destruct_or?; try done; subst f;
      by rewrite ?lookup_insert_ne by done. }
  destruct (atomicWriteFile _ _ _ _ _ _ _) as [[seen fs1] r1] eqn:Ew. destruct Hw as [Hs Hr].
  assert (forall v, validate data = v -> let '(s, f, r) := (match v with
      | Ok _ => (seen, fs1, match r1 with Ok _ => Ok true | Err e => Err (Wrapf "写入 GEO 文件 %s 失败：%w" e) | Panic => Panic end)
      | Err e => ([], fs, Err (Wrapf "下载的 %s 校验失败：%w" e))
      | Panic => ([], fs, Panic) end) in
    Forall (fun f => f !! dst = fs !! dst /\ forall q, q <> dst -> q <> ue_tmp env -> f !! q = fs !! q) s /\
    match r with
    | Ok true => exists data', inl data = inl data' :> bytes + error /\ validate data' = Ok tt /\ f = <[dst := mkFile data' (ue_now env) true]> fs
    | Ok false => f = fs /\ exists data' old, inl data = inl data' :> bytes + error /\ os_ReadFile fs dst = inl old /\ sha1 old = sha1 data'
    | _ => f = fs
    end) as Hwrite.
  { intros [[]|e|] Hv; [|done|done]. split.
    - apply Forall_forall. intros f Hf. split; [by eapply Forall_forall in Hs|]. intros q _ Hne. by apply Hq.
    - destruct (ue_fail env); [destruct Hr as [-> [e ->]]; done|]. destruct Hr as [-> ->]. eauto. }
  specialize (Hwrite (validate data) eq_refl).
  destruct (os_ReadFile fs dst) as [old|[]] eqn:Eo; [|done|done].
  case_bool_decide as Hsha; [|done]. split; [constructor|]. split; [done|]. by exists data, old.
Qed.

(** A database file is the one from before or a complete one that decodes. *)
Definition sound_file {A} (decode : bytes -> option A) (old now : option file) : Prop :=
  now = old \/ exists data t, now = Some (mkFile data t true) /\ is_Some (decode data).

Lemma updateOne_sound {A} (decode : bytes -> option A) env url dst validate fs :
  (forall data, validate data = Ok tt -> is_Some (decode data)) -> ue_tmp env <> dst -> fs !! ue_tmp env = None ->
  let '(seen, fs', r) := updateOne parse sha1 env url dst validate fs in
  Forall (fun f => sound_file decode (fs !! dst) (f !! dst) /\ forall q, q <> dst -> q <> ue_tmp env -> f !! q = fs !! q) (seen ++ [fs']) /\
  fs' !! ue_tmp env = None /\ (r = Ok false -> fs' = fs) /\ (forall e, r = Err e -> fs' = fs).
Proof.
  intros Hv Htmp Hfresh. pose proof (updateOne_spec env url dst validate fs Htmp Hfresh) as H.
  destruct (updateOne parse sha1 env url dst validate fs) as [[seen fs'] r]. destruct H as [Hs Hr].
  assert (Forall (fun f => sound_file decode (fs !! dst) (f !! dst) /\ forall q, q <> dst -> q <> ue_tmp env -> f !! q = fs !! q) seen) as Hseen.
  { eapply Forall_impl; [exact Hs|]. intros f [H1 H2]. split; [by left|done]. }
  destruct r as [[]|e|].
  2-4: assert (fs' = fs) as -> by tauto; split_and!; [apply Forall_app; split; [done|]; repeat constructor; by left|done|done|done].
  destruct Hr as (data & _ & Hok & ->). split_and!; [|by rewrite lookup_insert_ne|done|done].
  apply Forall_app. split; [done|]. apply Forall_singleton. split.
  - right. exists data, (ue_now env). rewrite lookup_insert_eq. split; [done|by apply Hv].
  - intros q Hq _. by rewrite lookup_insert_ne.
Qed.

(** Whoever reads the two database files while they are updated sees, of each,
    the file from before or a complete one that decodes, whatever the network
    and the disk do; an update that reports no change and no error has changed
    nothing. *)
Theorem geo_update_atomic (mkdir : option error) (env1 env2 : updateEnv) (geoDir siteURL ipURL : bytes) (fs : fsys)
    (Hpaths : sitePath geoDir <> ipPath geoDir)
    (H1 : ue_tmp env1 <> sitePath geoDir /\ ue_tmp env1 <> ipPath geoDir /\ fs !! ue_tmp env1 = None)
    (H2 : ue_tmp env2 <> sitePath geoDir /\ ue_tmp env2 <> ipPath geoDir /\ fs !! ue_tmp env2 = None) :
  let '(seen, fs', r) := UpdateGeoData parse sha1 mkdir env1 env2 geoDir siteURL ipURL fs in
  Forall (fun f => sound_file unmarshal_GeoSiteList (fs !! sitePath geoDir) (f !! sitePath geoDir) /\
                   sound_file unmarshal_GeoIPList (fs !! ipPath geoDir) (f !! ipPath geoDir)) (seen ++ [fs']) /\
  (r = Ok (false, None) -> fs' = fs).
Proof.
  destruct H1 as (A1 & A2 & A3), H2 as (B1 & B2 & B3). unfold UpdateGeoData.
  assert (forall (f : fsys) q, f !! q = fs !! q -> forall A (d : bytes -> option A), sound_file d (fs !! q) (f !! q)) as Hsame by (intros; by left).
  destruct mkdir as [e|]; [split; [repeat constructor; by left|done]|].
  set (u1 := if is_empty siteURL then _ else _).
  assert (let '(seen, f1, r) := u1 in Forall (fun f => sound_file unmarshal_GeoSiteList (fs !! sitePath geoDir) (f !! sitePath geoDir) /\
            forall q, q <> sitePath geoDir -> q <> ue_tmp env1 -> f !! q = fs !! q) (seen ++ [f1]) /\
          (f1 !! ue_tmp env2 = None) /\ (r = Ok false -> f1 = fs)) as Hu1.
  { subst u1. destruct (is_empty siteURL); [split_and!; [repeat constructor; by left|done|done]|].
    pose proof (updateOne_sound unmarshal_GeoSiteList env1 siteURL (sitePath geoDir) validateGeoSite fs) as H.
    destruct (updateOne _ _ _ _ _ _ _) as [[seen f1] r]. destruct H as (Ha & Hb & Hc & _); try done.
    { intros data. unfold validateGeoSite. by destruct (unmarshal_GeoSiteList data). }
    split_and!; [done| |done]. destruct (decide (ue_tmp env2 = ue_tmp env1)) as [->|Hne]; [done|].
    apply Forall_app in Ha as [_ Ha]. apply Forall_cons in Ha as [[_ Ha] _]. by rewrite Ha. }
  destruct u1 as [[seen1 f1] r1]. destruct Hu1 as (Ha & Hb & Hc).
  assert (Forall (fun f => sound_file unmarshal_GeoSiteList (fs !! sitePath geoDir) (f !! sitePath geoDir) /\
                   sound_file unmarshal_GeoIPList (fs !! ipPath geoDir) (f !! ipPath geoDir)) (seen1 ++ [f1])) as Hs1.
  { eapply Forall_impl; [exact Ha|]. intros f [Hf1 Hf2]. split; [done|]. left. by apply Hf2. }
  destruct r1 as [updated|e|]; [|by split|by split].
  apply Forall_app in Ha as [_ Ha]. apply Forall_cons in Ha as [[Ha1 Ha2] _].
  set (u2 := if is_empty ipURL then _ else _).
  assert (let '(seen, f2, r) := u2 in Forall (fun f => sound_file unmarshal_GeoSiteList (fs !! sitePath geoDir) (f !! sitePath geoDir) /\
            sound_file unmarshal_GeoIPList (fs !! ipPath geoDir) (f !! ipPath geoDir)) (seen ++ [f2]) /\ (r = Ok false -> f2 = f1)) as Hu2.
  { subst u2. apply Forall_app in Hs1 as [_ Hs1]. destruct (is_empty ipURL); [done|].
    pose proof (updateOne_sound unmarshal_GeoIPList env2 ipURL (ipPath geoDir) validateGeoIP f1) as H.
    destruct (updateOne _ _ _ _ _ _ _) as [[seen f2] r]. destruct H as (Hx & _ & Hy & _); try done.
    { intros data. unfold validateGeoIP. by destruct (unmarshal_GeoIPList data). }
    split; [|done]. eapply Forall_impl; [exact Hx|]. intros f [Hf1 Hf2]. rewrite Hf2 by done. split; [done|].
    by rewrite <- (Ha2 (ipPath geoDir)) by congruence. }
  destruct u2 as [[seen2 f2] r2]. destruct Hu2 as [Hd He]. split.
  - change (seen1 ++ f1 :: seen2) with (seen1 ++ [f1] ++ seen2). rewrite !(assoc_L (++)), <- (assoc_L (++)). by apply Forall_app.
  - destruct r2 as [ok|e|]; [|done|done]. intros [= [Hu Ho]%orb_false_iff]. subst. by rewrite He, Hc.
Qed.

End Theorems.

(** * A file that is never taken up *)

Section NotLoaded.
Context {U : GoUnicode} {P : GeoProto} {R : GoRegexp} {Srt : GoSort} {C : Crypto} (parse : bytes -> res Config.URL) (sha1 : bytes -> bytes).

(** An update writes a new geosite file and then fails on the other one, so the
    engine does not load it; the next update finds the new file on disk, has
    nothing to write, reports that all is up to date, and the engine still has
    the database from before.  Nothing but a later release or a restart loads
    it. *)
Theorem partial_update_not_loaded (a1 a2 b1 b2 : updateEnv) (t1 t2 : Z) (fs : fsys) (e : RouteEngine.Engine) (d : bytes) (g : file) (err : error)
    (Hpaths : sitePath (RouteEngine.e_geoDir e) <> ipPath (RouteEngine.e_geoDir e))
    (Htmp : ue_tmp a1 <> sitePath (RouteEngine.e_geoDir e)) (Hfresh : fs !! ue_tmp a1 = None) (Hwrite : ue_fail a1 = None)
    (Hsite : snd (downloadWithMirrors parse (ue_net a1) DefaultGeoSiteURL) = inl d) (Hvalid : is_Some (unmarshal_GeoSiteList d))
    (Hnew : fs !! sitePath (RouteEngine.e_geoDir e) = None)
    (Hip : snd (downloadWithMirrors parse (ue_net a2) DefaultGeoIPURL) = inr err)
    (Hsite2 : snd (downloadWithMirrors parse (ue_net b1) DefaultGeoSiteURL) = inl d)
    (Hdisk : fs !! ipPath (RouteEngine.e_geoDir e) = Some g) (Hread : f_readable g = true)
    (Hip2 : snd (downloadWithMirrors parse (ue_net b2) DefaultGeoIPURL) = inl (f_data g)) :
  let fs1 := <[sitePath (RouteEngine.e_geoDir e) := mkFile d (ue_now a1) true]> fs in
  Engine_UpdateGeo parse sha1 None a1 a2 t1 fs e = (fs1, e, Ok (true, Some err)) /\
  Engine_UpdateGeo parse sha1 None b1 b2 t2 fs1 e = (fs1, e, Ok (false, None)).
Proof.
  cbv zeta. set (site := sitePath (RouteEngine.e_geoDir e)) in *. set (ip := ipPath (RouteEngine.e_geoDir e)) in *.
  set (fs1 := <[site := mkFile d (ue_now a1) true]> fs).
  assert (updateOne parse sha1 a1 DefaultGeoSiteURL site validateGeoSite fs =
          (fst (fst (atomicWriteFile None (ue_partial a1) (ue_now a1) (ue_tmp a1) site d fs)), fs1, Ok true)) as E1.
  { unfold updateOne. rewrite Hsite, Hwrite. unfold os_ReadFile, validateGeoSite. rewrite Hnew. destruct Hvalid as [l ->].
    pose proof (atomic_write_all_or_nothing None (ue_partial a1) (ue_now a1) (ue_tmp a1) site d fs Htmp Hfresh) as Hw.
    destruct (atomicWriteFile _ _ _ _ _ _ _) as [[seen f] r]. destruct Hw as [_ [-> ->]]. done. }
  assert (updateOne parse sha1 a2 DefaultGeoIPURL ip validateGeoIP fs1 = ([], fs1, Err err)) as E2 by (unfold updateOne; by rewrite Hip).
  assert (updateOne parse sha1 b1 DefaultGeoSiteURL site validateGeoSite fs1 = ([], fs1, Ok false)) as E3.
  { unfold updateOne, os_ReadFile. rewrite Hsite2. subst fs1. rewrite lookup_insert_eq. cbn [f_readable f_data]. by rewrite bool_decide_true. }
  assert (updateOne parse sha1 b2 DefaultGeoIPURL ip validateGeoIP fs1 = ([], fs1, Ok false)) as E4.
  { unfold updateOne, os_ReadFile. rewrite Hip2. subst fs1. rewrite lookup_insert_ne, Hdisk, Hread by done. by rewrite bool_decide_true. }
  unfold Engine_UpdateGeo, UpdateGeoData. change (is_empty DefaultGeoSiteURL) with false. change (is_empty DefaultGeoIPURL) with false.
  fold site ip. rewrite E1, E2, E3, E4. done.
Qed.

End NotLoaded.

(** * Examples *)

Section Sample.
#[local] Instance sample_GU : GoUnicode := ascii_only_unicode.
#[local] Instance sample_GP : GeoProto := sample_GeoProto.

Definition net_down : httpClient -> bytes -> fetchEnd := fun _ _ => DoFailed EOF.

(** The first mirror gives an error page, the second the file. *)
Definition second_mirror : httpClient -> bytes -> fetchEnd := fun _ url =>
  if HasPrefix url (bs "https://gh-proxy.com/") then Answered 200 (inl (bs "site")) else Answered 502 (inl (bs "<html>")).

Definition demo_update (net : httpClient -> bytes -> fetchEnd) : updateEnv := mkUpdate net None [] 7 (bs ".route-1.tmp").

Lemma geo_update_atomic_witness :
  let '(seen, fs', r) := UpdateGeoData Config.plain_url (fun b => b) None (demo_update second_mirror) (demo_update net_down) (bs "geo")
                           DefaultGeoSiteURL DefaultGeoIPURL ∅ in
  Forall (fun f => sound_file unmarshal_GeoSiteList None (f !! sitePath (bs "geo")) /\
                   sound_file unmarshal_GeoIPList None (f !! ipPath (bs "geo"))) (seen ++ [fs']).
Proof.
  pose proof (geo_update_atomic Config.plain_url (fun b => b) None (demo_update second_mirror) (demo_update net_down) (bs "geo")
    DefaultGeoSiteURL DefaultGeoIPURL ∅) as H.
  destruct (UpdateGeoData _ _ _ _ _ _ _ _ _) as [[seen fs'] r].
  refine (proj1 (H _ _ _)); repeat split; vm_compute; discriminate || reflexivity.
Defined.

Example demo_update_result :
  let '(_, fs', r) := UpdateGeoData Config.plain_url (fun b => b) None (demo_update second_mirror) (demo_update second_mirror) (bs "geo")
                           DefaultGeoSiteURL [] ∅ in
  (fs' !! bs "geo/geosite.dat", r) = (Some (mkFile (bs "site") 7 true), Ok (true, None)).
Proof. vm_compute. reflexivity. Qed.

End Sample.
