(* ===== verification/Status.v ===== *)
(** What the program shows of itself: the status and the statistics of
    internal/app/status.go and the metrics of server.go.  The counters of the
    package are one record, the state of the pool and of the session table are
    those of their own files. *)

From Stdlib Require Import ZArith Lia Strings.Byte Floats.SpecFloat.
From stdpp Require Import base numbers list gmap.
From S2P Require Import Prelude GoStrings NetAddr GoTime Policy Rotation StreamOpen Pool LogRing.
From S2P Require Config Sessions Engine.

Local Open Scope Z_scope.
Local Open Scope go_scope.

(** * Counters *)

(** The counters of the package, [uint64] each. *)
Record runtimeCounters : Type := mkCounters {
  serverStreamSeq : Z;
  udpAssociationSeq : Z;
  udpAssociationActiveSeq : Z;
  reconnectSeq : Z;
  serverSourceRejectSeq : Z;
  authRejectSeq : Z;
  clientRejectSeq : Z;
  serverStreamRejectSeq : Z;
  serverTargetRejectSeq : Z;
  serverUnsupportedStreamSeq : Z;
  protocolOKSeq : Z;
  protocolRejectSeq : Z;
  protocolFailureSeq : Z;
  protocolReplaySeq : Z;
  tai64nRejectSeq : Z;
  tai64nEvictSeq : Z;
  clientOKSeq : Z;
  clientFailureSeq : Z;
  rttProbeFailureSeq : Z;
  runtimeBytesSentSeq : Z;
  runtimeBytesReceivedSeq : Z;
}.

(** [countServerSessions], [countServerChannels]; the sum over the streams is
    [Sessions.countServerActiveStreams]. *)
Definition countServerSessions (t : Sessions.sessionTable) : Z := Z.of_nat (size (Sessions.tb_sessions t)).

Definition channelCount (t : Sessions.sessionTable) (p : nat) : Z :=
  match Sessions.tb_heap t !! p with Some s => Z.of_nat (size (Sessions.cs_channels s)) | None => 0 end.

Definition countServerChannels (t : Sessions.sessionTable) : Z :=
  map_fold (fun _ p count => count + channelCount t p) 0 (Sessions.tb_sessions t).

(** * Channels *)

(** [float64(ns) / float64(time.Second)]. *)
Definition rttSeconds (ns : Z) : spec_float :=
  SFdiv 53 1024 (binary_normalize 53 1024 ns 0 false) (binary_normalize 53 1024 Second 0 false).

Record ClientChannelStatus : Type := mkChannelStatus {
  ccs_Channel : Z; ccs_Up : bool; ccs_RTTSeconds : spec_float; ccs_Capabilities : Z;
}.

(** [sessUp] and [smuxUp]: an entry of a slice that holds an open session. *)
Definition entry_up (w : world) (l : list (option nat)) (i : nat) : bool :=
  match l !! i with Some (Some s) => negb (is_closed s (w_heap w)) | _ => false end.

Definition channel_status (w : world) (i : nat) (rtt : Z) : ClientChannelStatus :=
  let p := w_pool w in
  mkChannelStatus (Z.of_nat i + 1) (entry_up w (transportSessions p) i || entry_up w (smuxConns p) i)
    (rttSeconds rtt) (default 0 (channelCaps p !! i)).

(** [snapshotClientChannels]; [None] is the [nil] pool. *)
Definition snapshotClientChannels (pool : option world) : list ClientChannelStatus :=
  match pool with
  | None => []
  | Some w => imap (channel_status w) (channelRTT (w_pool w))
  end.

(** * Metrics *)

(** A float with nine decimals, the nearest ones, ties to even. *)
Definition round_div (a b : Z) : Z :=
  let q := a / b in
  let r := a mod b in
  if 2 * r <? b then q else if b <? 2 * r then q + 1 else if Z.even q then q else q + 1.

Definition pad_left (n : nat) (s : bytes) : bytes := replicate (n - length s) (z2b 48) ++ s.

Definition nine_decimals (neg : bool) (n : Z) : bytes :=
  (if neg then bs "-" else []) ++ Itoa (n / 10 ^ 9) ++ bs "." ++ pad_left 9 (Itoa (n mod 10 ^ 9)).

Definition fixed9 (x : spec_float) : bytes :=
  match x with
  | S754_zero s => nine_decimals s 0
  | S754_finite s m e => nine_decimals s (if 0 <=? e then Zpos m * 2 ^ e * 10 ^ 9 else round_div (Zpos m * 10 ^ 9) (2 ^ (- e)))
  | S754_infinity s => if s then bs "-Inf" else bs "+Inf"
  | S754_nan => bs "NaN"
  end.

Definition type_line (name kind : bytes) : bytes := bs "# TYPE " ++ name ++ bs " " ++ kind ++ [newline].

Definition sample_line (name value : bytes) : bytes := name ++ bs " " ++ value ++ [newline].

Definition metric (kind name : bytes) (value : Z) : bytes := type_line name kind ++ sample_line name (Itoa value).

(** The names of [writeMetrics], in order, with the counters behind them. *)
Definition counter_metrics (c : runtimeCounters) : list (bytes * bytes * Z) :=
  let counter := bs "counter" in
  [(counter, bs "x_tunnel_server_streams_total", serverStreamSeq c);
   (counter, bs "x_tunnel_udp_associations_total", udpAssociationSeq c);
   (bs "gauge", bs "x_tunnel_udp_associations_active", udpAssociationActiveSeq c);
   (counter, bs "x_tunnel_client_reconnects_total", reconnectSeq c);
   (counter, bs "x_tunnel_server_source_rejections_total", serverSourceRejectSeq c);
   (counter, bs "x_tunnel_server_auth_rejections_total", authRejectSeq c);
   (counter, bs "x_tunnel_server_client_session_rejections_total", clientRejectSeq c);
   (counter, bs "x_tunnel_server_stream_rejections_total", serverStreamRejectSeq c);
   (counter, bs "x_tunnel_server_target_rejections_total", serverTargetRejectSeq c);
   (counter, bs "x_tunnel_server_unsupported_streams_total", serverUnsupportedStreamSeq c);
   (counter, bs "x_tunnel_server_protocol_negotiations_total", protocolOKSeq c);
   (counter, bs "x_tunnel_server_protocol_negotiation_rejections_total", protocolRejectSeq c);
   (counter, bs "x_tunnel_server_protocol_negotiation_failures_total", protocolFailureSeq c);
   (counter, bs "x_tunnel_server_protocol_v2_accepts_total", protocolOKSeq c);
   (counter, bs "x_tunnel_server_protocol_v2_rejections_total", protocolRejectSeq c);
   (counter, bs "x_tunnel_server_protocol_v2_replay_rejections_total", protocolReplaySeq c);
   (counter, bs "x_tunnel_server_protocol_v2_auth_failures_total", authRejectSeq c);
   (counter, bs "x_tunnel_server_tai64n_rejections_total", tai64nRejectSeq c);
   (counter, bs "x_tunnel_server_tai64n_lru_evictions_total", tai64nEvictSeq c);
   (counter, bs "x_tunnel_client_protocol_negotiations_total", clientOKSeq c);
   (counter, bs "x_tunnel_client_protocol_negotiation_failures_total", clientFailureSeq c);
   (counter, bs "x_tunnel_client_protocol_v2_success_total", clientOKSeq c);
   (counter, bs "x_tunnel_client_protocol_v2_failures_total", clientFailureSeq c);
   (counter, bs "x_tunnel_client_rtt_probe_failures_total", rttProbeFailureSeq c);
   (counter, bs "x_tunnel_runtime_bytes_sent_total", runtimeBytesSentSeq c);
   (counter, bs "x_tunnel_runtime_bytes_received_total", runtimeBytesReceivedSeq c)].

Definition session_metrics (t : Sessions.sessionTable) : list (bytes * bytes * Z) :=
  [(bs "gauge", bs "x_tunnel_server_sessions", countServerSessions t);
   (bs "gauge", bs "x_tunnel_server_channels", countServerChannels t);
   (bs "gauge", bs "x_tunnel_server_active_streams", Sessions.countServerActiveStreams t)].

Definition c_dquote : byte := z2b 34.

(** A name with its channel: the number in quotes and braces. *)
Definition labelled (name : bytes) (channel : Z) : bytes :=
  name ++ bs "{channel=" ++ [c_dquote] ++ Itoa channel ++ [c_dquote] ++ bs "}".

Definition channel_up : bytes := bs "x_tunnel_client_channel_up".
Definition channel_rtt : bytes := bs "x_tunnel_client_channel_rtt_seconds".
Definition channel_caps : bytes := bs "x_tunnel_client_channel_capabilities".

Definition channel_samples (w : world) (i : nat) (rtt : Z) : bytes :=
  let p := w_pool w in
  let up := if entry_up w (transportSessions p) i || entry_up w (smuxConns p) i then 1 else 0 in
  let id := Z.of_nat i + 1 in
  sample_line (labelled channel_up id) (Itoa up) ++
  sample_line (labelled channel_rtt id) (fixed9 (rttSeconds rtt)) ++
  sample_line (labelled channel_caps id) (Itoa (default 0 (channelCaps p !! i))).

Definition writeClientChannelMetrics (pool : option world) : bytes :=
  match pool with
  | None => []
  | Some w =>
      type_line channel_up (bs "gauge") ++ type_line channel_rtt (bs "gauge") ++ type_line channel_caps (bs "gauge") ++
      concat (imap (channel_samples w) (channelRTT (w_pool w)))
  end.

Definition writeMetrics (c : runtimeCounters) (t : Sessions.sessionTable) (pool : option world) : bytes :=
  concat (map (fun '(kind, name, v) => metric kind name v) (counter_metrics c ++ session_metrics t)) ++
  writeClientChannelMetrics pool.

(** * Status and statistics *)

Record CounterStats : Type := mkCounterStats {
  ServerStreams : Z; UDPAssociations : Z; UDPAssociationsActive : Z; ClientReconnects : Z; ServerSourceRejections : Z;
  ServerAuthRejections : Z; ServerClientSessionRejections : Z; ServerStreamRejections : Z; ServerTargetRejections : Z;
  ServerUnsupportedStreams : Z; ServerProtocolNegotiations : Z; ServerProtocolNegotiationRejections : Z;
  ServerProtocolNegotiationFailures : Z; ServerProtocolReplayRejections : Z; ServerTAI64NRejections : Z;
  ServerTAI64NLRUEvictions : Z; ClientProtocolNegotiations : Z; ClientProtocolNegotiationFailures : Z;
  ClientRTTProbeFailures : Z;
}.

(** The fields with the names they have in JSON. *)
Definition json_counters (s : CounterStats) : list (bytes * Z) :=
  [(bs "server_streams_total", ServerStreams s); (bs "udp_associations_total", UDPAssociations s);
   (bs "udp_associations_active", UDPAssociationsActive s); (bs "client_reconnects_total", ClientReconnects s);
   (bs "server_source_rejections_total", ServerSourceRejections s); (bs "server_auth_rejections_total", ServerAuthRejections s);
   (bs "server_client_session_rejections_total", ServerClientSessionRejections s);
   (bs "server_stream_rejections_total", ServerStreamRejections s); (bs "server_target_rejections_total", ServerTargetRejections s);
   (bs "server_unsupported_streams_total", ServerUnsupportedStreams s);
   (bs "server_protocol_negotiations_total", ServerProtocolNegotiations s);
   (bs "server_protocol_negotiation_rejections_total", ServerProtocolNegotiationRejections s);
   (bs "server_protocol_negotiation_failures_total", ServerProtocolNegotiationFailures s);
   (bs "server_protocol_replay_rejections_total", ServerProtocolReplayRejections s);
   (bs "server_tai64n_rejections_total", ServerTAI64NRejections s);
   (bs "server_tai64n_lru_evictions_total", ServerTAI64NLRUEvictions s);
   (bs "client_protocol_negotiations_total", ClientProtocolNegotiations s);
   (bs "client_protocol_negotiation_failures_total", ClientProtocolNegotiationFailures s);
   (bs "client_rtt_probe_failures_total", ClientRTTProbeFailures s)].

Definition counter_stats (c : runtimeCounters) : CounterStats :=
  {| ServerStreams := serverStreamSeq c;
     UDPAssociations := udpAssociationSeq c;
     UDPAssociationsActive := udpAssociationActiveSeq c;
     ClientReconnects := reconnectSeq c;
     ServerSourceRejections := serverSourceRejectSeq c;
     ServerAuthRejections := authRejectSeq c;
     ServerClientSessionRejections := clientRejectSeq c;
     ServerStreamRejections := serverStreamRejectSeq c;
     ServerTargetRejections := serverTargetRejectSeq c;
     ServerUnsupportedStreams := serverUnsupportedStreamSeq c;
     ServerProtocolNegotiations := protocolOKSeq c;
     ServerProtocolNegotiationRejections := protocolRejectSeq c;
     ServerProtocolNegotiationFailures := protocolFailureSeq c;
     ServerProtocolReplayRejections := protocolReplaySeq c;
     ServerTAI64NRejections := tai64nRejectSeq c;
     ServerTAI64NLRUEvictions := tai64nEvictSeq c;
     ClientProtocolNegotiations := clientOKSeq c;
     ClientProtocolNegotiationFailures := clientFailureSeq c;
     ClientRTTProbeFailures := rttProbeFailureSeq c |}.

Record ListenerStatus : Type := mkListenerStatus {
  lst_Protocol : bytes; lst_Configured : bytes; lst_Actual : bytes; lst_State : bytes; lst_LastError : bytes;
}.

(** The fields of a [runtimeListener] that never change; [Engine] models the
    others. *)
Record listenerInfo : Type := mkInfo { li_Protocol : bytes; li_Configured : bytes; li_Actual : bytes }.

Record TargetPolicySummary : Type := mkSummary { AllowCIDRs : Z; DenyCIDRs : Z; AllowHosts : Z; DenyHosts : Z }.

Definition summarizeTargetPolicy (policy : option TargetPolicy) : TargetPolicySummary :=
  match policy with
  | None => mkSummary 0 0 0 0
  | Some p => mkSummary (len (tp_allow p)) (len (tp_deny p)) (len (tp_allow_hosts p)) (len (tp_deny_hosts p))
  end.

Record ClientStatus : Type := mkClientStatus {
  cst_Forward : bytes; cst_Channels : list ClientChannelStatus; cst_Fallback : bool; cst_ECHEnabled : bool;
  cst_FrontProxy : bool; cst_UDPBlockList : list Z;
}.

Record ServerStatus : Type := mkServerStatus { sst_Sessions : Z; sst_Channels : Z; sst_ActiveStreams : Z; sst_TargetPolicy : TargetPolicySummary }.

Record Status : Type := mkStatus {
  s_Mode : bytes; s_StartedAt : Time; s_UptimeSeconds : spec_float; s_Version : bytes; s_Commit : bytes; s_ConfigHash : bytes;
  s_Listeners : list ListenerStatus; s_Client : option ClientStatus; s_Server : option ServerStatus; s_MetricsAddr : bytes;
  s_LastFatal : bytes;
}.

Record Stats : Type := mkStats {
  sts_Timestamp : Time; sts_Mode : bytes; sts_StartedAt : Time; sts_UptimeSeconds : spec_float;
  sts_BytesSent : Z; sts_BytesReceived : Z; sts_Counters : CounterStats; sts_Listeners : list ListenerStatus;
  sts_Client : option ClientStatus; sts_Server : option ServerStatus;
}.

(** What an engine knows besides the fields [Engine] models, and the globals the
    status reads: the pool, the session table and the counters. *)
Record engineView : Type := mkView {
  ev_values : Config.runtimeValues; ev_startup : option Config.startupConfig; ev_hash : bytes; ev_version : bytes; ev_commit : bytes;
  ev_startedAt : Time; ev_fatal : option error; ev_listeners : list (listenerInfo * Engine.runtimeListener);
  ev_pool : option world; ev_sessions : Sessions.sessionTable; ev_counters : runtimeCounters;
}.

(** [time.Duration.Seconds]: the whole seconds and the fraction. *)
Definition duration_Seconds (d : Z) : spec_float :=
  let f z := binary_normalize 53 1024 z 0 false in
  SFadd 53 1024 (f (Z.quot d Second)) (SFdiv 53 1024 (f (Z.rem d Second)) (f Second)).

Section Status.
Context `{U : GoUnicode} {I : GoUserInfo} {X : ErrorText}.

Definition snapshot (l : listenerInfo * Engine.runtimeListener) : ListenerStatus :=
  mkListenerStatus (li_Protocol l.1) (redactConfigValue (li_Configured l.1)) (redactConfigValue (li_Actual l.1))
    (Engine.l_State l.2) (redactConfigValue (match Engine.l_LastError l.2 with Some e => error_text e | None => [] end)).

(** [status]; [now] is the clock. *)
Definition status (now : Time) (e : engineView) : res Status :=
  let isServer := match ev_startup e with Some st => Config.st_IsServer st | None => false end in
  let! (client, server) :=
    match ev_startup e with
    | None => Panic
    | Some st =>
        if Config.st_IsServer st then
          Ok (None, Some (mkServerStatus (countServerSessions (ev_sessions e)) (countServerChannels (ev_sessions e))
                            (Sessions.countServerActiveStreams (ev_sessions e)) (summarizeTargetPolicy (Config.st_TargetPolicy st))))
        else
          let c := Engine.client_of st in
          Ok (Some (mkClientStatus (redactConfigValue (Config.v_ForwardAddr (ev_values e))) (snapshotClientChannels (ev_pool e))
                        (Config.cs_Fallback c) (bool_decide (Config.cs_ForwardScheme c = bs "wss") && negb (Config.cs_Fallback c))
                        (Config.fp_Enabled (Config.v_WebSocketFrontProxy (ev_values e))) (elements (Config.cs_UDPBlockPorts c))), None)
    end in
  Ok (mkStatus (if isServer then bs "server" else bs "client") (ev_startedAt e)
        (if bool_decide (wall (ev_startedAt e) = 0) then S754_zero false else duration_Seconds (Sub now (ev_startedAt e)))
        (ev_version e) (ev_commit e) (ev_hash e) (map snapshot (ev_listeners e)) client server (Config.v_MetricsAddr (ev_values e))
        (match ev_fatal e with Some err => redactConfigValue (error_text err) | None => [] end)).

Definition Stats_of (now now' : Time) (e : engineView) : res Stats :=
  let! s := status now e in
  Ok (mkStats now' (s_Mode s) (s_StartedAt s) (s_UptimeSeconds s) (runtimeBytesSentSeq (ev_counters e)) (runtimeBytesReceivedSeq (ev_counters e))
        (counter_stats (ev_counters e)) (s_Listeners s) (s_Client s) (s_Server s)).

End Status.

(** * The status of the channels *)

Section Channels.
Context `{U : GoUnicode} {L : GoURL} (env : poolEnv).

(** A slot's two entries name the same session, so the two looks at it agree. *)
Lemma entry_up_view n w i : pool_inv n w -> (i < n)%nat ->
  entry_up w (transportSessions (w_pool w)) i || entry_up w (smuxConns (w_pool w)) i = sl_open (slot_view w i) /\
  (sl_open (slot_view w i) = true -> exists wk s x a, w_workers w !! i = Some wk /\ owner (wk_phase wk) = Some s /\
     w_heap w !! s = Some x /\ s_closed x = false /\ s_agreed x = Some a /\ channelCaps (w_pool w) !! i = Some a.1.1).
Proof.
  intros Hinv Hi. rewrite <- (inv_workers _ _ Hinv) in Hi. apply lookup_lt_is_Some in Hi as [wk Hwk].
  pose proof (inv_channels _ _ Hinv i wk Hwk) as Hc. unfold entry_up, slot_view, slot_session. cbn [sl_open].
  assert (wiped (w_pool w) i \/ exists s, serving (w_heap w) (w_pool w) i s /\ owner (wk_phase wk) = Some s) as [Hw|(s & Hs & Ho)].
  { destruct (wk_phase wk); cbn [channel_ok owner] in *; try (by left); try (left; by apply Hc); right; eexists;
      (split; [first [exact Hc|apply Hc]|reflexivity]). }
  - unfold wiped, chan_slot in Hw. injection Hw as -> -> _ _ _ _. done.
  - destruct Hs as (x & a & Hx & Ha & rtt & Hf). unfold chan_slot in Hf. injection Hf as -> E2 _ E4 _ _. rewrite E2.
    split; [destruct (s_tcp x); [by rewrite orb_diag|by rewrite orb_false_r]|].
    unfold is_closed. rewrite Hx. intros Hopen. exists wk, s, x, a. split_and!; try done. by destruct (s_closed x).
Qed.

(** The channels the status and the metrics show are those streams are opened
    on.  Whatever the goroutines of the pool have done: every slot has its row,
    numbered from one; a row is up exactly when [openBestStream] counts the
    channel among its candidates, and then its goroutine owns an open session
    on which the capabilities in the row were negotiated; and [openBestStream]
    finds no channel exactly when no row is up. *)
Theorem channel_status_agrees (addr : bytes) (n : Z) (ips : list bytes) (cid mode : bytes) (o : poolOptions) (p : ECHPool)
    (acts : list action) (w : world)
    (Hnew : NewECHPool addr n ips cid mode o = Ok p) (Hrun : run env acts (Start p) = Next w) :
  let rows := snapshotClientChannels (Some w) in
  let cands := candidates 0 (map (slot_view w) (seq 0 (totalSlots (w_pool w)))) (pe_probeTimeout env) in
  length rows = totalSlots (w_pool w) /\
  (forall i row, rows !! i = Some row ->
     ccs_Channel row = Z.of_nat i + 1 /\
     (ccs_Up row = true <-> exists rtt, (i, rtt) ∈ cands) /\
     (ccs_Up row = true -> exists wk s x a, w_workers w !! i = Some wk /\ owner (wk_phase wk) = Some s /\ w_heap w !! s = Some x /\
        s_closed x = false /\ s_agreed x = Some a /\ ccs_Capabilities row = a.1.1)) /\
  ((exists e, snd (pick_channel (pe_probeTimeout env) w) = Err e) <-> forall row, row ∈ rows -> ccs_Up row = false).
Proof.
  pose proof (keeps_run env _ acts (Start p) (Start_inv _ _ _ _ _ _ _ Hnew)) as Hinv. rewrite Hrun in Hinv. cbn [keeps] in Hinv.
  set (m := length (smuxConns p)) in *. pose proof (inv_size _ _ Hinv) as (S1 & S2 & S3 & S4 & _).
  assert (totalSlots (w_pool w) = m) as Hm by (unfold totalSlots; rewrite S1, S2, Nat.ltb_irrefl; done). rewrite Hm. cbv zeta.
  assert (length (snapshotClientChannels (Some w)) = m) as Hlen by (cbn [snapshotClientChannels]; by rewrite length_imap).
  assert (forall i, (exists rtt, (i, rtt) ∈ candidates 0 (map (slot_view w) (seq 0 m)) (pe_probeTimeout env)) <->
                    (i < m)%nat /\ sl_open (slot_view w i) = true) as Hc.
  { intros i. setoid_rewrite candidates_in. split.
    - intros (rtt & j & s & -> & Hs & Ho & _). cbn. apply list_lookup_fmap_Some in Hs as (k & -> & Hk).
      apply lookup_seq in Hk as [-> Hlt]. done.
    - intros [Hlt Ho]. eexists _, i, (slot_view w i). split_and!; [done| |done|done].
      rewrite list_lookup_fmap, lookup_seq_lt by done. done. }
  assert (forall i row, snapshotClientChannels (Some w) !! i = Some row ->
     (i < m)%nat /\ ccs_Channel row = Z.of_nat i + 1 /\ ccs_Up row = sl_open (slot_view w i) /\
     ccs_Capabilities row = default 0 (channelCaps (w_pool w) !! i)) as Hrow.
  { intros i row Hr. pose proof (lookup_lt_Some _ _ _ Hr) as Hlt. rewrite Hlen in Hlt. cbn [snapshotClientChannels] in Hr.
    rewrite list_lookup_imap in Hr. apply fmap_Some in Hr as (rtt & _ & ->). cbn. split_and!; try done. by apply (entry_up_view m). }
  split_and!; [done| |].
  - intros i row Hr. destruct (Hrow i row Hr) as (Hlt & -> & -> & ->). rewrite Hc. split_and!; [done|tauto|].
    intros Hup. destruct (entry_up_view m w i Hinv Hlt) as [_ Hx]. destruct (Hx Hup) as (wk & s & x & a & ? & ? & ? & ? & ? & ->).
    by exists wk, s, x, a.
  - assert ((forall row, row ∈ snapshotClientChannels (Some w) -> ccs_Up row = false) <->
            candidates 0 (map (slot_view w) (seq 0 m)) (pe_probeTimeout env) = []) as ->.
    { split.
      - intros H. apply elem_of_nil_inv. intros [i rtt] Hin. assert ((i < m)%nat /\ sl_open (slot_view w i) = true) as [Hlt Ho] by (apply Hc; eauto).
        rewrite <- Hlen in Hlt. apply lookup_lt_is_Some in Hlt as [row Hr]. destruct (Hrow i row Hr) as (_ & _ & Hu & _).
        rewrite H, Ho in Hu by (by eapply list_elem_of_lookup_2). done.
      - intros H row Hr. apply list_elem_of_lookup_1 in Hr as [i Hr]. destruct (Hrow i row Hr) as (Hlt & _ & -> & _).
        destruct (sl_open _) eqn:Ho; [|done]. destruct (proj2 (Hc i) (conj Hlt Ho)) as [rtt Hin]. by rewrite H in Hin; apply elem_of_nil in Hin. }
    unfold pick_channel, choose_channel. rewrite Hm. destruct (candidates _ _ _) as [|c cands]; cbn; [split; eauto|].
    split; [|done]. intros [e He]. cbv zeta in He. destruct (_ <? 0); [done|]. by destruct (_ !! _).
Qed.

End Channels.

(** * The metrics as text *)

Definition c_space : byte := z2b 32.
Definition c_sharp : byte := z2b 35.

(** How a reader of the text format takes it apart: one sample per line, the
    comments left out, the name before the space and the value behind it. *)
Definition read_line (line : bytes) : list (bytes * bytes) :=
  match line with
  | [] => []
  | c :: _ => if chr c_sharp c then [] else let '(name, value, _) := Cut line c_space in [(name, value)]
  end.

Definition read_metrics (text : bytes) : list (bytes * bytes) := concat (map read_line (Split text newline)).

Definition channel_readings (w : world) (i : nat) (rtt : Z) : list (bytes * bytes) :=
  let row := channel_status w i rtt in
  [(labelled channel_up (ccs_Channel row), if ccs_Up row then bs "1" else bs "0");
   (labelled channel_rtt (ccs_Channel row), fixed9 (ccs_RTTSeconds row));
   (labelled channel_caps (ccs_Channel row), Itoa (ccs_Capabilities row))].

(** The bytes of names and values: no newline, no space. *)
Definition plain (s : bytes) : bool := forallb (fun c => negb (chr newline c) && negb (chr c_space c)) s.

Lemma plain_app s t : plain (s ++ t) = plain s && plain t.
Proof. apply forallb_app. Qed.

Lemma plain_not_in s : plain s = true -> (newline ∉ s) /\ (c_space ∉ s).
Proof.
  unfold plain. rewrite forallb_forall. intros H. split; intros Hin%list_elem_of_In%H%andb_prop; destruct Hin as [H1 H2];
    [rewrite chr_refl in H1|rewrite chr_refl in H2]; done.
Qed.

Lemma digits_plain s : forallb is_digit s = true -> plain s = true.
Proof.
  unfold plain. rewrite !forallb_forall. intros H c Hc%H. unfold is_digit, between in Hc. apply andb_true_intro.
  split; apply negb_true_iff, chr_false; intros <-; vm_compute in Hc; done.
Qed.

Lemma Itoa_plain z : plain (Itoa z) = true.
Proof.
  destruct (Z.ltb_spec z 0) as [Hz|Hz]; [|by apply digits_plain, Itoa_digits].
  assert (Itoa z = z2b 45 :: Itoa (- z)) as ->.
  { unfold Itoa. destruct (Z.ltb_spec z 0), (Z.ltb_spec (- z) 0); try lia. done. }
  change (plain (z2b 45 :: Itoa (- z))) with (plain (Itoa (- z))). apply digits_plain, Itoa_digits. lia.
Qed.

Lemma fixed9_plain x : plain (fixed9 x) = true.
Proof.
  assert (forall b n, plain (nine_decimals b n) = true) as H.
  { intros b n. unfold nine_decimals, pad_left. rewrite !plain_app, !Itoa_plain.
    assert (forall k, plain (replicate k (z2b 48)) = true) as -> by (induction k; done). by destruct b. }
  destruct x as [?|[]| |? ? ?]; cbn [fixed9]; try apply H; done.
Qed.

(** A sequence of lines read back. *)
Definition lines_text (ls : list bytes) : bytes := concat (map (fun l => l ++ [newline]) ls).

Lemma lines_text_app l1 l2 : lines_text (l1 ++ l2) = lines_text l1 ++ lines_text l2.
Proof. unfold lines_text. by rewrite map_app, concat_app. Qed.

Lemma read_lines_text ls : Forall (fun l => newline ∉ l) ls -> read_metrics (lines_text ls) = concat (map read_line ls).
Proof.
  intros H. unfold read_metrics. assert (Split (lines_text ls) newline = ls ++ [[]]) as ->.
  { induction H as [|l ls Hl _ IH]; [done|]. unfold lines_text in *. cbn [map concat].
    rewrite <- (assoc_L (++)). cbn [app]. rewrite Split_app by done. by rewrite IH. }
  by rewrite map_app, concat_app, app_nil_r.
Qed.

(** The lines of the metrics, without their newlines. *)
Definition type_text (kind name : bytes) : bytes := bs "# TYPE " ++ name ++ bs " " ++ kind.

Definition channel_lines (w : world) (i : nat) (rtt : Z) : list bytes :=
  map (fun '(name, value) => name ++ bs " " ++ value) (channel_readings w i rtt).

Definition metric_lines (ms : list (bytes * bytes * Z)) : list bytes :=
  concat (map (fun '(kind, name, v) => [type_text kind name; name ++ bs " " ++ Itoa v]) ms).

Lemma sample_reads name value : plain name = true -> plain value = true -> (exists c t, name = c :: t /\ c <> c_sharp) ->
  (newline ∉ name ++ bs " " ++ value) /\ read_line (name ++ bs " " ++ value) = [(name, value)].
Proof.
  intros Hn Hv (c & t & -> & Hc). apply plain_not_in in Hn as [N1 N2], Hv as [V1 V2]. split.
  - change (bs " ") with [c_space]. rewrite !not_elem_of_app. split_and!; [done| |done]. rewrite list_elem_of_singleton. done.
  - change ((c :: t) ++ bs " " ++ value) with ((c :: t) ++ c_space :: value).
    unfold read_line. cbn [app]. assert (chr c_sharp c = false) as -> by (by apply chr_false).
    change (c :: t ++ c_space :: value) with ((c :: t) ++ c_space :: value). by rewrite Cut_app.
Qed.

Lemma comment_reads kind name : plain kind = true -> plain name = true ->
  (newline ∉ type_text kind name) /\ read_line (type_text kind name) = [].
Proof.
  intros Hk Hn. apply plain_not_in in Hk as [K _], Hn as [N _]. unfold type_text. split; [|done].
  rewrite !not_elem_of_app. split_and!; try done; rewrite <- (bool_decide_eq_false _); vm_compute; reflexivity.
Qed.

Lemma metric_lines_read ms :
  Forall (fun '(kind, name, _) => plain kind = true /\ plain name = true /\ exists c t, name = c :: t /\ c <> c_sharp) ms ->
  Forall (fun l => newline ∉ l) (metric_lines ms) /\
  concat (map read_line (metric_lines ms)) = map (fun '(_, name, v) => (name, Itoa v)) ms.
Proof.
  induction 1 as [|[[kind name] v] ms (Hk & Hn & Hne) _ [IH1 IH2]]; [done|].
  destruct (comment_reads kind name Hk Hn) as [C1 C2]. destruct (sample_reads name (Itoa v) Hn (Itoa_plain v) Hne) as [S1 S2].
  unfold metric_lines in *. cbn [map concat app]. split; [by repeat constructor|]. by rewrite C2, S2, IH2.
Qed.

Lemma channel_lines_read w l k :
  Forall (fun x => newline ∉ x) (concat (imap (fun i => channel_lines w (k + i)) l)) /\
  concat (map read_line (concat (imap (fun i => channel_lines w (k + i)) l))) = concat (imap (fun i => channel_readings w (k + i)) l).
Proof.
  assert (forall i rtt, Forall (fun x => newline ∉ x) (channel_lines w i rtt) /\
            concat (map read_line (channel_lines w i rtt)) = channel_readings w i rtt) as H.
  { intros i rtt. unfold channel_lines. set (rs := channel_readings w i rtt).
    assert (Forall (fun r => (newline ∉ r.1 ++ bs " " ++ r.2) /\ read_line (r.1 ++ bs " " ++ r.2) = [r]) rs) as Hr.
    { assert (forall n z, plain n = true -> plain (labelled n z) = true) as Hl.
      { intros n z Hn. unfold labelled. by rewrite !plain_app, Itoa_plain, Hn. }
      subst rs. unfold channel_readings. cbv zeta.
      repeat constructor; cbn [fst snd]; apply sample_reads; try apply Hl; try apply fixed9_plain; try apply Itoa_plain; try done;
        try (do 2 eexists; split; [reflexivity|done]).
      all: by destruct (ccs_Up _). }
    clearbody rs. induction Hr as [|[n v] rs [H1 H2] _ [I1 I2]]; [done|]. cbn [map concat fst snd] in *. rewrite H2, I2. split; [by constructor|done]. }
  revert k. induction l as [|x l IH]; intros k; [done|]. cbn [imap concat]. destruct (H (k + 0)%nat x) as [H1 H2].
  destruct (IH (S k)) as [I1 I2].
  assert (forall A (f : nat -> Z -> A), imap ((fun i => f (k + i)%nat) ∘ S) l = imap (fun i => f (S k + i)%nat) l) as E.
  { intros A f. apply imap_ext. intros i y _. cbn. by rewrite Nat.add_succ_r. }
  rewrite !E, map_app, concat_app, H2, I2. split; [by apply Forall_app|done].
Qed.

(** The text is the lines. *)
Lemma metric_lines_text ms : concat (map (fun '(kind, name, v) => metric kind name v) ms) = lines_text (metric_lines ms).
Proof.
  induction ms as [|[[kind name] v] ms IH]; [done|]. cbn [map concat]. rewrite IH.
  unfold metric_lines, lines_text, metric, type_line, sample_line, type_text. cbn [map concat app]. by rewrite <- !(assoc_L (++)).
Qed.

Lemma concat_lines_text (f : nat -> Z -> bytes) (g : nat -> Z -> list bytes) l :
  (forall i x, f i x = lines_text (g i x)) -> concat (imap f l) = lines_text (concat (imap g l)).
Proof.
  revert f g. induction l as [|x l IH]; intros f g Hfg; [done|]. cbn [imap concat].
  rewrite lines_text_app, Hfg. f_equal. apply IH. intros i y. cbn. apply Hfg.
Qed.

Definition pool_lines (pool : option world) : list bytes :=
  match pool with
  | Some w => [type_text (bs "gauge") channel_up; type_text (bs "gauge") channel_rtt; type_text (bs "gauge") channel_caps] ++
              concat (imap (channel_lines w) (channelRTT (w_pool w)))
  | None => []
  end.

Lemma pool_lines_text pool : writeClientChannelMetrics pool = lines_text (pool_lines pool).
Proof.
  destruct pool as [w|]; [|done]. unfold writeClientChannelMetrics, pool_lines. rewrite lines_text_app.
  rewrite (concat_lines_text _ (channel_lines w)); [done|].
  intros i x. unfold channel_samples, channel_lines, channel_readings, lines_text, sample_line, channel_status.
  cbn [ccs_Up ccs_Channel ccs_RTTSeconds ccs_Capabilities map concat]. rewrite !app_nil_r.
  destruct (entry_up _ _ _ || entry_up _ _ _); rewrite <- !(assoc_L (++)); done.
Qed.

Lemma metrics_read c t pool : read_metrics (writeMetrics c t pool) =
  map (fun '(_, name, v) => (name, Itoa v)) (counter_metrics c ++ session_metrics t) ++
  (match pool with Some w => concat (imap (channel_readings w) (channelRTT (w_pool w))) | None => [] end).
Proof.
  unfold writeMetrics. set (ms := counter_metrics c ++ session_metrics t).
  assert (Forall (fun '(kind, name, _) => plain kind = true /\ plain name = true /\ exists c t, name = c :: t /\ c <> c_sharp) ms) as Hms.
  { subst ms. cbn [counter_metrics session_metrics app]. repeat constructor; do 2 eexists; (split; [reflexivity|done]). }
  destruct (metric_lines_read ms Hms) as [M1 M2]. rewrite metric_lines_text, pool_lines_text, <- lines_text_app. rewrite read_lines_text.
  - rewrite map_app, concat_app, M2. f_equal. destruct pool as [w|]; [|done]. unfold pool_lines.
    rewrite map_app, concat_app. by rewrite (proj2 (channel_lines_read w _ 0)).
  - apply Forall_app. split; [done|]. destruct pool as [w|]; [|constructor]. apply Forall_app.
    split; [repeat constructor; by apply comment_reads|]. apply (channel_lines_read w _ 0).
Qed.

(** The name of a counter of the statistics in the metrics. *)
Definition metric_name (name : bytes) : bytes :=
  bs "x_tunnel_" ++ (if bool_decide (name = bs "server_protocol_replay_rejections_total")
                     then bs "server_protocol_v2_replay_rejections_total" else name).

Lemma json_counters_in_metrics c name v : (name, v) ∈ json_counters (counter_stats c) ->
  exists kind, (kind, metric_name name, v) ∈ counter_metrics c.
Proof.
  assert (map (fun '(n, v) => (metric_name n, v)) (json_counters (counter_stats c)) =
          map (fun '(_, n, v) => (n, v)) (omap (fun k => counter_metrics c !! k) [0; 1; 2; 3; 4; 5; 6; 7; 8; 9; 10; 11; 12; 15; 17; 18; 19; 20; 23]%nat)) as E
    by (vm_compute; reflexivity).
  intros Hin%list_elem_of_In%(in_map (fun '(n, v) => (metric_name n, v))). rewrite E in Hin.
  apply in_map_iff in Hin as ([[kind n] v'] & [= -> ->] & Hin). exists kind.
  apply list_elem_of_In, list_elem_of_omap in Hin as (k & _ & Hk). by eapply list_elem_of_lookup_2.
Qed.

(** The metrics text, taken apart by its format, holds every counter of the
    package and the three gauges of the session table under a name of its own
    with its value, and the three samples of every channel as the status has
    them.  And each counter of the statistics is in the metrics under its JSON
    name with the prefix [x_tunnel_] and the same value; only the replay
    rejections go by another name there. *)
Theorem metrics_agree (c : runtimeCounters) (t : Sessions.sessionTable) (pool : option world) :
  let read := read_metrics (writeMetrics c t pool) in
  read = map (fun '(_, name, v) => (name, Itoa v)) (counter_metrics c ++ session_metrics t) ++
         (match pool with Some w => concat (imap (channel_readings w) (channelRTT (w_pool w))) | None => [] end) /\
  NoDup (map (fun '(_, name, _) => name) (counter_metrics c ++ session_metrics t)) /\
  forall name v, (name, v) ∈ json_counters (counter_stats c) ->
    (metric_name name, Itoa v) ∈ read.
Proof.
  cbv zeta. rewrite metrics_read. split_and!; [done| |].
  - cbn [counter_metrics session_metrics app map]. apply (bool_decide_unpack _). vm_compute. done.
  - intros name v Hin. destruct (json_counters_in_metrics c name v Hin) as [kind Hk].
    apply list_elem_of_In, in_or_app. left. apply in_map_iff. exists (kind, metric_name name, v).
    split; [done|]. apply in_or_app. left. by apply list_elem_of_In.
Qed.

Example rtt_rendered : map (fun ns => fixed9 (rttSeconds ns)) [0; 12345678; 1500000000; -1] =
  [bs "0.000000000"; bs "0.012345678"; bs "1.500000000"; bs "-0.000000001"].
Proof. vm_compute. reflexivity. Qed.
