(* ===== verification/Control.v ===== *)
(** The control server and the command line: internal/app/control.go and run.go,
    with [FormatConfigJSON] of config.go.  A request is answered by [serve]; what
    it changes is the state of the engine, of the route engine or the number of
    database updates under way. *)

From Stdlib Require Import ZArith Lia Strings.Byte.
From stdpp Require Import base numbers list gmap.
From S2P Require Import Prelude GoStrings GoNet NetAddr GoTime Crypto RouteRules GeoData Client StreamOpen LogRing Status.
From S2P Require Config RouteEngine Engine.

Local Open Scope Z_scope.
Local Open Scope go_scope.

(** * The address *)

(** A file with its permission bits. *)
Record osFile : Type := mkOsFile { of_data : bytes; of_perm : Z }.
Abbreviation osFS := (gmap bytes osFile).

Section Control.
Context `{U : GoUnicode} {I : GoUserInfo} {X : ErrorText} {R : GoRegexp}.

Definition validateControlAddr (addr : bytes) : res unit :=
  let! (host, port) := SplitHostPort addr in
  if is_empty (TrimSpace port) then Err (Errorf "control port 不能为空" []) else
  if negb (bool_decide (port = bs "0")) &&
     match Atoi port with Some p => (p <=? 0) || (65535 <? p) | None => true end
  then Err (Errorf "control port 必须在 1-65535 之间" []) else
  match ParseIP host with
  | Some ip => if ip_IsLoopback ip then Ok tt else Err (Errorf "control 只能绑定 127.0.0.1 或 ::1" [])
  | None => Err (Errorf "control 只能绑定 127.0.0.1 或 ::1" [])
  end.

(** * The files *)

(** The umask and what the calls of package os do; a failed write has left a part
    of the text, or has not even opened the file. *)
Record osEnv : Type := mkOsEnv {
  os_umask : Z; os_mkdir : option error; os_temp : res bytes; os_close : option error;
  os_write : option (error * option bytes); os_rename : option error;
}.

Definition file_perm (env : osEnv) (perm : Z) : Z := Z.land perm (Z.lnot (os_umask env)).

(** [os.WriteFile]: an existing file is truncated and keeps its permissions, a
    new one gets them less the umask.  The states a reader may see and the last
    one. *)
Definition os_WriteFile (env : osEnv) (path data : bytes) (perm : Z) (fs : osFS) : list osFS * osFS * option error :=
  let perm := match fs !! path with Some f => of_perm f | None => file_perm env perm end in
  let with_data d := <[path := mkOsFile d perm]> fs in
  match os_write env with
  | Some (e, None) => ([], fs, Some e)
  | Some (e, Some partial) => ([with_data []], with_data partial, Some e)
  | None => (map (fun n => with_data (take n data)) (seq 0 (length data)), with_data data, None)
  end.

(** [filepath.Dir] on slash-separated paths. *)
Definition filepath_Dir (path : bytes) : bytes :=
  RouteEngine.filepath_Clean (take (Z.to_nat (LastIndexByte path c_slash + 1)) path).

Definition needs_dir (path : bytes) : bool :=
  negb (bool_decide (filepath_Dir path = bs ".")) && negb (is_empty (filepath_Dir path)).

(** [hex.EncodeToString]. *)
Definition hex_byte (b : byte) : bytes := [hexdigit (b2z b / 16); hexdigit (b2z b mod 16)].
Definition hex_EncodeToString (s : bytes) : bytes := concat (map hex_byte s).

(** [writeControlTokenFile]: the token, the path and the file system left. *)
Definition writeControlTokenFile (env : osEnv) (random : res bytes) (path : bytes) (fs : osFS) : osFS * res (bytes * bytes) :=
  match random with
  | Ok tokenBytes =>
      let token := hex_EncodeToString tokenBytes in
      let '(fs, r) :=
        if is_empty path then
          match os_temp env with
          | Ok name => (<[name := mkOsFile [] (file_perm env 384)]> fs, match os_close env with Some e => Err e | None => Ok name end)
          | Err e => (fs, Err e)
          | Panic => (fs, Panic)
          end
        else (fs, Ok path) in
      match r with
      | Ok path =>
          match (if needs_dir path then os_mkdir env else None) with
          | Some e => (fs, Err e)
          | None =>
              let '(_, fs, e) := os_WriteFile env path (token ++ [newline]) 384 fs in
              (fs, match e with Some e => Err e | None => Ok (token, path) end)
          end
      | Err e => (fs, Err e)
      | Panic => (fs, Panic)
      end
  | Err e => (fs, Err e)
  | Panic => (fs, Panic)
  end.

(** [writeReadyFile]; [marshalled] is the JSON of the info. *)
Definition ready_tmp (path : bytes) : bytes := path ++ bs ".tmp".

Definition writeReadyFile (env : osEnv) (path : bytes) (marshalled : res bytes) (fs : osFS) : list osFS * osFS * res unit :=
  match (if needs_dir path then os_mkdir env else None) with
  | Some e => ([], fs, Err e)
  | None =>
      match marshalled with
      | Ok data =>
          let tmp := ready_tmp path in
          let '(seen, fs, e) := os_WriteFile env tmp (data ++ [newline]) 384 fs in
          match e with
          | Some e => (seen, fs, Err e)
          | None =>
              match os_rename env, fs !! tmp with
              | Some e, _ => (seen ++ [fs], fs, Err e)
              | None, Some f => (seen ++ [fs], <[path := f]> (delete tmp fs), Ok tt)
              | None, None => (seen ++ [fs], fs, Err (Errorf "file does not exist" []))
              end
          end
      | Err e => ([], fs, Err e)
      | Panic => ([], fs, Panic)
      end
  end.

(** The contents of the ready file, for the JSON encoder. *)
Record readyInfo : Type := mkReady {
  ri_PID : Z; ri_Version : bytes; ri_Commit : bytes; ri_ControlURL : bytes; ri_TokenFile : bytes; ri_StartedAt : Time;
}.

(** * The server *)

Record controlServer : Type := mkControlServer { cs_token : bytes; cs_tokenFile : bytes; cs_baseURL : bytes }.

(** [startControlServer]: [listen] is the actual address or the error of
    [net.Listen]. *)
Definition startControlServer (env : osEnv) (random listen : res bytes) (addr tokenFile : bytes) (fs : osFS) : osFS * res controlServer :=
  match validateControlAddr addr with
  | Ok _ =>
      let '(fs, r) := writeControlTokenFile env random tokenFile fs in
      (fs, let! (token, tokenFile) := r in
           let! actual := listen in
           Ok (mkControlServer token tokenFile (bs "http://" ++ actual)))
  | Err e => (fs, Err e)
  | Panic => (fs, Panic)
  end.

Definition ready_of (pid : Z) (version commit : bytes) (startedAt : Time) (s : controlServer) : readyInfo :=
  mkReady pid version commit (cs_baseURL s) (cs_tokenFile s) startedAt.

Definition authorized (token header : bytes) : bool :=
  match Fields header with
  | [scheme; value] => EqualFoldAny scheme (bs "Bearer") && bool_decide (value = token)
  | _ => false
  end.

(** A request, as far as the handlers look at it; [cr_Body] is how reading the
    body ends. *)
Record ctlRequest : Type := mkCtlRequest {
  cr_Method : bytes; cr_Path : bytes; cr_Authorization : bytes; cr_after : bytes; cr_limit : bytes; cr_Body : res bytes;
}.

Inductive ctlBody : Type :=
  | BNone
  | BError (code message : bytes)
  | BVersion (version commit date : bytes) (api : Z) (capabilities : list bytes)
  | BHealth
  | BStatus (s : Status)
  | BLogs (entries : list LogEntry)
  | BLogStream (cursor limit : Z)
  | BMetrics (text : bytes)
  | BStats (s : Stats)
  | BChecked
  | BFormatted (text : bytes)
  | BStopping
  | BRules (enabled : bool) (rules : list Rule)
  | BReloaded (enabled : bool) (rules : list Rule)
  | BUpdating
  | BRouteStats (enabled : bool) (stats : RouteEngine.Stats) (geo : option RouteEngine.GeoStatus).

Record ctlResponse : Type := mkResponse { rs_status : Z; rs_body : ctlBody }.

(** What the handlers read and write: the world of the engine, [e.routeEngine],
    the log ring, what the status reads, the updates that were started, and the
    global [configuredCipherPref]. *)
Record controlState : Type := mkControl {
  ct_world : Engine.engineWorld; ct_route : option RouteEngine.Engine; ct_logs : LogRing; ct_view : engineView;
  ct_build : bytes; ct_updates : nat; ct_cipherPref : bytes;
}.

Definition set_world (w : Engine.engineWorld) (s : controlState) : controlState :=
  mkControl w (ct_route s) (ct_logs s) (ct_view s) (ct_build s) (ct_updates s) (ct_cipherPref s).
Definition set_ct_route (e : RouteEngine.Engine) (s : controlState) : controlState :=
  mkControl (ct_world s) (Some e) (ct_logs s) (ct_view s) (ct_build s) (ct_updates s) (ct_cipherPref s).
Definition add_update (s : controlState) : controlState :=
  mkControl (ct_world s) (ct_route s) (ct_logs s) (ct_view s) (ct_build s) (S (ct_updates s)) (ct_cipherPref s).
Definition set_cipherPref (p : bytes) (s : controlState) : controlState :=
  mkControl (ct_world s) (ct_route s) (ct_logs s) (ct_view s) (ct_build s) (ct_updates s) p.

Definition controlAPIVersion : Z := 1.
Definition controlCapabilities : list bytes :=
  [bs "status"; bs "logs"; bs "logs_stream"; bs "metrics"; bs "stats"; bs "config_check"; bs "config_format"; bs "runtime_stop"].

Definition writeControlError (status : Z) (code message : bytes) : ctlResponse := mkResponse status (BError code message).
Definition writeControlJSON (status : Z) (body : ctlBody) : ctlResponse := mkResponse status body.

Definition MethodGet : bytes := bs "GET".
Definition MethodPost : bytes := bs "POST".
Definition not_allowed : ctlResponse := writeControlError 405 (bs "http.method_not_allowed") (bs "method not allowed").
Definition unauthorized : ctlResponse := writeControlError 401 (bs "auth.unauthorized") (bs "unauthorized").
Definition route_disabled : ctlResponse := writeControlError 409 (bs "route.disabled") (bs "分流引擎未启用").

(** [routeSnapshot]. *)
Definition routeSnapshot (s : controlState) : option RouteEngine.Engine * bool :=
  (ct_route s, Config.v_RouteEnabled (ev_values (ct_view s))).

(** The JSON library on objects with raw values. *)
Class ConfigFields := {
  json_Fields : bytes -> res (gmap bytes bytes);
  json_MarshalIndent : gmap bytes bytes -> res bytes;
}.

Section Handlers.
Context {L : Config.ConfigLib} {F : ConfigFields} {P : GeoProto} {Srt : GoSort} {C : Crypto}.

(** The start-up configuration [CheckConfigJSON] computes.  Checking a client's
    configuration sets the global [configuredCipherPref] as its last step. *)
Definition checked_startup (raw : bytes) : res Config.startupConfig :=
  let! values := Config.applyConfigJSONToValues (fun _ => false) raw Config.defaultRuntimeValues in
  if is_empty (TrimSpace (Config.v_ListenAddr values)) then Err (Errorf "至少需要一个监听地址" []) else
  Config.validateStartupConfigValues values.

Definition configured_after (raw old : bytes) : bytes :=
  match checked_startup raw with
  | Ok st => match Config.st_Client st with Some c => Config.cs_CipherPref c | None => old end
  | _ => old
  end.

(** [FormatConfigJSON]; [order] is the one in which the loop visits the names. *)
Definition FormatConfigJSON (order : list (bytes * bytes)) (raw : bytes) : res bytes :=
  let! _ := Config.CheckConfigJSON raw in
  let! fields := json_Fields raw in
  let! formatted := json_MarshalIndent (Config.normalizeConfigFieldAliases order fields) in
  Ok (formatted ++ [newline]).

(** What happens around a request: the clock, the order of the names, the file
    system a reload reads, and whether the connection can stream. *)
Record requestEnv : Type := mkRequestEnv {
  re_now : Time; re_now' : Time; re_order : list (bytes * bytes); re_fs : fsys; re_flusher : bool; re_zero : Z;
}.

Definition ctlHandler : Type := requestEnv -> ctlRequest -> controlState -> controlState * res ctlResponse.

(** A handler that only reads, for one method. *)
Definition reading (method : bytes) (h : requestEnv -> ctlRequest -> controlState -> res ctlResponse) : ctlHandler :=
  fun env r s => (s, if bool_decide (cr_Method r = method) then h env r s else Ok not_allowed).

Definition handleVersion : ctlHandler := reading MethodGet (fun _ _ s =>
  Ok (writeControlJSON 200 (BVersion (ev_version (ct_view s)) (ev_commit (ct_view s)) (ct_build s) controlAPIVersion controlCapabilities))).

Definition handleHealth : ctlHandler := reading MethodGet (fun _ _ _ => Ok (writeControlJSON 200 BHealth)).

Definition handleStatus : ctlHandler := reading MethodGet (fun env _ s =>
  let! st := status (re_now env) (ct_view s) in Ok (writeControlJSON 200 (BStatus st))).

Definition handleLogs : ctlHandler := reading MethodGet (fun _ r s =>
  let! es := Entries (logs_limit (cr_limit r)) (ct_logs s) in Ok (writeControlJSON 200 (BLogs es))).

(** The stream itself is [LogRing.log_stream]. *)
Definition handleLogsStream : ctlHandler := reading MethodGet (fun env r _ =>
  if re_flusher env then Ok (mkResponse 200 (BLogStream (stream_cursor (cr_after r)) (stream_limit (cr_limit r))))
  else Ok (writeControlError 500 (bs "stream.unsupported") (bs "streaming is not supported"))).

Definition handleMetrics : ctlHandler := reading MethodGet (fun _ _ s =>
  let v := ct_view s in Ok (mkResponse 200 (BMetrics (writeMetrics (ev_counters v) (ev_sessions v) (ev_pool v))))).

Definition handleStats : ctlHandler := reading MethodGet (fun env _ s =>
  let! st := Stats_of (re_now env) (re_now' env) (ct_view s) in Ok (writeControlJSON 200 (BStats st))).

(** A handler of a configuration: the body is cut at one mebibyte, and checking
    it has its effect on the global. *)
Definition config_handler (k : requestEnv -> bytes -> res ctlResponse) : ctlHandler := fun env r s =>
  if bool_decide (cr_Method r = MethodPost) then
    match cr_Body r with
    | Ok raw =>
        let raw := take (Z.to_nat (2 ^ 20)) raw in
        (set_cipherPref (configured_after raw (ct_cipherPref s)) s, k env raw)
    | Err e => (s, Ok (writeControlError 400 (bs "config.read_failed") (error_text e)))
    | Panic => (s, Panic)
    end
  else (s, Ok not_allowed).

Definition handleConfigCheck : ctlHandler := config_handler (fun _ raw =>
  match Config.CheckConfigJSON raw with
  | Ok _ => Ok (writeControlJSON 200 BChecked)
  | Err e => Ok (writeControlError 400 (bs "config.invalid") (error_text e))
  | Panic => Panic
  end).

Definition handleConfigFormat : ctlHandler := config_handler (fun env raw =>
  match FormatConfigJSON (re_order env) raw with
  | Ok formatted => Ok (mkResponse 200 (BFormatted formatted))
  | Err e => Ok (writeControlError 400 (bs "config.invalid") (error_text e))
  | Panic => Panic
  end).

(** The goroutine calls [Close] of the engine. *)
Definition handleStop : ctlHandler := fun env r s =>
  if bool_decide (cr_Method r = MethodPost) then
    (match Engine.engine_step Engine.ECallClose (ct_world s) with Engine.ENext w => set_world w s | _ => s end,
     Ok (writeControlJSON 200 BStopping))
  else (s, Ok not_allowed).

Definition handleRules : ctlHandler := reading MethodGet (fun _ _ s =>
  match routeSnapshot s with
  | (None, enabled) => Ok (writeControlJSON 200 (BRules enabled []))
  | (Some e, _) => Ok (writeControlJSON 200 (BRules true (RouteEngine.Rules e)))
  end).

Definition handleRulesReload : ctlHandler := fun env r s =>
  if bool_decide (cr_Method r = MethodPost) then
    match routeSnapshot s with
    | (None, _) => (s, Ok route_disabled)
    | (Some e, enabled) =>
        match RouteEngine.Reload (re_fs env) e with
        | (e, Ok _) => (set_ct_route e s, Ok (writeControlJSON 200 (BReloaded enabled (RouteEngine.Rules e))))
        | (e, Err er) => (set_ct_route e s, Ok (writeControlError 400 (bs "route.reload_failed") (error_text er)))
        | (e, Panic) => (set_ct_route e s, Panic)
        end
    end
  else (s, Ok not_allowed).

(** The update runs in a goroutine of its own ([RouteEngine.UpdateGeo]). *)
Definition handleGeoUpdate : ctlHandler := fun env r s =>
  if bool_decide (cr_Method r = MethodPost) then
    match routeSnapshot s with
    | (None, _) => (s, Ok route_disabled)
    | (Some _, _) => (add_update s, Ok (writeControlJSON 200 BUpdating))
    end
  else (s, Ok not_allowed).

Definition handleRouteStats : ctlHandler := reading MethodGet (fun env _ s =>
  match routeSnapshot s with
  | (None, _) => Ok (writeControlJSON 200 (BRouteStats false (RouteEngine.mkStats 0 0 0 0) None))
  | (Some e, _) => Ok (writeControlJSON 200 (BRouteStats true (RouteEngine.e_stats e) (Some (RouteEngine.geoStatus (re_zero env) e))))
  end).

Definition requireAuth (token : bytes) (next : ctlHandler) : ctlHandler := fun env r s =>
  if authorized token (cr_Authorization r) then next env r s else (s, Ok unauthorized).

(** The patterns of the mux.  An unclean path is redirected to its clean form,
    unless the method is [CONNECT]; other paths are not found. *)
Definition control_routes (token : bytes) : list (bytes * ctlHandler) :=
  [(bs "/v1/version", handleVersion); (bs "/v1/health", handleHealth);
   (bs "/v1/status", requireAuth token handleStatus); (bs "/v1/logs", requireAuth token handleLogs);
   (bs "/v1/logs/stream", requireAuth token handleLogsStream); (bs "/v1/metrics", requireAuth token handleMetrics);
   (bs "/v1/stats", requireAuth token handleStats); (bs "/v1/config/check", requireAuth token handleConfigCheck);
   (bs "/v1/config/format", requireAuth token handleConfigFormat); (bs "/v1/runtime/stop", requireAuth token handleStop);
   (bs "/v1/rules", requireAuth token handleRules); (bs "/v1/rules/reload", requireAuth token handleRulesReload);
   (bs "/v1/route/geo/update", requireAuth token handleGeoUpdate); (bs "/v1/route/stats", requireAuth token handleRouteStats)].

Definition mux_clean (path : bytes) : bytes :=
  if is_empty path then [c_slash] else
  let p := if HasPrefix path [c_slash] then path else c_slash :: path in
  let np := RouteEngine.filepath_Clean p in
  if HasSuffix p [c_slash] && negb (bool_decide (np = [c_slash])) then np ++ [c_slash] else np.

Fixpoint find_route (path : bytes) (routes : list (bytes * ctlHandler)) : option ctlHandler :=
  match routes with
  | [] => None
  | (p, h) :: routes => if bool_decide (p = path) then Some h else find_route path routes
  end.

Definition serve (token : bytes) : ctlHandler := fun env r s =>
  if negb (bool_decide (cr_Method r = bs "CONNECT")) && negb (bool_decide (mux_clean (cr_Path r) = cr_Path r))
  then (s, Ok (mkResponse 301 BNone)) else
  match find_route (cr_Path r) (control_routes token) with
  | Some h => h env r s
  | None => (s, Ok (mkResponse 404 BNone))
  end.

(** * The command line *)

Record cliFlags : Type := mkFlags {
  fl_showVersion : bool; fl_checkConfigFile : bytes; fl_formatConfigFile : bytes; fl_configFile : bytes;
  fl_options : Engine.RuntimeOptions; fl_seen : bytes -> bool; fl_values : Config.runtimeValues;
}.

(** The files, the standard input, and whether the standard output takes what is
    written. *)
Record cliEnv : Type := mkCliEnv {
  ce_ReadFile : bytes -> res bytes; ce_stdin : res bytes; ce_stdout : option error; ce_order : list (bytes * bytes);
}.

Definition readConfigCommandInput (env : cliEnv) (path : bytes) : res bytes :=
  if is_empty (TrimSpace path) then Err (Errorf "配置文件路径不能为空" []) else
  if bool_decide (path = bs "-") then let! raw := ce_stdin env in Ok (take (Z.to_nat (2 ^ 20)) raw)
  else ce_ReadFile env path.

(** What is printed. *)
Inductive cliOutput : Type := ONone | OVersion | OUsage | OFormatted (text : bytes) | OChecked.

Definition runOfflineConfigCommand (env : cliEnv) (f : cliFlags) : res (Z * cliOutput) :=
  if negb (is_empty (fl_checkConfigFile f)) && negb (is_empty (fl_formatConfigFile f)) then Ok (2, ONone) else
  let format := negb (is_empty (fl_formatConfigFile f)) in
  let path := if format then fl_formatConfigFile f else fl_checkConfigFile f in
  match readConfigCommandInput env path with
  | Err _ => Ok (2, ONone)
  | Panic => Panic
  | Ok raw =>
      if format then
        match FormatConfigJSON (ce_order env) raw with
        | Ok formatted => match ce_stdout env with Some _ => Ok (2, ONone) | None => Ok (0, OFormatted formatted) end
        | Err _ => Ok (2, ONone)
        | Panic => Panic
        end
      else
        match Config.CheckConfigJSON raw with
        | Ok _ => Ok (0, OChecked)
        | Err _ => Ok (2, ONone)
        | Panic => Panic
        end
  end.

Definition start_code (e : error) : Z := if Contains (error_text e) (bs "listen.bind_failed") then 3 else 2.

(** The exit code when [Start] has returned and, after a success, [Wait]:
    [None] as long as the engine runs. *)
Definition engine_code (w : Engine.engineWorld) : option Z :=
  match Engine.ew_start w with
  | Engine.SReturned (Some e) => Some (start_code e)
  | Engine.SReturned None => match Engine.Wait w with Some (Some _) => Some 4 | Some None => Some 0 | None => None end
  | _ => None
  end.

(** [RunCLI]: an exit code at once, or the engine to start with its options and
    the plan of [startRuntime]. *)
Inductive cliEnd : Type :=
  | CExit (code : Z) (out : cliOutput)
  | CEngine (o : Engine.RuntimeOptions) (plan : res (list Engine.stage)).

Definition RunCLI (env : cliEnv) (build : Engine.RuntimeOptions) (f : cliFlags) : res cliEnd :=
  if fl_showVersion f then Ok (CExit 0 OVersion) else
  if negb (is_empty (fl_checkConfigFile f)) || negb (is_empty (fl_formatConfigFile f)) then
    let! (code, out) := runOfflineConfigCommand env f in Ok (CExit code out) else
  if is_empty (fl_configFile f) && is_empty (Config.v_ListenAddr (fl_values f)) then Ok (CExit 0 OUsage) else
  let file := if is_empty (fl_configFile f) then None else Some (ce_ReadFile env (fl_configFile f)) in
  match Config.LoadConfig file (fl_seen f) (fl_values f) with
  | Err _ => Ok (CExit 2 ONone)
  | Panic => Panic
  | Ok (values, startup) =>
      match Engine.NewEngine (let! _ := Config.validateStartupConfigValues values in Ok tt) (fl_options f) build with
      | Err _ => Ok (CExit 2 ONone)
      | Panic => Panic
      | Ok (o, _) => Ok (CEngine o (Engine.startRuntime values (Some startup) o))
      end
  end.

End Handlers.

End Control.

(** * The files on disk *)

(** [os.WriteFile] touches one file. *)
Lemma WriteFile_frame env path data perm fs q :
  q <> path ->
  let '(seen, fs', _) := os_WriteFile env path data perm fs in
  Forall (fun f => f !! q = fs !! q) seen /\ fs' !! q = fs !! q.
Proof.
  intros Hq. unfold os_WriteFile. destruct (os_write env) as [[e [p|]]|];
    (split; [|by rewrite ?lookup_insert_ne by congruence]).
  - repeat constructor. by rewrite lookup_insert_ne by congruence.
  - constructor.
  - apply Forall_forall. intros f Hf. apply list_elem_of_In, in_map_iff in Hf as (n & <- & _). by rewrite lookup_insert_ne by congruence.
Qed.

Lemma ready_tmp_ne path : path <> ready_tmp path.
Proof. intros H. apply (f_equal length) in H. unfold ready_tmp in H. rewrite length_app in H. cbn in H. lia. Qed.

(** The ready file is replaced whole.  Every reader sees the file that was there
    before until the rename; a call that fails leaves it as it was; one that
    succeeds leaves the complete text with a newline, and no temporary file. *)
Theorem ready_file_atomic (env : osEnv) (path : bytes) (marshalled : res bytes) (fs : osFS) :
  let '(seen, fs', r) := writeReadyFile env path marshalled fs in
  Forall (fun f => f !! path = fs !! path) seen /\
  match r with
  | Ok _ => exists data f, marshalled = Ok data /\ fs' !! path = Some f /\ of_data f = data ++ [newline] /\ fs' !! ready_tmp path = None
  | _ => fs' !! path = fs !! path
  end.
Proof.
  unfold writeReadyFile. destruct (if needs_dir path then os_mkdir env else None) as [e|]; [done|].
  destruct marshalled as [data| |]; [|done|done].
  pose proof (WriteFile_frame env (ready_tmp path) (data ++ [newline]) 384 fs path (ready_tmp_ne path)) as Hf.
  destruct (os_WriteFile env (ready_tmp path) (data ++ [newline]) 384 fs) as [[seen fs1] e] eqn:Ew. destruct Hf as [H1 H2].
  destruct e as [e|]; [by split|]. assert (Forall (fun f => f !! path = fs !! path) (seen ++ [fs1])) as Hs by (by apply Forall_app; repeat constructor).
  destruct (os_rename env) as [er|]; [by split|]. destruct (fs1 !! ready_tmp path) as [f|] eqn:Et; [|by split]. split; [done|].
  exists data, f. pose proof (ready_tmp_ne path). split_and!; [done|by rewrite lookup_insert_eq| |].
  - unfold os_WriteFile in Ew. destruct (os_write env) as [[e' [p|]]|]; [done|done|]. injection Ew as _ <-.
    rewrite lookup_insert_eq in Et. by injection Et as <-.
  - by rewrite lookup_insert_ne, lookup_delete_eq.
Qed.

(** What [writeControlTokenFile] returns is the token in the file at the path it
    returns, the bytes in hexadecimal. *)
Lemma token_file_written env random path fs fs' token path' :
  writeControlTokenFile env random path fs = (fs', Ok (token, path')) ->
  exists b f, random = Ok b /\ token = hex_EncodeToString b /\ (path <> [] -> path' = path) /\
    fs' !! path' = Some f /\ of_data f = token ++ [newline] /\
    of_perm f = match fs !! path' with
                | Some f0 => if is_empty path then file_perm env 384 else of_perm f0
                | None => file_perm env 384
                end.
Proof.
  unfold writeControlTokenFile. destruct random as [b| |]; [|done|done].
  assert (forall fs1 p, (match (if needs_dir p then os_mkdir env else None) with
      | Some e => (fs1, Err e)
      | None => let '(_, fs, e) := os_WriteFile env p (hex_EncodeToString b ++ [newline]) 384 fs1 in
                (fs, match e with Some e => Err e | None => Ok (hex_EncodeToString b, p) end)
      end) = (fs', Ok (token, path')) ->
    token = hex_EncodeToString b /\ path' = p /\
    fs' !! p = Some (mkOsFile (token ++ [newline]) (match fs1 !! p with Some f => of_perm f | None => file_perm env 384 end))) as Hw.
  { intros fs1 p. destruct (if needs_dir p then os_mkdir env else None); [done|]. unfold os_WriteFile.
    destruct (os_write env) as [[e [q|]]|]; [done|done|]. intros [= <- <- <-]. by rewrite lookup_insert_eq. }
  destruct path as [|c path]; cbn [is_empty].
  - destruct (os_temp env) as [name| |]; [|done|done]. destruct (os_close env) as [e|]; [done|].
    intros (-> & -> & Hl)%Hw. rewrite lookup_insert_eq in Hl. eexists b, _. split_and!; try done. by destruct (fs !! name).
  - intros (-> & -> & Hl)%Hw. eexists b, _. split_and!; try done.
Qed.

(** A token file that is created, at the path given or a temporary one, is not
    open to anyone but its owner. *)
Theorem token_file_private (env : osEnv) (random : res bytes) (path : bytes) (fs fs' : osFS) (token path' : bytes)
    (Hwrite : writeControlTokenFile env random path fs = (fs', Ok (token, path')))
    (Hnew : path = [] \/ fs !! path = None) :
  exists f, fs' !! path' = Some f /\ of_data f = token ++ [newline] /\ Z.land (of_perm f) 63 = 0.
Proof.
  destruct (token_file_written _ _ _ _ _ _ _ Hwrite) as (b & f & _ & _ & Hp & Hf & Hd & Hperm). exists f. split_and!; [done|done|].
  assert (of_perm f = file_perm env 384) as ->.
  { rewrite Hperm. destruct path as [|c path]; [by destruct (fs !! path')|]. rewrite Hp by done.
    destruct Hnew as [Hnew|Hnew]; [done|]. by rewrite Hnew. }
  unfold file_perm. rewrite <- Z.land_assoc, (Z.land_comm (Z.lnot _)), Z.land_assoc. done.
Qed.

(** A file that exists keeps its permissions: one that everyone may read hands
    the token to everyone. *)
Theorem token_file_keeps_mode (env : osEnv) (random : res bytes) (path : bytes) (fs fs' : osFS) (token path' : bytes) (old : osFile)
    (Hwrite : writeControlTokenFile env random path fs = (fs', Ok (token, path')))
    (Hpath : path <> []) (Hold : fs !! path = Some old) :
  exists f, fs' !! path = Some f /\ of_data f = token ++ [newline] /\ of_perm f = of_perm old.
Proof.
  destruct (token_file_written _ _ _ _ _ _ _ Hwrite) as (b & f & _ & _ & Hp & Hf & Hd & Hperm). rewrite Hp in * by done.
  exists f. split_and!; [done|done|]. rewrite Hold in Hperm. by destruct path.
Qed.

(** * Who is answered *)

(** A word without spaces is one field. *)
Lemma ascii_fields_word s w acc : forallb (fun c => negb (is_space c)) w = true ->
  ascii_fields (w ++ s) acc = ascii_fields s (acc ++ w).
Proof.
  revert acc. induction w as [|c w IH]; intros acc; cbn [forallb app ascii_fields]; [by rewrite app_nil_r|].
  intros [Hc Hw]%andb_prop. apply negb_true_iff in Hc. rewrite Hc, IH by done. by rewrite <- (assoc_L (++)).
Qed.

Lemma hex_token_word b : forallb (fun c => negb (is_space c) && is_ascii_byte c) (hex_EncodeToString b) = true.
Proof.
  induction b as [|x b IH]; [done|]. unfold hex_EncodeToString in *. cbn [map concat]. rewrite forallb_app, IH, andb_true_r.
  by destruct x.
Qed.

Lemma hex_token_length b : length (hex_EncodeToString b) = (2 * length b)%nat.
Proof. induction b as [|x b IH]; [done|]. unfold hex_EncodeToString in *. cbn [map concat hex_byte app length]. rewrite IH. lia. Qed.

(** The token is accepted as the header the clients send. *)
Lemma bearer_accepted `{U : GoUnicode} b : b <> [] ->
  authorized (hex_EncodeToString b) (bs "Bearer " ++ hex_EncodeToString b) = true.
Proof.
  intros Hb. pose proof (hex_token_word b) as Hw. pose proof (hex_token_length b) as Hl. set (t := hex_EncodeToString b) in *.
  assert (forallb (fun c => negb (is_space c)) t = true /\ is_ascii t = true) as [Hs Ha].
  { unfold is_ascii. rewrite !forallb_forall in *. split; intros c Hc; apply Hw, andb_prop in Hc; apply Hc. }
  unfold authorized, Fields. assert (is_ascii (bs "Bearer " ++ t) = true) as -> by (unfold is_ascii in *; by rewrite forallb_app, Ha).
  change (ascii_fields (bs "Bearer " ++ t) []) with (bs "Bearer" :: ascii_fields t []).
  pose proof (ascii_fields_word [] t [] Hs) as E. rewrite app_nil_r in E. rewrite E. cbn [ascii_fields app].
  destruct t as [|c t]; [destruct b; [done|cbn in Hl; lia]|]. rewrite bool_decide_true by done. unfold EqualFoldAny. done.
Qed.

Section Auth.
Context `{U : GoUnicode} {I : GoUserInfo} {X : ErrorText} {R : GoRegexp} {L : Config.ConfigLib} {F : ConfigFields} {P : GeoProto} {Srt : GoSort} {C : Crypto}.

Lemma find_route_in path routes h : find_route path routes = Some h -> (path, h) ∈ routes.
Proof.
  induction routes as [|[p g] routes IH]; cbn [find_route]; [done|]. case_bool_decide as Hp; [|intros; right; by apply IH].
  intros [= ->]. rewrite Hp. left.
Qed.

(** What a request may change. *)
Definition control_effect (env : requestEnv) (r : ctlRequest) (s s' : controlState) : Prop :=
  cr_Method r = MethodPost /\
  ((cr_Path r = bs "/v1/runtime/stop" /\ s' = set_world (Engine.put_closes (fun cs => cs ++ [Engine.CCalled]) (ct_world s)) s) \/
   (cr_Path r = bs "/v1/rules/reload" /\ exists e, ct_route s = Some e /\ s' = set_ct_route (fst (RouteEngine.Reload (re_fs env) e)) s) \/
   (cr_Path r = bs "/v1/route/geo/update" /\ is_Some (ct_route s) /\ s' = add_update s) \/
   ((cr_Path r = bs "/v1/config/check" \/ cr_Path r = bs "/v1/config/format") /\ exists raw, cr_Body r = Ok raw /\
      s' = set_cipherPref (configured_after (take (Z.to_nat (2 ^ 20)) raw) (ct_cipherPref s)) s)).

Lemma handler_effect token h path env r s : (path, h) ∈ control_routes token -> cr_Path r = path ->
  let '(s', resp) := h env r s in
  (s' = s \/ authorized token (cr_Authorization r) = true /\ control_effect env r s s') /\
  (path = bs "/v1/version" \/ path = bs "/v1/health" \/ authorized token (cr_Authorization r) = true \/ resp = Ok unauthorized).
Proof.
  intros Hin Hp. cbn [control_routes] in Hin.
  repeat (apply elem_of_cons in Hin as [[= -> ->]|Hin];
    [unfold requireAuth; try (destruct (authorized token (cr_Authorization r)); [|by auto 6])|]); [..|by apply elem_of_nil in Hin];
    try (cbn; split; [by left|by auto]).
  1-2: unfold handleConfigCheck, handleConfigFormat, config_handler; case_bool_decide; [|by auto]; destruct (cr_Body r) as [raw|e|] eqn:Eb; [|by auto|by auto];
    (split; [|by auto]); right; (split; [done|]); (split; [done|]); right; right; right; (split; [by auto|]); by exists raw.
  - unfold handleStop. case_bool_decide; (split; [|by auto]); [|by left]. right. split; [done|]. split; [done|]. by left.
  - unfold handleRulesReload, routeSnapshot. case_bool_decide; [|by auto]. destruct (ct_route s) as [e|] eqn:Er; [|by auto].
    destruct (RouteEngine.Reload (re_fs env) e) as [e' q] eqn:El.
    assert (control_effect env r s (set_ct_route e' s)) by (split; [done|]; right; left; split; [done|]; exists e; by rewrite El).
    destruct q; (split; [by right|by auto]).
  - unfold handleGeoUpdate, routeSnapshot. case_bool_decide; [|by auto]. destruct (ct_route s) as [e|] eqn:Er; [|by auto].
    split; [|by auto]. right. split; [done|]. split; [done|]. right. right. left. split; [done|]. by rewrite Er.
Qed.

(** C33: the control server answers those who have the token.  Once started, it
    is bound to a loopback address and its token, 64 digits, is in the token
    file; the header [Bearer] with the token is accepted, and a header without
    exactly that word is not.  A request without such a header gets the version,
    the health, [401], a redirect or [404], and changes nothing, whatever its
    method, path and body; and a request changes something only if it is a
    [POST] that stops the engine (one call of [Close] begins), reloads the rules,
    starts an update of the databases, or gives a configuration to check or to
    format, which may set the preferred ciphers and nothing else. *)
Theorem control_auth (os : osEnv) (random listen : res bytes) (addr tokenFile : bytes) (fs fs' : osFS) (srv : controlServer) (b : bytes)
    (Hrandom : random = Ok b) (Hlen : length b = 32%nat)
    (Hstart : startControlServer os random listen addr tokenFile fs = (fs', Ok srv)) :
  (exists host port ip, SplitHostPort addr = Ok (host, port) /\ ParseIP host = Some ip /\ ip_IsLoopback ip = true) /\
  (exists f, fs' !! cs_tokenFile srv = Some f /\ of_data f = cs_token srv ++ [newline]) /\
  length (cs_token srv) = 64%nat /\
  authorized (cs_token srv) (bs "Bearer " ++ cs_token srv) = true /\
  (forall header, authorized (cs_token srv) header = true -> exists scheme, Fields header = [scheme; cs_token srv]) /\
  forall env r s, let '(s', resp) := serve (cs_token srv) env r s in
    (s' = s \/ authorized (cs_token srv) (cr_Authorization r) = true /\ control_effect env r s s') /\
    (authorized (cs_token srv) (cr_Authorization r) = false -> cr_Path r <> bs "/v1/version" -> cr_Path r <> bs "/v1/health" ->
       s' = s /\ resp ∈ [Ok unauthorized; Ok (mkResponse 301 BNone); Ok (mkResponse 404 BNone)]).
Proof.
  unfold startControlServer in Hstart. destruct (validateControlAddr addr) as [[]| |] eqn:Ev; [|done|done].
  destruct (writeControlTokenFile os random tokenFile fs) as [fs1 [[token path]| |]] eqn:Ew; [|done|done]. cbn in Hstart.
  destruct listen as [actual| |]; [|done|done]. injection Hstart as <- <-. cbn [cs_token cs_tokenFile].
  destruct (token_file_written _ _ _ _ _ _ _ Ew) as (b' & f & Hb & -> & _ & Hf & Hd & _). simplify_eq.
  split_and!; [|by exists f|by rewrite hex_token_length, Hlen|apply bearer_accepted; by destruct b'| |].
  - unfold validateControlAddr in Ev. destruct (SplitHostPort addr) as [[host port]| |]; [|done|done]. cbn [res_bind] in Ev.
    destruct (is_empty _); [done|]. destruct (_ && _); [done|]. destruct (ParseIP host) as [ip|] eqn:Ei; [|done].
    destruct (ip_IsLoopback ip) eqn:El; [|done]. by exists host, port, ip.
  - intros header. unfold authorized. destruct (Fields header) as [|scheme [|v [|? ?]]]; try done.
    intros [_ ->%bool_decide_eq_true]%andb_prop. by exists scheme.
  - intros env r s. unfold serve. destruct (_ && _); [split; [by left|]; intros; split; [done|set_solver]|].
    destruct (find_route _ _) as [h|] eqn:Er; [|split; [by left|]; intros; split; [done|set_solver]].
    apply find_route_in in Er. pose proof (handler_effect _ h (cr_Path r) env r s Er eq_refl) as Hh.
    destruct (h env r s) as [s' resp]. destruct Hh as [H1 H2]. split; [done|]. intros Ha Hv Hc. rewrite Ha in H1, H2. split.
    + by destruct H1 as [H1|[H1 _]].
    + destruct H2 as [H2|[H2|[H2|H2]]]; try done. rewrite H2. left.
Qed.

Lemma CheckConfigJSON_startup raw : Config.CheckConfigJSON raw = let! _ := checked_startup raw in Ok tt.
Proof.
  unfold Config.CheckConfigJSON, checked_startup. destruct (Config.applyConfigJSONToValues _ _ _); cbn [res_bind]; try done.
  by destruct (is_empty _).
Qed.

(** A configuration that is only checked takes effect: the ciphers it prefers are
    those the running client offers in its next handshakes. *)
Theorem check_sets_ciphers (token : bytes) (env : requestEnv) (r : ctlRequest) (s : controlState) (raw : bytes)
    (st : Config.startupConfig) (c : Config.clientStartupConfig)
    (Hauth : authorized token (cr_Authorization r) = true) (Hmethod : cr_Method r = MethodPost) (Hpath : cr_Path r = bs "/v1/config/check")
    (Hbody : cr_Body r = Ok raw) (Hsize : Z.of_nat (length raw) <= 2 ^ 20)
    (Hvalid : checked_startup raw = Ok st) (Hclient : Config.st_Client st = Some c) (Hpref : Config.cs_CipherPref c <> []) :
  serve token env r s = (set_cipherPref (Config.cs_CipherPref c) s, Ok (writeControlJSON 200 BChecked)) /\
  forall cipherPrefStr, clientCipherPreference (ct_cipherPref (fst (serve token env r s))) cipherPrefStr = Config.cs_CipherPref c.
Proof.
  assert (serve token env r s = (set_cipherPref (Config.cs_CipherPref c) s, Ok (writeControlJSON 200 BChecked))) as E.
  { unfold serve. rewrite Hmethod, Hpath. change (negb _ && negb _) with false. cbn iota.
    change (find_route (bs "/v1/config/check") (control_routes token)) with (Some (requireAuth token handleConfigCheck)). cbn iota.
    unfold requireAuth, handleConfigCheck, config_handler. rewrite Hauth, Hmethod, Hbody, bool_decide_true by done.
    rewrite take_ge by lia. rewrite CheckConfigJSON_startup. unfold configured_after. by rewrite Hvalid, Hclient. }
  rewrite E. split; [done|]. intros str. unfold clientCipherPreference. cbn [fst ct_cipherPref set_cipherPref].
  by destruct (Config.cs_CipherPref c).
Qed.

End Auth.

(** * Exit codes *)

(** [fmt.Errorf]: what stands before the first verb is copied, and a [%w] at the
    end is the text of the error it wraps. *)

Class ErrorTextOk `{X : ErrorText} : Prop := {
  text_literal : forall f e, HasPrefix (error_text (Wrapf f e)) (fst (fst (Cut (bs f) c_percent))) = true;
  text_wraps : forall f e p, Cut (bs f) c_percent = (p, bs "w", true) -> error_text (Wrapf f e) = p ++ error_text e;
}.

Lemma HasPrefix_before a x b p : x ∉ p -> HasPrefix (a ++ x :: b) p = true -> HasPrefix a p = true.
Proof.
  revert a. induction p as [|y p IH]; intros a Hx; [by destruct a|]. apply not_elem_of_cons in Hx as [Hx Hp].
  destruct a as [|c a]; cbn [app HasPrefix]; intros [H1 H2]%andb_prop.
  - by apply chr_true in H1 as ->.
  - rewrite H1. by apply IH.
Qed.

(** A word without [x] does not reach across an [x]. *)
Lemma Contains_apart a x b p : x ∉ p -> p <> [] -> Contains (a ++ x :: b) p = true -> Contains a p = true \/ Contains b p = true.
Proof.
  intros Hx Hne. induction a as [|c a IH]; cbn [app Contains]; intros [H|H]%orb_prop.
  - destruct p as [|y p]; [done|]. cbn [HasPrefix] in H. apply andb_prop in H as [->%chr_true _]. by apply not_elem_of_cons in Hx as [? _].
  - by right.
  - left. by rewrite (HasPrefix_before (c :: a) x b p Hx H).
  - destruct (IH H) as [->|]; [left; by rewrite orb_true_r|by right].
Qed.

Lemma HasPrefix_trans s q p : HasPrefix s q = true -> HasPrefix q p = true -> HasPrefix s p = true.
Proof.
  revert s q. induction p as [|x p IH]; intros s q Hs Hq; [by destruct s|]. destruct q as [|y q]; [done|]. destruct s as [|z s]; [done|].
  cbn [HasPrefix] in *. apply andb_prop in Hs as [->%chr_true Hs], Hq as [-> Hq]. by eapply IH.
Qed.

Lemma Contains_prefix s p q : HasPrefix s q = true -> Contains q p = true -> Contains s p = true.
Proof.
  revert q. induction s as [|c s IH]; intros [|y q] Hs Hq; [done|done|by destruct p|].
  pose proof Hs as Hs'. cbn [HasPrefix] in Hs'. apply andb_prop in Hs' as [_ Hs']. cbn [Contains] in *. apply orb_prop in Hq as [Hq|Hq].
  - by rewrite (HasPrefix_trans _ _ _ Hs Hq).
  - rewrite (IH q Hs' Hq). apply orb_true_r.
Qed.

(** The stages that bind an address. *)
Definition binds (s : Engine.stage) : bool :=
  match s with Engine.StMetrics | Engine.StServer | Engine.StListener _ | Engine.StControl => true | _ => false end.

Section Codes.
Context `{U : GoUnicode} {X : ErrorText} {XOk : ErrorTextOk} {L : Config.ConfigLib} {F : ConfigFields}.

Lemma start_code_stage s canceled err :
  start_code (Engine.stage_error s canceled err) =
  if binds s then 3 else start_code err.
Proof.
  assert (forall f e, Contains (fst (fst (Cut (bs f) c_percent))) (bs "listen.bind_failed") = true -> start_code (Wrapf f e) = 3) as H3.
  { intros f e H. unfold start_code. by rewrite (Contains_prefix _ _ _ (text_literal f e) H). }
  assert (forall f e p, Cut (bs f) c_percent = (p ++ bs " ", bs "w", true) -> Contains p (bs "listen.bind_failed") = false ->
            start_code (Wrapf f e) = start_code e) as H2.
  { intros f e p Hc Hp. unfold start_code. rewrite (text_wraps f e _ Hc), <- (assoc_L (++)). change (bs " " ++ error_text e) with (z2b 32 :: error_text e).
    assert (Contains (p ++ z2b 32 :: error_text e) (bs "listen.bind_failed") = Contains (error_text e) (bs "listen.bind_failed")) as ->; [|done].
    apply Bool.eq_iff_eq_true. split.
    - intros [H|H]%Contains_apart; [congruence|done|by apply (bool_decide_unpack _); vm_compute|done].
    - clear. intros H. induction p as [|c p IH]; cbn [app Contains]; [by rewrite H, orb_true_r|by rewrite IH, orb_true_r]. }
  destruct s; cbn [Engine.stage_error binds]; try (apply H3; vm_compute; reflexivity); try done.
  - destruct canceled; [done|]. apply (H2 _ _ (bs "transport.ech_lookup_failed:")); vm_compute; reflexivity.
  - apply (H2 _ _ (bs "route.init_failed:")); vm_compute; reflexivity.
  - apply (H2 _ _ (bs "ready_file.write_failed:")); vm_compute; reflexivity.
Qed.

(** The exit codes tell the causes apart.  Without an engine the program ends
    with 0, and has then printed something, or with 2, and has not; an engine
    is started only with a plan.  A start that fails ends with 3 when an address
    could not be bound and otherwise, unless the error says so itself, with 2;
    after a start the code is 4 exactly when a fatal error was reported, else
    0, and not before the engine is done. *)
Theorem exit_codes (env : cliEnv) (build : Engine.RuntimeOptions) (f : cliFlags) :
  match RunCLI env build f with
  | Ok (CExit code out) => (code = 0 /\ out <> ONone) \/ (code = 2 /\ out = ONone)
  | Ok (CEngine _ plan) => exists stages, plan = Ok stages
  | Err _ => False
  | Panic => True
  end /\
  (forall s canceled err, start_code (Engine.stage_error s canceled err) = if binds s then 3 else start_code err) /\
  (forall w, Engine.ew_start w = Engine.SReturned None -> forall code, engine_code w = Some code <->
     Engine.done (Engine.ew_engine w) = true /\
     code = match Engine.fatalErr (Engine.ew_engine w) with Some _ => 4 | None => 0 end).
Proof.
  split_and!; [|apply start_code_stage|].
  - unfold RunCLI, runOfflineConfigCommand. destruct (fl_showVersion f); [by left|].
    destruct (negb _ || negb _).
    { destruct (negb _ && negb _); [by right|]. destruct (readConfigCommandInput _ _); [|by right|done]. destruct (negb _).
      - destruct (FormatConfigJSON _ _); [|by right|done]. destruct (ce_stdout env); [by right|by left].
      - destruct (Config.CheckConfigJSON _); [by left|by right|done]. }
    destruct (is_empty _ && _); [by left|]. destruct (Config.LoadConfig _ _ _) as [[values startup]| |]; [|by right|done].
    destruct (Engine.NewEngine _ _ _) as [[o e]| |]; [|by right|done].
    destruct (Engine.startRuntime_planned values startup o) as (plan & Hp & _). by exists plan.
  - intros w Hw code. unfold engine_code, Engine.Wait. rewrite Hw. destruct (Engine.done _); [|by split; [|intros [? _]]].
    destruct (Engine.fatalErr _); (split; [by intros [= <-]|by intros [_ ->]]).
Qed.

End Codes.

(** * Examples *)

(** Texts of errors for concrete runs. *)
Fixpoint plain_text (e : error) : bytes :=
  match e with
  | EOF => bs "EOF"
  | ErrUnexpectedEOF => bs "unexpected EOF"
  | ErrShortWrite => bs "short write"
  | ErrClosedPipe => bs "io: read/write on closed pipe"
  | Errorf f _ => bs f
  | Wrapf f e => fst (fst (Cut (bs f) c_percent)) ++ plain_text e
  end.

Definition plain_errors : ErrorText := {| error_text := plain_text; target_text := fun _ => plain_text; reason_text := fun _ _ => [] |}.

#[export] Instance plain_errors_ok : ErrorTextOk (X := plain_errors).
Proof. split; intros f e; cbn [error_text plain_errors plain_text]; [apply HasPrefix_app; eauto|]. intros p ->. done. Qed.

Definition demo_users : GoUserInfo := {| url_userinfo := fun _ => None; url_with_user := fun s _ => s |}.

Definition demo_os : osEnv := mkOsEnv 18 None (Ok (bs "/tmp/x-tunnel-control-token-1")) None None None.

Example control_addresses : map (validateControlAddr (U := ascii_only_unicode))
    [bs "127.0.0.1:0"; bs "[::1]:9000"; bs "127.9.9.9:1"] = [Ok tt; Ok tt; Ok tt] /\
  Forall (fun a => exists e, validateControlAddr (U := ascii_only_unicode) a = Err e)
    [bs "0.0.0.0:9000"; bs "localhost:9000"; bs ":9000"; bs "127.0.0.1:65536"; bs "127.0.0.1:"].
Proof. split; [vm_compute; reflexivity|]. repeat constructor; eexists; vm_compute; reflexivity. Qed.

Section Sample.
#[local] Instance sample_U : GoUnicode := ascii_only_unicode.
#[local] Instance sample_I : GoUserInfo := demo_users.
#[local] Instance sample_X : ErrorText := plain_errors.
#[local] Instance sample_P : GeoProto := sample_GeoProto.
#[local] Instance sample_R : GoRegexp := plain_GoRegexp.
#[local] Instance sample_S : GoSort := merge_GoSort.
#[local] Instance sample_L : Config.ConfigLib := Config.plain_lib Config.sample_file.
#[local] Instance sample_F : ConfigFields := {| json_Fields := fun _ => Ok ∅; json_MarshalIndent := fun _ => Ok (bs "{}") |}.

Definition stop_request (header : bytes) : ctlRequest := mkCtlRequest MethodPost (bs "/v1/runtime/stop") header [] [] (Ok []).

Definition demo_started : osFS * res controlServer :=
  startControlServer demo_os (Ok (replicate 32 (z2b 171))) (Ok (bs "127.0.0.1:4000")) (bs "127.0.0.1:0") [] ∅.

Definition demo_server : controlServer :=
  mkControlServer (hex_EncodeToString (replicate 32 (z2b 171))) (bs "/tmp/x-tunnel-control-token-1") (bs "http://127.0.0.1:4000").

Lemma demo_started_ok : demo_started = (demo_started.1, Ok demo_server).
Proof. vm_compute. reflexivity. Qed.

(** A server that was started: another token does not stop the engine. *)
Lemma control_auth_witness :
  length (cs_token demo_server) = 64%nat /\
  authorized (cs_token demo_server) (bs "Bearer " ++ cs_token demo_server) = true /\
  forall env s, fst (serve (cs_token demo_server) env (stop_request (bs "Bearer abc")) s) = s.
Proof.
  pose proof demo_started_ok as Hst. unfold demo_started at 1 in Hst.
  destruct (control_auth demo_os (Ok (replicate 32 (z2b 171))) (Ok (bs "127.0.0.1:4000")) (bs "127.0.0.1:0") [] ∅ demo_started.1 demo_server
    (replicate 32 (z2b 171)) eq_refl eq_refl Hst) as (_ & _ & Hl & Ha & _ & Hs).
  split; [exact Hl|]. split; [exact Ha|]. intros env s. specialize (Hs env (stop_request (bs "Bearer abc")) s).
  destruct (serve _ _ _ _) as [s' resp]. destruct Hs as [_ Hs].
  refine (proj1 (Hs _ _ _)); [vm_compute; reflexivity|discriminate|discriminate].
Defined.

(** The right one does. *)
Example stop_stops env s : serve (cs_token demo_server) env (stop_request (bs "bearer " ++ cs_token demo_server)) s =
  (set_world (Engine.put_closes (fun cs => cs ++ [Engine.CCalled]) (ct_world s)) s, Ok (writeControlJSON 200 BStopping)).
Proof. vm_compute. reflexivity. Qed.

End Sample.
