(* ===== verification/Pacer.v ===== *)
(** The pacing of the client's writes and the jitter of the keep-alive:
    internal/app/pacer.go and keepalive.go.  The code computes in float64;
    [pacer_Write] is written over an arithmetic, with float64 as one instance
    and the rational numbers as the other.  The rate is bounded over the
    rationals, where the only rounding is that of a sleep to whole
    nanoseconds. *)

From Stdlib Require Import ZArith Lia Floats.SpecFloat QArith Qround Lqa.
From stdpp Require Import base numbers list.
From S2P Require Import Prelude GoTime.

Local Open Scope Z_scope.

(** * Arithmetic *)

Record arith : Type := mkArith {
  num : Type;
  of_Z : Z -> num;
  add : num -> num -> num;
  sub : num -> num -> num;
  mul : num -> num -> num;
  div : num -> num -> num;
  leb : num -> num -> bool;
  ltb : num -> num -> bool;
  trunc : num -> Z;
}.

(** float64: a conversion to an integer drops the fraction. *)
Definition SFtrunc (x : spec_float) : Z :=
  match x with
  | S754_finite s m e =>
      let v := if 0 <=? e then Zpos m * 2 ^ e else Zpos m / 2 ^ (- e) in if s then - v else v
  | _ => 0
  end.

Definition float64 : arith := {|
  num := spec_float;
  of_Z := fun z => binary_normalize 53 1024 z 0 false;
  add := SFadd 53 1024; sub := SFsub 53 1024; mul := SFmul 53 1024; div := SFdiv 53 1024;
  leb := SFleb; ltb := SFltb; trunc := SFtrunc |}.

Definition Qltb (x y : Q) : bool := negb (Qle_bool y x).

Definition Qtrunc (x : Q) : Z := if Qle_bool 0 x then Qfloor x else - Qfloor (- x).

Definition rational : arith := {|
  num := Q; of_Z := inject_Z; add := Qplus; sub := Qminus; mul := Qmult; div := Qdiv; leb := Qle_bool; ltb := Qltb; trunc := Qtrunc |}.

(** * The writer *)

Section Pacer.
Context (A : arith).

(** [time.Duration.Seconds]. *)
Definition dur_Seconds (d : Z) : num A :=
  add A (of_Z A (Z.quot d Second)) (div A (of_Z A (Z.rem d Second)) (of_Z A Second)).

Record pacerWriter : Type := mkPacer { pw_rate : num A; pw_burst : num A; pw_tokens : num A; pw_last : Time }.

Definition newPacerWriter (now : Time) (bytesPerSec burstBytes : num A) : pacerWriter :=
  let burstBytes := if leb A burstBytes (of_Z A 0) then of_Z A (64 * 1024) else burstBytes in
  mkPacer bytesPerSec burstBytes burstBytes now.

(** [newPacerWriterMbps]: [None] is the writer itself. *)
Definition newPacerWriterMbps (now : Time) (rateMbps : num A) : option pacerWriter :=
  if leb A rateMbps (of_Z A 0) then None else Some (newPacerWriter now (mul A rateMbps (of_Z A 125000)) (of_Z A (64 * 1024))).

(** [Write] of [n] bytes at [now], up to the write to the stream: how long it
    sleeps before. *)
Definition pacer_Write (now : Time) (n : Z) (pw : pacerWriter) : pacerWriter * Z :=
  if leb A (pw_rate pw) (of_Z A 0) then (pw, 0) else
  let tokens :=
    if bool_decide (wall (pw_last pw) = 0) then pw_tokens pw else
    let t := add A (pw_tokens pw) (mul A (dur_Seconds (Sub now (pw_last pw))) (pw_rate pw)) in
    if ltb A (pw_burst pw) t then pw_burst pw else t in
  let needed := of_Z A n in
  if ltb A tokens needed then
    let sleepSec := div A (sub A needed tokens) (pw_rate pw) in
    let d := trunc A (mul A sleepSec (of_Z A Second)) in
    (mkPacer (pw_rate pw) (pw_burst pw) (of_Z A 0) (Add now d), if ltb A (of_Z A 0) sleepSec then d else 0)
  else (mkPacer (pw_rate pw) (pw_burst pw) (sub A tokens needed) now, 0).

(** Writes one after the other, as [io.Copy] makes them: the times at which the
    bytes go out, with the bytes written so far. *)
Fixpoint pacer_run (ws : list (Time * Z)) (sent : Z) (pw : pacerWriter) : list (Time * Z) :=
  match ws with
  | [] => []
  | (now, n) :: ws =>
      let '(pw, d) := pacer_Write now n pw in
      (Add now d, sent + n) :: pacer_run ws (sent + n) pw
  end.

End Pacer.

Arguments mkPacer {A}.
Arguments pw_rate {A}.
Arguments pw_burst {A}.
Arguments pw_tokens {A}.
Arguments pw_last {A}.

(** * The jitter *)

(** The constants 0.8 and 0.4, and [base * (0.8 + 0.4 * f)]. *)
Definition f0_8 : spec_float := S754_finite false 7205759403792794 (-53).
Definition f0_4 : spec_float := S754_finite false 7205759403792794 (-54).

Definition jitterKeepAliveWith (f : spec_float) (base : Z) : Z :=
  if base <=? 0 then base else
  trunc float64 (mul float64 (of_Z float64 base) (add float64 f0_8 (mul float64 f0_4 f))).

Definition defaultSmuxKeepAliveInterval : Z := 10 * Second.

(** The comment says that the result is below 1.2 times the base; the largest
    number below one that [Float64] returns gives 1.2 times the base. *)
Theorem jitter_ends :
  jitterKeepAliveWith (S754_zero false) defaultSmuxKeepAliveInterval = 8 * Second /\
  jitterKeepAliveWith (binary_normalize 53 1024 (2 ^ 53 - 1) (-53) false) defaultSmuxKeepAliveInterval = 12 * Second.
Proof. split; vm_compute; reflexivity. Qed.

(** * The rate *)

Lemma Qltb_spec x y : reflect (x < y)%Q (Qltb x y).
Proof.
  unfold Qltb. destruct (Qle_bool y x) eqn:E; cbn; constructor.
  - apply Qle_bool_iff in E. by apply Qle_not_lt.
  - apply Qnot_le_lt. intros H%Qle_bool_iff. congruence.
Qed.

Lemma Qtrunc_bounds x : (0 <= x)%Q -> (inject_Z (Qtrunc x) <= x)%Q /\ (x < inject_Z (Qtrunc x) + 1)%Q /\ (0 <= Qtrunc x)%Z.
Proof.
  intros H. unfold Qtrunc. rewrite (proj2 (Qle_bool_iff 0 x) H). split_and!; [apply Qfloor_le| |].
  - pose proof (Qlt_floor x) as Hf. rewrite inject_Z_plus in Hf. exact Hf.
  - change 0 with (Qfloor 0). by apply Qfloor_resp_le.
Qed.

Lemma Second_pos : (0 < inject_Z Second)%Q.
Proof. reflexivity. Qed.

Lemma Second_ne : ~ (inject_Z Second == 0)%Q.
Proof. discriminate. Qed.

Lemma Qseconds d : (dur_Seconds rational d == inject_Z d / inject_Z Second)%Q.
Proof.
  unfold dur_Seconds. cbn [add of_Z div rational]. rewrite (Z.quot_rem' d Second) at 3. rewrite inject_Z_plus, inject_Z_mult.
  field. done.
Qed.

(** A reading of the clock: its monotonic part, with room to add a sleep. *)
Definition reading (t : Time) (m : Z) : Prop :=
  t_mono t = Some m /\ 0 <= m < 2 ^ 62 /\ time_ok t /\ 0 < t_sec t < 2 ^ 62.

Lemma reading_wall t m : reading t m -> wall t <> 0.
Proof. intros (_ & _ & Ht & Hs). unfold wall, time_ok in *. unfold Second in *. lia. Qed.

Lemma reading_add t m d : reading t m -> 0 <= d -> m + d < 2 ^ 62 -> t_mono (Add t d) = Some (m + d) /\ wall (Add t d) <> 0.
Proof.
  intros (Hm & Hb & Ht & Hs) Hd Hmd. unfold Add. cbn [t_mono]. rewrite Hm. split.
  - destruct (Z.leb_spec (- 2 ^ 63) (m + d)), (Z.ltb_spec (m + d) (2 ^ 63)); cbn; try lia; done.
  - unfold wall, time_ok in *. cbn [t_sec t_nsec].
    assert (0 <= (t_nsec t + d) / Second) by (apply Z.div_pos; unfold Second in *; lia).
    pose proof (Z.mod_pos_bound (t_nsec t + d) Second ltac:(done)). unfold Second in *. lia.
Qed.

Lemma Sub_reading t m u l : t_mono t = Some m -> t_mono u = Some l -> 0 <= l <= m -> m < 2 ^ 62 -> Sub t u = m - l.
Proof. intros Ht Hu Hl Hm. unfold Sub, sat64. rewrite Ht, Hu. lia. Qed.

(** What holds between two writes: the bytes sent and the tokens left are covered
    by the burst and the time, [c] writes having lost less than a nanosecond
    each. *)
Record paced (rate burst : Q) (m0 : Z) (sent l c : Z) (pw : pacerWriter rational) : Prop := {
  pc_rate : pw_rate pw = rate;
  pc_burst : pw_burst pw = burst;
  pc_tokens : (0 <= pw_tokens pw)%Q;
  pc_last : t_mono (pw_last pw) = Some l /\ wall (pw_last pw) <> 0;
  pc_sent : (inject_Z sent + pw_tokens pw <= burst + (rate / inject_Z Second) * inject_Z (l - m0 + c))%Q;
}.

(** The tokens after the refill. *)
Lemma refill rate burst m0 sent l c pw now m : (0 < rate)%Q -> (0 < burst)%Q -> paced rate burst m0 sent l c pw -> reading now m -> 0 <= l <= m ->
  let t := add rational (pw_tokens pw) (mul rational (dur_Seconds rational (Sub now (pw_last pw))) (pw_rate pw)) in
  let t := if ltb rational (pw_burst pw) t then pw_burst pw else t in
  (0 <= t)%Q /\ (inject_Z sent + t <= burst + (rate / inject_Z Second) * inject_Z (m - m0 + c))%Q.
Proof.
  intros Hr Hb [Er Eb Ht [Hl Hw] Hs] Hm Hlm. destruct Hm as (Hm & Hmb & _). rewrite Er, Eb, (Sub_reading now m _ l Hm Hl Hlm) by lia.
  cbn [add mul ltb rational]. set (u := (rate / inject_Z Second)%Q) in *.
  assert (0 < u)%Q as Hu by (unfold u; apply Qlt_shift_div_l; [exact Second_pos|lra]).
  assert (dur_Seconds rational (m - l) * rate == u * inject_Z (m - l))%Q as E by (rewrite Qseconds; unfold u; field; exact Second_ne).
  assert (0 <= u * inject_Z (m - l))%Q as Hx by (apply Qmult_le_0_compat; [lra|]; change 0%Q with (inject_Z 0); rewrite <- Zle_Qle; lia).
  set (t := (pw_tokens pw + dur_Seconds rational (m - l) * rate)%Q).
  assert (t == pw_tokens pw + u * inject_Z (m - l))%Q as Et by (unfold t; by rewrite E). clearbody t.
  assert (u * inject_Z (m - m0 + c) == u * inject_Z (m - l) + u * inject_Z (l - m0 + c))%Q as Eu.
  { rewrite <- Qmult_plus_distr_r, <- inject_Z_plus. replace (m - l + (l - m0 + c)) with (m - m0 + c) by lia. reflexivity. }
  cbv zeta. destruct (Qltb_spec burst t); split; lra.
Qed.

Lemma pacer_step rate burst m0 sent l c pw now m n : (0 < rate)%Q -> (0 < burst)%Q -> paced rate burst m0 sent l c pw -> reading now m ->
  0 <= l <= m -> 0 <= n ->
  let '(pw', d) := pacer_Write rational now n pw in
  0 <= d /\ (m + d < 2 ^ 62 -> t_mono (Add now d) = Some (m + d) /\ paced rate burst m0 (sent + n) (m + d) (c + 1) pw').
Proof.
  intros Hr Hb Hp Hm Hlm Hn. pose proof (refill _ _ _ _ _ _ _ _ _ Hr Hb Hp Hm Hlm) as Hf. destruct Hp as [Er Eb Ht [Hl Hw] Hs].
  unfold pacer_Write. change (leb rational (pw_rate pw) (of_Z rational 0)) with (Qle_bool (pw_rate pw) 0). rewrite Er.
  destruct (Qle_bool rate 0) eqn:Ez; [apply Qle_bool_iff in Ez; change (inject_Z 0) with 0%Q in Ez; lra|].
  rewrite bool_decide_false by done. cbv zeta in Hf. rewrite Er in Hf. cbv zeta.
  set (t := if ltb rational (pw_burst pw) _ then _ else _) in *. clearbody t. destruct Hf as [Hf1 Hf2].
  set (u := (rate / inject_Z Second)%Q) in *. assert (0 < u)%Q as Hu by (unfold u; apply Qlt_shift_div_l; [exact Second_pos|lra]).
  cbn [ltb of_Z sub div mul trunc rational].
  destruct (Qltb_spec t (inject_Z n)) as [Hd|Hd].
  - set (y := ((inject_Z n - t) / rate * inject_Z Second)%Q).
    assert (inject_Z n == t + u * y)%Q as En by (unfold y, u; field; split; [lra|exact Second_ne]).
    assert (0 < (inject_Z n - t) / rate)%Q as Hs0 by (apply Qlt_shift_div_l; lra).
    assert (0 <= y)%Q as Hy by (unfold y; apply Qmult_le_0_compat; [lra|apply Qlt_le_weak, Second_pos]).
    destruct (Qtrunc_bounds y Hy) as (_ & Hy2 & Hy3). set (d := Qtrunc y) in *. clearbody d y.
    destruct (Qltb_spec (inject_Z 0) ((inject_Z n - t) / rate)) as [_|Hno]; [|by destruct Hno].
    split; [done|]. intros Hmd. destruct (reading_add now m d Hm Hy3 Hmd) as [Ha Hb']. split; [done|].
    split; cbn [pw_rate pw_burst pw_tokens pw_last]; [done|done|done|done|]. rewrite inject_Z_plus, En.
    assert (u * y <= u * (inject_Z d + 1))%Q as Huy by (apply Qmult_le_l; [done|lra]).
    replace (m + d - m0 + (c + 1)) with (m - m0 + c + (d + 1)) by lia.
    fold u. rewrite (inject_Z_plus (m - m0 + c)), (inject_Z_plus d), Qmult_plus_distr_r. change (inject_Z 1) with 1%Q. change (inject_Z 0) with 0%Q.
    set (X := (u * inject_Z (m - m0 + c))%Q) in *. set (Y := (u * y)%Q) in *. set (W := (u * (inject_Z d + 1))%Q) in *. clearbody X Y W. lra.
  - split; [done|]. intros Hmd. rewrite Z.add_0_r in *. destruct (reading_add now m 0 Hm ltac:(lia) ltac:(lia)) as [Ha _].
    rewrite Z.add_0_r in Ha. split; [done|]. split; cbn [pw_rate pw_burst pw_tokens pw_last]; [done|done| | |].
    + apply Qnot_lt_le in Hd. lra.
    + split; [apply Hm|by eapply reading_wall].
    + fold u. rewrite (inject_Z_plus sent). replace (m - m0 + (c + 1)) with (m - m0 + c + 1) by lia.
      rewrite (inject_Z_plus (m - m0 + c)), Qmult_plus_distr_r. change (inject_Z 1) with 1%Q.
      set (X := (u * inject_Z (m - m0 + c))%Q) in *. clearbody X. lra.
Qed.

(** Writes that follow each other: each starts after the one before has slept. *)
Fixpoint sequential (ws : list (Time * Z)) (l : Z) (pw : pacerWriter rational) : Prop :=
  match ws with
  | [] => True
  | (now, n) :: ws =>
      exists m, reading now m /\ l <= m /\ 0 <= n /\
        let '(pw', d) := pacer_Write rational now n pw in m + d < 2 ^ 62 /\ sequential ws (m + d) pw'
  end.

Lemma pacer_run_bound rate burst m0 ws : (0 < rate)%Q -> (0 < burst)%Q -> forall sent l c pw,
  paced rate burst m0 sent l c pw -> 0 <= l -> sequential ws l pw ->
  forall k t s, pacer_run rational ws sent pw !! k = Some (t, s) -> exists m, t_mono t = Some m /\
    (inject_Z s <= burst + (rate / inject_Z Second) * inject_Z (m - m0 + (c + Z.of_nat k + 1)))%Q.
Proof.
  intros Hr Hb. induction ws as [|[now n] ws IH]; intros sent l c pw Hp Hl Hs k t s Hk; [done|].
  destruct Hs as (m & Hm & Hlm & Hn & Hs). cbn [pacer_run] in Hk.
  pose proof (pacer_step _ _ _ _ _ _ _ now m n Hr Hb Hp Hm ltac:(lia) Hn) as Hw.
  destruct (pacer_Write rational now n pw) as [pw' d]. destruct Hw as [Hd Hw], Hs as [Hmd Hs]. destruct (Hw Hmd) as [Ht Hp'].
  destruct k as [|k]; cbn [lookup list_lookup] in Hk.
  - injection Hk as <- <-. exists (m + d). split; [done|]. destruct Hp' as [_ _ Htok _ Hsent].
    replace (m + d - m0 + (c + Z.of_nat 0 + 1)) with (m + d - m0 + (c + 1)) by lia.
    set (X := (rate / inject_Z Second * inject_Z (m + d - m0 + (c + 1)))%Q) in *. clearbody X. lra.
  - destruct Hm as (_ & Hmb & _). destruct (IH _ _ _ _ Hp' ltac:(lia) Hs k t s Hk) as (m' & Hm' & Hb'). exists m'. split; [done|].
    by replace (c + Z.of_nat (S k) + 1) with (c + 1 + Z.of_nat k + 1) by lia.
Qed.

(** The pacer keeps its rate: of the bytes written one after the other, no more
    than the burst and the rate times the time since it was made are sent at
    any moment, up to the nanosecond that rounding each sleep may lose. *)
Theorem pacer_keeps_rate (t0 : Time) (m0 : Z) (rate burst : Q) (ws : list (Time * Z))
    (Ht0 : reading t0 m0) (Hrate : (0 < rate)%Q) (Hburst : (0 < burst)%Q)
    (Hseq : sequential ws m0 (newPacerWriter rational t0 rate burst))
    (k : nat) (t : Time) (s : Z) (Hk : pacer_run rational ws 0 (newPacerWriter rational t0 rate burst) !! k = Some (t, s)) :
  exists m, t_mono t = Some m /\
    (inject_Z s <= burst + rate * inject_Z (m - m0 + Z.of_nat k + 1) / inject_Z Second)%Q.
Proof.
  assert (paced rate burst m0 0 m0 0 (newPacerWriter rational t0 rate burst)) as Hp.
  { unfold newPacerWriter. cbn [leb of_Z rational]. destruct (Qle_bool burst (inject_Z 0)) eqn:E.
    { apply Qle_bool_iff in E. change (inject_Z 0) with 0%Q in E. lra. }
    split; cbn [pw_rate pw_burst pw_tokens pw_last]; [done|done|lra|split; [apply Ht0|by eapply reading_wall]|].
    replace (m0 - m0 + 0) with 0 by lia. change (inject_Z 0) with 0%Q. lra. }
  destruct (pacer_run_bound rate burst m0 ws Hrate Hburst 0 m0 0 _ Hp (proj1 (proj1 (proj2 Ht0))) Hseq k t s Hk) as (m & Hm & Hb).
  exists m. split; [done|]. replace (m - m0 + (0 + Z.of_nat k + 1)) with (m - m0 + Z.of_nat k + 1) in Hb by lia.
  assert (rate * inject_Z (m - m0 + Z.of_nat k + 1) / inject_Z Second == rate / inject_Z Second * inject_Z (m - m0 + Z.of_nat k + 1))%Q as ->
    by (field; exact Second_ne). exact Hb.
Qed.

(** * Examples *)

Definition at_ns (m : Z) : Time := mkTime 1 0 (Some m).

(** 1000 bytes a second, a burst of 100: the second write waits 0.4 s. *)
Definition demo_writes : list (Time * Z) := [(at_ns 0, 100); (at_ns 100000000, 500); (at_ns 700000000, 50)].

Example demo_pacer : map (fun p => (t_mono p.1, p.2)) (pacer_run rational demo_writes 0 (newPacerWriter rational (at_ns 0) (inject_Z 1000) (inject_Z 100))) =
  [(Some 0, 100); (Some 500000000, 600); (Some 700000000, 650)].
Proof. vm_compute. reflexivity. Qed.

(** The same in float64. *)
Example demo_pacer_float :
  map (fun p => (t_mono p.1, p.2)) (pacer_run float64 demo_writes 0 (newPacerWriter float64 (at_ns 0) (of_Z float64 1000) (of_Z float64 100))) =
  [(Some 0, 100); (Some 500000000, 600); (Some 700000000, 650)].
Proof. vm_compute. reflexivity. Qed.

Lemma pacer_keeps_rate_witness : exists m, t_mono (Add (at_ns 100000000) 400000000) = Some m /\
  (inject_Z 600 <= inject_Z 100 + inject_Z 1000 * inject_Z (m - 0 + Z.of_nat 1 + 1) / inject_Z Second)%Q.
Proof.
  apply (pacer_keeps_rate (at_ns 0) 0 (inject_Z 1000) (inject_Z 100) demo_writes); try reflexivity.
  - repeat split; vm_compute; discriminate || reflexivity.
  - cbn [sequential demo_writes]. repeat (eexists _; split; [repeat split; vm_compute; discriminate || reflexivity|];
      split; [vm_compute; discriminate|]; split; [vm_compute; discriminate|];
      match goal with |- context [pacer_Write ?a ?b ?c ?d] => let v := eval vm_compute in (pacer_Write a b c d) in
        change (pacer_Write a b c d) with v end; cbv beta iota; split; [vm_compute; reflexivity|]). exact I.
Defined.
