(* ===== verification/Globals.v ===== *)
(** The package variables of internal/app/config.go: the flags that are bound to
    them, the copies from and to a configuration ([currentRuntimeValues],
    [applyGlobals]), [loadConfigFile], and what starting an engine assigns.  A
    variable is a constructor of its type of value, as a flag holds a pointer to
    it; the variables are a store, equal when they hold the same values. *)

From Stdlib Require Import ZArith Lia Strings.Byte Floats.SpecFloat.
From stdpp Require Import base numbers list gmap.
From S2P Require Import Prelude GoStrings GoNet NetAddr GoTime WireV3 Client Policy Upstream Wire Config.

Local Open Scope Z_scope.
Local Open Scope go_scope.

(** * Variables *)

Inductive stringVar : Type :=
  | listenAddr | forwardAddr | ipAddr | udpBlockPortsStr | certFile | keyFile | clientCAFile | clientCertFile
  | clientKeyFile | configFile | token | metricsAddr | cidrs | targetAllowCIDRs | targetDenyCIDRs
  | targetAllowHosts | targetDenyHosts | ips | controlAddr | readyFile | controlTokenFile | checkConfigFile
  | formatConfigFile | dnsServer | echDomain | rulesPath | geoDir | cipherPrefStr | transportMode.

Inductive boolVar : Type :=
  | showVersion | insecure | enableECH | fallback | routeEnabled | sniSniff | enableDatagram | coverTraffic.

Inductive intVar : Type := maxClientSessions | maxStreamsPerClient | connectionNum | shapingCoalesceMs | quicPort.

(** The fields of [cfg] that are flags; [ReadBuf] is none. *)
Inductive durationVar : Type :=
  | cfgDialTimeout | cfgWSHandshakeTimeout | cfgReconnectDelay | cfgReconnectMaxDelay | cfgReconnectJitter
  | cfgRTTProbeTimeout | cfgDNSQueryTimeout | cfgDNSCacheTTL | cfgECHRetryDelay | cfgUDPReadTimeout
  | cfgShutdownTimeout | cfgAuthSkew | cfgPreAuthTimeout.

#[export] Instance stringVar_eq_dec : EqDecision stringVar.
Proof. solve_decision. Defined.
#[export] Instance boolVar_eq_dec : EqDecision boolVar.
Proof. solve_decision. Defined.
#[export] Instance intVar_eq_dec : EqDecision intVar.
Proof. solve_decision. Defined.
#[export] Instance durationVar_eq_dec : EqDecision durationVar.
Proof. solve_decision. Defined.

Record packageVars : Type := mkVars {
  strings : stringVar -> bytes; bools : boolVar -> bool; ints : intVar -> Z; durations : durationVar -> Z;
  pacingRateMbps : spec_float; cfgReadBuf : Z; websocketFrontProxyConfig : WebSocketFrontProxyConfig;
  configuredCipherPref : bytes; targetPolicy : option TargetPolicy; socks5Config : option SOCKS5Config;
  ipStrategy : Z; udpBlockPorts : gset Z;
}.

(** The same values in every variable. *)
#[export] Instance vars_equiv : Equiv packageVars := fun g h =>
  (forall x, strings g x = strings h x) /\ (forall x, bools g x = bools h x) /\ (forall x, ints g x = ints h x) /\
  (forall x, durations g x = durations h x) /\
  pacingRateMbps g = pacingRateMbps h /\ cfgReadBuf g = cfgReadBuf h /\
  websocketFrontProxyConfig g = websocketFrontProxyConfig h /\ configuredCipherPref g = configuredCipherPref h /\
  targetPolicy g = targetPolicy h /\ socks5Config g = socks5Config h /\ ipStrategy g = ipStrategy h /\
  udpBlockPorts g = udpBlockPorts h.

#[export] Instance vars_equivalence : Equivalence (≡@{packageVars}).
Proof.
  split.
  - intros g. by split_and!.
  - intros g h H. unfold equiv, vars_equiv in *. destruct_and! H. split_and!; intros; symmetry; auto.
  - intros g h k H1 H2. unfold equiv, vars_equiv in *. destruct_and! H1. destruct_and! H2. split_and!; intros; etrans; eauto.
Qed.

(** An assignment to a variable. *)
Definition assign {X A} `{EqDecision X} (x : X) (a : A) (s : X -> A) : X -> A := fun y => if decide (x = y) then a else s y.

Definition set_string (x : stringVar) (a : bytes) (g : packageVars) : packageVars :=
  mkVars (assign x a (strings g)) (bools g) (ints g) (durations g) (pacingRateMbps g) (cfgReadBuf g)
    (websocketFrontProxyConfig g) (configuredCipherPref g) (targetPolicy g) (socks5Config g) (ipStrategy g) (udpBlockPorts g).
Definition set_bool (x : boolVar) (a : bool) (g : packageVars) : packageVars :=
  mkVars (strings g) (assign x a (bools g)) (ints g) (durations g) (pacingRateMbps g) (cfgReadBuf g)
    (websocketFrontProxyConfig g) (configuredCipherPref g) (targetPolicy g) (socks5Config g) (ipStrategy g) (udpBlockPorts g).
Definition set_int (x : intVar) (a : Z) (g : packageVars) : packageVars :=
  mkVars (strings g) (bools g) (assign x a (ints g)) (durations g) (pacingRateMbps g) (cfgReadBuf g)
    (websocketFrontProxyConfig g) (configuredCipherPref g) (targetPolicy g) (socks5Config g) (ipStrategy g) (udpBlockPorts g).
Definition set_duration (x : durationVar) (a : Z) (g : packageVars) : packageVars :=
  mkVars (strings g) (bools g) (ints g) (assign x a (durations g)) (pacingRateMbps g) (cfgReadBuf g)
    (websocketFrontProxyConfig g) (configuredCipherPref g) (targetPolicy g) (socks5Config g) (ipStrategy g) (udpBlockPorts g).
Definition set_pacing (a : spec_float) (g : packageVars) : packageVars :=
  mkVars (strings g) (bools g) (ints g) (durations g) a (cfgReadBuf g)
    (websocketFrontProxyConfig g) (configuredCipherPref g) (targetPolicy g) (socks5Config g) (ipStrategy g) (udpBlockPorts g).
Definition set_configured (a : bytes) (g : packageVars) : packageVars :=
  mkVars (strings g) (bools g) (ints g) (durations g) (pacingRateMbps g) (cfgReadBuf g)
    (websocketFrontProxyConfig g) a (targetPolicy g) (socks5Config g) (ipStrategy g) (udpBlockPorts g).
Definition set_server (policy : option TargetPolicy) (socks : option SOCKS5Config) (g : packageVars) : packageVars :=
  mkVars (strings g) (bools g) (ints g) (durations g) (pacingRateMbps g) (cfgReadBuf g)
    (websocketFrontProxyConfig g) (configuredCipherPref g) policy socks (ipStrategy g) (udpBlockPorts g).
Definition set_client (strategy : Z) (ports : gset Z) (g : packageVars) : packageVars :=
  mkVars (strings g) (bools g) (ints g) (durations g) (pacingRateMbps g) (cfgReadBuf g)
    (websocketFrontProxyConfig g) (configuredCipherPref g) (targetPolicy g) (socks5Config g) strategy ports.

(** * Flags *)

Inductive flagDef : Type :=
  | StringVar (p : stringVar) (name value : bytes)
  | BoolVar (p : boolVar) (name : bytes) (value : bool)
  | IntVar (p : intVar) (name : bytes) (value : Z)
  | Float64Var (name : bytes) (value : spec_float)
  | DurationVar (p : durationVar) (name : bytes).

Definition flag_name (f : flagDef) : bytes :=
  match f with StringVar _ n _ | BoolVar _ n _ | IntVar _ n _ | Float64Var n _ | DurationVar _ n => n end.

(** The flags that [init] declares, in its order. *)
Definition flags : list flagDef :=
  [StringVar configFile (bs "config") []; StringVar listenAddr (bs "l") []; StringVar forwardAddr (bs "f") [];
   StringVar ipAddr (bs "ip") []; StringVar udpBlockPortsStr (bs "block") (bs "443"); BoolVar insecure (bs "insecure") false;
   StringVar certFile (bs "cert") []; StringVar keyFile (bs "key") []; StringVar clientCAFile (bs "client-ca") [];
   StringVar clientCertFile (bs "client-cert") []; StringVar clientKeyFile (bs "client-key") []; StringVar token (bs "token") [];
   BoolVar showVersion (bs "version") false; StringVar metricsAddr (bs "metrics") [];
   StringVar cidrs (bs "cidr") (bs "0.0.0.0/0,::/0"); StringVar targetAllowCIDRs (bs "allow-target") [];
   StringVar targetDenyCIDRs (bs "deny-target") []; StringVar targetAllowHosts (bs "allow-host") [];
   StringVar targetDenyHosts (bs "deny-host") []; IntVar maxClientSessions (bs "max-clients") 0;
   IntVar maxStreamsPerClient (bs "max-streams") 0; StringVar dnsServer (bs "dns") (bs "https://doh.pub/dns-query");
   BoolVar enableECH (bs "ech") false; StringVar echDomain (bs "ech-domain") (bs "cloudflare-ech.com");
   BoolVar fallback (bs "fallback") false; StringVar cipherPrefStr (bs "cipher-pref") (bs "1,2,3");
   Float64Var (bs "pacing-rate-mbps") (S754_zero false); IntVar shapingCoalesceMs (bs "shaping-coalesce-ms") 0;
   StringVar transportMode (bs "transport") (bs "auto"); IntVar quicPort (bs "quic-port") 0;
   BoolVar enableDatagram (bs "enable-datagram") true; BoolVar coverTraffic (bs "cover-traffic") false;
   IntVar connectionNum (bs "n") 3; StringVar ips (bs "ips") []; StringVar controlAddr (bs "control") [];
   StringVar readyFile (bs "ready-file") []; StringVar controlTokenFile (bs "control-token-file") [];
   StringVar checkConfigFile (bs "check-config") []; StringVar formatConfigFile (bs "format-config") [];
   StringVar rulesPath (bs "rules-path") []; StringVar geoDir (bs "geo-dir") []; BoolVar routeEnabled (bs "route-enabled") false;
   BoolVar sniSniff (bs "sni") true; DurationVar cfgDialTimeout (bs "dial-timeout");
   DurationVar cfgWSHandshakeTimeout (bs "ws-handshake-timeout"); DurationVar cfgReconnectDelay (bs "reconnect-delay");
   DurationVar cfgReconnectMaxDelay (bs "reconnect-max-delay"); DurationVar cfgReconnectJitter (bs "reconnect-jitter");
   DurationVar cfgRTTProbeTimeout (bs "rtt-timeout"); DurationVar cfgDNSQueryTimeout (bs "dns-timeout");
   DurationVar cfgDNSCacheTTL (bs "dns-cache-ttl"); DurationVar cfgECHRetryDelay (bs "ech-retry-delay");
   DurationVar cfgUDPReadTimeout (bs "udp-read-timeout"); DurationVar cfgShutdownTimeout (bs "shutdown-timeout");
   DurationVar cfgAuthSkew (bs "auth-skew"); DurationVar cfgPreAuthTimeout (bs "preauth-timeout")].

(** What the variables hold before [init]: zero values, and [cfg] its defaults. *)
Definition cfg_durations (c : GlobalConfig) (x : durationVar) : Z :=
  match x with
  | cfgDialTimeout => DialTimeout c | cfgWSHandshakeTimeout => WSHandshakeTimeout c | cfgReconnectDelay => ReconnectDelay c
  | cfgReconnectMaxDelay => ReconnectMaxDelay c | cfgReconnectJitter => ReconnectJitter c | cfgRTTProbeTimeout => RTTProbeTimeout c
  | cfgDNSQueryTimeout => DNSQueryTimeout c | cfgDNSCacheTTL => DNSCacheTTL c | cfgECHRetryDelay => ECHRetryDelay c
  | cfgUDPReadTimeout => UDPReadTimeout c | cfgShutdownTimeout => ShutdownTimeout c | cfgAuthSkew => AuthSkew c
  | cfgPreAuthTimeout => PreAuthTimeout c
  end.

Definition zero_vars : packageVars :=
  mkVars (fun _ => []) (fun _ => false) (fun _ => 0) (cfg_durations defaultGlobalConfig) (S754_zero false)
    (ReadBuf defaultGlobalConfig) no_front_proxy [] None None 0 ∅.

(** Declaring a flag assigns its default; a duration keeps the value it has. *)
Definition declare (g : packageVars) (f : flagDef) : packageVars :=
  match f with
  | StringVar p _ v => set_string p v g
  | BoolVar p _ v => set_bool p v g
  | IntVar p _ v => set_int p v g
  | Float64Var _ v => set_pacing v g
  | DurationVar p _ => set_duration p (durations g p) g
  end.

Definition init : packageVars := foldl declare zero_vars flags.

(** An argument of the command line with the value its text stands for. *)
Inductive flagArg : Type :=
  | AString (a : bytes) | ABool (a : bool) | AInt (a : Z) | AFloat (a : spec_float) | ADuration (a : Z).

(** [flag.Parse]: an unknown flag or a value of another type ends the program. *)
Definition set_flag (f : flagDef) (a : flagArg) (g : packageVars) : option packageVars :=
  match f, a with
  | StringVar p _ _, AString v => Some (set_string p v g)
  | BoolVar p _ _, ABool v => Some (set_bool p v g)
  | IntVar p _ _, AInt v => Some (set_int p v g)
  | Float64Var _ _, AFloat v => Some (set_pacing v g)
  | DurationVar p _, ADuration v => Some (set_duration p v g)
  | _, _ => None
  end.

Fixpoint flag_Parse (args : list (bytes * flagArg)) (g : packageVars) : option packageVars :=
  match args with
  | [] => Some g
  | (name, a) :: args =>
      f ← find (fun f => bool_decide (flag_name f = name)) flags; g ← set_flag f a g; flag_Parse args g
  end.

(** [visitedFlags]: the flags that were set. *)
Definition visitedFlags (args : list (bytes * flagArg)) : bytes -> bool := fun name => bool_decide (name ∈ map fst args).

(** * Copies *)

(** [cloneWebSocketFrontProxyConfig]; [order] lists the headers as the loop
    visits them. *)
Definition cloneWebSocketFrontProxyConfig (order : list (bytes * bytes)) (c : WebSocketFrontProxyConfig) : WebSocketFrontProxyConfig :=
  mkFrontProxy (fp_Enabled c) (fp_Type c) (fp_Server c) (fp_ConnectHost c) (foldl (fun m h => <[h.1 := h.2]> m) ∅ order).

Definition clone (c : WebSocketFrontProxyConfig) : WebSocketFrontProxyConfig :=
  cloneWebSocketFrontProxyConfig (map_to_list (fp_Headers c)) c.

(** [cfg] as a value. *)
Definition cfg (g : packageVars) : GlobalConfig :=
  let d := durations g in
  mkGlobal (d cfgDialTimeout) (d cfgWSHandshakeTimeout) (d cfgReconnectDelay) (d cfgReconnectMaxDelay) (d cfgReconnectJitter)
    (d cfgRTTProbeTimeout) (d cfgDNSQueryTimeout) (d cfgECHRetryDelay) (d cfgUDPReadTimeout) (d cfgShutdownTimeout)
    (d cfgAuthSkew) (d cfgPreAuthTimeout) (d cfgDNSCacheTTL) (cfgReadBuf g).

Definition currentRuntimeValues (g : packageVars) : runtimeValues := {|
  v_ListenAddr := strings g listenAddr; v_ForwardAddr := strings g forwardAddr; v_IPAddr := strings g ipAddr;
  v_UDPBlockPortsStr := strings g udpBlockPortsStr; v_CertFile := strings g certFile; v_KeyFile := strings g keyFile;
  v_ClientCAFile := strings g clientCAFile; v_ClientCertFile := strings g clientCertFile; v_ClientKeyFile := strings g clientKeyFile;
  v_Token := strings g token; v_MetricsAddr := strings g metricsAddr; v_CIDRs := strings g cidrs;
  v_TargetAllowCIDRs := strings g targetAllowCIDRs; v_TargetDenyCIDRs := strings g targetDenyCIDRs;
  v_TargetAllowHosts := strings g targetAllowHosts; v_TargetDenyHosts := strings g targetDenyHosts;
  v_MaxClientSessions := ints g maxClientSessions; v_MaxStreamsPerClient := ints g maxStreamsPerClient;
  v_ConnectionNum := ints g connectionNum; v_Insecure := bools g insecure; v_IPS := strings g ips;
  v_DNSServer := strings g dnsServer; v_EnableECH := bools g enableECH; v_ECHDomain := strings g echDomain;
  v_Fallback := bools g fallback; v_CipherPref := strings g cipherPrefStr; v_PacingRateMbps := pacingRateMbps g;
  v_ShapingCoalesceMs := ints g shapingCoalesceMs; v_TransportMode := strings g transportMode; v_QuicPort := ints g quicPort;
  v_EnableDatagram := bools g enableDatagram; v_CoverTraffic := bools g coverTraffic; v_Global := cfg g;
  v_WebSocketFrontProxy := clone (websocketFrontProxyConfig g);
  v_RulesPath := strings g rulesPath; v_GeoDir := strings g geoDir; v_RouteEnabled := bools g routeEnabled;
  v_SNISniff := bools g sniSniff |}.

(** [applyGlobals]: the variables without a field keep their values. *)
Definition applyGlobals (v : runtimeValues) (g : packageVars) : packageVars := {|
  strings := fun x =>
    match x with
    | listenAddr => v_ListenAddr v | forwardAddr => v_ForwardAddr v | ipAddr => v_IPAddr v
    | udpBlockPortsStr => v_UDPBlockPortsStr v | certFile => v_CertFile v | keyFile => v_KeyFile v
    | clientCAFile => v_ClientCAFile v | clientCertFile => v_ClientCertFile v | clientKeyFile => v_ClientKeyFile v
    | token => v_Token v | metricsAddr => v_MetricsAddr v | cidrs => v_CIDRs v
    | targetAllowCIDRs => v_TargetAllowCIDRs v | targetDenyCIDRs => v_TargetDenyCIDRs v
    | targetAllowHosts => v_TargetAllowHosts v | targetDenyHosts => v_TargetDenyHosts v
    | ips => v_IPS v | dnsServer => v_DNSServer v | echDomain => v_ECHDomain v | cipherPrefStr => v_CipherPref v
    | transportMode => v_TransportMode v | rulesPath => v_RulesPath v | geoDir => v_GeoDir v
    | configFile | controlAddr | readyFile | controlTokenFile | checkConfigFile | formatConfigFile => strings g x
    end;
  bools := fun x =>
    match x with
    | insecure => v_Insecure v | enableECH => v_EnableECH v | fallback => v_Fallback v | enableDatagram => v_EnableDatagram v
    | coverTraffic => v_CoverTraffic v | routeEnabled => v_RouteEnabled v | sniSniff => v_SNISniff v
    | showVersion => bools g x
    end;
  ints := fun x =>
    match x with
    | maxClientSessions => v_MaxClientSessions v | maxStreamsPerClient => v_MaxStreamsPerClient v
    | connectionNum => v_ConnectionNum v | shapingCoalesceMs => v_ShapingCoalesceMs v | quicPort => v_QuicPort v
    end;
  durations := cfg_durations (v_Global v); pacingRateMbps := v_PacingRateMbps v; cfgReadBuf := ReadBuf (v_Global v);
  websocketFrontProxyConfig := clone (v_WebSocketFrontProxy v);
  configuredCipherPref := configuredCipherPref g; targetPolicy := targetPolicy g; socks5Config := socks5Config g;
  ipStrategy := ipStrategy g; udpBlockPorts := udpBlockPorts g |}.

Section Run.
Context `{U : GoUnicode} {L : ConfigLib}.

(** [loadConfigFile]; [raw] is what reading the file gives. *)
Definition loadConfigFile (raw : res bytes) (seen : bytes -> bool) (g : packageVars) : packageVars * res unit :=
  match (let! raw := raw in applyConfigJSONToValues seen raw (currentRuntimeValues g)) with
  | Ok values => (applyGlobals values g, Ok tt)
  | Err e => (g, Err e)
  | Panic => (g, Panic)
  end.

(** Checking a client's values sets [configuredCipherPref] when all is well. *)
Definition checked (st : startupConfig) (g : packageVars) : packageVars :=
  match st_Client st with Some c => set_configured (cs_CipherPref c) g | None => g end.

(** [LoadConfig] over the variables. *)
Definition load (file : option (res bytes)) (seen : bytes -> bool) (g : packageVars) : packageVars * res (runtimeValues * startupConfig) :=
  match LoadConfig file seen (currentRuntimeValues g) with
  | Ok (values, st) => (checked st g, Ok (values, st))
  | Err e => (g, Err e)
  | Panic => (g, Panic)
  end.

(** [ValidateConfig], as [NewEngine] calls it. *)
Definition ValidateConfig (values : runtimeValues) (g : packageVars) : packageVars * res unit :=
  match validateStartupConfigValues values with
  | Ok st => (checked st g, Ok tt)
  | Err e => (g, Err e)
  | Panic => (g, Panic)
  end.

(** The assignments of [startRuntime] once the metrics listener is up, by role. *)
Definition start_assigns (st : startupConfig) (g : packageVars) : packageVars :=
  if st_IsServer st then set_server (st_TargetPolicy st) (st_SOCKS5Config st) g
  else
    let c := default (mkClientStartup [] false false ∅ false [] (S754_zero false) 0) (st_Client st) in
    set_client (st_IPStrategy st) (cs_UDPBlockPorts c) (set_bool fallback (cs_Fallback c) g).

(** [Start]: the values, then [startRuntime]; [metrics] is whether its first
    listener, if there is one, could be bound. *)
Definition start_globals (metrics : bool) (values : runtimeValues) (st : startupConfig) (g : packageVars) : packageVars :=
  let g := applyGlobals values g in
  if negb (is_empty (v_MetricsAddr values)) && negb metrics then g else start_assigns st g.

End Run.

(** * Stores *)

#[export] Instance currentRuntimeValues_proper : Proper ((≡) ==> (=)) currentRuntimeValues.
Proof.
  intros g h (Hs & Hb & Hi & Hd & Hp & Hr & Hw & _). unfold currentRuntimeValues, cfg. by rewrite !Hs, !Hb, !Hi, !Hd, Hp, Hr, Hw.
Qed.

#[export] Instance applyGlobals_proper v : Proper ((≡) ==> (≡)) (applyGlobals v).
Proof.
  intros g h (Hs & Hb & Hi & Hd & Hp & Hr & Hw & Hrest). unfold equiv, vars_equiv. cbn. split_and!; try done; try apply Hrest; intros []; auto.
Qed.

Lemma clone_id c : clone c = c.
Proof.
  unfold clone, cloneWebSocketFrontProxyConfig. destruct c as [e t s h hs]. cbn. f_equal.
  assert (forall l m, NoDup (l.*1) -> (forall k, k ∈ l.*1 -> m !! k = None) ->
    foldl (fun m h => <[h.1 := h.2]> m) m l = (list_to_map l : gmap bytes bytes) ∪ m) as H.
  { induction l as [|[k v] l IH]; intros m Hn Hm; cbn in *; [by rewrite (left_id_L ∅ (∪))|]. apply NoDup_cons in Hn as [Hk Hn].
    rewrite IH; [|done|].
    - rewrite <- insert_union_l, <- insert_union_r; [done|by apply not_elem_of_list_to_map_1].
    - intros k' Hk'. rewrite lookup_insert_ne by (intros ->; done). apply Hm. by right. }
  rewrite H; [|apply NoDup_fst_map_to_list|by intros]. by rewrite (right_id_L ∅ (∪)), list_to_map_to_list.
Qed.

(** The copies are inverse to each other: what is written to the variables is
    read back, and writing back what was read changes nothing. *)
Theorem globals_roundtrip (v : runtimeValues) (g : packageVars) :
  currentRuntimeValues (applyGlobals v g) = v /\ applyGlobals (currentRuntimeValues g) g ≡ g.
Proof.
  split.
  - unfold currentRuntimeValues, applyGlobals, cfg. cbn. rewrite !clone_id. destruct v as []. cbn. f_equal. by destruct v_Global.
  - unfold equiv, vars_equiv. cbn. rewrite !clone_id. split_and!; try done; by intros [].
Qed.

(** The defaults of the flags are the defaults of a configuration that is
    checked without a command line. *)
Theorem flag_defaults_agree : currentRuntimeValues init = defaultRuntimeValues.
Proof. reflexivity. Qed.

(** * The command line *)

(** Where a flag points to, and the value there. *)
Definition target (f : flagDef) : stringVar + boolVar + intVar + durationVar + unit :=
  match f with
  | StringVar p _ _ => inl (inl (inl (inl p))) | BoolVar p _ _ => inl (inl (inl (inr p))) | IntVar p _ _ => inl (inl (inr p))
  | DurationVar p _ => inl (inr p) | Float64Var _ _ => inr tt
  end.

Definition read (f : flagDef) (g : packageVars) : flagArg :=
  match f with
  | StringVar p _ _ => AString (strings g p) | BoolVar p _ _ => ABool (bools g p) | IntVar p _ _ => AInt (ints g p)
  | DurationVar p _ => ADuration (durations g p) | Float64Var _ _ => AFloat (pacingRateMbps g)
  end.

(** The last value an argument list gives a flag. *)
Fixpoint given (name : bytes) (args : list (bytes * flagArg)) : option flagArg :=
  match args with
  | [] => None
  | (n, a) :: args =>
      match given name args with Some b => Some b | None => if bool_decide (n = name) then Some a else None end
  end.

Lemma assign_eq {X A} `{EqDecision X} (x : X) (a : A) s : assign x a s x = a.
Proof. unfold assign. by rewrite decide_True. Qed.

Lemma assign_ne {X A} `{EqDecision X} (x y : X) (a : A) s : x <> y -> assign x a s y = s y.
Proof. intros H. unfold assign. by rewrite decide_False. Qed.

Lemma set_flag_read f f' a g g' :
  set_flag f a g = Some g' -> read f' g' = if bool_decide (target f = target f') then a else read f' g.
Proof.
  intros H. destruct f, a; try done; injection H as <-; destruct f'; cbn -[assign]; try (by rewrite bool_decide_eq_false_2);
    try (by rewrite bool_decide_eq_true_2);
    (case_bool_decide as E; [injection E as <-; by rewrite assign_eq|rewrite assign_ne by congruence; done]).
Qed.

(** No two flags share a name or a variable. *)
Lemma flags_apart : NoDup (map flag_name flags) /\ NoDup (map target flags).
Proof. split; apply (bool_decide_unpack _); vm_compute; exact I. Qed.

Lemma flag_inj {B} (h : flagDef -> B) f f' : NoDup (map h flags) -> f ∈ flags -> f' ∈ flags -> h f = h f' -> f = f'.
Proof.
  intros Hn [i Hi]%list_elem_of_lookup [j Hj]%list_elem_of_lookup E.
  assert (i = j) as ->; [|congruence]. eapply NoDup_lookup; [exact Hn|..]; rewrite list_lookup_fmap, ?Hi, ?Hj; cbn; [done|by rewrite E].
Qed.

(** After the command line a flag's variable holds the last value it was given,
    and what it held before if there was none. *)
Lemma flag_Parse_read args f g g' :
  f ∈ flags -> flag_Parse args g = Some g' -> read f g' = default (read f g) (given (flag_name f) args).
Proof.
  intros Hf. revert g. induction args as [|[n a] args IH]; intros g H; cbn [flag_Parse] in H; [by injection H as <-|].
  apply bind_Some in H as (f0 & E0 & H). apply bind_Some in H as (g0 & E1 & H).
  apply find_some in E0 as [Hin%list_elem_of_In Hn%bool_decide_eq_true]. rewrite (IH _ H), (set_flag_read _ _ _ _ _ E1). cbn [given].
  destruct (given (flag_name f) args); [done|]. cbn [default]. destruct flags_apart as [H1 H2]. subst n.
  destruct (decide (flag_name f0 = flag_name f)) as [E|Hne].
  - rewrite (flag_inj flag_name f0 f) by done. by rewrite !bool_decide_eq_true_2.
  - rewrite !bool_decide_eq_false_2; [done|done|]. intros E. by rewrite (flag_inj target f0 f) in Hne.
Qed.

Lemma given_visited name args : is_Some (given name args) <-> visitedFlags args name = true.
Proof.
  unfold visitedFlags. rewrite bool_decide_eq_true. induction args as [|[n a] args IH]; cbn.
  - split; [by intros [? ?]|by intros ?%elem_of_nil].
  - rewrite elem_of_cons, <- IH. destruct (given name args); [by split; eauto|]. case_bool_decide as E.
    + split; [by left|by eexists].
    + split; [by intros [? ?]|]. intros [->|[? ?]]; done.
Qed.

(** The value of a setting: from the command line, else the file, else the default. *)
Definition settled {A} (wrap : A -> flagArg) (args : list (bytes * flagArg)) (flag : bytes) (file : option A) (dflt : A) : flagArg :=
  match given flag args with
  | Some a => a
  | None => wrap (default dflt file)
  end.

(** A field of the values, its flag and its variable: what reading the variables
    gives, and the default of both. *)
Definition field_of {A} (wrap : A -> flagArg) (flag : bytes) (get : runtimeValues -> A) : Prop :=
  exists f, f ∈ flags /\ flag_name f = flag /\ (forall g, wrap (get (currentRuntimeValues g)) = read f g).

Lemma settled_field {A} (wrap : A -> flagArg) args flag (get : runtimeValues -> A) file g new :
  field_of wrap flag get -> flag_Parse args init = Some g ->
  new = Config.chosen (visitedFlags args) flag file (get (currentRuntimeValues g)) ->
  wrap new = settled wrap args flag file (get defaultRuntimeValues).
Proof.
  intros (f & Hf & <- & Hread) Hp ->. pose proof (flag_Parse_read _ _ _ _ Hf Hp) as H. rewrite <- Hread in H.
  unfold chosen, settled. destruct (given (flag_name f) args) as [a|] eqn:E; cbn [from_option id] in H.
  - assert (visitedFlags args (flag_name f) = true) as -> by (apply given_visited; eauto). done.
  - destruct (visitedFlags args (flag_name f)) eqn:E'; [apply given_visited in E' as [? ?]; congruence|].
    destruct file; [done|]. cbn [from_option id]. rewrite H, <- flag_defaults_agree. symmetry. apply Hread.
Qed.

Lemma field_found {A} (wrap : A -> flagArg) flag get f :
  List.find (fun f => bool_decide (flag_name f = flag)) flags = Some f ->
  (forall g, wrap (get (currentRuntimeValues g)) = read f g) -> field_of wrap flag get.
Proof. intros [H1%list_elem_of_In H2%bool_decide_eq_true]%find_some H. by exists f. Qed.

Ltac find_field := eapply field_found; [vm_compute; reflexivity|intros; reflexivity].

Lemma string_flags : Forall (fun '(flag, _, get) => field_of AString flag get) string_fields.
Proof. unfold string_fields. repeat (apply List.Forall_cons; [find_field|]). apply List.Forall_nil. Qed.

Lemma bool_flags : Forall (fun '(flag, _, get) => field_of ABool flag get) bool_fields.
Proof. unfold bool_fields. repeat (apply List.Forall_cons; [find_field|]). apply List.Forall_nil. Qed.

Lemma int_flags : Forall (fun '(flag, _, _, get) => field_of AInt flag get) int_fields.
Proof. unfold int_fields. repeat (apply List.Forall_cons; [find_field|]). apply List.Forall_nil. Qed.

Lemma duration_flags : Forall (fun '(flag, _, _, get) => field_of ADuration flag (fun v => get (v_Global v))) duration_fields.
Proof. unfold duration_fields. repeat (apply List.Forall_cons; [find_field|]). apply List.Forall_nil. Qed.

Lemma pacing_flag : field_of AFloat (bs "pacing-rate-mbps") v_PacingRateMbps.
Proof. find_field. Qed.

Lemma Forall_with {A} (P Q R : A -> Prop) l : Forall P l -> Forall Q l -> (forall x, P x -> Q x -> R x) -> Forall R l.
Proof. rewrite !Forall_forall. intros HP HQ HR x Hx. auto. Qed.

Section Precedence.
Context `{U : GoUnicode} {L : ConfigLib}.

Lemma chosen_none {A} seen flag (old : A) : Config.chosen seen flag None old = old.
Proof. unfold chosen. by destruct (seen flag). Qed.

(** What loading takes from the file, if there is one. *)
Lemma load_chosen file seen v0 values st :
  LoadConfig file seen v0 = Ok (values, st) ->
  exists fc : option FileConfig,
    match file with
    | None => fc = None
    | Some raw => exists text c, raw = Ok text /\ json_Decode text = Ok c /\ fc = Some c
    end /\
    Forall (fun '(flag, field, get) => get values = Config.chosen seen flag (fc ≫= field) (get v0)) string_fields /\
    Forall (fun '(flag, field, get) => get values = Config.chosen seen flag (fc ≫= field) (get v0)) bool_fields /\
    Forall (fun '(flag, _, field, get) => get values = Config.chosen seen flag (fc ≫= field) (get v0)) int_fields /\
    Forall (fun '(flag, least, field, get) =>
      duration_chosen seen flag least (fc ≫= field) (get (v_Global v0)) (get (v_Global values))) duration_fields /\
    v_PacingRateMbps values = Config.chosen seen (bs "pacing-rate-mbps")
      (fc ≫= fun c => either (fc_PacingRateMbps c) (fc_PacingRateMbpsFlag c)) (v_PacingRateMbps v0).
Proof.
  unfold LoadConfig. intros (v & Hv & H)%res_bind_ok. destruct (is_empty _); [done|]. apply res_bind_ok in H as (? & _ & [= <- <-]).
  destruct file as [raw|].
  - apply res_bind_ok in Hv as (text & -> & (c & Hc & _ & _ & Hs & Hb & Hi & Hd & [Hp _] & _)%config_file_over_flags).
    exists (Some c). split; [by exists text, c|]. split_and!; try done. eapply Forall_impl; [exact Hi|]. by intros [[[? ?] ?] ?] [? _].
  - injection Hv as <-. exists None. split; [done|].
    assert (forall A (P : A -> Prop) l, (forall x, P x) -> Forall P l) as Hall by (intros; by apply Forall_true).
    split_and!; try (apply Hall; intros); repeat case_match; cbn; by rewrite ?chosen_none.
Qed.

(** The settings of a run of the program.  Once the command line is parsed and
    the configuration loaded, with or without a file, every setting is the last
    value its flag was given, otherwise the file's, otherwise the default that
    also holds without a command line; a duration taken from the file is what its
    text stands for. *)
Theorem cli_precedence (args : list (bytes * flagArg)) (file : option (res bytes)) (g : packageVars)
    (values : runtimeValues) (st : startupConfig)
    (Hargs : flag_Parse args init = Some g)
    (Hload : LoadConfig file (visitedFlags args) (currentRuntimeValues g) = Ok (values, st)) :
  exists fc : option FileConfig,
    match file with
    | None => fc = None
    | Some raw => exists text c, raw = Ok text /\ json_Decode text = Ok c /\ fc = Some c
    end /\
    Forall (fun '(flag, field, get) =>
      AString (get values) = settled AString args flag (fc ≫= field) (get defaultRuntimeValues)) string_fields /\
    Forall (fun '(flag, field, get) =>
      ABool (get values) = settled ABool args flag (fc ≫= field) (get defaultRuntimeValues)) bool_fields /\
    Forall (fun '(flag, _, field, get) =>
      AInt (get values) = settled AInt args flag (fc ≫= field) (get defaultRuntimeValues)) int_fields /\
    Forall (fun '(flag, least, field, get) =>
      match given flag args, fc ≫= field with
      | Some a, _ => ADuration (get (v_Global values)) = a
      | None, Some text => ParseDuration text = Ok (get (v_Global values)) /\ least <= get (v_Global values)
      | None, None => get (v_Global values) = get defaultGlobalConfig
      end) duration_fields /\
    AFloat (v_PacingRateMbps values) =
      settled AFloat args (bs "pacing-rate-mbps") (fc ≫= fun c => either (fc_PacingRateMbps c) (fc_PacingRateMbpsFlag c))
        (v_PacingRateMbps defaultRuntimeValues).
Proof.
  apply load_chosen in Hload as (fc & Hfile & Hs & Hb & Hi & Hd & Hp). exists fc. split; [done|].
  split; [apply (Forall_with _ _ _ _ string_flags Hs); intros [[? ?] ?]; eauto using settled_field|].
  split; [apply (Forall_with _ _ _ _ bool_flags Hb); intros [[? ?] ?]; eauto using settled_field|].
  split; [apply (Forall_with _ _ _ _ int_flags Hi); intros [[[? ?] ?] ?]; eauto using settled_field|].
  split; [|eauto using settled_field, pacing_flag].
  apply (Forall_with _ _ _ _ duration_flags Hd). intros [[[flag least] field] get] (f & Hf & <- & Hread) Hc.
  pose proof (flag_Parse_read _ _ _ _ Hf Hargs) as H. rewrite <- Hread in H. unfold duration_chosen in Hc.
  pose proof (given_visited (flag_name f) args) as Hg. destruct (given (flag_name f) args) as [a|] eqn:E; cbn [from_option id] in H.
  - rewrite (proj1 Hg) in Hc by eauto. destruct (fc ≫= field); congruence.
  - destruct (visitedFlags args (flag_name f)); [by destruct (proj2 Hg eq_refl)|]. destruct (fc ≫= field); [done|].
    rewrite Hc. rewrite <- Hread in H. rewrite flag_defaults_agree in H. by injection H.
Qed.

End Precedence.

(** * What is in force *)

(** The values with another [Fallback]. *)
Definition with_fallback (b : bool) (v : runtimeValues) : runtimeValues := currentRuntimeValues (set_bool fallback b (applyGlobals v zero_vars)).

Lemma current_set_fallback b v g : currentRuntimeValues (set_bool fallback b (applyGlobals v g)) = with_fallback b v.
Proof. reflexivity. Qed.

Section InForce.
Context `{U : GoUnicode} {L : ConfigLib}.

Lemma startup_client_pref v pref c : startup_client v pref = Ok c -> cs_CipherPref c = pref.
Proof.
  unfold startup_client. intros ([[[? ?] ?] ?] & _ & H)%res_bind_ok. do 2 apply res_bind_ok in H as (? & _ & H). by injection H as <-.
Qed.

Lemma startup_roles v st :
  validateStartupConfigValues v = Ok st ->
  if st_IsServer st then st_Client st = None
  else exists c, st_Client st = Some c /\ parseCipherPreference (v_CipherPref v) = Ok (cs_CipherPref c).
Proof.
  unfold validateStartupConfigValues. intros H.
  repeat first
    [ apply res_bind_ok in H as (? & ? & H)
    | match type of H with
      | (if bool_decide (is_Some ?o) then _ else _) = _ => destruct (bool_decide (is_Some o))
      | (if ?b then _ else _) = _ => destruct b; [done|]
      | (let '(_, _) := ?p in _) = _ => destruct p
      end ].
  - by injection H as <-.
  - injection H as <-. eexists. split; [done|]. erewrite startup_client_pref by done. by eapply res_map_err_ok.
Qed.

(** The variables of a running engine hold the configuration that was loaded for
    it, whatever was in them before: a server has the policy and the upstream of
    its start-up configuration and all its values; a client has the strategy and
    the blocked ports, offers the ciphers its preference names, and all its
    values except [fallback], which is the one start-up decided on.  Without its
    metrics listener the engine does not start and the role's variables keep
    what they had. *)
Theorem globals_in_force (file : option (res bytes)) (seen : bytes -> bool) (g0 g1 : packageVars)
    (values : runtimeValues) (st : startupConfig)
    (Hload : load file seen g0 = (g1, Ok (values, st))) :
  snd (ValidateConfig values g1) = Ok tt /\
  let g2 := fst (ValidateConfig values g1) in
  let g := start_globals true values st g2 in
  (if st_IsServer st then
     targetPolicy g = st_TargetPolicy st /\ socks5Config g = st_SOCKS5Config st /\ currentRuntimeValues g = values
   else exists c, st_Client st = Some c /\
     ipStrategy g = st_IPStrategy st /\ udpBlockPorts g = cs_UDPBlockPorts c /\
     Ok (clientCipherPreference (configuredCipherPref g) (strings g cipherPrefStr)) = parseCipherPreference (v_CipherPref values) /\
     currentRuntimeValues g = with_fallback (cs_Fallback c) values) /\
  (v_MetricsAddr values <> [] ->
   let g' := start_globals false values st g2 in
   currentRuntimeValues g' = values /\ targetPolicy g' = targetPolicy g0 /\ socks5Config g' = socks5Config g0 /\
   ipStrategy g' = ipStrategy g0 /\ udpBlockPorts g' = udpBlockPorts g0).
Proof.
  unfold load in Hload. destruct (LoadConfig file seen (currentRuntimeValues g0)) as [[v s]|e|] eqn:E; [|done|done].
  injection Hload as <- <- <-. unfold LoadConfig in E. apply res_bind_ok in E as (v' & _ & E). destruct (is_empty (TrimSpace _)); [done|].
  apply res_bind_ok in E as (s' & Hst & [= -> ->]). unfold ValidateConfig. rewrite Hst. cbn [fst snd]. split; [done|].
  pose proof (startup_roles _ _ Hst) as Hr. split.
  - unfold start_globals, start_assigns. rewrite andb_false_r. destruct (st_IsServer s) eqn:Es.
    + split_and!; [done|done|]. apply globals_roundtrip.
    + destruct Hr as (c & Hc & Hp). exists c. split; [done|]. rewrite Hc. cbn [from_option id]. split_and!; [done|done| |apply current_set_fallback].
      unfold checked. rewrite Hc. rewrite Hp. f_equal. unfold clientCipherPreference. cbn -[len].
      destruct (parseCipherPreference_ok _ _ Hp) as [_ Hl]. by destruct (Z.ltb_spec 0 (len (cs_CipherPref c))); [|lia].
  - intros Hm. unfold start_globals. destruct (v_MetricsAddr v) as [|? ?] eqn:Em; [done|]. cbn [is_empty negb andb].
    split; [apply globals_roundtrip|]. unfold checked. by destruct (st_Client s).
Qed.

(** A file that is refused changes no variable; one that is taken is what the
    next copy of the variables shows. *)
Theorem loadConfigFile_atomic (raw : res bytes) (seen : bytes -> bool) (g : packageVars) :
  match loadConfigFile raw seen g with
  | (g', Ok _) => exists text, raw = Ok text /\ applyConfigJSONToValues seen text (currentRuntimeValues g) = Ok (currentRuntimeValues g')
  | (g', _) => g' = g
  end.
Proof.
  unfold loadConfigFile. destruct raw as [text|e|]; [|done|done]. cbn. destruct (applyConfigJSONToValues _ _ _) as [v|e|] eqn:E; [|done|done].
  exists text. split; [done|]. by rewrite (proj1 (globals_roundtrip v g)).
Qed.

End InForce.

(** * A run *)

(** [-n 5 -token a -token b] over the sample file, which names a token, seven
    connections and a dial time-out of two seconds. *)
Definition demo_args : list (bytes * flagArg) :=
  [(bs "n", AInt 5); (bs "token", AString (bs "a")); (bs "token", AString (bs "b"))].

Definition demo_vars : packageVars := default init (flag_Parse demo_args init).

Definition demo_load : res (runtimeValues * startupConfig) :=
  LoadConfig (U := ascii_only_unicode) (L := plain_lib sample_file) (Some (Ok [])) (visitedFlags demo_args) (currentRuntimeValues demo_vars).

Definition demo_shows : bool :=
  match demo_load with
  | Ok (v, st) =>
      bool_decide (v_Token v = bs "b") && (v_ConnectionNum v =? 5) && bool_decide (v_ECHDomain v = bs "ech.example") &&
      bool_decide (v_DNSServer v = bs "https://doh.pub/dns-query") && (DialTimeout (v_Global v) =? 2 * Second) &&
      bool_decide (strings (start_globals true v st demo_vars) token = bs "b")
  | _ => false
  end.

Example cli_run : is_Some (flag_Parse demo_args init) /\ flag_Parse [(bs "n", ABool true)] init = None /\ demo_shows = true.
Proof. split; [by eexists|]. split; vm_compute; reflexivity. Qed.
