(* ===== verification/Listeners.v ===== *)
(** Accepting connections: the listeners of the local proxies (client.go
    [startTCPListener], local_socks5.go [startSOCKS5Listener], local_http.go
    [startHTTPListener]) with their accept loop, the end of the HTTP servers
    (server.go, control.go), the listeners of internal/transport, and the select
    statements that wait for a context.  Sockets, the WebSocket upgrade and smux
    are given by their answers. *)

From Stdlib Require Import ZArith Lia Strings.Byte.
From stdpp Require Import base numbers list gmap.
From S2P Require Import Prelude GoStrings GoNet NetAddr GoTime Wire WireV3 Socks5 EchDns Config Transports Engine.

Local Open Scope Z_scope.
Local Open Scope go_scope.

(** * Starting *)

(** A listener with what it reports, and what it hands its connections to. *)
Record startedListener : Type := mkStarted {
  sl_Protocol : bytes; sl_Configured : bytes; sl_Actual : bytes; sl_bind : bytes; sl_state : runtimeListener;
}.

Section Start.
Context `{U : GoUnicode} {L : ConfigLib} (net_Listen : bytes -> res bytes).

(** [net_Listen] gives the address a socket was bound to.  Each returns the
    listener with the target or the credentials of its handler. *)
Definition startTCPListener (rule : bytes) : res (startedListener * bytes) :=
  let! (lAddr, tAddr) := res_map_err (Wrapf "[客户端] TCP转发地址解析失败: %w") (parseTCPForwardRule rule) in
  let! addr := res_map_err (Wrapf "[客户端] TCP监听失败: %w") (net_Listen lAddr) in
  Ok (mkStarted (bs "tcp") rule (bs "tcp://" ++ addr ++ [c_slash] ++ tAddr) lAddr newRuntimeListener, tAddr).

Definition startSOCKS5Listener (addr : bytes) : res (startedListener * (bytes * bytes)) :=
  let! r := res_map_err (Wrapf "[客户端] SOCKS5地址解析失败: %w") (parseAuthAndAddr (TrimPrefix addr (bs "socks5://"))) in
  let '(h, u, p) := r in
  let! bound := res_map_err (Wrapf "[客户端] SOCKS5监听失败: %w") (net_Listen h) in
  Ok (mkStarted (bs "socks5") addr (bs "socks5://" ++ bound) h newRuntimeListener, (u, p)).

Definition startHTTPListener (addr : bytes) : res (startedListener * (bytes * bytes)) :=
  let! r := res_map_err (Wrapf "[客户端] HTTP地址解析失败: %w") (parseAuthAndAddr (TrimPrefix addr (bs "http://"))) in
  let '(h, u, p) := r in
  let! bound := res_map_err (Wrapf "[客户端] HTTP监听失败: %w") (net_Listen h) in
  Ok (mkStarted (bs "http") addr (bs "http://" ++ bound) h newRuntimeListener, (u, p)).

End Start.

(** * The accept loop *)

(** The context, the socket, the listener, whether the loop still runs, the
    connections that came and those a handler was started for, and the failed
    calls of [Accept] after which the loop went on. *)
Record acceptWorld : Type := mkAccept {
  aw_ctx : bool; aw_open : bool; aw_listener : runtimeListener; aw_running : bool;
  aw_accepted : list nat; aw_handled : list nat; aw_retries : nat;
}.

Definition accept_start : acceptWorld := mkAccept false true newRuntimeListener true [] [] 0.

(** [AConn] and [AError]: a call of [Accept] returns; [ACancel]: the context ends;
    [ACtxClose]: the goroutine that waits for it closes the listener; [AClose]:
    somebody else does. *)
Inductive acceptAction : Type := AConn (c : nat) | AError (e : error) | ACancel | ACtxClose | AClose.

Definition accept_step (a : acceptAction) (w : acceptWorld) : option acceptWorld :=
  match a with
  | AConn c =>
      if aw_running w && aw_open w
      then Some (mkAccept (aw_ctx w) (aw_open w) (aw_listener w) true (aw_accepted w ++ [c]) (aw_handled w ++ [c]) (aw_retries w))
      else None
  | AError _ =>
      if aw_running w then
        if aw_ctx w
        then Some (mkAccept true (aw_open w) (finish None (aw_listener w)) false (aw_accepted w) (aw_handled w) (aw_retries w))
        else Some (mkAccept false (aw_open w) (aw_listener w) true (aw_accepted w) (aw_handled w) (S (aw_retries w)))
      else None
  | ACancel => Some (mkAccept true (aw_open w) (aw_listener w) (aw_running w) (aw_accepted w) (aw_handled w) (aw_retries w))
  | ACtxClose =>
      if aw_ctx w && l_ctxWaits (aw_listener w)
      then Some (mkAccept true false (ctx_closes (aw_listener w)) (aw_running w) (aw_accepted w) (aw_handled w) (aw_retries w))
      else None
  | AClose =>
      Some (mkAccept (aw_ctx w) false (listener_Close (aw_listener w)) (aw_running w) (aw_accepted w) (aw_handled w) (aw_retries w))
  end.

Fixpoint accept_run (acts : list acceptAction) (w : acceptWorld) : option acceptWorld :=
  match acts with
  | [] => Some w
  | a :: acts => w ← accept_step a w; accept_run acts w
  end.

(** * HTTP servers *)

(** How [Serve] ended: [http.ErrServerClosed] (or no error), or another error. *)
Inductive serveEnd : Type := ServeClosed | ServeFailed (err : error).

(** The metrics server. *)
Definition metrics_end (e : serveEnd) (l : runtimeListener) : runtimeListener :=
  match e with ServeClosed => finish None l | ServeFailed err => finish (Some err) l end.

(** The tunnel server, with what it reports as fatal. *)
Definition server_end (scheme : bytes) (e : serveEnd) (l : runtimeListener) : runtimeListener * option error :=
  match e with
  | ServeClosed => (finish None l, None)
  | ServeFailed err => (finish (Some err) l, Some (Wrapf "[服务端] %s 启动失败: %w" err))
  end.

Definition control_end (e : serveEnd) (l : runtimeListener) : runtimeListener * option error :=
  match e with
  | ServeClosed => (finish None l, None)
  | ServeFailed err => (finish (Some err) l, Some (Wrapf "control server failed: %w" err))
  end.

(** * The listener of the WebSocket transport *)

(** The sessions that handlers are about to queue, the queue [sessionCh], whether
    [closeCh] is closed, the sessions handed out and those that were closed. *)
Record tcpListener : Type := mkTcpListener {
  tl_pending : list nat; tl_queue : list nat; tl_closed : bool; tl_delivered : list nat; tl_dropped : list nat;
}.

Definition tcp_Listen : tcpListener := mkTcpListener [] [] false [] [].

Definition session_room : Z := 128.

Definition ErrTransportClosed : error := Errorf "transport: transport closed" [].

(** [LUpgrade]: a request reached the handler, with the answers of the upgrade
    and of smux for the connection [s]; [LQueue] and [LDrop]: the two cases of the
    handler's select; the three cases of [AcceptSession]; [Close] with what
    closing the HTTP server gives. *)
Inductive listenAction : Type :=
  | LUpgrade (upgrade smux : option error) (s : nat) | LQueue (i : nat) | LDrop (i : nat)
  | LAccept | LAcceptClosed | LAcceptCtx (e : error) | LClose (err : option error).

(** What a call returns: a session, or the error of [Close]. *)
Inductive listenResult : Type := RNone | RSession (r : res nat) | RClosed (err : option error).

Definition remove_nth {A} (i : nat) (l : list A) : list A := take i l ++ drop (S i) l.

Definition listen_step (a : listenAction) (w : tcpListener) : option (tcpListener * listenResult) :=
  let '(mkTcpListener p q c d x) := w in
  match a with
  | LUpgrade (Some _) _ _ => Some (w, RNone)
  | LUpgrade None (Some _) s => Some (mkTcpListener p q c d (x ++ [s]), RNone)
  | LUpgrade None None s => Some (mkTcpListener (p ++ [s]) q c d x, RNone)
  | LQueue i =>
      match p !! i with
      | Some s => if len q <? session_room then Some (mkTcpListener (remove_nth i p) (q ++ [s]) c d x, RNone) else None
      | None => None
      end
  | LDrop i =>
      match p !! i with
      | Some s => if c then Some (mkTcpListener (remove_nth i p) q c d (x ++ [s]), RNone) else None
      | None => None
      end
  | LAccept => match q with s :: q => Some (mkTcpListener p q c (d ++ [s]) x, RSession (Ok s)) | [] => None end
  | LAcceptClosed => if c then Some (w, RSession (Err ErrTransportClosed)) else None
  | LAcceptCtx e => Some (w, RSession (Err e))
  | LClose err => Some (mkTcpListener p q true d x, RClosed (if c then None else err))
  end.

Fixpoint listen_run (acts : list listenAction) (w : tcpListener) : option tcpListener :=
  match acts with
  | [] => Some w
  | a :: acts => r ← listen_step a w; listen_run acts (fst r)
  end.

(** * The listener of the QUIC transport *)

Record ListenOptions : Type := mkListenOptions {
  lo_TLS : option (TLSConfig * list bytes); lo_MaxIdle : Z; lo_MaxIncoming : Z; lo_EnableDatagrams : bool;
}.

(** What [quic.ListenAddr] is called with. *)
Record quicListen : Type := mkQuicListen {
  ql_addr : bytes; ql_tls : TLSConfig; ql_protos : list bytes; ql_datagrams : bool; ql_idle : Z; ql_incoming : Z;
}.

Definition quic_Listen (listen : quicListen -> res nat) (addr : bytes) (opts : ListenOptions) : res nat :=
  match lo_TLS opts with
  | None => Err (Errorf "tls.Config is required for QUIC listener" [])
  | Some (conf, protos) =>
      let protos := match protos with [] => [DefaultALPN] | _ => protos end in
      res_map_err (Wrapf "quic.ListenAddr failed on %s: %w")
        (listen (mkQuicListen addr conf protos true (positive_or (lo_MaxIdle opts) (30 * Second)) (lo_MaxIncoming opts)))
  end.

(** * The accept loop: theorems *)

(** What holds in every state of the loop. *)
Record accept_inv (w : acceptWorld) : Prop := {
  ai_handled : aw_handled w = aw_accepted w;
  ai_done : l_done (aw_listener w) = negb (aw_running w);
  ai_ctx : aw_running w = false -> aw_ctx w = true;
  ai_closed : l_ctxWaits (aw_listener w) = false -> aw_open w = false;
  ai_closing : l_closing (aw_listener w) = negb (aw_open w);
}.

Lemma finish_fields err l :
  l_done (finish err l) = true /\ l_ctxWaits (finish err l) = l_ctxWaits l /\ l_closing (finish err l) = l_closing l.
Proof. unfold finish. by destruct (l_done l) eqn:E. Qed.

Lemma accept_keeps a w w' : accept_inv w -> accept_step a w = Some w' -> accept_inv w'.
Proof.
  intros [H1 H2 H3 H4 H5] H. destruct (finish_fields None (aw_listener w)) as (F1 & F2 & F3).
  destruct w as [ctx op l run acc han ret]; cbn in *. destruct a; cbn in H.
  - destruct run, op; try done. injection H as <-. split; cbn; first [done | by auto | intros; congruence].
  - destruct run; [|done]. destruct ctx; injection H as <-; split; cbn; rewrite ?F1, ?F2, ?F3; first [done | by auto | intros; congruence].
  - injection H as <-. split; cbn; first [done | by auto | intros; congruence].
  - destruct ctx, (l_ctxWaits l); try done. injection H as <-. split; cbn; first [done | by auto | intros; congruence].
  - injection H as <-. split; cbn; first [done | by auto | intros; congruence].
Qed.

Lemma accept_reach acts w w' : accept_inv w -> accept_run acts w = Some w' -> accept_inv w'.
Proof.
  revert w. induction acts as [|a acts IH]; intros w H E; [by injection E as <-|].
  apply bind_Some in E as (w1 & E1 & E2). eauto using accept_keeps.
Qed.

Lemma accept_start_inv : accept_inv accept_start.
Proof. by split. Qed.

(** The loop of a local proxy's listener, in every order of connections, errors,
    cancellation and closing: a handler is started for every connection that was
    accepted, in order and once; the loop ends only after the context is over,
    and the listener is done exactly then; once the context is over and the
    socket closed, no connection gets in and the next return of [Accept] ends the
    loop. *)
Theorem accept_loop_serves (acts : list acceptAction) (w : acceptWorld) (Hrun : accept_run acts accept_start = Some w) :
  aw_handled w = aw_accepted w /\
  (l_done (aw_listener w) = true <-> aw_running w = false) /\
  (aw_running w = false -> aw_ctx w = true) /\
  (aw_ctx w = true -> aw_running w = true -> aw_open w = false ->
   (forall c, accept_step (AConn c) w = None) /\
   forall e, exists w', accept_step (AError e) w = Some w' /\ aw_running w' = false /\ l_State (aw_listener w') = bs "stopped").
Proof.
  apply (accept_reach _ _ _ accept_start_inv) in Hrun as [H1 H2 H3 H4 H5].
  split; [done|]. split; [rewrite H2; by destruct (aw_running w)|]. split; [done|].
  intros Hc Hr Ho. rewrite Hr in H2. cbn [accept_step]. rewrite Hc, Hr, Ho. split; [done|]. intros _. eexists. split; [done|].
  cbn. unfold finish. by rewrite H2.
Qed.

(** The engine's view of a listener is what its loop does: a step of the loop that
    changes the listener is the engine's step for the end of the context, for the
    end of the loop, or a call of [Close]. *)
Theorem accept_refines_engine (acts : list acceptAction) (a : acceptAction) (w w' : acceptWorld) (l : nat) (e : engineWorld)
    (Hrun : accept_run acts accept_start = Some w) (Hstep : accept_step a w = Some w')
    (Hl : ew_listeners e !! l = Some (aw_listener w)) (Hctx : cancelled e = aw_ctx w) :
  aw_listener w' = aw_listener w \/
  a = AClose /\ aw_listener w' = listener_Close (aw_listener w) \/
  exists act e', act ∈ [ECtxClose l; EAcceptEnd l] /\ engine_step act e = ENext e' /\
    ew_listeners e' !! l = Some (aw_listener w') /\ cancelled e' = aw_ctx w'.
Proof.
  apply (accept_reach _ _ _ accept_start_inv) in Hrun as [H1 H2 H3 H4 H5].
  destruct a; cbn [accept_step] in Hstep.
  - destruct (_ && _); [|done]. injection Hstep as <-. by left.
  - destruct (aw_running w) eqn:Er; [|done]. destruct (aw_ctx w) eqn:Ec; injection Hstep as <-; [|by left].
    right; right. exists (EAcceptEnd l). eexists. split; [by right; left|]. cbn [engine_step]. rewrite Hl, Hctx, H2. cbn [negb andb].
    split; [done|]. cbn. by rewrite list_lookup_alter_eq, Hl.
  - injection Hstep as <-. by left.
  - destruct (aw_ctx w) eqn:Ec; [|done]. destruct (l_ctxWaits _) eqn:Ew; [|done]. injection Hstep as <-.
    right; right. exists (ECtxClose l). eexists. split; [by left|]. cbn [engine_step]. rewrite Hl, Hctx, Ew. cbn [andb].
    split; [done|]. cbn. by rewrite list_lookup_alter_eq, Hl.
  - injection Hstep as <-. by right; left.
Qed.

(** A connection, an error that is retried, another connection, and the end. *)
Example accept_shutdown :
  exists w, accept_run [AConn 1; AError EOF; AConn 2; ACancel; ACtxClose; AError EOF] accept_start = Some w /\
    aw_handled w = [1%nat; 2%nat] /\ aw_retries w = 1%nat /\ aw_running w = false /\ l_done (aw_listener w) = true.
Proof. eexists. split; [reflexivity|]. by split_and!. Qed.

(** While the context lasts an error of [Accept] is retried at once, however
    often it comes back: a socket that fails for good keeps the loop busy. *)
Theorem accept_error_spins (e : error) (n : nat) (w : acceptWorld)
    (Hctx : aw_ctx w = false) (Hrun : aw_running w = true) :
  accept_run (repeat (AError e) n) w =
    Some (mkAccept false (aw_open w) (aw_listener w) true (aw_accepted w) (aw_handled w) (n + aw_retries w)).
Proof.
  revert w Hctx Hrun. induction n as [|n IH]; intros w Hc Hr; [destruct w; cbn in *; by subst|].
  cbn [repeat accept_run accept_step]. rewrite Hr, Hc. cbn [mbind option_bind]. rewrite IH by done. cbn. f_equal. f_equal. lia.
Qed.

(** * The transport's listener: theorems *)

(** The connections that were upgraded, in order. *)
Definition upgraded (acts : list listenAction) : list nat :=
  omap (fun a => match a with LUpgrade None _ s => Some s | _ => None end) acts.

Lemma remove_nth_perm {A} i (l : list A) x : l !! i = Some x -> l ≡ₚ x :: remove_nth i l.
Proof. intros H. unfold remove_nth. rewrite Permutation_middle. by rewrite take_drop_middle. Qed.

Definition held (w : tcpListener) : list nat := tl_pending w ++ tl_queue w ++ tl_delivered w ++ tl_dropped w.

Lemma listen_held a w w' r : listen_step a w = Some (w', r) -> held w' ≡ₚ upgraded [a] ++ held w.
Proof.
  destruct w as [p q c d x]. unfold held. intros H. destruct a as [[?|] [?|] s|i|i| | |e|e]; cbn in H.
  1-2: by injection H as <- <-.
  - injection H as <- <-. cbn. rewrite !(assoc_L (++)). by rewrite <- Permutation_cons_append.
  - injection H as <- <-. cbn. rewrite <- (assoc_L (++) p). cbn. by rewrite <- Permutation_middle.
  - destruct (p !! i) as [s|] eqn:E; [|done]. destruct (_ <? _); [|done]. injection H as <- <-. cbn.
    rewrite (remove_nth_perm _ _ _ E) at 2. rewrite <- (assoc_L (++) q). cbn. by rewrite <- !Permutation_middle.
  - destruct (p !! i) as [s|] eqn:E; [|done]. destruct c; [|done]. injection H as <- <-. cbn.
    rewrite (remove_nth_perm _ _ _ E) at 2. rewrite !(assoc_L (++)), <- Permutation_cons_append. done.
  - destruct q as [|s q]; [done|]. injection H as <- <-. cbn. rewrite <- (assoc_L (++) d). cbn. by rewrite <- !Permutation_middle.
  - destruct c; [|done]. by injection H as <- <-.
  - by injection H as <- <-.
  - by injection H as <- <-.
Qed.

Lemma listen_keeps a w w' r :
  listen_step a w = Some (w', r) ->
  (len (tl_queue w) <= session_room -> len (tl_queue w') <= session_room) /\
  (tl_closed w' = false -> tl_closed w = false /\
     tl_dropped w' = tl_dropped w ++ omap (fun a => match a with LUpgrade None (Some _) s => Some s | _ => None end) [a]).
Proof.
  destruct w as [p q c d x]. intros H. destruct a as [[?|] [?|] s|i|i| | |e|e]; cbn in H;
    repeat case_match; simplify_eq; cbn; rewrite ?(right_id_L [] (++)); try done; (split; [|done]); intros Hq;
    rewrite ?len_app in *; unfold len in *; cbn in *; lia.
Qed.

(** What the listener promises: every connection that was upgraded is, once, about
    to be queued, queued, handed out or closed; the queue holds at most 128; and
    before [Close] nothing is closed except what smux refused. *)
Theorem listener_conserves (acts : list listenAction) (w : tcpListener) (Hrun : listen_run acts tcp_Listen = Some w) :
  held w ≡ₚ upgraded acts /\ len (tl_queue w) <= session_room /\
  (tl_closed w = false -> tl_dropped w = omap (fun a => match a with LUpgrade None (Some _) s => Some s | _ => None end) acts).
Proof.
  assert (forall acts w0 w, listen_run acts w0 = Some w ->
    held w ≡ₚ upgraded acts ++ held w0 /\ (len (tl_queue w0) <= session_room -> len (tl_queue w) <= session_room) /\
    (tl_closed w = false -> tl_closed w0 = false /\
       tl_dropped w = tl_dropped w0 ++ omap (fun a => match a with LUpgrade None (Some _) s => Some s | _ => None end) acts)) as H.
  { clear. induction acts as [|a acts IH]; intros w0 w H; [injection H as <-; cbn; by rewrite (right_id_L [] (++))|].
    apply bind_Some in H as ([w1 r] & E & H). cbn [fst] in H. destruct (IH _ _ H) as (H1 & H2 & H3). pose proof (listen_held _ _ _ _ E) as Hh.
    destruct (listen_keeps _ _ _ _ E) as (K1 & K2). split_and!.
    - rewrite H1, Hh. change (a :: acts) with ([a] ++ acts). unfold upgraded. rewrite omap_app. by rewrite !(assoc_L (++)), (comm (++) (omap _ acts)).
    - auto.
    - intros Hc. destruct (H3 Hc) as [Hc1 ->]. destruct (K2 Hc1) as [? ->]. split; [done|]. by rewrite <- (assoc_L (++)), <- omap_app. }
  destruct (H _ _ _ Hrun) as (H1 & H2 & H3). cbn in *. rewrite (right_id_L [] (++)) in H1. split_and!; [done|by apply H2|]. intros Hc. by destruct (H3 Hc).
Qed.

(** [Close] does not release the queue: a session that waits there stays until a
    call of [AcceptSession] happens to take it, and only such a call does. *)
Theorem queued_sessions_kept (acts : list listenAction) (w w' : tcpListener)
    (Hrun : listen_run acts w = Some w') (Hnone : LAccept ∉ acts) :
  exists more, tl_queue w' = tl_queue w ++ more.
Proof.
  revert w Hrun. induction acts as [|a acts IH]; intros w H; [injection H as <-; exists []; by rewrite (right_id_L [] (++))|].
  apply bind_Some in H as ([w1 r] & E & H). cbn [fst] in H. apply not_elem_of_cons in Hnone as [Ha Hn]. destruct (IH Hn _ H) as [m ->].
  assert (exists m1, tl_queue w1 = tl_queue w ++ m1) as [m1 ->]; [|exists (m1 ++ m); by rewrite (assoc_L (++))].
  destruct w as [p q c d x]. destruct a as [[?|] [?|] s|i|i| | |e|e]; cbn in E; repeat case_match; simplify_eq; cbn; try done;
    (by eexists) || (exists []; by rewrite (right_id_L [] (++))).
Qed.

(** A closed listener with a session nobody closes; a further call may return
    either. *)
Example closed_with_session :
  exists w, listen_run [LUpgrade None None 7; LQueue 0; LClose None; LAcceptClosed] tcp_Listen = Some w /\
    tl_queue w = [7%nat] /\ tl_dropped w = [] /\ tl_closed w = true.
Proof. eexists. split; [reflexivity|]. by split_and!. Qed.

(** The QUIC listener takes datagrams whatever the options say, so
    [-enable-datagram=false] changes nothing; its TLS settings are the server's,
    and it needs some. *)
Theorem datagrams_always_on (listen : quicListen -> res nat) (addr : bytes) (opts : ListenOptions) (b : bool) :
  quic_Listen listen addr (mkListenOptions (lo_TLS opts) (lo_MaxIdle opts) (lo_MaxIncoming opts) b) = quic_Listen listen addr opts /\
  (forall conn, quic_Listen listen addr opts = Ok conn ->
     exists conf protos q, lo_TLS opts = Some (conf, protos) /\ listen q = Ok conn /\
       ql_addr q = addr /\ ql_tls q = conf /\ ql_protos q <> [] /\ ql_datagrams q = true /\ 0 < ql_idle q).
Proof.
  split; [done|]. intros conn H. unfold quic_Listen in H. destruct (lo_TLS opts) as [[conf protos]|]; [|done].
  apply res_map_err_ok in H. eexists conf, protos, _. split; [done|]. split; [exact H|]. cbn. split_and!; try done; [by destruct protos|].
  unfold positive_or. destruct (Z.leb_spec (lo_MaxIdle opts) 0); [done|lia].
Qed.
